(* ===== verification/_CoqProject ===== *)
-Q . S2P
Prelude.v
Consensus.v
Storage.v
Circuit.v
Dispatch.v
CircuitHandlers.v
CircuitRouting.v
BiMap.v
Network.v
Auth.v
AuthProps.v
Hex.v
Keys.v
AdminMessages.v
DurableSets.v
Mailbox.v
OpenProposals.v
AdminShared.v
AdminCommit.v
AdminProps.v
AtomicCommit.v
TwoPhase.v
AdminConsensus.v
AdminSafety.v
AdminReady.v
AdminOutcome.v
AdminExample.v
TwoPhaseNode.v
TwoPhaseNetwork.v
TwoPhaseProps.v
TwoPhaseProgress.v
Framing.v
Transport.v
Zmq.v
ZmqProps.v
Tls.v
MeshReactor.v
MeshProps.v
Reply.v
Services.v
ServiceProcessor.v
ServiceOrchestrator.v
OrchestratorProps.v
ServiceDelivery.v
ServiceExample.v
PeerConnector.v
Events.v
ScabbardState.v
Scabbard.v
ScabbardProps.v
ScabbardHistory.v
ScabbardFactory.v
ScabbardExample.v
NodeRegistry.v
Routes.v
Config.v
Daemon.v
FileTree.v
Cli.v
CliProps.v
CliCerts.v
CliCertsProps.v
RestApi.v
AdminRest.v
AdminRestProps.v
DaemonStart.v
DaemonStartProps.v
WebSocket.v
ExampleService.v
PrivateCounter.v
PrivateXo.v
Clients.v
CounterCli.v
GameroomDatabase.v
GameroomSabre.v
GameroomEvents.v
GameroomProps.v
GameroomRoutes.v
GameroomApi.v
GameroomDaemon.v
