(* ===== verification/Prelude.v ===== *)
(** * Splinter: a verification development

    Splinter runs private circuits between nodes: a circuit is a set of member
    nodes and a roster of services, and messages only travel between services of
    the same circuit.  This library models a node, in [src/libsplinter/src] and
    [src/splinterd/src], the command line and the client library, in [src/cli] and
    [src/client], and the applications of [src/examples], and proves what makes them
    correct.

    ** The parts of the program and how they interact

    Connections come from transports, are framed, and are pooled in a mesh whose
    reactor moves messages.  A peer that connects to a node is known to the
    network by a temporary name, and is renamed by the authorization handshake.
    Messages are dispatched by type; those of peers that are not authorized are
    dropped, those of circuits go on to a second dispatcher, whose handlers read
    and change the shared [SplinterState] and pass messages on to services.
    Services run in the orchestrator of a node or in a process of their own, with
    a service processor; they send through senders and get replies through a
    router.  Circuits come and go by proposals: the admin services of the members
    agree on a payload (a proposed circuit or a vote) by two-phase commit, and
    each commits the change to its open proposals or to its [SplinterState], then
    has the orchestrator start its services when all members are ready.  Scabbard
    is such a service: it runs batches of transactions and commits by two-phase
    commit too.  The daemon puts the parts together from its configuration and
    answers REST requests.  Applications follow the events of the admin service
    and of scabbard over websockets, and keep what they learn in a database.  The
    command line makes the keys, the key registries and the certificates that nodes
    start with.

    ** The files and what they model

    - [Prelude]: results, the state and error monad [eff], tactics and the hint
      database [splinter], lemmas on lists, maps and strings, number parsing.
    - Consensus.  [Consensus]: the types and the traits of [consensus/mod.rs],
      errors, timer.  [AtomicCommit]: an abstract specification of atomic
      commitment.  [TwoPhase]: the engine of [consensus/two_phase/mod.rs], method by
      method.  [TwoPhaseNode] has the invariant of one node, [TwoPhaseNetwork]
      networks of nodes, [TwoPhaseProps] and [TwoPhaseProgress] the theorems.
    - State.  [Storage]: [storage/mod.rs], [yaml.rs], [memory.rs].  [DurableSets]:
      [storage/sets].  [Circuit]: [circuit/mod.rs], [directory.rs], [service.rs].
      [BiMap]: [collections/mod.rs].  [Hex], [Keys]: [hex.rs] and [signing], [keys].
      [NodeRegistry]: [node_registry].
    - Network.  [Framing], [Transport]: [transport], with the in-process, raw and multi
      transports.  [Zmq]: [transport/zmq.rs], with its theorems in [ZmqProps].  [Tls]:
      [transport/tls.rs].  [MeshReactor]: [mesh], with its theorems in [MeshProps].
      [Network]: [network/mod.rs].  [Reply], [PeerConnector]: [network/reply.rs],
      [peer.rs], [sender.rs].  [Dispatch]: [network/dispatch.rs], [dispatch_proto.rs],
      [handlers.rs], and [channel] in [Module Channel].  [Auth]: [network/auth] and the
      heartbeats of [network/mod.rs], with its theorems in [AuthProps].  [CircuitHandlers]:
      [circuit/handlers], with its theorems in [CircuitRouting].
    - Services.  [Services]: [service/mod.rs], [sender.rs], [registry.rs].
      [ServiceProcessor]: [service/processor.rs].  [ServiceOrchestrator]:
      [orchestrator], with its theorems in [OrchestratorProps].  [ServiceDelivery]
      puts senders, nodes and receivers together; [ServiceExample] is an instance.
    - Admin service.  [AdminMessages], [Mailbox], [OpenProposals]: [messages.rs],
      [mailbox.rs] and [open_proposals.rs] of [admin/service].  [AdminShared],
      [AdminCommit]: the two halves of [admin/service/shared.rs]; [AdminConsensus]:
      [admin/service/consensus.rs] and [mod.rs].  [AdminProps], [AdminSafety],
      [AdminReady] and [AdminOutcome] have the theorems, and [AdminExample] a node
      they are evaluated on.
    - Scabbard.  [ScabbardState], [Scabbard], [ScabbardFactory]: [service/scabbard];
      [ScabbardProps] and [ScabbardHistory] have the theorems, [ScabbardExample] an
      instance.  [Events]: [rest_api/events.rs].
    - REST interfaces.  [RestApi]: [rest_api/mod.rs], the resources of the orchestrator
      and of the health service.  [AdminRest]: [admin/rest_api] and the websockets of
      [rest_api/events.rs], with its theorems in [AdminRestProps].
    - Daemon.  [Config], [Daemon], [Routes]: [splinterd/src], its configuration, its
      threads, and its REST routes.  [DaemonStart]: [SplinterDaemon::start], which
      connects the parts, with its theorems in [DaemonStartProps].
    - Command line.  [FileTree]: the files and directories of a system, and the calls on
      them, each of which may fail.  [Cli], [CliCerts]: [cli/src/action], the keys and
      the certificates, with their theorems in [CliProps] and [CliCertsProps].
      [Clients]: the rest of [cli/src], [client/src], the certificates a daemon
      generates, and the start of the example services.
    - Applications.  [WebSocket]: the client of [libsplinter/src/events].
      [ExampleService], [PrivateCounter], [PrivateXo], [CounterCli]:
      [examples/private_counter] and [examples/private_xo].  [GameroomDatabase], [GameroomSabre],
      [GameroomEvents], [GameroomRoutes], [GameroomDaemon]: [examples/gameroom], its
      tables and queries, transactions, event handlers, REST routes, start and server;
      [GameroomProps] and [GameroomApi] have the theorems.

    ** How the code is modelled

    A function that returns [Result] gives a [result]; a method on a mutable or
    lock-protected structure is an [eff] computation on its state, which keeps the
    changes made before an early return.  A trait is a class on the type [W] of
    the world its implementation acts on.  Rust's hash maps and B-tree maps are
    [gmap]s; where the order of iteration matters, lists.  Integers keep their
    width where they can overflow, and wrap around as in a release build.  A panic
    is an error value of its own, so that its absence is a theorem
    ([authorization_never_panics]).  A call that blocks on the answer of another
    thread is two operations, the request and the wait.  A thread is a function
    of what its channel gives it; threads that share state are steps of a
    relation, in any order.

    Code outside of the repository, and parts of it that are input and output, are
    interfaces: the protobuf codec ([Codec], [CodecLaws]), the file system and the
    YAML serialiser ([FileSystem], [PlainFiles], [Serde] and their laws), sockets and polls,
    signatures, hashing, clocks, channels, transact and Sawtooth ([Transact],
    [Sabre]), JSON, HTTP clients and servers.  Their laws are hypotheses of the
    theorems that need them, and the witnesses of these theorems give concrete
    instances that satisfy them.

    ** What the theorems show

    - Two-phase commit: a network of engines refines atomic commitment, under
      delay, loss, reordering and duplication of messages and whatever managers,
      senders and clocks do.  So nodes agree, and what is accepted was found valid
      by all verifiers.  A coordinator commits when all responses have arrived and
      aborts exactly when its timer has expired; the loop of [run] is the sequence
      of the events of its iterations.  The hypothesis [update_ok] states what
      the engine expects of its proposal managers: a proposal is offered to a node
      once, with the verifiers all nodes agree on, of which there is one at least.
    - Admin service: circuits are only added when exactly the members other than
      the requester are recorded as voters and no vote rejects (what the code does
      not check of votes, the lemmas named below show); a node finds a proposal
      valid exactly when it would make the same change, and commits that change as long as
      it is still the pending one; a committed circuit can be routed to; no circuit
      waits when all its members have been heard of, and the last one starts it; payloads
      wait for the handshake with the members exactly as long as they must; validation and
      approval are characterised; an application that registers sees the events of the
      mailbox and those after its subscription once, and not those between.
    - Circuits: direct messages are isolated, connecting a service has exactly the
      documented conditions, the service directory keeps its invariant, and
      changes of the circuit directory survive a restart.
    - Network: framing is undone by reading, however a stream cuts it; the mesh
      keeps messages in order, without loss, and its queues within their bounds; so do
      channels; the ZeroMQ router pairs connections and loses nothing; what TLS verifies;
      heartbeats report the peers that have gone; a peer is authorized only after the
      handshake, messages of others have no effect, the handlers do not panic, renaming
      keeps routes; the main loop of the daemon hands on the messages that known peers
      wrote, up to one that is none; and a daemon that has started knows its internal
      services by their names, unless it was given an in-process address.
    - Services: a message is handled by the service it was sent to and a reply
      reaches its request; the orchestrator runs what the admin service believes it
      runs; a service of its own process gets through the handshake with a node.
    - Scabbard: services that accept the same proposals have the same state, when each is
      the one they validated last, since the change that was prepared last is committed;
      only batches with valid signatures are queued, the history of batches is bounded and
      loses its oldest, and subscribers see the commits.
    - Command line: keys, registries and certificates are whole and belong together, and
      existing files are kept unless forced, unchecked with [--skip]; what a daemon finds of
      them.
    - REST interfaces: a request to an endpoint of a service reaches that service of that
      circuit; the nested scopes of the gameroom server come to a flat table.
    - Websockets: a connection reports its end once, and reconnecting backs off and
      ends.
    - Applications: the counters of the private counter agree; an accepted proposal
      of private XO is committed; the tables of the gameroom daemon agree whatever
      events it handles, when acceptance, readiness and state changes come in this order,
      which it does not check; the circuit it proposes is that of the nodes splinterd
      lists, and one the admin service accepts; users that register can log in, waiting
      for batches ends.
    - Data: the node registry refines a map, which its file has after every operation that
      succeeds; round trips of proposals, keys,
      hexadecimal strings, open proposals and the bidirectional map; durable sets
      are well formed and lose their lowest index; the mailbox is read in order across its pages; following the
      links of a list visits every node.

    Some theorems and lemmas show where the code falls short of its intent.  In the
    library and the daemon: [reject_drops_change], [two_phase_single_verifier],
    [wrong_signature_queued], [permission_ignored], [unset_vote_consents],
    [redirect_shadows_peer], [send_by_old_name_keeps_peer],
    [admin_prefix_bypasses_allowed_nodes], [mailbox_add_same_time],
    [parse_hex_panics], [parse_hex_accepts_sign], [zero_limit_panics],
    [circuits_next_is_first], [filters_page_twice], [timeout_counts_as_failure],
    [stream_end_unnoticed], [close_sent_twice], [zmq_last_sent_first],
    [short_message_panics], [second_request_panics], [second_listen_fails],
    [same_route_shadowed], [ping_answered_with_ping], [event_between_missed],
    [internal_address_taken], [health_service_never_starts],
    [failed_write_loses_registry].  In the command line and the
    client: [half_a_key_written], [force_keeps_mode_and_rest], [dotted_names_collide],
    [force_loses_registry], [missing_key_message], [force_leaves_mismatch],
    [generated_certs_found], [health_status_unreadable], [client_expects_localhost],
    [generated_transport_insecure].  In the applications: [gameroom_named_propose],
    [waiting_increments_fail], [log_hex_ambiguous], [batches_route_first],
    [vote_recorded_again], [ready_unchecked], [short_key_panics],
    [zero_limit_list_panics], [vote_circuit_unchecked], [xo_total_counts_all],
    [notification_twice], [notification_missed].

    ** Bounds and fuel

    Loops that read from a channel ([run_loop], [dispatch_loop]) recurse on the
    list of what the channel delivers, of any length.  Loops that poll the network
    for ever ([main_loop], [service_iterations], [heartbeat_thread], the router of
    [Zmq]) take the number of iterations, and their theorems hold for every number.  Where
    a loop ends, fuel is shown to be enough: for the items of the mailbox ([mailbox_last_events] holds for any fuel
    above its bound), for the reads of a framed message, for the pages of a list
    ([paging_visits_all], one more than the nodes), for the wait before a
    reconnection ([reconnect_backoff]) and for the requests for the status of
    batches ([submit_answers], one more than the seconds to wait).  Pages have the
    100 entries of the source.

    ** What is not modelled

    Locks and the start of threads: an operation that holds a lock is one step.
    Argument parsing (clap), logging, handlers for signals, and what the libraries do:
    sockets, OpenSSL, libzmq, actix, diesel, the Sawtooth SDK; what they give to the code
    and take from it are arguments and results.  The tables of biome and the wrappers of
    its database connections, which have no logic of their own.  The texts of most
    errors.  The copies that [private_xo] has of the loops of [private_counter], which
    [ExampleService] models once.  Canopy and the web interfaces of the examples, which
    are clients in other languages.  The engine and the admin service are verified
    separately: [update_ok] does not hold of the admin service when a payload is
    submitted twice, since the id of a proposal is the hash of its payload, and is left
    to those who submit. *)

From Stdlib Require Export Ascii.
From stdpp Require Export base tactics gmap strings list fin_maps sorting.

Set Default Goal Selector "!".

(** ** Rust results and effectful code

    A fallible Rust function of return type [Result<A, E>] is a value of
    [result E A]; a method taking [&mut self] (or a reference to a shared
    lock-protected structure) of state [S] is a value of [eff S E A].  An
    early return through [?] is the bind of the monad: the state changes made
    before the failing call are kept, as in the source. *)

Inductive result (E A : Type) : Type :=
  | Ok (a : A)
  | Err (e : E).
Arguments Ok {E A} a.
Arguments Err {E A} e.

#[global] Instance result_eq_dec `{EqDecision E, EqDecision A} :
  EqDecision (result E A).
Proof. solve_decision. Defined.

Definition is_ok {E A} (r : result E A) : bool :=
  match r with Ok _ => true | Err _ => false end.

Definition map_err {E E' A} (f : E → E') (r : result E A) : result E' A :=
  match r with Ok a => Ok a | Err e => Err (f e) end.

Definition ok_or {E A} (e : E) (o : option A) : result E A :=
  match o with Some a => Ok a | None => Err e end.

#[global] Instance result_ret {E} : MRet (result E) := λ A, Ok.
#[global] Instance result_bind {E} : MBind (result E) := λ A B f r,
  match r with Ok a => f a | Err e => Err e end.

Lemma result_bind_inv {E A B} (m : result E A) (k : A → result E B) b :
  (m ≫= k) = Ok b → ∃ a, m = Ok a ∧ k a = Ok b.
Proof. destruct m; cbn; [eauto|done]. Qed.

Definition eff (S E A : Type) : Type := S → result E A * S.

#[global] Instance eff_ret {S E} : MRet (eff S E) := λ A a s, (Ok a, s).
#[global] Instance eff_bind {S E} : MBind (eff S E) := λ A B f m s,
  match m s with
  | (Ok a, s') => f a s'
  | (Err e, s') => (Err e, s')
  end.

Definition throw {S E A} (e : E) : eff S E A := λ s, (Err e, s).
Definition get {S E} : eff S E S := λ s, (Ok s, s).
Definition modify {S E} (f : S → S) : eff S E unit := λ s, (Ok (), f s).
Definition lift {S E A} (r : result E A) : eff S E A := λ s, (r, s).
Definition emap_err {S E E' A} (f : E → E') (m : eff S E A) : eff S E' A :=
  λ s, let '(r, s') := m s in (map_err f r, s').
(** [match m { Ok(..) => .., Err(..) => .. }]: the result is inspected. *)
Definition attempt {S E E' A} (m : eff S E A) : eff S E' (result E A) :=
  λ s, let '(r, s') := m s in (Ok r, s').
(** [if let Err(err) = m { error!(..) }]: the error is logged and dropped. *)
Definition catch_log {S E E'} (m : eff S E ()) : eff S E' () :=
  λ s, let '(_, s') := m s in (Ok (), s').

Section eff_lemmas.
Context {S E : Type}.

Lemma eff_bind_ok {A B} (m : eff S E A) (k : A → eff S E B) s a s' :
  m s = (Ok a, s') → (m ≫= k) s = k a s'.
Proof. unfold mbind, eff_bind. by intros ->. Qed.

Lemma eff_bind_err {A B} (m : eff S E A) (k : A → eff S E B) s e s' :
  m s = (Err e, s') → (m ≫= k) s = (Err e, s').
Proof. unfold mbind, eff_bind. by intros ->. Qed.

Lemma eff_bind_inv {A B} (m : eff S E A) (k : A → eff S E B) s b s'' :
  (m ≫= k) s = (Ok b, s'') → ∃ a s', m s = (Ok a, s') ∧ k a s' = (Ok b, s'').
Proof. unfold mbind, eff_bind. destruct (m s) as [[a|] s']; [eauto|done]. Qed.
End eff_lemmas.

Lemma ok_or_inv {E A} (e : E) (o : option A) (a : A) : ok_or e o = Ok a → o = Some a.
Proof. destruct o; cbn; congruence. Qed.
Lemma lift_inv {S E A} (r : result E A) (a : A) (s s' : S) : lift r s = (Ok a, s') → r = Ok a ∧ s' = s.
Proof. unfold lift. by intros [= -> ->]. Qed.

(** [bind_step H x] takes the first step of a computation that succeeded apart. *)
Ltac bind_step H x :=
  let s := fresh "w" in let H1 := fresh "Hstep" in
  apply eff_bind_inv in H as (x & s & H1 & H);
  try (apply lift_inv in H1 as [H1 ->]); try (apply ok_or_inv in H1).

(** ** What a computation leaves as it is *)

Definition preserves {S T E A} (view : S → T) (m : eff S E A) : Prop := ∀ s, view (m s).2 = view s.

Section preserves.
Context {S T E : Type} (view : S → T).

Lemma preserves_bind {A B} (m : eff S E A) (k : A → eff S E B) :
  preserves view m → (∀ a, preserves view (k a)) → preserves view (m ≫= k).
Proof.
  intros Hm Hk s. specialize (Hm s). unfold mbind, eff_bind. destruct (m s) as [[a|] s']; [|done]. by rewrite Hk.
Qed.
Lemma preserves_pure {A} (f : S → result E A) : preserves view (λ s, (f s, s)).
Proof. done. Qed.
Lemma preserves_ret {A} (a : A) : preserves view (mret a : eff S E A).
Proof. done. Qed.
Lemma preserves_throw {A} (e : E) : preserves view (throw e : eff S E A).
Proof. done. Qed.
Lemma preserves_get : preserves view (get : eff S E S).
Proof. done. Qed.
Lemma preserves_lift {A} (r : result E A) : preserves view (lift r).
Proof. done. Qed.
End preserves.

(** ** Weakest preconditions *)

Definition wp {S E A} (m : eff S E A) (Q : result E A → S → Prop) (s : S) : Prop :=
  let '(r, s') := m s in Q r s'.

Section wp_rules.
Context {S E : Type}.

Lemma wp_mono {A} (m : eff S E A) (Q Q' : result E A → S → Prop) s :
  wp m Q s → (∀ r s', Q r s' → Q' r s') → wp m Q' s.
Proof. unfold wp. destruct (m s). naive_solver. Qed.

Lemma wp_state {A} (P : S → Prop) (m : eff S E A) s : wp m (λ _, P) s → P (m s).2.
Proof. unfold wp. by destruct (m s). Qed.

Lemma wp_ret {A} (a : A) (Q : result E A → S → Prop) s :
  Q (Ok a) s → wp (mret a) Q s.
Proof. done. Qed.

Lemma wp_bind {A B} (m : eff S E A) (k : A → eff S E B) Q s :
  wp m (λ r s', match r with Ok a => wp (k a) Q s' | Err e => Q (Err e) s' end) s →
  wp (m ≫= k) Q s.
Proof.
  unfold wp, mbind, eff_bind. destruct (m s) as [[a|e] s']; [|done].
  done.
Qed.

Lemma wp_throw {A} (e : E) (Q : result E A → S → Prop) s :
  Q (Err e) s → wp (throw e) Q s.
Proof. done. Qed.

Lemma wp_modify (f : S → S) (Q : result E () → S → Prop) s :
  Q (Ok ()) (f s) → wp (modify f) Q s.
Proof. done. Qed.

Lemma wp_lift {A} (r : result E A) (Q : result E A → S → Prop) s :
  Q r s → wp (lift r) Q s.
Proof. done. Qed.

Lemma wp_get (Q : result E S → S → Prop) s :
  Q (Ok s) s → wp get Q s.
Proof. done. Qed.

Lemma wp_catch_log {E'} (m : eff S E' ()) (Q : result E () → S → Prop) s :
  wp m (λ _ s', Q (Ok ()) s') s → wp (catch_log m) Q s.
Proof. unfold wp, catch_log. by destruct (m s). Qed.

Lemma wp_attempt {E' A} (m : eff S E' A) (Q : result E (result E' A) → S → Prop) s :
  wp m (λ r s', Q (Ok r) s') s → wp (attempt m) Q s.
Proof. unfold wp, attempt. by destruct (m s). Qed.

Lemma wp_emap_err {E' A} (f : E' → E) (m : eff S E' A) Q s :
  wp m (λ r s', Q (map_err f r) s') s → wp (emap_err f m) Q s.
Proof. unfold wp, emap_err. by destruct (m s). Qed.
End wp_rules.

(** [wp_go] runs the rules syntax-directedly until it meets a call it does not
    know. *)
Ltac wp_go :=
  repeat (lazymatch goal with
  | |- wp (_ ≫= _) _ _ => apply wp_bind
  | |- wp (mret _) _ _ => apply wp_ret
  | |- wp (throw _) _ _ => apply wp_throw
  | |- wp (modify _) _ _ => apply wp_modify
  | |- wp (lift _) _ _ => apply wp_lift
  | |- wp get _ _ => apply wp_get
  | |- wp (catch_log _) _ _ => apply wp_catch_log
  | |- wp (attempt _) _ _ => apply wp_attempt
  | |- wp (emap_err _ _) _ _ => apply wp_emap_err
  end; cbn beta iota).

(** ** Byte strings

    Rust's [String], [&str] and [Vec<u8>] are all sequences of 8-bit values
    ([str] is its UTF-8 bytes); they are modelled by Rocq's [string], a list of
    8-bit characters, so that [as_bytes], [to_string] and the like are the
    identity.  [String.le] is the lexicographic order on unsigned bytes, the
    order Rust gives to [Vec<u8>] and to [str]. *)
Abbreviation bytes := string (only parsing).

Definition is_empty (s : string) : bool :=
  match s with EmptyString => true | _ => false end.

(** [starts_with] on [str]. *)
Definition starts_with (prefix s : string) : bool := String.prefix prefix s.

(** [contains] on [str]. *)
Fixpoint contains (pattern s : string) : bool :=
  starts_with pattern s ||
  match s with EmptyString => false | String _ s => contains pattern s end.

(** [s[n..]] *)
Definition slice_from (n : nat) (s : string) : string :=
  String.substring n (String.length s - n) s.

(** [str::split] *)
Fixpoint split_on (sep : ascii) (s : string) : list string :=
  match s with
  | "" => [""]
  | String c s =>
      if bool_decide (c = sep) then "" :: split_on sep s
      else match split_on sep s with
           | part :: parts => String c part :: parts
           | [] => [String c ""]
           end
  end.

Section strings.
Implicit Types s t : string.

Lemma str_app_nil s : "" +:+ s = s.
Proof. done. Qed.
Lemma str_app_cons c s t : String c s +:+ t = String c (s +:+ t).
Proof. done. Qed.
Lemma str_app_assoc s t u : (s +:+ t) +:+ u = s +:+ (t +:+ u).
Proof. induction s as [|c s IH]; [done|]. rewrite !str_app_cons. by f_equal. Qed.
Lemma str_app_nil_r s : s +:+ "" = s.
Proof. induction s as [|c s IH]; [done|]. rewrite str_app_cons. by f_equal. Qed.
Lemma str_length_app s t : String.length (s +:+ t) = String.length s + String.length t.
Proof. induction s as [|c s IH]; [done|]. rewrite str_app_cons. cbn. by f_equal. Qed.

Lemma split_on_no_sep sep s : (∀ n, String.get n s ≠ Some sep) → split_on sep s = [s].
Proof.
  induction s as [|c s IH]; intros Hs; [done|]. cbn.
  rewrite bool_decide_eq_false_2 by (intros ->; by apply (Hs 0)). rewrite IH; [done|]. intros n. apply (Hs (S n)).
Qed.
Lemma split_on_app sep s t :
  (∀ n, String.get n s ≠ Some sep) → split_on sep (s +:+ String sep t) = s :: split_on sep t.
Proof.
  induction s as [|c s IH]; intros Hs; rewrite ?str_app_nil, ?str_app_cons; cbn.
  - by rewrite bool_decide_eq_true_2.
  - rewrite bool_decide_eq_false_2 by (intros ->; by apply (Hs 0)). rewrite IH; [done|]. intros n. apply (Hs (S n)).
Qed.
End strings.

(** [Path::join] of a file name *)
Definition path_join (dir file : string) : string :=
  if bool_decide (dir = "") || bool_decide (String.get (String.length dir - 1) dir = Some "/"%char)
  then dir +:+ file else dir +:+ "/" +:+ file.

(** [usize], on 64 bits.  An addition that overflows wraps around in a release build,
    the one modelled. *)
Definition usize_modulus : Z := 2 ^ 64.
Definition usize_add (a b : Z) : Z := (a + b) mod usize_modulus.

(** [str::parse] for an unsigned type with that many values *)
Definition digit_of (c : ascii) : option Z :=
  let n := Z.of_nat (nat_of_ascii c) in
  if (48 <=? n)%Z && (n <=? 57)%Z then Some (n - 48)%Z else None.
Fixpoint parse_digits (modulus : Z) (s : string) (acc : Z) : option Z :=
  match s with
  | "" => Some acc
  | String c s =>
      d ← digit_of c;
      let acc := (acc * 10 + d)%Z in
      if (acc <? modulus)%Z then parse_digits modulus s acc else None
  end.
Definition parse_unsigned (modulus : Z) (s : string) : option Z :=
  let digits := match s with String c t => if bool_decide (c = "+"%char) then t else s | "" => s end in
  if bool_decide (digits = "") then None else parse_digits modulus digits 0.
(** A conversion to [u32], and the wrap-around of its arithmetic in a release build *)
Definition wrap_u32 (z : Z) : Z := (z `mod` 2 ^ 32)%Z.
(** [usize], and [u64] *)
Definition parse_usize : string → option Z := parse_unsigned usize_modulus.

(** The entries of a [BTreeMap], in the order of its keys. *)
Definition btree_entries {A} (m : gmap string A) : list (string * A) :=
  merge_sort (λ p q, String.le p.1 q.1) (map_to_list m).

(** [String::from_utf8]: the well-formed sequences of bytes of a character, after
    their first byte. *)
Definition in_range (lo hi : nat) (c : ascii) : bool := (lo <=? nat_of_ascii c) && (nat_of_ascii c <=? hi).
Definition is_cont (c : ascii) : bool := in_range 128 191 c.
Fixpoint valid_utf8 (s : string) : bool :=
  match s with
  | "" => true
  | String a s1 =>
      if in_range 0 127 a then valid_utf8 s1 else
      match s1 with
      | "" => false
      | String b s2 =>
          if in_range 194 223 a then is_cont b && valid_utf8 s2 else
          match s2 with
          | "" => false
          | String c s3 =>
              if in_range 224 239 a then
                (if in_range 224 224 a then in_range 160 191 b
                 else if in_range 237 237 a then in_range 128 159 b else is_cont b) &&
                is_cont c && valid_utf8 s3
              else
              match s3 with
              | "" => false
              | String d s4 =>
                  in_range 240 244 a &&
                  (if in_range 240 240 a then in_range 144 191 b
                   else if in_range 244 244 a then in_range 128 143 b else is_cont b) &&
                  is_cont c && is_cont d && valid_utf8 s4
              end
          end
      end
  end.
Definition from_utf8 (b : bytes) : option string := if valid_utf8 b then Some b else None.

(** [String::from_utf8_lossy]: the longest start of a character that is not one becomes
    U+FFFD, and so does a byte that starts none. *)
Definition REPLACEMENT_CHARACTER : string := String "239" (String "191" (String "189" "")).
Definition second_byte_ok (a b : ascii) : bool :=
  if in_range 224 224 a then in_range 160 191 b
  else if in_range 237 237 a then in_range 128 159 b
  else if in_range 240 240 a then in_range 144 191 b
  else if in_range 244 244 a then in_range 128 143 b else is_cont b.
Fixpoint from_utf8_lossy (s : bytes) : string :=
  match s with
  | "" => ""
  | String a s1 =>
      if in_range 0 127 a then String a (from_utf8_lossy s1) else
      if in_range 194 244 a then
        match s1 with
        | "" => REPLACEMENT_CHARACTER
        | String b s2 =>
            if second_byte_ok a b then
              if in_range 194 223 a then String a (String b (from_utf8_lossy s2)) else
              match s2 with
              | "" => REPLACEMENT_CHARACTER
              | String c s3 =>
                  if is_cont c then
                    if in_range 224 239 a then String a (String b (String c (from_utf8_lossy s3))) else
                    match s3 with
                    | "" => REPLACEMENT_CHARACTER
                    | String d s4 =>
                        if is_cont d then String a (String b (String c (String d (from_utf8_lossy s4))))
                        else REPLACEMENT_CHARACTER +:+ from_utf8_lossy s3
                    end
                  else REPLACEMENT_CHARACTER +:+ from_utf8_lossy s2
              end
            else REPLACEMENT_CHARACTER +:+ from_utf8_lossy s1
        end
      else REPLACEMENT_CHARACTER +:+ from_utf8_lossy s1
  end.

(** ** Protobuf

    The generated protobuf code is not part of the repository: for each message
    type it is a parameter of the model, a parser and a writer, both of which
    may fail.  What the program relies on is that parsing what was written
    gives the message back. *)
Class Codec (M : Type) := {
  parse_from_bytes : bytes → option M;
  write_to_bytes : M → option bytes;
}.

Class CodecLaws (M : Type) `{!Codec M} : Prop :=
  parse_write (m : M) (b : bytes) :
    write_to_bytes m = Some b → parse_from_bytes b = Some m.

(** Proto3 messages have no required field: writing one to memory succeeds. *)
Class CodecTotal (M : Type) `{!Codec M} : Prop :=
  write_total (m : M) : is_Some (write_to_bytes m).

(** A concrete codec for any countable type, used by the executable examples:
    the code of the message, written as a string of binary digits. *)
Module CountableCodec.
Fixpoint write_pos (p : positive) : string :=
  match p with
  | xH => "1"
  | xO p => String "0"%char (write_pos p)
  | xI p => String "1"%char (write_pos p)
  end.

Fixpoint parse_pos (s : string) : option positive :=
  match s with
  | "" => None
  | String "1"%char "" => Some xH
  | String "0"%char s => xO <$> parse_pos s
  | String "1"%char s => xI <$> parse_pos s
  | _ => None
  end.

Lemma write_pos_nonempty p : write_pos p ≠ "".
Proof. by destruct p. Qed.

Lemma parse_write_pos p : parse_pos (write_pos p) = Some p.
Proof.
  induction p as [p IH|p IH|]; cbn; [..|done].
  - pose proof (write_pos_nonempty p). destruct (write_pos p); [done|].
    by rewrite IH.
  - by rewrite IH.
Qed.

#[export] Instance codec `{Countable M} : Codec M := {|
  parse_from_bytes b := parse_pos b ≫= decode;
  write_to_bytes m := Some (write_pos (encode m));
|}.

#[export] Instance codec_laws `{Countable M} : CodecLaws M.
Proof.
  intros m b [= <-]. cbn. rewrite parse_write_pos. cbn. apply decode_encode.
Qed.
#[export] Instance codec_total `{Countable M} : CodecTotal M.
Proof. intros m. by eexists. Qed.
End CountableCodec.

(** ** Channels

    What [recv_timeout] gives. *)
Inductive recv (A : Type) :=
  | Received (a : A)
  | RecvTimeout
  | Disconnected.
Arguments Received {A} a.
Arguments RecvTimeout {A}.
Arguments Disconnected {A}.

(** [Sender<M>]: sending fails only when the receiving end is gone. *)
Inductive SendError := SendDisconnected.
Class Sender (W M : Type) := send : M → eff W SendError ().

(** ** Machine integers *)

Definition wrap_i32 (z : Z) : Z := ((z + 2 ^ 31) `mod` 2 ^ 32 - 2 ^ 31)%Z.

(** ** Lists

    [position] and [remove_at] are [Iterator::position] and
    [VecDeque::remove]. *)
Fixpoint position {A} (f : A → bool) (l : list A) : option nat :=
  match l with
  | [] => None
  | x :: l => if f x then Some 0 else S <$> position f l
  end.

Fixpoint remove_at {A} (i : nat) (l : list A) : option (A * list A) :=
  match l, i with
  | [], _ => None
  | x :: l, 0 => Some (x, l)
  | x :: l, S i => p ← remove_at i l; Some (p.1, x :: p.2)
  end.

Section position.
Context {A : Type} (f : A → bool).

Lemma position_Some l i :
  position f l = Some i →
  ∃ x l1 l2, l = l1 ++ x :: l2 ∧ length l1 = i ∧ f x = true ∧
             remove_at i l = Some (x, l1 ++ l2) ∧ Forall (λ y, f y = false) l1.
Proof.
  revert i. induction l as [|y l IH]; intros i; cbn; [done|].
  destruct (f y) eqn:Hf.
  - intros [= <-]. exists y, [], l. naive_solver.
  - intros (j & Hj & ->)%fmap_Some.
    destruct (IH _ Hj) as (x & l1 & l2 & -> & <- & Hx & Hr & Hl1).
    exists x, (y :: l1), l2. split_and!; [done..| |by constructor].
    cbn. by rewrite Hr.
Qed.

Lemma position_None l : position f l = None ↔ Forall (λ x, f x = false) l.
Proof.
  induction l as [|y l IH]; cbn; [by split; constructor|].
  rewrite Forall_cons, <-IH. destruct (f y); [naive_solver|].
  destruct (position f l); naive_solver.
Qed.

Lemma position_is_Some l x : x ∈ l → f x = true → is_Some (position f l).
Proof.
  intros Hx Hf. destruct (position f l) eqn:Hp; [eauto|].
  rewrite position_None, Forall_forall in Hp. specialize (Hp _ Hx). congruence.
Qed.
End position.

Lemma NoDup_shrink {A} (l k : list A) : l ⊆+ k → NoDup k → NoDup l.
Proof.
  intros (k' & Hk)%submseteq_Permutation. rewrite Hk. by intros [? _]%NoDup_app.
Qed.

(** ** Automation shared by the components *)

(** Case analysis on every [match] of the goal, with cleanup. *)
Ltac case_all :=
  repeat (case_match; simplify_eq/=; try done).

Create HintDb splinter.
