(* ===== verification/Consensus.v ===== *)
(** * The consensus API

    Models [libsplinter/src/consensus/mod.rs], [consensus/error.rs] and
    [consensus/two_phase/timing.rs]: identifiers, proposals, updates and
    messages; the traits [ProposalManager] and [ConsensusNetworkSender] as type
    classes on the state [W] of the process that implements them; the
    coordinator's timer. *)

From S2P Require Import Prelude.
From Stdlib Require Import ZArith.

(** ** Identifiers, proposals and messages *)

Abbreviation PeerId := string (only parsing).
Abbreviation ProposalId := string (only parsing).

(** [ProposalProto], the protobuf message ([protos/consensus.proto]). *)
Record ProposalProto := mkProposalProto {
  pp_id : bytes;
  pp_previous_id : bytes;
  pp_proposal_height : Z;
  pp_summary : bytes;
  pp_consensus_data : bytes;
}.

Record Proposal := mkProposal {
  proposal_id : ProposalId;
  previous_id : ProposalId;
  proposal_height : Z;
  summary : bytes;
  consensus_data : bytes;
}.

(** [Proposal::default()] *)
Definition proposal_default : Proposal := mkProposal "" "" 0 "" "".

Definition proposal_from_proto (p : ProposalProto) : Proposal :=
  mkProposal (pp_id p) (pp_previous_id p) (pp_proposal_height p) (pp_summary p)
    (pp_consensus_data p).

Definition proposal_into_proto (p : Proposal) : ProposalProto :=
  mkProposalProto (proposal_id p) (previous_id p) (proposal_height p) (summary p)
    (consensus_data p).

(** [TryFrom<&[u8]>] and [TryInto<Vec<u8>>] *)
Definition proposal_try_from `{!Codec ProposalProto} (b : bytes) : option Proposal :=
  proposal_from_proto <$> parse_from_bytes b.
Definition proposal_try_into `{!Codec ProposalProto} (p : Proposal) : option bytes :=
  write_to_bytes (proposal_into_proto p).

(** [ConsensusMessageProto] and [ConsensusMessage] *)
Record ConsensusMessageProto := mkConsensusMessageProto {
  cmp_message : bytes;
  cmp_origin_id : bytes;
}.

Record ConsensusMessage := mkConsensusMessage {
  message : bytes;
  origin_id : PeerId;
}.

Definition consensus_message_from_proto (m : ConsensusMessageProto) : ConsensusMessage :=
  mkConsensusMessage (cmp_message m) (cmp_origin_id m).
Definition consensus_message_into_proto (m : ConsensusMessage) : ConsensusMessageProto :=
  mkConsensusMessageProto (message m) (origin_id m).

Definition consensus_message_try_from `{!Codec ConsensusMessageProto} (b : bytes) :
    option ConsensusMessage :=
  consensus_message_from_proto <$> parse_from_bytes b.
Definition consensus_message_try_into `{!Codec ConsensusMessageProto}
    (m : ConsensusMessage) : option bytes :=
  write_to_bytes (consensus_message_into_proto m).

(** Messages the [ProposalManager] sends to consensus. *)
Inductive ProposalUpdate :=
  | ProposalCreated (p : option Proposal)
  | ProposalReceived (p : Proposal) (from : PeerId)
  | ProposalValid (id : ProposalId)
  | ProposalInvalid (id : ProposalId)
  | ProposalAccepted (id : ProposalId)
  | ProposalAcceptFailed (id : ProposalId) (err : string)
  | Shutdown.

(** ** Errors

    The boxed source errors ([Box<dyn Error>]) are only ever displayed: they
    carry no payload here.  [PMPanic] is a panic of the manager, which ends the
    thread of the engine. *)
Inductive ProposalManagerError :=
  | PMInternal
  | PMNotReady
  | UnknownProposal (id : ProposalId)
  | UpdateSendFailed
  | PMPanic.

Inductive ConsensusSendError :=
  | CSInternal
  | CSNotReady
  | UnknownPeer (id : PeerId).

Inductive ConsensusEngineError :=
  | EngineProtobufError
  | EngineManagerError (e : ProposalManagerError)
  | EngineSendError (e : ConsensusSendError).

(** ** Interfaces

    The traits, on the state [W] of the implementing process.  [Clock] is
    [Instant::now()], in milliseconds. *)
Class ProposalManager (W : Type) := {
  create_proposal : option ProposalId → bytes → eff W ProposalManagerError ();
  check_proposal : ProposalId → eff W ProposalManagerError ();
  accept_proposal : ProposalId → option bytes → eff W ProposalManagerError ();
  reject_proposal : ProposalId → eff W ProposalManagerError ();
}.

Class ConsensusNetworkSender (W : Type) := {
  send_to : PeerId → bytes → eff W ConsensusSendError ();
  broadcast : bytes → eff W ConsensusSendError ();
}.

Class Clock (W : Type) := now : W → Z.

(** [StartupState] *)
Record StartupState := mkStartupState {
  ss_id : PeerId;
  ss_peer_ids : list PeerId;
  ss_last_proposal : option Proposal;
}.

(** ** The coordinator's timer *)

Inductive TimeoutState := Active | Inactive | Expired.
#[global] Instance TimeoutState_eq_dec : EqDecision TimeoutState.
Proof. solve_decision. Defined.

Record Timeout := mkTimeout {
  timeout_state : TimeoutState;
  timeout_duration : Z;
  timeout_start : Z;
}.

Definition timeout_new (t duration : Z) : Timeout := mkTimeout Inactive duration t.

Definition check_expired (t : Z) (to : Timeout) : bool * Timeout :=
  let st := if bool_decide (timeout_state to = Active ∧ (t - timeout_start to > timeout_duration to)%Z)
            then Expired else timeout_state to in
  (match st with Active | Inactive => false | Expired => true end,
   mkTimeout st (timeout_duration to) (timeout_start to)).

Definition start (t : Z) (to : Timeout) : Timeout :=
  mkTimeout Active (timeout_duration to) t.

Definition stop (to : Timeout) : Timeout :=
  mkTimeout Inactive (timeout_duration to) (timeout_start to).

(** ** Facts *)

Lemma proposal_proto_roundtrip p : proposal_from_proto (proposal_into_proto p) = p.
Proof. by destruct p. Qed.

Lemma check_expired_inactive t to :
  timeout_state to = Inactive → check_expired t to = (false, to).
Proof.
  intros Hto. unfold check_expired. rewrite Hto, bool_decide_eq_false_2 by naive_solver.
  destruct to. by simplify_eq/=.
Qed.

Lemma check_expired_active t to b to' :
  check_expired t to = (b, to') →
  (b = true ∨ timeout_state to' ≠ Inactive) → timeout_state to ≠ Inactive.
Proof.
  unfold check_expired. intros [= <- <-]; cbn. case_bool_decide as Hb.
  - destruct Hb as [-> _]. done.
  - by destruct (timeout_state to); intros [|].
Qed.

(** A timer that was started at [t0] expires exactly when more than its
    duration has passed. *)
Lemma check_expired_started t0 t to :
  (check_expired t (start t0 to)).1 = bool_decide (t - t0 > timeout_duration to)%Z.
Proof.
  unfold check_expired, start; cbn. repeat case_bool_decide; naive_solver.
Qed.

Lemma consensus_message_roundtrip `{!Codec ConsensusMessageProto, !CodecLaws ConsensusMessageProto}
    m b :
  consensus_message_try_into m = Some b → consensus_message_try_from b = Some m.
Proof.
  intros Hb%parse_write. unfold consensus_message_try_from. rewrite Hb. by destruct m.
Qed.
