(* ===== verification/Storage.v ===== *)
(** * Persisted storage

    Models [libsplinter/src/storage]: [get_storage] and the YAML and in-memory
    storages it hands out.  The file system ([std::fs] and the [atomicwrites]
    crate) and the YAML serialisation ([serde_yaml]) are interfaces; the laws
    state what the program relies on. *)

From S2P Require Import Prelude.

(** ** The file system and the serialiser *)

(** [write_file] is an atomic overwrite, which may fail. *)
Class FileSystem (D : Type) := {
  read_file : string → D → option bytes;
  write_file : string → bytes → D → option D;
}.

Class ReadsWritten (D : Type) `{!FileSystem D} : Prop :=
  read_written path b d d' : write_file path b d = Some d' → read_file path d' = Some b.
Class FileSystemLaws (D : Type) `{!FileSystem D} : Prop := {
  #[global] fs_reads_written :: ReadsWritten D;
  read_other path path' b d d' :
    write_file path b d = Some d' → path' ≠ path → read_file path' d' = read_file path' d;
}.

(** [std::fs::write] opens the file, which truncates it, and writes the bytes: when it
    fails the file is as it was, or has only the beginning of them. *)
Class PlainFiles (D : Type) := fs_write : string → bytes → eff D () ().
Class PlainFilesLaws (D : Type) `{!FileSystem D, !PlainFiles D} : Prop := {
  fs_write_ok path b d d' : fs_write path b d = (Ok (), d') → read_file path d' = Some b;
  fs_write_err path b d d' e :
    fs_write path b d = (Err e, d') →
    read_file path d' = read_file path d ∨ ∃ b' rest, b = b' +:+ rest ∧ read_file path d' = Some b';
  fs_write_other path path' b d :
    path' ≠ path → read_file path' (fs_write path b d).2 = read_file path' d;
}.

Class Serde (T : Type) := {
  to_yaml : T → option bytes;
  from_yaml : bytes → option T;
}.

(** A value is read back without its skipped fields. *)
Class SerdeLaws {T : Type} `{!Serde T} (persisted : T → T) : Prop :=
  from_to_yaml x b : to_yaml x = Some b → from_yaml b = Some (persisted x).

(** ** Strings *)

(** [ends_with] on [str]. *)
Definition ends_with (suffix s : string) : bool :=
  String.prefix (String.rev suffix) (String.rev s).

Lemma str_rev_app s t : String.rev_app s t = String.rev s +:+ t.
Proof.
  unfold String.rev. revert t. induction s as [|c s IH]; intros t; [done|]. cbn [String.rev_app].
  rewrite IH, (IH (String c "")), str_app_assoc. done.
Qed.
Lemma rev_app_app s t u : String.rev_app (s +:+ t) u = String.rev_app t (String.rev_app s u).
Proof. revert u. induction s as [|c s IH]; intros u; [done|]. rewrite str_app_cons. apply IH. Qed.
Lemma prefix_app_l p s t : String.prefix p s = true → String.prefix p (s +:+ t) = true.
Proof.
  revert s. induction p as [|c p IH]; intros [|b s]; try done; [by destruct t|].
  rewrite str_app_cons. cbn. case_match; [|done]. apply IH.
Qed.
Lemma ends_with_app suffix s t : ends_with suffix t = true → ends_with suffix (s +:+ t) = true.
Proof.
  unfold ends_with. intros H. unfold String.rev at 2. rewrite rev_app_app, str_rev_app. by apply prefix_app_l.
Qed.

(** ** Storages *)

(** A storage is the data it read when it was made and where writes go. *)
Inductive storage (T : Type) :=
  | YamlStorage (data : T) (path : string)
  | MemStorage (data : T).
Arguments YamlStorage {T} data path.
Arguments MemStorage {T} data.

(** The unknown location is an error of [get_storage]; the failures of
    [YamlStorage::new] and of the write on drop are panics. *)
Inductive StorageError :=
  | UnknownStateLocation (msg : string)
  | StoragePanic.

Section storage.
Context {D T : Type} `{!FileSystem D, !Serde T}.

Definition data (s : storage T) : T :=
  match s with YamlStorage x _ | MemStorage x => x end.

(** The effect of [file.write(|f| serde_yaml::to_writer(f, &data))]. *)
Definition write_yaml (path : string) (x : T) : eff D StorageError () := λ d,
  match to_yaml x ≫= (λ b, write_file path b d) with
  | Some d' => (Ok (), d')
  | None => (Err StoragePanic, d)
  end.

(** [YamlStorage::new] *)
Definition yaml_storage_new (path : string) (default : T) : eff D StorageError (storage T) := λ d,
  match read_file path d with
  | Some b =>
      match from_yaml b with
      | Some x => (Ok (YamlStorage x path), d)
      | None => (Err StoragePanic, d)
      end
  | None =>
      (write_yaml path default;; mret (YamlStorage default path)) d
  end.

(** [MemStorage::new] *)
Definition mem_storage_new (default : T) : storage T := MemStorage default.

(** [get_storage] *)
Definition get_storage (location : string) (default : T) : eff D StorageError (storage T) :=
  if ends_with ".yaml" location then yaml_storage_new location default
  else if bool_decide (location = "memory") then mret (mem_storage_new default)
  else throw (UnknownStateLocation ("Unknown state location type: " +:+ location)).

(** [**storage.write() = x], with the drop of the guard: that of a YAML storage writes
    the file, that of one in memory does nothing. *)
Definition storage_write (x : T) (s : storage T) : eff D StorageError (storage T) :=
  match s with
  | YamlStorage _ path => write_yaml path x;; mret (YamlStorage x path)
  | MemStorage _ => mret (MemStorage x)
  end.

(** Replacing the stored value: a storage with the current value as its default,
    overwritten by it. *)
Definition replace_stored (location : string) (x : T) : eff D StorageError () :=
  s ← get_storage location x;
  storage_write x s;;
  mret ().

(** ** Facts *)

Context (persisted : T → T) `{!ReadsWritten D, !SerdeLaws persisted}.

Lemma write_yaml_read path x d d' :
  write_yaml path x d = (Ok (), d') →
  ∃ b, read_file path d' = Some b ∧ from_yaml b = Some (persisted x).
Proof.
  unfold write_yaml. destruct (to_yaml x) as [b|] eqn:Hb; cbn; [|done].
  destruct (write_file path b d) as [d1|] eqn:Hd; [|done]. intros [= <-].
  exists b. split; [by eapply read_written|by apply from_to_yaml].
Qed.

(** What a YAML location holds after it was replaced is what the next storage on
    it, whatever its default, hands out. *)
Lemma replace_stored_get location x y d d' :
  ends_with ".yaml" location = true → replace_stored location x d = (Ok (), d') →
  get_storage location y d' = (Ok (YamlStorage (persisted x) location), d').
Proof.
  intros Hloc (s & d1 & Hs & (s' & d2 & Hw & [= <-])%eff_bind_inv)%eff_bind_inv.
  unfold get_storage in *. rewrite Hloc in *.
  assert (∃ z, s = YamlStorage z location) as [z ->].
  { unfold yaml_storage_new in Hs. destruct (read_file location d) as [b|].
    - destruct (from_yaml b); simplify_eq; eauto.
    - apply eff_bind_inv in Hs as (? & ? & _ & [= <- <-]). eauto. }
  apply eff_bind_inv in Hw as ([] & d3 & Hw & [= <- <-]).
  apply write_yaml_read in Hw as (b & Hb & Hx). unfold yaml_storage_new. by rewrite Hb, Hx.
Qed.

Context `{!FileSystemLaws D}.

Lemma write_yaml_other path path' x d r d' :
  write_yaml path x d = (r, d') → path' ≠ path → read_file path' d' = read_file path' d.
Proof.
  unfold write_yaml. destruct (to_yaml x ≫= _) as [d1|] eqn:Hd; intros [= <- <-] Hne; [|done].
  apply bind_Some in Hd as (b & _ & Hd). by eapply read_other.
Qed.

(** No other file changes. *)
Lemma replace_stored_other location path x d :
  path ≠ location → read_file path (replace_stored location x d).2 = read_file path d.
Proof.
  intros Hne. unfold replace_stored, get_storage, mbind, eff_bind.
  destruct (ends_with ".yaml" location); [|by case_bool_decide].
  unfold yaml_storage_new, mbind, eff_bind. destruct (read_file location d) as [b|].
  - destruct (from_yaml b); [|done]. cbn. unfold mbind, eff_bind.
    destruct (write_yaml location x d) as [[] d'] eqn:Hw; cbn; by eapply write_yaml_other.
  - destruct (write_yaml location x d) as [[] d1] eqn:Hw1; cbn; [|by eapply write_yaml_other].
    unfold mbind, eff_bind. destruct (write_yaml location x d1) as [[] d2] eqn:Hw2; cbn;
      etrans; by eapply write_yaml_other.
Qed.
End storage.

(** ** A concrete file system and serialiser, for the executable examples *)
Module Files.
#[export] Instance files : FileSystem (gmap string bytes) := {|
  read_file path d := d !! path;
  write_file path b d := Some (<[path := b]> d);
|}.
#[export] Instance files_laws : FileSystemLaws (gmap string bytes).
Proof.
  split.
  - intros path b d d' [= <-]. cbn. by rewrite lookup_insert_eq.
  - intros path path' b d d' [= <-] ?. cbn. by rewrite lookup_insert_ne.
Qed.

(** The files in the directory [full/] are on a disk without room: they are truncated,
    and the write fails. *)
#[export] Instance plain_files : PlainFiles (gmap string bytes) := λ path b d,
  if String.prefix "full/" path then (Err (), <[path := ""]> d) else (Ok (), <[path := b]> d).
#[export] Instance plain_files_laws : PlainFilesLaws (gmap string bytes).
Proof.
  split; unfold fs_write, plain_files; cbn.
  - intros path b d d'. case_match; [done|]. intros [= <-]. by rewrite lookup_insert_eq.
  - intros path b d d' e. case_match; [|done]. intros [= _ <-]. right. exists "", b.
    by rewrite lookup_insert_eq.
  - intros path path' b d ?. case_match; cbn; by rewrite lookup_insert_ne.
Qed.
End Files.
