(* ===== verification/Circuit.v ===== *)
(** * Circuits and the state of a splinter node

    Models [libsplinter/src/circuit/mod.rs], [directory.rs] and [service.rs]:
    circuits and their builder, the circuit directory with its built-in admin
    circuit, and [SplinterState], which persists the directory at every
    change. *)

From S2P Require Import Prelude Storage.

(** ** Data *)

Inductive AuthorizationType := AuthTrust.
Inductive PersistenceType := PersistenceAny.
Inductive DurabilityType := NoDurability.
Inductive RouteType := RouteAny.

Record ServiceDefinition := mkServiceDefinition {
  sd_service_id : string;
  sd_service_type : string;
  sd_allowed_nodes : list string;
  sd_arguments : gmap string string;
}.

Inductive Roster :=
  | RosterStandard (l : list ServiceDefinition)
  | RosterAdmin.

Record Circuit := mkCircuit {
  c_id : string;
  c_auth : AuthorizationType;
  c_members : list string;
  c_roster : Roster;
  c_persistence : PersistenceType;
  c_durability : DurabilityType;
  c_routes : RouteType;
  c_circuit_management_type : string;
}.

Definition default_management_type : string := "default".

(** [Circuit::new_admin] *)
Definition new_admin : Circuit :=
  mkCircuit "admin" AuthTrust [] RosterAdmin PersistenceAny NoDurability RouteAny "".

(** [Members::contains] *)
Definition members_contains (c : Circuit) (node_id : string) : bool :=
  existsb (λ m, bool_decide (m = node_id)) (c_members c).

(** [Roster::contains], [to_vec] and [iter] *)
Definition roster_contains (r : Roster) (service_name : string) : bool :=
  match r with
  | RosterStandard l => existsb (λ s, bool_decide (sd_service_id s = service_name)) l
  | RosterAdmin => starts_with "admin::" service_name
  end.
Definition roster_to_vec (r : Roster) : list ServiceDefinition :=
  match r with RosterStandard l => l | RosterAdmin => [] end.

(** ** Builders *)

Record CircuitBuilder := mkCircuitBuilder {
  cb_id : option string;
  cb_auth : option AuthorizationType;
  cb_members : list string;
  cb_roster : list ServiceDefinition;
  cb_persistence : option PersistenceType;
  cb_durability : option DurabilityType;
  cb_routes : option RouteType;
  cb_circuit_management_type : option string;
}.

Definition circuit_builder : CircuitBuilder :=
  mkCircuitBuilder None None [] [] None None None None.
Definition with_id (id : string) (b : CircuitBuilder) : CircuitBuilder :=
  mkCircuitBuilder (Some id) (cb_auth b) (cb_members b) (cb_roster b) (cb_persistence b)
    (cb_durability b) (cb_routes b) (cb_circuit_management_type b).
Definition with_members (l : list string) (b : CircuitBuilder) : CircuitBuilder :=
  mkCircuitBuilder (cb_id b) (cb_auth b) (cb_members b ++ l) (cb_roster b) (cb_persistence b)
    (cb_durability b) (cb_routes b) (cb_circuit_management_type b).
Definition with_roster (l : list ServiceDefinition) (b : CircuitBuilder) : CircuitBuilder :=
  mkCircuitBuilder (cb_id b) (cb_auth b) (cb_members b) (cb_roster b ++ l) (cb_persistence b)
    (cb_durability b) (cb_routes b) (cb_circuit_management_type b).
Definition with_auth (a : AuthorizationType) (b : CircuitBuilder) : CircuitBuilder :=
  mkCircuitBuilder (cb_id b) (Some a) (cb_members b) (cb_roster b) (cb_persistence b)
    (cb_durability b) (cb_routes b) (cb_circuit_management_type b).
Definition with_persistence (p : PersistenceType) (b : CircuitBuilder) : CircuitBuilder :=
  mkCircuitBuilder (cb_id b) (cb_auth b) (cb_members b) (cb_roster b) (Some p)
    (cb_durability b) (cb_routes b) (cb_circuit_management_type b).
Definition with_durability (d : DurabilityType) (b : CircuitBuilder) : CircuitBuilder :=
  mkCircuitBuilder (cb_id b) (cb_auth b) (cb_members b) (cb_roster b) (cb_persistence b)
    (Some d) (cb_routes b) (cb_circuit_management_type b).
Definition with_routes (r : RouteType) (b : CircuitBuilder) : CircuitBuilder :=
  mkCircuitBuilder (cb_id b) (cb_auth b) (cb_members b) (cb_roster b) (cb_persistence b)
    (cb_durability b) (Some r) (cb_circuit_management_type b).
Definition with_circuit_management_type (t : string) (b : CircuitBuilder) : CircuitBuilder :=
  mkCircuitBuilder (cb_id b) (cb_auth b) (cb_members b) (cb_roster b) (cb_persistence b)
    (cb_durability b) (cb_routes b) (Some t).

(** [CircuitBuilder::build]; the error is the message of [CircuitBuildError]. *)
Definition build_circuit (b : CircuitBuilder) : result string Circuit :=
  if bool_decide (cb_members b = []) then Err "Circuit requires at least one member"
  else
    id ← ok_or "Circuit requires an id" (cb_id b);
    auth ← ok_or "Circuit requires an auth configuration" (cb_auth b);
    persistence ← ok_or "Circuit requires a persistence setting" (cb_persistence b);
    routes ← ok_or "Circuit requires a routes setting" (cb_routes b);
    durability ← ok_or "Circuit requires a durability setting" (cb_durability b);
    mret (mkCircuit id auth (cb_members b) (RosterStandard (cb_roster b)) persistence durability
      routes (default default_management_type (cb_circuit_management_type b))).

(** [ServiceDefinition::builder(id, ty)], with its setters and [build]. *)
Definition service_definition (id ty : string) (allowed_nodes : list string)
    (arguments : list (string * string)) : ServiceDefinition :=
  mkServiceDefinition id ty allowed_nodes
    (foldl (λ m '(k, v), <[k := v]> m) ∅ arguments).

(** ** Services and nodes ([service.rs]) *)

Record ServiceId := mkServiceId { sid_circuit_name : string; sid_service_id : string }.
#[global] Instance ServiceId_eq_dec : EqDecision ServiceId.
Proof. solve_decision. Defined.
#[global] Instance ServiceId_countable : Countable ServiceId.
Proof.
  refine (inj_countable' (λ s, (sid_circuit_name s, sid_service_id s))
    (λ '(c, s), mkServiceId c s) _). by intros [].
Defined.
Definition service_id_to_string (s : ServiceId) : string :=
  sid_circuit_name s +:+ "::" +:+ sid_service_id s.

Record SplinterNode := mkSplinterNode { sn_id : string; sn_endpoints : list string }.

Record Service := mkService {
  svc_service_id : string;
  svc_peer_id : option string;
  svc_node : SplinterNode;
}.

(** ** The directory ([directory.rs]) *)

Record CircuitDirectory := mkCircuitDirectory {
  cd_nodes : gmap string SplinterNode;
  cd_circuits : gmap string Circuit;
  cd_admin_circuit : Circuit;
}.

Module Directory.
Definition new : CircuitDirectory := mkCircuitDirectory ∅ ∅ new_admin.
Definition add_node (id : string) (n : SplinterNode) (d : CircuitDirectory) : CircuitDirectory :=
  mkCircuitDirectory (<[id := n]> (cd_nodes d)) (cd_circuits d) (cd_admin_circuit d).
Definition add_circuit (name : string) (c : Circuit) (d : CircuitDirectory) : CircuitDirectory :=
  mkCircuitDirectory (cd_nodes d) (<[name := c]> (cd_circuits d)) (cd_admin_circuit d).
Definition remove_node (id : string) (d : CircuitDirectory) : CircuitDirectory :=
  mkCircuitDirectory (delete id (cd_nodes d)) (cd_circuits d) (cd_admin_circuit d).
Definition remove_circuit (name : string) (d : CircuitDirectory) : CircuitDirectory :=
  mkCircuitDirectory (cd_nodes d) (delete name (cd_circuits d)) (cd_admin_circuit d).
Definition node (id : string) (d : CircuitDirectory) : option SplinterNode := cd_nodes d !! id.
Definition circuit (name : string) (d : CircuitDirectory) : option Circuit :=
  if bool_decide (name = c_id (cd_admin_circuit d)) then Some (cd_admin_circuit d)
  else cd_circuits d !! name.
Definition has_circuit (name : string) (d : CircuitDirectory) : bool :=
  bool_decide (is_Some (cd_circuits d !! name)).
End Directory.

(** What is left of a directory after it was written and read: the fields marked
    [serde(skip)] and [serde(skip_serializing)] have their default values. *)
Definition persisted_node (n : SplinterNode) : SplinterNode :=
  mkSplinterNode "" (sn_endpoints n).
Definition persisted_circuit (c : Circuit) : Circuit :=
  mkCircuit "" (c_auth c) (c_members c) (c_roster c) (c_persistence c) (c_durability c)
    (c_routes c) (c_circuit_management_type c).
Definition persisted_directory (d : CircuitDirectory) : CircuitDirectory :=
  mkCircuitDirectory (persisted_node <$> cd_nodes d) (persisted_circuit <$> cd_circuits d)
    new_admin.

(** ** [SplinterState] *)

Record SplinterState := mkSplinterState {
  ss_storage_location : string;
  ss_circuit_directory : CircuitDirectory;
  ss_service_directory : gmap ServiceId Service;
}.

(** [WriteError], with the panics of the storage as a second constructor. *)
Inductive WriteError :=
  | GetStorageError (msg : string)
  | WritePanic.

Definition splinter_state_new (location : string) (d : CircuitDirectory) : SplinterState :=
  mkSplinterState location d ∅.

Definition set_directory (f : CircuitDirectory → CircuitDirectory) (s : SplinterState) :
    SplinterState :=
  mkSplinterState (ss_storage_location s) (f (ss_circuit_directory s)) (ss_service_directory s).

Definition add_service (id : ServiceId) (svc : Service) (s : SplinterState) : SplinterState :=
  mkSplinterState (ss_storage_location s) (ss_circuit_directory s)
    (<[id := svc]> (ss_service_directory s)).
Definition remove_service (id : ServiceId) (s : SplinterState) : SplinterState :=
  mkSplinterState (ss_storage_location s) (ss_circuit_directory s)
    (delete id (ss_service_directory s)).
Definition has_service (id : ServiceId) (s : SplinterState) : bool :=
  bool_decide (is_Some (ss_service_directory s !! id)).

(** Accessors of the directory. *)
Definition circuit (name : string) (s : SplinterState) : option Circuit :=
  Directory.circuit name (ss_circuit_directory s).
Definition has_circuit (name : string) (s : SplinterState) : bool :=
  Directory.has_circuit name (ss_circuit_directory s).
Definition node (id : string) (s : SplinterState) : option SplinterNode :=
  Directory.node id (ss_circuit_directory s).

Section splinter_state.
Context {D : Type} `{!FileSystem D, !Serde CircuitDirectory}.

Abbreviation state_eff := (eff (SplinterState * D) WriteError).

Definition write_circuit_directory : state_eff () := λ '(s, d),
  let '(r, d') := replace_stored (ss_storage_location s) (ss_circuit_directory s) d in
  (map_err (λ e, match e with
                 | UnknownStateLocation msg => GetStorageError msg
                 | StoragePanic => WritePanic
                 end) r, (s, d')).

Definition change_directory (f : CircuitDirectory → CircuitDirectory) : state_eff () :=
  modify (λ s, (set_directory f s.1, s.2));;
  write_circuit_directory;;
  mret ().

Definition add_node (id : string) (n : SplinterNode) : state_eff () :=
  change_directory (Directory.add_node id n).
Definition add_circuit (name : string) (c : Circuit) : state_eff () :=
  change_directory (Directory.add_circuit name c).
Definition remove_node (id : string) : state_eff () :=
  change_directory (Directory.remove_node id).
Definition remove_circuit (name : string) : state_eff () :=
  change_directory (Directory.remove_circuit name).

(** ** Facts *)

(** The directory changes whether or not it could be written; the service
    directory and the location never do. *)
Lemma change_directory_state f s d :
  (change_directory f (s, d)).2.1 = set_directory f s.
Proof.
  unfold change_directory, mbind, eff_bind, write_circuit_directory. cbn.
  by destruct (replace_stored _ _ _) as [[]].
Qed.

Lemma change_directory_stored f s d s' d' :
  change_directory f (s, d) = (Ok (), (s', d')) →
  s' = set_directory f s ∧
  replace_stored (ss_storage_location s) (f (ss_circuit_directory s)) d = (Ok (), d').
Proof.
  unfold change_directory, mbind, eff_bind, write_circuit_directory. cbn.
  destruct (replace_stored _ _ _) as [[[]|] d1]; cbn; [|done]. by intros [= <- <-].
Qed.
End splinter_state.

(** ** A directory over time *)

(** A change the node makes to its directory; [OpReload] is a restart, which
    reads the directory the node wrote. *)
Inductive directory_op :=
  | OpAddNode (id : string) (n : SplinterNode)
  | OpAddCircuit (name : string) (c : Circuit)
  | OpRemoveNode (id : string)
  | OpRemoveCircuit (name : string)
  | OpReload.

Definition apply_directory_op (d : CircuitDirectory) (op : directory_op) : CircuitDirectory :=
  match op with
  | OpAddNode id n => Directory.add_node id n d
  | OpAddCircuit name c => Directory.add_circuit name c d
  | OpRemoveNode id => Directory.remove_node id d
  | OpRemoveCircuit name => Directory.remove_circuit name d
  | OpReload => persisted_directory d
  end.

(** What the last operations about [name] say. *)
Definition circuit_after (name : string) (before : option Circuit) (op : directory_op) :
    option Circuit :=
  match op with
  | OpAddCircuit name' c => if decide (name' = name) then Some c else before
  | OpRemoveCircuit name' => if decide (name' = name) then None else before
  | OpReload => persisted_circuit <$> before
  | _ => before
  end.

Lemma apply_directory_op_circuit d op name :
  cd_circuits (apply_directory_op d op) !! name = circuit_after name (cd_circuits d !! name) op.
Proof.
  destruct op as [| |id|name'|]; cbn; try done.
  - case_decide as Hn; [subst; by rewrite lookup_insert_eq|by rewrite lookup_insert_ne].
  - case_decide as Hn; [subst; by rewrite lookup_delete_eq|by rewrite lookup_delete_ne].
  - by rewrite lookup_fmap.
Qed.

Lemma apply_directory_op_admin d op :
  cd_admin_circuit d = new_admin → cd_admin_circuit (apply_directory_op d op) = new_admin.
Proof. by destruct op. Qed.

(** the directory of a node after any sequence of changes and restarts.
    Looking up ["admin"] always gives the built-in admin circuit, even when a
    circuit was added under that name; looking up another name gives the circuit
    last added under it, unless it was removed since, without its skipped fields
    if the node restarted since. *)
Theorem directory_circuit_spec ops name :
  Directory.circuit name (foldl apply_directory_op Directory.new ops) =
    if decide (name = "admin") then Some new_admin
    else foldl (circuit_after name) None ops.
Proof.
  set (d := foldl _ _ _).
  assert (cd_admin_circuit d = new_admin ∧
          cd_circuits d !! name = foldl (circuit_after name) None ops) as [Ha Hc].
  { unfold d. assert (cd_admin_circuit Directory.new = new_admin) as Hnew by done. revert Hnew.
    change None with (cd_circuits Directory.new !! name). generalize Directory.new.
    induction ops as [|op ops IH]; intros d0 Hd0; [done|]. cbn.
    rewrite <-apply_directory_op_circuit. by apply IH, apply_directory_op_admin. }
  unfold Directory.circuit. rewrite Ha, Hc. by case_decide; case_bool_decide.
Qed.

(** ** Persistence *)

Section persistence.
Context {D : Type} `{!FileSystem D, !FileSystemLaws D}.
Context `{!Serde CircuitDirectory, !SerdeLaws persisted_directory}.

(** A change of the directory that reported success is on disk.  A node
    started afterwards on the same YAML location loads exactly the changed
    directory (without its skipped fields), whatever the file held before. *)
Theorem change_directory_persisted f s (d : D) s' d' :
  ends_with ".yaml" (ss_storage_location s) = true →
  change_directory f (s, d) = (Ok (), (s', d')) →
  get_storage (ss_storage_location s) Directory.new d' =
    (Ok (YamlStorage (persisted_directory (ss_circuit_directory s')) (ss_storage_location s)), d').
Proof.
  intros Hloc (-> & Hst)%change_directory_stored. by eapply (replace_stored_get persisted_directory).
Qed.
End persistence.

(** ** Countable types, for concrete serialisers *)
Module CircuitSerde.
#[export] Instance ServiceDefinition_eq_dec : EqDecision ServiceDefinition.
Proof. solve_decision. Defined.
#[export] Instance ServiceDefinition_countable : Countable ServiceDefinition.
Proof.
  refine (inj_countable' (λ s, (sd_service_id s, sd_service_type s, sd_allowed_nodes s, sd_arguments s))
    (λ '(i, t, a, m), mkServiceDefinition i t a m) _). by intros [].
Defined.
#[export] Instance Roster_eq_dec : EqDecision Roster.
Proof. solve_decision. Defined.
#[export] Instance AuthorizationType_eq_dec : EqDecision AuthorizationType.
Proof. solve_decision. Defined.
#[export] Instance PersistenceType_eq_dec : EqDecision PersistenceType.
Proof. solve_decision. Defined.
#[export] Instance DurabilityType_eq_dec : EqDecision DurabilityType.
Proof. solve_decision. Defined.
#[export] Instance RouteType_eq_dec : EqDecision RouteType.
Proof. solve_decision. Defined.
#[export] Instance Circuit_eq_dec : EqDecision Circuit.
Proof. solve_decision. Defined.
#[export] Instance Circuit_countable : Countable Circuit.
Proof.
  refine (inj_countable'
    (λ c, (c_id c, c_members c,
           match c_roster c with RosterStandard l => Some l | RosterAdmin => None end,
           c_circuit_management_type c))
    (λ '(i, m, r, t), mkCircuit i AuthTrust m
       (match r with Some l => RosterStandard l | None => RosterAdmin end)
       PersistenceAny NoDurability RouteAny t) _).
  by intros [? [] ? [] [] [] [] ?].
Defined.
#[export] Instance SplinterNode_eq_dec : EqDecision SplinterNode.
Proof. solve_decision. Defined.
#[export] Instance SplinterNode_countable : Countable SplinterNode.
Proof.
  refine (inj_countable' (λ n, (sn_id n, sn_endpoints n)) (λ '(i, e), mkSplinterNode i e) _).
  by intros [].
Defined.
#[export] Instance CircuitDirectory_eq_dec : EqDecision CircuitDirectory.
Proof. solve_decision. Defined.
#[export] Instance CircuitDirectory_countable : Countable CircuitDirectory.
Proof.
  refine (inj_countable' (λ d, (cd_nodes d, cd_circuits d, cd_admin_circuit d))
    (λ '(n, c, a), mkCircuitDirectory n c a) _).
  by intros [].
Defined.

(** The serialiser drops the skipped fields when it writes. *)
#[export] Instance serde : Serde CircuitDirectory := {|
  to_yaml d := Some (CountableCodec.write_pos (encode (persisted_directory d)));
  from_yaml b := CountableCodec.parse_pos b ≫= decode;
|}.
#[export] Instance serde_laws : SerdeLaws persisted_directory.
Proof.
  intros x b [= <-]. cbn. rewrite CountableCodec.parse_write_pos. cbn. apply decode_encode.
Qed.
End CircuitSerde.

Section persistence_witness.
Import CircuitSerde Files.

Definition example_circuit : Circuit :=
  mkCircuit "alpha" AuthTrust ["n1"; "n2"]
    (RosterStandard [service_definition "abc" "scabbard" ["n1"] []])
    PersistenceAny NoDurability RouteAny "default".

Lemma change_directory_persisted_witness :
  ∃ s' d',
    add_circuit "alpha" example_circuit
      (splinter_state_new "circuits.yaml" Directory.new, ∅ : gmap string bytes) = (Ok (), (s', d')) ∧
    get_storage "circuits.yaml" Directory.new d' =
      (Ok (YamlStorage (persisted_directory (ss_circuit_directory s')) "circuits.yaml"), d').
Proof.
  eexists _, _. split; [reflexivity|].
  by apply (change_directory_persisted (Directory.add_circuit "alpha" example_circuit)
    (splinter_state_new "circuits.yaml" Directory.new) (∅ : gmap string bytes)).
Defined.
End persistence_witness.
