(* ===== verification/Dispatch.v ===== *)
(** * Message dispatch

    Models [libsplinter/src/network/dispatch.rs], [dispatch_proto.rs],
    [handlers.rs] and the requests and loop of [sender.rs]: a dispatcher maps a
    message type to a handler, which parses the bytes of the message and acts on
    a world [S]; the loop dispatches what a channel delivers.  The channels of
    [libsplinter/src/channel] are in [Module Channel]. *)

From S2P Require Import Prelude.
From Stdlib Require Import ZArith Lia.

Record SendRequest := mkSendRequest { sr_recipient : string; sr_payload : bytes }.

Record MessageContext (MT : Type) := mkMessageContext {
  source_peer_id : string;
  message_type : MT;
  message_bytes : bytes;
}.
Arguments mkMessageContext {MT} source_peer_id message_type message_bytes.
Arguments source_peer_id {MT} m.
Arguments message_type {MT} m.
Arguments message_bytes {MT} m.

(** The texts of the errors of other libraries are dropped; [DispatchPanic] is an
    [unwrap] that fails. *)
Inductive DispatchError :=
  | DeserializationError
  | SerializationError
  | UnknownMessageType
  | NetworkSendError (e : SendError)
  | HandleError (msg : string)
  | DispatchPanic.

Record DispatchMessage (MT : Type) := mkDispatchMessage {
  dm_message_type : MT;
  dm_message_bytes : bytes;
  dm_source_peer_id : string;
}.
Arguments mkDispatchMessage {MT} dm_message_type dm_message_bytes dm_source_peer_id.
Arguments dm_message_type {MT} d.
Arguments dm_message_bytes {MT} d.
Arguments dm_source_peer_id {MT} d.

(** The single message of [DispatchLoopError]. *)
Inductive DispatchLoopError := ReceiverDisconnected.

Section dispatch.
Context {S MT : Type} `{!EqDecision MT}.

Abbreviation dispatch_eff := (eff S DispatchError).

(** A [Handler<MT, T>] on the world [S]. *)
Definition Handler (T : Type) : Type := T → MessageContext MT → dispatch_eff ().

(** [FromMessageBytes] for protobuf messages and for [RawBytes]. *)
Definition from_message_bytes {T} `{!Codec T} (b : bytes) : result DispatchError T :=
  ok_or DeserializationError (parse_from_bytes b).

Definition HandlerWrapper : Type := bytes → MessageContext MT → dispatch_eff ().

Definition Dispatcher : Type := MT → option HandlerWrapper.

Definition dispatcher_new : Dispatcher := λ _, None.

Definition set_handler {T} `{!Codec T} (mt : MT) (h : Handler T) (d : Dispatcher) : Dispatcher :=
  λ mt', if decide (mt' = mt) then Some (λ b ctx, m ← lift (from_message_bytes b); h m ctx)
         else d mt'.

(** [set_handler] with [T := RawBytes]. *)
Definition set_raw_handler (mt : MT) (h : Handler bytes) (d : Dispatcher) : Dispatcher :=
  λ mt', if decide (mt' = mt) then Some h else d mt'.

Definition dispatch (d : Dispatcher) (source : string) (mt : MT) (b : bytes) : dispatch_eff () :=
  let ctx := mkMessageContext source mt b in
  h ← lift (ok_or UnknownMessageType (d mt));
  h (message_bytes ctx) ctx.

Definition dispatch_message (d : Dispatcher) (m : DispatchMessage MT) : dispatch_eff () :=
  dispatch d (dm_source_peer_id m) (dm_message_type m) (dm_message_bytes m).

(** [DispatchLoop::run]: [polls] is what the receiver gives while [running] is
    set, [drain] the messages left when it no longer is. *)
Fixpoint drain_messages (d : Dispatcher) (drain : list (DispatchMessage MT)) :
    eff S DispatchLoopError () :=
  match drain with
  | [] => mret ()
  | m :: drain => catch_log (dispatch_message d m);; drain_messages d drain
  end.

Fixpoint dispatch_loop (d : Dispatcher) (polls : list (recv (DispatchMessage MT)))
    (drain : list (DispatchMessage MT)) : eff S DispatchLoopError () :=
  match polls with
  | [] => drain_messages d drain
  | Received m :: polls => catch_log (dispatch_message d m);; dispatch_loop d polls drain
  | RecvTimeout :: polls => dispatch_loop d polls drain
  | Disconnected :: _ => throw ReceiverDisconnected
  end.

(** ** Facts *)

Lemma dispatch_set_handler {T} `{!Codec T} mt (h : Handler T) d source mt' b s :
  dispatch (set_handler mt h d) source mt' b s =
    if decide (mt' = mt) then
      match parse_from_bytes b with
      | Some m => h m (mkMessageContext source mt b) s
      | None => (Err DeserializationError, s)
      end
    else dispatch d source mt' b s.
Proof.
  unfold dispatch, set_handler. case_decide as Hmt; [subst mt'|done].
  unfold mbind, eff_bind, from_message_bytes. cbn. by destruct (parse_from_bytes b).
Qed.

Lemma dispatch_unknown d source mt b s :
  d mt = None → dispatch d source mt b s = (Err UnknownMessageType, s).
Proof. intros Hd. unfold dispatch. by rewrite Hd. Qed.

(** The messages of a run of the loop, up to a disconnection. *)
Fixpoint delivered (polls : list (recv (DispatchMessage MT))) (drain : list (DispatchMessage MT)) :
    list (DispatchMessage MT) :=
  match polls with
  | [] => drain
  | Received m :: polls => m :: delivered polls drain
  | RecvTimeout :: polls => delivered polls drain
  | Disconnected :: _ => []
  end.

Lemma drain_messages_run d drain s :
  drain_messages d drain s = (Ok (), foldl (λ s m, (dispatch_message d m s).2) s drain).
Proof.
  revert s. induction drain as [|m drain IH]; intros s; [done|]. cbn [drain_messages foldl].
  erewrite eff_bind_ok; [apply IH|]. unfold catch_log. by destruct (dispatch_message d m s).
Qed.

(** The dispatch loop dispatches every message the channel delivers, in
    order and once, including those still queued when it is told to stop; a
    handler that fails does not stop it; it returns an error exactly when the
    channel is disconnected. *)
Theorem dispatch_loop_spec d polls drain s :
  dispatch_loop d polls drain s =
    (if existsb (λ p, match p with Disconnected => true | _ => false end) polls
     then Err ReceiverDisconnected else Ok (),
     foldl (λ s m, (dispatch_message d m s).2) s (delivered polls drain)).
Proof.
  revert s. induction polls as [|[m| |] polls IH]; intros s; cbn; [apply drain_messages_run| | |].
  - erewrite eff_bind_ok; [apply IH|]. unfold catch_log. by destruct (dispatch_message d m s).
  - apply IH.
  - done.
Qed.
End dispatch.
Arguments Handler : clear implicits.
Arguments HandlerWrapper : clear implicits.
Arguments Dispatcher : clear implicits.

(** ** Channels

    The traits of [channel/mod.rs] and their implementations in [mpsc.rs] and
    [crossbeam.rs], which only differ in the channel they wrap: the interface
    [RawChannel].  The channel of the standard library is modelled: a queue, the number of
    the senders left, and whether there still is a receiver. *)
Module Channel.

Inductive RecvError := mkRecvError (error : string).
Inductive TryRecvError := TryEmpty | TryDisconnected.
Inductive RecvTimeoutError := RecvTimeout | RecvDisconnected.
Inductive SendError := mkSendError (error : string).

Definition recv_error_display (e : RecvError) : string :=
  let 'mkRecvError error := e in "Receive Error: " +:+ error.
Definition try_recv_error_display (e : TryRecvError) : string :=
  match e with
  | TryEmpty => "Unable to receive: channel is empty"
  | TryDisconnected => "Unable to receive: channel has disconnected"
  end.
Definition recv_timeout_error_display (e : RecvTimeoutError) : string :=
  match e with
  | RecvTimeout => "Unable to receive: Timeout"
  | RecvDisconnected => "Unable to receive: channel has disconnected"
  end.
Definition send_error_display (e : SendError) : string :=
  let 'mkSendError error := e in "Send Error: " +:+ error.

(** The errors of the wrapped channel *)
Inductive RawTry := RawEmpty | RawTryDisconnected.
Inductive RawTimeout := RawTimedOut | RawTimeoutDisconnected.

(** A wrapped channel in the state [C]: a blocking receive may have to wait, [None]. *)
Class RawChannel (C T : Type) := {
  raw_send : T → eff C string ();
  raw_recv : C → option (result string T * C);
  raw_try_recv : eff C RawTry T;
  raw_recv_timeout : eff C RawTimeout T;
  raw_clone : C → C;
}.

Section wrappers.
Context {C T : Type} {Hraw : RawChannel C T}.

Definition recv (c : C) : option (result RecvError T * C) :=
  '(r, c) ← raw_recv c; Some (map_err mkRecvError r, c).
Definition try_recv : eff C TryRecvError T :=
  emap_err (λ e, match e with RawEmpty => TryEmpty | RawTryDisconnected => TryDisconnected end) raw_try_recv.
Definition recv_timeout : eff C RecvTimeoutError T :=
  emap_err (λ e, match e with RawTimedOut => RecvTimeout | RawTimeoutDisconnected => RecvDisconnected end)
    raw_recv_timeout.
Definition send (t : T) : eff C SendError () := emap_err mkSendError (raw_send t).
Definition box_clone (c : C) : C := raw_clone c.
End wrappers.

(** [std::sync::mpsc]; the state is that at the moment a receive with a timeout ends. *)
Record Mpsc (T : Type) := mkMpsc { mp_queue : list T; mp_senders : nat; mp_receiver : bool }.
Arguments mkMpsc {T} mp_queue mp_senders mp_receiver.
Arguments mp_queue {T} m.
Arguments mp_senders {T} m.
Arguments mp_receiver {T} m.

Definition mpsc_channel {T} : Mpsc T := mkMpsc [] 1 true.
Definition mpsc_take {T E} (empty closed : E) : eff (Mpsc T) E T := λ c,
  match mp_queue c with
  | t :: queue => (Ok t, mkMpsc queue (mp_senders c) (mp_receiver c))
  | [] => (Err (if mp_senders c is 0 then closed else empty), c)
  end.
#[export] Instance mpsc_raw {T} : RawChannel (Mpsc T) T := {
  raw_send t c :=
    if mp_receiver c then (Ok (), mkMpsc (mp_queue c ++ [t]) (mp_senders c) true)
    else (Err "sending on a closed channel", c);
  raw_recv c :=
    match mpsc_take false true c with
    | (Ok t, c) => Some (Ok t, c)
    | (Err true, c) => Some (Err "receiving on a closed channel", c)
    | (Err false, _) => None
    end;
  raw_try_recv := mpsc_take RawEmpty RawTryDisconnected;
  raw_recv_timeout := mpsc_take RawTimedOut RawTimeoutDisconnected;
  raw_clone c := mkMpsc (mp_queue c) (S (mp_senders c)) (mp_receiver c);
}.

(** What the threads that share a channel do, in the order in which it happens.  A sender
    must be there to send or to be cloned, and the receiver to receive. *)
Inductive Op (T : Type) :=
  | OSend (t : T) | OClone | ODropSender | OTryRecv | ORecvTimeout | ORecv | ODropReceiver.
Arguments OSend {T} t.
Arguments OClone {T}.
Arguments ODropSender {T}.
Arguments OTryRecv {T}.
Arguments ORecvTimeout {T}.
Arguments ORecv {T}.
Arguments ODropReceiver {T}.

(** What the receiver was given, what was accepted, and whether the receiver was told that
    the channel has disconnected *)
Record Trace (T : Type) := mkTrace {
  t_channel : Mpsc T; t_sent : list T; t_received : list T; t_closed : bool }.
Arguments mkTrace {T} t_channel t_sent t_received t_closed.
Arguments t_channel {T} t.
Arguments t_sent {T} t.
Arguments t_received {T} t.
Arguments t_closed {T} t.

Definition received {T E} (closed : E → bool) (tr : Trace T) (rc : result E T * Mpsc T) : Trace T :=
  match rc with
  | (Ok t, c) => mkTrace c (t_sent tr) (t_received tr ++ [t]) (t_closed tr)
  | (Err e, c) => mkTrace c (t_sent tr) (t_received tr) (t_closed tr || closed e)
  end.
Definition op_step {T} (tr : Trace T) (o : Op T) : Trace T :=
  let c := t_channel tr in
  match o with
  | OSend t =>
      if decide (mp_senders c = 0) then tr
      else match send t c with
           | (Ok _, c) => mkTrace c (t_sent tr ++ [t]) (t_received tr) (t_closed tr)
           | (Err _, c) => mkTrace c (t_sent tr) (t_received tr) (t_closed tr)
           end
  | OClone =>
      if decide (mp_senders c = 0) then tr
      else mkTrace (box_clone c) (t_sent tr) (t_received tr) (t_closed tr)
  | ODropSender =>
      mkTrace (mkMpsc (mp_queue c) (pred (mp_senders c)) (mp_receiver c)) (t_sent tr) (t_received tr) (t_closed tr)
  | OTryRecv =>
      if mp_receiver c
      then received (λ e, match e with TryDisconnected => true | _ => false end) tr (try_recv c) else tr
  | ORecvTimeout =>
      if mp_receiver c
      then received (λ e, match e with RecvDisconnected => true | _ => false end) tr (recv_timeout c) else tr
  | ORecv =>
      if mp_receiver c
      then match recv c with Some rc => received (λ _, true) tr rc | None => tr end else tr
  | ODropReceiver =>
      mkTrace (mkMpsc (mp_queue c) (mp_senders c) false) (t_sent tr) (t_received tr) (t_closed tr)
  end.
Definition trace_start {T} : Trace T := mkTrace mpsc_channel [] [] false.

(** Whatever the order of the operations, what was received is a prefix of what the senders
    were told was sent; what is not yet received is queued; and when the receiver was told
    that the channel has disconnected, it had received everything, and nothing is sent
    afterwards. *)
Definition trace_ok {T} (tr : Trace T) : Prop :=
  t_sent tr = t_received tr ++ mp_queue (t_channel tr) ∧
  (t_closed tr = true → mp_queue (t_channel tr) = [] ∧ mp_senders (t_channel tr) = 0).

Lemma take_ok {T E} (m d : E) (closed : E → bool) (tr : Trace T) :
  closed m = false → trace_ok tr → trace_ok (received closed tr (mpsc_take m d (t_channel tr))).
Proof.
  destruct tr as [[q n r] s rc cl]. unfold trace_ok, mpsc_take. cbn. intros Hm [-> Hcl]. destruct q as [|t q]; cbn.
  - split; [done|]. destruct n; [done|]. rewrite Hm, orb_false_r. done.
  - split; [by rewrite <-app_assoc|]. intros Hc. by destruct (Hcl Hc).
Qed.

Lemma op_ok {T} (tr : Trace T) o : trace_ok tr → trace_ok (op_step tr o).
Proof.
  intros Htr. destruct o as [t| | | | | |]; cbn -[decide received].
  - destruct (decide _) as [|Hn]; [done|]. destruct tr as [[q n r] s rc cl], Htr as [-> Hcl]. cbn in *.
    unfold send, emap_err. cbn. destruct r; cbn; (split; cbn; [by rewrite ?app_assoc|]); intros Hc; by destruct (Hcl Hc).
  - destruct (decide _) as [|Hn]; [done|]. destruct Htr as [? Hcl]. split; [done|]. intros Hc. by destruct (Hcl Hc).
  - destruct Htr as [? Hcl]. split; [done|]. intros Hc. cbn. destruct (Hcl Hc) as [-> ->]. done.
  - destruct (mp_receiver _); [|done].
    pose proof (take_ok RawEmpty RawTryDisconnected
      (λ e, match e with RawEmpty => false | _ => true end) tr eq_refl Htr) as H.
    unfold try_recv, emap_err. cbn. revert H. unfold mpsc_take.
    destruct (mp_queue (t_channel tr)); [destruct (mp_senders (t_channel tr))|]; done.
  - destruct (mp_receiver _); [|done].
    pose proof (take_ok RawTimedOut RawTimeoutDisconnected
      (λ e, match e with RawTimedOut => false | _ => true end) tr eq_refl Htr) as H.
    unfold recv_timeout, emap_err. cbn. revert H. unfold mpsc_take.
    destruct (mp_queue (t_channel tr)); [destruct (mp_senders (t_channel tr))|]; done.
  - destruct (mp_receiver _); [|done].
    pose proof (take_ok false true id tr eq_refl Htr) as H.
    unfold recv. cbn. revert H. unfold mpsc_take.
    destruct (mp_queue (t_channel tr)); [destruct (mp_senders (t_channel tr))|]; done.
  - done.
Qed.

Theorem channel_in_order {T} (ops : list (Op T)) : trace_ok (foldl op_step trace_start ops).
Proof.
  induction ops as [|o ops IH] using rev_ind; [done|]. rewrite foldl_app. by apply op_ok.
Qed.
End Channel.
