(* ===== verification/CircuitHandlers.v ===== *)
(** * The circuit message handlers

    Models [libsplinter/src/circuit/handlers]: connecting and disconnecting
    services, routing direct messages between services, admin messages between
    admin services, and circuit errors, with the envelopes they are sent in.
    The handlers act on the shared [SplinterState] and on a world [W] that
    sends [SendRequest]s. *)

From S2P Require Import Prelude Storage Circuit Dispatch.

(** ** Messages ([protos/circuit.proto], [protos/network.proto]) *)

Inductive CircuitMessageType :=
  | UNSET_CIRCUIT_MESSAGE_TYPE
  | CIRCUIT_ERROR_MESSAGE
  | NETWORK_ERROR_MESSAGE
  | CIRCUIT_DIRECT_MESSAGE
  | SERVICE_CONNECT_REQUEST
  | SERVICE_CONNECT_RESPONSE
  | SERVICE_DISCONNECT_REQUEST
  | SERVICE_DISCONNECT_RESPONSE
  | ADMIN_DIRECT_MESSAGE.
#[global] Instance CircuitMessageType_eq_dec : EqDecision CircuitMessageType.
Proof. solve_decision. Defined.

Inductive NetworkMessageType :=
  | UNSET_NETWORK_MESSAGE_TYPE
  | NETWORK_ECHO
  | NETWORK_HEARTBEAT
  | CIRCUIT
  | AUTHORIZATION.
#[global] Instance NetworkMessageType_eq_dec : EqDecision NetworkMessageType.
Proof. solve_decision. Defined.

Record CircuitMessage := mkCircuitMessage {
  cm_message_type : CircuitMessageType;
  cm_payload : bytes;
}.
Record NetworkMessage := mkNetworkMessage {
  nm_message_type : NetworkMessageType;
  nm_payload : bytes;
}.

Inductive CircuitError_Error :=
  | UNSET_CIRCUIT_ERROR
  | ERROR_CIRCUIT_DOES_NOT_EXIST
  | ERROR_RECIPIENT_NOT_IN_CIRCUIT_ROSTER
  | ERROR_SENDER_NOT_IN_CIRCUIT_ROSTER
  | ERROR_RECIPIENT_NOT_IN_DIRECTORY
  | ERROR_SENDER_NOT_IN_DIRECTORY.

Record CircuitError := mkCircuitError {
  ce_correlation_id : string;
  ce_service_id : string;
  ce_circuit_name : string;
  ce_error : CircuitError_Error;
  ce_error_message : string;
}.

(** [CircuitDirectMessage] and [AdminDirectMessage] have the same fields. *)
Record CircuitDirectMessage := mkCircuitDirectMessage {
  cdm_circuit : string;
  cdm_sender : string;
  cdm_recipient : string;
  cdm_payload : bytes;
  cdm_correlation_id : string;
}.
Record AdminDirectMessage := mkAdminDirectMessage {
  adm_circuit : string;
  adm_sender : string;
  adm_recipient : string;
  adm_payload : bytes;
  adm_correlation_id : string;
}.

Record ServiceConnectRequest := mkServiceConnectRequest {
  scr_circuit : string;
  scr_service_id : string;
  scr_correlation_id : string;
}.
Inductive ServiceConnectResponse_Status :=
  | CONNECT_UNSET_STATUS
  | CONNECT_OK
  | CONNECT_ERROR_CIRCUIT_DOES_NOT_EXIST
  | CONNECT_ERROR_SERVICE_NOT_IN_CIRCUIT_REGISTRY
  | CONNECT_ERROR_SERVICE_ALREADY_REGISTERED
  | CONNECT_ERROR_NOT_AN_ALLOWED_NODE
  | CONNECT_ERROR_QUEUE_FULL.
Record ServiceConnectResponse := mkServiceConnectResponse {
  scp_circuit : string;
  scp_service_id : string;
  scp_status : ServiceConnectResponse_Status;
  scp_error_message : string;
  scp_correlation_id : string;
}.
Record ServiceDisconnectRequest := mkServiceDisconnectRequest {
  sdr_circuit : string;
  sdr_service_id : string;
  sdr_correlation_id : string;
}.
Inductive ServiceDisconnectResponse_Status :=
  | DISCONNECT_UNSET_STATUS
  | DISCONNECT_OK
  | DISCONNECT_ERROR_CIRCUIT_DOES_NOT_EXIST
  | DISCONNECT_ERROR_SERVICE_NOT_IN_CIRCUIT_REGISTRY
  | DISCONNECT_ERROR_SERVICE_NOT_REGISTERED
  | DISCONNECT_ERROR_QUEUE_FULL.
Record ServiceDisconnectResponse := mkServiceDisconnectResponse {
  sdp_circuit : string;
  sdp_service_id : string;
  sdp_status : ServiceDisconnectResponse_Status;
  sdp_error_message : string;
  sdp_correlation_id : string;
}.

Definition ADMIN_SERVICE_ID_PREFIX : string := "admin::".
Definition is_admin_service_id (service_id : string) : bool :=
  starts_with ADMIN_SERVICE_ID_PREFIX service_id.

Section handlers.
Context {W : Type} `{!Sender W SendRequest, !Sender W (DispatchMessage CircuitMessageType)}.
Context `{!Codec CircuitMessage, !Codec NetworkMessage, !Codec CircuitError,
  !Codec CircuitDirectMessage, !Codec AdminDirectMessage,
  !Codec ServiceConnectRequest, !Codec ServiceConnectResponse,
  !Codec ServiceDisconnectRequest, !Codec ServiceDisconnectResponse}.

Abbreviation handler_eff := (eff (SplinterState * W) DispatchError).
Abbreviation circuit_context := (MessageContext CircuitMessageType).

(** The lock on the state, and the sender. *)
Definition state_get : handler_eff SplinterState := λ s, (Ok s.1, s).
Definition state_modify (f : SplinterState → SplinterState) : handler_eff () :=
  λ s, (Ok (), (f s.1, s.2)).
Definition net_send (recipient : string) (b : bytes) : handler_eff () := λ s,
  let '(r, w) := send (mkSendRequest recipient b) s.2 in (map_err NetworkSendError r, (s.1, w)).

(** [write_to_bytes()?] *)
Definition serialize {M} `{!Codec M} (m : M) : handler_eff bytes :=
  lift (ok_or SerializationError (write_to_bytes m)).

(** [create_message] *)
Definition create_message (payload : bytes) (ty : CircuitMessageType) : handler_eff bytes :=
  b ← serialize (mkCircuitMessage ty payload);
  serialize (mkNetworkMessage CIRCUIT b).

(** ** [service_handlers.rs] *)

(** [ServiceConnectRequestHandler]: the service that is added to the state, if
    any, the status and the text of the response. *)
Definition connect_decision (node_id endpoint : string) (peer : string)
    (msg : ServiceConnectRequest) (state : SplinterState) :
    result DispatchError (option Service * ServiceConnectResponse_Status * string) :=
  let circuit_name := scr_circuit msg in
  let service_id := scr_service_id msg in
  let unique_id := mkServiceId circuit_name service_id in
  match circuit circuit_name state with
  | Some c =>
      if roster_contains (c_roster c) service_id && negb (has_service unique_id state) then
        service ←
          (if negb (starts_with "admin::" service_id) then
             ok_or DispatchPanic (list_find (λ s, sd_service_id s = service_id)
               (roster_to_vec (c_roster c)) ≫= λ p, Some p.2)
           else mret (service_definition service_id "admin" [node_id] []));
        if bool_decide (node_id ∉ sd_allowed_nodes service) then
          mret (None, CONNECT_ERROR_NOT_AN_ALLOWED_NODE,
                service_id_to_string unique_id +:+ " is not allowed on this node")
        else
          let node := mkSplinterNode node_id [endpoint] in
          mret (Some (mkService service_id (Some peer) node), CONNECT_OK, "")
      else if roster_contains (c_roster c) service_id && has_service unique_id state then
        mret (None, CONNECT_ERROR_SERVICE_ALREADY_REGISTERED,
              "Service is already registered: " +:+ service_id)
      else
        mret (None, CONNECT_ERROR_SERVICE_NOT_IN_CIRCUIT_REGISTRY,
              "Service is not allowed in the circuit: " +:+ circuit_name +:+ ":" +:+ service_id)
  | None =>
      mret (None, CONNECT_ERROR_CIRCUIT_DOES_NOT_EXIST,
            "Circuit does not exist: " +:+ circuit_name)
  end.

Definition service_connect_handle (node_id endpoint : string) (msg : ServiceConnectRequest)
    (ctx : circuit_context) : handler_eff () :=
  state ← state_get;
  d ← lift (connect_decision node_id endpoint (source_peer_id ctx) msg state);
  let '(service, status, text) := d in
  match service with
  | Some svc => state_modify (add_service (mkServiceId (scr_circuit msg) (scr_service_id msg)) svc)
  | None => mret ()
  end;;
  response_bytes ← serialize (mkServiceConnectResponse (scr_circuit msg) (scr_service_id msg)
                                status text (scr_correlation_id msg));
  b ← create_message response_bytes SERVICE_CONNECT_RESPONSE;
  net_send (source_peer_id ctx) b.

(** [ServiceDisconnectRequestHandler] *)
Definition disconnect_decision (msg : ServiceDisconnectRequest) (state : SplinterState) :
    bool * ServiceDisconnectResponse_Status * string :=
  let circuit_name := sdr_circuit msg in
  let service_id := sdr_service_id msg in
  let unique_id := mkServiceId circuit_name service_id in
  match circuit circuit_name state with
  | Some c =>
      if roster_contains (c_roster c) service_id && has_service unique_id state then
        (true, DISCONNECT_OK, "")
      else if roster_contains (c_roster c) service_id && negb (has_service unique_id state) then
        (false, DISCONNECT_ERROR_SERVICE_NOT_REGISTERED,
         "Service is not registered: " +:+ service_id)
      else
        (false, DISCONNECT_ERROR_SERVICE_NOT_IN_CIRCUIT_REGISTRY,
         "Service is not allowed in the circuit: " +:+ circuit_name +:+ ":" +:+ service_id)
  | None =>
      (false, DISCONNECT_ERROR_CIRCUIT_DOES_NOT_EXIST, "Circuit does not exist: " +:+ circuit_name)
  end.

Definition service_disconnect_handle (msg : ServiceDisconnectRequest) (ctx : circuit_context) :
    handler_eff () :=
  state ← state_get;
  let '(removed, status, text) := disconnect_decision msg state in
  (if removed : bool
   then state_modify (remove_service (mkServiceId (sdr_circuit msg) (sdr_service_id msg)))
   else mret ());;
  response_bytes ← serialize (mkServiceDisconnectResponse (sdr_circuit msg) (sdr_service_id msg)
                                status text (sdr_correlation_id msg));
  b ← create_message response_bytes SERVICE_DISCONNECT_RESPONSE;
  net_send (source_peer_id ctx) b.

(** ** [direct_message.rs] *)

(** An error sent back to the peer the message came from. *)
Definition error_reply (peer : string) (err : CircuitError) : handler_eff (option (bytes * string)) :=
  b ← serialize err;
  b ← create_message b CIRCUIT_ERROR_MESSAGE;
  mret (Some (b, peer)).

(** [CircuitDirectMessageHandler]: the message to send and its recipient, [None]
    when the handler returns without sending. *)
Definition direct_message_response (node_id : string) (msg : CircuitDirectMessage)
    (ctx : circuit_context) (state : SplinterState) : handler_eff (option (bytes * string)) :=
  let circuit_name := cdm_circuit msg in
  let msg_sender := cdm_sender msg in
  let recipient := cdm_recipient msg in
  let recipient_id := mkServiceId circuit_name recipient in
  let sender_id := mkServiceId circuit_name msg_sender in
  let error_message e text :=
    mkCircuitError (cdm_correlation_id msg) msg_sender circuit_name e text in
  match circuit circuit_name state with
  | Some c =>
      if negb (roster_contains (c_roster c) msg_sender) then
        error_reply (source_peer_id ctx)
          (error_message ERROR_SENDER_NOT_IN_CIRCUIT_ROSTER
             ("Sender is not allowed in the Circuit: " +:+ msg_sender))
      else if bool_decide (ss_service_directory state !! sender_id = None) then
        error_reply (source_peer_id ctx)
          (error_message ERROR_SENDER_NOT_IN_DIRECTORY
             ("Sender is not in the service directory: " +:+ recipient))
      else if roster_contains (c_roster c) recipient then
        match ss_service_directory state !! recipient_id with
        | Some service =>
            if bool_decide (sn_id (svc_node service) ≠ node_id) then
              b ← create_message (message_bytes ctx) CIRCUIT_DIRECT_MESSAGE;
              mret (Some (b, sn_id (svc_node service)))
            else
              b ← create_message (message_bytes ctx) CIRCUIT_DIRECT_MESSAGE;
              match svc_peer_id service with
              | Some peer_id => mret (Some (b, peer_id))
              | None => mret None
              end
        | None =>
            error_reply (source_peer_id ctx)
              (error_message ERROR_RECIPIENT_NOT_IN_DIRECTORY
                 ("Recipient is not in the service directory: " +:+ recipient))
        end
      else
        error_reply (source_peer_id ctx)
          (error_message ERROR_RECIPIENT_NOT_IN_CIRCUIT_ROSTER
             ("Recipient is not allowed in the Circuit: " +:+ recipient))
  | None =>
      error_reply (source_peer_id ctx)
        (error_message ERROR_CIRCUIT_DOES_NOT_EXIST
           ("Circuit does not exist: " +:+ circuit_name))
  end.

Definition direct_message_handle (node_id : string) (msg : CircuitDirectMessage)
    (ctx : circuit_context) : handler_eff () :=
  state ← state_get;
  r ← direct_message_response node_id msg ctx state;
  match r with
  | Some (b, recipient) => net_send recipient b
  | None => mret ()
  end.

(** ** [admin_message.rs] *)

Definition create_circuit_error_msg (msg : AdminDirectMessage) (e : CircuitError_Error)
    (text : string) : handler_eff bytes :=
  serialize (mkCircuitError (adm_correlation_id msg) (adm_sender msg) (adm_circuit msg) e text).

Definition create_response (node_id : string) (msg : AdminDirectMessage) (ctx : circuit_context) :
    handler_eff (bytes * string) :=
  let recipient := adm_recipient msg in
  if negb (is_admin_service_id (adm_sender msg)) then
    b ← create_circuit_error_msg msg ERROR_SENDER_NOT_IN_CIRCUIT_ROSTER
          ("Sender is not allowed to send admin messages: " +:+ adm_sender msg);
    b ← create_message b CIRCUIT_ERROR_MESSAGE;
    mret (b, source_peer_id ctx)
  else if negb (is_admin_service_id recipient) then
    b ← create_circuit_error_msg msg ERROR_RECIPIENT_NOT_IN_CIRCUIT_ROSTER
          ("Recipient is not allowed to receive admin messages: " +:+ recipient);
    b ← create_message b CIRCUIT_ERROR_MESSAGE;
    mret (b, source_peer_id ctx)
  else
    state ← state_get;
    match circuit (adm_circuit msg) state with
    | Some _ =>
        let recipient_node := slice_from (String.length ADMIN_SERVICE_ID_PREFIX) recipient in
        let target_node :=
          if bool_decide (recipient_node ≠ node_id) then recipient_node else recipient in
        b ← create_message (message_bytes ctx) ADMIN_DIRECT_MESSAGE;
        mret (b, target_node)
    | None =>
        b ← create_circuit_error_msg msg ERROR_CIRCUIT_DOES_NOT_EXIST
              ("Circuit does not exist: " +:+ adm_circuit msg);
        b ← create_message b CIRCUIT_ERROR_MESSAGE;
        mret (b, source_peer_id ctx)
    end.

Definition admin_message_handle (node_id : string) (msg : AdminDirectMessage)
    (ctx : circuit_context) : handler_eff () :=
  r ← create_response node_id msg ctx;
  net_send r.2 r.1.

(** ** [circuit_error.rs] and [circuit_message.rs] *)

Definition circuit_error_handle (node_id : string) (msg : CircuitError) (ctx : circuit_context) :
    handler_eff () :=
  state ← state_get;
  match ss_service_directory state !! mkServiceId (ce_circuit_name msg) (ce_service_id msg) with
  | Some service =>
      let recipient :=
        if bool_decide (sn_id (svc_node service) = node_id) then svc_peer_id service
        else Some (sn_id (svc_node service)) in
      match recipient with
      | Some recipient =>
          b ← create_message (message_bytes ctx) CIRCUIT_ERROR_MESSAGE;
          net_send recipient b
      | None => mret ()
      end
  | None => mret ()
  end.

(** [CircuitMessageHandler]: the payload is queued for the circuit dispatcher. *)
Definition circuit_message_handle (msg : CircuitMessage) (ctx : MessageContext NetworkMessageType) :
    handler_eff () := λ s,
  let '(r, w) := send (mkDispatchMessage (cm_message_type msg) (cm_payload msg)
                         (source_peer_id ctx)) s.2 in
  (map_err NetworkSendError r, (s.1, w)).

(** The dispatcher of circuit messages, as the daemon sets it up. *)
Definition circuit_dispatcher (node_id endpoint : string) :
    Dispatcher (SplinterState * W) CircuitMessageType :=
  set_handler ADMIN_DIRECT_MESSAGE (admin_message_handle node_id)
    (set_handler CIRCUIT_ERROR_MESSAGE (circuit_error_handle node_id)
      (set_handler CIRCUIT_DIRECT_MESSAGE (direct_message_handle node_id)
        (set_handler SERVICE_DISCONNECT_REQUEST service_disconnect_handle
          (set_handler SERVICE_CONNECT_REQUEST (service_connect_handle node_id endpoint)
            dispatcher_new)))).
End handlers.
