(* ===== verification/CircuitRouting.v ===== *)
(** * What the circuit handlers guarantee

    The invariant of the service directory, the decision to connect a service,
    and the isolation of direct messages: they only travel between services
    registered in the roster of the same circuit. *)

From S2P Require Import Prelude Storage Circuit Dispatch CircuitHandlers.
From stdpp Require Import finite.

Section routing.
Context {W : Type} `{!Sender W SendRequest, !Sender W (DispatchMessage CircuitMessageType)}.
Context `{!Codec CircuitMessage, !Codec NetworkMessage, !Codec CircuitError,
  !Codec CircuitDirectMessage, !Codec AdminDirectMessage,
  !Codec ServiceConnectRequest, !Codec ServiceConnectResponse,
  !Codec ServiceDisconnectRequest, !Codec ServiceDisconnectResponse}.

(** ** Connecting services *)

(** The service may run on this node: it is an admin service, or the first
    definition of its id in the roster allows the node. *)
Definition node_allowed (node_id : string) (c : Circuit) (service_id : string) : bool :=
  starts_with "admin::" service_id ||
  match list_find (λ s, sd_service_id s = service_id) (roster_to_vec (c_roster c)) with
  | Some (_, s) => bool_decide (node_id ∈ sd_allowed_nodes s)
  | None => false
  end.

Definition connectable (node_id : string) (msg : ServiceConnectRequest) (state : SplinterState) :
    bool :=
  match circuit (scr_circuit msg) state with
  | Some c =>
      roster_contains (c_roster c) (scr_service_id msg) &&
      negb (has_service (mkServiceId (scr_circuit msg) (scr_service_id msg)) state) &&
      node_allowed node_id c (scr_service_id msg)
  | None => false
  end.

(** A service of the roster that is not an admin service has a definition. *)
Lemma roster_find r service_id :
  roster_contains r service_id = true → starts_with "admin::" service_id = false →
  ∃ i s, list_find (λ s, sd_service_id s = service_id) (roster_to_vec r) = Some (i, s).
Proof.
  destruct r as [l|]; cbn; [|intros ->; done].
  intros (s & Hs & Hid%bool_decide_eq_true)%existsb_exists _.
  apply list_elem_of_In in Hs.
  destruct (list_find_elem_of (λ s, sd_service_id s = service_id) l s) as [[i s'] Hf]; eauto.
Qed.

Lemma connect_decision_spec node_id endpoint peer msg state :
  ∃ svc status text,
    connect_decision node_id endpoint peer msg state = Ok (svc, status, text) ∧
    if connectable node_id msg state then
      svc = Some (mkService (scr_service_id msg) (Some peer) (mkSplinterNode node_id [endpoint])) ∧
      status = CONNECT_OK
    else svc = None ∧ status ≠ CONNECT_OK ∧ status ≠ CONNECT_UNSET_STATUS.
Proof.
  unfold connect_decision, connectable, node_allowed.
  destruct (circuit (scr_circuit msg) state) as [c|]; [|by do 3 eexists].
  destruct (roster_contains (c_roster c) (scr_service_id msg)) eqn:Hr; cbn; [|by do 3 eexists].
  destruct (has_service _ state); cbn; [by do 3 eexists|].
  destruct (starts_with "admin::" (scr_service_id msg)) eqn:Ha; cbn.
  - rewrite bool_decide_eq_false_2 by set_solver. by do 3 eexists.
  - destruct (roster_find _ _ Hr Ha) as (i & s & ->). cbn.
    destruct (decide (node_id ∈ sd_allowed_nodes s)).
    + rewrite bool_decide_eq_false_2, bool_decide_eq_true_2 by naive_solver. by do 3 eexists.
    + rewrite bool_decide_eq_true_2, bool_decide_eq_false_2 by done. by do 3 eexists.
Qed.

(** ** The service directory *)

(** Where messages for a service go: to the peer that connected a service of this
    node, to the node of the others. *)
Definition destination (node_id : string) (svc : Service) : option string :=
  if decide (sn_id (svc_node svc) = node_id) then svc_peer_id svc
  else Some (sn_id (svc_node svc)).

(** Every service of the directory is in the roster of its circuit.  Those of
    this node, which connected to it, have a peer id and may run on the node;
    those of other nodes, which the admin service adds with a circuit, need
    none. *)
Definition services_ok (node_id : string) (state : SplinterState) : Prop :=
  ∀ id svc, ss_service_directory state !! id = Some svc →
    svc_service_id svc = sid_service_id id ∧
    ∃ c, circuit (sid_circuit_name id) state = Some c ∧
      roster_contains (c_roster c) (sid_service_id id) = true ∧
      (sn_id (svc_node svc) = node_id →
       is_Some (svc_peer_id svc) ∧ node_allowed node_id c (sid_service_id id) = true).

Lemma services_ok_destination node_id state id svc :
  services_ok node_id state → ss_service_directory state !! id = Some svc →
  is_Some (destination node_id svc).
Proof.
  intros Hok (_ & c & _ & _ & Hloc)%Hok. unfold destination. case_decide; [naive_solver|by eexists].
Qed.

Lemma connected_ok node_id endpoint peer msg state :
  services_ok node_id state → connectable node_id msg state = true →
  services_ok node_id
    (add_service (mkServiceId (scr_circuit msg) (scr_service_id msg))
       (mkService (scr_service_id msg) (Some peer) (mkSplinterNode node_id [endpoint])) state).
Proof.
  intros Hok Hc id svc. cbn. intros [[<- <-]|[Hne Hin]]%lookup_insert_Some; [|by apply Hok].
  unfold connectable in Hc. destruct (circuit (scr_circuit msg) state) as [c|] eqn:Hcirc; [|done].
  apply andb_true_iff in Hc as [[Hr _]%andb_true_iff Ha].
  split; [done|]. exists c. split_and!; [done..|]. by eauto.
Qed.

Lemma disconnected_ok node_id id state :
  services_ok node_id state → services_ok node_id (remove_service id state).
Proof. intros Hok id' svc. cbn. intros [_ Hin]%lookup_delete_Some. by apply Hok. Qed.

(** A computation that leaves the splinter state as it is. *)
Definition reads {A} (m : eff (SplinterState * W) DispatchError A) : Prop :=
  ∀ s, (m s).2.1 = s.1.

Lemma reads_bind {A B} (m : eff (SplinterState * W) DispatchError A) (k : A → eff _ _ B) :
  reads m → (∀ a, reads (k a)) → reads (m ≫= k).
Proof.
  intros Hm Hk s. specialize (Hm s). unfold mbind, eff_bind.
  destruct (m s) as [[a|] s']; [|done]. by rewrite Hk.
Qed.
Lemma reads_ret {A} (a : A) : reads (mret a).
Proof. done. Qed.
Lemma reads_get : reads state_get.
Proof. done. Qed.
Lemma reads_serialize {M} `{!Codec M} (m : M) : reads (serialize m).
Proof. done. Qed.
Lemma reads_send recipient b : reads (net_send recipient b).
Proof. intros s. unfold net_send. by destruct (send _ _). Qed.

#[local] Hint Resolve reads_ret reads_get reads_serialize reads_send : splinter.
Ltac solve_reads :=
  repeat first
    [ progress intros
    | solve [eauto with splinter nocore]
    | apply reads_bind | case_match ].

Lemma reads_create_message b ty : reads (create_message b ty).
Proof. unfold create_message. solve_reads. Qed.
#[local] Hint Resolve reads_create_message : splinter.
Lemma reads_error_reply peer err : reads (error_reply peer err).
Proof. unfold error_reply. solve_reads. Qed.
#[local] Hint Resolve reads_error_reply : splinter.

Lemma direct_message_reads node_id msg ctx : reads (direct_message_handle node_id msg ctx).
Proof. unfold direct_message_handle, direct_message_response. solve_reads. Qed.
Lemma admin_message_reads node_id msg ctx : reads (admin_message_handle node_id msg ctx).
Proof. unfold admin_message_handle, create_response, create_circuit_error_msg. solve_reads. Qed.
Lemma circuit_error_reads node_id msg ctx : reads (circuit_error_handle node_id msg ctx).
Proof. unfold circuit_error_handle. solve_reads. Qed.

(** The state after a connection request. *)
Lemma service_connect_state node_id endpoint msg (ctx : MessageContext CircuitMessageType) s :
  (service_connect_handle node_id endpoint msg ctx s).2.1 =
    if connectable node_id msg s.1
    then add_service (mkServiceId (scr_circuit msg) (scr_service_id msg))
           (mkService (scr_service_id msg) (Some (source_peer_id ctx))
              (mkSplinterNode node_id [endpoint])) s.1
    else s.1.
Proof.
  unfold service_connect_handle. erewrite eff_bind_ok by done.
  destruct (connect_decision_spec node_id endpoint (source_peer_id ctx) msg s.1)
    as (svc & status & text & Hd & Hif).
  erewrite eff_bind_ok; [|unfold lift; by rewrite Hd].
  destruct (connectable node_id msg s.1); destruct Hif as [-> _];
    erewrite eff_bind_ok by done; cbn beta iota.
  - match goal with |- (?m ?s).2.1 = _ => assert (reads m) as Hm by solve_reads; by rewrite Hm end.
  - match goal with |- (?m ?s).2.1 = _ => assert (reads m) as Hm by solve_reads; by rewrite Hm end.
Qed.

Lemma service_disconnect_state msg (ctx : MessageContext CircuitMessageType) s :
  (service_disconnect_handle msg ctx s).2.1 =
    if (disconnect_decision msg s.1).1.1
    then remove_service (mkServiceId (sdr_circuit msg) (sdr_service_id msg)) s.1 else s.1.
Proof.
  unfold service_disconnect_handle. erewrite eff_bind_ok by done.
  destruct (disconnect_decision msg s.1) as [[[] status] text];
    erewrite eff_bind_ok by done; cbn beta iota;
    match goal with |- (?m ?s).2.1 = _ => assert (reads m) as Hm by solve_reads; by rewrite Hm end.
Qed.

Lemma dispatch_services_step node_id endpoint source mt b s :
  services_ok node_id s.1 →
  services_ok node_id (dispatch (circuit_dispatcher node_id endpoint) source mt b s).2.1.
Proof.
  intros Hok. unfold circuit_dispatcher. rewrite !dispatch_set_handler.
  repeat (case_decide || case_match); subst; try done.
  - by rewrite admin_message_reads.
  - by rewrite circuit_error_reads.
  - by rewrite direct_message_reads.
  - rewrite service_disconnect_state. case_match; [by apply disconnected_ok|done].
  - rewrite service_connect_state. case_match; [by apply connected_ok|done].
Qed.

(** C15: whatever messages reach the circuit dispatcher of a node, every service
    of its directory stays in the roster of a circuit of the node, and those on
    the node itself may run on it and have the peer id messages for them are sent
    to.  The directory starts empty, and a circuit the admin service commits
    keeps the invariant too. *)
Theorem dispatched_services_ok node_id endpoint msgs s :
  services_ok node_id s.1 →
  services_ok node_id
    (foldl (λ s m, (dispatch_message (circuit_dispatcher node_id endpoint) m s).2) s msgs).1.
Proof.
  revert s. induction msgs as [|m msgs IH]; intros s Hok; [done|]. cbn [foldl].
  apply IH. by apply dispatch_services_step.
Qed.

(** ** Envelopes *)

Context `{!CodecLaws CircuitMessage, !CodecLaws NetworkMessage, !CodecLaws CircuitError}.

Definition open_envelope (b : bytes) : option CircuitMessage :=
  nm ← parse_from_bytes b;
  if bool_decide (nm_message_type nm = CIRCUIT) then parse_from_bytes (nm_payload nm) else None.

Lemma create_message_inv payload ty (s s' : SplinterState * W) b :
  create_message payload ty s = (Ok b, s') →
  s' = s ∧ open_envelope b = Some (mkCircuitMessage ty payload).
Proof.
  unfold create_message, serialize. intros (b1 & s1 & [= Hb1 <-] & [= Hb <-])%eff_bind_inv.
  split; [done|]. unfold ok_or in *. case_match; simplify_eq. case_match; simplify_eq.
  unfold open_envelope. erewrite parse_write by done. cbn. by apply parse_write.
Qed.

Lemma create_message_total `{!CodecTotal CircuitMessage, !CodecTotal NetworkMessage} payload ty :
  ∃ b, (∀ s : SplinterState * W, create_message payload ty s = (Ok b, s)) ∧
       open_envelope b = Some (mkCircuitMessage ty payload).
Proof.
  destruct (write_total (mkCircuitMessage ty payload)) as [b1 Hb1].
  destruct (write_total (mkNetworkMessage CIRCUIT b1)) as [b Hb]. exists b.
  assert (∀ s : SplinterState * W, create_message payload ty s = (Ok b, s)) as Heq.
  { intros s. unfold create_message, serialize. rewrite Hb1. erewrite eff_bind_ok by done.
    by rewrite Hb. }
  split; [done|]. unfold open_envelope. erewrite parse_write by done. cbn. by apply parse_write.
Qed.

(** Answering a request: the response is written, put in an envelope and sent. *)
Lemma reply_total `{!CodecTotal CircuitMessage, !CodecTotal NetworkMessage}
    {M} `{!Codec M, !CodecTotal M, !CodecLaws M} (resp : M) ty peer :
  ∃ b payload,
    (∀ s : SplinterState * W,
       (rb ← serialize resp; b ← create_message rb ty; net_send peer b) s = net_send peer b s) ∧
    open_envelope b = Some (mkCircuitMessage ty payload) ∧ parse_from_bytes payload = Some resp.
Proof.
  destruct (write_total resp) as [payload Hpay].
  destruct (create_message_total payload ty) as (b & Hb & Hopen). exists b, payload.
  split_and!; [|done|by apply parse_write]. intros s.
  unfold serialize. rewrite Hpay. erewrite eff_bind_ok by done. by erewrite eff_bind_ok by apply Hb.
Qed.

(** A request to connect a service is answered with success exactly when the
    circuit exists, its roster has the service, the service is not connected yet
    and this node may run it; exactly then the service is added to the directory,
    with the requesting peer.  In every case one response goes to that peer, and
    the handler never panics looking for the definition of the service. *)
Theorem service_connect_correct `{!CodecTotal CircuitMessage, !CodecTotal NetworkMessage,
    !CodecTotal ServiceConnectResponse, !CodecLaws ServiceConnectResponse}
    node_id endpoint msg (ctx : MessageContext CircuitMessageType) state (w : W) :
  ∃ b payload resp,
    service_connect_handle node_id endpoint msg ctx (state, w) =
      net_send (source_peer_id ctx) b
        (if connectable node_id msg state
         then add_service (mkServiceId (scr_circuit msg) (scr_service_id msg))
                (mkService (scr_service_id msg) (Some (source_peer_id ctx))
                   (mkSplinterNode node_id [endpoint])) state
         else state, w) ∧
    open_envelope b = Some (mkCircuitMessage SERVICE_CONNECT_RESPONSE payload) ∧
    parse_from_bytes payload = Some resp ∧
    scp_correlation_id resp = scr_correlation_id msg ∧
    (scp_status resp = CONNECT_OK ↔ connectable node_id msg state = true).
Proof.
  destruct (connect_decision_spec node_id endpoint (source_peer_id ctx) msg state)
    as (svc & status & text & Hd & Hif).
  set (resp := mkServiceConnectResponse (scr_circuit msg) (scr_service_id msg) status text
    (scr_correlation_id msg)).
  destruct (reply_total resp SERVICE_CONNECT_RESPONSE (source_peer_id ctx))
    as (b & payload & Hb & Hopen & Hpay).
  exists b, payload, resp. split; [|split_and!; [done..|]].
  - unfold service_connect_handle. erewrite eff_bind_ok by done. cbn [fst].
    erewrite eff_bind_ok; [|unfold lift; by rewrite Hd]. cbn beta iota.
    destruct (connectable node_id msg state); destruct Hif as [-> _];
      erewrite eff_bind_ok by done; apply Hb.
  - destruct (connectable node_id msg state); naive_solver.
Qed.

(** ** Direct messages *)

(** Sender and recipient are both in the roster of the circuit, and connected. *)
Definition routable (msg : CircuitDirectMessage) (state : SplinterState) : bool :=
  match circuit (cdm_circuit msg) state with
  | Some c =>
      roster_contains (c_roster c) (cdm_sender msg) &&
      roster_contains (c_roster c) (cdm_recipient msg) &&
      has_service (mkServiceId (cdm_circuit msg) (cdm_sender msg)) state &&
      has_service (mkServiceId (cdm_circuit msg) (cdm_recipient msg)) state
  | None => false
  end.

Lemma error_reply_inv peer err (s : SplinterState * W) r s' :
  error_reply peer err s = (Ok r, s') →
  ∃ b payload, r = Some (b, peer) ∧ s' = s ∧
    open_envelope b = Some (mkCircuitMessage CIRCUIT_ERROR_MESSAGE payload) ∧
    parse_from_bytes payload = Some err.
Proof.
  unfold error_reply, serialize. intros (payload & s1 & [= Hp <-] & Hr)%eff_bind_inv.
  apply eff_bind_inv in Hr as (b & s2 & [-> Hopen]%create_message_inv & [= <- <-]).
  exists b, payload. split_and!; [done..|]. unfold ok_or in Hp. case_match; simplify_eq.
  by apply parse_write.
Qed.

(** What the sender of a message that cannot be routed gets back. *)
Definition rejection (msg : CircuitDirectMessage) (b : bytes) : Prop :=
  ∃ payload err,
    open_envelope b = Some (mkCircuitMessage CIRCUIT_ERROR_MESSAGE payload) ∧
    parse_from_bytes payload = Some err ∧
    ce_correlation_id err = cdm_correlation_id msg ∧ ce_service_id err = cdm_sender msg ∧
    ce_circuit_name err = cdm_circuit msg ∧ ce_error err ≠ UNSET_CIRCUIT_ERROR.

Lemma rejection_reply msg peer e text (s : SplinterState * W) r s' :
  error_reply peer (mkCircuitError (cdm_correlation_id msg) (cdm_sender msg) (cdm_circuit msg) e
    text) s = (Ok r, s') → e ≠ UNSET_CIRCUIT_ERROR →
  s' = s ∧ ∃ b, r = Some (b, peer) ∧ rejection msg b.
Proof.
  intros (b & payload & -> & -> & Hopen & Hp)%error_reply_inv He. split; [done|].
  exists b. split; [done|]. by eexists payload, _.
Qed.

(** A message that is routable is forwarded. *)
Lemma direct_message_forward node_id msg (ctx : MessageContext CircuitMessageType) state
    (s s' : SplinterState * W) r :
  services_ok node_id state → routable msg state = true →
  direct_message_response node_id msg ctx state s = (Ok r, s') →
  s' = s ∧
  ∃ b peer svc, r = Some (b, peer) ∧
    open_envelope b = Some (mkCircuitMessage CIRCUIT_DIRECT_MESSAGE (message_bytes ctx)) ∧
    ss_service_directory state !! mkServiceId (cdm_circuit msg) (cdm_recipient msg) = Some svc ∧
    destination node_id svc = Some peer.
Proof.
  intros Hok. unfold direct_message_response, routable, has_service.
  destruct (circuit (cdm_circuit msg) state) as [c|]; [|done].
  rewrite !andb_true_iff, !bool_decide_eq_true. intros [[[Hs Hr] [snd Hsnd]] [svc Hsvc]].
  rewrite Hs, Hr, Hsnd, Hsvc, bool_decide_eq_false_2 by done. cbn [negb].
  destruct (services_ok_destination _ _ _ _ Hok Hsvc) as [peer Hpeer].
  pose proof Hpeer as Hdest. unfold destination in Hdest. case_decide as Hn.
  - rewrite bool_decide_eq_false_2, Hdest by naive_solver.
    intros (b & s1 & [-> Hopen]%create_message_inv & [= <- <-])%eff_bind_inv.
    split; [done|]. by exists b, peer, svc.
  - rewrite bool_decide_eq_true_2 by done. simplify_eq.
    intros (b & s1 & [-> Hopen]%create_message_inv & [= <- <-])%eff_bind_inv.
    split; [done|]. by exists b, (sn_id (svc_node svc)), svc.
Qed.

(** C3: direct messages are isolated.  The handler forwards a message, byte for
    byte, exactly when its sender and its recipient are both in the roster of
    the circuit it names and connected, and it forwards it to the peer that
    connected the recipient, or to the recipient's node if that is another one;
    otherwise it sends back an error naming the
    message.  In no case does it change the state, and it never drops a
    message. *)
Theorem direct_message_isolated node_id msg (ctx : MessageContext CircuitMessageType) state
    (s s' : SplinterState * W) r :
  services_ok node_id state →
  direct_message_response node_id msg ctx state s = (Ok r, s') →
  s' = s ∧
  if routable msg state then
    ∃ b peer svc, r = Some (b, peer) ∧
      open_envelope b = Some (mkCircuitMessage CIRCUIT_DIRECT_MESSAGE (message_bytes ctx)) ∧
      ss_service_directory state !! mkServiceId (cdm_circuit msg) (cdm_recipient msg) = Some svc ∧
      destination node_id svc = Some peer
  else ∃ b, r = Some (b, source_peer_id ctx) ∧ rejection msg b.
Proof.
  intros Hok Hm. destruct (routable msg state) eqn:Hr; [by eapply direct_message_forward|].
  revert Hr Hm. unfold direct_message_response, routable, has_service.
  destruct (circuit (cdm_circuit msg) state) as [c|]; [|by intros _ ?%rejection_reply].
  destruct (roster_contains (c_roster c) (cdm_sender msg)); cbn [negb andb];
    [|by intros _ ?%rejection_reply].
  destruct (ss_service_directory state !! mkServiceId _ (cdm_sender msg)) as [snd|].
  2: { rewrite (bool_decide_eq_true_2 (None = None)) by done. by intros _ ?%rejection_reply. }
  rewrite (bool_decide_eq_false_2 (Some snd = None)), (bool_decide_eq_true_2 (is_Some (Some snd)))
    by (done || by eexists).
  destruct (roster_contains (c_roster c) (cdm_recipient msg)); cbn [andb];
    [|by intros _ ?%rejection_reply].
  destruct (ss_service_directory state !! mkServiceId _ (cdm_recipient msg)) as [svc|]; [by rewrite bool_decide_eq_true_2 by (by eexists)|].
  by intros _ ?%rejection_reply.
Qed.
End routing.

(** ** A concrete node *)

Module HandlersMock.
Export CountableCodec.

Ltac solve_finite := first [intros [] | idtac]; apply (bool_decide_unpack _); by vm_compute.

#[export] Instance CircuitMessageType_finite : Finite CircuitMessageType.
Proof.
  refine {| enum := [UNSET_CIRCUIT_MESSAGE_TYPE; CIRCUIT_ERROR_MESSAGE; NETWORK_ERROR_MESSAGE;
    CIRCUIT_DIRECT_MESSAGE; SERVICE_CONNECT_REQUEST; SERVICE_CONNECT_RESPONSE;
    SERVICE_DISCONNECT_REQUEST; SERVICE_DISCONNECT_RESPONSE; ADMIN_DIRECT_MESSAGE] |}; solve_finite.
Defined.
#[export] Instance NetworkMessageType_finite : Finite NetworkMessageType.
Proof.
  refine {| enum := [UNSET_NETWORK_MESSAGE_TYPE; NETWORK_ECHO; NETWORK_HEARTBEAT; CIRCUIT;
    AUTHORIZATION] |}; solve_finite.
Defined.
#[export] Instance CircuitError_Error_eq_dec : EqDecision CircuitError_Error.
Proof. solve_decision. Defined.
#[export] Instance CircuitError_Error_finite : Finite CircuitError_Error.
Proof.
  refine {| enum := [UNSET_CIRCUIT_ERROR; ERROR_CIRCUIT_DOES_NOT_EXIST;
    ERROR_RECIPIENT_NOT_IN_CIRCUIT_ROSTER; ERROR_SENDER_NOT_IN_CIRCUIT_ROSTER;
    ERROR_RECIPIENT_NOT_IN_DIRECTORY; ERROR_SENDER_NOT_IN_DIRECTORY] |}; solve_finite.
Defined.
#[export] Instance ConnectStatus_eq_dec : EqDecision ServiceConnectResponse_Status.
Proof. solve_decision. Defined.
#[export] Instance ConnectStatus_finite : Finite ServiceConnectResponse_Status.
Proof.
  refine {| enum := [CONNECT_UNSET_STATUS; CONNECT_OK; CONNECT_ERROR_CIRCUIT_DOES_NOT_EXIST;
    CONNECT_ERROR_SERVICE_NOT_IN_CIRCUIT_REGISTRY; CONNECT_ERROR_SERVICE_ALREADY_REGISTERED;
    CONNECT_ERROR_NOT_AN_ALLOWED_NODE; CONNECT_ERROR_QUEUE_FULL] |}; solve_finite.
Defined.

#[export] Instance CircuitMessage_eq_dec : EqDecision CircuitMessage.
Proof. solve_decision. Defined.
#[export] Instance CircuitMessage_countable : Countable CircuitMessage.
Proof.
  refine (inj_countable' (λ m, (cm_message_type m, cm_payload m))
    (λ '(t, p), mkCircuitMessage t p) _). by intros [].
Defined.
#[export] Instance NetworkMessage_eq_dec : EqDecision NetworkMessage.
Proof. solve_decision. Defined.
#[export] Instance NetworkMessage_countable : Countable NetworkMessage.
Proof.
  refine (inj_countable' (λ m, (nm_message_type m, nm_payload m))
    (λ '(t, p), mkNetworkMessage t p) _). by intros [].
Defined.
#[export] Instance CircuitError_eq_dec : EqDecision CircuitError.
Proof. solve_decision. Defined.
#[export] Instance CircuitError_countable : Countable CircuitError.
Proof.
  refine (inj_countable' (λ m, (ce_correlation_id m, ce_service_id m, ce_circuit_name m,
      ce_error m, ce_error_message m))
    (λ '(a, b, c, d, e), mkCircuitError a b c d e) _). by intros [].
Defined.
#[export] Instance ServiceConnectResponse_eq_dec : EqDecision ServiceConnectResponse.
Proof. solve_decision. Defined.
#[export] Instance ServiceConnectResponse_countable : Countable ServiceConnectResponse.
Proof.
  refine (inj_countable' (λ m, (scp_circuit m, scp_service_id m, scp_status m,
      scp_error_message m, scp_correlation_id m))
    (λ '(a, b, c, d, e), mkServiceConnectResponse a b c d e) _). by intros [].
Defined.

#[export] Instance DisconnectStatus_eq_dec : EqDecision ServiceDisconnectResponse_Status.
Proof. solve_decision. Defined.
#[export] Instance DisconnectStatus_finite : Finite ServiceDisconnectResponse_Status.
Proof.
  refine {| enum := [DISCONNECT_UNSET_STATUS; DISCONNECT_OK;
    DISCONNECT_ERROR_CIRCUIT_DOES_NOT_EXIST; DISCONNECT_ERROR_SERVICE_NOT_IN_CIRCUIT_REGISTRY;
    DISCONNECT_ERROR_SERVICE_NOT_REGISTERED; DISCONNECT_ERROR_QUEUE_FULL] |}; solve_finite.
Defined.
#[export] Instance ServiceConnectRequest_eq_dec : EqDecision ServiceConnectRequest.
Proof. solve_decision. Defined.
#[export] Instance ServiceConnectRequest_countable : Countable ServiceConnectRequest.
Proof.
  refine (inj_countable' (λ m, (scr_circuit m, scr_service_id m, scr_correlation_id m))
    (λ '(a, b, c), mkServiceConnectRequest a b c) _). by intros [].
Defined.
#[export] Instance ServiceDisconnectRequest_eq_dec : EqDecision ServiceDisconnectRequest.
Proof. solve_decision. Defined.
#[export] Instance ServiceDisconnectRequest_countable : Countable ServiceDisconnectRequest.
Proof.
  refine (inj_countable' (λ m, (sdr_circuit m, sdr_service_id m, sdr_correlation_id m))
    (λ '(a, b, c), mkServiceDisconnectRequest a b c) _). by intros [].
Defined.
#[export] Instance ServiceDisconnectResponse_eq_dec : EqDecision ServiceDisconnectResponse.
Proof. solve_decision. Defined.
#[export] Instance ServiceDisconnectResponse_countable : Countable ServiceDisconnectResponse.
Proof.
  refine (inj_countable' (λ m, (sdp_circuit m, sdp_service_id m, sdp_status m, sdp_error_message m, sdp_correlation_id m))
    (λ '(a, b, c, d, e), mkServiceDisconnectResponse a b c d e) _). by intros [].
Defined.
#[export] Instance CircuitDirectMessage_eq_dec : EqDecision CircuitDirectMessage.
Proof. solve_decision. Defined.
#[export] Instance CircuitDirectMessage_countable : Countable CircuitDirectMessage.
Proof.
  refine (inj_countable' (λ m, (cdm_circuit m, cdm_sender m, cdm_recipient m, cdm_payload m, cdm_correlation_id m))
    (λ '(a, b, c, d, e), mkCircuitDirectMessage a b c d e) _). by intros [].
Defined.
#[export] Instance AdminDirectMessage_eq_dec : EqDecision AdminDirectMessage.
Proof. solve_decision. Defined.
#[export] Instance AdminDirectMessage_countable : Countable AdminDirectMessage.
Proof.
  refine (inj_countable' (λ m, (adm_circuit m, adm_sender m, adm_recipient m, adm_payload m, adm_correlation_id m))
    (λ '(a, b, c, d, e), mkAdminDirectMessage a b c d e) _). by intros [].
Defined.

(** The sender keeps what is sent. *)
#[export] Instance outbox : Sender (list SendRequest) SendRequest := λ m w, (Ok (), w ++ [m]).

(** Node [n1] with the circuit [alpha], whose services [abc] and [def] may run on
    it; both are connected. *)
Definition alpha : Circuit :=
  mkCircuit "alpha" AuthTrust ["n1"; "n2"]
    (RosterStandard [service_definition "abc" "t" ["n1"] []; service_definition "def" "t" ["n1"] [];
                     service_definition "ghi" "t" ["n2"] []])
    PersistenceAny NoDurability RouteAny "default".
Definition state0 : SplinterState :=
  splinter_state_new "memory" (Directory.add_circuit "alpha" alpha Directory.new).
Definition connected (service peer : string) (state : SplinterState) : SplinterState :=
  add_service (mkServiceId "alpha" service)
    (mkService service (Some peer) (mkSplinterNode "n1" ["tcp://n1"])) state.
Definition state2 : SplinterState := connected "def" "peer_def" (connected "abc" "peer_abc" state0).

Lemma state2_ok : services_ok "n1" state2.
Proof.
  apply (connected_ok "n1" "tcp://n1" "peer_def" (mkServiceConnectRequest "alpha" "def" ""));
    [|by vm_compute].
  apply (connected_ok "n1" "tcp://n1" "peer_abc" (mkServiceConnectRequest "alpha" "abc" ""));
    [done|by vm_compute].
Qed.

Definition direct : CircuitDirectMessage := mkCircuitDirectMessage "alpha" "abc" "def" "hello" "1".
Definition context (b : bytes) : MessageContext CircuitMessageType :=
  mkMessageContext "peer_abc" CIRCUIT_DIRECT_MESSAGE b.
End HandlersMock.

Section routing_witness.
Import HandlersMock.

Lemma service_connect_correct_witness :
  ∃ b payload resp,
    service_connect_handle "n1" "tcp://n1" (mkServiceConnectRequest "alpha" "abc" "7")
      (context "") (state0, [] : list SendRequest) =
      net_send "peer_abc" b (connected "abc" "peer_abc" state0, []) ∧
    open_envelope b = Some (mkCircuitMessage SERVICE_CONNECT_RESPONSE payload) ∧
    parse_from_bytes payload = Some resp ∧ scp_status resp = CONNECT_OK.
Proof.
  destruct (service_connect_correct "n1" "tcp://n1" (mkServiceConnectRequest "alpha" "abc" "7")
    (context "") state0 ([] : list SendRequest)) as (b & payload & resp & H1 & H2 & H3 & _ & H5).
  exists b, payload, resp. split_and!; [exact H1|done|done|].
  by apply H5.
Defined.

(** [abc] disconnects and connects again from another peer. *)
Definition reconnect : list (DispatchMessage CircuitMessageType) :=
  [mkDispatchMessage SERVICE_DISCONNECT_REQUEST
     (default "" (write_to_bytes (mkServiceDisconnectRequest "alpha" "abc" "1"))) "peer_abc";
   mkDispatchMessage SERVICE_CONNECT_REQUEST
     (default "" (write_to_bytes (mkServiceConnectRequest "alpha" "abc" "2"))) "peer2"].

Lemma dispatched_services_ok_witness :
  let s := foldl (λ s m, (dispatch_message (circuit_dispatcher "n1" "tcp://n1") m s).2)
    (state2, [] : list SendRequest) reconnect in
  services_ok "n1" s.1 ∧
  svc_peer_id <$> ss_service_directory s.1 !! mkServiceId "alpha" "abc" = Some (Some "peer2").
Proof.
  split; [|by vm_compute].
  by apply (dispatched_services_ok "n1" "tcp://n1" reconnect (state2, [])), state2_ok.
Defined.

Lemma direct_message_isolated_witness :
  routable direct state2 = true ∧
  ∃ r, (direct_message_response "n1" direct (context "raw") state2
          (state2, [] : list SendRequest)).1 = Ok r ∧
  ∃ b peer svc, r = Some (b, peer) ∧
    open_envelope b = Some (mkCircuitMessage CIRCUIT_DIRECT_MESSAGE "raw") ∧
    ss_service_directory state2 !! mkServiceId "alpha" "def" = Some svc ∧
    destination "n1" svc = Some peer.
Proof.
  split; [by vm_compute|]. eexists. split; [reflexivity|].
  by apply (direct_message_isolated "n1" direct (context "raw") state2 (state2, [])
    (state2, [] : list SendRequest)); [apply state2_ok|].
Defined.
End routing_witness.

(** A service of an ordinary circuit whose id starts with ["admin::"] is connected
    on a node that its definition does not allow. *)
Lemma admin_prefix_bypasses_allowed_nodes :
  let c := mkCircuit "beta" AuthTrust ["n1"; "n2"]
    (RosterStandard [service_definition "admin::x" "t" ["n2"] []])
    PersistenceAny NoDurability RouteAny "default" in
  let state := splinter_state_new "memory" (Directory.add_circuit "beta" c Directory.new) in
  ∃ svc text,
    connect_decision "n1" "tcp://n1" "peer" (mkServiceConnectRequest "beta" "admin::x" "") state =
      Ok (Some svc, CONNECT_OK, text).
Proof. by do 2 eexists. Qed.
