(* ===== verification/BiMap.v ===== *)
(** * The bidirectional map

    Models [libsplinter/src/collections/mod.rs]: [BiHashMap], two hash maps that
    are meant to be inverses of each other. *)

From S2P Require Import Prelude.

Record BiHashMap (K V : Type) `{Countable K, Countable V} := mkBiHashMap {
  kv_hash_map : gmap K V;
  vk_hash_map : gmap V K;
}.
Arguments mkBiHashMap {K V _ _ _ _} kv_hash_map vk_hash_map.
Arguments kv_hash_map {K V _ _ _ _} b.
Arguments vk_hash_map {K V _ _ _ _} b.

Module BiMap.
Section bimap.
Context {K V : Type} `{Countable K, Countable V}.
Implicit Types m : BiHashMap K V.

Definition new : BiHashMap K V := mkBiHashMap ∅ ∅.
Definition keys m : list K := (map_to_list (kv_hash_map m)).*1.
Definition values m : list V := (map_to_list (kv_hash_map m)).*2.
Definition len m : nat := size (kv_hash_map m).
Definition is_empty m : bool := bool_decide (kv_hash_map m = ∅).
Definition clear (_ : BiHashMap K V) : BiHashMap K V := mkBiHashMap ∅ ∅.
Definition get_by_key (k : K) m : option V := kv_hash_map m !! k.
Definition get_by_value (v : V) m : option K := vk_hash_map m !! v.
Definition contains_key (k : K) m : bool := bool_decide (is_Some (kv_hash_map m !! k)).
Definition contains_value (v : V) m : bool := bool_decide (is_Some (vk_hash_map m !! v)).

Definition insert (k : K) (v : V) m : (option K * option V) * BiHashMap K V :=
  let old_value := kv_hash_map m !! k in
  let old_key := vk_hash_map m !! v in
  ((old_key, old_value), mkBiHashMap (<[k := v]> (kv_hash_map m)) (<[v := k]> (vk_hash_map m))).

Definition remove_by_key (k : K) m : option (K * V) * BiHashMap K V :=
  match kv_hash_map m !! k with
  | Some v =>
      let m' := mkBiHashMap (delete k (kv_hash_map m)) (delete v (vk_hash_map m)) in
      match vk_hash_map m !! v with
      | Some k' => (Some (k', v), m')
      | None => (None, m')
      end
  | None => (None, m)
  end.

Definition remove_by_value (v : V) m : option (K * V) * BiHashMap K V :=
  match vk_hash_map m !! v with
  | Some k =>
      let m' := mkBiHashMap (delete k (kv_hash_map m)) (delete v (vk_hash_map m)) in
      match kv_hash_map m !! k with
      | Some v' => (Some (k, v'), m')
      | None => (None, m')
      end
  | None => (None, m)
  end.

(** ** The two maps are inverses of each other *)

Definition ok m : Prop := ∀ k v, kv_hash_map m !! k = Some v ↔ vk_hash_map m !! v = Some k.

Lemma new_ok : ok new.
Proof. intros k v. cbn. by rewrite !lookup_empty. Qed.

(** [insert] keeps them inverses if neither the key nor the value is in use, or
    both are, by each other. *)
Lemma insert_ok k v m :
  (∀ v', kv_hash_map m !! k = Some v' → v' = v) → (∀ k', vk_hash_map m !! v = Some k' → k' = k) →
  ok m → ok (insert k v m).2.
Proof.
  unfold ok. intros Hk Hv Hok k' v'. cbn. rewrite !lookup_insert_Some, Hok. split.
  - intros [[-> ->]|[Hne Hin]]; [by left|]. right. split; [|done]. intros ->.
    by apply Hne, eq_sym, Hv.
  - intros [[-> ->]|[Hne Hin]]; [by left|]. right. split; [|done]. intros ->.
    apply Hne, eq_sym, Hk, Hok, Hin.
Qed.

Lemma delete_ok k v m :
  kv_hash_map m !! k = Some v → ok m →
  ok (mkBiHashMap (delete k (kv_hash_map m)) (delete v (vk_hash_map m))).
Proof.
  unfold ok. intros Hk Hok k' v'. cbn. rewrite !lookup_delete_Some, Hok. split; intros [Hne Hin]; split.
  - intros ->. apply Hne. apply Hok in Hk. congruence.
  - done.
  - intros ->. apply Hne. apply Hok in Hin. congruence.
  - done.
Qed.

Lemma remove_by_key_ok k m : ok m → ok (remove_by_key k m).2.
Proof.
  intros Hok. unfold remove_by_key. destruct (kv_hash_map m !! k) as [v|] eqn:Hk; [|done].
  destruct (vk_hash_map m !! v); by apply delete_ok.
Qed.

Lemma remove_by_value_ok v m : ok m → ok (remove_by_value v m).2.
Proof.
  intros Hok. unfold remove_by_value. destruct (vk_hash_map m !! v) as [k|] eqn:Hv; [|done].
  destruct (kv_hash_map m !! k); by apply delete_ok; [apply Hok|].
Qed.

Lemma remove_by_key_spec k m :
  ok m → (remove_by_key k m).1 = (λ v, (k, v)) <$> get_by_key k m.
Proof.
  intros Hok. unfold remove_by_key, get_by_key.
  destruct (kv_hash_map m !! k) as [v|] eqn:Hk; [|done]. by rewrite (proj1 (Hok k v) Hk).
Qed.

Lemma remove_by_value_spec v m :
  ok m → (remove_by_value v m).1 = (λ k, (k, v)) <$> get_by_value v m.
Proof.
  intros Hok. unfold remove_by_value, get_by_value.
  destruct (vk_hash_map m !! v) as [k|] eqn:Hv; [|done]. by rewrite (proj2 (Hok k v) Hv).
Qed.

(** Inserting a new key with a new value and removing it, by either of them,
    gives back the pair and the map as it was. *)
Theorem bimap_insert_remove k v (m : BiHashMap K V) :
  kv_hash_map m !! k = None → vk_hash_map m !! v = None →
  insert k v m = ((None, None), (insert k v m).2) ∧
  remove_by_key k (insert k v m).2 = (Some (k, v), m) ∧
  remove_by_value v (insert k v m).2 = (Some (k, v), m).
Proof.
  intros Hk Hv. unfold insert, remove_by_key, remove_by_value. cbn.
  rewrite Hk, Hv, !lookup_insert_eq, !delete_insert_id by done. by destruct m.
Qed.
End bimap.
End BiMap.

Lemma bimap_insert_remove_witness :
  BiMap.remove_by_key "ONE" (BiMap.insert "ONE" 1 BiMap.new).2 = (Some ("ONE", 1), BiMap.new).
Proof. by apply (BiMap.bimap_insert_remove "ONE" 1 BiMap.new). Defined.

(** Inserting a value that another key holds leaves that key behind: the two maps
    have different sizes, and removing the key gives back another one. *)
Lemma bimap_insert_stale :
  let m := (BiMap.insert "TWO" 1 (BiMap.insert "ONE" 1 BiMap.new).2).2 in
  BiMap.len m = 2 ∧ size (vk_hash_map m) = 1 ∧
  (BiMap.remove_by_key "ONE" m).1 = Some ("TWO", 1).
Proof. by vm_compute. Qed.
