(* ===== verification/Network.v ===== *)
(** * The peers of a network

    Models [libsplinter/src/network/mod.rs]: the map from peer ids to mesh
    connections with its redirects, and the operations of [Network] on it.  The
    mesh, a reactor thread over the transport, is an interface. *)

From S2P Require Import Prelude BiMap.

(** ** [PeerMap] *)

Record PeerMap := mkPeerMap {
  pm_peers : BiHashMap string nat;
  pm_redirects : gmap string string;
  pm_endpoints : BiHashMap string string;
}.

Module Peers.
Definition new : PeerMap := mkPeerMap BiMap.new ∅ BiMap.new.

Definition peer_ids (p : PeerMap) : list string := BiMap.keys (pm_peers p).

Definition insert (peer_id : string) (mesh_id : nat) (endpoint : string) (p : PeerMap) : PeerMap :=
  mkPeerMap (BiMap.insert peer_id mesh_id (pm_peers p)).2 (pm_redirects p)
    (BiMap.insert peer_id endpoint (pm_endpoints p)).2.

Definition remove (peer_id : string) (p : PeerMap) : option nat * PeerMap :=
  let redirects := filter (λ '(_, target), target ≠ peer_id) (pm_redirects p) in
  let endpoints := (BiMap.remove_by_key peer_id (pm_endpoints p)).2 in
  let '(removed, peers) := BiMap.remove_by_key peer_id (pm_peers p) in
  (snd <$> removed, mkPeerMap peers redirects endpoints).

Inductive PeerUpdateError := PeerUpdateFailed.

Definition update (old_peer_id new_peer_id : string) (p : PeerMap) :
    result PeerUpdateError () * PeerMap :=
  match BiMap.remove_by_key old_peer_id (pm_peers p) with
  | (Some (_, mesh_id), peers) =>
      let peers := (BiMap.insert new_peer_id mesh_id peers).2 in
      let endpoints :=
        match BiMap.remove_by_key old_peer_id (pm_endpoints p) with
        | (Some (_, endpoint), endpoints) => (BiMap.insert new_peer_id endpoint endpoints).2
        | (None, endpoints) => endpoints
        end in
      let redirects :=
        (λ target, if decide (target = old_peer_id) then new_peer_id else target)
          <$> pm_redirects p in
      (Ok (), mkPeerMap peers (<[old_peer_id := new_peer_id]> redirects) endpoints)
  | (None, peers) =>
      (Err PeerUpdateFailed, mkPeerMap peers (pm_redirects p) (pm_endpoints p))
  end.

(** A lookup that follows a redirect if that leads to something. *)
Definition redirected {A} (lookup : string → option A) (p : PeerMap) (peer_id : string) : option A :=
  match pm_redirects p !! peer_id ≫= lookup with
  | Some a => Some a
  | None => lookup peer_id
  end.

Definition get_mesh_id (peer_id : string) (p : PeerMap) : option nat :=
  redirected (λ id, BiMap.get_by_key id (pm_peers p)) p peer_id.
Definition get_peer_id (mesh_id : nat) (p : PeerMap) : option string :=
  BiMap.get_by_value mesh_id (pm_peers p).
Definition get_peer_endpoint (peer_id : string) (p : PeerMap) : option string :=
  redirected (λ id, BiMap.get_by_key id (pm_endpoints p)) p peer_id.
Definition get_peer_by_endpoint (endpoint : string) (p : PeerMap) : option string :=
  BiMap.get_by_value endpoint (pm_endpoints p).

(** ** The invariant *)

(** Peers and mesh ids correspond one to one; a redirect leads to a peer, and a
    peer is redirected at most to itself. *)
Record ok (p : PeerMap) : Prop := {
  ok_peers : BiMap.ok (pm_peers p);
  ok_target a t : pm_redirects p !! a = Some t → is_Some (kv_hash_map (pm_peers p) !! t);
  ok_source a t : pm_redirects p !! a = Some t → is_Some (kv_hash_map (pm_peers p) !! a) → a = t;
}.

(** The name [id] may be given to a connection now known as [old]. *)
Definition may_rename (old id : string) (p : PeerMap) : Prop :=
  id = old ∨
  (kv_hash_map (pm_peers p) !! id = None ∧ ∀ t, pm_redirects p !! id = Some t → t = old).

Lemma peers_new_ok : ok new.
Proof. split; [apply BiMap.new_ok|done..]. Qed.

Lemma peers_insert_ok id mesh_id endpoint p :
  kv_hash_map (pm_peers p) !! id = None → pm_redirects p !! id = None →
  vk_hash_map (pm_peers p) !! mesh_id = None →
  ok p → ok (insert id mesh_id endpoint p).
Proof.
  intros Hid Hr Hm [Hp Ht Hs]. split; cbn.
  - apply BiMap.insert_ok; [by rewrite Hid|by rewrite Hm|done].
  - intros a t Ha. destruct (decide (t = id)) as [->|].
    + by rewrite lookup_insert_eq.
    + rewrite lookup_insert_ne by done. by eapply Ht.
  - intros a t Ha. rewrite lookup_insert_ne by congruence. by eapply Hs.
Qed.

Lemma remove_peers id p : pm_peers (remove id p).2 = (BiMap.remove_by_key id (pm_peers p)).2.
Proof. unfold remove. by destruct (BiMap.remove_by_key id (pm_peers p)). Qed.
Lemma remove_redirects id p :
  pm_redirects (remove id p).2 = filter (λ '(_, target), target ≠ id) (pm_redirects p).
Proof. unfold remove. by destruct (BiMap.remove_by_key id (pm_peers p)). Qed.

(** Removing the key of a consistent map removes exactly that key. *)
Lemma remove_by_key_kv {K V} `{Countable K, Countable V} (k : K) (m : BiHashMap K V) :
  kv_hash_map (BiMap.remove_by_key k m).2 = delete k (kv_hash_map m).
Proof.
  unfold BiMap.remove_by_key. destruct (kv_hash_map m !! k) as [v|] eqn:Hk.
  - by destruct (vk_hash_map m !! v).
  - cbn. by rewrite delete_id.
Qed.

Lemma remove_ok id p : ok p → ok (remove id p).2.
Proof.
  intros [Hp Ht Hs]. split; rewrite ?remove_peers, ?remove_redirects, ?remove_by_key_kv.
  - by apply BiMap.remove_by_key_ok.
  - intros a t [Ha Hne]%map_lookup_filter_Some. rewrite lookup_delete_ne by done. by eapply Ht.
  - intros a t [Ha Hne]%map_lookup_filter_Some [v [_ Hv]%lookup_delete_Some]. by eapply Hs.
Qed.

(** In a consistent map, a lookup is the lookup of the redirected id. *)
Lemma get_mesh_id_ok q p :
  ok p → get_mesh_id q p = kv_hash_map (pm_peers p) !! default q (pm_redirects p !! q).
Proof.
  intros [_ Ht _]. unfold get_mesh_id, redirected, BiMap.get_by_key.
  destruct (pm_redirects p !! q) as [t|] eqn:Hq; cbn; [|done]. by destruct (Ht q t Hq) as [m ->].
Qed.

(** What a successful update makes of the map. *)
Definition retarget (old new t : string) : string := if decide (t = old) then new else t.

Lemma update_inv old new p m :
  ok p → kv_hash_map (pm_peers p) !! old = Some m →
  (update old new p).1 = Ok () ∧
  pm_peers (update old new p).2 =
    mkBiHashMap (<[new := m]> (delete old (kv_hash_map (pm_peers p))))
                (<[m := new]> (delete m (vk_hash_map (pm_peers p)))) ∧
  pm_redirects (update old new p).2 = <[old := new]> (retarget old new <$> pm_redirects p).
Proof.
  intros Hok Hm. unfold update, BiMap.remove_by_key. rewrite Hm.
  by rewrite (proj1 (ok_peers _ Hok old m) Hm).
Qed.

Lemma update_ok old new p :
  may_rename old new p → ok p → ok (update old new p).2.
Proof.
  intros Hren Hok. destruct (kv_hash_map (pm_peers p) !! old) as [m|] eqn:Hm.
  2: { unfold update, BiMap.remove_by_key. rewrite Hm. by destruct p, Hok. }
  destruct (update_inv old new p m Hok Hm) as (_ & Hp & Hr). destruct Hok as [Hbi Ht Hs].
  split; rewrite ?Hp, ?Hr; cbn [kv_hash_map].
  - refine (BiMap.insert_ok new m (mkBiHashMap (delete old (kv_hash_map (pm_peers p)))
      (delete m (vk_hash_map (pm_peers p)))) _ _ _); [| |by apply BiMap.delete_ok];
      cbn [kv_hash_map vk_hash_map].
    + intros v [Hne Hv]%lookup_delete_Some. destruct Hren as [->|[Hnew _]]; congruence.
    + intros k [Hne _]%lookup_delete_Some. done.
  - intros a t [[<- <-]|[Hne (t0 & Ht0 & Ha)%lookup_fmap_Some]]%lookup_insert_Some;
      [by rewrite lookup_insert_eq|]. subst t. unfold retarget. case_decide as Hold.
    + by rewrite lookup_insert_eq.
    + destruct (decide (t0 = new)) as [->|]; [by rewrite lookup_insert_eq|].
      rewrite lookup_insert_ne, lookup_delete_ne by done. by eapply Ht.
  - intros a t [[<- <-]|[Hne (t0 & Ht0 & Ha)%lookup_fmap_Some]]%lookup_insert_Some [v Hv].
    + apply lookup_insert_Some in Hv as [[-> _]|[_ [? _]%lookup_delete_Some]]; done.
    + subst t. unfold retarget. apply lookup_insert_Some in Hv as [[-> _]|[Hna [_ Hv]%lookup_delete_Some]].
      * destruct Hren as [->|[_ Hnew]]; [done|]. by rewrite decide_True by eauto.
      * rewrite decide_False; [by eapply Hs|]. intros ->. by destruct (Hs _ _ Ha (ex_intro _ _ Hv)).
Qed.

(** giving a connection a new name.  When [old] is a peer and [new] may be
    its name, the update succeeds; the map stays consistent; the connection
    identifies itself as [new]; messages for [new], for [old], and for every name
    the connection had before reach it, and the routes of all other names do not
    change. *)
Theorem update_routes old new p m :
  ok p → kv_hash_map (pm_peers p) !! old = Some m → may_rename old new p →
  let p' := (update old new p).2 in
  (update old new p).1 = Ok () ∧ ok p' ∧ get_peer_id m p' = Some new ∧
  ∀ q, get_mesh_id q p' = if decide (q = new) then Some m else get_mesh_id q p.
Proof.
  intros Hok Hm Hren p'. pose proof (update_ok old new p Hren Hok) as Hok'.
  destruct (update_inv old new p m Hok Hm) as (Hres & Hp & Hr). fold p' in Hp, Hr, Hok'.
  split_and!; [done..| |].
  { unfold get_peer_id, BiMap.get_by_value. rewrite Hp. cbn [vk_hash_map].
    by rewrite lookup_insert_eq. }
  intros q. rewrite !get_mesh_id_ok by done. rewrite Hp, Hr. cbn [kv_hash_map].
  destruct Hok as [_ Ht Hs].
  destruct (decide (q = old)) as [->|Hq].
  { rewrite lookup_insert_eq. cbn. rewrite lookup_insert_eq. case_decide; [done|].
    destruct (pm_redirects p !! old) as [t|] eqn:Ho; cbn; [|done].
    by rewrite <-(Hs old t Ho (ex_intro _ _ Hm)). }
  rewrite (lookup_insert_ne (retarget old new <$> pm_redirects p)), lookup_fmap by done.
  case_decide as Hn.
  - subst q. destruct Hren as [?|[_ Hnew]]; [congruence|].
    destruct (pm_redirects p !! new) as [t|]; cbn; [|by rewrite lookup_insert_eq].
    rewrite (Hnew t eq_refl). unfold retarget. by rewrite decide_True, lookup_insert_eq.
  - destruct (pm_redirects p !! q) as [t|] eqn:Hqt; cbn.
    + unfold retarget. case_decide as Hto; [subst t; by rewrite lookup_insert_eq|].
      rewrite lookup_insert_ne, lookup_delete_ne; [done..|].
      intros <-. destruct (Ht q new Hqt) as [? ?], Hren as [->|[? _]]; congruence.
    + by rewrite lookup_insert_ne, lookup_delete_ne.
Qed.
End Peers.

(** ** The network *)

Inductive MeshSendError := MeshNotFound | MeshIoError | MeshFull | MeshDisconnected.
Inductive MeshRecvError := MeshRecvTimeout | MeshRecvDisconnected.

(** The mesh moves the bytes: connections of type [C] are added to it and get an
    id; received messages carry the id of their connection. *)
Class Mesh (W C : Type) := {
  remote_endpoint : C → string;
  mesh_add : C → eff W () nat;
  mesh_remove : nat → eff W () ();
  mesh_send : nat → bytes → eff W MeshSendError ();
  mesh_recv : eff W MeshRecvError (nat * bytes);
}.

(** [net_notified] is what the disconnect listeners were told and have not
    handled yet, the latest last. *)
Record Network (W : Type) := mkNetwork {
  net_peers : PeerMap;
  net_mesh : W;
  net_notified : list string;
}.
Arguments mkNetwork {W} net_peers net_mesh net_notified.
Arguments net_peers {W} n.
Arguments net_mesh {W} n.
Arguments net_notified {W} n.

Inductive ConnectionError := AddError | RemoveError.
Inductive NetSendError := NoPeerSendError (msg : string) | MeshSendFailed (e : MeshSendError).
Inductive NetRecvError := NoPeerRecvError (mesh_id : nat) | MeshRecvFailed (e : MeshRecvError).

Module Net.
Section network.
Context {W C : Type} `{!Mesh W C}.

Abbreviation net_eff := (eff (Network W)).

Definition new (w : W) : Network W := mkNetwork Peers.new w [].

Definition on_peers (f : PeerMap → PeerMap) (n : Network W) : Network W :=
  mkNetwork (f (net_peers n)) (net_mesh n) (net_notified n).
Definition notify_disconnect_listeners (peer_id : string) (n : Network W) : Network W :=
  mkNetwork (net_peers n) (net_mesh n) (net_notified n ++ [peer_id]).

(** A call on the mesh. *)
Definition on_mesh {E E' A} (f : E → E') (m : eff W E A) : net_eff E' A := λ n,
  let '(r, w) := m (net_mesh n) in (map_err f r, mkNetwork (net_peers n) w (net_notified n)).

Definition get_peer_endpoint (peer_id : string) (n : Network W) : option string :=
  Peers.get_peer_endpoint peer_id (net_peers n).

Definition add_peer (peer_id : string) (c : C) : net_eff ConnectionError () :=
  mesh_id ← on_mesh (λ _, AddError) (mesh_add c);
  modify (on_peers (Peers.insert peer_id mesh_id (remote_endpoint c))).

(** [uuid] is what [Uuid::new_v4] gives. *)
Definition add_connection (uuid : string) (c : C) : net_eff ConnectionError string :=
  mesh_id ← on_mesh (λ _, AddError) (mesh_add c);
  let peer_id := "temp-" +:+ uuid in
  modify (on_peers (Peers.insert peer_id mesh_id (remote_endpoint c)));;
  mret peer_id.

Definition remove_connection (peer_id : string) : net_eff ConnectionError () := λ n,
  let '(removed, peers) := Peers.remove peer_id (net_peers n) in
  (match removed with
   | Some mesh_id =>
       on_mesh (λ _, RemoveError) (mesh_remove mesh_id);;
       modify (notify_disconnect_listeners peer_id)
   | None => mret ()
   end) (mkNetwork peers (net_mesh n) (net_notified n)).

Definition update_peer_id (old_id new_id : string) : net_eff Peers.PeerUpdateError () := λ n,
  let '(r, peers) := Peers.update old_id new_id (net_peers n) in
  (r, mkNetwork peers (net_mesh n) (net_notified n)).

Definition send (peer_id : string) (msg : bytes) : net_eff NetSendError () := λ n,
  match Peers.get_mesh_id peer_id (net_peers n) with
  | None => (Err (NoPeerSendError ("Send Error: No peer with peer_id " +:+ peer_id +:+ " found")), n)
  | Some mesh_id =>
      match on_mesh MeshSendFailed (mesh_send mesh_id msg) n with
      | (Ok (), n) => (Ok (), n)
      | (Err (MeshSendFailed MeshDisconnected), n) =>
          let peers := (Peers.remove peer_id (net_peers n)).2 in
          (Err (MeshSendFailed MeshDisconnected),
           notify_disconnect_listeners peer_id
             (mkNetwork peers (net_mesh n) (net_notified n)))
      | (Err e, n) => (Err e, n)
      end
  end.

(** [recv] and [recv_timeout]: the peer id of the connection and the payload. *)
Definition recv : net_eff NetRecvError (string * bytes) :=
  envelope ← on_mesh MeshRecvFailed mesh_recv;
  n ← get;
  match Peers.get_peer_id envelope.1 (net_peers n) with
  | Some peer_id => mret (peer_id, envelope.2)
  | None => throw (NoPeerRecvError envelope.1)
  end.
End network.
End Net.

(** A process that holds a network and channels *)
Section process.
Context {M W : Type}.

Definition on_channel {E A} (m : eff W E A) : eff (Network M * W) E A := λ '(n, w),
  let '(r, w) := m w in (r, (n, w)).
Definition on_net {E A} (m : eff (Network M) E A) : eff (Network M * W) E A := λ '(n, w),
  let '(r, n) := m n in (r, (n, w)).
End process.

(** ** Examples *)

Module NetworkMock.
(** A mesh of dead connections: every send finds its connection gone. *)
#[export] Instance dead_mesh : Mesh () string := {|
  remote_endpoint c := c;
  mesh_add _ := mret 0;
  mesh_remove _ := mret ();
  mesh_send _ _ := throw MeshDisconnected;
  mesh_recv := throw MeshRecvTimeout;
|}.

Definition peers1 : PeerMap := Peers.insert "temp-1" 0 "tcp://a" Peers.new.
Lemma peers1_ok : Peers.ok peers1.
Proof. by apply Peers.peers_insert_ok; [..|apply Peers.peers_new_ok]. Qed.
End NetworkMock.

Section network_witness.
Import NetworkMock.

Lemma update_routes_witness :
  let p' := (Peers.update "temp-1" "A" peers1).2 in
  Peers.ok p' ∧ Peers.get_mesh_id "A" p' = Some 0 ∧ Peers.get_mesh_id "temp-1" p' = Some 0.
Proof.
  destruct (Peers.update_routes "temp-1" "A" peers1 0 peers1_ok eq_refl) as (_ & Hok & _ & Hq).
  - right. split; [done|]. intros t. by vm_compute.
  - split; [done|]. by rewrite !Hq.
Defined.

(** A redirect left by a renamed peer takes the messages of a peer that is given
    the old name later: they are sent to another connection. *)
Lemma redirect_shadows_peer :
  let p := (Peers.update "A" "B" (Peers.insert "A" 0 "tcp://b" Peers.new)).2 in
  let p' := (Peers.update "temp-1" "A" (Peers.insert "temp-1" 1 "tcp://a" p)).2 in
  Peers.get_peer_id 1 p' = Some "A" ∧ Peers.get_mesh_id "A" p' = Some 0.
Proof. by vm_compute. Qed.

(** Finding a connection gone through one of its older names does not remove the
    peer: it stays in the map, and the listeners are told the older name. *)
Lemma send_by_old_name_keeps_peer :
  let n := mkNetwork (Peers.update "temp-1" "A" peers1).2 () [] in
  let n' := (Net.send "temp-1" "hello" n).2 in
  (Net.send "temp-1" "hello" n).1 = Err (MeshSendFailed MeshDisconnected) ∧
  Peers.get_mesh_id "A" (net_peers n') = Some 0 ∧ net_notified n' = ["temp-1"].
Proof. by vm_compute. Qed.
End network_witness.
