(* ===== verification/Auth.v ===== *)
(** * Authorization of peers

    Models [libsplinter/src/network/auth]: the state machine of
    [AuthorizationManager], the handlers of authorization messages, and the guard
    that keeps the messages of unauthorized peers away from other handlers.  The
    manager uses the network through the interface [AuthNetwork], which the
    network of [Network] implements. *)

From S2P Require Import Prelude BiMap Network Dispatch Circuit CircuitHandlers.

(** ** The manager *)

Inductive AuthorizationState :=
  | Unknown | Connecting | Authorized | Unauthorized | Internal.
#[global] Instance AuthorizationState_eq_dec : EqDecision AuthorizationState.
Proof. solve_decision. Defined.

Inductive AuthorizationAction :=
  | ActConnecting
  | ActTrustIdentifying (identity : string)
  | ActUnauthorizing.

Inductive AuthorizationActionError :=
  | AlreadyConnecting
  | InvalidMessageOrder (s : AuthorizationState) (a : AuthorizationAction)
  | ConnectionLost.

Inductive PeerAuthorizationState := PeerAuthorized | PeerUnauthorized.

(** What the manager needs of the network.  [take_disconnects] empties the
    channel its disconnect listener writes to. *)
Class AuthNetwork (N : Type) := {
  peer_endpoint : string → N → option string;
  rename_peer : string → string → eff N () ();
  drop_peer : string → eff N () ();
  take_disconnects : N → list string * N;
}.

#[global] Instance network_auth {W C} `{!Mesh W C} : AuthNetwork (Network W) := {|
  peer_endpoint := Net.get_peer_endpoint;
  rename_peer old new := emap_err (λ _, ()) (Net.update_peer_id old new);
  drop_peer peer_id := emap_err (λ _, ()) (Net.remove_connection peer_id);
  take_disconnects n := (net_notified n, mkNetwork (net_peers n) (net_mesh n) []);
|}.

(** [ManagedAuthorizations]; [ma_notified] is what the callbacks were told, the
    latest first. *)
Record ManagedAuthorizations := mkManagedAuthorizations {
  ma_states : gmap string AuthorizationState;
  ma_notified : list (string * PeerAuthorizationState);
}.

Definition managed_new : ManagedAuthorizations := mkManagedAuthorizations ∅ [].

Section manager.
Context {N : Type} `{!AuthNetwork N}.

Abbreviation auth_eff := (eff (ManagedAuthorizations * N)).

Definition set_state (peer_id : string) (st : AuthorizationState) {E} : auth_eff E () :=
  modify (λ s, (mkManagedAuthorizations (<[peer_id := st]> (ma_states s.1)) (ma_notified s.1), s.2)).
Definition remove_state (peer_id : string) {E} : auth_eff E () :=
  modify (λ s, (mkManagedAuthorizations (delete peer_id (ma_states s.1)) (ma_notified s.1), s.2)).
Definition notify_callbacks (peer_id : string) (st : PeerAuthorizationState) {E} : auth_eff E () :=
  modify (λ s, (mkManagedAuthorizations (ma_states s.1) ((peer_id, st) :: ma_notified s.1), s.2)).
Definition on_network {A} (m : eff N () A) : auth_eff AuthorizationActionError A := λ s,
  let '(r, n) := m s.2 in (map_err (λ _, ConnectionLost) r, (s.1, n)).

(** The states of the peers that disconnected are dropped. *)
Definition drain_removals {E} : auth_eff E () :=
  modify (λ s,
    let '(removals, n) := take_disconnects s.2 in
    (mkManagedAuthorizations (foldl (λ m p, delete p m) (ma_states s.1) removals)
       (ma_notified s.1), n)).

Definition invalid {A} (st : AuthorizationState) (a : AuthorizationAction) :
    auth_eff AuthorizationActionError A := throw (InvalidMessageOrder st a).

(** [next_state] *)
Definition next_state (peer_id : string) (action : AuthorizationAction) :
    auth_eff AuthorizationActionError AuthorizationState :=
  drain_removals;;
  s ← get;
  let cur_state := default Unknown (ma_states s.1 !! peer_id) in
  match cur_state with
  | Unknown =>
      match action with
      | ActConnecting =>
          if match peer_endpoint peer_id s.2 with
             | Some endpoint => contains "inproc" endpoint
             | None => false
             end
          then
            set_state peer_id Internal;;
            notify_callbacks peer_id PeerAuthorized;;
            mret Internal
          else
            set_state peer_id Connecting;;
            mret Connecting
      | ActUnauthorizing =>
          on_network (drop_peer peer_id);;
          mret Unauthorized
      | _ => invalid Unknown action
      end
  | Connecting =>
      match action with
      | ActConnecting => throw AlreadyConnecting
      | ActTrustIdentifying new_peer_id =>
          remove_state peer_id;;
          on_network (rename_peer peer_id new_peer_id);;
          set_state new_peer_id Authorized;;
          notify_callbacks new_peer_id PeerAuthorized;;
          mret Authorized
      | ActUnauthorizing =>
          remove_state peer_id;;
          on_network (drop_peer peer_id);;
          notify_callbacks peer_id PeerUnauthorized;;
          mret Unauthorized
      end
  | Authorized =>
      match action with
      | ActUnauthorizing =>
          remove_state peer_id;;
          on_network (drop_peer peer_id);;
          notify_callbacks peer_id PeerUnauthorized;;
          mret Unauthorized
      | _ => invalid Authorized action
      end
  | _ => invalid cur_state action
  end.

(** [is_authorized] *)
Definition is_authorized {E} (peer_id : string) : auth_eff E bool :=
  drain_removals;;
  s ← get;
  mret (match ma_states s.1 !! peer_id with
        | Some st => bool_decide (st = Authorized) || bool_decide (st = Internal)
        | None => false
        end).
End manager.

(** ** Messages ([protos/authorization.proto]) *)

Inductive AuthorizationMessageType :=
  | UNSET_AUTHORIZATION_MESSAGE_TYPE
  | CONNECT_REQUEST
  | CONNECT_RESPONSE
  | AUTHORIZE
  | AUTHORIZATION_ERROR
  | TRUST_REQUEST.
#[global] Instance AuthorizationMessageType_eq_dec : EqDecision AuthorizationMessageType.
Proof. solve_decision. Defined.

Record AuthorizationMessage := mkAuthorizationMessage {
  am_message_type : AuthorizationMessageType;
  am_payload : bytes;
}.
Inductive HandshakeMode := UNSET_HANDSHAKE_MODE | UNIDIRECTIONAL | BIDIRECTIONAL.
#[global] Instance HandshakeMode_eq_dec : EqDecision HandshakeMode.
Proof. solve_decision. Defined.
Record ConnectRequest := mkConnectRequest { handshake_mode : HandshakeMode }.
Inductive ConnectAuthorizationType := UNSET_AUTHORIZATION_TYPE | TRUST.
#[global] Instance ConnectAuthorizationType_eq_dec : EqDecision ConnectAuthorizationType.
Proof. solve_decision. Defined.
Record ConnectResponse := mkConnectResponse {
  accepted_authorization_types : list ConnectAuthorizationType;
}.
Record TrustRequest := mkTrustRequest { tr_identity : string }.
Inductive AuthorizedMessage := mkAuthorizedMessage.
Inductive AuthorizationErrorType := UNSET_AUTHORIZATION_ERROR_TYPE | AUTHORIZATION_REJECTED.
Record AuthorizationError := mkAuthorizationError {
  ae_error_type : AuthorizationErrorType;
  ae_error_message : string;
}.
Record NetworkEcho := mkNetworkEcho {
  echo_payload : bytes;
  echo_recipient : string;
  echo_time_to_live : Z;
}.
Inductive NetworkHeartbeat := mkNetworkHeartbeat.

(** ** Handlers *)

Section handlers.
Context {N W : Type} `{!AuthNetwork N}.
Context `{!Sender W SendRequest, !Sender W (DispatchMessage AuthorizationMessageType)}.
Context `{!Codec NetworkMessage, !Codec AuthorizationMessage, !Codec ConnectRequest,
  !Codec ConnectResponse, !Codec TrustRequest, !Codec AuthorizedMessage,
  !Codec AuthorizationError, !Codec NetworkEcho, !Codec NetworkHeartbeat}.

(** The manager and its network, and the world that sends. *)
Abbreviation auth_world := ((ManagedAuthorizations * N) * W)%type (only parsing).
Abbreviation auth_context := (MessageContext AuthorizationMessageType).

Definition on_manager {E E' A} (m : eff (ManagedAuthorizations * N) E A) :
    eff auth_world E' (result E A) := λ s,
  let '(r, a) := m s.1 in (Ok r, (a, s.2)).

Definition auth_send (recipient : string) (b : bytes) : eff auth_world DispatchError () := λ s,
  let '(r, w) := send (mkSendRequest recipient b) s.2 in (map_err NetworkSendError r, (s.1, w)).

Definition auth_serialize {M} `{!Codec M} (m : M) : eff auth_world DispatchError bytes :=
  lift (ok_or SerializationError (write_to_bytes m)).

Definition wrap_in_network_auth_envelopes {M} `{!Codec M} (ty : AuthorizationMessageType) (m : M) :
    eff auth_world DispatchError bytes :=
  payload ← auth_serialize m;
  b ← auth_serialize (mkAuthorizationMessage ty payload);
  auth_serialize (mkNetworkMessage AUTHORIZATION b).

Definition connect_request_handle (msg : ConnectRequest) (ctx : auth_context) :
    eff auth_world DispatchError () :=
  r ← on_manager (next_state (source_peer_id ctx) ActConnecting);
  match r with
  | Err _ => mret ()
  | Ok Connecting =>
      (if bool_decide (handshake_mode msg = BIDIRECTIONAL) then
         b ← wrap_in_network_auth_envelopes CONNECT_REQUEST (mkConnectRequest UNIDIRECTIONAL);
         auth_send (source_peer_id ctx) b
       else mret ());;
      b ← wrap_in_network_auth_envelopes CONNECT_RESPONSE (mkConnectResponse [TRUST]);
      auth_send (source_peer_id ctx) b
  | Ok Internal =>
      b ← wrap_in_network_auth_envelopes AUTHORIZE mkAuthorizedMessage;
      auth_send (source_peer_id ctx) b
  | Ok _ => throw DispatchPanic
  end.

(** [identity] is the identity of the manager. *)
Definition connect_response_handle (identity : string) (msg : ConnectResponse) (ctx : auth_context) :
    eff auth_world DispatchError () :=
  if existsb (λ t, bool_decide (t = TRUST)) (accepted_authorization_types msg) then
    b ← wrap_in_network_auth_envelopes TRUST_REQUEST (mkTrustRequest identity);
    auth_send (source_peer_id ctx) b
  else mret ().

Definition trust_request_handle (msg : TrustRequest) (ctx : auth_context) :
    eff auth_world DispatchError () :=
  r ← on_manager (next_state (source_peer_id ctx) (ActTrustIdentifying (tr_identity msg)));
  match r with
  | Err _ => mret ()
  | Ok Authorized =>
      b ← wrap_in_network_auth_envelopes AUTHORIZE mkAuthorizedMessage;
      auth_send (tr_identity msg) b
  | Ok _ => throw DispatchPanic
  end.

Definition authorized_handle (_ : AuthorizedMessage) (_ : auth_context) :
    eff auth_world DispatchError () := mret ().

Definition authorization_error_handle (_ : AuthorizationError) (ctx : auth_context) :
    eff auth_world DispatchError () :=
  r ← on_manager (next_state (source_peer_id ctx) ActUnauthorizing);
  match r with
  | Ok Unauthorized => mret ()
  | Err _ => mret ()
  | Ok _ => throw DispatchPanic
  end.

(** [create_authorization_dispatcher] *)
Definition create_authorization_dispatcher (identity : string) :
    Dispatcher auth_world AuthorizationMessageType :=
  set_handler AUTHORIZATION_ERROR authorization_error_handle
    (set_handler AUTHORIZE authorized_handle
      (set_handler TRUST_REQUEST trust_request_handle
        (set_handler CONNECT_RESPONSE (connect_response_handle identity)
          (set_handler CONNECT_REQUEST connect_request_handle dispatcher_new)))).

(** [AuthorizationMessageHandler]: the payload is queued for the authorization
    dispatcher. *)
Definition authorization_message_handle (msg : AuthorizationMessage)
    (ctx : MessageContext NetworkMessageType) : eff auth_world DispatchError () := λ s,
  let '(r, w) := send (mkDispatchMessage (am_message_type msg) (am_payload msg)
                         (source_peer_id ctx)) s.2 in
  (map_err NetworkSendError r, (s.1, w)).

(** [NetworkAuthGuardHandler] *)
Definition network_auth_guard {M} (handler : Handler auth_world NetworkMessageType M) :
    Handler auth_world NetworkMessageType M := λ msg ctx,
  r ← on_manager (is_authorized (E := ()) (source_peer_id ctx));
  match r with
  | Ok true => handler msg ctx
  | _ => mret ()
  end.

(** [NetworkEchoHandler] and [NetworkHeartbeatHandler] of [network/handlers.rs] *)
Definition network_echo_handle (node_id : string) (msg : NetworkEcho)
    (ctx : MessageContext NetworkMessageType) : eff auth_world DispatchError () :=
  let recipient :=
    if bool_decide (echo_recipient msg = node_id) then source_peer_id ctx
    else echo_recipient msg in
  let msg := mkNetworkEcho (echo_payload msg) (echo_recipient msg)
               (wrap_i32 (echo_time_to_live msg - 1)) in
  if bool_decide (echo_time_to_live msg <= 0)%Z then mret ()
  else
    echo_bytes ← lift (ok_or DispatchPanic (write_to_bytes msg));
    b ← lift (ok_or DispatchPanic (write_to_bytes (mkNetworkMessage NETWORK_ECHO echo_bytes)));
    auth_send recipient b.

Definition network_heartbeat_handle (_ : NetworkHeartbeat) (_ : MessageContext NetworkMessageType) :
    eff auth_world DispatchError () := mret ().

(** The dispatcher of network messages, as the daemon sets it up; [circuit] is the
    handler that queues circuit messages. *)
Definition network_dispatcher `{!Codec CircuitMessage} (node_id : string)
    (circuit : Handler auth_world NetworkMessageType CircuitMessage) :
    Dispatcher auth_world NetworkMessageType :=
  set_handler AUTHORIZATION authorization_message_handle
    (set_handler CIRCUIT (network_auth_guard circuit)
      (set_handler NETWORK_HEARTBEAT network_heartbeat_handle
        (set_handler NETWORK_ECHO (network_auth_guard (network_echo_handle node_id))
          dispatcher_new))).
End handlers.

(** ** Heartbeats ([Network::new] of [network/mod.rs]) *)

Section heartbeat.
Context {M C : Type} {Hmesh : Mesh M C} `{!Codec NetworkMessage, !Codec NetworkHeartbeat}.

Definition heartbeat_bytes : result string bytes :=
  heartbeat ← ok_or "cannot create NetworkHeartbeat message" (write_to_bytes mkNetworkHeartbeat);
  ok_or "cannot create NetworkMessage" (write_to_bytes (mkNetworkMessage NETWORK_HEARTBEAT heartbeat)).

(** [Network::new]: the network, and what its thread sends every [heartbeat_interval]
    seconds, if there is such a thread. *)
Definition network_new (mesh : M) (heartbeat_interval : Z) : result string (Network M * option bytes) :=
  if (heartbeat_interval =? 0)%Z then mret (Net.new mesh, None)
  else b ← heartbeat_bytes; mret (Net.new mesh, Some b).

(** An iteration of the thread: the peers are read once, and an error is logged. *)
Fixpoint send_heartbeats {E} (peers : list string) (b : bytes) : eff (Network M) E () :=
  match peers with
  | [] => mret ()
  | peer :: peers => catch_log (Net.send peer b);; send_heartbeats peers b
  end.
Definition heartbeat_round {E} (b : bytes) : eff (Network M) E () :=
  n ← get; send_heartbeats (Peers.peer_ids (net_peers n)) b.
Fixpoint heartbeat_thread {E} (rounds : nat) (b : bytes) : eff (Network M) E () :=
  match rounds with
  | 0 => mret ()
  | S rounds => heartbeat_round b;; heartbeat_thread rounds b
  end.

(** From [n] to [n'] only peers have gone, and the listeners were told of each, once. *)
Definition peers_gone (n n' : Network M) : Prop :=
  Peers.ok (net_peers n') ∧ ∃ gone, net_notified n' = net_notified n ++ gone ∧ NoDup gone ∧
    ∀ id, (id ∈ gone → is_Some (kv_hash_map (pm_peers (net_peers n)) !! id)) ∧
      kv_hash_map (pm_peers (net_peers n')) !! id =
        (if decide (id ∈ gone) then None else kv_hash_map (pm_peers (net_peers n)) !! id).

Lemma peers_gone_refl n n' :
  net_peers n' = net_peers n → net_notified n' = net_notified n → Peers.ok (net_peers n) → peers_gone n n'.
Proof.
  intros Hp Hno Hn. split; [by rewrite Hp|]. exists []. split_and!; [by rewrite app_nil_r|constructor|]. intros id. rewrite Hp. set_solver.
Qed.
Lemma peers_gone_trans n1 n2 n3 : peers_gone n1 n2 → peers_gone n2 n3 → peers_gone n1 n3.
Proof.
  intros [H1 (g1 & E1 & D1 & L1)] [H2 (g2 & E2 & D2 & L2)]. split; [done|]. exists (g1 ++ g2).
  split_and!; [by rewrite E2, E1, app_assoc|..].
  - apply NoDup_app. split_and!; [done| |done]. intros id Hid Hid2. destruct (L2 id) as [Hs _].
    destruct (Hs Hid2) as [m Hm]. destruct (L1 id) as [_ Hl]. rewrite decide_True in Hl by done. congruence.
  - intros id. destruct (L1 id) as [S1 K1], (L2 id) as [S2 K2]. pose proof (elem_of_app g1 g2 id) as Hin. split.
    + intros [Hg|Hg]%Hin; [by apply S1|]. destruct (S2 Hg) as [m Hm]. rewrite K1 in Hm. case_decide; [done|by eauto].
    + rewrite K2, K1. destruct (decide (id ∈ g2)), (decide (id ∈ g1)), (decide (id ∈ g1 ++ g2)); tauto.
Qed.

(** A message to a peer can make that peer go, and no other. *)
Lemma send_peers_gone peer b n : Peers.ok (net_peers n) → is_Some (kv_hash_map (pm_peers (net_peers n)) !! peer) →
  peers_gone n (Net.send peer b n).2 ∧
  ∀ id, id ≠ peer → kv_hash_map (pm_peers (net_peers (Net.send peer b n).2)) !! id = kv_hash_map (pm_peers (net_peers n)) !! id.
Proof.
  intros Hn [m Hm]. unfold Net.send. destruct (Peers.get_mesh_id peer (net_peers n)); [|by split; [apply peers_gone_refl|]].
  unfold Net.on_mesh. destruct (mesh_send _ b (net_mesh n)) as [[[]|e] w]; cbn; [by split; [apply peers_gone_refl|]|].
  destruct e; cbn; try by split; [apply peers_gone_refl|].
  split; [|by intros id Hid; rewrite Peers.remove_peers, Peers.remove_by_key_kv, lookup_delete_ne].
  split; [by apply Peers.remove_ok|]. exists [peer]. split_and!; [done|apply NoDup_singleton|].
  intros id. assert (Hin : id ∈ [peer] ↔ id = peer) by set_solver. cbn. split; [by intros ->%Hin; eauto|].
  rewrite Peers.remove_peers, Peers.remove_by_key_kv. case_decide as Hid.
  - apply Hin in Hid as ->. apply lookup_delete_eq.
  - rewrite Hin in Hid. by rewrite lookup_delete_ne.
Qed.
Lemma send_heartbeats_gone {E} peers b n :
  NoDup peers → Forall (λ id, is_Some (kv_hash_map (pm_peers (net_peers n)) !! id)) peers → Peers.ok (net_peers n) →
  peers_gone n (send_heartbeats (E := E) peers b n).2.
Proof.
  revert n. induction peers as [|peer peers IH]; intros n Hnd Hp Hn; [by apply peers_gone_refl|].
  apply NoDup_cons in Hnd as [Hnot Hnd]. apply Forall_cons in Hp as [Hpeer Hp].
  destruct (send_peers_gone peer b n Hn Hpeer) as [Hg Hother].
  cbn [send_heartbeats]. rewrite (eff_bind_ok _ _ _ () (Net.send peer b n).2) by (unfold catch_log; by destruct (Net.send peer b n)).
  eapply peers_gone_trans; [exact Hg|]. apply IH; [done| |apply Hg]. apply Forall_forall. intros id Hid.
  rewrite Hother by (by intros ->). by eapply (proj1 (Forall_forall _ _)) in Hp.
Qed.

(** C39: whatever the number of heartbeats: peers only disappear, the disconnect listeners are
    told of every peer that does, and of no other, and the map of the peers stays
    consistent.  Which peers a heartbeat finds to be gone is up to their connections. *)
Theorem heartbeats_report_gone {E} rounds b n :
  Peers.ok (net_peers n) → peers_gone n (heartbeat_thread (E := E) rounds b n).2.
Proof.
  revert n. induction rounds as [|rounds IH]; intros n Hn; [by apply peers_gone_refl|].
  cbn [heartbeat_thread]. assert (Hg : peers_gone n (heartbeat_round (E := E) b n).2).
  { apply send_heartbeats_gone; [..|done].
    - apply NoDup_fst_map_to_list.
    - apply Forall_forall. intros id. unfold Peers.peer_ids, BiMap.keys.
      rewrite list_elem_of_fmap. intros ([k v] & -> & Hk%elem_of_map_to_list). by eauto. }
  unfold mbind at 1, eff_bind. destruct (heartbeat_round b n) as [[[]|e] n1]; [|done].
  eapply peers_gone_trans; [exact Hg|]. apply IH, Hg.
Qed.
End heartbeat.

(** A network whose only connection is dead: the first heartbeat reports it. *)
Module HeartbeatExample.
Import NetworkMock.
Definition dead : Network () := mkNetwork peers1 () [].
Lemma heartbeats_report_gone_witness :
  peers_gone dead (heartbeat_thread (E := ()) 2 "heartbeat" dead).2 ∧
  net_notified (heartbeat_thread (E := ()) 2 "heartbeat" dead).2 = ["temp-1"].
Proof. split; [apply heartbeats_report_gone, peers1_ok|by vm_compute]. Defined.
End HeartbeatExample.
