(* ===== verification/AuthProps.v ===== *)
(** * What authorization guarantees

    A peer is authorized only after the handshake, or because it is internal;
    the authorization handlers never panic; and the guard keeps the messages of
    every other peer from having any effect. *)

From S2P Require Import Prelude BiMap Network Dispatch Circuit CircuitHandlers Auth.

Section props.
Context {N : Type} `{!AuthNetwork N}.

(** ** The transitions *)

(** What a successful action leads to. *)
Definition outcome_ok (a : AuthorizationAction) (st : AuthorizationState) : Prop :=
  match a with
  | ActConnecting => st = Connecting ∨ st = Internal
  | ActTrustIdentifying _ => st = Authorized
  | ActUnauthorizing => st = Unauthorized
  end.

Lemma wp_on_network {A} (m : eff N () A)
    (Q : result AuthorizationActionError A → ManagedAuthorizations * N → Prop) s n :
  (∀ (r : result () A) n', Q (map_err (λ _, ConnectionLost) r) (s, n')) → wp (on_network m) Q (s, n).
Proof. intros HQ. unfold wp, on_network. cbn. destruct (m n). apply HQ. Qed.

Ltac wp_auth :=
  wp_go; repeat (lazymatch goal with
  | |- wp (drain_removals) _ _ => unfold drain_removals
  | |- wp (set_state _ _) _ _ => unfold set_state
  | |- wp (remove_state _) _ _ => unfold remove_state
  | |- wp (notify_callbacks _ _) _ _ => unfold notify_callbacks
  | |- wp (invalid _ _) _ _ => unfold invalid
  | |- wp (on_network _) _ _ => apply wp_on_network; intros [[]|] ?
  end; cbn beta iota; wp_go).

(** How an action changes the states, as a relation: [m] are the states once
    those of the disconnected peers are dropped, [n] the network then. *)
Inductive transition (peer_id : string) (n : N) (m : gmap string AuthorizationState) :
    AuthorizationAction → gmap string AuthorizationState → Prop :=
  | trans_none a :
      (a = ActUnauthorizing → m !! peer_id ≠ Some Authorized) → transition peer_id n m a m
  | trans_internal endpoint :
      m !! peer_id = None → peer_endpoint peer_id n = Some endpoint →
      contains "inproc" endpoint = true →
      transition peer_id n m ActConnecting (<[peer_id := Internal]> m)
  | trans_connecting :
      m !! peer_id = None → transition peer_id n m ActConnecting (<[peer_id := Connecting]> m)
  | trans_lost id :
      m !! peer_id = Some Connecting →
      transition peer_id n m (ActTrustIdentifying id) (delete peer_id m)
  | trans_authorized id :
      m !! peer_id = Some Connecting →
      transition peer_id n m (ActTrustIdentifying id) (<[id := Authorized]> (delete peer_id m))
  | trans_unauthorized :
      transition peer_id n m ActUnauthorizing (delete peer_id m).

(** The states are never those two. *)
Definition states_ok (m : gmap string AuthorizationState) : Prop :=
  ∀ p st, m !! p = Some st → st ≠ Unknown ∧ st ≠ Unauthorized.

Lemma default_unknown m p : states_ok m → default Unknown (m !! p) = Unknown → m !! p = None.
Proof. intros Hm Hd. destruct (m !! p) as [st|] eqn:Hp; [|done]. destruct (Hm p st Hp). done. Qed.

Definition drained (s : ManagedAuthorizations * N) : gmap string AuthorizationState :=
  foldl (λ m p, delete p m) (ma_states s.1) (take_disconnects s.2).1.

Lemma drained_lookup s p st :
  drained s !! p = Some st → ma_states s.1 !! p = Some st ∧ p ∉ (take_disconnects s.2).1.
Proof.
  unfold drained. generalize (ma_states s.1). induction (take_disconnects s.2).1 as [|q l IH];
    cbn; intros m Hp; [by split; [|intros ?%elem_of_nil]|].
  apply IH in Hp as [[Hne Hp]%lookup_delete_Some Hl]. split; [done|].
  intros [->|?]%elem_of_cons; done.
Qed.

Lemma drained_ok s : states_ok (ma_states s.1) → states_ok (drained s).
Proof. intros Hm p st [Hp _]%drained_lookup. by eapply Hm. Qed.

(** [is_authorized] drops the states of disconnected peers and looks. *)
Definition authorized_in (m : gmap string AuthorizationState) (p : string) : bool :=
  match m !! p with
  | Some st => bool_decide (st = Authorized) || bool_decide (st = Internal)
  | None => false
  end.

Lemma is_authorized_run {E} p s :
  is_authorized (E := E) p s =
    (Ok (authorized_in (drained s) p),
     (mkManagedAuthorizations (drained s) (ma_notified s.1), (take_disconnects s.2).2)).
Proof.
  unfold is_authorized, drained, mbind, eff_bind, drain_removals. cbn.
  by destruct (take_disconnects s.2).
Qed.

Lemma next_state_wp peer_id a s :
  states_ok (ma_states s.1) →
  wp (next_state peer_id a) (λ r s',
    transition peer_id (take_disconnects s.2).2 (drained s) a (ma_states s'.1) ∧
    match r with Ok st => outcome_ok a st | Err _ => True end) s.
Proof.
  intros Hok%drained_ok. unfold next_state. wp_auth. unfold drained in *.
  destruct (take_disconnects s.2) as [removals n] eqn:Hn. cbn in *.
  set (m := foldl _ _ _) in *.
  destruct (m !! peer_id) as [[]|] eqn:Hp; cbn.
  1,4: by destruct (Hok peer_id _ Hp).
  - destruct a; wp_auth; cbn; (split; [|by auto]); by constructor.
  - destruct a; wp_auth; cbn; (split; [|by auto]); by constructor.
  - wp_auth. cbn. split; [|done]. apply trans_none. congruence.
  - destruct a; wp_auth; cbn; try by (split; [apply trans_none; congruence|auto]).
    destruct (peer_endpoint peer_id n) as [endpoint|] eqn:He;
      [destruct (contains "inproc" endpoint) eqn:Hc|]; wp_auth; cbn; (split; [|by auto]).
    + by eapply trans_internal.
    + by apply trans_connecting.
    + by apply trans_connecting.
Qed.

(** ** Histories *)

(** What the manager is asked, each time with the network as it is then: to act
    on a message of a peer, or whether a peer is authorized. *)
Inductive auth_input :=
  | Act (peer_id : string) (a : AuthorizationAction)
  | Query (peer_id : string).

(** The manager after a history, the latest input first. *)
Fixpoint managed (history : list (N * auth_input)) : ManagedAuthorizations :=
  match history with
  | [] => managed_new
  | (n, Act p a) :: history => (next_state p a (managed history, n)).2.1
  | (n, Query p) :: history => (is_authorized (E := ()) p (managed history, n)).2.1
  end.

(** [granted] happened, and since then [p] neither disconnected nor reported an
    authorization error. *)
Definition holds_since (granted : list (N * auth_input) → Prop) (p : string)
    (history : list (N * auth_input)) : Prop :=
  ∃ later before, history = later ++ before ∧ granted before ∧
    ∀ n i, (n, i) ∈ later → (p ∉ (take_disconnects n).1) ∧
      (∀ a, i = Act p a → a ≠ ActUnauthorizing).

(** [p] was given its authorization by the latest input: a connection that had
    asked to connect identified itself as [p]. *)
Definition trusted_as (p : string) (before : list (N * auth_input)) : Prop :=
  ∃ n q earlier n', before = (n, Act q (ActTrustIdentifying p)) :: earlier ∧
    (n', Act q ActConnecting) ∈ earlier.

(** [p] asked to connect while its endpoint was an internal one. *)
Definition internal_peer (p : string) (history : list (N * auth_input)) : Prop :=
  ∃ n endpoint, (n, Act p ActConnecting) ∈ history ∧
    peer_endpoint p (take_disconnects n).2 = Some endpoint ∧ contains "inproc" endpoint = true.

Record history_ok (m : gmap string AuthorizationState) (history : list (N * auth_input)) : Prop := {
  hist_states : states_ok m;
  hist_connecting p : m !! p = Some Connecting → ∃ n, (n, Act p ActConnecting) ∈ history;
  hist_authorized p : m !! p = Some Authorized → holds_since (trusted_as p) p history;
  hist_internal p : m !! p = Some Internal → internal_peer p history;
}.

Lemma holds_since_cons granted p n i history :
  p ∉ (take_disconnects n).1 → (∀ a, i = Act p a → a ≠ ActUnauthorizing) →
  holds_since granted p history → holds_since granted p ((n, i) :: history).
Proof.
  intros Hd Ha (later & before & -> & Hg & Hl). exists ((n, i) :: later), before.
  split_and!; [done..|]. intros n' i' [[= -> ->]|Hin]%elem_of_cons; [done|]. by eapply Hl.
Qed.

(** A later input that only drops states. *)
Lemma history_ok_shrink m m' n i history :
  history_ok (ma_states m) history → m' ⊆ drained (m, n) →
  (∀ p, i = Act p ActUnauthorizing → m' !! p ≠ Some Authorized) →
  history_ok m' ((n, i) :: history).
Proof.
  intros [Hs Hc Ha Hi] Hsub Hun.
  assert (∀ p st, m' !! p = Some st → ma_states m !! p = Some st ∧ p ∉ (take_disconnects n).1)
    as Hold by (intros p st Hp; by eapply (drained_lookup (m, n)), lookup_weaken).
  split.
  - intros p st [Hp _]%Hold. by eapply Hs.
  - intros p [Hp _]%Hold. destruct (Hc p Hp) as [n' ?]. exists n'. by right.
  - intros p Hp. destruct (Hold _ _ Hp) as [Hp' Hd].
    apply holds_since_cons; [done| |by apply Ha]. intros a -> ->. by apply (Hun p).
  - intros p [Hp _]%Hold. destruct (Hi p Hp) as (n' & e & ? & ? & ?).
    exists n', e. split_and!; [by right|done..].
Qed.

(** A state is set, for a reason found in the history. *)
Lemma history_ok_insert m p st history :
  history_ok m history →
  match st with
  | Connecting => ∃ n, (n, Act p ActConnecting) ∈ history
  | Authorized => holds_since (trusted_as p) p history
  | Internal => internal_peer p history
  | _ => False
  end →
  history_ok (<[p := st]> m) history.
Proof.
  intros [Hs Hc Ha Hi] Hst. split.
  - intros q st' [[<- <-]|[_ Hq]]%lookup_insert_Some; [by destruct st|by eapply Hs].
  - intros q [[<- ->]|[_ Hq]]%lookup_insert_Some; [done|by apply Hc].
  - intros q [[<- ->]|[_ Hq]]%lookup_insert_Some; [done|by apply Ha].
  - intros q [[<- ->]|[_ Hq]]%lookup_insert_Some; [done|by apply Hi].
Qed.

Lemma transition_ok m n q a m' history :
  history_ok (ma_states m) history →
  transition q (take_disconnects n).2 (drained (m, n)) a m' →
  history_ok m' ((n, Act q a) :: history).
Proof.
  intros Hok Htr. destruct Htr as [a Ha|endpoint Hq He Hc|Hq|id Hq|id Hq|].
  - apply (history_ok_shrink m); [done..|]. intros p [= -> ->]. by apply Ha.
  - apply history_ok_insert; [by apply (history_ok_shrink m)|].
    exists n, endpoint. split_and!; [by left|done..].
  - apply history_ok_insert; [by apply (history_ok_shrink m)|]. exists n. left.
  - by apply (history_ok_shrink m); [|apply delete_subseteq|].
  - apply history_ok_insert; [by apply (history_ok_shrink m); [|apply delete_subseteq|]|].
    apply drained_lookup in Hq as [Hq _]. destruct (hist_connecting _ _ Hok q Hq) as [n' Hn'].
    exists [], ((n, Act q (ActTrustIdentifying id)) :: history).
    split_and!; [done| |by intros ?? ?%elem_of_nil]. by exists n, q, history, n'.
  - apply (history_ok_shrink m); [done|apply delete_subseteq|].
    intros p [= ->]. by rewrite lookup_delete_eq.
Qed.

Lemma managed_ok history : history_ok (ma_states (managed history)) history.
Proof.
  induction history as [|[n [q a|q]] history IH]; cbn [managed].
  - by split.
  - pose proof (next_state_wp q a (managed history, n) (hist_states _ _ IH)) as Hwp.
    unfold wp in Hwp. destruct (next_state q a _) as [r s']. by eapply transition_ok, Hwp.
  - rewrite is_authorized_run. by apply (history_ok_shrink (managed history)).
Qed.

(** C4: a peer is only authorized after the handshake.  Whatever messages of
    whatever peers the manager handled, on whatever network, if it says that [p]
    is authorized, then either a connection that had asked to connect identified
    itself as [p], and [p] has neither disconnected nor reported an
    authorization error since, or [p] asked to connect from an internal
    endpoint. *)
Theorem authorized_after_handshake history n p :
  (is_authorized (E := ()) p (managed history, n)).1 = Ok true →
  holds_since (trusted_as p) p history ∨ internal_peer p history.
Proof.
  destruct (managed_ok history) as [_ _ Ha Hi].
  rewrite is_authorized_run. unfold authorized_in. cbn [fst].
  destruct (drained (managed history, n) !! p) as [st|] eqn:Hp; [|done].
  apply drained_lookup in Hp as [Hst _]. cbn in Hst.
  intros [= [->%bool_decide_eq_true| ->%bool_decide_eq_true]%orb_true_iff].
  - left. by apply Ha.
  - right. by apply Hi.
Qed.

(** ** What the callbacks are told *)

(** What an action makes the manager tell the callbacks: what [m] are the states once those
    of the disconnected peers are dropped, and [n] the network then. *)
Inductive tells (peer_id : string) (n : N) (m : gmap string AuthorizationState) :
    AuthorizationAction → list (string * PeerAuthorizationState) → Prop :=
  | tells_nothing a : tells peer_id n m a []
  | tells_internal endpoint :
      peer_endpoint peer_id n = Some endpoint → contains "inproc" endpoint = true →
      tells peer_id n m ActConnecting [(peer_id, PeerAuthorized)]
  | tells_authorized id :
      m !! peer_id = Some Connecting →
      tells peer_id n m (ActTrustIdentifying id) [(id, PeerAuthorized)]
  | tells_unauthorized : tells peer_id n m ActUnauthorizing [(peer_id, PeerUnauthorized)].

Lemma next_state_tells peer_id a s :
  wp (next_state peer_id a) (λ r s', ∃ l,
    tells peer_id (take_disconnects s.2).2 (drained s) a l ∧ ma_notified s'.1 = l ++ ma_notified s.1) s.
Proof.
  unfold next_state. wp_auth. unfold drained.
  destruct (take_disconnects s.2) as [removals n] eqn:Hn. cbn in *. set (m := foldl _ _ _) in *.
  destruct (m !! peer_id) as [[]|] eqn:Hp, a; cbn; wp_auth; cbn;
    try (exists []; split; [by constructor|done]); try (eexists [_]; split; [by constructor|done]).
  all: destruct (peer_endpoint peer_id n) as [endpoint|] eqn:He;
      [destruct (contains "inproc" endpoint) eqn:Hc|]; wp_auth; cbn;
      try (exists []; split; [by constructor|done]); eexists [_]; split; [by eapply tells_internal|done].
Qed.

(** What the callbacks are told while the manager handles [later], after [before]: the
    earliest first. *)
Definition told_by (n : N) (i : auth_input) (m : ManagedAuthorizations) :
    list (string * PeerAuthorizationState) :=
  match i with
  | Act p a => take (length (ma_notified (next_state p a (m, n)).2.1) - length (ma_notified m))
                 (ma_notified (next_state p a (m, n)).2.1)
  | Query _ => []
  end.
Fixpoint told (later before : list (N * auth_input)) : list (string * PeerAuthorizationState) :=
  match later with
  | [] => []
  | (n, i) :: later => told later before ++ told_by n i (managed (later ++ before))
  end.

(** While [later] is handled, a connection that had asked to connect identifies itself as [p]. *)
Definition trusted_during (p : string) (later before : list (N * auth_input)) : Prop :=
  ∃ l1 l2 n q n', later = l1 ++ (n, Act q (ActTrustIdentifying p)) :: l2 ∧
    (n', Act q ActConnecting) ∈ l2 ++ before.

Lemma told_authorized p later before :
  (p, PeerAuthorized) ∈ told later before → trusted_during p later before ∨ internal_peer p later.
Proof.
  induction later as [|[n i] later IH]; cbn [told]; [by intros ?%elem_of_nil|].
  intros [Hp|Hp]%elem_of_app.
  - destruct (IH Hp) as [(l1 & l2 & n1 & q & n2 & -> & Hc)|(n1 & e & Hin & He)].
    + left. by exists ((n, i) :: l1), l2, n1, q, n2.
    + right. exists n1, e. split; [by right|done].
  - destruct i as [q a|q]; cbn [told_by] in Hp; [|by apply elem_of_nil in Hp].
    pose proof (next_state_tells q a (managed (later ++ before), n)) as Ht. unfold wp in Ht.
    destruct (next_state q a _) as [r s']. destruct Ht as (l & Hl & Hs). cbn [fst snd] in *.
    rewrite Hs, length_app, Nat.add_sub, take_app_length in Hp.
    destruct Hl as [a|e He Hc|id Hc|]; apply elem_of_cons in Hp as [[= ->]|[]%elem_of_nil] || by apply elem_of_nil in Hp.
    + right. exists n, e. split_and!; [by left|done..].
    + left. apply drained_lookup in Hc as [Hc _]. destruct (hist_connecting _ _ (managed_ok _) q Hc) as [n' ?].
      by exists [], later, n, q, n'.
Qed.
End props.

Section handler_props.
Context {N W : Type} `{!AuthNetwork N}.
Context `{!Sender W SendRequest, !Sender W (DispatchMessage AuthorizationMessageType)}.
Context `{!Codec NetworkMessage, !Codec AuthorizationMessage, !Codec ConnectRequest,
  !Codec ConnectResponse, !Codec TrustRequest, !Codec AuthorizedMessage,
  !Codec AuthorizationError, !Codec NetworkEcho, !Codec NetworkHeartbeat, !Codec CircuitMessage}.

Abbreviation auth_world := ((ManagedAuthorizations * N) * W)%type (only parsing).

(** ** No panic *)

(** The computation neither panics nor stores a state that would make a later one
    panic. *)
Definition safe {A} (m : eff auth_world DispatchError A) : Prop :=
  ∀ s, states_ok (ma_states s.1.1) →
    (m s).1 ≠ Err DispatchPanic ∧ states_ok (ma_states (m s).2.1.1).

Lemma safe_ret {A} (a : A) : safe (mret a).
Proof. by intros s. Qed.
Lemma safe_bind {A B} (m : eff auth_world DispatchError A) (k : A → eff _ _ B) :
  safe m → (∀ a, safe (k a)) → safe (m ≫= k).
Proof.
  intros Hm Hk s Hs. specialize (Hm s Hs). unfold mbind, eff_bind.
  destruct (m s) as [[a|] s']; cbn in *; [apply Hk, Hm|].
  destruct Hm as [Hm ?]. split; [|done]. intros [= ->]. by apply Hm.
Qed.
Lemma safe_send recipient b : safe (auth_send recipient b).
Proof.
  intros s Hs. unfold auth_send. by destruct (send _ s.2) as [[]].
Qed.
Lemma safe_serialize {M} `{!Codec M} (m : M) : safe (auth_serialize m).
Proof. intros s Hs. unfold auth_serialize. by destruct (write_to_bytes m). Qed.
Lemma safe_wrap {M} `{!Codec M} ty (m : M) : safe (wrap_in_network_auth_envelopes ty m).
Proof. unfold wrap_in_network_auth_envelopes. eauto using safe_bind, safe_serialize. Qed.

Lemma transition_states_ok p (n : N) m a m' : states_ok m → transition p n m a m' → states_ok m'.
Proof.
  intros Hm [| | | | |] q st.
  - apply Hm.
  - intros [[<- <-]|[_ ?]]%lookup_insert_Some; [done|by eapply Hm].
  - intros [[<- <-]|[_ ?]]%lookup_insert_Some; [done|by eapply Hm].
  - intros [_ ?]%lookup_delete_Some. by eapply Hm.
  - intros [[<- <-]|[_ [_ ?]%lookup_delete_Some]]%lookup_insert_Some; [done|by eapply Hm].
  - intros [_ ?]%lookup_delete_Some. by eapply Hm.
Qed.

(** A handler that continues after an action only has to handle what the action
    can lead to. *)
Lemma safe_next_state {B} peer_id a (k : result _ AuthorizationState → eff auth_world _ B) :
  (∀ e, safe (k (Err e))) → (∀ st, outcome_ok a st → safe (k (Ok st))) →
  safe (on_manager (next_state peer_id a) ≫= k).
Proof.
  intros Herr Hok s Hs. pose proof (next_state_wp peer_id a s.1 Hs) as Hwp.
  unfold mbind, eff_bind, on_manager, wp in *. destruct (next_state peer_id a s.1) as [r s'].
  destruct Hwp as [Htr Hr].
  assert (states_ok (ma_states s'.1)) by (eapply transition_states_ok, Htr; by apply drained_ok).
  destruct r as [st|e]; [by apply Hok|by apply Herr].
Qed.

#[local] Hint Resolve safe_ret safe_send safe_wrap : splinter.
Ltac solve_safe :=
  repeat first
    [ progress intros
    | solve [eauto with splinter nocore]
    | apply safe_bind | case_match ].

Lemma connect_request_safe msg ctx : safe (connect_request_handle msg ctx).
Proof.
  apply safe_next_state; [solve_safe|]. intros st [-> | ->]; solve_safe.
Qed.
Lemma connect_response_safe identity msg ctx : safe (connect_response_handle identity msg ctx).
Proof. unfold connect_response_handle. solve_safe. Qed.
Lemma trust_request_safe msg ctx : safe (trust_request_handle msg ctx).
Proof. apply safe_next_state; [solve_safe|]. intros st ->; solve_safe. Qed.
Lemma authorization_error_safe msg ctx : safe (authorization_error_handle msg ctx).
Proof. apply safe_next_state; [solve_safe|]. intros st ->; solve_safe. Qed.

Lemma auth_dispatch_safe identity source mt b :
  safe (dispatch (create_authorization_dispatcher identity) source mt b).
Proof.
  intros s Hs. unfold create_authorization_dispatcher. rewrite !dispatch_set_handler.
  repeat case_decide; repeat case_match; try done.
  - by apply authorization_error_safe.
  - by apply trust_request_safe.
  - by apply connect_response_safe.
  - by apply connect_request_safe.
Qed.

(** The authorization dispatcher never panics ("Should not have been able to
    transition to ..."), whatever messages it handled before. *)
Theorem authorization_never_panics identity msgs source mt b n w :
  let s := foldl (λ s m, (dispatch_message (create_authorization_dispatcher identity) m s).2)
             ((managed_new, n), w) msgs in
  (dispatch (create_authorization_dispatcher identity) source mt b s).1 ≠ Err DispatchPanic.
Proof.
  intros s. apply auth_dispatch_safe. unfold s.
  assert (states_ok (ma_states (((managed_new, n), w) : auth_world).1.1)) as Hs
    by done.
  revert Hs. generalize (((managed_new, n), w) : auth_world).
  induction msgs as [|m msgs IH]; intros s0 Hs; [done|]. apply IH.
  by apply auth_dispatch_safe.
Qed.

(** ** The guard *)

(** C10: the messages of a peer that is not authorized have no effect.  A circuit
    message or an echo from such a peer is dropped: its handler is not called,
    nothing is sent, and the manager only forgets the peers it was told
    disconnected. *)
Theorem unauthorized_messages_dropped node_id circuit source mt b (s : auth_world) :
  mt = CIRCUIT ∨ mt = NETWORK_ECHO →
  authorized_in (drained s.1) source = false →
  let '(r, s') := dispatch (network_dispatcher node_id circuit) source mt b s in
  s'.2 = s.2 ∧
  ((r = Err DeserializationError ∧ s' = s) ∨
   (r = Ok () ∧
    s'.1 = (mkManagedAuthorizations (drained s.1) (ma_notified s.1.1), (take_disconnects s.1.2).2))).
Proof.
  intros Hmt Hauth. unfold network_dispatcher. rewrite !dispatch_set_handler.
  assert (∀ M (h : Handler auth_world NetworkMessageType M) m ctx, source_peer_id ctx = source →
    network_auth_guard h m ctx s =
      (Ok (), ((mkManagedAuthorizations (drained s.1) (ma_notified s.1.1),
                (take_disconnects s.1.2).2), s.2))) as Hguard.
  { intros M h m ctx <-. unfold network_auth_guard. erewrite eff_bind_ok;
      [|unfold on_manager; by rewrite is_authorized_run]. cbn beta iota. by rewrite Hauth. }
  destruct Hmt as [-> | ->]; repeat (rewrite decide_False by done || rewrite decide_True by done);
    destruct (parse_from_bytes b); rewrite ?Hguard by done; split; auto.
Qed.
End handler_props.

(** ** A concrete handshake *)

Module AuthMock.
Export NetworkMock CountableCodec.

(** Connection [temp-1] asks to connect and identifies itself as [A]. *)
Definition net : Network () := mkNetwork peers1 () [].
Definition handshake : list (Network () * auth_input) :=
  [(net, Act "temp-1" (ActTrustIdentifying "A")); (net, Act "temp-1" ActConnecting)].

#[export] Instance CircuitMessage_codec : Codec CircuitMessage := {|
  parse_from_bytes b := Some (mkCircuitMessage CIRCUIT_DIRECT_MESSAGE b);
  write_to_bytes m := Some (cm_payload m);
|}.
#[export] Instance NetworkEcho_codec : Codec NetworkEcho := {|
  parse_from_bytes b := Some (mkNetworkEcho b "" 1);
  write_to_bytes m := Some (echo_payload m);
|}.
#[export] Instance NetworkHeartbeat_codec : Codec NetworkHeartbeat := {|
  parse_from_bytes _ := Some mkNetworkHeartbeat;
  write_to_bytes _ := Some "";
|}.
#[export] Instance NetworkMessage_codec : Codec NetworkMessage := {|
  parse_from_bytes b := Some (mkNetworkMessage CIRCUIT b);
  write_to_bytes m := Some (nm_payload m);
|}.
#[export] Instance AuthorizationMessage_codec : Codec AuthorizationMessage := {|
  parse_from_bytes b := Some (mkAuthorizationMessage CONNECT_REQUEST b);
  write_to_bytes m := Some (am_payload m);
|}.
#[export] Instance requests : Sender nat SendRequest := λ _ w, (Ok (), S w).
#[export] Instance dispatches : Sender nat (DispatchMessage AuthorizationMessageType) :=
  λ _ w, (Ok (), S w).
End AuthMock.

Section auth_witness.
Import AuthMock.

Lemma authorized_after_handshake_witness :
  (is_authorized (E := ()) "A" (managed handshake, net)).1 = Ok true ∧
  (holds_since (trusted_as "A") "A" handshake ∨ internal_peer "A" handshake).
Proof.
  assert ((is_authorized (E := ()) "A" (managed handshake, net)).1 = Ok true) as H by by vm_compute.
  split; [exact H|]. exact (authorized_after_handshake handshake net "A" H).
Defined.

Lemma unauthorized_messages_dropped_witness :
  let '(r, s') := dispatch (network_dispatcher "n1" (λ _ _ s, (Ok (), (s.1, 7)))) "temp-1" CIRCUIT "x"
                    (((managed_new, net), 0)) in
  s'.2 = 0 ∧ r = Ok ().
Proof.
  pose proof (unauthorized_messages_dropped "n1" (λ _ _ s, (Ok (), (s.1, 7))) "temp-1" CIRCUIT "x"
    ((managed_new, net), 0) (or_introl eq_refl) eq_refl) as H.
  destruct (dispatch _ _ _ _ _) as [r s'] eqn:Hd. destruct H as [H1 [[-> ->]|[-> _]]]; [|done].
  by vm_compute in Hd.
Defined.
End auth_witness.
