(* ===== verification/Hex.v ===== *)
(** * Hexadecimal strings, and the signers that use them

    Models [libsplinter/src/hex.rs]: [to_hex] and [parse_hex], with what the
    latter takes from the standard library, the slicing of strings at character
    boundaries and [u8::from_str_radix], and their use by serde; and the signers
    and verifiers of [libsplinter/src/signing] that wrap the Sawtooth SDK, which
    writes signatures in hexadecimal, and Ursa.  Both libraries are interfaces. *)

From S2P Require Import Prelude.

(** ** Writing *)

Definition hex_digit (n : nat) : ascii :=
  default "0"%char (String.get n "0123456789abcdef").

(** [to_hex], which writes every byte with the format [{:02x}] *)
Fixpoint to_hex (b : bytes) : string :=
  match b with
  | "" => ""
  | String c b =>
      String (hex_digit (nat_of_ascii c / 16)) (String (hex_digit (nat_of_ascii c mod 16)) (to_hex b))
  end.

(** ** Parsing *)

(** [HexError], and the panic of a slice inside of a character. *)
Inductive HexError :=
  | OddDigits
  | InvalidHex
  | HexPanic.

(** [char::to_digit(16)] *)
Definition to_digit (c : ascii) : option nat :=
  let n := nat_of_ascii c in
  if (48 <=? n)%nat && (n <=? 57)%nat then Some (n - 48)
  else if (97 <=? n)%nat && (n <=? 102)%nat then Some (n - 87)
  else if (65 <=? n)%nat && (n <=? 70)%nat then Some (n - 55)
  else None.

(** [u8::from_str_radix(s, 16)] on a string of two bytes: a leading plus sign is
    accepted. *)
Definition from_str_radix_16 (a b : ascii) : option nat :=
  if bool_decide (a = "+"%char) then to_digit b
  else x ← to_digit a; y ← to_digit b; Some (16 * x + y).

(** [is_char_boundary] of the start of a string: the byte there is not the
    continuation of a character. *)
Definition at_boundary (s : string) : bool :=
  match s with
  | "" => true
  | String c _ => negb ((128 <=? nat_of_ascii c)%nat && (nat_of_ascii c <? 192)%nat)
  end.

(** The loop of [parse_hex]; [hex[i..i + 2]] is the first two bytes of [s]. *)
Fixpoint parse_hex_pairs (s : string) : result HexError bytes :=
  match s with
  | "" => Ok ""
  | String a (String b s') =>
      if at_boundary s && at_boundary s' then
        n ← ok_or InvalidHex (from_str_radix_16 a b);
        res ← parse_hex_pairs s';
        mret (String (ascii_of_nat n) res)
      else Err HexPanic
  | String _ "" => Err HexPanic
  end.

Definition parse_hex (hex : string) : result HexError bytes :=
  if bool_decide (String.length hex `mod` 2 ≠ 0) then Err OddDigits else parse_hex_pairs hex.

(** ** Facts *)

Lemma to_hex_length b : String.length (to_hex b) = 2 * String.length b.
Proof. induction b as [|c b IH]; [done|]. cbn. rewrite IH. lia. Qed.

Lemma at_boundary_to_hex b : at_boundary (to_hex b) = true.
Proof. destruct b as [|[[] [] [] [] [] [] [] []] b]; reflexivity. Qed.

Lemma parse_hex_byte c :
  from_str_radix_16 (hex_digit (nat_of_ascii c / 16)) (hex_digit (nat_of_ascii c mod 16)) =
    Some (nat_of_ascii c).
Proof. destruct c as [[] [] [] [] [] [] [] []]; reflexivity. Qed.

Lemma parse_hex_to_hex b : parse_hex (to_hex b) = Ok b.
Proof.
  unfold parse_hex. rewrite to_hex_length, bool_decide_eq_false_2.
  2: { rewrite Nat.mul_comm, Nat.Div0.mod_mul. by intros []. }
  induction b as [|c b IH]; [done|]. cbn [to_hex parse_hex_pairs].
  pose proof (at_boundary_to_hex (String c b)) as Hc. cbn [to_hex] in Hc. rewrite Hc.
  rewrite at_boundary_to_hex, parse_hex_byte. cbn [andb ok_or mbind result_bind].
  rewrite IH. cbn. by rewrite ascii_nat_embedding.
Qed.

#[global] Instance to_hex_inj : Inj (=) (=) to_hex.
Proof.
  intros b b' Hb. pose proof (parse_hex_to_hex b) as H. rewrite Hb, parse_hex_to_hex in H.
  by simplify_eq.
Qed.

(** [parse_hex] reads back what [to_hex] writes, for every byte string, and
    so different byte strings have different hexadecimal forms. *)
Theorem hex_roundtrip b : parse_hex (to_hex b) = Ok b ∧ ∀ b', to_hex b' = to_hex b → b' = b.
Proof. split; [apply parse_hex_to_hex|]. intros b'. apply to_hex_inj. Qed.

(** Strings that are not hexadecimal but that [parse_hex] accepts, or on which it
    panics. *)
Lemma parse_hex_accepts_sign : parse_hex "+f" = Ok (String (ascii_of_nat 15) "").
Proof. reflexivity. Qed.
Lemma parse_hex_panics :
  parse_hex (String "a" (String (ascii_of_nat 226) (String (ascii_of_nat 130)
    (String (ascii_of_nat 172) "")))) = Err HexPanic.
Proof. reflexivity. Qed.

(** ** Serde *)

(** A value of a format: a string, or anything else *)
Inductive SerdeValue := SerdeStr (s : string) | SerdeOther (unexpected : string).

(** [Display for HexError], with the text of the error of [from_str_radix] *)
Definition hex_error_display (hex parse_error : string) (e : HexError) : string :=
  match e with
  | OddDigits => hex +:+ " is not valid hex: odd number of digits"
  | InvalidHex => hex +:+ " contains invalid hex: " +:+ parse_error
  | HexPanic => ""
  end.

Definition serde_as_hex (data : bytes) : SerdeValue := SerdeStr (to_hex data).

(** [deserialize_hex], with the panic as [None]; [parse_error] is the text of the error
    of [from_str_radix]. *)
Definition deserialize_hex (parse_error : string) (v : SerdeValue) : option (result string bytes) :=
  match v with
  | SerdeStr s =>
      match parse_hex s with
      | Ok b => Some (Ok b)
      | Err HexPanic => None
      | Err e => Some (Err (hex_error_display s parse_error e))
      end
  | SerdeOther unexpected => Some (Err ("invalid type: " +:+ unexpected +:+ ", expected a hex string"))
  end.

Lemma deserialize_as_hex parse_error b : deserialize_hex parse_error (serde_as_hex b) = Some (Ok b).
Proof. unfold deserialize_hex, serde_as_hex. by rewrite parse_hex_to_hex. Qed.

(** ** Signing *)

Module Signing.

Inductive Error := SigningError (msg : string) | SignatureVerificationError (msg : string).

Definition error_display (e : Error) : string :=
  match e with
  | SigningError s => "failed to sign message: " +:+ s
  | SignatureVerificationError s => "failed to verify signature: " +:+ s
  end.
Definition error_description (e : Error) : string :=
  match e with SigningError msg | SignatureVerificationError msg => msg end.

(** The context of [sawtooth_sdk::signing::secp256k1] *)
Class Secp256k1 (PrivateKey PublicKey : Type) := {
  context_get_public_key : PrivateKey → result string bytes;
  context_sign : bytes → PrivateKey → result string string;
  public_key_from_hex : string → result string PublicKey;
  context_verify : string → bytes → PublicKey → result string bool;
}.
(** Signatures are in hexadecimal, of lower case; the public key of a private key can be read
    from its hexadecimal form, and verifies the signatures of that key. *)
Class Secp256k1Laws (PrivateKey PublicKey : Type) `{!Secp256k1 PrivateKey PublicKey} : Prop := {
  sign_hex m k s : context_sign m k = Ok s → ∃ b, s = to_hex b;
  sign_verifies k p m s : context_get_public_key k = Ok p → context_sign m k = Ok s →
    ∃ pk, public_key_from_hex (to_hex p) = Ok pk ∧ context_verify s m pk = Ok true;
}.

Section sawtooth.
Context {PrivateKey PublicKey : Type} {Hsecp : Secp256k1 PrivateKey PublicKey}.

(** [SawtoothSecp256k1RefSigner] *)
Record SawtoothSigner := mkSawtoothSigner { st_private_key : PrivateKey; st_public_key : bytes }.
Definition sawtooth_signer_new (private_key : PrivateKey) : result Error SawtoothSigner :=
  public_key ← map_err (λ err, SigningError ("Unable to extract public key: " +:+ err))
    (context_get_public_key private_key);
  mret (mkSawtoothSigner private_key public_key).

(** [sign], with the panic of [parse_hex] as [None] *)
Definition sawtooth_sign (hex_text : HexError → string) (signer : SawtoothSigner) (message : bytes) :
    option (result Error bytes) :=
  match context_sign message (st_private_key signer) with
  | Err err => Some (Err (SigningError ("Failed to sign message: " +:+ err)))
  | Ok signature =>
      match parse_hex signature with
      | Ok b => Some (Ok b)
      | Err HexPanic => None
      | Err e => Some (Err (SigningError ("Unable to parse sawtooth signature " +:+ signature +:+
                   " into bytes: " +:+ hex_text e)))
      end
  end.

(** [SawtoothSecp256k1RefSignatureVerifier] and [SawtoothSecp256k1SignatureVerifier] *)
Definition sawtooth_verify (message signature public_key : bytes) : result Error bool :=
  let public_key_hex := to_hex public_key in
  public_key ← map_err (λ err, SignatureVerificationError
      ("Unable to read public key " +:+ public_key_hex +:+ ": " +:+ err))
    (public_key_from_hex public_key_hex);
  let signature_hex := to_hex signature in
  map_err (λ err, SignatureVerificationError ("Unable to verify signature " +:+ signature_hex +:+ ": " +:+ err))
    (context_verify signature_hex message public_key).

(** What the signer signs, the verifier accepts with the public key of the signer; neither
    conversion to or from hexadecimal loses anything. *)
Theorem sawtooth_sign_verifies {Hlaws : Secp256k1Laws PrivateKey PublicKey} hex_text k signer m s :
  sawtooth_signer_new k = Ok signer → context_sign m k = Ok s →
  ∃ b, sawtooth_sign hex_text signer m = Some (Ok b) ∧ sawtooth_verify m b (st_public_key signer) = Ok true.
Proof.
  unfold sawtooth_signer_new. destruct (context_get_public_key k) as [p|] eqn:Hp; [|done]. intros [= <-] Hs.
  destruct (sign_hex m k s Hs) as [b ->]. destruct (sign_verifies k p m _ Hp Hs) as (pk & Hpk & Hv).
  exists b. unfold sawtooth_sign, sawtooth_verify. cbn. by rewrite Hs, parse_hex_to_hex, Hpk; cbn; rewrite Hv.
Qed.
End sawtooth.

(** [UrsaSigner] and the two verifiers, which are the same for the two schemes *)
Class UrsaScheme (Signer : Type) := {
  scheme_sign : Signer → bytes → result string bytes;
  scheme_verify : bytes → bytes → bytes → result string bool;
}.
Definition ursa_sign {Signer} `{!UrsaScheme Signer} (signer : Signer) (message : bytes) : result Error bytes :=
  map_err SigningError (scheme_sign signer message).
Definition ursa_verify {Signer} `{!UrsaScheme Signer} (message signature pk : bytes) : result Error bool :=
  map_err SignatureVerificationError (scheme_verify message signature pk).
End Signing.
