(* ===== verification/Keys.v ===== *)
(** * The key registry

    Models [libsplinter/src/keys/mod.rs] and [keys/storage.rs]: information on
    public keys, the interfaces [KeyRegistry] and [KeyPermissionManager] the admin
    service uses, and the registry that is kept in a storage under the
    hexadecimal forms of the keys, with the iterator over them. *)

From S2P Require Import Prelude Storage Hex.

Record KeyInfo := mkKeyInfo {
  public_key : bytes;
  associated_node_id : string;
  metadata : gmap string string;
}.

(** [KeyRegistryError], with panics as a second constructor. *)
Inductive KeyRegistryError :=
  | KeyError (context : string)
  | KeyPanic.
Inductive KeyPermissionError := PermissionError (context : string).

(** The interfaces, as far as the admin service uses them. *)
Class KeyRegistry (R : Type) := get_key : bytes → R → result KeyRegistryError (option KeyInfo).
Class KeyPermissionManager (R : Type) :=
  is_permitted : bytes → string → R → result KeyPermissionError bool.

(** ** [StorageKeyRegistry] *)

Record PersistedKeyInfo := mkPersistedKeyInfo {
  pk_public_key : string;
  pk_associated_node_id : string;
  pk_metadata : gmap string string;
}.

Abbreviation PersistedKeyRegistry := (gmap string PersistedKeyInfo).

Record StorageKeyRegistry := mkStorageKeyRegistry {
  kr_storage_location : string;
  kr_keys : PersistedKeyRegistry;
}.

(** [PersistedKeyRegistry::add_key] *)
Definition add_key (k : KeyInfo) (m : PersistedKeyRegistry) : PersistedKeyRegistry :=
  let hex_key := to_hex (public_key k) in
  <[hex_key := mkPersistedKeyInfo hex_key (associated_node_id k) (metadata k)]> m.

(** [TryInto<KeyInfo> for PersistedKeyInfo] *)
Definition key_try_into (p : PersistedKeyInfo) : result KeyRegistryError KeyInfo :=
  k ← map_err (λ e, match e with
                    | HexPanic => KeyPanic
                    | _ => KeyError ("Unable to parse public key: " +:+ pk_public_key p)
                    end) (parse_hex (pk_public_key p));
  mret (mkKeyInfo k (pk_associated_node_id p) (pk_metadata p)).

Definition storage_get_key (k : bytes) (r : StorageKeyRegistry) :
    result KeyRegistryError (option KeyInfo) :=
  match kr_keys r !! to_hex k with
  | Some p => i ← key_try_into p; mret (Some i)
  | None => mret None
  end.
#[export] Instance storage_key_registry : KeyRegistry StorageKeyRegistry := storage_get_key.

Definition delete_key (k : bytes) (r : StorageKeyRegistry) :
    result KeyRegistryError (option KeyInfo) :=
  Err (KeyError "Operation not supported").
Definition count (r : StorageKeyRegistry) : result KeyRegistryError nat :=
  Ok (size (kr_keys r)).

(** [KeyRegistryIter::next], at its index: entries that cannot be converted are
    skipped. *)
Fixpoint keys_scan (entries : list PersistedKeyInfo) (index : nat) :
    result KeyRegistryError (option KeyInfo) * nat :=
  match entries with
  | [] => (Ok None, index)
  | p :: entries =>
      match key_try_into p with
      | Ok k => (Ok (Some k), S index)
      | Err KeyPanic => (Err KeyPanic, S index)
      | Err (KeyError _) => keys_scan entries (S index)
      end
  end.
Definition keys_next (index : nat) (r : StorageKeyRegistry) : result KeyRegistryError (option KeyInfo) * nat :=
  keys_scan (drop index (btree_entries (kr_keys r)).*2) index.

(** [Iterator::nth], and [skip], [take] and [collect] of the iterator, on a registry
    that does not change meanwhile: nothing is read that is not needed. *)
Fixpoint keys_nth (n index : nat) (r : StorageKeyRegistry) : result KeyRegistryError (option KeyInfo) * nat :=
  match n, keys_next index r with
  | S n, (Ok (Some _), index) => keys_nth n index r
  | _, next => next
  end.
Fixpoint keys_page (offset limit index : nat) (r : StorageKeyRegistry) : result KeyRegistryError (list KeyInfo) :=
  match limit with
  | 0 => Ok []
  | S limit =>
      match keys_nth offset index r with
      | (Ok (Some k), index) => l ← keys_page 0 limit index r; mret (k :: l)
      | (Ok None, _) => Ok []
      | (Err e, _) => Err e
      end
  end.

(** [AllowAllKeyPermissionManager] *)
Inductive AllowAllKeyPermissionManager := AllowAll.
#[export] Instance allow_all : KeyPermissionManager AllowAllKeyPermissionManager :=
  λ _ _ _, Ok true.

(** ** What the iterator gives *)

(** The keys of the entries that can be converted. *)
Definition good_keys (entries : list PersistedKeyInfo) : list KeyInfo :=
  omap (λ p, match key_try_into p with Ok k => Some k | Err _ => None end) entries.

(** No entry has a key at which the conversion panics. *)
Definition keys_readable (r : StorageKeyRegistry) : Prop :=
  Forall (λ p, key_try_into p ≠ Err KeyPanic) (btree_entries (kr_keys r)).*2.

Lemma keys_scan_spec (all : list PersistedKeyInfo) index :
  Forall (λ p, key_try_into p ≠ Err KeyPanic) all →
  match keys_scan (drop index all) index with
  | (Ok (Some k), j) => good_keys (drop index all) = k :: good_keys (drop j all)
  | (Ok None, _) => good_keys (drop index all) = []
  | (Err _, _) => False
  end.
Proof.
  intros Hp. remember (drop index all) as l eqn:Hl. revert index Hl.
  induction l as [|p l IH]; intros index Hl; [done|].
  assert (l = drop (S index) all) as Hl'.
  { by rewrite <- Nat.add_1_r, <- drop_drop, <- Hl. }
  assert (key_try_into p ≠ Err KeyPanic) as Hne.
  { apply (Forall_drop _ index) in Hp. rewrite <- Hl in Hp. by apply Forall_cons in Hp as []. }
  cbn. destruct (key_try_into p) as [k|[]] eqn:Hk; [by rewrite <- Hl'| |done].
  by specialize (IH (S index) Hl').
Qed.

Lemma keys_nth_spec n index r :
  keys_readable r →
  let rest i := good_keys (drop i (btree_entries (kr_keys r)).*2) in
  match keys_nth n index r with
  | (Ok (Some k), j) => drop n (rest index) = k :: rest j
  | (Ok None, _) => drop n (rest index) = []
  | (Err _, _) => False
  end.
Proof.
  intros Hp rest. revert index. induction n as [|n IH]; intros index; cbn [keys_nth]; unfold keys_next;
    pose proof (keys_scan_spec _ index Hp) as Hs;
    destruct (keys_scan _ index) as [[[k|]|] j]; unfold rest; rewrite ?Hs; try done.
  apply IH.
Qed.

(** A page of the iterator is that page of the keys that can be converted, in the
    order of their hexadecimal forms. *)
Lemma keys_page_spec offset limit index r :
  keys_readable r →
  keys_page offset limit index r =
    Ok (take limit (drop offset (good_keys (drop index (btree_entries (kr_keys r)).*2)))).
Proof.
  intros Hp. revert offset index. induction limit as [|limit IH]; intros offset index; [by rewrite take_0|].
  cbn [keys_page]. pose proof (keys_nth_spec offset index r Hp) as Hn. cbv zeta in Hn.
  destruct (keys_nth offset index r) as [[[k|]|] j]; [|by rewrite Hn|done].
  by rewrite Hn, IH.
Qed.

Section key_registry.
Context {D : Type} `{!FileSystem D, !Serde PersistedKeyRegistry}.

Definition key_error (context : string) (e : StorageError) : KeyRegistryError :=
  match e with UnknownStateLocation msg => KeyError (context +:+ msg) | StoragePanic => KeyPanic end.

(** [StorageKeyRegistry::new] *)
Definition key_registry_new (location : string) : eff D KeyRegistryError StorageKeyRegistry :=
  s ← emap_err (key_error "unable to load storage: ") (get_storage location (∅ : PersistedKeyRegistry));
  mret (mkStorageKeyRegistry location (data s)).

Definition write_key_registry : eff (StorageKeyRegistry * D) KeyRegistryError () := λ '(r, d),
  let '(res, d') := replace_stored (kr_storage_location r) (kr_keys r) d in
  (map_err (key_error "unable to load key registry: ") res, (r, d')).

Definition save_keys (ks : list KeyInfo) : eff (StorageKeyRegistry * D) KeyRegistryError () :=
  modify (λ s, (mkStorageKeyRegistry (kr_storage_location s.1)
                  (foldl (λ m k, add_key k m) (kr_keys s.1) ks), s.2));;
  write_key_registry.
Definition save_key (k : KeyInfo) : eff (StorageKeyRegistry * D) KeyRegistryError () :=
  modify (λ s, (mkStorageKeyRegistry (kr_storage_location s.1) (add_key k (kr_keys s.1)), s.2));;
  write_key_registry;;
  mret ().

(** ** Facts *)

Lemma storage_get_add_key k k' loc m :
  storage_get_key k' (mkStorageKeyRegistry loc (add_key k m)) =
    if decide (k' = public_key k) then Ok (Some k)
    else storage_get_key k' (mkStorageKeyRegistry loc m).
Proof.
  unfold storage_get_key, add_key. cbn. case_decide as Hk.
  - subst. rewrite lookup_insert_eq. cbn. unfold key_try_into. cbn. rewrite parse_hex_to_hex. cbn.
    by destruct k.
  - rewrite lookup_insert_ne; [done|]. intros ?%(inj to_hex). congruence.
Qed.

(** The information last saved for a key. *)
Definition last_saved (k : bytes) (before : option KeyInfo) (i : KeyInfo) : option KeyInfo :=
  if decide (k = public_key i) then Some i else before.

Lemma storage_get_add_keys k ks loc m o :
  storage_get_key k (mkStorageKeyRegistry loc m) = Ok o →
  storage_get_key k (mkStorageKeyRegistry loc (foldl (λ m k, add_key k m) m ks)) =
    Ok (foldl (last_saved k) o ks).
Proof.
  revert m o. induction ks as [|i ks IH]; intros m o Ho; cbn; [done|]. apply IH.
  rewrite storage_get_add_key. unfold last_saved. by case_decide.
Qed.

Context `{!ReadsWritten D, !SerdeLaws (λ m : PersistedKeyRegistry, m)}.

(** the key registry.  Once saving a list of keys in a registry that could
    be read succeeded, each of them is found under its public key with the
    information saved last for it, the others are as they were, and a node that
    starts on the same YAML file finds the same. *)
Theorem saved_keys_found ks r (d : D) r' d' k o :
  ends_with ".yaml" (kr_storage_location r) = true →
  storage_get_key k r = Ok o →
  save_keys ks (r, d) = (Ok (), (r', d')) →
  storage_get_key k r' = Ok (foldl (last_saved k) o ks) ∧
  key_registry_new (kr_storage_location r) d' = (Ok r', d').
Proof.
  intros Hy Ho. unfold save_keys, mbind, eff_bind, modify, write_key_registry. cbn.
  destruct (replace_stored _ _ d) as [[[]|] d1] eqn:Hw; cbn; [|done]. intros [= <- <-].
  split; [by destruct r; apply storage_get_add_keys|].
  unfold key_registry_new, emap_err, mbind, eff_bind.
  by erewrite (replace_stored_get (λ m, m)).
Qed.
End key_registry.

Section key_registry_witness.
Import Files.

#[local] Instance PersistedKeyInfo_eq_dec : EqDecision PersistedKeyInfo.
Proof. solve_decision. Defined.

(** A serialiser that knows one registry. *)
Definition alice : KeyInfo := mkKeyInfo "pk" "n1" {["name" := "alice"]}.
#[local] Instance keys_serde : Serde PersistedKeyRegistry := {|
  to_yaml m := if decide (m = add_key alice ∅) then Some "alice" else None;
  from_yaml b := if decide (b = "alice") then Some (add_key alice ∅) else None;
|}.
#[local] Instance keys_serde_laws : SerdeLaws (λ m : PersistedKeyRegistry, m).
Proof. intros m b. cbn. case_decide; intros [= <-]; by subst. Qed.

Lemma saved_keys_found_witness :
  ∃ r' d', save_keys [alice] (mkStorageKeyRegistry "keys.yaml" ∅, ∅ : gmap string bytes) =
    (Ok (), (r', d')) ∧ storage_get_key "pk" r' = Ok (Some alice) ∧
    key_registry_new "keys.yaml" d' = (Ok r', d').
Proof.
  destruct (save_keys [alice] (mkStorageKeyRegistry "keys.yaml" ∅, ∅ : gmap string bytes))
    as [r [r' d']] eqn:H.
  assert (r = Ok ()) as ->.
  { change r with (fst (r, (r', d'))). rewrite <-H. by vm_compute. }
  exists r', d'. split; [done|].
  apply (saved_keys_found [alice] (mkStorageKeyRegistry "keys.yaml" ∅) (∅ : gmap string bytes)
    r' d' "pk" None); [reflexivity|reflexivity|exact H].
Defined.
End key_registry_witness.
