(* ===== verification/AdminMessages.v ===== *)
(** * The messages of the admin service

    Models [libsplinter/src/admin/service/messages.rs] and the messages of
    [protos/admin.proto] it converts: [Proto] has the protobuf messages, where
    every enumeration has an unset value, [Msg] the native ones, where none
    has. *)

From S2P Require Import Prelude Circuit.

Inductive MarshallingError :=
  | UnsetField (msg : string)
  | ProtobufError.

(** ** Protobuf messages *)
Module Proto.

Record SplinterNode := mkSplinterNode { node_id : string; endpoint : string }.

Record SplinterService := mkSplinterService {
  service_id : string;
  service_type : string;
  allowed_nodes : list string;
  arguments : list (string * string);
}.

Inductive AuthorizationType := UNSET_AUTHORIZATION_TYPE | TRUST_AUTHORIZATION.
Inductive PersistenceType := UNSET_PERSISTENCE_TYPE | ANY_PERSISTENCE.
Inductive DurabilityType := UNSET_DURABILITY_TYPE | NO_DURABILITY.
Inductive RouteType := UNSET_ROUTE_TYPE | ANY_ROUTE.

Record Circuit := mkCircuit {
  circuit_id : string;
  roster : list SplinterService;
  members : list SplinterNode;
  authorization_type : AuthorizationType;
  persistence : PersistenceType;
  durability : DurabilityType;
  routes : RouteType;
  circuit_management_type : string;
  application_metadata : bytes;
}.

Inductive ProposalType :=
  | UNSET_PROPOSAL_TYPE | CREATE | UPDATE_ROSTER | ADD_NODE | REMOVE_NODE | DESTROY.

Inductive Vote := UNSET_VOTE | ACCEPT | REJECT_VOTE.

Record VoteRecord := mkVoteRecord {
  vr_public_key : bytes;
  vr_vote : Vote;
  vr_voter_node_id : string;
}.

Record CircuitProposal := mkCircuitProposal {
  cp_proposal_type : ProposalType;
  cp_circuit_id : string;
  cp_circuit_hash : string;
  cp_circuit_proposal : Circuit;
  cp_votes : list VoteRecord;
  cp_requester : bytes;
  cp_requester_node_id : string;
}.

Record CircuitProposalVote := mkCircuitProposalVote {
  cpv_circuit_id : string;
  cpv_circuit_hash : string;
  cpv_vote : Vote;
}.

Record CircuitCreateRequest := mkCircuitCreateRequest { ccr_circuit : Circuit }.

(** The actions; the ones that no code handles are one constructor. *)
Inductive Action :=
  | ACTION_UNSET
  | CIRCUIT_PROPOSAL_VOTE
  | CIRCUIT_CREATE_REQUEST
  | OTHER_ACTION (n : Z).

Record Header := mkHeader {
  h_action : Action;
  h_requester : bytes;
  h_payload_sha512 : bytes;
  h_requester_node_id : string;
}.

(** [unhandled] stands for the requests of the actions no code handles, which are
    part of what the hash of a payload covers. *)
Record CircuitManagementPayload := mkCircuitManagementPayload {
  header : bytes;
  signature : bytes;
  circuit_proposal_vote : CircuitProposalVote;
  circuit_create_request : CircuitCreateRequest;
  unhandled : bytes;
}.

Record MemberReady := mkMemberReady { mr_circuit_id : string; mr_member_node_id : string }.

Record ProposedCircuit := mkProposedCircuit {
  pc_circuit_payload : CircuitManagementPayload;
  pc_expected_hash : bytes;
  pc_required_verifiers : bytes;
}.

(** [AdminMessage]: only the field of the message type is read. *)
Inductive AdminMessage :=
  | AdminUnset
  | AdminConsensusMessage (b : bytes)
  | AdminProposedCircuit (p : ProposedCircuit)
  | AdminMemberReady (m : MemberReady).

#[global] Instance Vote_eq_dec : EqDecision Vote.
Proof. solve_decision. Defined.
#[global] Instance AuthorizationType_eq_dec : EqDecision AuthorizationType.
Proof. solve_decision. Defined.
#[global] Instance PersistenceType_eq_dec : EqDecision PersistenceType.
Proof. solve_decision. Defined.
#[global] Instance DurabilityType_eq_dec : EqDecision DurabilityType.
Proof. solve_decision. Defined.
#[global] Instance RouteType_eq_dec : EqDecision RouteType.
Proof. solve_decision. Defined.
End Proto.

(** ** Native messages *)
Module Msg.

Record SplinterNode := mkSplinterNode { node_id : string; endpoint : string }.
Definition node_into_proto (n : SplinterNode) : Proto.SplinterNode :=
  Proto.mkSplinterNode (node_id n) (endpoint n).
Definition node_from_proto (p : Proto.SplinterNode) : result MarshallingError SplinterNode :=
  mret (mkSplinterNode (Proto.node_id p) (Proto.endpoint p)).

Record SplinterService := mkSplinterService {
  service_id : string;
  service_type : string;
  allowed_nodes : list string;
  arguments : list (string * string);
}.
Definition service_into_proto (s : SplinterService) : Proto.SplinterService :=
  Proto.mkSplinterService (service_id s) (service_type s) (allowed_nodes s) (arguments s).
Definition service_from_proto (p : Proto.SplinterService) :
    result MarshallingError SplinterService :=
  mret (mkSplinterService (Proto.service_id p) (Proto.service_type p) (Proto.allowed_nodes p)
    (Proto.arguments p)).

Record CreateCircuit := mkCreateCircuit {
  circuit_id : string;
  roster : list SplinterService;
  members : list SplinterNode;
  authorization_type : AuthorizationType;
  persistence : PersistenceType;
  durability : DurabilityType;
  routes : RouteType;
  circuit_management_type : string;
  application_metadata : bytes;
}.

(** [collect::<Result<Vec<_>, _>>()] *)
Fixpoint collect {E A} (l : list (result E A)) : result E (list A) :=
  match l with
  | [] => Ok []
  | r :: l => x ← r; l ← collect l; mret (x :: l)
  end.

(** [CreateCircuit::from_proto] and [into_proto] *)
Definition create_circuit_from_proto (p : Proto.Circuit) : result MarshallingError CreateCircuit :=
  authorization_type ←
    match Proto.authorization_type p with
    | Proto.TRUST_AUTHORIZATION => Ok AuthTrust
    | Proto.UNSET_AUTHORIZATION_TYPE => Err (UnsetField "Unset authorization type")
    end;
  persistence ←
    match Proto.persistence p with
    | Proto.ANY_PERSISTENCE => Ok PersistenceAny
    | Proto.UNSET_PERSISTENCE_TYPE => Err (UnsetField "Unset persistence type")
    end;
  durability ←
    match Proto.durability p with
    | Proto.NO_DURABILITY => Ok NoDurability
    | Proto.UNSET_DURABILITY_TYPE => Err (UnsetField "Unset durability type")
    end;
  routes ←
    match Proto.routes p with
    | Proto.ANY_ROUTE => Ok RouteAny
    | Proto.UNSET_ROUTE_TYPE => Err (UnsetField "Unset route type")
    end;
  roster ← collect (service_from_proto <$> Proto.roster p);
  members ← collect (node_from_proto <$> Proto.members p);
  mret (mkCreateCircuit (Proto.circuit_id p) roster members authorization_type persistence
    durability routes (Proto.circuit_management_type p) (Proto.application_metadata p)).

Definition create_circuit_into_proto (c : CreateCircuit) :
    result MarshallingError Proto.CircuitCreateRequest :=
  mret (Proto.mkCircuitCreateRequest (Proto.mkCircuit (circuit_id c)
    (service_into_proto <$> roster c) (node_into_proto <$> members c)
    (match authorization_type c with AuthTrust => Proto.TRUST_AUTHORIZATION end)
    (match persistence c with PersistenceAny => Proto.ANY_PERSISTENCE end)
    (match durability c with NoDurability => Proto.NO_DURABILITY end)
    (match routes c with RouteAny => Proto.ANY_ROUTE end)
    (circuit_management_type c) (application_metadata c))).

Inductive Vote := Accept | Reject.
#[global] Instance Vote_eq_dec : EqDecision Vote.
Proof. solve_decision. Defined.

Definition vote_from_proto (v : Proto.Vote) : result MarshallingError Vote :=
  match v with
  | Proto.ACCEPT => Ok Accept
  | Proto.REJECT_VOTE => Ok Reject
  | Proto.UNSET_VOTE => Err (UnsetField "Unset vote")
  end.
Definition vote_into_proto (v : Vote) : Proto.Vote :=
  match v with Accept => Proto.ACCEPT | Reject => Proto.REJECT_VOTE end.

Record VoteRecord := mkVoteRecord {
  public_key : bytes;
  vote : Vote;
  voter_node_id : string;
}.
Definition vote_record_from_proto (p : Proto.VoteRecord) : result MarshallingError VoteRecord :=
  v ← vote_from_proto (Proto.vr_vote p);
  mret (mkVoteRecord (Proto.vr_public_key p) v (Proto.vr_voter_node_id p)).
Definition vote_record_into_proto (r : VoteRecord) : Proto.VoteRecord :=
  Proto.mkVoteRecord (public_key r) (vote_into_proto (vote r)) (voter_node_id r).

Record CircuitProposalVote := mkCircuitProposalVote {
  cpv_circuit_id : string;
  cpv_circuit_hash : string;
  cpv_vote : Vote;
}.
Definition proposal_vote_from_proto (p : Proto.CircuitProposalVote) :
    result MarshallingError CircuitProposalVote :=
  v ← vote_from_proto (Proto.cpv_vote p);
  mret (mkCircuitProposalVote (Proto.cpv_circuit_id p) (Proto.cpv_circuit_hash p) v).
Definition proposal_vote_into_proto (v : CircuitProposalVote) : Proto.CircuitProposalVote :=
  Proto.mkCircuitProposalVote (cpv_circuit_id v) (cpv_circuit_hash v) (vote_into_proto (cpv_vote v)).

Inductive ProposalType := Create | UpdateRoster | AddNode | RemoveNode | Destroy.

Record CircuitProposal := mkCircuitProposal {
  proposal_type : ProposalType;
  cp_circuit_id : string;
  circuit_hash : string;
  circuit : CreateCircuit;
  votes : list VoteRecord;
  requester : bytes;
  requester_node_id : string;
}.

(** [CircuitProposal::from_proto] and [into_proto] *)
Definition proposal_from_proto (p : Proto.CircuitProposal) :
    result MarshallingError CircuitProposal :=
  proposal_type ←
    match Proto.cp_proposal_type p with
    | Proto.CREATE => Ok Create
    | Proto.UPDATE_ROSTER => Ok UpdateRoster
    | Proto.ADD_NODE => Ok AddNode
    | Proto.REMOVE_NODE => Ok RemoveNode
    | Proto.DESTROY => Ok Destroy
    | Proto.UNSET_PROPOSAL_TYPE => Err (UnsetField "Unset proposal type")
    end;
  votes ← collect (vote_record_from_proto <$> Proto.cp_votes p);
  circuit ← create_circuit_from_proto (Proto.cp_circuit_proposal p);
  mret (mkCircuitProposal proposal_type (Proto.cp_circuit_id p) (Proto.cp_circuit_hash p) circuit
    votes (Proto.cp_requester p) (Proto.cp_requester_node_id p)).

Definition proposal_into_proto (p : CircuitProposal) :
    result MarshallingError Proto.CircuitProposal :=
  request ← create_circuit_into_proto (circuit p);
  mret (Proto.mkCircuitProposal
    (match proposal_type p with
     | Create => Proto.CREATE | UpdateRoster => Proto.UPDATE_ROSTER | AddNode => Proto.ADD_NODE
     | RemoveNode => Proto.REMOVE_NODE | Destroy => Proto.DESTROY
     end)
    (cp_circuit_id p) (circuit_hash p) (Proto.ccr_circuit request)
    (vote_record_into_proto <$> votes p) (requester p) (requester_node_id p)).

Inductive AdminServiceEvent :=
  | ProposalSubmitted (p : CircuitProposal)
  | ProposalVote (p : CircuitProposal) (signer : bytes)
  | ProposalAccepted (p : CircuitProposal) (signer : bytes)
  | ProposalRejected (p : CircuitProposal) (signer : bytes)
  | CircuitReady (p : CircuitProposal).

(** [AdminServiceEvent::proposal] *)
Definition event_proposal (e : AdminServiceEvent) : CircuitProposal :=
  match e with
  | ProposalSubmitted p | ProposalVote p _ | ProposalAccepted p _ | ProposalRejected p _
  | CircuitReady p => p
  end.

(** ** Round trips *)

Lemma collect_fmap {E A B} (f : A → result E B) (g : B → A) l k :
  (∀ a b, f a = Ok b ↔ a = g b) → collect (f <$> l) = Ok k ↔ l = g <$> k.
Proof.
  intros Hfg. revert k. induction l as [|a l IH]; intros k; cbn.
  { destruct k; naive_solver. }
  split.
  - destruct (f a) as [b|] eqn:Hb; cbn; [|done].
    destruct (collect (f <$> l)) as [k'|]; cbn; [|done]. intros [= <-]. cbn.
    f_equal; [by apply Hfg|by apply IH].
  - destruct k as [|b k]; [done|]. intros [= Ha Hl]. apply Hfg in Ha. apply IH in Hl.
    by rewrite Ha, Hl.
Qed.

Lemma node_roundtrip q n : node_from_proto q = Ok n ↔ q = node_into_proto n.
Proof. destruct q, n. by split; intros [= -> ->]. Qed.
Lemma service_roundtrip q s : service_from_proto q = Ok s ↔ q = service_into_proto s.
Proof. destruct q, s. by split; intros [= -> -> -> ->]. Qed.
Lemma vote_record_roundtrip q r : vote_record_from_proto q = Ok r ↔ q = vote_record_into_proto r.
Proof. destruct q as [k [] n], r as [k' [] n']; split; intros [=]; by subst. Qed.

Lemma create_circuit_roundtrip q c :
  create_circuit_from_proto q = Ok c ↔
    create_circuit_into_proto c = Ok (Proto.mkCircuitCreateRequest q).
Proof.
  destruct q as [id ro me a p d r t m], c as [id' ro' me' [] [] [] [] t' m'].
  unfold create_circuit_from_proto, create_circuit_into_proto. cbn.
  pose proof (collect_fmap service_from_proto service_into_proto ro ro' service_roundtrip) as Hro.
  pose proof (collect_fmap node_from_proto node_into_proto me me' node_roundtrip) as Hme.
  split.
  - destruct a, p, d, r; try done; cbn.
    destruct (collect (service_from_proto <$> ro)) as [ro1|]; cbn; [|done].
    destruct (collect (node_from_proto <$> me)) as [me1|]; cbn; [|done]. intros [= -> -> -> -> ->].
    by rewrite (proj1 Hro eq_refl), (proj1 Hme eq_refl).
  - intros [= <- <- <- <- <- <- <- <- <-]. cbn.
    by rewrite (proj2 Hro eq_refl), (proj2 Hme eq_refl).
Qed.

#[local] Arguments create_circuit_into_proto : simpl never.

Lemma proposal_proto_iff q p :
  proposal_from_proto q = Ok p ↔ proposal_into_proto p = Ok q.
Proof.
  destruct q as [ty id h c vs req n], p as [ty' id' h' c' vs' req' n'].
  unfold proposal_from_proto, proposal_into_proto. cbn.
  pose proof (collect_fmap vote_record_from_proto vote_record_into_proto vs vs'
    vote_record_roundtrip) as Hvs.
  pose proof (create_circuit_roundtrip c c') as Hc. split.
  - intros Hp. assert (collect (vote_record_from_proto <$> vs) = Ok vs' ∧
      create_circuit_from_proto c = Ok c') as [Hvs1%Hvs Hc1%Hc].
    { destruct ty; cbn in Hp; try done;
        (destruct (collect _) as [vs1|]; cbn in Hp; [|done]);
        (destruct (create_circuit_from_proto c) as [c1|]; cbn in Hp; [|done]);
        unfold mret, result_ret in Hp; by simplify_eq. }
    rewrite Hc1. cbn. destruct Hvs as [_ Hvs]. rewrite Hvs, (proj2 Hc Hc1) in Hp by done.
    destruct ty; cbn in Hp; unfold mret, result_ret in Hp; by simplify_eq.
  - destruct (create_circuit_into_proto c') as [[c1]|] eqn:Hc1; cbn; [|done].
    intros [= <- <- <- <- <- <- <-]. rewrite (proj2 Hc), (proj2 Hvs) by done. by destruct ty'.
Qed.

(** the conversions between the stored form of a circuit proposal and the
    message that carries it are inverse to each other: a message converts to the
    proposal [p] exactly when [p] converts to the message. *)
Theorem proposal_roundtrip q p :
  proposal_from_proto q = Ok p ↔ proposal_into_proto p = Ok q.
Proof. apply proposal_proto_iff. Qed.
End Msg.
