(* ===== verification/DurableSets.v ===== *)
(** * Durable sets

    Models [libsplinter/src/storage/sets/mod.rs] and [mem.rs]: the bounded ordered set
    [DurableBTreeSet] with its ranges, and the unordered [DurableHashSet].  Both live
    in memory behind a lock that is never poisoned; iterators run over a snapshot. *)

From S2P Require Import Prelude.
From Stdlib Require Import ZArith.
From stdpp Require Import sorting.

(** ** [DurableBTreeSet]

    A [BTreeSet] is the strictly increasing list of its items; items are compared
    by their index [key]. *)
Inductive Bound :=
  | Included (t : Z)
  | Excluded (t : Z)
  | Unbounded.

Definition above (b : Bound) (t : Z) : bool :=
  match b with Included u => u <=? t | Excluded u => u <? t | Unbounded => true end%Z.
Definition below (b : Bound) (t : Z) : bool :=
  match b with Included u => t <=? u | Excluded u => t <? u | Unbounded => true end%Z.

(** The ranges on which [BTreeSet::range] panics: the start is after the end, or
    both are the same and excluded. *)
Definition invalid_range (lo hi : Bound) : bool :=
  match lo, hi with
  | Excluded u, Excluded v => v <=? u
  | Included u, Included v | Included u, Excluded v | Excluded u, Included v => v <? u
  | _, _ => false
  end%Z.

Inductive panic := Panic.

(** The conversions to [DurableRange] from the ranges of the standard library *)
Definition durable_range : Type := Bound * Bound.
Definition from_range (start end_ : Z) : durable_range := (Included start, Excluded end_).
Definition from_range_inclusive (start end_ : Z) : durable_range := (Included start, Included end_).
Definition from_range_full : durable_range := (Unbounded, Unbounded).
Definition from_range_from (start : Z) : durable_range := (Included start, Unbounded).
Definition from_range_to (end_ : Z) : durable_range := (Unbounded, Excluded end_).
Definition from_range_to_inclusive (end_ : Z) : durable_range := (Unbounded, Included end_).

Section btree.
Context {V : Type} (key : V → Z).

(** [BTreeSet::insert]: an item equal to a stored one is dropped. *)
Fixpoint btree_insert (x : V) (l : list V) : list V :=
  match l with
  | [] => [x]
  | y :: l' =>
      if (key x <? key y)%Z then x :: l
      else if (key x =? key y)%Z then l
      else y :: btree_insert x l'
  end.

(** [DurableBTreeSet::add], with the bound [n]: a full set loses its lowest item
    first, whether or not the new item is one of its items. *)
Definition set_add (n : nat) (x : V) (l : list V) : list V :=
  let l := if bool_decide (length l = n) then tail l else l in
  btree_insert x l.

(** [remove] (an item is looked for by its index), [contains], [len], [iter],
    [get_by_index], [first] and [last] *)
Definition set_remove (t : Z) (l : list V) : option V * list V :=
  (find (λ x, (key x =? t)%Z) l, filter (λ x, key x ≠ t) l).
Definition get_by_index (t : Z) (l : list V) : option V := find (λ x, (key x =? t)%Z) l.
Definition contains_by_index (t : Z) (l : list V) : bool := existsb (λ x, (key x =? t)%Z) l.
Definition set_iter (l : list V) : list V := l.
Definition set_len (l : list V) : Z := Z.of_nat (length l).
Definition first (l : list V) : option V := head l.
Definition last_item (l : list V) : option V := last l.

(** [range_iter] *)
Definition range_iter (lo hi : Bound) (l : list V) : result panic (list V) :=
  if invalid_range lo hi then Err Panic
  else Ok (filter (λ x, Is_true (above lo (key x) && below hi (key x))) l).
End btree.

(** ** [DurableHashSet]

    In the unspecified order of a hash set. *)
Section hash.
Context {V : Type} `{!EqDecision V, !Countable V}.

Definition hash_add (x : V) (s : gset V) : gset V := {[x]} ∪ s.
Definition hash_remove (x : V) (s : gset V) : option V * gset V :=
  (if decide (x ∈ s) then Some x else None, s ∖ {[x]}).
Definition hash_contains (x : V) (s : gset V) : bool := bool_decide (x ∈ s).
Definition hash_iter (s : gset V) : list V := elements s.
Definition hash_len (s : gset V) : Z := Z.of_nat (size s).
End hash.

(** ** Facts on ordered sets *)

Abbreviation ordered key l := (StronglySorted (λ x y, key x < key y)%Z l).

Section btree_facts.
Context {V : Type} (key : V → Z).

Lemma elem_of_btree_insert x y l :
  y ∈ btree_insert key x l → y = x ∨ y ∈ l.
Proof. induction l as [|z l IH]; cbn; [set_solver|]. repeat case_match; set_solver. Qed.

Lemma btree_insert_ordered x l : ordered key l → ordered key (btree_insert key x l).
Proof.
  induction 1 as [|y l Hl IH Hy]; cbn; [by repeat constructor|].
  rewrite Forall_forall in Hy. repeat case_match; try (constructor; [done|]).
  - constructor; [by constructor; [|rewrite Forall_forall]|].
    apply Forall_forall. intros z [->|Hz]%elem_of_cons; [lia|]. specialize (Hy _ Hz). lia.
  - by apply Forall_forall.
  - apply Forall_forall. intros z [->|Hz]%elem_of_btree_insert; [lia|by apply Hy].
Qed.

Lemma set_add_ordered n x l : ordered key l → ordered key (set_add key n x l).
Proof.
  intros Hl. apply btree_insert_ordered. case_bool_decide; [|done]. destruct Hl; [constructor|done].
Qed.

(** An item after all the others is put at the end. *)
Lemma btree_insert_last x l :
  Forall (λ y, key y < key x)%Z l → btree_insert key x l = l ++ [x].
Proof.
  induction 1 as [|y l Hy _ IH]; cbn; [done|].
  rewrite (proj2 (Z.ltb_ge _ _)) by lia. rewrite (proj2 (Z.eqb_neq _ _)) by lia. by rewrite IH.
Qed.

Lemma ordered_filter (P : V → Prop) `{!∀ x, Decision (P x)} l :
  ordered key l → ordered key (filter P l).
Proof.
  induction 1 as [|x l Hl IH Hx]; [constructor|]. rewrite filter_cons.
  case_decide; [|done]. constructor; [done|]. apply Forall_forall.
  intros y [_ Hy]%list_elem_of_filter. rewrite Forall_forall in Hx. by apply Hx.
Qed.

Lemma filter_all (P : V → Prop) `{!∀ x, Decision (P x)} l : Forall P l → filter P l = l.
Proof. induction 1; [done|]. rewrite filter_cons_True by done. by f_equal. Qed.

(** The items after the last one of a page are those that are not on it. *)
Lemma ordered_after_page n e l :
  ordered key l → last (take n l) = Some e → filter (λ x, key e < key x)%Z l = drop n l.
Proof.
  intros Hl. revert n. induction Hl as [|x l Hl IH Hx]; intros n; [by destruct n|].
  destruct n as [|n]; [done|]. cbn [take drop]. rewrite last_cons. intros He.
  destruct (last (take n l)) as [e'|] eqn:Hlast; simplify_eq.
  - rewrite filter_cons_False; [by apply IH|]. rewrite Forall_forall in Hx.
    assert (e ∈ l) as Hin%Hx; [|lia]. apply last_Some in Hlast as [l' Hl'].
    rewrite <-(take_drop n l), Hl'. set_solver.
  - rewrite filter_cons_False by lia. apply last_None in Hlast.
    destruct n, l; try done; by apply filter_all.
Qed.

Lemma length_btree_insert x l : length (btree_insert key x l) ≤ S (length l).
Proof. induction l as [|y l IH]; cbn; [done|]. repeat case_match; cbn; lia. Qed.

Lemma set_add_length n x l : 0 < n → length l ≤ n → length (set_add key n x l) ≤ n.
Proof.
  intros Hn Hl. unfold set_add. etrans; [apply length_btree_insert|].
  case_bool_decide; [destruct l|]; cbn in *; lia.
Qed.

Lemma get_by_index_below u l : Forall (λ y, u < key y)%Z l → get_by_index key u l = None.
Proof.
  unfold get_by_index. induction 1 as [|y l Hy _ IH]; [done|]. cbn. by rewrite (proj2 (Z.eqb_neq _ _)) by lia.
Qed.

Lemma get_by_index_insert x u l :
  ordered key l →
  get_by_index key u (btree_insert key x l) =
    match get_by_index key u l with
    | Some y => Some y
    | None => if decide (u = key x) then Some x else None
    end.
Proof.
  induction 1 as [|z l Hl IH Hz]; cbn.
  - destruct (Z.eqb_spec (key x) u); [by rewrite decide_True|by rewrite decide_False].
  - destruct (Z.ltb_spec (key x) (key z)) as [Hlt|Hge].
    + cbn. destruct (Z.eqb_spec (key x) u) as [<-|Hne]; [|rewrite decide_False by done; by repeat case_match].
      rewrite (proj2 (Z.eqb_neq _ _)) by lia. change (find _ l) with (get_by_index key (key x) l).
      rewrite get_by_index_below; [by rewrite decide_True|]. eapply Forall_impl; [done|]. cbn. lia.
    + destruct (Z.eqb_spec (key x) (key z)) as [Heq|Hne]; cbn.
      * destruct (Z.eqb_spec (key z) u); [done|]. rewrite decide_False by congruence. by repeat case_match.
      * destruct (Z.eqb_spec (key z) u); [done|]. apply IH.
Qed.

(** The item that a full set loses when one is added: the one with the lowest index *)
Definition evicted (n : nat) (l : list V) (u : Z) : Prop :=
  length l = n ∧ is_Some (get_by_index key u l) ∧ Forall (λ y, u ≤ key y)%Z l.

Lemma get_by_index_add n x u l :
  ordered key l →
  let added := if decide (u = key x) then Some x else None in
  (evicted n l u → get_by_index key u (set_add key n x l) = added) ∧
  (¬ evicted n l u → get_by_index key u (set_add key n x l) =
     match get_by_index key u l with Some y => Some y | None => added end).
Proof.
  intros Hl added. unfold set_add. case_bool_decide as Hn.
  2: { split; [by intros [? _]|]. intros _. by apply get_by_index_insert. }
  destruct Hl as [|h l Hl Hh]; cbn [tail].
  - split; [by intros (_ & [y Hy] & _)|]. intros _. by apply get_by_index_insert; constructor.
  - rewrite get_by_index_insert by done. destruct (decide (u = key h)) as [->|Hne].
    + rewrite get_by_index_below by done. split; [done|]. intros Hev. destruct Hev. split_and!; [done| |].
      * unfold get_by_index. cbn. rewrite Z.eqb_refl. by eexists.
      * constructor; [lia|]. eapply Forall_impl; [done|]. cbn. lia.
    + unfold get_by_index at 2. cbn. rewrite (proj2 (Z.eqb_neq (key h) u)) by done. split; [|done].
      intros (_ & [y Hy] & Hlow). exfalso. apply Forall_cons in Hlow as [Hlow _].
      unfold get_by_index in Hy. cbn in Hy. rewrite (proj2 (Z.eqb_neq (key h) u)) in Hy by done.
      change (get_by_index key u l = Some y) in Hy. rewrite get_by_index_below in Hy; [done|].
      eapply Forall_impl; [done|]. cbn. lia.
Qed.

(** Items that come in the order of their indices: the set has the latest. *)
Lemma adds_keep_latest n xs l :
  0 < n → length l ≤ n → ordered key (l ++ xs) →
  foldl (λ l x, set_add key n x l) l xs = drop (length (l ++ xs) - n) (l ++ xs).
Proof.
  intros Hn. revert l. induction xs as [|x xs IH]; intros l Hlen Ho.
  - rewrite app_nil_r. cbn. by replace (length l - n) with 0 by lia.
  - cbn [foldl]. assert (Forall (λ y, key y < key x)%Z l) as Hx.
    { clear -Ho. induction l as [|y l IH]; [done|]. inversion_clear Ho as [|?? Ho' Hy].
      constructor; [|by apply IH]. rewrite Forall_forall in Hy. apply Hy. set_solver. }
    unfold set_add at 2. case_bool_decide as Hfull.
    + destruct l as [|h l]; [cbn in Hfull; lia|]. cbn [tail]. apply Forall_cons in Hx as [_ Hx].
      rewrite (btree_insert_last x l Hx), IH; rewrite <-?app_assoc; [|rewrite length_app; cbn in *; lia|by inversion Ho].
      cbn [app]. replace (length (h :: l ++ x :: xs) - n) with (S (length (l ++ x :: xs) - n)); [done|].
      cbn in *. rewrite length_app. cbn. lia.
    + rewrite (btree_insert_last x l Hx), IH; rewrite <-?app_assoc; [done|rewrite length_app; cbn; lia|done].
Qed.

Lemma get_by_index_remove t u l :
  get_by_index key u (set_remove key t l).2 = if decide (u = t) then None else get_by_index key u l.
Proof.
  unfold get_by_index, set_remove. cbn [snd]. induction l as [|x l IH]; [by case_decide|].
  rewrite filter_cons. destruct (decide (key x ≠ t)) as [Hx|Hx]; cbn; rewrite ?IH.
  - destruct (Z.eqb_spec (key x) u); [|done]. rewrite decide_False by congruence. done.
  - destruct (decide (u = t)); [done|]. rewrite (proj2 (Z.eqb_neq (key x) u)); [done|].
    intros ?. apply Hx. lia.
Qed.

Lemma range_iter_spec lo hi l :
  ordered key l →
  match range_iter key lo hi l with
  | Ok r => ordered key r ∧ ∀ x, x ∈ r ↔ x ∈ l ∧ above lo (key x) = true ∧ below hi (key x) = true
  | Err Panic => invalid_range lo hi = true
  end.
Proof.
  intros Hl. unfold range_iter. destruct (invalid_range lo hi) eqn:Hr; [done|].
  split; [by apply ordered_filter|]. intros x. rewrite list_elem_of_filter, Is_true_true, andb_true_iff. tauto.
Qed.

(** The operations that change a set, on one with the bound [n]. *)
Inductive set_op :=
  | SetAdd (x : V)
  | SetRemove (t : Z).
Definition set_step (n : nat) (l : list V) (op : set_op) : list V :=
  match op with
  | SetAdd x => set_add key n x l
  | SetRemove t => (set_remove key t l).2
  end.
Definition set_run (n : nat) (ops : list set_op) : list V := foldl (set_step n) [] ops.

Lemma set_run_ok n ops : 0 < n → ordered key (set_run n ops) ∧ length (set_run n ops) ≤ n.
Proof.
  intros Hn. unfold set_run. induction ops as [|op ops [Ho Hl]] using rev_ind; [split; [constructor|cbn; lia]|].
  rewrite foldl_snoc. destruct op as [x|t]; cbn [set_step].
  - split; [by apply set_add_ordered|by apply set_add_length].
  - split; [by apply ordered_filter|]. cbn. etrans; [apply length_filter|done].
Qed.

(** C40: a bounded ordered set is well formed, whatever was added and removed: its
    items are in the order of their indices, no two have the same one, and there are
    never more than the bound.  An item that is added is found by its index, unless one
    with its index is kept; a set that is full, and only such a set, loses the item with
    the lowest index when one is added, and every other item is kept: so of items that
    come in the order of their indices the set has the latest, as many as its bound.  An
    item that is removed is given back, is no longer found, and every other item still
    is; and a range has exactly the items between its bounds, in order, unless the bounds
    contradict each other, which is a panic. *)
Theorem durable_set_well_formed n ops :
  0 < n →
  let l := set_run n ops in
  (ordered key l ∧ length l ≤ n) ∧
  (∀ x u, let added := if decide (u = key x) then Some x else None in
     (evicted n l u → get_by_index key u (set_add key n x l) = added) ∧
     (¬ evicted n l u → get_by_index key u (set_add key n x l) =
        match get_by_index key u l with Some y => Some y | None => added end)) ∧
  (∀ xs, ordered key (l ++ xs) →
     set_run n (ops ++ (SetAdd <$> xs)) = drop (length (l ++ xs) - n) (l ++ xs)) ∧
  (∀ t, (set_remove key t l).1 = get_by_index key t l ∧
        ∀ u, get_by_index key u (set_remove key t l).2 = if decide (u = t) then None else get_by_index key u l) ∧
  (∀ lo hi, match range_iter key lo hi l with
            | Ok r => ordered key r ∧ ∀ x, x ∈ r ↔ x ∈ l ∧ above lo (key x) = true ∧ below hi (key x) = true
            | Err Panic => invalid_range lo hi = true
            end).
Proof.
  intros Hn l. pose proof (set_run_ok n ops Hn) as Hl. split; [exact Hl|]. split_and!.
  - intros x u. apply get_by_index_add, Hl.
  - intros xs Ho. unfold set_run. rewrite foldl_app, foldl_fmap. by apply adds_keep_latest; [|apply Hl|].
  - intros t. split; [done|]. intros u. apply get_by_index_remove.
  - intros lo hi. apply range_iter_spec, Hl.
Qed.
End btree_facts.


Lemma durable_set_well_formed_witness :
  let l := set_run id 2 [SetAdd 5%Z; SetAdd 3%Z; SetRemove 5%Z; SetAdd 4%Z] in
  l = [3; 4]%Z ∧ length l ≤ 2 ∧
  set_run id 2 ([SetAdd 5%Z; SetAdd 3%Z; SetRemove 5%Z; SetAdd 4%Z] ++ (SetAdd <$> [7; 9]%Z)) = [7; 9]%Z ∧
  range_iter id (Included 3) (Excluded 4) l = Ok [3%Z].
Proof.
  intros l. destruct (durable_set_well_formed id 2 [SetAdd 5%Z; SetAdd 3%Z; SetRemove 5%Z; SetAdd 4%Z])
    as ((_ & Hl) & _ & Hx & _); [lia|].
  split; [reflexivity|]. split; [exact Hl|]. split; [|reflexivity].
  apply (Hx [7; 9]%Z). apply (bool_decide_unpack (StronglySorted (λ x y, x < y)%Z [3; 4; 7; 9]%Z)). exact I.
Defined.
