(* ===== verification/Mailbox.v ===== *)
(** * The event mailbox of the admin service

    Models [libsplinter/src/admin/service/mailbox.rs]: events are kept in a bounded
    set ordered by time stamp, and read through an iterator that loads them a page at
    a time. *)

From S2P Require Import Prelude DurableSets AdminMessages.
From Stdlib Require Import ZArith.
From stdpp Require Import sorting.

(** ** The mailbox *)

Record EventEntry := mkEventEntry { timestamp : Z; event : Msg.AdminServiceEvent }.

(** [Mailbox::add] on a mailbox with the bound [n], at time [now] *)
Definition mailbox_add (n : nat) (now : Z) (e : Msg.AdminServiceEvent) (l : list EventEntry) :
    (Z * Msg.AdminServiceEvent) * list EventEntry :=
  let entry := mkEventEntry now e in
  ((timestamp entry, event entry), set_add timestamp n entry l).

Definition ITER_CACHE_SIZE : nat := 100.
Definition UNIX_EPOCH : Z := 0.

Record MailboxIter := mkMailboxIter {
  start_search : Z;
  end_search : Z;
  cache : list EventEntry;
}.

(** The page that was loaded and where the next one starts. *)
Definition load_page (lo : Bound) (hi : Z) (source : list EventEntry) : result panic MailboxIter :=
  r ← range_iter timestamp lo (Excluded hi) source;
  let page := take ITER_CACHE_SIZE r in
  let start := match last page with Some e => timestamp e | None => hi end in
  mret (mkMailboxIter start hi page).

(** [MailboxIter::new], [Mailbox::iter] and [MailboxIter::reload_cache]; the set
    of events is shared with the mailbox, and read at every reload. *)
Definition mailbox_iter_new (source : list EventEntry) (start end_ : Z) :
    result panic MailboxIter :=
  load_page (Included start) end_ source.
Definition mailbox_iter (now : Z) (source : list EventEntry) : result panic MailboxIter :=
  mailbox_iter_new source UNIX_EPOCH now.
Definition reload_cache (source : list EventEntry) (it : MailboxIter) : result panic MailboxIter :=
  load_page (Excluded (start_search it)) (end_search it) source.

(** [Iterator::next] *)
Definition mailbox_next (source : list EventEntry) :
    eff MailboxIter panic (option (Z * Msg.AdminServiceEvent)) := λ it,
  match (if bool_decide (cache it = []) && (start_search it <? end_search it)%Z
         then reload_cache source it else Ok it) with
  | Err p => (Err p, it)
  | Ok it =>
      match cache it with
      | [] => (Ok None, it)
      | e :: l =>
          (Ok (Some (timestamp e, event e)), mkMailboxIter (start_search it) (end_search it) l)
      end
  end.

(** What a loop over the iterator sees: its items, until it ends or the fuel
    does. *)
Fixpoint mailbox_collect (fuel : nat) (source : list EventEntry) (it : MailboxIter) :
    option (list (Z * Msg.AdminServiceEvent)) :=
  match fuel with
  | 0 => None
  | S fuel =>
      match mailbox_next source it with
      | (Ok None, _) => Some []
      | (Ok (Some x), it) => cons x <$> mailbox_collect fuel source it
      | (Err Panic, _) => None
      end
  end.

(** ** Facts on the mailbox *)

(** What is left to read: the loaded page and what follows it. *)
Definition in_range (lo : Bound) (hi : Z) (source : list EventEntry) : list EventEntry :=
  filter (λ e, Is_true (above lo (timestamp e) && below (Excluded hi) (timestamp e))) source.
Definition unread (source : list EventEntry) (it : MailboxIter) : list EventEntry :=
  cache it ++
  (if (start_search it <? end_search it)%Z
   then in_range (Excluded (start_search it)) (end_search it) source else []).

Lemma load_page_unread lo hi source :
  ordered timestamp source → invalid_range lo (Excluded hi) = false →
  ∃ it, load_page lo hi source = Ok it ∧ unread source it = in_range lo hi source ∧
    (cache it = [] → start_search it = end_search it).
Proof.
  intros Hs Hr. unfold load_page, range_iter. rewrite Hr. cbn [mbind result_bind].
  set (r := filter _ _). change (filter _ _) with (in_range lo hi source) in (value of r).
  eexists. split; [reflexivity|]. unfold unread. cbn [cache start_search end_search].
  destruct (last (take ITER_CACHE_SIZE r)) as [e|] eqn:He.
  - split; [|intros Hnil; by rewrite Hnil in He].
    assert (e ∈ r) as Hin.
    { apply last_Some in He as [l' He]. rewrite <-(take_drop ITER_CACHE_SIZE r), He. set_solver. }
    assert (above lo (timestamp e) ∧ timestamp e < hi)%Z as [Hlo Hhi].
    { apply list_elem_of_filter in Hin as [Hin _]. apply andb_prop_elim in Hin as [? Hin].
      split; [done|]. apply Is_true_true, Z.ltb_lt in Hin. done. }
    rewrite (proj2 (Z.ltb_lt _ _)) by done.
    trans r; [|done]. rewrite <-(take_drop ITER_CACHE_SIZE r) at 2. f_equal.
    rewrite <-(ordered_after_page timestamp ITER_CACHE_SIZE e r) by
      (done || by apply ordered_filter).
    unfold r, in_range. rewrite list_filter_filter. apply list_filter_iff. intros x.
    rewrite !andb_True. cbn. rewrite !Is_true_true, !Z.ltb_lt.
    split; [|naive_solver]. intros [Hx ?]. split_and!; [done| |done].
    destruct lo; cbn in *; rewrite ?Is_true_true, ?Z.leb_le, ?Z.ltb_lt in *; lia || done.
  - apply last_None in He. split; [|done]. rewrite Z.ltb_irrefl, He. cbn.
    destruct r eqn:Hr'; [done|]. by unfold ITER_CACHE_SIZE in He.
Qed.

Lemma mailbox_next_unread source it :
  ordered timestamp source →
  match unread source it with
  | [] => (mailbox_next source it).1 = Ok None
  | e :: l => ∃ it', mailbox_next source it = (Ok (Some (timestamp e, event e)), it') ∧
      unread source it' = l
  end.
Proof.
  intros Hs. unfold mailbox_next. destruct (cache it) as [|e l] eqn:Hc.
  2: { rewrite bool_decide_eq_false_2 by done. cbn [andb]. unfold unread. rewrite Hc.
       by eexists. }
  rewrite bool_decide_eq_true_2 by done. cbn [andb].
  destruct (start_search it <? end_search it)%Z eqn:Hlt.
  - destruct (load_page_unread (Excluded (start_search it)) (end_search it) source)
      as (it1 & Hl & Hu & Hnil); [done|cbn; lia|].
    unfold reload_cache. rewrite Hl.
    assert (unread source it = unread source it1) as ->.
    { rewrite Hu. unfold unread. by rewrite Hc, Hlt. }
    clear Hu. destruct (cache it1) as [|e l] eqn:Hc1.
    + unfold unread. by rewrite Hc1, Hnil, Z.ltb_irrefl.
    + unfold unread at 1. rewrite Hc1. cbn. by eexists.
  - unfold unread. by rewrite Hc, Hlt.
Qed.

Lemma mailbox_collect_unread source fuel it :
  ordered timestamp source → length (unread source it) < fuel →
  mailbox_collect fuel source it = Some ((λ e, (timestamp e, event e)) <$> unread source it).
Proof.
  intros Hs. revert it. induction fuel as [|fuel IH]; intros it Hf; [lia|]. cbn.
  pose proof (mailbox_next_unread source it Hs) as Hn.
  destruct (unread source it) as [|e l].
  - destruct (mailbox_next source it) as [r it']. cbn in Hn. by subst.
  - destruct Hn as (it' & -> & Hu). rewrite IH by (rewrite Hu; cbn in Hf; lia). by rewrite Hu.
Qed.

(** Adding events at increasing times. *)
Definition mailbox_add_all (n : nat) (es l : list EventEntry) : list EventEntry :=
  foldl (λ l e, (mailbox_add n (timestamp e) (event e) l).2) l es.

Lemma mailbox_add_all_last n es :
  0 < n → ordered timestamp es → mailbox_add_all n es [] = drop (length es - n) es.
Proof.
  intros Hn. induction es as [|[t e] es IH] using rev_ind; [done|].
  intros [Hlt [Hes _]]%StronglySorted_app. specialize (IH Hes).
  unfold mailbox_add_all in *. rewrite foldl_app, IH. cbn. unfold set_add.
  set (k := length es - n).
  assert ((if bool_decide (length (drop k es) = n) then tail (drop k es) else drop k es) =
    drop (length (es ++ [mkEventEntry t e]) - n) es) as ->.
  { rewrite length_app, length_drop. cbn. case_bool_decide.
    - change (tail ?l) with (drop 1 l). rewrite drop_drop. f_equal. lia.
    - f_equal. lia. }
  rewrite btree_insert_last.
  - rewrite drop_app_le; [done|]. rewrite length_app. cbn. lia.
  - apply Forall_drop, Forall_forall. intros x Hx. apply (Hlt x (mkEventEntry t e)); set_solver.
Qed.

(** the mailbox of the admin service gives back its events.  After events
    recorded at increasing times, a loop over the iterator of the mailbox, which
    loads the events a page at a time, ends, and sees the last [n] events, [n]
    being the bound of the mailbox, each once and in the order in which they were
    recorded. *)
Theorem mailbox_last_events n es now fuel :
  0 < n → ordered timestamp es → Forall (λ e, UNIX_EPOCH ≤ timestamp e < now)%Z es →
  (UNIX_EPOCH ≤ now)%Z → n < fuel →
  ∃ it, mailbox_iter now (mailbox_add_all n es []) = Ok it ∧
    mailbox_collect fuel (mailbox_add_all n es []) it =
      Some ((λ e, (timestamp e, event e)) <$> drop (length es - n) es).
Proof.
  intros Hn Hord Hes Hnow Hf. rewrite mailbox_add_all_last by done.
  set (l := drop (length es - n) es).
  assert (ordered timestamp l) as Hl.
  { rewrite <-(take_drop (length es - n) es) in Hord. by apply StronglySorted_app in Hord as (_&_&?). }
  destruct (load_page_unread (Included UNIX_EPOCH) now l) as (it & Hit & Hu & _); [done|cbn; lia|].
  exists it. split; [done|].
  assert (in_range (Included UNIX_EPOCH) now l = l) as Hr.
  { apply filter_all, Forall_drop. eapply Forall_impl; [done|]. intros e [Hlo Hhi]. cbn -[UNIX_EPOCH].
    apply Is_true_true, andb_true_iff. rewrite Z.leb_le, Z.ltb_lt. done. }
  rewrite mailbox_collect_unread; rewrite ?Hu, ?Hr; [done..|].
  unfold l. rewrite length_drop. lia.
Qed.

(** An event recorded at the time of another one is lost, and the oldest one with
    it when the mailbox is full. *)
Lemma mailbox_add_same_time n t e e' l :
  length l + 1 = n → l ≠ [] → Forall (λ x, timestamp x < t)%Z l →
  (mailbox_add n t e' (l ++ [mkEventEntry t e])).2 = tail (l ++ [mkEventEntry t e]).
Proof.
  intros <- Hne Hl. cbn. unfold set_add. rewrite length_app, bool_decide_eq_true_2 by done.
  assert (∀ k, Forall (λ x, timestamp x < t)%Z k →
    btree_insert timestamp (mkEventEntry t e') (k ++ [mkEventEntry t e]) =
      k ++ [mkEventEntry t e]) as Hk.
  { induction 1 as [|x k Hx _ IH]; cbn; [by rewrite Z.ltb_irrefl, Z.eqb_refl|].
    rewrite (proj2 (Z.ltb_ge _ _)), (proj2 (Z.eqb_neq _ _)), IH by lia. done. }
  destruct Hl as [|x l Hx Hl]; [done|by apply Hk].
Qed.
