(* ===== verification/OpenProposals.v ===== *)
(** * The open circuit proposals

    Models [libsplinter/src/admin/service/open_proposals.rs]: the registry of the
    circuit proposals that are being voted on, which is written to its storage
    at every change. *)

From S2P Require Import Prelude Storage AdminMessages.

(** [OpenProposalError], with the panics of the storage as a third constructor. *)
Inductive OpenProposalError :=
  | OpenWriteError (msg : string)
  | OpenInvalidMessageFormat (e : MarshallingError)
  | OpenPanic.

(** ** [ProposalRegistry] *)

Abbreviation ProposalRegistry := (gmap string Msg.CircuitProposal).

Module Registry.
Definition to_message (o : option Msg.CircuitProposal) :
    result OpenProposalError (option Proto.CircuitProposal) :=
  match o with
  | Some p => q ← map_err OpenInvalidMessageFormat (Msg.proposal_into_proto p); mret (Some q)
  | None => mret None
  end.

Definition add_proposal (q : Proto.CircuitProposal) :
    eff ProposalRegistry OpenProposalError (option Proto.CircuitProposal) := λ m,
  match Msg.proposal_from_proto q with
  | Ok p => (to_message (m !! Proto.cp_circuit_id q), <[Proto.cp_circuit_id q := p]> m)
  | Err e => (Err (OpenInvalidMessageFormat e), m)
  end.

Definition remove_proposal (circuit_id : string) :
    eff ProposalRegistry OpenProposalError (option Proto.CircuitProposal) := λ m,
  (to_message (m !! circuit_id), delete circuit_id m).

Definition get_proposal (circuit_id : string) (m : ProposalRegistry) :
    result OpenProposalError (option Proto.CircuitProposal) :=
  to_message (m !! circuit_id).

Definition has_proposal (circuit_id : string) (m : ProposalRegistry) : bool :=
  bool_decide (is_Some (m !! circuit_id)).

(** Conversion of what was stored never fails. *)
Lemma to_message_total p : ∃ q, to_message (Some p) = Ok (Some q) ∧ Msg.proposal_from_proto q = Ok p.
Proof.
  destruct p as [ty id h [id' ro me [] [] [] [] t a] vs r n]. cbn. eexists. split; [reflexivity|].
  apply Msg.proposal_proto_iff. cbn. by destruct ty.
Qed.
End Registry.

(** ** [OpenProposals] *)

Record OpenProposals := mkOpenProposals {
  op_storage_location : string;
  op_registry : ProposalRegistry;
}.

Section open_proposals.
Context {D : Type} `{!FileSystem D, !Serde ProposalRegistry}.

Definition open_error (e : StorageError) : OpenProposalError :=
  match e with UnknownStateLocation msg => OpenWriteError msg | StoragePanic => OpenPanic end.

(** [OpenProposals::new] *)
Definition open_proposals_new (location : string) : eff D OpenProposalError OpenProposals :=
  s ← emap_err open_error (get_storage location (∅ : ProposalRegistry));
  mret (mkOpenProposals location (data s)).

Definition write_open_proposals : eff (OpenProposals * D) OpenProposalError () := λ '(o, d),
  let '(r, d') := replace_stored (op_storage_location o) (op_registry o) d in
  (map_err open_error r, (o, d')).

(** A change of the registry, its write, and only then the result of the change. *)
Definition change_registry {A} (m : eff ProposalRegistry OpenProposalError A) :
    eff (OpenProposals * D) OpenProposalError A :=
  r ← (λ '(o, d), let '(r, reg) := m (op_registry o) in
        (Ok r, (mkOpenProposals (op_storage_location o) reg, d)));
  write_open_proposals;;
  lift r.

Definition open_add_proposal (q : Proto.CircuitProposal) :
    eff (OpenProposals * D) OpenProposalError (option Proto.CircuitProposal) :=
  change_registry (Registry.add_proposal q).
Definition open_remove_proposal (circuit_id : string) :
    eff (OpenProposals * D) OpenProposalError (option Proto.CircuitProposal) :=
  change_registry (Registry.remove_proposal circuit_id).
Definition open_get_proposal (circuit_id : string) (o : OpenProposals) :
    result OpenProposalError (option Proto.CircuitProposal) :=
  Registry.get_proposal circuit_id (op_registry o).
Definition open_has_proposal (circuit_id : string) (o : OpenProposals) : bool :=
  Registry.has_proposal circuit_id (op_registry o).

(** ** Facts *)

Lemma change_registry_inv {A} (m : eff ProposalRegistry OpenProposalError A) o d r o' d' :
  change_registry m (o, d) = (r, (o', d')) →
  op_storage_location o' = op_storage_location o ∧ op_registry o' = (m (op_registry o)).2 ∧
  (is_ok r = true → r = (m (op_registry o)).1 ∧
   replace_stored (op_storage_location o) (op_registry o') d = (Ok (), d')).
Proof.
  unfold change_registry, mbind, eff_bind, write_open_proposals.
  destruct (m (op_registry o)) as [r1 reg] eqn:Hm. cbn.
  destruct (replace_stored _ reg d) as [[[]|] d1] eqn:Hw; cbn; intros [= <- <- <-]; by rewrite ?Hw.
Qed.

Lemma open_get_add q o d r o' d' id :
  open_add_proposal q (o, d) = (Ok r, (o', d')) →
  open_get_proposal id o' =
    if decide (id = Proto.cp_circuit_id q) then Ok (Some q) else open_get_proposal id o.
Proof.
  intros (_ & Hreg & Hok)%change_registry_inv. destruct (Hok eq_refl) as [Hr _].
  unfold open_get_proposal, Registry.get_proposal. rewrite Hreg. unfold Registry.add_proposal in *.
  destruct (Msg.proposal_from_proto q) as [p|] eqn:Hp; [|done]. cbn [snd].
  case_decide; subst; [|by rewrite lookup_insert_ne].
  rewrite lookup_insert_eq. cbn -[Msg.proposal_into_proto].
  apply Msg.proposal_proto_iff in Hp. by rewrite Hp.
Qed.

Context `{!FileSystemLaws D, !SerdeLaws (λ m : ProposalRegistry, m)}.

(** What was changed is on disk. *)
Lemma change_registry_stored {A} (m : eff ProposalRegistry OpenProposalError A) o (d : D) r o' d' :
  ends_with ".yaml" (op_storage_location o) = true →
  change_registry m (o, d) = (Ok r, (o', d')) →
  open_proposals_new (op_storage_location o) d' = (Ok o', d').
Proof.
  intros Hy (Hloc & _ & Hok)%change_registry_inv. destruct (Hok eq_refl) as [_ Hw].
  unfold open_proposals_new, emap_err, mbind, eff_bind.
  erewrite (replace_stored_get (λ m, m)) by done. cbn. rewrite <-Hloc. by destruct o'.
Qed.

(** Open proposals are stored.  Once adding a proposal succeeded, looking up
    its circuit gives exactly the message that was added, the other proposals are
    what they were, and a node that starts on the same YAML file loads the same
    registry. *)
Theorem open_proposals_stored q o (d : D) r o' d' :
  ends_with ".yaml" (op_storage_location o) = true →
  open_add_proposal q (o, d) = (Ok r, (o', d')) →
  (∀ id, open_get_proposal id o' =
     if decide (id = Proto.cp_circuit_id q) then Ok (Some q) else open_get_proposal id o) ∧
  open_proposals_new (op_storage_location o) d' = (Ok o', d').
Proof.
  intros Hy Hadd. split; [intros id; by eapply open_get_add|by eapply change_registry_stored].
Qed.
End open_proposals.
