(* ===== verification/AdminShared.v ===== *)
(** * The state of the admin service: validating and proposing changes

    Models the first half of [libsplinter/src/admin/service/shared.rs]: the state
    of the admin service, the validation of circuits, votes and payloads, the
    proposal of a change, and the queues of payloads that wait for peers to be
    authorized or for consensus.  What the service calls on (keys, signatures,
    peers, the orchestrator, other admin services, subscribers) is a set of
    interfaces on a world [W]. *)

From S2P Require Import Prelude Storage Circuit Hex Keys Consensus AdminMessages DurableSets Mailbox.
From S2P Require Import OpenProposals.

(** ** Errors *)

(** [AdminSharedError], with panics as the last constructor; boxed errors that
    are only displayed carry no payload. *)
Inductive AdminSharedError :=
  | HashError
  | InvalidMessageFormat (e : MarshallingError)
  | NoPendingChanges
  | ServiceInitializationFailed
  | ServiceShutdownFailed
  | ServiceSendError
  | UnknownAction
  | ValidationFailed (msg : string)
  | CommitError (msg : string)
  | UpdateProposalsError (e : OpenProposalError)
  | SharedPanic.

(** [ServiceError] *)
Inductive ServiceError :=
  | SvcInvalidMessageFormat
  | SvcUnableToHandleMessage (e : option AdminSharedError)
  | SvcNotStarted
  | SvcPanic.

(** ** What the admin service calls on *)

(** [ServiceDefinition] of the orchestrator *)
Record OrchestratorService := mkOrchestratorService {
  os_circuit : string;
  os_service_id : string;
  os_service_type : string;
}.
#[export] Instance OrchestratorService_eq_dec : EqDecision OrchestratorService.
Proof. solve_decision. Defined.
#[export] Instance OrchestratorService_countable : Countable OrchestratorService.
Proof.
  refine (inj_countable' (λ s, (os_circuit s, os_service_id s, os_service_type s))
    (λ '(a, b, c), mkOrchestratorService a b c) _). by intros [].
Defined.

Inductive AdminSubscriberError := UnableToHandleEvent | Unsubscribe.

Class ServiceNetworkSender (W : Type) := service_send : string → bytes → eff W () ().
Class PeerConnector (W : Type) := connect_peer : string → string → eff W () ().
Class AuthorizationInquisitor (W : Type) := peer_authorized : string → W → bool.
Class Orchestrator (W : Type) := {
  supported_service_types : W → list string;
  initialize_service : OrchestratorService → gmap string string → eff W () ();
  shutdown_service : OrchestratorService → eff W () ();
}.
Class SignatureVerifier (W : Type) := verify : bytes → bytes → bytes → W → result () bool.
Class SystemClock (W : Type) := system_time : W → Z * W.
Class Subscribers (W Sub : Type) :=
  handle_event : Sub → Msg.AdminServiceEvent → Z → eff W AdminSubscriberError ().

(** SHA-256 ([openssl::hash]) *)
Class Sha256 := sha256_digest : bytes → option bytes.

(** ** State *)

Abbreviation UnpeeredPendingPayload := (list string * Proto.CircuitManagementPayload)%type.

Inductive CircuitProposalStatus := Accepted | Rejected | Pending.

Record CircuitProposalContext := mkCircuitProposalContext {
  cpc_circuit_proposal : Proto.CircuitProposal;
  cpc_action : Proto.Action;
  cpc_signer_public_key : bytes;
}.

Record UninitializedCircuit := mkUninitializedCircuit {
  uc_circuit : option Proto.CircuitProposal;
  uc_ready_members : gset string;
}.

Definition VOTER_ROLE : string := "voter".
Definition PROPOSER_ROLE : string := "proposer".
Definition DEFAULT_IN_MEMORY_EVENT_LIMIT : nat := 100.

(** [admin_service_id] *)
Definition admin_service_id (node_id : string) : string := "admin::" +:+ node_id.

Section admin_state.
Context {Sub : Type}.

(** [AdminServiceShared], without the components that belong to the world;
    [network_sender] says whether the service is connected. *)
Record AdminServiceShared := mkAdminServiceShared {
  node_id : string;
  open_proposals : OpenProposals;
  uninitialized_circuits : gmap string UninitializedCircuit;
  running_services : gset OrchestratorService;
  network_sender : bool;
  unpeered_payloads : list UnpeeredPendingPayload;
  pending_circuit_payloads : list Proto.CircuitManagementPayload;
  pending_consensus_proposals : gmap ProposalId (Proposal * Proto.CircuitManagementPayload);
  pending_changes : option CircuitProposalContext;
  current_consensus_verifiers : list string;
  event_subscribers : gmap string (list Sub);
  event_mailbox : list EventEntry;
}.

Definition set_open_proposals (x : OpenProposals) (s : AdminServiceShared) : AdminServiceShared :=
  mkAdminServiceShared (node_id s) x (uninitialized_circuits s) (running_services s)
    (network_sender s) (unpeered_payloads s) (pending_circuit_payloads s)
    (pending_consensus_proposals s) (pending_changes s) (current_consensus_verifiers s)
    (event_subscribers s) (event_mailbox s).
Definition set_uninitialized_circuits (x : gmap string UninitializedCircuit) (s : AdminServiceShared) : AdminServiceShared :=
  mkAdminServiceShared (node_id s) (open_proposals s) x (running_services s) (network_sender
    s) (unpeered_payloads s) (pending_circuit_payloads s) (pending_consensus_proposals s)
    (pending_changes s) (current_consensus_verifiers s) (event_subscribers s) (event_mailbox
    s).
Definition set_running_services (x : gset OrchestratorService) (s : AdminServiceShared) : AdminServiceShared :=
  mkAdminServiceShared (node_id s) (open_proposals s) (uninitialized_circuits s) x
    (network_sender s) (unpeered_payloads s) (pending_circuit_payloads s)
    (pending_consensus_proposals s) (pending_changes s) (current_consensus_verifiers s)
    (event_subscribers s) (event_mailbox s).
Definition set_network_sender (x : bool) (s : AdminServiceShared) : AdminServiceShared :=
  mkAdminServiceShared (node_id s) (open_proposals s) (uninitialized_circuits s)
    (running_services s) x (unpeered_payloads s) (pending_circuit_payloads s)
    (pending_consensus_proposals s) (pending_changes s) (current_consensus_verifiers s)
    (event_subscribers s) (event_mailbox s).
Definition set_unpeered_payloads (x : list UnpeeredPendingPayload) (s : AdminServiceShared) : AdminServiceShared :=
  mkAdminServiceShared (node_id s) (open_proposals s) (uninitialized_circuits s)
    (running_services s) (network_sender s) x (pending_circuit_payloads s)
    (pending_consensus_proposals s) (pending_changes s) (current_consensus_verifiers s)
    (event_subscribers s) (event_mailbox s).
Definition set_pending_circuit_payloads (x : list Proto.CircuitManagementPayload) (s : AdminServiceShared) : AdminServiceShared :=
  mkAdminServiceShared (node_id s) (open_proposals s) (uninitialized_circuits s)
    (running_services s) (network_sender s) (unpeered_payloads s) x
    (pending_consensus_proposals s) (pending_changes s) (current_consensus_verifiers s)
    (event_subscribers s) (event_mailbox s).
Definition set_pending_consensus_proposals (x : gmap ProposalId (Proposal * Proto.CircuitManagementPayload)) (s : AdminServiceShared) : AdminServiceShared :=
  mkAdminServiceShared (node_id s) (open_proposals s) (uninitialized_circuits s)
    (running_services s) (network_sender s) (unpeered_payloads s) (pending_circuit_payloads s)
    x (pending_changes s) (current_consensus_verifiers s) (event_subscribers s) (event_mailbox
    s).
Definition set_pending_changes (x : option CircuitProposalContext) (s : AdminServiceShared) : AdminServiceShared :=
  mkAdminServiceShared (node_id s) (open_proposals s) (uninitialized_circuits s)
    (running_services s) (network_sender s) (unpeered_payloads s) (pending_circuit_payloads s)
    (pending_consensus_proposals s) x (current_consensus_verifiers s) (event_subscribers s)
    (event_mailbox s).
Definition set_current_consensus_verifiers (x : list string) (s : AdminServiceShared) : AdminServiceShared :=
  mkAdminServiceShared (node_id s) (open_proposals s) (uninitialized_circuits s)
    (running_services s) (network_sender s) (unpeered_payloads s) (pending_circuit_payloads s)
    (pending_consensus_proposals s) (pending_changes s) x (event_subscribers s) (event_mailbox
    s).
Definition set_event_subscribers (x : gmap string (list Sub)) (s : AdminServiceShared) : AdminServiceShared :=
  mkAdminServiceShared (node_id s) (open_proposals s) (uninitialized_circuits s)
    (running_services s) (network_sender s) (unpeered_payloads s) (pending_circuit_payloads s)
    (pending_consensus_proposals s) (pending_changes s) (current_consensus_verifiers s) x
    (event_mailbox s).
Definition set_event_mailbox (x : list EventEntry) (s : AdminServiceShared) : AdminServiceShared :=
  mkAdminServiceShared (node_id s) (open_proposals s) (uninitialized_circuits s)
    (running_services s) (network_sender s) (unpeered_payloads s) (pending_circuit_payloads s)
    (pending_consensus_proposals s) (pending_changes s) (current_consensus_verifiers s)
    (event_subscribers s) x.
End admin_state.
#[global] Arguments AdminServiceShared : clear implicits.

(** The node the service runs on: its shared state, the splinter state, the disk
    and everything else. *)
Record Admin (Sub D W : Type) := mkAdmin {
  shared : AdminServiceShared Sub;
  splinter_state : SplinterState;
  disk : D;
  world : W;
}.
Arguments mkAdmin {Sub D W} _ _ _ _.
Arguments shared {Sub D W} _.
Arguments splinter_state {Sub D W} _.
Arguments disk {Sub D W} _.
Arguments world {Sub D W} _.

(** ** Hashes *)

(** [sha256] *)
Definition sha256 {M} `{!Codec M, !Sha256} (m : M) : result () string :=
  b ← ok_or () (write_to_bytes m);
  digest ← ok_or () (sha256_digest b);
  mret (to_hex digest).

(** ** Validation *)

Definition check (b : bool) (msg : string) : result AdminSharedError () :=
  if b then Ok () else Err (ValidationFailed msg).

(** The loop over the members: the node ids and the endpoints seen so far. *)
Fixpoint validate_members (members endpoints : list string) (l : list Proto.SplinterNode) :
    result AdminSharedError (list string) :=
  match l with
  | [] => Ok members
  | member :: l =>
      let node_id := Proto.node_id member in
      check (negb (is_empty node_id)) "Member node id cannot be empty";;
      check (bool_decide (node_id ∉ members)) "Every member must be unique in the circuit.";;
      let endpoint := Proto.endpoint member in
      check (negb (is_empty endpoint)) "Member endpoint cannot be empty";;
      check (bool_decide (endpoint ∉ endpoints))
        "Every member endpoint must be unique in the circuit.";;
      validate_members (members ++ [node_id]) (endpoints ++ [endpoint]) l
  end.

(** The loop over the services: the ids seen so far. *)
Fixpoint validate_services (members services : list string) (l : list Proto.SplinterService) :
    result AdminSharedError () :=
  match l with
  | [] => Ok ()
  | service :: l =>
      let allowed := Proto.allowed_nodes service in
      check (bool_decide (allowed ≠ [])) "Service cannot have an empty allowed nodes list";;
      check (bool_decide (length allowed ≤ 1)) "Only one allowed node for a service is supported";;
      match find (λ node, bool_decide (node ∉ members)) allowed with
      | Some node => Err (ValidationFailed
          ("Service cannot have an allowed node that is not in members: " +:+ node))
      | None => Ok ()
      end;;
      let service_id := Proto.service_id service in
      check (negb (is_empty service_id)) "Service id cannot be empty";;
      check (bool_decide (service_id ∉ services)) "Every service must be unique in the circuit.";;
      validate_services members (services ++ [service_id]) l
  end.

(** [validate_circuit], on the node [node_id] *)
Definition validate_circuit (node_id : string) (c : Proto.Circuit) : result AdminSharedError () :=
  check (bool_decide (Proto.authorization_type c ≠ Proto.UNSET_AUTHORIZATION_TYPE))
    "authorization_type cannot be unset";;
  check (bool_decide (Proto.persistence c ≠ Proto.UNSET_PERSISTENCE_TYPE))
    "persistence_type cannot be unset";;
  check (bool_decide (Proto.durability c ≠ Proto.UNSET_DURABILITY_TYPE))
    "durability_type cannot be unset";;
  check (bool_decide (Proto.routes c ≠ Proto.UNSET_ROUTE_TYPE)) "route_type cannot be unset";;
  check (negb (is_empty (Proto.circuit_id c))) "circuit_id must be set";;
  check (negb (is_empty (Proto.circuit_management_type c))) "circuit_management_type must be set";;
  members ← validate_members [] [] (Proto.members c);
  check (bool_decide (members ≠ [])) "The circuit must have members";;
  check (bool_decide (node_id ∈ members)) ("Circuit does not contain this node: " +:+ node_id);;
  check (bool_decide (Proto.roster c ≠ [])) "The circuit must have services";;
  validate_services members [] (Proto.roster c);;
  check (negb (is_empty (Proto.circuit_management_type c)))
    "The circuit must have a mangement type".

(** [validate_circuit_management_payload] *)
Definition validate_circuit_management_payload (payload : Proto.CircuitManagementPayload)
    (header : Proto.Header) : result AdminSharedError () :=
  check (negb (is_empty (Proto.signature payload)))
    "CircuitManagementPayload signature must be set";;
  check (negb (is_empty (Proto.header payload))) "CircuitManagementPayload header must be set";;
  check (negb (is_empty (Proto.h_requester header)))
    "CircuitManagementPayload must have a requester";;
  check (negb (is_empty (Proto.h_requester_node_id header)))
    "CircuitManagementPayload must have a requester node id".

(** [check_approved] *)
Fixpoint received_votes (votes : list Proto.VoteRecord) (received : gset string) :
    option (gset string) :=
  match votes with
  | [] => Some received
  | v :: votes =>
      if bool_decide (Proto.vr_vote v = Proto.REJECT_VOTE) then None
      else received_votes votes ({[Proto.vr_voter_node_id v]} ∪ received)
  end.

Definition check_approved (p : Proto.CircuitProposal) : CircuitProposalStatus :=
  match received_votes (Proto.cp_votes p) ∅ with
  | None => Rejected
  | Some received =>
      let required : gset string :=
        list_to_set (Proto.node_id <$> Proto.members (Proto.cp_circuit_proposal p))
          ∖ {[Proto.cp_requester_node_id p]} in
      if bool_decide (required = received) then Accepted else Pending
  end.

(** ** Operations *)

Section admin.
Context {Sub D W : Type} `{!FileSystem D}.
Context `{!Serde ProposalRegistry, !Sha256, !Codec Proto.Circuit, !Codec Proto.CircuitProposal,
  !Codec Proto.Header}.
Context `{!KeyRegistry W, !KeyPermissionManager W, !SignatureVerifier W, !PeerConnector W,
  !AuthorizationInquisitor W, !SystemClock W, !Subscribers W Sub}.

Abbreviation admin := (Admin Sub D W).
Abbreviation admin_eff := (eff (Admin Sub D W)).

Definition on_shared {E} (f : AdminServiceShared Sub → AdminServiceShared Sub) : admin_eff E () :=
  modify (λ s, mkAdmin (f (shared s)) (splinter_state s) (disk s) (world s)).
Definition in_world {E X} (m : eff W E X) : admin_eff E X := λ s,
  let '(r, w) := m (world s) in (r, mkAdmin (shared s) (splinter_state s) (disk s) w).
Definition in_proposals {E X} (m : eff (OpenProposals * D) E X) : admin_eff E X := λ s,
  let '(r, (o, d)) := m (open_proposals (shared s), disk s) in
  (r, mkAdmin (set_open_proposals o (shared s)) (splinter_state s) d (world s)).

(** *** Looking up and changing proposals *)

Definition proposals_error (e : OpenProposalError) : AdminSharedError :=
  match e with OpenPanic => SharedPanic | _ => UpdateProposalsError e end.

Definition has_proposal (circuit_id : string) (s : admin) : bool :=
  open_has_proposal circuit_id (open_proposals (shared s)).
Definition get_proposal (circuit_id : string) (s : admin) :
    result AdminSharedError (option Proto.CircuitProposal) :=
  map_err proposals_error (open_get_proposal circuit_id (open_proposals (shared s))).
Definition add_proposal (q : Proto.CircuitProposal) :
    admin_eff AdminSharedError (option Proto.CircuitProposal) :=
  emap_err proposals_error (in_proposals (open_add_proposal q)).
Definition remove_proposal (circuit_id : string) :
    admin_eff AdminSharedError (option Proto.CircuitProposal) :=
  emap_err proposals_error (in_proposals (open_remove_proposal circuit_id)).

(** *** Validation against the state *)

Definition key_info_of (signer_public_key : bytes) (s : admin) : result AdminSharedError KeyInfo :=
  o ← map_err (λ e, match e with KeyError msg => ValidationFailed msg | KeyPanic => SharedPanic end)
        (get_key signer_public_key (world s));
  ok_or (ValidationFailed (to_hex signer_public_key +:+ " is not registered for a node")) o.

(** [is_permitted(..).map_err(..)?]: the answer itself is dropped. *)
Definition check_permission (signer_public_key : bytes) (role node : string) (s : admin) :
    result AdminSharedError () :=
  match is_permitted signer_public_key role (world s) with
  | Ok _ => Ok ()
  | Err _ => Err (ValidationFailed
      (to_hex signer_public_key +:+ " is not permitted to vote for node " +:+ node))
  end.

Definition validate_create_circuit (c : Proto.Circuit) (signer_public_key : bytes)
    (requester_node_id : string) (s : admin) : result AdminSharedError () :=
  check (negb (is_empty requester_node_id)) "requester_node_id is empty";;
  key_info ← key_info_of signer_public_key s;
  check (bool_decide (associated_node_id key_info = requester_node_id))
    (to_hex signer_public_key +:+ " is not registered for the node in header");;
  check_permission signer_public_key PROPOSER_ROLE (associated_node_id key_info) s;;
  check (negb (has_proposal (Proto.circuit_id c) s))
    ("Ignoring duplicate create proposal of circuit " +:+ Proto.circuit_id c);;
  check (negb (has_circuit (Proto.circuit_id c) (splinter_state s)))
    ("Circuit with circuit id " +:+ Proto.circuit_id c +:+ " already exists");;
  validate_circuit (node_id (shared s)) c.

Definition validate_circuit_vote (v : Proto.CircuitProposalVote) (signer_public_key : bytes)
    (p : Proto.CircuitProposal) (node_id : string) (s : admin) : result AdminSharedError () :=
  key_info ← key_info_of signer_public_key s;
  let signer_node := associated_node_id key_info in
  check (bool_decide (signer_node = node_id))
    ("Payload requester node id does not match the node the key is registered to: "
       +:+ to_hex (Proto.cp_requester p));;
  check (bool_decide (Proto.cp_requester_node_id p ≠ signer_node))
    ("Received vote from requester node: " +:+ to_hex (Proto.cp_requester p));;
  check (bool_decide (signer_node ∉ Proto.vr_voter_node_id <$> Proto.cp_votes p))
    ("Received duplicate vote from " +:+ signer_node +:+ " for " +:+ Proto.cpv_circuit_id v);;
  check_permission signer_public_key VOTER_ROLE signer_node s;;
  check (bool_decide (Proto.cp_circuit_hash p = Proto.cpv_circuit_hash v))
    ("Hash of circuit does not match circuit proposal: " +:+ Proto.cpv_circuit_id v).

Definition verify_signature (payload : Proto.CircuitManagementPayload) (s : admin) :
    result ServiceError bool :=
  header ← ok_or SvcInvalidMessageFormat
             (parse_from_bytes (Proto.header payload) : option Proto.Header);
  map_err (λ _, SvcUnableToHandleMessage None)
    (verify (Proto.header payload) (Proto.signature payload) (Proto.h_requester header) (world s)).

(** *** [propose_change] *)

Definition hash_error {X} (r : result () X) : result AdminSharedError X :=
  map_err (λ _, HashError) r.

Definition verifiers_of (c : Proto.Circuit) : list string :=
  admin_service_id ∘ Proto.node_id <$> Proto.members c.

(** The proposal that a payload with a verified header makes, by its action. *)
Definition proposed_change (header : Proto.Header) (payload : Proto.CircuitManagementPayload)
    (s : admin) : result AdminSharedError Proto.CircuitProposal :=
  match Proto.h_action header with
  | Proto.CIRCUIT_CREATE_REQUEST =>
      let c := Proto.ccr_circuit (Proto.circuit_create_request payload) in
      validate_create_circuit c (Proto.h_requester header) (Proto.h_requester_node_id header) s;;
      circuit_hash ← hash_error (sha256 c);
      mret (Proto.mkCircuitProposal Proto.CREATE (Proto.circuit_id c) circuit_hash c []
        (Proto.h_requester header) (Proto.h_requester_node_id header))
  | Proto.CIRCUIT_PROPOSAL_VOTE =>
      let v := Proto.circuit_proposal_vote payload in
      o ← match get_proposal (Proto.cpv_circuit_id v) s with
          | Ok o => Ok o
          | Err SharedPanic => Err SharedPanic
          | Err _ => Err (ValidationFailed "error occured when trying to get proposal ")
          end;
      p ← ok_or (ValidationFailed ("Received vote for a proposal that does not exist: circuit id "
            +:+ Proto.cpv_circuit_id v)) o;
      validate_circuit_vote v (Proto.h_requester header) p (Proto.h_requester_node_id header) s;;
      mret (Proto.mkCircuitProposal (Proto.cp_proposal_type p) (Proto.cp_circuit_id p)
        (Proto.cp_circuit_hash p) (Proto.cp_circuit_proposal p)
        (Proto.cp_votes p ++ [Proto.mkVoteRecord (Proto.h_requester header) (Proto.cpv_vote v)
                                (Proto.h_requester_node_id header)])
        (Proto.cp_requester p) (Proto.cp_requester_node_id p))
  | Proto.ACTION_UNSET => Err (ValidationFailed "Action must be set")
  | Proto.OTHER_ACTION _ => Err (ValidationFailed "Unable to handle ")
  end.

Definition propose_change (payload : Proto.CircuitManagementPayload) :
    admin_eff AdminSharedError (string * Proto.CircuitProposal) :=
  s ← get;
  header ← lift (ok_or (InvalidMessageFormat ProtobufError)
                   (parse_from_bytes (Proto.header payload) : option Proto.Header));
  lift (validate_circuit_management_payload payload header);;
  lift (map_err (λ _, ValidationFailed "Unable to verify signature") (verify_signature payload s));;
  p ← lift (proposed_change header payload s);
  expected_hash ← lift (hash_error (sha256 p));
  on_shared (set_pending_changes
    (Some (mkCircuitProposalContext p (Proto.h_action header) (Proto.h_requester header))));;
  on_shared (set_current_consensus_verifiers (verifiers_of (Proto.cp_circuit_proposal p)));;
  mret (expected_hash, p).

(** [rollback] *)
Definition rollback : admin_eff AdminSharedError () :=
  on_shared (set_pending_changes None).

(** *** Queues of payloads *)

(** [pop_pending_circuit_payload] *)
Definition pop_pending_circuit_payload {E} :
    admin_eff E (option Proto.CircuitManagementPayload) := λ s,
  match pending_circuit_payloads (shared s) with
  | [] => (Ok None, s)
  | p :: l =>
      (Ok (Some p), mkAdmin (set_pending_circuit_payloads l (shared s)) (splinter_state s)
                      (disk s) (world s))
  end.

Definition push_pending {E} (payload : Proto.CircuitManagementPayload) : admin_eff E () :=
  on_shared (λ sh, set_pending_circuit_payloads (pending_circuit_payloads sh ++ [payload]) sh).

(** The loop of [propose_circuit] over the members. *)
Fixpoint connect_members (l : list Proto.SplinterNode) (unauthorized : list string) :
    admin_eff ServiceError (list string) :=
  match l with
  | [] => mret unauthorized
  | node :: l =>
      s ← get;
      if bool_decide (node_id (shared s) ≠ Proto.node_id node) then
        if peer_authorized (Proto.node_id node) (world s) then connect_members l unauthorized
        else
          emap_err (λ _, SvcUnableToHandleMessage None)
            (in_world (connect_peer (Proto.node_id node) (Proto.endpoint node)));;
          connect_members l (unauthorized ++ [Proto.node_id node])
      else connect_members l unauthorized
  end.

Definition propose_circuit (payload : Proto.CircuitManagementPayload) : admin_eff ServiceError () :=
  unauthorized ← connect_members
    (Proto.members (Proto.ccr_circuit (Proto.circuit_create_request payload))) [];
  match unauthorized with
  | [] => push_pending payload
  | _ => on_shared (λ sh,
           set_unpeered_payloads (unpeered_payloads sh ++ [(unauthorized, payload)]) sh)
  end.

Definition propose_vote (payload : Proto.CircuitManagementPayload) : admin_eff ServiceError () :=
  push_pending payload.

Definition submit (payload : Proto.CircuitManagementPayload) : admin_eff ServiceError () :=
  s ← get;
  header ← lift (ok_or SvcInvalidMessageFormat
                   (parse_from_bytes (Proto.header payload) : option Proto.Header));
  lift (map_err (λ e, SvcUnableToHandleMessage (Some e))
    (validate_circuit_management_payload payload header));;
  lift (verify_signature payload s);;
  match Proto.h_action header with
  | Proto.CIRCUIT_CREATE_REQUEST => propose_circuit payload
  | Proto.CIRCUIT_PROPOSAL_VOTE => propose_vote payload
  | Proto.ACTION_UNSET =>
      throw (SvcUnableToHandleMessage (Some (ValidationFailed "No action specified")))
  | Proto.OTHER_ACTION _ =>
      throw (SvcUnableToHandleMessage (Some (ValidationFailed "Unable to handle ")))
  end.

(** [on_authorization_change]; [authorized] is the new state of the peer. *)
Definition update_unpeered (peer_id : string) (authorized : bool) (u : UnpeeredPendingPayload) :
    UnpeeredPendingPayload :=
  let '(peers, payload) := u in
  if authorized then (filter (λ p, p ≠ peer_id) peers, payload)
  else if existsb (λ p, bool_decide (p = peer_id)) peers then ([], payload)
  else u.

Definition on_authorization_change {E} (peer_id : string) (authorized : bool) : admin_eff E () :=
  on_shared (λ sh,
    let unpeered := update_unpeered peer_id authorized <$> unpeered_payloads sh in
    let fully_peered := filter (λ u, u.1 = []) unpeered in
    let still_unpeered := filter (λ u, u.1 ≠ []) unpeered in
    let sh := set_unpeered_payloads still_unpeered sh in
    if authorized
    then set_pending_circuit_payloads (pending_circuit_payloads sh ++ (snd <$> fully_peered)) sh
    else sh).

(** *** Events *)

(** [broadcast_by_type]: the subscribers that are kept. *)
Fixpoint broadcast_events {E} (subs : list Sub) (e : Msg.AdminServiceEvent) (t : Z) :
    eff W E (list Sub) :=
  match subs with
  | [] => mret []
  | sub :: subs =>
      r ← attempt (handle_event sub e t);
      kept ← broadcast_events subs e t;
      mret (match r with Err Unsubscribe => kept | _ => sub :: kept end)
  end.

Definition send_event {E} (mgmt_type : string) (e : Msg.AdminServiceEvent) : admin_eff E () := λ s,
  let '(now, w) := system_time (world s) in
  let '((t, e), mailbox) := mailbox_add DEFAULT_IN_MEMORY_EVENT_LIMIT now e (event_mailbox (shared s)) in
  let s := mkAdmin (set_event_mailbox mailbox (shared s)) (splinter_state s) (disk s) w in
  match event_subscribers (shared s) !! mgmt_type with
  | Some subs =>
      (kept ← in_world (broadcast_events subs e t);
       on_shared (λ sh, set_event_subscribers (<[mgmt_type := kept]> (event_subscribers sh)) sh)) s
  | None => (Ok (), s)
  end.

Definition add_subscriber {E} (mgmt_type : string) (sub : Sub) : admin_eff E () :=
  on_shared (λ sh, set_event_subscribers
    (<[mgmt_type := default [] (event_subscribers sh !! mgmt_type) ++ [sub]]>
       (event_subscribers sh)) sh).

Definition remove_all_event_subscribers {E} : admin_eff E () := on_shared (set_event_subscribers ∅).

(** [get_events_since]: the iterator and the filter on it; the time that is asked
    for is not used. *)
Definition get_events_since (since : Z) (mgmt_type : string) :
    admin_eff panic (MailboxIter * (Msg.AdminServiceEvent → bool)) := λ s,
  let '(now, w) := system_time (world s) in
  let s := mkAdmin (shared s) (splinter_state s) (disk s) w in
  (it ← mailbox_iter now (event_mailbox (shared s));
   mret (it, λ e, bool_decide
     (Msg.circuit_management_type (Msg.circuit (Msg.event_proposal e)) = mgmt_type)), s).
End admin.
