(* ===== verification/AdminCommit.v ===== *)
(** * The admin service: committing circuits and starting their services

    Models the second half of [libsplinter/src/admin/service/shared.rs]: the
    commit of a change that consensus accepted, the update of the splinter state,
    the circuits that wait for their members to be ready, and the services the
    node runs. *)

From S2P Require Import Prelude Storage Circuit Consensus AdminMessages DurableSets Mailbox OpenProposals.
From S2P Require Import AdminShared.
From stdpp Require Import sorting.

Section commit.
Context {Sub D W : Type} `{!FileSystem D}.
Context `{!Serde ProposalRegistry, !Serde CircuitDirectory, !Codec Proto.AdminMessage}.
Context `{!ServiceNetworkSender W, !Orchestrator W, !SystemClock W, !Subscribers W Sub}.

Abbreviation admin := (Admin Sub D W).
Abbreviation admin_eff := (eff (Admin Sub D W)).

Definition in_state {E X} (m : eff (SplinterState * D) E X) : admin_eff E X := λ s,
  let '(r, (st, d)) := m (splinter_state s, disk s) in (r, mkAdmin (shared s) st d (world s)).
Definition on_state {E} (f : SplinterState → SplinterState) : admin_eff E () :=
  modify (λ s, mkAdmin (shared s) (f (splinter_state s)) (disk s) (world s)).

(** ** The splinter state *)

Definition commit_error (context : string) (e : WriteError) : AdminSharedError :=
  match e with
  | GetStorageError msg => CommitError (context +:+ "Unable to get storage: " +:+ msg)
  | WritePanic => SharedPanic
  end.

Definition member_nodes (c : Proto.Circuit) : list SplinterNode :=
  (λ n, mkSplinterNode (Proto.node_id n) [Proto.endpoint n]) <$> Proto.members c.
Definition state_roster (c : Proto.Circuit) : list ServiceDefinition :=
  (λ s, service_definition (Proto.service_id s) (Proto.service_type s) (Proto.allowed_nodes s)
     (Proto.arguments s)) <$> Proto.roster c.

(** The circuit that is added to the state. *)
Definition state_circuit (c : Proto.Circuit) : result AdminSharedError Circuit :=
  auth ← match Proto.authorization_type c with
         | Proto.TRUST_AUTHORIZATION => Ok AuthTrust
         | Proto.UNSET_AUTHORIZATION_TYPE =>
             Err (CommitError "Missing authorization type on circuit commit")
         end;
  persistence ← match Proto.persistence c with
         | Proto.ANY_PERSISTENCE => Ok PersistenceAny
         | Proto.UNSET_PERSISTENCE_TYPE =>
             Err (CommitError "Missing persistence type on circuit commit")
         end;
  durability ← match Proto.durability c with
         | Proto.NO_DURABILITY => Ok NoDurability
         | Proto.UNSET_DURABILITY_TYPE =>
             Err (CommitError "Missing durabilty type on circuit commit")
         end;
  routes ← match Proto.routes c with
         | Proto.ANY_ROUTE => Ok RouteAny
         | Proto.UNSET_ROUTE_TYPE => Err (CommitError "Missing route type on circuit commit")
         end;
  map_err (λ msg, CommitError ("Unable build new circuit: unable to build circuit: " +:+ msg))
    (build_circuit
      (with_circuit_management_type (Proto.circuit_management_type c)
        (with_routes routes
          (with_durability durability
            (with_persistence persistence
              (with_auth auth
                (with_roster (state_roster c)
                  (with_members (sn_id <$> member_nodes c)
                    (with_id (Proto.circuit_id c) circuit_builder))))))))).

Fixpoint add_member_nodes (l : list SplinterNode) : admin_eff AdminSharedError () :=
  match l with
  | [] => mret ()
  | n :: l =>
      emap_err (commit_error "Unable to add node to splinter state: ")
        (in_state (add_node (sn_id n) n));;
      add_member_nodes l
  end.

(** The services of a circuit that run on other nodes are added to the directory;
    [rebuild] makes the node of the service from its id and the stored node. *)
Fixpoint add_remote_services (circuit_id : string) (rebuild : string → SplinterNode → SplinterNode)
    (l : list ServiceDefinition) : admin_eff AdminSharedError () :=
  match l with
  | [] => mret ()
  | service :: l =>
      s ← get;
      if bool_decide (node_id (shared s) ∈ sd_allowed_nodes service) then
        add_remote_services circuit_id rebuild l
      else
        allowed_node ← lift (ok_or SharedPanic (head (sd_allowed_nodes service)));
        match node allowed_node (splinter_state s) with
        | Some member =>
            on_state (add_service (mkServiceId circuit_id (sd_service_id service))
              (mkService (sd_service_id service) None (rebuild allowed_node member)));;
            add_remote_services circuit_id rebuild l
        | None =>
            throw (CommitError ("Unable to find allowed node " +:+ allowed_node
              +:+ " when adding service " +:+ sd_service_id service +:+ " to directory"))
        end
  end.

(** [update_splinter_state] *)
Definition update_splinter_state (c : Proto.Circuit) : admin_eff AdminSharedError () :=
  new_circuit ← lift (state_circuit c);
  add_member_nodes (member_nodes c);;
  emap_err (commit_error "Unable to add circuit to splinter state: ")
    (in_state (add_circuit (c_id new_circuit) new_circuit));;
  add_remote_services (Proto.circuit_id c) (λ _ member, member) (state_roster c).

(** [add_services_to_directory] *)
Fixpoint add_circuits_services (l : list (string * Circuit)) : admin_eff AdminSharedError () :=
  match l with
  | [] => mret ()
  | (id, c) :: l =>
      add_remote_services id (λ allowed_node member, mkSplinterNode allowed_node (sn_endpoints member))
        (roster_to_vec (c_roster c));;
      add_circuits_services l
  end.
Definition add_services_to_directory : admin_eff AdminSharedError () :=
  s ← get;
  add_circuits_services (btree_entries (cd_circuits (ss_circuit_directory (splinter_state s)))).

(** ** Services *)

(** The loop that starts services. *)
Fixpoint start_services (circuit_id : string) (l : list ServiceDefinition) :
    admin_eff AdminSharedError () :=
  match l with
  | [] => mret ()
  | service :: l =>
      let def := mkOrchestratorService circuit_id (sd_service_id service) (sd_service_type service) in
      emap_err (λ _, ServiceInitializationFailed)
        (in_world (initialize_service def (sd_arguments service)));;
      on_shared (λ sh, set_running_services ({[def]} ∪ running_services sh) sh);;
      start_services circuit_id l
  end.

(** The services that this node may run and that the orchestrator supports. *)
Definition local_services (l : list ServiceDefinition) (s : admin) : list ServiceDefinition :=
  filter (λ service, node_id (shared s) ∈ sd_allowed_nodes service ∧
                     sd_service_type service ∈ supported_service_types (world s)) l.

(** [initialize_services] *)
Definition initialize_services (c : Proto.Circuit) : admin_eff AdminSharedError () :=
  s ← get;
  start_services (Proto.circuit_id c) (local_services (state_roster c) s).

(** [restart_services] *)
Fixpoint restart_circuits (l : list (string * Circuit)) : admin_eff AdminSharedError () :=
  match l with
  | [] => mret ()
  | (name, c) :: l =>
      s ← get;
      start_services name (local_services (roster_to_vec (c_roster c)) s);;
      restart_circuits l
  end.
Definition restart_services : admin_eff AdminSharedError () :=
  s ← get;
  restart_circuits (btree_entries (cd_circuits (ss_circuit_directory (splinter_state s)))).

(** [stop_services]: all services are asked to shut down, in the unspecified order
    of a hash set; [failed] says whether one could not be. *)
Fixpoint shutdown_all (l : list OrchestratorService) (failed : bool) :
    admin_eff AdminSharedError bool :=
  match l with
  | [] => mret failed
  | def :: l =>
      r ← attempt (in_world (shutdown_service def));
      shutdown_all l (failed || negb (is_ok (r : result () ())))
  end.
Definition stop_services : admin_eff AdminSharedError () :=
  s ← get;
  failed ← shutdown_all (elements (running_services (shared s))) false;
  on_shared (set_running_services ∅);;
  if failed : bool then throw ServiceShutdownFailed else mret ().

(** ** Circuits that wait for their members *)

Definition members_ready (u : UninitializedCircuit) : bool :=
  match uc_circuit u with
  | Some p =>
      bool_decide ((list_to_set (Proto.node_id <$> Proto.members (Proto.cp_circuit_proposal p))
                     : gset string) ⊆ uc_ready_members u)
  | None => false
  end.

(** [messages::CircuitProposal::from_proto(..).map_err(..)?] *)
Definition event_message (p : Proto.CircuitProposal) : result AdminSharedError Msg.CircuitProposal :=
  map_err InvalidMessageFormat (Msg.proposal_from_proto p).

Definition initialize_services_if_members_ready (circuit_id : string) :
    admin_eff AdminSharedError () :=
  s ← get;
  match uninitialized_circuits (shared s) !! circuit_id with
  | Some u =>
      if members_ready u then
        on_shared (λ sh, set_uninitialized_circuits
          (delete circuit_id (uninitialized_circuits sh)) sh);;
        p ← lift (ok_or SharedPanic (uc_circuit u));
        initialize_services (Proto.cp_circuit_proposal p);;
        msg ← lift (event_message p);
        send_event (Proto.circuit_management_type (Proto.cp_circuit_proposal p))
          (Msg.CircuitReady msg)
      else mret ()
  | None => mret ()
  end.

(** What is known of an uninitialized circuit, created when there is nothing. *)
Definition uninitialized (circuit_id : string) (sh : AdminServiceShared Sub) : UninitializedCircuit :=
  default (mkUninitializedCircuit None ∅) (uninitialized_circuits sh !! circuit_id).

Definition add_uninitialized_circuit (p : Proto.CircuitProposal) : admin_eff AdminSharedError () :=
  let circuit_id := Proto.cp_circuit_id p in
  on_shared (λ sh, set_uninitialized_circuits
    (<[circuit_id := mkUninitializedCircuit (Some p)
         ({[node_id sh]} ∪ uc_ready_members (uninitialized circuit_id sh))]>
       (uninitialized_circuits sh)) sh);;
  initialize_services_if_members_ready circuit_id.

Definition add_ready_member (circuit_id member_node_id : string) : admin_eff AdminSharedError () :=
  on_shared (λ sh, set_uninitialized_circuits
    (<[circuit_id := mkUninitializedCircuit (uc_circuit (uninitialized circuit_id sh))
         ({[member_node_id]} ∪ uc_ready_members (uninitialized circuit_id sh))]>
       (uninitialized_circuits sh)) sh);;
  initialize_services_if_members_ready circuit_id.

(** ** [commit] *)

(** MEMBER_READY, to the other members of the circuit. *)
Fixpoint send_member_ready (l : list Proto.SplinterNode) (b : bytes) :
    admin_eff AdminSharedError () :=
  match l with
  | [] => mret ()
  | member :: l =>
      s ← get;
      (if bool_decide (Proto.node_id member ≠ node_id (shared s)) then
         emap_err (λ _, ServiceSendError)
           (in_world (service_send (admin_service_id (Proto.node_id member)) b))
       else mret ());;
      send_member_ready l b
  end.

Definition announce_ready (c : Proto.Circuit) : admin_eff AdminSharedError () :=
  s ← get;
  if network_sender (shared s) then
    b ← lift (ok_or (InvalidMessageFormat ProtobufError)
          (write_to_bytes (Proto.AdminMemberReady
             (Proto.mkMemberReady (Proto.circuit_id c) (node_id (shared s))))));
    send_member_ready (Proto.members c) b
  else mret ().

Definition commit_accepted (p : Proto.CircuitProposal) (signer : bytes) :
    admin_eff AdminSharedError () :=
  let c := Proto.cp_circuit_proposal p in
  update_splinter_state c;;
  remove_proposal (Proto.cp_circuit_id p);;
  msg ← lift (event_message p);
  send_event (Proto.circuit_management_type c) (Msg.ProposalAccepted msg signer);;
  announce_ready c;;
  add_uninitialized_circuit p.

Definition commit_pending (p : Proto.CircuitProposal) (action : Proto.Action) (signer : bytes) :
    admin_eff AdminSharedError () :=
  add_proposal p;;
  let mgmt_type := Proto.circuit_management_type (Proto.cp_circuit_proposal p) in
  match action with
  | Proto.CIRCUIT_CREATE_REQUEST =>
      msg ← lift (event_message p);
      send_event mgmt_type (Msg.ProposalSubmitted msg)
  | Proto.CIRCUIT_PROPOSAL_VOTE =>
      msg ← lift (event_message p);
      send_event mgmt_type (Msg.ProposalVote msg signer)
  | _ => throw UnknownAction
  end.

Definition commit_rejected (p : Proto.CircuitProposal) (signer : bytes) :
    admin_eff AdminSharedError () :=
  remove_proposal (Proto.cp_circuit_id p);;
  msg ← lift (event_message p);
  send_event (Proto.circuit_management_type (Proto.cp_circuit_proposal p))
    (Msg.ProposalRejected msg signer).

Definition commit : admin_eff AdminSharedError () :=
  s ← get;
  on_shared (set_pending_changes None);;
  match pending_changes (shared s) with
  | Some ctx =>
      let p := cpc_circuit_proposal ctx in
      match check_approved p with
      | Accepted => commit_accepted p (cpc_signer_public_key ctx)
      | Pending => commit_pending p (cpc_action ctx) (cpc_signer_public_key ctx)
      | Rejected => commit_rejected p (cpc_signer_public_key ctx)
      end
  | None => throw NoPendingChanges
  end.
End commit.
