(* ===== verification/AdminProps.v ===== *)
(** * What the admin service guarantees: validation and voting

    What a circuit must satisfy to be proposed, when a proposal is approved, and
    what a proposed change is. *)

From S2P Require Import Prelude Storage Circuit Keys Consensus AdminMessages OpenProposals.
From S2P Require Import AdminShared.

(** ** Valid circuits *)

Definition member_ids (c : Proto.Circuit) : list string := Proto.node_id <$> Proto.members c.

(** A circuit that the admin service of [node] accepts. *)
Record circuit_valid (node : string) (c : Proto.Circuit) : Prop := {
  valid_auth : Proto.authorization_type c = Proto.TRUST_AUTHORIZATION;
  valid_persistence : Proto.persistence c = Proto.ANY_PERSISTENCE;
  valid_durability : Proto.durability c = Proto.NO_DURABILITY;
  valid_routes : Proto.routes c = Proto.ANY_ROUTE;
  valid_id : Proto.circuit_id c ≠ "";
  valid_type : Proto.circuit_management_type c ≠ "";
  valid_members : NoDup (member_ids c) ∧ ("" ∉ member_ids c);
  valid_endpoints :
    NoDup (Proto.endpoint <$> Proto.members c) ∧ ("" ∉ Proto.endpoint <$> Proto.members c);
  valid_node : node ∈ member_ids c;
  valid_services :
    NoDup (Proto.service_id <$> Proto.roster c) ∧ ("" ∉ Proto.service_id <$> Proto.roster c);
  valid_roster : Proto.roster c ≠ [];
  valid_allowed s : s ∈ Proto.roster c → ∃ n, Proto.allowed_nodes s = [n] ∧ n ∈ member_ids c;
}.

Lemma check_bind {A} b msg (k : result AdminSharedError A) a :
  (check b msg;; k) = Ok a ↔ b = true ∧ k = Ok a.
Proof. by destruct b; cbn; naive_solver. Qed.

Lemma check_ok b msg : check b msg = Ok () ↔ b = true.
Proof. by destruct b. Qed.

Lemma not_empty s : negb (is_empty s) = true ↔ s ≠ "".
Proof. by destruct s. Qed.

Lemma NoDup_snoc_app {A} (l k : list A) x :
  NoDup (l ++ x :: k) ↔ (x ∉ l) ∧ NoDup ((l ++ [x]) ++ k).
Proof.
  rewrite <-app_assoc. cbn. split; [|naive_solver]. intros Hn. split; [|done].
  apply NoDup_app in Hn as (_ & Hn & _). intros Hx. apply (Hn x Hx). set_solver.
Qed.

Lemma validate_members_ok ms es l ms' :
  NoDup ms → NoDup es →
  validate_members ms es l = Ok ms' ↔
    ms' = ms ++ (Proto.node_id <$> l) ∧
    NoDup (ms ++ (Proto.node_id <$> l)) ∧ ("" ∉ Proto.node_id <$> l) ∧
    NoDup (es ++ (Proto.endpoint <$> l)) ∧ ("" ∉ Proto.endpoint <$> l).
Proof.
  revert ms es. induction l as [|m l IH]; intros ms es Hms Hes; cbn.
  { rewrite !app_nil_r. split; [intros [= ->]; set_solver|naive_solver]. }
  rewrite !check_bind, !not_empty, !bool_decide_eq_true.
  assert (∀ (k : list string) x, NoDup k → x ∉ k → NoDup (k ++ [x])) as Hsnoc.
  { intros k x Hk Hx. apply NoDup_app. split_and!; [done|set_solver|apply NoDup_singleton]. }
  rewrite !NoDup_snoc_app, !not_elem_of_cons. split.
  - intros (H1 & H2 & H3 & H4 & H5). apply IH in H5; [|auto..].
    rewrite <-app_assoc in H5. cbn in H5. rewrite <-!app_assoc in *. cbn in *. naive_solver.
  - intros (-> & [H2 H2'] & [H1 H1'] & [H4 H4'] & [H3 H3']).
    split_and!; [done..|]. apply IH; [auto..|]. rewrite <-app_assoc. cbn.
    rewrite NoDup_snoc_app. done.
Qed.

(** One service of the roster: it is allowed on one node, a member. *)
Lemma validate_allowed_ok {A} (members allowed : list string) (k : result AdminSharedError A) a :
  (check (bool_decide (allowed ≠ [])) "Service cannot have an empty allowed nodes list";;
   check (bool_decide (length allowed ≤ 1)) "Only one allowed node for a service is supported";;
   match find (λ node, bool_decide (node ∉ members)) allowed with
   | Some node => Err (ValidationFailed
       ("Service cannot have an allowed node that is not in members: " +:+ node))
   | None => Ok ()
   end;; k) = Ok a ↔ (∃ n, allowed = [n] ∧ n ∈ members) ∧ k = Ok a.
Proof.
  rewrite !check_bind, !bool_decide_eq_true. destruct allowed as [|n [|n' allowed]].
  - naive_solver.
  - cbn. case_bool_decide as Hn; cbn; [naive_solver|].
    split; [|naive_solver lia]. intros (_ & _ & ?). split; [|done]. exists n.
    split; [done|]. by destruct (decide (n ∈ members)).
  - split; [cbn; naive_solver lia|naive_solver].
Qed.

Lemma validate_services_ok ms ss l :
  NoDup ss →
  validate_services ms ss l = Ok () ↔
    (∀ s, s ∈ l → ∃ n, Proto.allowed_nodes s = [n] ∧ n ∈ ms) ∧
    NoDup (ss ++ (Proto.service_id <$> l)) ∧ ("" ∉ Proto.service_id <$> l).
Proof.
  revert ss. induction l as [|s l IH]; intros ss Hss; cbn.
  { rewrite app_nil_r. split; [intros _; set_solver|done]. }
  rewrite validate_allowed_ok, !check_bind, not_empty, bool_decide_eq_true.
  rewrite NoDup_snoc_app, not_elem_of_cons. split.
  - intros (H1 & H2 & H3 & H4). apply IH in H4 as (H4 & H5 & H6).
    + split_and!; [|done..]. intros s'. rewrite elem_of_cons. naive_solver.
    + apply NoDup_app. split_and!; [done|set_solver|apply NoDup_singleton].
  - intros (H1 & [H2 H2'] & [H3 H3']). split_and!; [apply H1; set_solver|done..|].
    apply IH.
    + by apply NoDup_app in H2' as [? _].
    + split_and!; [|done..]. intros s' ?. apply H1. set_solver.
Qed.

Lemma validate_circuit_iff node c : validate_circuit node c = Ok () ↔ circuit_valid node c.
Proof.
  unfold validate_circuit. rewrite !check_bind, !bool_decide_eq_true, !not_empty. split.
  - intros (Ha & Hp & Hd & Hr & Hid & Hty & Hms).
    destruct (validate_members [] [] (Proto.members c)) as [ms|] eqn:Hm; cbn in Hms; [|done].
    apply validate_members_ok in Hm as (-> & Hm1 & Hm2 & Hm3 & Hm4); [|constructor..].
    rewrite !check_bind, !bool_decide_eq_true in Hms. destruct Hms as (_ & Hn & Hro & Hs).
    destruct (validate_services _ [] (Proto.roster c)) as [[]|] eqn:Hs'; cbn in Hs; [|done].
    apply validate_services_ok in Hs' as (Hs1 & Hs2 & Hs3); [|constructor].
    split; try done; [by destruct (Proto.authorization_type c)|by destruct (Proto.persistence c)
      |by destruct (Proto.durability c)|by destruct (Proto.routes c)].
  - intros [Ha Hp Hd Hr Hid Hty [Hm1 Hm2] [Hm3 Hm4] Hn [Hs1 Hs2] Hro Hal].
    rewrite Ha, Hp, Hd, Hr. split_and!; [done..|].
    rewrite (proj2 (validate_members_ok [] [] _ (member_ids c) (NoDup_nil_2) (NoDup_nil_2))) by done.
    cbn [mbind result_bind]. rewrite !check_bind, !bool_decide_eq_true.
    split_and!; [intros Hnil; rewrite Hnil in Hn; set_solver|done..|].
    rewrite (proj2 (validate_services_ok (member_ids c) [] _ NoDup_nil_2)) by done.
    cbn [mbind result_bind]. by rewrite check_ok, not_empty.
Qed.

(** C35: the admin service of a node accepts a circuit exactly when it is valid:
    every setting is set, the circuit and its management type are named, members,
    endpoints and services are named and unique, the node is a member, there is a
    service, and every service is allowed on exactly one node, which is a
    member. *)
Theorem validate_circuit_spec node c : validate_circuit node c = Ok () ↔ circuit_valid node c.
Proof. apply validate_circuit_iff. Qed.

(** ** Approval *)

Definition voters (p : Proto.CircuitProposal) : list string :=
  Proto.vr_voter_node_id <$> Proto.cp_votes p.

(** The members whose consent a proposal needs. *)
Definition required_voter (p : Proto.CircuitProposal) (n : string) : Prop :=
  n ∈ member_ids (Proto.cp_circuit_proposal p) ∧ n ≠ Proto.cp_requester_node_id p.

Definition no_rejection (p : Proto.CircuitProposal) : Prop :=
  Forall (λ v, Proto.vr_vote v ≠ Proto.REJECT_VOTE) (Proto.cp_votes p).

Lemma received_votes_spec votes received :
  match received_votes votes received with
  | None => ¬ Forall (λ v, Proto.vr_vote v ≠ Proto.REJECT_VOTE) votes
  | Some r =>
      Forall (λ v, Proto.vr_vote v ≠ Proto.REJECT_VOTE) votes ∧
      r = list_to_set (Proto.vr_voter_node_id <$> votes) ∪ received
  end.
Proof.
  revert received. induction votes as [|v votes IH]; intros received; cbn.
  { split; [constructor|set_solver]. }
  case_bool_decide as Hv; [rewrite Forall_cons; naive_solver|].
  specialize (IH ({[Proto.vr_voter_node_id v]} ∪ received)).
  destruct (received_votes _ _); rewrite Forall_cons; [|naive_solver].
  destruct IH as [? ->]. split; [done|set_solver].
Qed.

Lemma check_approved_cases p :
  match check_approved p with
  | Rejected => ¬ no_rejection p
  | Accepted => no_rejection p ∧ ∀ n, n ∈ voters p ↔ required_voter p n
  | Pending => no_rejection p ∧ ¬ ∀ n, n ∈ voters p ↔ required_voter p n
  end.
Proof.
  unfold check_approved. pose proof (received_votes_spec (Proto.cp_votes p) ∅) as Hr.
  destruct (received_votes _ _) as [r|]; [|done]. destruct Hr as [Hr ->].
  unfold required_voter, voters, member_ids. case_bool_decide as Heq; (split; [done|]).
  - intros n. rewrite set_eq in Heq. specialize (Heq n). set_solver.
  - intros Hn. apply Heq, set_eq. intros n. specialize (Hn n). set_solver.
Qed.

(** a circuit proposal is rejected exactly when some vote rejects it,
    accepted exactly when no vote does and the nodes that voted are exactly the
    members other than the one that requested the circuit, and pending
    otherwise. *)
Theorem check_approved_spec p :
  (check_approved p = Rejected ↔
     ∃ v, v ∈ Proto.cp_votes p ∧ Proto.vr_vote v = Proto.REJECT_VOTE) ∧
  (check_approved p = Accepted ↔
     (∀ v, v ∈ Proto.cp_votes p → Proto.vr_vote v ≠ Proto.REJECT_VOTE) ∧
     ∀ n, n ∈ voters p ↔ required_voter p n).
Proof.
  assert (no_rejection p ↔ ∀ v, v ∈ Proto.cp_votes p → Proto.vr_vote v ≠ Proto.REJECT_VOTE)
    as <- by apply Forall_forall.
  assert (¬ no_rejection p ↔ ∃ v, v ∈ Proto.cp_votes p ∧ Proto.vr_vote v = Proto.REJECT_VOTE)
    as <-.
  { unfold no_rejection. rewrite <-Exists_exists, Forall_forall. split.
    - intros Hn. destruct (decide (Exists (λ v, Proto.vr_vote v = Proto.REJECT_VOTE)
        (Proto.cp_votes p))) as [|He]; [done|]. contradict Hn. intros v Hv Hr.
      apply He, Exists_exists. eauto.
    - rewrite Exists_exists. naive_solver. }
  pose proof (check_approved_cases p) as Hc.
  destruct (check_approved p); split; split; try done; tauto.
Qed.
