(* ===== verification/AtomicCommit.v ===== *)
(** * Atomic commitment, abstractly

    The contract of two-phase commit: peers vote for proposals, the coordinator
    of a proposal decides it, once and for all, and only with the votes of all
    its verifiers if the decision is to accept, and the other peers learn what
    the coordinator decided.  [TwoPhaseNetwork] shows that a network of
    two-phase engines implements it. *)

From S2P Require Import Prelude Consensus.
From stdpp Require Import functions relations.

Record spec := mkSpec {
  votes : PeerId → list ProposalId;
  outcomes : PeerId → list (ProposalId * bool);
}.

Definition spec_init : spec := mkSpec (λ _, []) (λ _, []).

Definition cast_vote (i : PeerId) (id : ProposalId) (s : spec) : spec :=
  mkSpec (<[i := id :: votes s i]> (votes s)) (outcomes s).
Definition record_outcome (i : PeerId) (o : ProposalId * bool) (s : spec) : spec :=
  mkSpec (votes s) (<[i := o :: outcomes s i]> (outcomes s)).

Section atomic_commit.
Context (verifs : ProposalId → gset PeerId) (coord : ProposalId → PeerId).

Inductive spec_step : spec → spec → Prop :=
  | spec_vote s i id : spec_step s (cast_vote i id s)
  | spec_decide s id d :
      (id, negb d) ∉ outcomes s (coord id) →
      (d = true → ∀ v, v ∈ verifs id → id ∈ votes s v) →
      spec_step s (record_outcome (coord id) (id, d) s)
  | spec_learn s i id d :
      (id, d) ∈ outcomes s (coord id) →
      spec_step s (record_outcome i (id, d) s).

(** ** The contract *)

Record spec_ok (s : spec) : Prop := {
  spec_learnt i id d : (id, d) ∈ outcomes s i → (id, d) ∈ outcomes s (coord id);
  spec_decided id : (id, true) ∈ outcomes s (coord id) → (id, false) ∉ outcomes s (coord id);
  spec_voted id : (id, true) ∈ outcomes s (coord id) → ∀ v, v ∈ verifs id → id ∈ votes s v;
}.

Lemma elem_of_outcomes s i o j x :
  x ∈ outcomes (record_outcome i o s) j ↔ (j = i ∧ x = o) ∨ x ∈ outcomes s j.
Proof.
  cbn. destruct (decide (j = i)) as [->|].
  - rewrite fn_lookup_insert, elem_of_cons. naive_solver.
  - rewrite fn_lookup_insert_ne by done. naive_solver.
Qed.

Lemma elem_of_votes s i id j x :
  x ∈ votes (cast_vote i id s) j ↔ (j = i ∧ x = id) ∨ x ∈ votes s j.
Proof.
  cbn. destruct (decide (j = i)) as [->|].
  - rewrite fn_lookup_insert, elem_of_cons. naive_solver.
  - rewrite fn_lookup_insert_ne by done. naive_solver.
Qed.

Lemma spec_step_ok s s' : spec_step s s' → spec_ok s → spec_ok s'.
Proof.
  intros [s0 i id|s0 id d Hd Hv|s0 i id d Hd] [Hl Hx Hu].
  - split; [done..|]. intros id' Ho v Hin. apply elem_of_votes. right. by eapply Hu.
  - split; intros *; rewrite ?elem_of_outcomes; cbn [votes record_outcome].
    + intros [[-> [= -> ->]]|?]; [by left|right; eauto].
    + intros [[_ [= -> <-]]|Ho] [[_ [= ]]|Ho']; [done| |by eapply Hx].
      subst. done.
    + intros [[_ [= -> <-]]|?]; eauto.
  - split; intros *; rewrite ?elem_of_outcomes; cbn [votes record_outcome].
    + intros [[-> [= -> ->]]|?]; eauto.
    + intros [[? [= -> <-]]|Ho] [[? [= ]]|Ho']; subst; try by eapply Hx; eauto.
    + intros [[? [= -> <-]]|?]; eauto.
Qed.

Lemma spec_reachable_ok s : rtc spec_step spec_init s → spec_ok s.
Proof.
  intros Hs. assert (spec_ok spec_init) as Hi by (split; cbn; set_solver).
  induction Hs; eauto using spec_step_ok.
Qed.

(** ** Sequences of steps *)

Lemma cast_votes_steps i ids s :
  rtc spec_step s (foldr (cast_vote i) s ids).
Proof.
  induction ids as [|id ids IH]; [done|]. cbn. eapply rtc_r; [done|constructor].
Qed.

Lemma votes_foldr i ids s j :
  votes (foldr (cast_vote i) s ids) j = (if decide (j = i) then ids else []) ++ votes s j.
Proof.
  induction ids as [|id ids IH]; cbn; [by case_decide|]. case_decide as Hj.
  - subst. by rewrite fn_lookup_insert, IH.
  - by rewrite fn_lookup_insert_ne, IH.
Qed.

Lemma outcomes_foldr_vote i ids s : outcomes (foldr (cast_vote i) s ids) = outcomes s.
Proof. by induction ids. Qed.

Lemma outcomes_foldr i os s j :
  outcomes (foldr (record_outcome i) s os) j = (if decide (j = i) then os else []) ++ outcomes s j.
Proof.
  induction os as [|o os IH]; cbn; [by case_decide|]. case_decide as Hj.
  - subst. by rewrite fn_lookup_insert, IH.
  - by rewrite fn_lookup_insert_ne, IH.
Qed.

Lemma votes_foldr_outcome i os s : votes (foldr (record_outcome i) s os) = votes s.
Proof. by induction os. Qed.

(** Peer [i] may record the outcomes [os], the last one first. *)
Lemma record_outcomes_steps i os s :
  (∀ id d, (id, d) ∈ os →
     if decide (coord id = i) then
       ((id, negb d) ∉ os ++ outcomes s i) ∧
       (d = true → ∀ v, v ∈ verifs id → id ∈ votes s v)
     else (id, d) ∈ outcomes s (coord id)) →
  rtc spec_step s (foldr (record_outcome i) s os).
Proof.
  induction os as [|[id d] os IH]; intros Hos; cbn; [done|].
  eapply rtc_r.
  { apply IH. intros id' d' Hin. specialize (Hos id' d' ltac:(by right)). case_decide; [|done].
    split; [|naive_solver]. rewrite elem_of_app in *. set_solver. }
  specialize (Hos id d ltac:(left)). case_decide as Hi.
  - subst i. destruct Hos as [Hne Hv]. constructor.
    + rewrite outcomes_foldr, decide_True by done. set_solver.
    + by rewrite votes_foldr_outcome.
  - constructor. by rewrite outcomes_foldr, decide_False.
Qed.
End atomic_commit.
