(* ===== verification/TwoPhase.v ===== *)
(** * The two-phase commit engine

    Models [libsplinter/src/consensus/two_phase/mod.rs].  The engine's methods
    take the [ProposalManager] and the [ConsensusNetworkSender] as trait
    objects: here they are any instances of the two classes on a world [W],
    and a method is an [eff] computation on the engine paired with the world. *)

From S2P Require Import Prelude Consensus.
From Stdlib Require Import ZArith.

(** ** Messages ([protos/two_phase.proto]) *)

Inductive TwoPhaseMessage_Type :=
  | UNSET_TYPE
  | PROPOSAL_VERIFICATION_REQUEST
  | PROPOSAL_VERIFICATION_RESPONSE
  | PROPOSAL_RESULT.

Inductive TwoPhaseMessage_ProposalVerificationResponse :=
  | UNSET_VERIFICATION_RESPONSE
  | VERIFIED
  | FAILED.

Inductive TwoPhaseMessage_ProposalResult :=
  | UNSET_RESULT
  | APPLY
  | REJECT.

Record TwoPhaseMessage := mkTwoPhaseMessage {
  tpm_message_type : TwoPhaseMessage_Type;
  tpm_proposal_id : bytes;
  tpm_proposal_verification_response : TwoPhaseMessage_ProposalVerificationResponse;
  tpm_proposal_result : TwoPhaseMessage_ProposalResult;
}.

Record RequiredVerifiers := mkRequiredVerifiers { verifiers : list bytes }.

(** The three messages the engine sends. *)
Definition verification_request (id : ProposalId) : TwoPhaseMessage :=
  mkTwoPhaseMessage PROPOSAL_VERIFICATION_REQUEST id UNSET_VERIFICATION_RESPONSE UNSET_RESULT.
Definition verification_response (id : ProposalId)
    (r : TwoPhaseMessage_ProposalVerificationResponse) : TwoPhaseMessage :=
  mkTwoPhaseMessage PROPOSAL_VERIFICATION_RESPONSE id r UNSET_RESULT.
Definition proposal_result (id : ProposalId) (r : TwoPhaseMessage_ProposalResult) :
    TwoPhaseMessage :=
  mkTwoPhaseMessage PROPOSAL_RESULT id UNSET_VERIFICATION_RESPONSE r.

(** ** State *)

Record TwoPhaseProposal := mkTwoPhaseProposal {
  tpp_proposal_id : ProposalId;
  tpp_coordinator_id : PeerId;
  tpp_peers_verified : gset PeerId;
  tpp_required_verifiers : gset PeerId;
}.

(** [TwoPhaseProposal::new] *)
Definition two_phase_proposal_new (id : ProposalId) (coordinator : PeerId)
    (required : gset PeerId) : TwoPhaseProposal :=
  mkTwoPhaseProposal id coordinator ∅ required.

Definition add_verified_peer (p : TwoPhaseProposal) (id : PeerId) : TwoPhaseProposal :=
  mkTwoPhaseProposal (tpp_proposal_id p) (tpp_coordinator_id p)
    ({[ id ]} ∪ tpp_peers_verified p) (tpp_required_verifiers p).

Inductive State :=
  | Idle
  | AwaitingProposal
  | EvaluatingProposal (p : TwoPhaseProposal).

Record TwoPhaseEngine := mkTwoPhaseEngine {
  eng_id : PeerId;
  eng_peers : gset PeerId;
  eng_state : State;
  eng_coordinator_timeout : Timeout;
  eng_proposal_backlog : list TwoPhaseProposal;
  eng_verification_request_backlog : list ProposalId;
}.

Definition DEFAULT_COORDINATOR_TIMEOUT_MILLIS : Z := 5000.

(** [TwoPhaseEngine::new] and [default]; [t] is the time of the call. *)
Definition two_phase_engine_new (t duration : Z) : TwoPhaseEngine :=
  mkTwoPhaseEngine "" ∅ Idle (timeout_new t duration) [] [].
Definition two_phase_engine_default (t : Z) : TwoPhaseEngine :=
  two_phase_engine_new t DEFAULT_COORDINATOR_TIMEOUT_MILLIS.

(** Field assignments. *)
Definition set_state (s : State) (e : TwoPhaseEngine) : TwoPhaseEngine :=
  mkTwoPhaseEngine (eng_id e) (eng_peers e) s (eng_coordinator_timeout e)
    (eng_proposal_backlog e) (eng_verification_request_backlog e).
Definition set_timeout (t : Timeout) (e : TwoPhaseEngine) : TwoPhaseEngine :=
  mkTwoPhaseEngine (eng_id e) (eng_peers e) (eng_state e) t
    (eng_proposal_backlog e) (eng_verification_request_backlog e).
Definition set_proposal_backlog (l : list TwoPhaseProposal) (e : TwoPhaseEngine) :
    TwoPhaseEngine :=
  mkTwoPhaseEngine (eng_id e) (eng_peers e) (eng_state e) (eng_coordinator_timeout e)
    l (eng_verification_request_backlog e).
Definition set_request_backlog (l : list ProposalId) (e : TwoPhaseEngine) : TwoPhaseEngine :=
  mkTwoPhaseEngine (eng_id e) (eng_peers e) (eng_state e) (eng_coordinator_timeout e)
    (eng_proposal_backlog e) l.

Definition push_proposal (p : TwoPhaseProposal) (e : TwoPhaseEngine) : TwoPhaseEngine :=
  set_proposal_backlog (eng_proposal_backlog e ++ [p]) e.
Definition push_request (id : ProposalId) (e : TwoPhaseEngine) : TwoPhaseEngine :=
  set_request_backlog (eng_verification_request_backlog e ++ [id]) e.

(** [evaluating_proposal] *)
Definition evaluating_proposal (id : ProposalId) (e : TwoPhaseEngine) : bool :=
  match eng_state e with
  | EvaluatingProposal p => bool_decide (tpp_proposal_id p = id)
  | _ => false
  end.

Definition has_id (id : ProposalId) (p : TwoPhaseProposal) : bool :=
  bool_decide (tpp_proposal_id p = id).

(** [verifiers.iter().min()]: the least peer id, whatever the iteration order of
    the hash set. *)
Definition min_peer (s : gset PeerId) : option PeerId :=
  foldr (λ x acc, Some (match acc with
                        | Some y => if bool_decide (String.le x y) then x else y
                        | None => x
                        end)) None (elements s).

Section engine.
Context {W : Type} `{!Codec TwoPhaseMessage, !Codec RequiredVerifiers}
  `{!ProposalManager W, !ConsensusNetworkSender W, !Clock W}.

Abbreviation engine_eff := (eff (TwoPhaseEngine * W) ConsensusEngineError).

Definition self_ : engine_eff TwoPhaseEngine := λ s, (Ok s.1, s).
Definition update (f : TwoPhaseEngine → TwoPhaseEngine) : engine_eff () :=
  λ s, (Ok (), (f s.1, s.2)).
Definition instant_now : engine_eff Z := λ s, (Ok (now s.2), s).
(** A call on [proposal_manager] or [network_sender] followed by [?]: the
    error is converted by [From]. *)
Definition manager {A} (m : eff W ProposalManagerError A) : engine_eff A :=
  λ s, let '(r, w) := m s.2 in (map_err EngineManagerError r, (s.1, w)).
Definition network {A} (m : eff W ConsensusSendError A) : engine_eff A :=
  λ s, let '(r, w) := m s.2 in (map_err EngineSendError r, (s.1, w)).
Definition proto {A} (o : option A) : engine_eff A :=
  lift (ok_or EngineProtobufError o).

(** [complete_coordination] *)
Definition complete_coordination (id : ProposalId) (result : TwoPhaseMessage_ProposalResult) :
    engine_eff () :=
  let finish : engine_eff () :=
    update (set_state Idle);;
    update (λ e, set_timeout (stop (eng_coordinator_timeout e)) e);;
    b ← proto (write_to_bytes (proposal_result id result));
    network (broadcast b) in
  match result with
  | APPLY => manager (accept_proposal id None);; finish
  | REJECT => manager (reject_proposal id);; finish
  | UNSET_RESULT => mret ()
  end.

(** [start_coordination] *)
Definition start_coordination (p : TwoPhaseProposal) : engine_eff () :=
  r ← attempt (manager (check_proposal (tpp_proposal_id p)));
  match r with
  | Ok _ =>
      update (set_state (EvaluatingProposal p));;
      t ← instant_now;
      update (λ e, set_timeout (start t (eng_coordinator_timeout e)) e)
  | Err _ => complete_coordination (tpp_proposal_id p) REJECT
  end.

(** The verifiers of a proposal, as [handle_proposal] computes them: those of the
    consensus data when it is not empty, otherwise every peer and this node. *)
Definition proposal_verifiers (e : TwoPhaseEngine) (p : Proposal) : option (gset PeerId) :=
  if is_empty (consensus_data p) then Some ({[ eng_id e ]} ∪ eng_peers e)
  else (λ r, list_to_set (verifiers r)) <$> parse_from_bytes (consensus_data p).

(** [handle_proposal] *)
Definition handle_proposal (p : Proposal) : engine_eff () :=
  e ← self_;
  if existsb (has_id (proposal_id p)) (eng_proposal_backlog e) then mret ()
  else
    vs ← proto (proposal_verifiers e p);
    match min_peer vs with
    | None =>
        manager (reject_proposal (proposal_id p));;
        update (set_state Idle)
    | Some coordinator =>
        let tp := two_phase_proposal_new (proposal_id p) coordinator vs in
        match eng_state e with
        | EvaluatingProposal current =>
            if bool_decide (tpp_proposal_id tp = tpp_proposal_id current) then mret ()
            else update (push_proposal tp)
        | _ =>
            if bool_decide (eng_id e = tpp_coordinator_id tp) then start_coordination tp
            else update (push_proposal tp)
        end
    end.

(** [handle_consensus_msg] *)
Definition handle_consensus_msg (cm : ConsensusMessage) : engine_eff () :=
  msg ← proto (parse_from_bytes (message cm));
  let id := tpm_proposal_id msg in
  match tpm_message_type msg with
  | PROPOSAL_VERIFICATION_REQUEST =>
      e ← self_;
      let find_in_backlog : engine_eff () :=
        match position (has_id id) (eng_proposal_backlog e) with
        | Some idx =>
            manager (check_proposal id);;
            match remove_at idx (eng_proposal_backlog e) with
            | Some (p, backlog) =>
                update (λ e, set_state (EvaluatingProposal p) (set_proposal_backlog backlog e))
            | None => mret () (* [unwrap] of an index [position] returned *)
            end
        | None => update (push_request id)
        end in
      match eng_state e with
      | EvaluatingProposal p =>
          if bool_decide (tpp_proposal_id p ≠ id) then update (push_request id)
          else find_in_backlog
      | _ => find_in_backlog
      end
  | PROPOSAL_VERIFICATION_RESPONSE =>
      e ← self_;
      if negb (evaluating_proposal id e) then mret ()
      else
        match tpm_proposal_verification_response msg with
        | VERIFIED =>
            match eng_state e with
            | EvaluatingProposal p =>
                let p' := add_verified_peer p (origin_id cm) in
                update (set_state (EvaluatingProposal p'));;
                if bool_decide (tpp_peers_verified p' = tpp_required_verifiers p')
                then complete_coordination id APPLY
                else mret ()
            | _ => mret ()
            end
        | FAILED => complete_coordination id REJECT
        | UNSET_VERIFICATION_RESPONSE => mret ()
        end
  | PROPOSAL_RESULT =>
      match tpm_proposal_result msg with
      | APPLY =>
          e ← self_;
          if evaluating_proposal id e then
            manager (accept_proposal id None);;
            update (set_state Idle)
          else mret ()
      | REJECT =>
          manager (reject_proposal id);;
          e ← self_;
          if evaluating_proposal id e then update (set_state Idle) else mret ()
      | UNSET_RESULT => mret ()
      end
  | UNSET_TYPE => mret ()
  end.

(** [handle_proposal_update] *)
Definition handle_proposal_update (u : ProposalUpdate) : engine_eff () :=
  match u with
  | ProposalCreated None =>
      e ← self_;
      match eng_state e with
      | AwaitingProposal => update (set_state Idle)
      | _ => mret ()
      end
  | ProposalCreated (Some p) => handle_proposal p
  | ProposalReceived p _ => handle_proposal p
  | ProposalValid id =>
      e ← self_;
      match eng_state e with
      | EvaluatingProposal p =>
          if bool_decide (tpp_proposal_id p = id) then
            if bool_decide (eng_id e = tpp_coordinator_id p) then
              update (set_state (EvaluatingProposal (add_verified_peer p (eng_id e))));;
              b ← proto (write_to_bytes (verification_request id));
              network (broadcast b)
            else
              b ← proto (write_to_bytes (verification_response id VERIFIED));
              network (send_to (tpp_coordinator_id p) b)
          else mret ()
      | _ => mret ()
      end
  | ProposalInvalid id =>
      e ← self_;
      match eng_state e with
      | EvaluatingProposal p =>
          if bool_decide (tpp_proposal_id p = id) then
            if bool_decide (eng_id e = tpp_coordinator_id p) then
              complete_coordination id REJECT
            else
              b ← proto (write_to_bytes (verification_response id FAILED));
              network (send_to (tpp_coordinator_id p) b)
          else mret ()
      | _ => mret ()
      end
  | ProposalAccepted _ => mret ()
  | ProposalAcceptFailed _ _ => mret ()
  | Shutdown => mret ()
  end.

(** [abort_proposal_if_timed_out] *)
Definition abort_proposal_if_timed_out : engine_eff () :=
  e ← self_;
  match eng_state e with
  | EvaluatingProposal p =>
      t ← instant_now;
      let '(expired, timeout) := check_expired t (eng_coordinator_timeout e) in
      update (set_timeout timeout);;
      if expired then complete_coordination (tpp_proposal_id p) REJECT else mret ()
  | _ => mret ()
  end.

(** [handle_backlogged_verification_request] *)
Definition handle_backlogged_verification_request : engine_eff () :=
  e ← self_;
  match eng_state e with
  | Idle =>
      match position (λ id, existsb (has_id id) (eng_proposal_backlog e))
              (eng_verification_request_backlog e) with
      | Some idx =>
          match remove_at idx (eng_verification_request_backlog e) with
          | Some (id, requests) =>
              update (set_request_backlog requests);;
              match position (has_id id) (eng_proposal_backlog e)
                      ≫= (λ i, remove_at i (eng_proposal_backlog e)) with
              | Some (p, backlog) =>
                  update (set_proposal_backlog backlog);;
                  manager (check_proposal id);;
                  update (set_state (EvaluatingProposal p))
              | None => mret () (* [unwrap]: the request was chosen for a backlogged id *)
              end
          | None => mret ()
          end
      | None => mret ()
      end
  | _ => mret ()
  end.

(** [get_next_proposal] *)
Definition get_next_proposal : engine_eff () :=
  e ← self_;
  match eng_state e with
  | Idle =>
      match position (λ p, bool_decide (tpp_coordinator_id p = eng_id e))
              (eng_proposal_backlog e)
              ≫= (λ i, remove_at i (eng_proposal_backlog e)) with
      | Some (p, backlog) =>
          update (set_proposal_backlog backlog);;
          catch_log (start_coordination p)
      | None =>
          r ← attempt (manager (create_proposal None ""));
          match r with
          | Ok _ => update (set_state AwaitingProposal)
          | Err _ => mret ()
          end
      end
  | _ => mret ()
  end.

(** One iteration of the loop of [run]; the result says whether the loop goes
    on. *)
Definition run_iteration (m : recv ConsensusMessage) (u : recv ProposalUpdate) :
    engine_eff bool :=
  catch_log abort_proposal_if_timed_out;;
  catch_log handle_backlogged_verification_request;;
  catch_log get_next_proposal;;
  match m with
  | Disconnected => mret false
  | _ =>
      match m with Received cm => catch_log (handle_consensus_msg cm) | _ => mret () end;;
      match u with
      | Received Shutdown => mret false
      | Received u => catch_log (handle_proposal_update u);; mret true
      | RecvTimeout => mret true
      | Disconnected => mret false
      end
  end.

(** [run]: the engine takes its identity and peers from the startup state and
    loops over what the two channels deliver.  The loop itself is unbounded; it
    is run here on a finite prefix [inputs] of the deliveries, and returns
    whether it is still running after it. *)
Fixpoint run_loop (inputs : list (recv ConsensusMessage * recv ProposalUpdate)) :
    engine_eff bool :=
  match inputs with
  | [] => mret true
  | (m, u) :: inputs =>
      continue ← run_iteration m u;
      if (continue : bool) then run_loop inputs else mret false
  end.

Definition startup (ss : StartupState) (e : TwoPhaseEngine) : TwoPhaseEngine :=
  mkTwoPhaseEngine (ss_id ss) (list_to_set (ss_peer_ids ss) ∪ eng_peers e) (eng_state e)
    (eng_coordinator_timeout e) (eng_proposal_backlog e) (eng_verification_request_backlog e).

Definition run (ss : StartupState) (inputs : list (recv ConsensusMessage * recv ProposalUpdate)) :
    engine_eff bool :=
  update (startup ss);; run_loop inputs.
End engine.
