(* ===== verification/AdminConsensus.v ===== *)
(** * The admin service and consensus

    Models [libsplinter/src/admin/service/consensus.rs] and [mod.rs]: the
    [ProposalManager] and the [ConsensusNetworkSender] through which the two-phase
    engine drives the admin service, and the messages and the life cycle of the
    service.  The channels to the engine are [Sender]s of the world; starting the
    thread of the engine is not modelled. *)

From S2P Require Import Prelude Storage Circuit Keys Consensus TwoPhase AdminMessages DurableSets Mailbox.
From S2P Require Import OpenProposals AdminShared AdminCommit.

(** [ServiceNetworkRegistry] *)
Class ServiceNetworkRegistry (W : Type) := {
  registry_connect : string → eff W () ();
  registry_disconnect : string → eff W () ();
}.

Inductive ServiceStartError := AlreadyStarted | UnableToConnect | StartInternal.
Inductive ServiceStopError := StopNotStarted | UnableToDisconnect | StopInternal.
Inductive ServiceDestroyError := NotStopped.

Section consensus.
Context {Sub D W : Type} `{!FileSystem D}.
Context `{!Serde ProposalRegistry, !Serde CircuitDirectory, !Sha256, !Codec Proto.Circuit,
  !Codec Proto.CircuitProposal, !Codec Proto.Header, !Codec Proto.CircuitManagementPayload,
  !Codec Proto.AdminMessage, !Codec RequiredVerifiers, !Codec ConsensusMessageProto}.
Context `{!KeyRegistry W, !KeyPermissionManager W, !SignatureVerifier W, !PeerConnector W,
  !AuthorizationInquisitor W, !SystemClock W, !Subscribers W Sub, !ServiceNetworkSender W,
  !Orchestrator W, !Sender W ProposalUpdate, !Sender W ConsensusMessage,
  !ServiceNetworkRegistry W}.

Abbreviation admin := (Admin Sub D W).
Abbreviation admin_eff := (eff (Admin Sub D W)).

(** ** [AdminProposalManager] *)

Definition update_send (u : ProposalUpdate) : admin_eff ProposalManagerError () :=
  emap_err (λ _, UpdateSendFailed) (in_world (send u)).

Definition internal {X} (m : admin_eff AdminSharedError X) : admin_eff ProposalManagerError X :=
  emap_err (λ e, match e with SharedPanic => PMPanic | _ => PMInternal end) m.

Definition add_pending_consensus_proposal {E} (p : Proposal)
    (payload : Proto.CircuitManagementPayload) : admin_eff E () :=
  on_shared (λ sh, set_pending_consensus_proposals
    (<[proposal_id p := (p, payload)]> (pending_consensus_proposals sh)) sh).

Definition remove_pending_consensus_proposals {E} (id : ProposalId) : admin_eff E () :=
  on_shared (λ sh, set_pending_consensus_proposals
    (delete id (pending_consensus_proposals sh)) sh).

(** The proposal is sent to the other members; a failure to send is a panic. *)
Fixpoint send_proposed (l : list Proto.SplinterNode) (b : bytes) :
    admin_eff ProposalManagerError () :=
  match l with
  | [] => mret ()
  | member :: l =>
      s ← get;
      (if bool_decide (Proto.node_id member ≠ node_id (shared s)) then
         emap_err (λ _, PMPanic)
           (in_world (service_send (admin_service_id (Proto.node_id member)) b))
       else mret ());;
      send_proposed l b
  end.

Definition admin_create_proposal (_previous : option ProposalId) (_consensus_data : bytes) :
    admin_eff ProposalManagerError () :=
  s ← get;
  (if network_sender (shared s) then mret () else throw PMInternal);;
  o ← pop_pending_circuit_payload;
  match o with
  | Some payload =>
      change ← internal (propose_change payload);
      let '(expected_hash, circuit_proposal) := change in
      id ← lift (map_err (λ _, PMInternal) (sha256 payload));
      let members := Proto.members (Proto.cp_circuit_proposal circuit_proposal) in
      required ← lift (ok_or PMInternal (write_to_bytes
        (mkRequiredVerifiers (admin_service_id ∘ Proto.node_id <$> members))));
      let proposal := mkProposal id "" 0 expected_hash required in
      add_pending_consensus_proposal proposal payload;;
      envelope ← lift (ok_or PMPanic (write_to_bytes (Proto.AdminProposedCircuit
        (Proto.mkProposedCircuit payload expected_hash required))));
      send_proposed members envelope;;
      update_send (ProposalCreated (Some proposal))
  | None => update_send (ProposalCreated None)
  end.

Definition admin_check_proposal (id : ProposalId) : admin_eff ProposalManagerError () :=
  s ← get;
  entry ← lift (ok_or (UnknownProposal id) (pending_consensus_proposals (shared s) !! id));
  let '(proposal, payload) := entry in
  change ← internal (propose_change payload);
  if bool_decide (change.1 ≠ summary proposal) then update_send (ProposalInvalid id)
  else update_send (ProposalValid id).

Definition admin_accept_proposal (id : ProposalId) (_consensus_data : option bytes) :
    admin_eff ProposalManagerError () :=
  s ← get;
  match pending_consensus_proposals (shared s) !! id with
  | Some (proposal, _) =>
      if bool_decide (proposal_id proposal = id) then
        r ← attempt commit;
        match r with
        | Ok _ => remove_pending_consensus_proposals id
        | Err SharedPanic => throw PMPanic
        | Err _ => update_send (ProposalAcceptFailed id "failed to commit proposal: ")
        end
      else update_send (ProposalAcceptFailed id "not pending proposal")
  | None => update_send (ProposalAcceptFailed id "not pending proposal")
  end.

Definition admin_reject_proposal (id : ProposalId) : admin_eff ProposalManagerError () :=
  s ← get;
  lift (ok_or (UnknownProposal id) (pending_consensus_proposals (shared s) !! id));;
  remove_pending_consensus_proposals id;;
  internal rollback.

#[export] Instance admin_proposal_manager : ProposalManager (Admin Sub D W) := {|
  create_proposal := admin_create_proposal;
  check_proposal := admin_check_proposal;
  accept_proposal := admin_accept_proposal;
  reject_proposal := admin_reject_proposal;
|}.

(** ** [AdminConsensusNetworkSender]

    The message the engine of this node sends, in its envelopes. *)
Definition consensus_envelope (message : bytes) : admin_eff ConsensusSendError bytes :=
  s ← get;
  m ← lift (ok_or CSInternal (consensus_message_try_into
        (mkConsensusMessage message (admin_service_id (node_id (shared s))))));
  (if network_sender (shared s) then mret () else throw CSNotReady);;
  lift (ok_or CSInternal (write_to_bytes (Proto.AdminConsensusMessage m))).

Definition admin_send_to (peer_id : PeerId) (message : bytes) : admin_eff ConsensusSendError () :=
  peer_id_string ← lift (ok_or CSInternal (from_utf8 peer_id));
  b ← consensus_envelope message;
  emap_err (λ _, CSInternal) (in_world (service_send peer_id_string b)).

Fixpoint send_verifiers (l : list string) (b : bytes) : admin_eff ConsensusSendError () :=
  match l with
  | [] => mret ()
  | verifier :: l =>
      s ← get;
      (if bool_decide (verifier ≠ admin_service_id (node_id (shared s))) then
         emap_err (λ _, CSInternal) (in_world (service_send verifier b))
       else mret ());;
      send_verifiers l b
  end.

Definition admin_broadcast (message : bytes) : admin_eff ConsensusSendError () :=
  b ← consensus_envelope message;
  s ← get;
  send_verifiers (current_consensus_verifiers (shared s)) b.

#[export] Instance admin_network_sender : ConsensusNetworkSender (Admin Sub D W) := {|
  send_to := admin_send_to;
  broadcast := admin_broadcast;
|}.

(** ** [AdminService]

    The service is its state and whether its consensus manager is there. *)

Abbreviation service_eff := (eff (bool * Admin Sub D W)).

Definition in_admin {E X} (m : admin_eff E X) : service_eff E X := λ '(c, s),
  let '(r, s') := m s in (r, (c, s')).

Definition admin_start : service_eff ServiceStartError () :=
  s ← get;
  (if s.1 : bool then throw AlreadyStarted else mret ());;
  in_admin (emap_err (λ _, UnableToConnect)
    (in_world (registry_connect (admin_service_id (node_id (shared s.2))))));;
  in_admin (on_shared (set_network_sender true));;
  modify (λ s, (true, s.2));;
  in_admin (emap_err (λ _, StartInternal) restart_services);;
  in_admin (emap_err (λ _, StartInternal) add_services_to_directory).

Definition admin_stop : service_eff ServiceStopError () :=
  s ← get;
  in_admin (emap_err (λ _, UnableToDisconnect)
    (in_world (registry_disconnect (admin_service_id (node_id (shared s.2))))));;
  (if s.1 : bool then mret () else throw StopNotStarted);;
  modify (λ s, (false, s.2));;
  in_admin (emap_err (λ _, StopInternal) (in_world (send Shutdown)));;
  in_admin (on_shared (set_network_sender false));;
  in_admin remove_all_event_subscribers;;
  in_admin (emap_err (λ _, StopInternal) stop_services).

Definition admin_destroy (s : bool * Admin Sub D W) : result ServiceDestroyError () :=
  if s.1 then Err NotStopped else Ok ().

(** [handle_message]; [sender] is the service the message came from. *)
Definition admin_handle_message (message_bytes : bytes) (sender : string) :
    service_eff ServiceError () :=
  s ← get;
  m ← lift (ok_or SvcInvalidMessageFormat (parse_from_bytes message_bytes));
  match m with
  | Proto.AdminConsensusMessage b =>
      (if s.1 : bool then mret () else throw SvcNotStarted);;
      cm ← lift (ok_or (SvcUnableToHandleMessage None) (consensus_message_try_from b));
      in_admin (emap_err (λ _, SvcUnableToHandleMessage None) (in_world (send cm)))
  | Proto.AdminProposedCircuit pc =>
      let payload := Proto.pc_circuit_payload pc in
      id ← lift (map_err (λ _, SvcUnableToHandleMessage None) (sha256 payload));
      let proposal := mkProposal id "" 0 (Proto.pc_expected_hash pc) (Proto.pc_required_verifiers pc) in
      in_admin (add_pending_consensus_proposal proposal payload);;
      (if s.1 : bool then mret () else throw SvcNotStarted);;
      in_admin (emap_err (λ _, SvcUnableToHandleMessage None)
        (in_world (send (ProposalReceived proposal sender))))
  | Proto.AdminMemberReady mr =>
      in_admin (emap_err (λ e, match e with
                               | SharedPanic => SvcPanic
                               | _ => SvcUnableToHandleMessage (Some e)
                               end)
        (add_ready_member (Proto.mr_circuit_id mr) (Proto.mr_member_node_id mr)))
  | Proto.AdminUnset => throw SvcInvalidMessageFormat
  end.
End consensus.
