(* ===== verification/AdminSafety.v ===== *)
(** * Circuits are only created with the consent of their members

    The invariant of the admin service over everything that can happen to it,
    and the change of the circuits of the node. *)

From S2P Require Import Prelude Storage Circuit Keys Consensus TwoPhase AdminMessages DurableSets Mailbox.
From S2P Require Import OpenProposals AdminShared AdminCommit AdminConsensus AdminProps.
From stdpp Require Import relations.

(** ** The invariant *)

(** A proposal as the admin service makes them: its circuit is valid, and the
    nodes that voted on it did so once and are not its requester. *)
Record proposal_ok (node : string) (p : Proto.CircuitProposal) : Prop := {
  proposal_valid : circuit_valid node (Proto.cp_circuit_proposal p);
  proposal_circuit_id : Proto.cp_circuit_id p = Proto.circuit_id (Proto.cp_circuit_proposal p);
  proposal_voters : NoDup (voters p);
  proposal_requester : Proto.cp_requester_node_id p ∉ voters p;
}.

Definition open_ok (node : string) (o : OpenProposals) : Prop :=
  ∀ id q, open_get_proposal id o = Ok (Some q) → proposal_ok node q ∧ Proto.cp_circuit_id q = id.

Section safety.
Context {Sub D W : Type} `{!FileSystem D}.
Context `{!Serde ProposalRegistry, !Serde CircuitDirectory, !Sha256, !Codec Proto.Circuit,
  !Codec Proto.CircuitProposal, !Codec Proto.Header, !Codec Proto.CircuitManagementPayload,
  !Codec Proto.AdminMessage, !Codec RequiredVerifiers, !Codec ConsensusMessageProto}.
Context `{!KeyRegistry W, !KeyPermissionManager W, !SignatureVerifier W, !PeerConnector W,
  !AuthorizationInquisitor W, !SystemClock W, !Subscribers W Sub, !ServiceNetworkSender W,
  !Orchestrator W, !Sender W ProposalUpdate, !Sender W ConsensusMessage,
  !ServiceNetworkRegistry W}.

Abbreviation admin := (Admin Sub D W).
Abbreviation admin_eff := (eff (Admin Sub D W)).
Implicit Types s : Admin Sub D W.

Definition circuits s : gmap string Circuit := cd_circuits (ss_circuit_directory (splinter_state s)).

Definition admin_ok s : Prop :=
  open_ok (node_id (shared s)) (open_proposals (shared s)) ∧
  ∀ ctx, pending_changes (shared s) = Some ctx →
    proposal_ok (node_id (shared s)) (cpc_circuit_proposal ctx).

(** ** What a proposed change is *)

Lemma validate_create_inv c key requester s :
  validate_create_circuit c key requester s = Ok () →
  circuit_valid (node_id (shared s)) c ∧ has_proposal (Proto.circuit_id c) s = false ∧
  has_circuit (Proto.circuit_id c) (splinter_state s) = false ∧
  ∃ i, key_info_of key s = Ok i ∧ associated_node_id i = requester.
Proof.
  unfold validate_create_circuit. rewrite check_bind. intros [_ Hk].
  apply result_bind_inv in Hk as (i & Hi & Hk). rewrite check_bind, bool_decide_eq_true in Hk.
  destruct Hk as [Hn Hk]. apply result_bind_inv in Hk as ([] & _ & Hk).
  rewrite !check_bind, !negb_true_iff in Hk. destruct Hk as (Hp & Hc & Hv).
  split_and!; [by apply validate_circuit_iff|done..|]. by exists i.
Qed.

Lemma validate_vote_inv v key p n s :
  validate_circuit_vote v key p n s = Ok () →
  (∃ i, key_info_of key s = Ok i ∧ associated_node_id i = n) ∧
  Proto.cp_requester_node_id p ≠ n ∧ (n ∉ voters p) ∧
  Proto.cp_circuit_hash p = Proto.cpv_circuit_hash v.
Proof.
  unfold validate_circuit_vote. intros (i & Hi & Hk)%result_bind_inv.
  rewrite !check_bind, !bool_decide_eq_true in Hk. destruct Hk as (<- & Hr & Hv & Hk).
  apply result_bind_inv in Hk as ([] & _ & Hk). rewrite check_ok, bool_decide_eq_true in Hk.
  split_and!; eauto.
Qed.

Lemma proposed_change_ok header payload s p :
  admin_ok s → proposed_change header payload s = Ok p → proposal_ok (node_id (shared s)) p.
Proof.
  intros [Hopen _]. unfold proposed_change. destruct (Proto.h_action header); [done| | |done].
  - intros (o & Ho & Hp)%result_bind_inv. destruct o as [q|]; cbn in Hp; [|done].
    apply result_bind_inv in Hp as ([] & Hv & [= <-]).
    apply validate_vote_inv in Hv as (_ & Hr & Hn & _).
    destruct (Hopen (Proto.cpv_circuit_id (Proto.circuit_proposal_vote payload)) q)
      as [[Hc Hid Hd Hnr] _].
    { unfold get_proposal in Ho. destruct (open_get_proposal _ _) as [o|[]]; by simplify_eq/=. }
    split; [done..| |]; unfold voters; cbn; rewrite fmap_app.
    + apply NoDup_app. split_and!; [done| |apply NoDup_singleton]. cbn. set_solver.
    + cbn. set_solver.
  - intros ([] & Hv & Hp)%result_bind_inv. apply result_bind_inv in Hp as (h & _ & [= <-]).
    apply validate_create_inv in Hv as (Hc & _).
    split; cbn; [done..|constructor|set_solver].
Qed.

(** ** What leaves circuits and proposals alone *)

(** A computation that changes neither the circuits of the node nor the open
    proposals nor the pending change. *)
Definition same s s' : Prop :=
  node_id (shared s') = node_id (shared s) ∧
  open_proposals (shared s') = open_proposals (shared s) ∧
  pending_changes (shared s') = pending_changes (shared s) ∧
  circuits s' = circuits s.
Definition quiet {E A} (m : admin_eff E A) : Prop := ∀ s, same s (m s).2.

Lemma same_refl s : same s s.
Proof. done. Qed.
Lemma same_trans s1 s2 s3 : same s1 s2 → same s2 s3 → same s1 s3.
Proof. unfold same. intros (-> & -> & -> & ->). done. Qed.

Lemma quiet_bind {E A B} (m : admin_eff E A) (k : A → admin_eff E B) :
  quiet m → (∀ a, quiet (k a)) → quiet (m ≫= k).
Proof.
  intros Hm Hk s. specialize (Hm s). unfold mbind, eff_bind.
  destruct (m s) as [[a|] s']; [|done]. eapply same_trans; [done|apply Hk].
Qed.
Lemma quiet_ret {E A} (a : A) : quiet (mret a : admin_eff E A).
Proof. done. Qed.
Lemma quiet_throw {E A} (e : E) : quiet (throw e : admin_eff E A).
Proof. done. Qed.
Lemma quiet_get {E} : quiet (get : admin_eff E _).
Proof. done. Qed.
Lemma quiet_lift {E A} (r : result E A) : quiet (lift r).
Proof. done. Qed.
Lemma quiet_in_world {E A} (m : eff W E A) : quiet (in_world m).
Proof. intros s. unfold in_world. by destruct (m (world s)). Qed.
Lemma quiet_emap_err {E E' A} (f : E → E') (m : admin_eff E A) : quiet m → quiet (emap_err f m).
Proof. intros Hm s. specialize (Hm s). unfold emap_err. by destruct (m s). Qed.
Lemma quiet_attempt {E E' A} (m : admin_eff E A) : quiet m → quiet (attempt m : admin_eff E' _).
Proof. intros Hm s. specialize (Hm s). unfold attempt. by destruct (m s). Qed.
Lemma quiet_on_shared {E} (f : AdminServiceShared Sub → AdminServiceShared Sub) :
  (∀ sh, node_id (f sh) = node_id sh ∧ open_proposals (f sh) = open_proposals sh ∧
         pending_changes (f sh) = pending_changes sh) →
  quiet (on_shared f : admin_eff E ()).
Proof. intros Hf s. destruct (Hf (shared s)) as (?&?&?). done. Qed.
Lemma quiet_on_state {E} (f : SplinterState → SplinterState) :
  (∀ st, ss_circuit_directory (f st) = ss_circuit_directory st) →
  quiet (on_state f : admin_eff E ()).
Proof. intros Hf s. unfold same, circuits, on_state. cbn. by rewrite Hf. Qed.

#[local] Hint Resolve quiet_ret quiet_throw quiet_get quiet_lift quiet_in_world : splinter.
Ltac solve_quiet :=
  repeat first
    [ progress intros
    | solve [eauto with splinter nocore]
    | apply quiet_bind | apply quiet_emap_err | apply quiet_attempt
    | apply quiet_on_shared; by intros; repeat case_match
    | case_match ].

Lemma quiet_send_event {E} ty e : quiet (send_event ty e : admin_eff E ()).
Proof.
  intros s. unfold send_event. destruct (system_time (world s)) as [now w]. cbn.
  set (s1 := mkAdmin _ _ _ w). assert (same s s1) as H1 by done.
  destruct (event_subscribers _ !! ty) as [subs|]; [|done].
  eapply same_trans; [done|].
  match goal with |- same _ (?m s1).2 => enough (quiet m) as Hm by apply Hm end. solve_quiet.
Qed.
#[local] Hint Resolve quiet_send_event : splinter.

Lemma quiet_start_services id l : quiet (start_services id l).
Proof. induction l; cbn; solve_quiet. Qed.
#[local] Hint Resolve quiet_start_services : splinter.
Lemma quiet_initialize_services c : quiet (initialize_services c).
Proof. unfold initialize_services. solve_quiet. Qed.
#[local] Hint Resolve quiet_initialize_services : splinter.
Lemma quiet_if_ready id : quiet (initialize_services_if_members_ready id).
Proof. unfold initialize_services_if_members_ready. solve_quiet. Qed.
#[local] Hint Resolve quiet_if_ready : splinter.
Lemma quiet_add_uninitialized p : quiet (add_uninitialized_circuit p).
Proof. unfold add_uninitialized_circuit. solve_quiet. Qed.
Lemma quiet_add_ready_member id m : quiet (add_ready_member id m).
Proof. unfold add_ready_member. solve_quiet. Qed.
Lemma quiet_announce_ready c : quiet (announce_ready c).
Proof.
  assert (∀ l b, quiet (send_member_ready l b)).
  { intros l b. induction l; cbn; solve_quiet. }
  unfold announce_ready. solve_quiet.
Qed.
Lemma quiet_restart : quiet restart_services.
Proof.
  assert (∀ l, quiet (restart_circuits l)).
  { intros l. induction l as [|[] ? IH]; cbn; solve_quiet. }
  unfold restart_services. solve_quiet.
Qed.
Lemma quiet_stop : quiet stop_services.
Proof.
  assert (∀ l b, quiet (shutdown_all l b)).
  { intros l. induction l as [|? ? IH]; cbn; solve_quiet. }
  unfold stop_services. solve_quiet.
Qed.
Lemma quiet_add_remote id f l : quiet (add_remote_services id f l).
Proof.
  induction l; cbn; solve_quiet. by apply quiet_on_state.
Qed.
#[local] Hint Resolve quiet_add_uninitialized quiet_add_ready_member quiet_announce_ready
  quiet_restart quiet_stop quiet_add_remote : splinter.
Lemma quiet_add_services : quiet add_services_to_directory.
Proof.
  assert (∀ l, quiet (add_circuits_services l)).
  { intros l. induction l as [|[] ? IH]; cbn; solve_quiet. }
  unfold add_services_to_directory. solve_quiet.
Qed.
Lemma quiet_submit payload : quiet (submit payload).
Proof.
  assert (∀ l u, quiet (connect_members l u)).
  { intros l. induction l as [|? ? IH]; intros u; cbn; solve_quiet. }
  unfold submit, propose_vote, push_pending, propose_circuit, push_pending. solve_quiet.
Qed.
Lemma quiet_on_authorization_change {E} peer b : quiet (on_authorization_change peer b : admin_eff E ()).
Proof. unfold on_authorization_change. solve_quiet. Qed.
#[local] Hint Resolve quiet_add_services quiet_submit quiet_on_authorization_change : splinter.

(** ** What changes them *)

(** Nothing but the open proposals changes, and they stay as they should be. *)
Definition open_step s s' : Prop :=
  node_id (shared s') = node_id (shared s) ∧
  pending_changes (shared s') = pending_changes (shared s) ∧ circuits s' = circuits s ∧
  (open_ok (node_id (shared s)) (open_proposals (shared s)) →
   open_ok (node_id (shared s)) (open_proposals (shared s'))).

Lemma same_open_step s s' : same s s' → open_step s s'.
Proof. unfold open_step. by intros (-> & -> & -> & ->). Qed.
Lemma open_step_trans s1 s2 s3 : open_step s1 s2 → open_step s2 s3 → open_step s1 s3.
Proof.
  unfold open_step. intros (Hn1 & -> & -> & Ho1) (Hn2 & -> & -> & Ho2). rewrite Hn1 in *.
  split_and!; auto.
Qed.
Lemma open_step_bind {E A B} (m : admin_eff E A) (k : A → admin_eff E B) s :
  open_step s (m s).2 → (∀ a s', open_step s s' → open_step s' (k a s').2) →
  open_step s ((m ≫= k) s).2.
Proof.
  intros Hm Hk. unfold mbind, eff_bind. destruct (m s) as [[a|] s']; [|done].
  eapply open_step_trans; [done|by apply Hk].
Qed.

(** A change of the registry of open proposals. *)
Lemma change_registry_open_step {E A} (f : OpenProposalError → E)
    (m : eff ProposalRegistry OpenProposalError A) s :
  (∀ n reg, open_ok n (mkOpenProposals (op_storage_location (open_proposals (shared s))) reg) →
     n = node_id (shared s) →
     open_ok n (mkOpenProposals (op_storage_location (open_proposals (shared s))) (m reg).2)) →
  open_step s (emap_err f (in_proposals (change_registry m)) s).2.
Proof.
  intros Hm. unfold emap_err, in_proposals.
  destruct (change_registry m (open_proposals (shared s), disk s)) as [r [o d]] eqn:Hc. cbn.
  apply change_registry_inv in Hc as (Hloc & Hreg & _). split_and!; [done..|].
  intros Hok. cbn. destruct o as [loc reg]. cbn in *. subst.
  apply Hm; [|done]. by destruct (open_proposals (shared s)).
Qed.

Lemma remove_proposal_step id s : open_step s (remove_proposal id s).2.
Proof.
  apply change_registry_open_step. intros n reg Hok _ id' q Hq. apply Hok.
  unfold open_get_proposal, Registry.get_proposal in *. cbn [op_registry Registry.remove_proposal snd] in *.
  destruct (decide (id' = id)) as [->|]; [by rewrite lookup_delete_eq in Hq|].
  by rewrite lookup_delete_ne in Hq.
Qed.

Lemma add_proposal_step p s : proposal_ok (node_id (shared s)) p → open_step s (add_proposal p s).2.
Proof.
  intros Hp. apply change_registry_open_step. intros n reg Hok -> id q Hq.
  unfold open_get_proposal, Registry.get_proposal, Registry.add_proposal in *.
  destruct (Msg.proposal_from_proto p) as [m|] eqn:Hm; cbn [op_registry snd] in *; [|by apply Hok].
  destruct (decide (id = Proto.cp_circuit_id p)) as [->|].
  - rewrite lookup_insert_eq in Hq. apply Msg.proposal_proto_iff in Hm.
    cbn -[Msg.proposal_into_proto] in Hq. rewrite Hm in Hq. cbn in Hq.
    unfold mret, result_ret in Hq. by simplify_eq.
  - rewrite lookup_insert_ne in Hq by done. by apply Hok.
Qed.

Lemma state_circuit_id c nc : state_circuit c = Ok nc → c_id nc = Proto.circuit_id c.
Proof.
  unfold state_circuit, build_circuit.
  destruct (Proto.authorization_type c), (Proto.persistence c), (Proto.durability c),
    (Proto.routes c); cbn; try done.
  case_bool_decide; cbn; [done|]. by intros [= <-].
Qed.

Lemma quiet_add_member_nodes l : quiet (add_member_nodes l).
Proof.
  assert (∀ id n, quiet (in_state (add_node id n) : admin_eff WriteError ())).
  { intros id n s. unfold in_state, add_node.
    pose proof (change_directory_state (Directory.add_node id n) (splinter_state s) (disk s)) as Hd.
    destruct (change_directory _ _) as [r [st d]]. cbn in Hd. by subst. }
  induction l; cbn; solve_quiet.
Qed.

(** Updating the splinter state adds the circuit, or fails before that. *)
Lemma update_splinter_state_step c s :
  let s' := (update_splinter_state c s).2 in
  node_id (shared s') = node_id (shared s) ∧
  open_proposals (shared s') = open_proposals (shared s) ∧
  pending_changes (shared s') = pending_changes (shared s) ∧
  (circuits s' = circuits s ∨
   ∃ nc, state_circuit c = Ok nc ∧ circuits s' = <[Proto.circuit_id c := nc]> (circuits s)).
Proof.
  unfold update_splinter_state. destruct (state_circuit c) as [nc|] eqn:Hnc.
  2: { cbn. split_and!; [done..|]. by left. }
  erewrite eff_bind_ok by done.
  destruct (quiet_add_member_nodes (member_nodes c) s) as (Hn1 & Ho1 & Hp1 & Hc1).
  destruct (add_member_nodes (member_nodes c) s) as [[[]|] s1] eqn:H1; cbn [snd] in *.
  2: { erewrite eff_bind_err by done. split_and!; [done..|]. by left. }
  erewrite eff_bind_ok by done. unfold mbind, eff_bind, emap_err, in_state, add_circuit.
  pose proof (change_directory_state (Directory.add_circuit (c_id nc) nc) (splinter_state s1)
    (disk s1)) as Hd.
  destruct (change_directory _ _) as [r [st d]]. cbn in Hd. subst st.
  set (s2 := mkAdmin _ _ d (world s1)).
  assert (circuits s2 = <[Proto.circuit_id c := nc]> (circuits s)) as Hc2.
  { unfold circuits, s2. cbn. rewrite (state_circuit_id c nc) by done. unfold circuits in Hc1.
    cbn in Hc1. by rewrite Hc1. }
  destruct r as [[]|]; cbn [map_err].
  - destruct (quiet_add_remote (Proto.circuit_id c) (λ _ member, member) (state_roster c) s2)
      as (-> & -> & -> & ->).
    split_and!; [done..|]. right. by exists nc.
  - split_and!; [done..|]. right. by exists nc.
Qed.

(** ** Committing *)

(** A circuit was added with the consent of its members: the pending change is a
    well-formed proposal, no vote on it is a rejection, and exactly the members
    other than the requester voted on it. *)
Definition consent s s' : Prop :=
  ∃ ctx nc,
    pending_changes (shared s) = Some ctx ∧
    let p := cpc_circuit_proposal ctx in
    proposal_ok (node_id (shared s)) p ∧ no_rejection p ∧
    (∀ n, n ∈ voters p ↔ required_voter p n) ∧
    state_circuit (Proto.cp_circuit_proposal p) = Ok nc ∧
    circuits s' = <[Proto.circuit_id (Proto.cp_circuit_proposal p) := nc]> (circuits s).

Definition safe_step s s' : Prop :=
  node_id (shared s') = node_id (shared s) ∧ admin_ok s' ∧
  (circuits s' = circuits s ∨ consent s s').

Lemma commit_rest_step p e s :
  open_step s ((remove_proposal (Proto.cp_circuit_id p);;
    msg ← lift (event_message p);
    send_event (Proto.circuit_management_type (Proto.cp_circuit_proposal p)) (e msg)) s).2.
Proof.
  apply open_step_bind; [apply remove_proposal_step|]. intros _ s' _.
  apply same_open_step. match goal with |- same _ (?m _).2 => enough (quiet m) as Hm by apply Hm end.
  solve_quiet.
Qed.

Lemma commit_pending_step p a k s :
  proposal_ok (node_id (shared s)) p → open_step s (commit_pending p a k s).2.
Proof.
  intros Hp. apply open_step_bind; [by apply add_proposal_step|]. intros _ s' _.
  apply same_open_step. match goal with |- same _ (?m _).2 => enough (quiet m) as Hm by apply Hm end.
  solve_quiet.
Qed.

Lemma commit_accepted_step p k s :
  let s' := (commit_accepted p k s).2 in
  node_id (shared s') = node_id (shared s) ∧
  pending_changes (shared s') = pending_changes (shared s) ∧
  (open_ok (node_id (shared s)) (open_proposals (shared s)) →
   open_ok (node_id (shared s)) (open_proposals (shared s'))) ∧
  (circuits s' = circuits s ∨
   ∃ nc, state_circuit (Proto.cp_circuit_proposal p) = Ok nc ∧
     circuits s' = <[Proto.circuit_id (Proto.cp_circuit_proposal p) := nc]> (circuits s)).
Proof.
  destruct (update_splinter_state_step (Proto.cp_circuit_proposal p) s) as (Hn & Ho & Hp & Hc).
  unfold commit_accepted.
  destruct (update_splinter_state (Proto.cp_circuit_proposal p) s) as [[[]|] s1] eqn:Hu;
    cbn [snd] in *.
  2: { erewrite eff_bind_err by done. cbn. rewrite Hn, Ho, Hp. done. }
  erewrite eff_bind_ok by done. cbn zeta.
  match goal with |- node_id (shared (?m s1).2) = _ ∧ _ =>
    assert (open_step s1 (m s1).2) as (Hn2 & Hp2 & Hc2 & Ho2) end.
  { apply open_step_bind; [apply remove_proposal_step|]. intros _ s' _. apply same_open_step.
    match goal with |- same _ (?m _).2 => enough (quiet m) as Hm by apply Hm end. solve_quiet. }
  rewrite Hn2, Hp2, Hc2, Hn, Hp. rewrite Hn, Ho in Ho2. done.
Qed.

Lemma commit_safe s : admin_ok s → safe_step s (commit s).2.
Proof.
  intros [Hopen Hpend]. unfold commit. erewrite eff_bind_ok by done. erewrite eff_bind_ok by done.
  set (s0 := mkAdmin (set_pending_changes None (shared s)) _ _ _).
  assert (∀ s', open_step s0 s' → safe_step s s') as Hstep.
  { intros s' (Hn & Hp & Hc & Ho). cbn in *. split_and!; [done| |by left].
    split; [by rewrite Hn; apply Ho|]. by rewrite Hp. }
  destruct (pending_changes (shared s)) as [ctx|] eqn:Hctx; [|by apply Hstep, same_open_step].
  specialize (Hpend ctx eq_refl).
  pose proof (check_approved_cases (cpc_circuit_proposal ctx)) as Happ.
  destruct (check_approved (cpc_circuit_proposal ctx)).
  - destruct (commit_accepted_step (cpc_circuit_proposal ctx) (cpc_signer_public_key ctx) s0)
      as (Hn & Hp & Ho & Hc). destruct Happ as [Hrej Hvot].
    split_and!; [done| |].
    + split; [by rewrite Hn; apply Ho|]. by rewrite Hp.
    + destruct Hc as [Hc|(nc & Hnc & Hc)]; [by left|]. right. by exists ctx, nc.
  - apply Hstep, commit_rest_step.
  - by apply Hstep, commit_pending_step.
Qed.

(** What a commit that succeeds does: an accepted proposal becomes a circuit of the node
    and is no longer open, a rejected one is no longer open, and any other is open as it
    was proposed.  No other proposal and no other circuit changes. *)
Definition change_committed (p : Proto.CircuitProposal) s s' : Prop :=
  (∀ id, open_get_proposal id (open_proposals (shared s')) =
     if decide (id = Proto.cp_circuit_id p)
     then Ok (match check_approved p with Pending => Some p | _ => None end)
     else open_get_proposal id (open_proposals (shared s))) ∧
  match check_approved p with
  | Accepted =>
      ∃ nc, state_circuit (Proto.cp_circuit_proposal p) = Ok nc ∧
        circuits s' = <[Proto.circuit_id (Proto.cp_circuit_proposal p) := nc]> (circuits s)
  | _ => circuits s' = circuits s
  end.

Lemma remove_proposal_get id s r s' :
  remove_proposal id s = (r, s') →
  circuits s' = circuits s ∧
  ∀ id', open_get_proposal id' (open_proposals (shared s')) =
    if decide (id' = id) then Ok None else open_get_proposal id' (open_proposals (shared s)).
Proof.
  unfold remove_proposal, emap_err, in_proposals.
  destruct (open_remove_proposal id _) as [x [o d]] eqn:Hrun. intros [= <- <-]. split; [done|].
  apply change_registry_inv in Hrun as (_ & Hreg & _). intros id'. cbn.
  unfold open_get_proposal, Registry.get_proposal. rewrite Hreg. cbn.
  case_decide; subst; [by rewrite lookup_delete_eq|by rewrite lookup_delete_ne].
Qed.

Lemma update_splinter_state_ok c s s' :
  update_splinter_state c s = (Ok (), s') →
  open_proposals (shared s') = open_proposals (shared s) ∧
  ∃ nc, state_circuit c = Ok nc ∧ circuits s' = <[Proto.circuit_id c := nc]> (circuits s).
Proof.
  intros Hrun. split; [pose proof (update_splinter_state_step c s) as Hs; by rewrite Hrun in Hs; destruct Hs as (_ & ? & _)|].
  apply eff_bind_inv in Hrun as (nc & s0 & [= Hnc <-] & Hrun). exists nc. split; [done|].
  apply eff_bind_inv in Hrun as ([] & s1 & Hm1 & Hrun). apply eff_bind_inv in Hrun as ([] & s2 & Hm2 & Hm3).
  pose proof (quiet_add_member_nodes (member_nodes c) s) as (_ & _ & _ & Hc1). rewrite Hm1 in Hc1. cbn in Hc1.
  pose proof (quiet_add_remote (Proto.circuit_id c) (λ _ member, member) (state_roster c) s2) as (_ & _ & _ & Hc3).
  rewrite Hm3 in Hc3. cbn in Hc3. rewrite Hc3, <- Hc1. unfold emap_err, in_state, add_circuit in Hm2.
  pose proof (change_directory_state (Directory.add_circuit (c_id nc) nc) (splinter_state s1) (disk s1)) as Hd.
  destruct (change_directory _ _) as [r [st d]]. cbn in Hd, Hm2. injection Hm2 as _ <-. subst st.
  unfold circuits. cbn. by rewrite (state_circuit_id c nc).
Qed.

Lemma quiet_after {E A B} (m : admin_eff E A) (k : A → admin_eff E B) s b s' :
  (m ≫= k) s = (Ok b, s') → (∀ a, quiet (k a)) → ∃ a s1, m s = (Ok a, s1) ∧ same s1 s'.
Proof.
  intros (a & s1 & Hm1 & Hm2)%eff_bind_inv Hk. exists a, s1. split; [done|].
  specialize (Hk a s1). by rewrite Hm2 in Hk.
Qed.

Lemma commit_ok ctx s s' :
  pending_changes (shared s) = Some ctx → commit s = (Ok (), s') →
  change_committed (cpc_circuit_proposal ctx) s s'.
Proof.
  intros Hctx. unfold commit. erewrite eff_bind_ok by done. erewrite eff_bind_ok by done. rewrite Hctx.
  set (s0 := mkAdmin (set_pending_changes None (shared s)) _ _ _). unfold change_committed.
  destruct (check_approved (cpc_circuit_proposal ctx)).
  - intros ([] & s1 & Hm1 & Hrun)%eff_bind_inv. apply update_splinter_state_ok in Hm1 as (Ho & nc & Hnc & Hc).
    apply quiet_after in Hrun as (x & s2 & Hm2 & (_ & -> & _ & ->)); [|solve_quiet].
    apply remove_proposal_get in Hm2 as [Hc2 Hg]. rewrite Ho in Hg. split; [exact Hg|]. exists nc.
    split; [done|]. by rewrite Hc2, Hc.
  - intros (x & s2 & Hm2 & (_ & -> & _ & ->))%quiet_after; [|solve_quiet].
    by apply remove_proposal_get in Hm2 as [Hc2 Hg].
  - intros (x & s2 & Hm2 & (_ & -> & _ & ->))%quiet_after; [|solve_quiet].
    unfold add_proposal, emap_err, in_proposals in Hm2.
    destruct (open_add_proposal _ _) as [r [o d]] eqn:Ha. destruct r as [r|]; [|done]. injection Hm2 as _ <-.
    split; [|done]. intros id. cbn. by rewrite (open_get_add _ _ _ _ _ _ id Ha).
Qed.

(** ** Computations that leave the circuits alone and keep the invariant *)

Definition still {E A} (m : admin_eff E A) : Prop := ∀ s, admin_ok s →
  node_id (shared (m s).2) = node_id (shared s) ∧ admin_ok (m s).2 ∧ circuits (m s).2 = circuits s.

Lemma quiet_still {E A} (m : admin_eff E A) : quiet m → still m.
Proof. intros Hm s. unfold admin_ok. by destruct (Hm s) as (-> & -> & -> & ->). Qed.
Lemma still_bind {E A B} (m : admin_eff E A) (k : A → admin_eff E B) :
  still m → (∀ a, still (k a)) → still (m ≫= k).
Proof.
  intros Hm Hk s Hs. specialize (Hm s Hs). unfold mbind, eff_bind.
  destruct (m s) as [[a|] s']; [|done]. destruct Hm as (<- & Hs' & <-). by apply Hk.
Qed.
Lemma still_emap_err {E E' A} (f : E → E') (m : admin_eff E A) : still m → still (emap_err f m).
Proof. intros Hm s Hs. specialize (Hm s Hs). unfold emap_err. by destruct (m s). Qed.

Lemma still_propose_change payload : still (propose_change payload).
Proof.
  intros s Hs. unfold propose_change. erewrite eff_bind_ok by done.
  unfold mbind, eff_bind, lift. repeat (case_match; simplify_eq/=; try done).
  match goal with H : proposed_change _ _ _ = Ok _ |- _ =>
    apply proposed_change_ok in H as Hp; [|done] end.
  split_and!; [done| |done]. split; [by apply Hs|]. cbn. by intros ? [= <-].
Qed.
Lemma still_rollback : still rollback.
Proof. intros s [Ho _]. done. Qed.

#[local] Hint Resolve still_propose_change still_rollback : splinter.
Ltac solve_still :=
  repeat first
    [ progress intros
    | solve [eauto with splinter nocore]
    | apply quiet_still; solve [solve_quiet]
    | apply still_bind | apply still_emap_err | case_match ].

Lemma quiet_pop {E} : quiet (pop_pending_circuit_payload : admin_eff E _).
Proof. intros s. unfold pop_pending_circuit_payload. by destruct (pending_circuit_payloads _). Qed.
#[local] Hint Resolve quiet_pop : splinter.

Lemma still_create prev cd : still (admin_create_proposal prev cd).
Proof.
  assert (∀ l b, quiet (send_proposed l b)).
  { intros l b. induction l; cbn; solve_quiet. }
  unfold admin_create_proposal, internal, update_send, add_pending_consensus_proposal. solve_still.
Qed.
Lemma still_check id : still (admin_check_proposal id).
Proof. unfold admin_check_proposal, internal, update_send. solve_still. Qed.
Lemma still_reject id : still (admin_reject_proposal id).
Proof. unfold admin_reject_proposal, internal, remove_pending_consensus_proposals. solve_still. Qed.

Lemma accept_safe id cd s : admin_ok s → safe_step s (admin_accept_proposal id cd s).2.
Proof.
  intros Hs. unfold admin_accept_proposal. erewrite eff_bind_ok by done.
  assert (∀ {E A} (m : admin_eff E A), quiet m → safe_step s (m s).2) as Hq.
  { intros E A m Hm. destruct (quiet_still m Hm s Hs) as (? & ? & ?).
    split_and!; [done..|by left]. }
  destruct (pending_consensus_proposals _ !! id) as [[proposal ?]|];
    [|apply Hq; unfold update_send; solve_quiet].
  case_bool_decide; [|apply Hq; unfold update_send; solve_quiet].
  pose proof (commit_safe s Hs) as Hc. unfold mbind, eff_bind, attempt.
  destruct (commit s) as [r s1]. destruct Hc as (Hn & Hs1 & Hc).
  match goal with |- safe_step s ?x.2 => assert (same s1 x.2) as (Hn2 & Ho2 & Hp2 & Hc2) end.
  { unfold update_send, remove_pending_consensus_proposals.
    repeat case_match; match goal with |- same _ (?m _).2 => enough (quiet m) as Hm by apply Hm end;
      solve_quiet. }
  split_and!; [by rewrite Hn2| |].
  - unfold admin_ok. by rewrite Hn2, Ho2, Hp2.
  - unfold consent. by rewrite Hc2.
Qed.

(** ** Everything that can happen to the admin service *)

Inductive admin_step : bool * Admin Sub D W → bool * Admin Sub D W → Prop :=
  | step_submit c s payload : admin_step (c, s) (c, (submit payload s).2)
  | step_create c s prev cd : admin_step (c, s) (c, (admin_create_proposal prev cd s).2)
  | step_check c s id : admin_step (c, s) (c, (admin_check_proposal id s).2)
  | step_accept c s id cd : admin_step (c, s) (c, (admin_accept_proposal id cd s).2)
  | step_reject c s id : admin_step (c, s) (c, (admin_reject_proposal id s).2)
  | step_message cs b from : admin_step cs (admin_handle_message b from cs).2
  | step_authorization c s peer b :
      admin_step (c, s) (c, ((on_authorization_change peer b : admin_eff () ()) s).2)
  | step_subscribe c s ty sub :
      admin_step (c, s) (c, ((add_subscriber ty sub : admin_eff () ()) s).2)
  | step_start cs : admin_step cs (admin_start cs).2
  | step_stop cs : admin_step cs (admin_stop cs).2
  (** services connect to the node and disconnect from it *)
  | step_services c s st :
      ss_circuit_directory st = ss_circuit_directory (splinter_state s) →
      admin_step (c, s) (c, mkAdmin (shared s) st (disk s) (world s))
  (** anything outside of the service *)
  | step_outside c s d w : admin_step (c, s) (c, mkAdmin (shared s) (splinter_state s) d w).

(** Of the operations of [AdminService]: *)
Definition service_still {E A} (m : eff (bool * Admin Sub D W) E A) : Prop := ∀ cs, admin_ok cs.2 →
  node_id (shared (m cs).2.2) = node_id (shared cs.2) ∧ admin_ok (m cs).2.2 ∧
  circuits (m cs).2.2 = circuits cs.2.

Lemma service_still_bind {E A B} (m : eff (bool * Admin Sub D W) E A)
    (k : A → eff (bool * Admin Sub D W) E B) :
  service_still m → (∀ a, service_still (k a)) → service_still (m ≫= k).
Proof.
  intros Hm Hk s Hs. specialize (Hm s Hs). unfold mbind, eff_bind.
  destruct (m s) as [[a|] s']; [|done]. destruct Hm as (<- & Hs' & <-). by apply Hk.
Qed.
Lemma service_still_in_admin {E A} (m : admin_eff E A) : still m → service_still (in_admin m).
Proof. intros Hm [c s] Hs. specialize (Hm s Hs). cbn. by destruct (m s). Qed.
Lemma service_still_modify {E} b :
  service_still (modify (λ s : bool * Admin Sub D W, (b, s.2)) : eff _ E ()).
Proof. done. Qed.

Ltac solve_service_still :=
  repeat first
    [ progress intros
    | apply service_still_in_admin; solve [solve_still]
    | apply service_still_bind | apply service_still_modify | case_match | done ].

Lemma message_still b from : service_still (admin_handle_message b from).
Proof. unfold admin_handle_message, add_pending_consensus_proposal. solve_service_still. Qed.
Lemma start_still : service_still admin_start.
Proof. unfold admin_start. solve_service_still. Qed.
Lemma stop_still : service_still admin_stop.
Proof. unfold admin_stop, remove_all_event_subscribers. solve_service_still. Qed.

Lemma admin_step_safe cs cs' : admin_step cs cs' → admin_ok cs.2 → safe_step cs.2 cs'.2.
Proof.
  intros Hstep Hok.
  assert (∀ {E A} (m : admin_eff E A) s, admin_ok s → still m → safe_step s (m s).2) as Hst.
  { intros E A m s Hs Hm. destruct (Hm s Hs) as (? & ? & ?). split_and!; [done..|by left]. }
  assert (∀ {E A} (m : eff (bool * Admin Sub D W) E A), service_still m →
    safe_step cs.2 (m cs).2.2) as Hsst.
  { intros E A m Hm. destruct (Hm cs Hok) as (? & ? & ?). split_and!; [done..|by left]. }
  destruct Hstep; cbn [snd] in *.
  - apply Hst; [done|]. solve_still.
  - apply Hst; [done|apply still_create].
  - apply Hst; [done|apply still_check].
  - by apply accept_safe.
  - apply Hst; [done|apply still_reject].
  - apply Hsst, message_still.
  - apply Hst; [done|]. solve_still.
  - apply Hst; [done|]. unfold add_subscriber. solve_still.
  - apply Hsst, start_still.
  - apply Hsst, stop_still.
  - split_and!; [done..|]. left. unfold circuits. cbn. congruence.
  - split_and!; [done..|]. by left.
Qed.

Lemma admin_steps_ok cs cs' : rtc admin_step cs cs' → admin_ok cs.2 → admin_ok cs'.2.
Proof.
  induction 1 as [|cs cs1 cs' Hstep _ IH]; [done|]. intros Hok.
  by apply IH; destruct (admin_step_safe _ _ Hstep Hok) as (_ & ? & _).
Qed.

(** C2: circuits are only created with the consent of their members.  Whatever
    happens to the admin service of a node (submitted payloads, messages of other
    nodes, calls of consensus, changes of authorization, restarts, failures of
    the disk, of peers and of services), its circuits only change when consensus
    accepts a proposal, and then only by the circuit of that proposal: the
    circuit is valid, exactly the members other than the one that requested it
    voted on it, each once, and none of them to reject it. *)
Theorem circuits_need_consent cs0 cs cs' :
  admin_ok cs0.2 → rtc admin_step cs0 cs → admin_step cs cs' →
  circuits cs'.2 = circuits cs.2 ∨ consent cs.2 cs'.2.
Proof.
  intros Hok Hsteps Hstep. eapply admin_steps_ok in Hsteps; [|done].
  by destruct (admin_step_safe _ _ Hstep Hsteps) as (_ & _ & ?).
Qed.
End safety.
