(* ===== verification/AdminReady.v ===== *)
(** * Payloads that wait for peers, circuits that wait for members

    What happens to a payload whose circuit has members that are not authorized
    yet, and to a committed circuit whose members are not ready yet. *)

From S2P Require Import Prelude Storage Circuit Keys Consensus TwoPhase AdminMessages DurableSets Mailbox.
From S2P Require Import OpenProposals AdminShared AdminCommit AdminConsensus AdminProps.
From S2P Require Import AdminSafety Auth AuthProps.
From stdpp Require Import relations.

(** ** Authorization *)

Inductive fate := Waiting (peers : list string) | Released | Dropped.

(** What becomes of a payload that waits for [peers] after peers were authorized
    ([true]) or refused ([false]). *)
Fixpoint payload_fate (peers : list string) (evs : list (string * bool)) : fate :=
  match evs with
  | [] => Waiting peers
  | (p, true) :: evs =>
      let peers := filter (λ q, q ≠ p) peers in
      match peers with [] => Released | _ => payload_fate peers evs end
  | (p, false) :: evs => if decide (p ∈ peers) then Dropped else payload_fate peers evs
  end.

Section queues.
Context {Sub D W : Type}.
Implicit Types s : Admin Sub D W.

Definition authorization_changes (evs : list (string * bool)) s : Admin Sub D W :=
  foldl (λ s ev, ((on_authorization_change ev.1 ev.2 : eff (Admin Sub D W) () ()) s).2) s evs.

Lemma update_unpeered_fate peer b peers payload :
  peers ≠ [] →
  match payload_fate peers [(peer, b)] with
  | Waiting peers' => update_unpeered peer b (peers, payload) = (peers', payload) ∧ peers' ≠ []
  | Released => update_unpeered peer b (peers, payload) = ([], payload) ∧ b = true
  | Dropped => update_unpeered peer b (peers, payload) = ([], payload) ∧ b = false
  end.
Proof.
  intros Hne. destruct b; cbn.
  - by destruct (filter _ peers).
  - destruct (existsb _ _) eqn:He.
    + apply existsb_exists in He as (p & Hp & ->%bool_decide_eq_true). apply list_elem_of_In in Hp.
      by rewrite decide_True.
    + rewrite decide_False; [done|]. intros Hp. apply not_true_iff_false in He. apply He.
      apply existsb_exists. exists peer. rewrite bool_decide_eq_true. split; [|done].
      by apply list_elem_of_In.
Qed.

Lemma payload_fate_cons peers peer b evs :
  payload_fate peers ((peer, b) :: evs) =
    match payload_fate peers [(peer, b)] with
    | Waiting peers' => payload_fate peers' evs
    | f => f
    end.
Proof. destruct b; cbn; [by destruct (filter _ peers)|by case_decide]. Qed.

Lemma elem_of_updated peer b U peers' payload :
  Forall (λ u : UnpeeredPendingPayload, u.1 ≠ []) U →
  (peers', payload) ∈ update_unpeered peer b <$> U ↔
    ∃ peers, (peers, payload) ∈ U ∧
      match payload_fate peers [(peer, b)] with
      | Waiting ps => peers' = ps ∧ peers' ≠ []
      | Released => peers' = [] ∧ b = true
      | Dropped => peers' = [] ∧ b = false
      end.
Proof.
  intros HU. rewrite Forall_forall in HU. rewrite list_elem_of_fmap. split.
  - intros ([peers payload0] & Hf & Hu). specialize (HU _ Hu). cbn in HU.
    pose proof (update_unpeered_fate peer b peers payload0 HU) as Hfate.
    exists peers. destruct (payload_fate _ _); destruct Hfate as [Heq ?]; rewrite Heq in Hf;
      by simplify_eq.
  - intros (peers & Hu & Hf). exists (peers, payload). split; [|done].
    specialize (HU _ Hu). cbn in HU.
    pose proof (update_unpeered_fate peer b peers payload HU) as Hfate.
    by destruct (payload_fate _ _); destruct Hfate as [-> ?], Hf as [-> ?].
Qed.

Lemma authorization_step peer b s :
  Forall (λ u, u.1 ≠ []) (unpeered_payloads (shared s)) →
  let s' := ((on_authorization_change peer b : eff (Admin Sub D W) () ()) s).2 in
  Forall (λ u, u.1 ≠ []) (unpeered_payloads (shared s')) ∧
  (∀ payload, payload ∈ pending_circuit_payloads (shared s') ↔
     payload ∈ pending_circuit_payloads (shared s) ∨
     ∃ peers, (peers, payload) ∈ unpeered_payloads (shared s) ∧
       payload_fate peers [(peer, b)] = Released) ∧
  (∀ peers' payload, (peers', payload) ∈ unpeered_payloads (shared s') ↔
     ∃ peers, (peers, payload) ∈ unpeered_payloads (shared s) ∧
       payload_fate peers [(peer, b)] = Waiting peers').
Proof.
  intros HU. set (U := unpeered_payloads (shared s)) in *.
  assert (∀ peers' payload, peers' ≠ [] ∧ (peers', payload) ∈ update_unpeered peer b <$> U ↔
    ∃ peers, (peers, payload) ∈ U ∧ payload_fate peers [(peer, b)] = Waiting peers') as Hw.
  { intros peers' payload. rewrite elem_of_updated by done. split.
    - intros (Hne & peers & Hu & Hf). exists peers. split; [done|].
      destruct (payload_fate _ _); destruct Hf as [-> ?]; done.
    - intros (peers & Hu & Hf). pose proof (proj1 (Forall_forall _ _) HU _ Hu) as Hne. cbn in Hne.
      pose proof (update_unpeered_fate peer b peers payload Hne) as Hfate.
      rewrite Hf in Hfate. destruct Hfate as [_ ?]. split; [done|]. exists peers. by rewrite Hf. }
  assert (∀ payload, ([], payload) ∈ update_unpeered peer b <$> U ∧ b = true ↔
    ∃ peers, (peers, payload) ∈ U ∧ payload_fate peers [(peer, b)] = Released) as Hr.
  { intros payload. rewrite elem_of_updated by done. split.
    - intros [(peers & Hu & Hf) ->]. exists peers. split; [done|].
      destruct (payload_fate _ _); destruct Hf as [? Hf']; done.
    - intros (peers & Hu & Hf). pose proof (proj1 (Forall_forall _ _) HU _ Hu) as Hne. cbn in Hne.
      pose proof (update_unpeered_fate peer b peers payload Hne) as Hfate.
      rewrite Hf in Hfate. destruct Hfate as [_ ->]. split; [|done]. exists peers. by rewrite Hf. }
  assert (∀ T (x : T) (c : bool) (l k : list T), x ∈ (if c then l ++ k else l) ↔
    x ∈ l ∨ x ∈ k ∧ c = true) as Hif.
  { intros T x c l k. destruct c; set_solver. }
  cbn zeta. unfold on_authorization_change. cbn. fold U. split_and!.
  - destruct b; cbn; apply Forall_forall; intros u [? _]%list_elem_of_filter; done.
  - intros payload. rewrite <-Hr.
    assert (payload ∈ snd <$> filter (λ u, u.1 = []) (update_unpeered peer b <$> U) ↔
      ([], payload) ∈ update_unpeered peer b <$> U) as <-.
    { rewrite list_elem_of_fmap. split.
      - intros ([ps pl] & -> & [Hnil Hin]%list_elem_of_filter). cbn in *. by subst.
      - intros Hin. exists ([], payload). split; [done|]. by apply list_elem_of_filter. }
    rewrite <-Hif. by destruct b.
  - intros peers' payload. rewrite <-Hw.
    by destruct b; cbn; rewrite list_elem_of_filter.
Qed.

(** After any sequence of authorizations and refusals of peers, a payload is queued for
    consensus exactly when all the peers it waited for were authorized, was dropped exactly
    when one of those it still waited for was refused, and otherwise waits for the remaining
    ones. *)
Lemma authorization_releases evs s :
  Forall (λ u, u.1 ≠ []) (unpeered_payloads (shared s)) →
  let s' := authorization_changes evs s in
  Forall (λ u, u.1 ≠ []) (unpeered_payloads (shared s')) ∧
  (∀ payload, payload ∈ pending_circuit_payloads (shared s') ↔
     payload ∈ pending_circuit_payloads (shared s) ∨
     ∃ peers, (peers, payload) ∈ unpeered_payloads (shared s) ∧
       payload_fate peers evs = Released) ∧
  (∀ peers' payload, (peers', payload) ∈ unpeered_payloads (shared s') ↔
     ∃ peers, (peers, payload) ∈ unpeered_payloads (shared s) ∧
       payload_fate peers evs = Waiting peers').
Proof.
  revert s. induction evs as [|[peer b] evs IH]; intros s HU.
  { cbn. split_and!; [done|naive_solver|]. intros peers' payload. split; [naive_solver|].
    by intros (peers & Hin & [= ->]). }
  cbn [authorization_changes foldl]. destruct (authorization_step peer b s HU) as (HU1 & Hp1 & Hu1).
  destruct (IH _ HU1) as (HU2 & Hp2 & Hu2). clear IH.
  unfold authorization_changes in *. cbn [fst snd] in *. split_and!; [done| |].
  - intros payload. rewrite Hp2, Hp1. split.
    + intros [[?|(peers & ? & Hf)]|(peers1 & Hin & Hf)].
      * by left.
      * right. exists peers. by rewrite payload_fate_cons, Hf.
      * apply Hu1 in Hin as (peers & ? & Hf1). right. exists peers.
        by rewrite payload_fate_cons, Hf1.
    + intros [?|(peers & Hin & Hf)]; [by left; left|]. rewrite payload_fate_cons in Hf.
      destruct (payload_fate peers [(peer, b)]) as [ps| |] eqn:H1; [right|left; right; eauto|done].
      exists ps. split; [|done]. apply Hu1. eauto.
  - intros peers' payload. rewrite Hu2. split.
    + intros (ps & Hin & Hf). apply Hu1 in Hin as (peers & ? & Hf1). exists peers.
      by rewrite payload_fate_cons, Hf1.
    + intros (peers & Hin & Hf). rewrite payload_fate_cons in Hf.
      destruct (payload_fate peers [(peer, b)]) as [ps| |] eqn:H1; [|done..].
      exists ps. split; [|done]. apply Hu1. eauto.
Qed.

Lemma released_authorized peers evs p :
  payload_fate peers evs = Released → p ∈ peers → (p, true) ∈ evs.
Proof.
  revert peers. induction evs as [|[q b] evs IH]; intros peers; [done|]. cbn. destruct b.
  - intros Hf Hp. destruct (decide (p = q)) as [->|Hne]; [by left|]. right.
    assert (p ∈ filter (λ x, x ≠ q) peers) as Hin by (by apply list_elem_of_filter).
    destruct (filter _ peers) as [|x l]; [by apply elem_of_nil in Hin|]. by eapply IH.
  - case_decide; [done|]. intros Hf Hp. right. by eapply IH.
Qed.

(** The callback that [AdminService::new] registers with the authorization manager *)
Definition authorization_callback (told : string * PeerAuthorizationState) : string * bool :=
  (told.1, match told.2 with PeerAuthorized => true | PeerUnauthorized => false end).

(** C24: a payload whose circuit has members that are not authorized waits for the handshake
    with each of them.  While the authorization manager handles any messages ([later], after
    [before]) and tells the admin service, the payload is queued for consensus exactly when
    all the peers it waited for were authorized, is dropped exactly when one of those it still
    waits for is refused, and otherwise waits for the remaining ones; nothing else enters
    either queue.  When it is queued, in that time a connection that had asked to connect
    identified itself as each of these peers, or the peer connected from an internal
    endpoint. *)
Theorem payloads_wait_for_handshakes {N} {Hnet : AuthNetwork N} (later before : list (N * auth_input)) s :
  Forall (λ u, u.1 ≠ []) (unpeered_payloads (shared s)) →
  let evs := authorization_callback <$> told later before in
  let s' := authorization_changes evs s in
  (∀ payload, payload ∈ pending_circuit_payloads (shared s') ↔
     payload ∈ pending_circuit_payloads (shared s) ∨
     ∃ peers, (peers, payload) ∈ unpeered_payloads (shared s) ∧
       payload_fate peers evs = Released) ∧
  (∀ peers' payload, (peers', payload) ∈ unpeered_payloads (shared s') ↔
     ∃ peers, (peers, payload) ∈ unpeered_payloads (shared s) ∧
       payload_fate peers evs = Waiting peers') ∧
  (∀ peers p, payload_fate peers evs = Released → p ∈ peers →
     trusted_during p later before ∨ internal_peer p later).
Proof.
  intros HU evs s'. destruct (authorization_releases evs s HU) as (_ & Hp & Hu).
  split_and!; [exact Hp|exact Hu|]. intros peers p Hf Hin.
  pose proof (released_authorized _ _ _ Hf Hin) as ([q []] & [= ->] & Ht)%list_elem_of_fmap.
  by apply told_authorized.
Qed.
End queues.

(** ** Readiness *)

Section readiness.
Context {Sub D W : Type} `{!FileSystem D}.
Context `{!Serde ProposalRegistry, !Serde CircuitDirectory, !Sha256, !Codec Proto.Circuit,
  !Codec Proto.CircuitProposal, !Codec Proto.Header, !Codec Proto.CircuitManagementPayload,
  !Codec Proto.AdminMessage, !Codec RequiredVerifiers, !Codec ConsensusMessageProto}.
Context `{!KeyRegistry W, !KeyPermissionManager W, !SignatureVerifier W, !PeerConnector W,
  !AuthorizationInquisitor W, !SystemClock W, !Subscribers W Sub, !ServiceNetworkSender W,
  !Orchestrator W, !Sender W ProposalUpdate, !Sender W ConsensusMessage,
  !ServiceNetworkRegistry W}.

Abbreviation admin_eff := (eff (Admin Sub D W)).
Implicit Types s : Admin Sub D W.

(** What is kept of the circuits that wait for their members. *)
Definition waiting s := (node_id (shared s), uninitialized_circuits (shared s)).
Abbreviation keeps m := (preserves waiting m).

Lemma keeps_in_world {E A} (m : eff W E A) : keeps (in_world m).
Proof. intros s. unfold in_world. by destruct (m (world s)). Qed.
Lemma keeps_in_state {E A} (m : eff (SplinterState * D) E A) : keeps (in_state m).
Proof. intros s. unfold in_state. by destruct (m _) as [? []]. Qed.
Lemma keeps_in_proposals {E A} (m : eff (OpenProposals * D) E A) : keeps (in_proposals m).
Proof. intros s. unfold in_proposals. by destruct (m _) as [? []]. Qed.
Lemma keeps_on_state {E} f : keeps (on_state f : admin_eff E ()).
Proof. by intros s. Qed.
Lemma keeps_emap_err {E E' A} (f : E → E') (m : admin_eff E A) : keeps m → keeps (emap_err f m).
Proof. intros Hm s. specialize (Hm s). unfold emap_err. by destruct (m s). Qed.
Lemma keeps_attempt {E E' A} (m : admin_eff E A) : keeps m → keeps (attempt m : admin_eff E' _).
Proof. intros Hm s. specialize (Hm s). unfold attempt. by destruct (m s). Qed.
Lemma keeps_on_shared {E} (f : AdminServiceShared Sub → AdminServiceShared Sub) :
  (∀ sh, node_id (f sh) = node_id sh ∧ uninitialized_circuits (f sh) = uninitialized_circuits sh) →
  keeps (on_shared f : admin_eff E ()).
Proof. intros Hf s. unfold waiting. cbn. by destruct (Hf (shared s)) as [-> ->]. Qed.

#[local] Hint Resolve preserves_ret preserves_throw preserves_get preserves_lift keeps_in_world keeps_in_state
  keeps_in_proposals keeps_on_state : splinter.
Ltac solve_keeps :=
  repeat first
    [ progress intros
    | solve [eauto with splinter nocore]
    | apply preserves_bind | apply keeps_emap_err | apply keeps_attempt
    | apply keeps_on_shared; by intros; repeat case_match
    | case_match ].

Lemma keeps_send_event {E} ty e : keeps (send_event ty e : admin_eff E ()).
Proof.
  intros s. unfold send_event. destruct (system_time (world s)) as [now w]. cbn.
  set (s1 := mkAdmin _ _ _ w). change (waiting s) with (waiting s1).
  destruct (event_subscribers _ !! ty) as [subs|]; [|done].
  match goal with |- waiting (?m s1).2 = _ => enough (keeps m) as Hm by apply Hm end. solve_keeps.
Qed.
#[local] Hint Resolve keeps_send_event : splinter.

Lemma keeps_start_services id l : keeps (start_services id l).
Proof. induction l; cbn; solve_keeps. Qed.
#[local] Hint Resolve keeps_start_services : splinter.

(** How one circuit may change that waits for its members, while [told] says which member
    of which circuit was told to be ready: it stays as it is, which it does not when it was
    told of, or it stops waiting, or it goes on waiting with the members that were ready,
    and the one told of, since not all are; the own node is ready when the circuit is known. *)
Definition told_of (told : option (string * string)) (id : string) : gset string :=
  match told with Some (id', n) => if decide (id' = id) then {[n]} else ∅ | None => ∅ end.
Definition moved (told : option (string * string)) s s' : Prop :=
  node_id (shared s') = node_id (shared s) ∧
  ∀ id,
    let now := uninitialized_circuits (shared s') !! id in
    now = uninitialized_circuits (shared s) !! id ∧ told_of told id = ∅ ∨
    now = None ∨
    ∃ u, now = Some u ∧ members_ready u = false ∧
      told_of told id ∪ uc_ready_members (uninitialized id (shared s)) ⊆ uc_ready_members u ∧
      (is_Some (uc_circuit u) →
       node_id (shared s) ∈ uc_ready_members u ∨ is_Some (uc_circuit (uninitialized id (shared s)))).

Lemma kept_moved s s' : waiting s' = waiting s → moved None s s'.
Proof. intros [= Hn Hu]. split; [done|]. intros id. left. by rewrite Hu. Qed.
Lemma moved_keeps told s s1 s' : moved told s s1 → waiting s' = waiting s1 → moved told s s'.
Proof. unfold moved. intros Hm [= -> ->]. exact Hm. Qed.
Lemma keeps_moved told s s1 s' : waiting s1 = waiting s → moved told s1 s' → moved told s s'.
Proof. unfold moved, uninitialized. intros [= -> ->] Hm. exact Hm. Qed.
Lemma moved_forget told s s' : moved told s s' → moved None s s'.
Proof.
  intros [Hn Hm]. split; [done|]. intros id. destruct (Hm id) as [[? _]|[?|(u & ? & ? & ? & ?)]].
  - by left.
  - right; by left.
  - right; right. exists u. cbn. split_and!; [done..|set_solver|done].
Qed.

(** What is known of one circuit changes, and the circuit is taken out and its services
    are started when all are ready. *)
Lemma if_ready_moved told id (f : AdminServiceShared Sub → AdminServiceShared Sub) u s :
  (∀ sh, node_id (f sh) = node_id sh ∧ uninitialized_circuits (f sh) = <[id := u sh]> (uninitialized_circuits sh)) →
  (∀ id', id' ≠ id → told_of told id' = ∅) →
  told_of told id ∪ uc_ready_members (uninitialized id (shared s)) ⊆ uc_ready_members (u (shared s)) →
  (is_Some (uc_circuit (u (shared s))) →
   node_id (shared s) ∈ uc_ready_members (u (shared s)) ∨ is_Some (uc_circuit (uninitialized id (shared s)))) →
  moved told s ((on_shared f;; initialize_services_if_members_ready id) s).2.
Proof.
  intros Hf Htold Hready Hown. erewrite eff_bind_ok by done. set (s1 := mkAdmin (f (shared s)) _ _ _).
  unfold initialize_services_if_members_ready. erewrite eff_bind_ok by done.
  destruct (Hf (shared s)) as [Hn1 Hu1]. change (f (shared s)) with (shared s1) in Hn1, Hu1.
  rewrite Hu1, lookup_insert_eq. destruct (members_ready (u (shared s))) eqn:Hr.
  - erewrite eff_bind_ok by done. match goal with |- moved _ _ (?m ?s2).2 =>
      apply (moved_keeps _ _ s2); [|enough (keeps m) as Hm by apply Hm; unfold initialize_services; solve_keeps] end.
    split; [exact Hn1|]. intros id'. cbn -[told_of]. change (f (shared s)) with (shared s1). rewrite Hu1.
    destruct (decide (id' = id)) as [->|Hne]; [right; left; apply lookup_delete_eq|].
    left. rewrite lookup_delete_ne, lookup_insert_ne by done. auto.
  - split; [exact Hn1|]. intros id'. cbn [snd mret eff_ret]. rewrite Hu1.
    destruct (decide (id' = id)) as [->|Hne]; [|left; rewrite lookup_insert_ne by done; auto].
    right; right. exists (u (shared s)). by rewrite lookup_insert_eq.
Qed.

Lemma add_ready_moved id n s : moved (Some (id, n)) s (add_ready_member id n s).2.
Proof.
  unfold add_ready_member. eapply if_ready_moved; [by split|..]; cbn.
  - intros id' Hne. by rewrite decide_False.
  - by rewrite decide_True.
  - by right.
Qed.
Lemma add_uninitialized_moved p s : moved None s (add_uninitialized_circuit p s).2.
Proof.
  unfold add_uninitialized_circuit. eapply if_ready_moved; [by split|done|cbn; set_solver|].
  intros _. left. cbn. set_solver.
Qed.

Lemma keeps_add_remote id f l : keeps (add_remote_services id f l).
Proof. induction l; cbn; solve_keeps. Qed.
Lemma keeps_add_member_nodes l : keeps (add_member_nodes l).
Proof. induction l; cbn; solve_keeps. Qed.
#[local] Hint Resolve keeps_add_remote keeps_add_member_nodes : splinter.
Lemma keeps_announce_ready c : keeps (announce_ready c).
Proof.
  assert (∀ l b, keeps (send_member_ready l b)).
  { intros l b. induction l; cbn; solve_keeps. }
  unfold announce_ready. solve_keeps.
Qed.
#[local] Hint Resolve keeps_announce_ready : splinter.

Lemma moved_bind {E A B} (m : admin_eff E A) (k : A → admin_eff E B) s :
  keeps m → (∀ a s', moved None s' (k a s').2) → moved None s ((m ≫= k) s).2.
Proof.
  intros Hm Hk. specialize (Hm s). unfold mbind, eff_bind. destruct (m s) as [[a|] s']; [|by apply kept_moved].
  by eapply keeps_moved.
Qed.
Lemma keeps_is_moved {E A} (m : admin_eff E A) s : keeps m → moved None s (m s).2.
Proof. intros Hm. apply kept_moved, Hm. Qed.

Lemma commit_moved s : moved None s (commit s).2.
Proof.
  unfold commit. apply moved_bind; [solve_keeps|]. intros s0 s'. apply moved_bind; [solve_keeps|]. clear.
  intros _ s. destruct (pending_changes (shared s0)) as [ctx|]; [|by apply keeps_is_moved].
  destruct (check_approved _).
  - unfold commit_accepted, update_splinter_state, remove_proposal.
    do 5 (apply moved_bind; [solve_keeps|]; intros ? ?). apply add_uninitialized_moved.
  - apply keeps_is_moved. unfold commit_rejected, remove_proposal. solve_keeps.
  - apply keeps_is_moved. unfold commit_pending, add_proposal. solve_keeps.
Qed.
Lemma accept_moved id cd s : moved None s (admin_accept_proposal id cd s).2.
Proof.
  unfold admin_accept_proposal. apply moved_bind; [solve_keeps|]. intros s0 s'.
  assert (∀ u s, moved None s (update_send u s : result _ () * _).2) as Hupd.
  { intros u s1. apply keeps_is_moved. unfold update_send. solve_keeps. }
  destruct (_ !! id) as [[proposal payload]|]; [|apply Hupd]. case_bool_decide; [|apply Hupd].
  pose proof (commit_moved s') as Hc. unfold mbind, eff_bind, attempt. destruct (commit s') as [r s1].
  eapply moved_keeps; [exact Hc|]. cbn.
  destruct r as [|[]]; try done; match goal with |- waiting (?m s1).2 = _ => enough (keeps m) as Hm by apply Hm end;
    unfold remove_pending_consensus_proposals, update_send; solve_keeps.
Qed.
Lemma keeps_propose_change payload : keeps (propose_change payload).
Proof. unfold propose_change. solve_keeps. Qed.
Lemma keeps_submit payload : keeps (submit payload).
Proof.
  assert (∀ l u, keeps (connect_members l u)).
  { intros l. induction l as [|? ? IH]; intros u; cbn; solve_keeps. }
  unfold submit, propose_vote, push_pending, propose_circuit, push_pending. solve_keeps.
Qed.
Lemma keeps_restart : keeps restart_services.
Proof.
  assert (∀ l, keeps (restart_circuits l)).
  { intros l. induction l as [|[] ? IH]; cbn; solve_keeps. }
  unfold restart_services. solve_keeps.
Qed.
Lemma keeps_stop : keeps stop_services.
Proof.
  assert (∀ l b, keeps (shutdown_all l b)).
  { intros l. induction l as [|? ? IH]; cbn; solve_keeps. }
  unfold stop_services. solve_keeps.
Qed.
Lemma keeps_add_services : keeps add_services_to_directory.
Proof.
  assert (∀ l, keeps (add_circuits_services l)).
  { intros l. induction l as [|[] ? IH]; cbn; solve_keeps. }
  unfold add_services_to_directory. solve_keeps.
Qed.
Lemma keeps_pop {E} : keeps (pop_pending_circuit_payload : admin_eff E _).
Proof. intros s. unfold pop_pending_circuit_payload. by destruct (pending_circuit_payloads _). Qed.
#[local] Hint Resolve keeps_propose_change keeps_submit keeps_restart keeps_stop
  keeps_add_services keeps_pop : splinter.

Lemma keeps_create prev cd : keeps (admin_create_proposal prev cd).
Proof.
  assert (∀ l b, keeps (send_proposed l b)).
  { intros l b. induction l; cbn; solve_keeps. }
  unfold admin_create_proposal, internal, update_send, add_pending_consensus_proposal. solve_keeps.
Qed.
Lemma keeps_check id : keeps (admin_check_proposal id).
Proof. unfold admin_check_proposal, internal, update_send. solve_keeps. Qed.
Lemma keeps_reject id : keeps (admin_reject_proposal id).
Proof.
  unfold admin_reject_proposal, internal, remove_pending_consensus_proposals, rollback. solve_keeps.
Qed.
Lemma keeps_authorization {E} peer b : keeps (on_authorization_change peer b : admin_eff E ()).
Proof. unfold on_authorization_change. solve_keeps. Qed.

Abbreviation service_keeps m := (preserves (waiting ∘ snd) m).
Lemma keeps_service {E A} (m : admin_eff E A) : keeps m → service_keeps (in_admin m).
Proof. intros Hm [c s]. specialize (Hm s). cbn. by destruct (m s). Qed.
Ltac solve_service_keeps :=
  repeat first
    [ progress intros
    | apply keeps_service; solve [solve_keeps]
    | apply preserves_bind | case_match | by intros ? ].

Lemma message_moved b from cs : moved None cs.2 (admin_handle_message b from cs).2.2.
Proof.
  unfold admin_handle_message. erewrite eff_bind_ok by done.
  destruct (parse_from_bytes b) as [m|]; [|by apply kept_moved]. erewrite eff_bind_ok by done.
  destruct m as [|cm|pc|mr] eqn:Hm; try (by apply kept_moved).
  - match goal with |- moved _ _ (?m _).2.2 => enough (service_keeps m) as Hk by apply kept_moved, Hk end.
    solve_service_keeps.
  - match goal with |- moved _ _ (?m _).2.2 => enough (service_keeps m) as Hk by apply kept_moved, Hk end.
    unfold add_pending_consensus_proposal. solve_service_keeps.
  - destruct cs as [c s]. pose proof (add_ready_moved (Proto.mr_circuit_id mr) (Proto.mr_member_node_id mr) s) as Hready.
    cbn. unfold emap_err. destruct (add_ready_member _ _ s). by apply moved_forget in Hready.
Qed.
Lemma ready_message_moved b from mr cs :
  parse_from_bytes b = Some (Proto.AdminMemberReady mr) →
  moved (Some (Proto.mr_circuit_id mr, Proto.mr_member_node_id mr)) cs.2 (admin_handle_message b from cs).2.2.
Proof.
  intros Hb. unfold admin_handle_message. erewrite eff_bind_ok by done. rewrite Hb. erewrite eff_bind_ok by done.
  destruct cs as [c s]. pose proof (add_ready_moved (Proto.mr_circuit_id mr) (Proto.mr_member_node_id mr) s).
  cbn. unfold emap_err. by destruct (add_ready_member _ _ s).
Qed.
Lemma step_moved cs cs' : admin_step cs cs' → moved None cs.2 cs'.2.
Proof.
  destruct 1; cbn [snd]; try (by apply kept_moved); try (by apply keeps_is_moved; eauto using keeps_submit,
    keeps_create, keeps_check, keeps_reject, keeps_authorization).
  - apply accept_moved.
  - apply message_moved.
  - enough (service_keeps admin_start) as Hk by apply kept_moved, Hk. unfold admin_start. solve_service_keeps.
  - enough (service_keeps admin_stop) as Hk by apply kept_moved, Hk.
    unfold admin_stop, remove_all_event_subscribers. solve_service_keeps.
Qed.

(** The members that were heard of: those of which a message that they are ready was
    handled, for a circuit that waited ever since. *)
Definition still_waiting s (heard : gset (string * string)) : gset (string * string) :=
  filter (λ x, is_Some (uninitialized_circuits (shared s) !! x.1)) heard.
Inductive heard_step :
    (bool * Admin Sub D W) * gset (string * string) → (bool * Admin Sub D W) * gset (string * string) → Prop :=
  | heard_message cs heard b from mr :
      parse_from_bytes b = Some (Proto.AdminMemberReady mr) →
      let cs' := (admin_handle_message b from cs).2 in
      heard_step (cs, heard)
        (cs', still_waiting cs'.2 ({[(Proto.mr_circuit_id mr, Proto.mr_member_node_id mr)]} ∪ heard))
  | heard_other cs cs' heard : admin_step cs cs' → heard_step (cs, heard) (cs', still_waiting cs'.2 heard).

Lemma steps_heard cs heard cs' : rtc admin_step cs cs' → ∃ heard', rtc heard_step (cs, heard) (cs', heard').
Proof.
  intros Hsteps. revert heard. induction Hsteps as [cs|cs cs1 cs' Hstep _ IH]; intros heard.
  - exists heard. apply rtc_refl.
  - destruct (IH (still_waiting cs1.2 heard)) as [heard' Hrun]. exists heard'.
    eapply rtc_l; [by apply heard_other|exact Hrun].
Qed.

(** A circuit waits because a member is missing, and who was heard of is known. *)
Definition heard_ok s (heard : gset (string * string)) : Prop :=
  (∀ id n, (id, n) ∈ heard → is_Some (uninitialized_circuits (shared s) !! id)) ∧
  ∀ id u, uninitialized_circuits (shared s) !! id = Some u →
    members_ready u = false ∧ (is_Some (uc_circuit u) → node_id (shared s) ∈ uc_ready_members u) ∧
    ∀ n, (id, n) ∈ heard → n ∈ uc_ready_members u.

Definition told_set (told : option (string * string)) : gset (string * string) :=
  match told with Some x => {[x]} | None => ∅ end.

Lemma moved_heard (told : option (string * string)) s s' (heard : gset (string * string)) :
  moved told s s' → heard_ok s heard →
  heard_ok s' (still_waiting s' (told_set told ∪ heard)).
Proof.
  intros [Hn Hm] [Hin Hok]. split.
  { intros id n [Hw _]%elem_of_filter. exact Hw. }
  intros id u Hu. rewrite Hn.
  assert (∀ n, (id, n) ∈ still_waiting s' (told_set told ∪ heard) →
    n ∈ told_of told id ∨ (id, n) ∈ heard) as Hheard.
  { intros n [_ [Ht|Hh]%elem_of_union]%elem_of_filter; [left|by right].
    destruct told as [[id' n']|]; [|set_solver]. cbn in Ht. apply elem_of_singleton in Ht as [= <- <-].
    cbn. rewrite decide_True by done. set_solver. }
  destruct (Hm id) as [[Hsame Ht]|[Hnone|(u' & Hu' & Hr & Hsub & Hown)]]; [|congruence|].
  - rewrite Hu in Hsame. destruct (Hok id u (eq_sym Hsame)) as (? & ? & Hh). split_and!; [done..|].
    intros n [Hn'|Hn']%Hheard; [set_solver|auto].
  - rewrite Hu in Hu'. injection Hu' as <-. split; [done|]. unfold uninitialized in *. split.
    + intros Hc. destruct (Hown Hc) as [?|[p Hp]]; [done|].
      destruct (uninitialized_circuits (shared s) !! id) as [u0|] eqn:Hu0; [|done]. cbn in *.
      destruct (Hok id u0 Hu0) as (_ & Ho & _). apply Hsub, elem_of_union_r, Ho. by eexists.
    + intros n [Hn'|Hn']%Hheard; [set_solver|]. destruct (Hin id n Hn') as [u0 Hu0]. rewrite Hu0 in Hsub.
      destruct (Hok id u0 Hu0) as (_ & _ & Hh). apply Hsub, elem_of_union_r. by apply Hh.
Qed.

Lemma heard_steps_ok cs heard cs' heard' :
  rtc heard_step (cs, heard) (cs', heard') → heard_ok cs.2 heard → heard_ok cs'.2 heard'.
Proof.
  intros Hsteps. remember (cs, heard) as x eqn:Hx. remember (cs', heard') as y eqn:Hy.
  revert cs heard Hx. induction Hsteps as [x|x z y Hstep _ IH]; intros cs heard -> Hok; [by simplify_eq|].
  destruct z as [cs1 heard1]. apply (IH Hy cs1 heard1 eq_refl). inversion Hstep; subst.
  - by apply (moved_heard (Some _) _ _ _ (ready_message_moved _ _ _ _ ltac:(eassumption))).
  - pose proof (moved_heard None cs.2 cs1.2 heard) as H'. cbn in H'. rewrite (left_id_L ∅ (∪)) in H'.
    by apply H'; [apply step_moved|].
Qed.

(** Starting the services of a circuit whose members are all ready, and the event *)
Definition start_circuit (p : Proto.CircuitProposal) : admin_eff AdminSharedError () :=
  initialize_services (Proto.cp_circuit_proposal p);;
  msg ← lift (event_message p);
  send_event (Proto.circuit_management_type (Proto.cp_circuit_proposal p)) (Msg.CircuitReady msg).
Definition without_waiting (id : string) s : Admin Sub D W :=
  mkAdmin (set_uninitialized_circuits (delete id (uninitialized_circuits (shared s))) (shared s))
    (splinter_state s) (disk s) (world s).

Lemma add_last_ready id n u p s :
  uninitialized_circuits (shared s) !! id = Some u → uc_circuit u = Some p →
  (∀ m, m ∈ member_ids (Proto.cp_circuit_proposal p) → m = n ∨ m ∈ uc_ready_members u) →
  add_ready_member id n s = start_circuit p (without_waiting id s).
Proof.
  intros Hu Hp Hall. unfold add_ready_member. erewrite eff_bind_ok by done.
  unfold initialize_services_if_members_ready. erewrite eff_bind_ok by done. cbn -[initialize_services send_event].
  rewrite lookup_insert_eq. unfold uninitialized. rewrite Hu. cbn -[initialize_services send_event].
  unfold members_ready. cbn -[initialize_services send_event]. rewrite Hp, bool_decide_eq_true_2.
  - erewrite eff_bind_ok by done. erewrite eff_bind_ok by done. unfold without_waiting, set_uninitialized_circuits.
    cbn -[initialize_services send_event]. by rewrite delete_insert_eq.
  - intros m Hm%elem_of_list_to_set. destruct (Hall m Hm) as [->|?]; set_solver.
Qed.

(** C23: no circuit is left waiting for its members.  Whatever happens to the admin
    service of a node that starts with no circuit waiting, a committed circuit is kept
    waiting for the start of its services only as long as a member other than the node
    itself has not been heard of: no message of it that it is ready was handled since the
    circuit waits.  And when the last member is heard of, the circuit stops waiting, its
    services are started and the event is sent that it is ready. *)
Theorem circuits_not_stuck cs cs' heard id u p :
  uninitialized_circuits (shared cs.2) = ∅ → rtc heard_step (cs, ∅) (cs', heard) →
  uninitialized_circuits (shared cs'.2) !! id = Some u → uc_circuit u = Some p →
  (∃ n, n ∈ member_ids (Proto.cp_circuit_proposal p) ∧ n ≠ node_id (shared cs'.2) ∧ (id, n) ∉ heard) ∧
  ∀ n, (∀ m, m ∈ member_ids (Proto.cp_circuit_proposal p) →
          m = n ∨ m = node_id (shared cs'.2) ∨ (id, m) ∈ heard) →
    add_ready_member id n cs'.2 = start_circuit p (without_waiting id cs'.2).
Proof.
  intros Hempty Hsteps Hu Hp.
  assert (heard_ok cs'.2 heard) as [_ Hok].
  { eapply heard_steps_ok; [done|]. split; [set_solver|]. intros ??. by rewrite Hempty, lookup_empty. }
  destruct (Hok id u Hu) as (Hr & Hown & Hheard). rewrite Hp in Hown. split.
  - unfold members_ready in Hr. rewrite Hp in Hr. apply bool_decide_eq_false in Hr.
    destruct (decide (Exists (λ n, n ∉ uc_ready_members u) (member_ids (Proto.cp_circuit_proposal p)))) as [He|He].
    + apply Exists_exists in He as (n & Hn & Hnot). exists n. split_and!; [done| |by intros ?%Hheard].
      intros ->. apply Hnot, Hown. by eexists.
    + destruct Hr. intros n Hn%elem_of_list_to_set.
      destruct (decide (n ∈ uc_ready_members u)); [done|]. destruct He. apply Exists_exists. by exists n.
  - intros n Hall. eapply add_last_ready; [done..|]. intros m Hm.
    destruct (Hall m Hm) as [?|[->|?]]; [by left| |right; auto]. right. apply Hown. by eexists.
Qed.
End readiness.
