(* ===== verification/AdminOutcome.v ===== *)
(** * What a committed circuit and a checked proposal are

    The effect of a commit on the splinter state, and what the answers of the
    admin service to consensus mean. *)

From S2P Require Import Prelude Storage Circuit Dispatch CircuitHandlers CircuitRouting Keys.
From S2P Require Import Consensus TwoPhase AdminMessages DurableSets Mailbox OpenProposals AdminShared.
From S2P Require Import AdminCommit AdminConsensus AdminProps AdminSafety.

(** ** The splinter state after a commit *)

Section state.
Context {Sub D W : Type} `{!FileSystem D, !Serde CircuitDirectory}.
Implicit Types s : Admin Sub D W.

Definition services s : gmap ServiceId Service := ss_service_directory (splinter_state s).
Definition nodes s : gmap string SplinterNode := cd_nodes (ss_circuit_directory (splinter_state s)).

Lemma in_state_directory {E} (f : CircuitDirectory → CircuitDirectory) (g : WriteError → E) s :
  let s' := (emap_err g (in_state (change_directory f)) s).2 in
  shared s' = shared s ∧ splinter_state s' = set_directory f (splinter_state s).
Proof.
  unfold emap_err, in_state. cbn.
  pose proof (change_directory_state f (splinter_state s) (disk s)) as Hd.
  destruct (change_directory f _) as [r [st d]]. cbn in *. by subst.
Qed.

Lemma add_member_nodes_spec l s s' :
  add_member_nodes l s = (Ok (), s') → NoDup (sn_id <$> l) →
  shared s' = shared s ∧ services s' = services s ∧
  ss_circuit_directory (splinter_state s') =
    mkCircuitDirectory (nodes s') (cd_circuits (ss_circuit_directory (splinter_state s)))
      (cd_admin_circuit (ss_circuit_directory (splinter_state s))) ∧
  (∀ n, n ∈ l → nodes s' !! sn_id n = Some n) ∧
  (∀ id, id ∉ sn_id <$> l → nodes s' !! id = nodes s !! id).
Proof.
  revert s. induction l as [|n l IH]; intros s; cbn.
  { intros [= <-] _. split_and!; try done; [|set_solver].
    unfold nodes. by destruct (ss_circuit_directory (splinter_state s)). }
  intros ([] & s1 & H1 & H2)%eff_bind_inv [Hn Hnd]%NoDup_cons.
  destruct (in_state_directory (Directory.add_node (sn_id n) n)
    (commit_error "Unable to add node to splinter state: ") s) as [Hsh Hst].
  unfold add_node in H1. rewrite H1 in Hsh, Hst. cbn [snd] in Hsh, Hst.
  destruct (IH _ H2 Hnd) as (Hsh2 & Hsv2 & Hd2 & Hin2 & Hout2).
  unfold services, nodes in *. rewrite Hst in *. cbn in *. split_and!; [congruence|done..| |].
  - intros n' [->|Hin]%elem_of_cons; [|by apply Hin2].
    rewrite Hout2 by done. by rewrite lookup_insert_eq.
  - intros id [? ?]%not_elem_of_cons. rewrite Hout2 by done. by rewrite lookup_insert_ne.
Qed.

(** Services of other nodes are added with the node that runs them. *)
Lemma add_remote_services_spec id l s :
  NoDup (sd_service_id <$> l) →
  (∀ sv, sv ∈ l → ∃ n member, sd_allowed_nodes sv = [n] ∧ nodes s !! n = Some member ∧
     sn_id member = n) →
  ∃ s', add_remote_services id (λ _ member, member) l s = (Ok (), s') ∧
    shared s' = shared s ∧
    ss_circuit_directory (splinter_state s') = ss_circuit_directory (splinter_state s) ∧
    (∀ k svc, services s' !! k = Some svc →
       services s !! k = Some svc ∨
       ∃ sv, sv ∈ l ∧ k = mkServiceId id (sd_service_id sv) ∧
         svc_service_id svc = sd_service_id sv ∧ sn_id (svc_node svc) ≠ node_id (shared s)) ∧
    (∀ k, (∀ sv, sv ∈ l → k ≠ mkServiceId id (sd_service_id sv)) → services s' !! k = services s !! k) ∧
    (∀ sv n, sv ∈ l → sd_allowed_nodes sv = [n] → n ≠ node_id (shared s) →
       ∃ svc, services s' !! mkServiceId id (sd_service_id sv) = Some svc ∧
         destination (node_id (shared s)) svc = Some n).
Proof.
  revert s. induction l as [|sv l IH]; intros s Hnd Hal.
  { exists s. split_and!; [done..|by left|done|set_solver]. }
  cbn in Hnd. apply NoDup_cons in Hnd as [Hsv Hnd].
  destruct (Hal sv) as (n & member & Hn & Hm & Hid); [set_solver|].
  cbn [add_remote_services]. erewrite eff_bind_ok by done. rewrite Hn.
  destruct (decide (node_id (shared s) = n)) as [Heq|Hne].
  - rewrite bool_decide_eq_true_2 by set_solver.
    destruct (IH s) as (s' & H1 & H2 & H3 & H4 & H5 & H6); [done|set_solver|].
    exists s'. split_and!; [done..| | |].
    + intros k svc [?|(sv' & ? & ?)]%H4; [by left|]. right. exists sv'. set_solver.
    + intros k Hk. apply H5. set_solver.
    + intros sv' n' [->|Hin]%elem_of_cons Hn' Hne; [|by apply H6]. congruence.
  - rewrite bool_decide_eq_false_2 by set_solver. erewrite eff_bind_ok by done.
    unfold node, Directory.node. unfold nodes in Hm. cbn [head]. rewrite Hm.
    erewrite eff_bind_ok by done. set (s1 := mkAdmin (shared s) _ _ _).
    destruct (IH s1) as (s' & H1 & H2 & H3 & H4 & H5 & H6); [done|set_solver|].
    exists s'. split_and!; [done..| | |].
    + intros k svc [Hk|(sv' & ? & ?)]%H4; [|right; exists sv'; set_solver].
      unfold services, s1 in Hk. cbn in Hk. apply lookup_insert_Some in Hk as [[<- <-]|[_ ?]]; [|by left].
      right. exists sv. cbn. split_and!; [set_solver|done..|congruence].
    + intros k Hk. rewrite H5 by set_solver. unfold services, s1. cbn.
      rewrite lookup_insert_ne; [done|]. intros <-. by eapply Hk; [left|].
    + intros sv' n' [->|Hin]%elem_of_cons Hn' Hne'; [|by apply (H6 sv')].
      eexists. rewrite H5.
      * unfold services, s1. cbn. rewrite lookup_insert_eq. split; [done|].
        unfold destination. cbn. rewrite decide_False; congruence.
      * intros sv' Hin [= Heq]. apply Hsv. apply list_elem_of_fmap. by exists sv'.
Qed.

Lemma state_circuit_spec c nc :
  state_circuit c = Ok nc →
  c_members nc = member_ids c ∧ c_roster nc = RosterStandard (state_roster c).
Proof.
  unfold state_circuit, build_circuit.
  destruct (Proto.authorization_type c), (Proto.persistence c), (Proto.durability c),
    (Proto.routes c); cbn; try done.
  case_bool_decide; cbn; [done|]. intros [= <-]. cbn. split; [|done].
  unfold member_nodes, member_ids. by rewrite <-list_fmap_compose.
Qed.

(** Updating the state, step by step. *)
Lemma update_splinter_state_inv c s s' :
  NoDup (member_ids c) → update_splinter_state c s = (Ok (), s') →
  ∃ nc s1, state_circuit c = Ok nc ∧ shared s1 = shared s ∧ services s1 = services s ∧
    (∀ name, circuit name (splinter_state s1) =
       if decide (name = c_id (cd_admin_circuit (ss_circuit_directory (splinter_state s))))
       then circuit name (splinter_state s)
       else if decide (name = Proto.circuit_id c) then Some nc
       else circuit name (splinter_state s)) ∧
    (∀ m, m ∈ Proto.members c →
       nodes s1 !! Proto.node_id m = Some (mkSplinterNode (Proto.node_id m) [Proto.endpoint m])) ∧
    add_remote_services (Proto.circuit_id c) (λ _ member, member) (state_roster c) s1 = (Ok (), s').
Proof.
  intros Hnd (nc & s0 & [= Hnc <-] & H)%eff_bind_inv.
  apply eff_bind_inv in H as ([] & s1 & H1 & H). apply eff_bind_inv in H as ([] & s2 & H2 & H3).
  assert (sn_id <$> member_nodes c = member_ids c) as Hids.
  { unfold member_nodes, member_ids. by rewrite <-list_fmap_compose. }
  apply add_member_nodes_spec in H1 as (Hsh1 & Hsv1 & Hd1 & Hin1 & _); [|by rewrite Hids].
  destruct (in_state_directory (Directory.add_circuit (c_id nc) nc)
    (commit_error "Unable to add circuit to splinter state: ") s1) as [Hsh2 Hst2].
  unfold add_circuit in H2. rewrite H2 in Hsh2, Hst2. cbn [snd] in Hsh2, Hst2.
  exists nc, s2. unfold services, nodes, circuit in *. rewrite Hst2. cbn.
  rewrite (state_circuit_id c nc) by done. split_and!; [done|congruence|done| |..].
  - intros name. rewrite Hd1. unfold Directory.circuit. cbn.
    case_decide as Ha; subst; [by rewrite !bool_decide_eq_true_2|].
    rewrite !bool_decide_eq_false_2 by done.
    case_decide; subst; [by rewrite lookup_insert_eq|by rewrite lookup_insert_ne].
  - intros m Hm. apply (Hin1 (mkSplinterNode (Proto.node_id m) [Proto.endpoint m])).
    unfold member_nodes. apply list_elem_of_fmap. by exists m.
  - by rewrite <-H3.
Qed.

(** C14: a committed circuit can be used.  Once the splinter state was updated
    with a valid new circuit, the circuit is found under its id with the members
    and the roster that were proposed, every service of it that runs on another
    node is in the service directory and messages for it go to that node, and the
    service directory still is as the message handlers need it. *)
Theorem committed_circuit_routable c s s' :
  circuit_valid (node_id (shared s)) c →
  circuit (Proto.circuit_id c) (splinter_state s) = None →
  services_ok (node_id (shared s)) (splinter_state s) →
  update_splinter_state c s = (Ok (), s') →
  (∃ nc, circuit (Proto.circuit_id c) (splinter_state s') = Some nc ∧
     c_members nc = member_ids c ∧ c_roster nc = RosterStandard (state_roster c)) ∧
  (∀ sv n, sv ∈ Proto.roster c → Proto.allowed_nodes sv = [n] → n ≠ node_id (shared s) →
     ∃ svc, services s' !! mkServiceId (Proto.circuit_id c) (Proto.service_id sv) = Some svc ∧
       destination (node_id (shared s)) svc = Some n) ∧
  services_ok (node_id (shared s)) (splinter_state s').
Proof.
  intros Hv Hnew Hok. destruct Hv as [_ _ _ _ _ _ [Hmem _] _ _ [Hsid _] _ Hal].
  intros (nc & s1 & Hnc & Hsh1 & Hsv1 & Hcirc & Hnodes & Hrem)%update_splinter_state_inv; [|done].
  destruct (state_circuit_spec _ _ Hnc) as [Hms Hro].
  destruct (add_remote_services_spec (Proto.circuit_id c) (state_roster c) s1)
    as (s2 & Hr & Hsh2 & Hd2 & Hkeys & _ & Hdest).
  { unfold state_roster. by rewrite <-list_fmap_compose. }
  { intros sv (psv & -> & Hin)%list_elem_of_fmap. destruct (Hal psv Hin) as (n & Hn & Hnm).
    apply list_elem_of_fmap in Hnm as (m & -> & Hm). eexists _, _. split; [done|].
    by rewrite Hnodes. }
  rewrite Hrem in Hr. injection Hr as <-. rewrite Hsh1 in *.
  assert (∀ name, circuit name (splinter_state s') = circuit name (splinter_state s1)) as Hcirc'.
  { intros name. unfold circuit. by rewrite Hd2. }
  assert (circuit (Proto.circuit_id c) (splinter_state s') = Some nc) as Hfound.
  { rewrite Hcirc', Hcirc. case_decide as Ha; [|by rewrite decide_True].
    unfold circuit, Directory.circuit in Hnew. by rewrite bool_decide_eq_true_2 in Hnew. }
  split_and!; [by exists nc| |].
  - intros sv n Hin Hn Hne. apply (Hdest (service_definition (Proto.service_id sv)
      (Proto.service_type sv) (Proto.allowed_nodes sv) (Proto.arguments sv))); [|done..].
    unfold state_roster. apply list_elem_of_fmap. by exists sv.
  - intros k svc [Hk|(sv & Hin & -> & Hid & Hne)]%Hkeys.
    + unfold services in Hsv1, Hk. rewrite Hsv1 in Hk. destruct (Hok _ _ Hk) as (Hid & c0 & Hc0 & Hrest).
      split; [done|]. exists c0. split; [|done]. rewrite Hcirc', Hcirc. case_decide; [done|].
      rewrite decide_False; [done|]. congruence.
    + split; [done|]. exists nc. rewrite Hro. cbn. split_and!; [done| |done].
      apply existsb_exists. exists sv. split; [by apply list_elem_of_In|].
      by apply bool_decide_eq_true_2.
Qed.
End state.

(** ** Proposals *)

Section proposals.
Context {Sub D W : Type} `{!FileSystem D}.
Context `{!Serde ProposalRegistry, !Serde CircuitDirectory, !Sha256, !Codec Proto.Circuit,
  !Codec Proto.CircuitProposal, !Codec Proto.Header, !Codec Proto.AdminMessage}.
Context `{!KeyRegistry W, !KeyPermissionManager W, !SignatureVerifier W, !PeerConnector W,
  !AuthorizationInquisitor W, !SystemClock W, !Subscribers W Sub, !ServiceNetworkSender W,
  !Orchestrator W, !Sender W ProposalUpdate}.
Implicit Types s : Admin Sub D W.

Lemma propose_change_inv payload s h p s' :
  propose_change payload s = (Ok (h, p), s') →
  sha256 p = Ok h ∧
  (∃ ctx, pending_changes (shared s') = Some ctx ∧ cpc_circuit_proposal ctx = p) ∧
  current_consensus_verifiers (shared s') = verifiers_of (Proto.cp_circuit_proposal p).
Proof.
  unfold propose_change. intros (s0 & ? & [= <- <-] & H1)%eff_bind_inv.
  apply eff_bind_inv in H1 as (header & ? & [= _ <-] & H2).
  apply eff_bind_inv in H2 as ([] & ? & [= _ <-] & H3).
  apply eff_bind_inv in H3 as (b & ? & [= _ <-] & H4).
  apply eff_bind_inv in H4 as (p0 & ? & [= Hp <-] & H5).
  apply eff_bind_inv in H5 as (h0 & ? & [= Hh <-] & H6).
  apply eff_bind_inv in H6 as ([] & s1 & [= <-] & H7).
  apply eff_bind_inv in H7 as ([] & s2 & [= <-] & [= <- <- <-]).
  split_and!; [|by eexists|done].
  unfold hash_error in Hh. by destruct (sha256 p0); simplify_eq/=.
Qed.

(** The two proposals are not a collision of SHA-256. *)
Definition no_collision (p q : Proto.CircuitProposal) : Prop :=
  ∀ b b' d, write_to_bytes p = Some b → write_to_bytes q = Some b' →
    sha256_digest b = Some d → sha256_digest b' = Some d → b = b'.

Lemma sha256_eq `{!CodecLaws Proto.CircuitProposal} p q h :
  no_collision p q → sha256 p = Ok h → sha256 q = Ok h → p = q.
Proof.
  unfold sha256, ok_or. intros Hno.
  destruct (write_to_bytes p) as [b|] eqn:Hp; cbn; [|done].
  destruct (sha256_digest b) as [d|] eqn:Hd; cbn; [|done]. intros [= <-].
  destruct (write_to_bytes q) as [b'|] eqn:Hq; cbn; [|done].
  destruct (sha256_digest b') as [d'|] eqn:Hd'; cbn; [|done]. intros [= ->%(inj Hex.to_hex)].
  assert (b = b') as -> by (by eapply Hno).
  apply parse_write in Hp, Hq. congruence.
Qed.

Lemma check_payload id proposal payload s :
  pending_consensus_proposals (shared s) !! id = Some (proposal, payload) →
  admin_check_proposal id s =
    (change ← internal (propose_change payload);
     if bool_decide (change.1 ≠ summary proposal) then update_send (ProposalInvalid id)
     else update_send (ProposalValid id)) s.
Proof.
  intros Hpend. unfold admin_check_proposal. erewrite eff_bind_ok by done. rewrite Hpend.
  by erewrite eff_bind_ok by done.
Qed.

Lemma accept_commit id cd proposal payload s s' :
  pending_consensus_proposals (shared s) !! id = Some (proposal, payload) → proposal_id proposal = id →
  commit s = (Ok (), s') → admin_accept_proposal id cd s = remove_pending_consensus_proposals id s'.
Proof.
  intros Hpend Hid Hc. unfold admin_accept_proposal. erewrite eff_bind_ok by done. rewrite Hpend.
  rewrite bool_decide_eq_true_2 by done. erewrite eff_bind_ok by (unfold attempt; by rewrite Hc). done.
Qed.


(** ** Where the code falls short *)

(** C36: rejecting a proposal discards the change of another one.  The admin
    service keeps a single pending change, which every proposal it rejects
    throws away, also when it belongs to a different proposal that is being
    evaluated: when that one is accepted afterwards, the service reports success
    to consensus but commits nothing, and only sends a failure notice. *)
Theorem reject_drops_change id id' cd s entry entry' :
  id ≠ id' → pending_consensus_proposals (shared s) !! id = Some entry →
  proposal_id entry.1 = id → pending_consensus_proposals (shared s) !! id' = Some entry' →
  ∃ s1 s2, admin_reject_proposal id' s = (Ok (), s1) ∧
    admin_accept_proposal id cd s1 =
      update_send (ProposalAcceptFailed id "failed to commit proposal: ") s2 ∧
    circuits s2 = circuits s ∧ open_proposals (shared s2) = open_proposals (shared s).
Proof.
  intros Hne He Hid He'. eexists _, _. split.
  { unfold admin_reject_proposal. erewrite eff_bind_ok by done. rewrite He'.
    erewrite eff_bind_ok by done. by erewrite eff_bind_ok by done. }
  unfold admin_accept_proposal. erewrite eff_bind_ok by done. cbn [shared]. cbn.
  rewrite lookup_delete_ne by done. rewrite He. destruct entry as [p payload]. cbn in Hid.
  rewrite bool_decide_eq_true_2 by done. by erewrite eff_bind_ok by done.
Qed.

(** A payload whose signature the verifier found wrong is queued like one whose
    signature is right. *)
Lemma wrong_signature_queued payload header s :
  parse_from_bytes (Proto.header payload) = Some header →
  validate_circuit_management_payload payload header = Ok () →
  verify (Proto.header payload) (Proto.signature payload) (Proto.h_requester header) (world s) =
    Ok false →
  Proto.h_action header = Proto.CIRCUIT_PROPOSAL_VOTE →
  submit payload s = push_pending payload s.
Proof.
  intros Hh Hv Hsig Ha. unfold submit. erewrite eff_bind_ok by done. rewrite Hh.
  erewrite eff_bind_ok by done. rewrite Hv. erewrite eff_bind_ok by done.
  unfold verify_signature. rewrite Hh. cbn. rewrite Hsig. erewrite eff_bind_ok by done.
  by rewrite Ha.
Qed.

(** The answer of the permission manager does not matter, only that it answers. *)
Lemma permission_ignored key role node s b :
  is_permitted key role (world s) = Ok b → check_permission key role node s = Ok ().
Proof. unfold check_permission. by intros ->. Qed.
End proposals.

(** An unset vote counts as consent: the circuit is approved. *)
Lemma unset_vote_consents c k requester :
  member_ids c = ["n1"; "n2"] →
  check_approved (Proto.mkCircuitProposal Proto.CREATE "c" "" c
    [Proto.mkVoteRecord k Proto.UNSET_VOTE "n2"] requester "n1") = Accepted.
Proof.
  unfold member_ids, check_approved. cbn. intros ->. by vm_compute.
Qed.
