(* ===== verification/AdminExample.v ===== *)
(** * A node that creates a circuit

    A concrete admin service, on which the theorems about it are evaluated: the
    node [n1] is proposed a circuit by [n2], votes for it and commits it. *)

From S2P Require Import Auth AuthProps.
From S2P Require Import Prelude Storage Circuit Dispatch CircuitHandlers CircuitRouting Hex.
From S2P Require Import Keys Consensus TwoPhase AdminMessages DurableSets Mailbox OpenProposals AdminShared.
From S2P Require Import AdminCommit AdminConsensus AdminProps AdminSafety AdminReady.
From S2P Require Import AdminOutcome.
From stdpp Require Import relations.

Module AdminMock.

(** ** Decidable equality *)
#[export] Instance AuthorizationType_eq_dec : EqDecision AuthorizationType.
Proof. solve_decision. Defined.
#[export] Instance PersistenceType_eq_dec : EqDecision PersistenceType.
Proof. solve_decision. Defined.
#[export] Instance DurabilityType_eq_dec : EqDecision DurabilityType.
Proof. solve_decision. Defined.
#[export] Instance RouteType_eq_dec : EqDecision RouteType.
Proof. solve_decision. Defined.
#[export] Instance Node_eq_dec : EqDecision Proto.SplinterNode.
Proof. solve_decision. Defined.
#[export] Instance Service_eq_dec : EqDecision Proto.SplinterService.
Proof. solve_decision. Defined.
#[export] Instance Circuit_eq_dec : EqDecision Proto.Circuit.
Proof. solve_decision. Defined.
#[export] Instance ProposalType_eq_dec : EqDecision Proto.ProposalType.
Proof. solve_decision. Defined.
#[export] Instance VoteRecord_eq_dec : EqDecision Proto.VoteRecord.
Proof. solve_decision. Defined.
#[export] Instance CircuitProposal_eq_dec : EqDecision Proto.CircuitProposal.
Proof. solve_decision. Defined.
#[export] Instance MsgNode_eq_dec : EqDecision Msg.SplinterNode.
Proof. solve_decision. Defined.
#[export] Instance MsgService_eq_dec : EqDecision Msg.SplinterService.
Proof. solve_decision. Defined.
#[export] Instance MsgCircuit_eq_dec : EqDecision Msg.CreateCircuit.
Proof. solve_decision. Defined.
#[export] Instance MsgVoteRecord_eq_dec : EqDecision Msg.VoteRecord.
Proof. solve_decision. Defined.
#[export] Instance MsgProposalType_eq_dec : EqDecision Msg.ProposalType.
Proof. solve_decision. Defined.
#[export] Instance MsgCircuitProposal_eq_dec : EqDecision Msg.CircuitProposal.
Proof. solve_decision. Defined.

(** ** The circuit, its proposal and the vote *)

Definition alpha : Proto.Circuit :=
  Proto.mkCircuit "alpha"
    [Proto.mkSplinterService "svc1" "scabbard" ["n1"] [];
     Proto.mkSplinterService "svc2" "scabbard" ["n2"] []]
    [Proto.mkSplinterNode "n1" "tcp://n1"; Proto.mkSplinterNode "n2" "tcp://n2"]
    Proto.TRUST_AUTHORIZATION Proto.ANY_PERSISTENCE Proto.NO_DURABILITY Proto.ANY_ROUTE "app" "".

Definition p_create : Proto.CircuitProposal :=
  Proto.mkCircuitProposal Proto.CREATE "alpha" (to_hex "alpha") alpha [] "k2" "n2".
Definition p_voted : Proto.CircuitProposal :=
  Proto.mkCircuitProposal Proto.CREATE "alpha" (to_hex "alpha") alpha
    [Proto.mkVoteRecord "k1" Proto.ACCEPT "n1"] "k2" "n2".

Definition no_vote : Proto.CircuitProposalVote := Proto.mkCircuitProposalVote "" "" Proto.UNSET_VOTE.
Definition no_circuit : Proto.Circuit :=
  Proto.mkCircuit "" [] [] Proto.UNSET_AUTHORIZATION_TYPE Proto.UNSET_PERSISTENCE_TYPE
    Proto.UNSET_DURABILITY_TYPE Proto.UNSET_ROUTE_TYPE "" "".
Definition payload_create : Proto.CircuitManagementPayload :=
  Proto.mkCircuitManagementPayload "create" "sig" no_vote (Proto.mkCircuitCreateRequest alpha) "".
Definition payload_vote : Proto.CircuitManagementPayload :=
  Proto.mkCircuitManagementPayload "vote" "sig"
    (Proto.mkCircuitProposalVote "alpha" (to_hex "alpha") Proto.ACCEPT)
    (Proto.mkCircuitCreateRequest no_circuit) "".

(** ** Serialisation

    The messages of the example, under short names. *)
#[export] Instance header_codec : Codec Proto.Header := {|
  parse_from_bytes b :=
    if decide (b = "create")
    then Some (Proto.mkHeader Proto.CIRCUIT_CREATE_REQUEST "k2" "" "n2")
    else if decide (b = "vote")
    then Some (Proto.mkHeader Proto.CIRCUIT_PROPOSAL_VOTE "k1" "" "n1")
    else None;
  write_to_bytes _ := None;
|}.
#[export] Instance circuit_codec : Codec Proto.Circuit := {|
  parse_from_bytes b := if decide (b = "alpha") then Some alpha else None;
  write_to_bytes c := if decide (c = alpha) then Some "alpha" else None;
|}.
#[export] Instance proposal_codec : Codec Proto.CircuitProposal := {|
  parse_from_bytes b :=
    if decide (b = "p_create") then Some p_create
    else if decide (b = "p_voted") then Some p_voted else None;
  write_to_bytes p :=
    if decide (p = p_create) then Some "p_create"
    else if decide (p = p_voted) then Some "p_voted" else None;
|}.
#[export] Instance proposal_codec_laws : CodecLaws Proto.CircuitProposal.
Proof. intros p b. cbn. repeat case_decide; intros [= <-]; by subst. Qed.
#[export] Instance payload_codec : Codec Proto.CircuitManagementPayload := {|
  parse_from_bytes b := None;
  write_to_bytes p := Some (Proto.header p);
|}.
#[export] Instance message_codec : Codec Proto.AdminMessage := {|
  parse_from_bytes b :=
    if decide (b = "proposed_create")
    then Some (Proto.AdminProposedCircuit
      (Proto.mkProposedCircuit payload_create (to_hex "p_create") "verifiers"))
    else if decide (b = "proposed_vote")
    then Some (Proto.AdminProposedCircuit
      (Proto.mkProposedCircuit payload_vote (to_hex "p_voted") "verifiers"))
    else if decide (b = "ready") then Some (Proto.AdminMemberReady (Proto.mkMemberReady "alpha" "n1"))
    else None;
  write_to_bytes _ := Some "message";
|}.
#[export] Instance verifiers_codec : Codec RequiredVerifiers := {|
  parse_from_bytes b := None;
  write_to_bytes _ := Some "verifiers";
|}.
#[export] Instance consensus_codec : Codec ConsensusMessageProto := {|
  parse_from_bytes b := None;
  write_to_bytes _ := Some "consensus";
|}.
#[export] Instance digest : Sha256 := Some.

(** The registry with the proposal in it, as a file. *)
Definition registry : ProposalRegistry :=
  match Msg.proposal_from_proto p_create with Ok p => {["alpha" := p]} | Err _ => ∅ end.
#[export] Instance registry_serde : Serde ProposalRegistry := {|
  to_yaml m := if decide (m = registry) then Some "registry" else None;
  from_yaml b := if decide (b = "registry") then Some registry else None;
|}.
#[export] Instance registry_serde_laws : SerdeLaws (λ m : ProposalRegistry, m).
Proof. intros m b. cbn. case_decide; intros [= <-]; by subst. Qed.

(** ** The world: a clock and what was called *)

Record mock := mkMock {
  m_time : Z;
  m_sent : list string;
  m_started : list OrchestratorService;
  m_updates : list ProposalUpdate;
}.

#[export] Instance keys : KeyRegistry mock := λ k _,
  Ok (if decide (k = "k1") then Some (mkKeyInfo "k1" "n1" ∅)
      else if decide (k = "k2") then Some (mkKeyInfo "k2" "n2" ∅) else None).
#[export] Instance permissions : KeyPermissionManager mock := λ _ _ _, Ok true.
#[export] Instance verifier : SignatureVerifier mock := λ _ sig _ _, Ok (bool_decide (sig = "sig")).
#[export] Instance peers : PeerConnector mock := λ _ _, mret ().
#[export] Instance inquisitor : AuthorizationInquisitor mock := λ _ _, true.
#[export] Instance clock : SystemClock mock := λ w,
  (m_time w, mkMock (m_time w + 1) (m_sent w) (m_started w) (m_updates w)).
#[export] Instance subscribers : Subscribers mock string := λ _ _ _, mret ().
#[export] Instance sender : ServiceNetworkSender mock := λ to _ w,
  (Ok (), mkMock (m_time w) (to :: m_sent w) (m_started w) (m_updates w)).
#[export] Instance orchestrator : Orchestrator mock := {|
  supported_service_types _ := ["scabbard"];
  initialize_service def _ w :=
    (Ok (), mkMock (m_time w) (m_sent w) (def :: m_started w) (m_updates w));
  shutdown_service _ := mret ();
|}.
#[export] Instance updates : Sender mock ProposalUpdate := λ u w,
  (Ok (), mkMock (m_time w) (m_sent w) (m_started w) (u :: m_updates w)).
#[export] Instance consensus_messages : Sender mock ConsensusMessage := λ _ w, (Ok (), w).
#[export] Instance service_registry : ServiceNetworkRegistry mock := {|
  registry_connect _ := mret ();
  registry_disconnect _ := mret ();
|}.
Export Files CircuitSerde.

(** ** The node *)

Abbreviation example := (Admin string (gmap string bytes) mock).

Definition node_of (id : string) : example :=
  mkAdmin
    (mkAdminServiceShared id (mkOpenProposals "memory" ∅) ∅ ∅ true [] [] ∅ None [] ∅ [])
    (splinter_state_new "memory" Directory.new) ∅ (mkMock 0 [] [] []).

Definition id_create : string := to_hex "create".
Definition id_vote : string := to_hex "vote".

Definition s0 : example := node_of "n1".
Definition cs1 := (admin_handle_message "proposed_create" "admin::n2" (true, s0)).2.
Definition s1 : example := cs1.2.
Definition s2 : example := (admin_check_proposal id_create s1).2.
Definition s3 : example := (admin_accept_proposal id_create None s2).2.
Definition s4 : example := (submit payload_vote s3).2.
Definition s5 : example := (admin_create_proposal None "" s4).2.
Definition s6 : example := (admin_accept_proposal id_vote None s5).2.

Lemma s0_ok : admin_ok s0.
Proof.
  split; [|done]. intros id q. unfold open_get_proposal, Registry.get_proposal, s0, node_of.
  cbn [shared open_proposals op_registry]. rewrite lookup_empty. by inversion 1.
Qed.

Lemma s1_step : admin_step (true, s0) (true, s1).
Proof.
  assert (admin_step (true, s0) cs1) as Hstep by apply step_message.
  assert (cs1.1 = true) as H1 by (by vm_compute).
  by rewrite (surjective_pairing cs1), H1 in Hstep.
Qed.
Lemma s5_steps : rtc admin_step (true, s0) (true, s5).
Proof.
  eapply rtc_l; [exact s1_step|].
  eapply rtc_l; [exact (step_check true s1 id_create)|]. fold s2.
  eapply rtc_l; [exact (step_accept true s2 id_create None)|]. fold s3.
  eapply rtc_l; [exact (step_submit true s3 payload_vote)|]. fold s4.
  eapply rtc_l; [exact (step_create true s4 None "")|]. fold s5. apply rtc_refl.
Qed.
Lemma s6_step : admin_step (true, s5) (true, s6).
Proof. exact (step_accept true s5 id_vote None). Qed.

Lemma alpha_valid : circuit_valid "n1" alpha.
Proof. apply validate_circuit_iff. by vm_compute. Qed.
End AdminMock.

Section witnesses.
Import AdminMock.

Lemma circuits_need_consent_witness : consent s5 s6.
Proof.
  pose proof (circuits_need_consent (true, s0) (true, s5) (true, s6) s0_ok s5_steps s6_step) as H.
  cbn [snd] in H. destruct H as [Heq|Hc]; [|exact Hc].
  exfalso. apply (f_equal (λ m, bool_decide (is_Some (m !! "alpha")))) in Heq.
  vm_compute in Heq. discriminate.
Defined.

(** The node waits for the other member, also when it hears of itself. *)
Definition cs7 := (admin_handle_message "ready" "admin::n1" (true, s6)).2.
Lemma circuits_not_stuck_witness :
  ∃ u p (heard : gset (string * string)), uninitialized_circuits (shared cs7.2) !! "alpha" = Some u ∧ uc_circuit u = Some p ∧
    ("alpha", "n1") ∈ heard ∧
    (∃ n, n ∈ member_ids (Proto.cp_circuit_proposal p) ∧ n ≠ "n1" ∧ ("alpha", n) ∉ heard) ∧
    add_ready_member "alpha" "n2" cs7.2 = start_circuit p (without_waiting "alpha" cs7.2).
Proof.
  destruct (uninitialized_circuits (shared cs7.2) !! "alpha") as [u|] eqn:Hu;
    [|exfalso; vm_compute in Hu; discriminate].
  destruct (uc_circuit u) as [p|] eqn:Hp.
  2: { exfalso. assert ((uninitialized_circuits (shared cs7.2) !! "alpha" ≫= uc_circuit) = None) as H
         by (by rewrite Hu). vm_compute in H. discriminate. }
  assert (member_ids (Proto.cp_circuit_proposal p) = ["n1"; "n2"]) as Hmem.
  { assert ((λ p, member_ids (Proto.cp_circuit_proposal p)) <$>
      (uninitialized_circuits (shared cs7.2) !! "alpha" ≫= uc_circuit) = Some ["n1"; "n2"]) as H by (by vm_compute).
    rewrite Hu in H. cbn [mbind option_bind] in H. rewrite Hp in H. cbn [fmap option_fmap option_map] in H. congruence. }
  destruct (steps_heard (true, s0) ∅ (true, s6) (rtc_r _ _ _ s5_steps s6_step)) as [heard0 Hrun].
  pose proof (heard_message (true, s6) heard0 "ready" "admin::n1" _ eq_refl) as Hready.
  cbn zeta in Hready. fold cs7 in Hready.
  set (heard := still_waiting cs7.2 ({[("alpha", "n1")]} ∪ heard0)). exists u, p, heard.
  destruct (circuits_not_stuck (true, s0) cs7 heard "alpha" u p) as [Hmiss Hstart];
    [reflexivity| |exact Hu|exact Hp|].
  { eapply rtc_r; [exact Hrun|exact Hready]. }
  assert (node_id (shared cs7.2) = "n1") as Hid by (by vm_compute).
  rewrite Hid in Hmiss, Hstart. split; [reflexivity|]. split; [exact Hp|]. split.
  { apply elem_of_filter. split; [|by apply elem_of_union_l, elem_of_singleton].
    change (is_Some (uninitialized_circuits (shared cs7.2) !! "alpha")). rewrite Hu. by eexists. }
  split; [exact Hmiss|]. apply Hstart. rewrite Hmem. intros m [->|[->|[]%elem_of_nil]%elem_of_cons]%elem_of_cons.
  - right. left. reflexivity.
  - left. reflexivity.
Defined.

(** A network on which nothing goes wrong *)
#[local] Instance quiet_network : AuthNetwork () := {|
  peer_endpoint _ _ := None;
  rename_peer _ _ := mret ();
  drop_peer _ := mret ();
  take_disconnects n := ([], n);
|}.
Lemma payloads_wait_for_handshakes_witness :
  let s := mkAdmin (set_unpeered_payloads [(["n2"; "n3"], payload_create)] (shared s0))
    (splinter_state s0) (disk s0) (world s0) in
  let later := [((), Act "t3" (ActTrustIdentifying "n3")); ((), Act "t4" ActUnauthorizing);
    ((), Act "t3" ActConnecting); ((), Act "t2" (ActTrustIdentifying "n2"))] in
  let before := [((), Act "t4" ActConnecting); ((), Act "t2" ActConnecting)] in
  let evs := authorization_callback <$> told later before in
  evs = [("n2", true); ("t4", false); ("n3", true)] ∧
  payload_create ∈ pending_circuit_payloads (shared (authorization_changes evs s)).
Proof.
  intros s later before evs. assert (evs = [("n2", true); ("t4", false); ("n3", true)]) as Hevs by reflexivity.
  split; [exact Hevs|]. apply (payloads_wait_for_handshakes later before s).
  - apply Forall_singleton. done.
  - right. exists ["n2"; "n3"]. split; [left|reflexivity].
Defined.

Lemma committed_circuit_routable_witness :
  ∃ s', update_splinter_state alpha s0 = (Ok (), s') ∧ services_ok "n1" (splinter_state s') ∧
    ∃ svc, services s' !! mkServiceId "alpha" "svc2" = Some svc ∧ destination "n1" svc = Some "n2".
Proof.
  destruct (update_splinter_state alpha s0) as [r s'] eqn:Hu.
  assert (r = Ok ()) as ->.
  { change r with (fst (r, s')). rewrite <-Hu. by vm_compute. }
  exists s'. split; [done|].
  destruct (committed_circuit_routable alpha s0 s') as (_ & Hd & Hok).
  - exact alpha_valid.
  - reflexivity.
  - intros id svc H. vm_compute in H. by destruct id, svc.
  - exact Hu.
  - split; [exact Hok|].
    apply (Hd (Proto.mkSplinterService "svc2" "scabbard" ["n2"] [])); [right; left|done..].
Defined.


Lemma reject_drops_change_witness :
  let s := (admin_handle_message "proposed_vote" "admin::n2" (true, s2)).2.2 in
  ∃ sr sa, admin_reject_proposal id_vote s = (Ok (), sr) ∧
    admin_accept_proposal id_create None sr =
      update_send (ProposalAcceptFailed id_create "failed to commit proposal: ") sa ∧
    circuits sa = circuits s ∧ open_proposals (shared sa) = open_proposals (shared s).
Proof.
  intros s.
  apply (reject_drops_change id_create id_vote None s
    (mkProposal id_create "" 0 (to_hex "p_create") "verifiers", payload_create)
    (mkProposal id_vote "" 0 (to_hex "p_voted") "verifiers", payload_vote)); by vm_compute.
Defined.

Lemma open_proposals_stored_witness :
  ∃ r o' d', open_add_proposal p_create (mkOpenProposals "p.yaml" ∅, ∅ : gmap string bytes) =
    (Ok r, (o', d')) ∧ open_get_proposal "alpha" o' = Ok (Some p_create) ∧
    open_proposals_new "p.yaml" d' = (Ok o', d').
Proof.
  destruct (open_add_proposal p_create (mkOpenProposals "p.yaml" ∅, ∅ : gmap string bytes))
    as [r [o' d']] eqn:H.
  assert (r = Ok None) as ->.
  { change r with (fst (r, (o', d'))). rewrite <-H. by vm_compute. }
  exists None, o', d'. split; [done|].
  destruct (open_proposals_stored p_create (mkOpenProposals "p.yaml" ∅) (∅ : gmap string bytes)
    None o' d') as [Hget Hnew]; [reflexivity|exact H|].
  split; [exact (Hget "alpha")|exact Hnew].
Defined.

Lemma mailbox_last_events_witness :
  let e p t := mkEventEntry t (Msg.ProposalSubmitted p) in
  ∃ p es it, Msg.proposal_from_proto p_create = Ok p ∧ es = [e p 1; e p 2; e p 5]%Z ∧
    mailbox_iter 9 (mailbox_add_all 2 es []) = Ok it ∧
    mailbox_collect 3 (mailbox_add_all 2 es []) it =
      Some ((λ e, (timestamp e, event e)) <$> drop 1 es).
Proof.
  intros e. destruct (Msg.proposal_from_proto p_create) as [p|] eqn:Hp; [|exfalso; vm_compute in Hp; done].
  exists p, [e p 1; e p 2; e p 5]%Z.
  destruct (mailbox_last_events 2 [e p 1; e p 2; e p 5]%Z 9 3) as (it & Hit & Hc).
  - lia.
  - repeat constructor.
  - by repeat constructor.
  - done.
  - lia.
  - by exists it.
Defined.
End witnesses.
