(* ===== verification/TwoPhaseNode.v ===== *)
(** * What one two-phase node does

    The engine's calls on its proposal manager and network sender are recorded
    by a tracing world, and the invariant [node_ok] of one node is preserved by
    every method of the engine, whatever the manager and the sender answer.
    [TwoPhaseNetwork] lifts it to a network of nodes. *)

From S2P Require Import Prelude Consensus TwoPhase.
From Stdlib Require Import ZArith.

(** ** The tracing world *)

Inductive call :=
  | CCreate
  | CCheck (id : ProposalId)
  | CAccept (id : ProposalId)
  | CReject (id : ProposalId)
  | CSendTo (peer : PeerId) (b : bytes)
  | CBroadcast (b : bytes).
#[global] Instance call_eq_dec : EqDecision call.
Proof. solve_decision. Defined.

(** Calls are logged with whether they succeeded, the latest first. *)
Abbreviation calls := (list (call * bool)) (only parsing).

Record traced (W : Type) := mkTraced { inner : W; log : calls }.
Arguments mkTraced {W} inner log.
Arguments inner {W} t.
Arguments log {W} t.

Section traced.
Context {W : Type}.

Definition trace {E A} (c : call) (m : eff W E A) : eff (traced W) E A := λ t,
  let '(r, w) := m (inner t) in (r, mkTraced w ((c, is_ok r) :: log t)).

#[global] Instance traced_manager `{!ProposalManager W} : ProposalManager (traced W) := {|
  create_proposal prev d := trace CCreate (create_proposal prev d);
  check_proposal id := trace (CCheck id) (check_proposal id);
  accept_proposal id d := trace (CAccept id) (accept_proposal id d);
  reject_proposal id := trace (CReject id) (reject_proposal id);
|}.
#[global] Instance traced_sender `{!ConsensusNetworkSender W} :
    ConsensusNetworkSender (traced W) := {|
  send_to p b := trace (CSendTo p b) (send_to p b);
  broadcast b := trace (CBroadcast b) (broadcast b);
|}.
#[global] Instance traced_clock `{!Clock W} : Clock (traced W) := λ t, now (inner t).

Lemma wp_trace {E A} c (m : eff W E A) Q t :
  (∀ r w, Q r (mkTraced w ((c, is_ok r) :: log t))) → wp (trace c m) Q t.
Proof. intros HQ. unfold wp, trace. destruct (m (inner t)). apply HQ. Qed.
End traced.

(** ** The least verifier *)

Lemma min_peer_list (l : list PeerId) :
  let f := foldr (λ x acc, Some (match acc with
             | Some y => if bool_decide (String.le x y) then x else y
             | None => x
             end)) None in
  match f l with
  | Some m => m ∈ l ∧ ∀ x, x ∈ l → String.le m x
  | None => l = []
  end.
Proof.
  induction l as [|x l IH]; cbn; [done|]. cbn in IH.
  destruct (foldr _ None l) as [y|].
  - destruct IH as [Hy Hle]. case_bool_decide as Hxy.
    + split; [left|]. intros z [->|Hz]%elem_of_cons; [done|].
      etrans; [done|]. by apply Hle.
    + split; [by right|]. intros z [->|Hz]%elem_of_cons; [|by apply Hle].
      destruct (total String.le x y); [done|]. done.
  - subst l. split; [left|]. intros z Hz%list_elem_of_singleton. by subst.
Qed.

Lemma min_peer_Some s m :
  min_peer s = Some m ↔ m ∈ s ∧ ∀ x, x ∈ s → String.le m x.
Proof.
  unfold min_peer. pose proof (min_peer_list (elements s)) as H. cbn in H.
  destruct (foldr _ None (elements s)) as [y|].
  - destruct H as [Hy Hle]. setoid_rewrite elem_of_elements in Hle.
    apply elem_of_elements in Hy. split; [naive_solver|].
    intros [Hm Hm']. f_equal. apply (anti_symm String.le); auto.
  - apply elements_empty_inv in H. set_solver.
Qed.

Lemma min_peer_None s : min_peer s = None ↔ s = ∅.
Proof.
  unfold min_peer. pose proof (min_peer_list (elements s)) as H. cbn in H.
  destruct (foldr _ None (elements s)) as [y|].
  - destruct H as [Hy%elem_of_elements _]. set_solver.
  - apply elements_empty_inv in H. set_solver.
Qed.

(** ** The node invariant *)

(** The proposals a node still has to decide: the one it evaluates, then the
    backlog. *)
Definition evaluating (e : TwoPhaseEngine) : list TwoPhaseProposal :=
  match eng_state e with EvaluatingProposal p => [p] | _ => [] end.
Definition pending (e : TwoPhaseEngine) : list TwoPhaseProposal :=
  evaluating e ++ eng_proposal_backlog e.
Definition pending_ids (e : TwoPhaseEngine) : list ProposalId :=
  tpp_proposal_id <$> pending e.

(** What has happened elsewhere: the proposals their coordinator accepted, those
    it rejected, and the ones each peer found valid. *)
Record facts := mkFacts {
  f_accepted : ProposalId → Prop;
  f_rejected : ProposalId → Prop;
  f_valid : PeerId → ProposalId → Prop;
}.

Section node.
Context {W : Type} `{!Codec TwoPhaseMessage, !CodecLaws TwoPhaseMessage, !Codec RequiredVerifiers}
  `{!ProposalManager W, !ConsensusNetworkSender W, !Clock W}.
(** The verifiers every node gives to a proposal. *)
Context (verifs : ProposalId → gset PeerId).

Definition coord (id : ProposalId) : PeerId := default "" (min_peer (verifs id)).

(** The guarantee behind a call on the network sender, for node [i] with log [l]
    that was told the proposals [vals] are valid. *)
Definition sent_ok (i : PeerId) (l : calls) (vals : list ProposalId) (c : call) : Prop :=
  match c with
  | CSendTo j b => ∃ id r,
      write_to_bytes (verification_response id r) = Some b ∧ j = coord id ∧ i ≠ coord id ∧
      (r = VERIFIED → id ∈ vals)
  | CBroadcast b =>
      (∃ id, write_to_bytes (verification_request id) = Some b) ∨
      (∃ id, write_to_bytes (proposal_result id APPLY) = Some b ∧ coord id = i ∧
             (CAccept id, true) ∈ l) ∨
      (∃ id, write_to_bytes (proposal_result id REJECT) = Some b ∧ coord id = i ∧
             (CReject id, true) ∈ l)
  | _ => True
  end.

(** Peer [v] is known to have found [id] valid. *)
Definition vouched (F : facts) (i : PeerId) (vals : list ProposalId) (id : ProposalId)
    (v : PeerId) : Prop :=
  (v = i ∧ coord id = i ∧ id ∈ vals) ∨ (f_valid F v id ∧ v ≠ coord id).

Definition proposal_ok (F : facts) (i : PeerId) (seen vals : list ProposalId)
    (p : TwoPhaseProposal) : Prop :=
  tpp_coordinator_id p = coord (tpp_proposal_id p) ∧
  tpp_required_verifiers p = verifs (tpp_proposal_id p) ∧
  tpp_proposal_id p ∈ seen ∧
  ∀ v, v ∈ tpp_peers_verified p → vouched F i vals (tpp_proposal_id p) v.

Record node_ok (F : facts) (i : PeerId) (e : TwoPhaseEngine) (l : calls)
    (seen vals : list ProposalId) : Prop := {
  ok_id : eng_id e = i;
  ok_pending : Forall (proposal_ok F i seen vals) (pending e);
  ok_nodup : NoDup (pending_ids e);
  ok_timer : timeout_state (eng_coordinator_timeout e) ≠ Inactive →
    ∃ p, eng_state e = EvaluatingProposal p ∧ coord (tpp_proposal_id p) = i;
  ok_decided id : coord id = i → (CAccept id, true) ∈ l ∨ (CReject id, true) ∈ l →
    id ∈ seen ∧ id ∉ pending_ids e;
  ok_exclusive id : coord id = i → (CAccept id, true) ∈ l → (CReject id, true) ∈ l → False;
  ok_unanimous id : coord id = i → (CAccept id, true) ∈ l →
    (∃ v, v ∈ verifs id ∧ v ≠ i) ∧ ∀ v, v ∈ verifs id → vouched F i vals id v;
  ok_accepted id : coord id ≠ i → (CAccept id, true) ∈ l → f_accepted F id;
  ok_rejected id r : coord id ≠ i → (CReject id, r) ∈ l → f_rejected F id;
  ok_sent c r : (c, r) ∈ l → sent_ok i l vals c;
}.

(** What a node may rely on about a message [b] sent to it by [from]. *)
Definition received_ok (F : facts) (i from : PeerId) (b : bytes) : Prop :=
  ∀ m, parse_from_bytes b = Some m →
    match tpm_message_type m with
    | PROPOSAL_VERIFICATION_RESPONSE =>
        coord (tpm_proposal_id m) = i ∧ from ≠ i ∧
        (tpm_proposal_verification_response m = VERIFIED → f_valid F from (tpm_proposal_id m))
    | PROPOSAL_RESULT =>
        match tpm_proposal_result m with
        | APPLY => f_accepted F (tpm_proposal_id m)
        | REJECT => f_rejected F (tpm_proposal_id m)
        | UNSET_RESULT => True
        end
    | _ => True
    end.

(** The facts about the proposals node [i] coordinates come from its own log. *)
Definition own_facts (F : facts) (i : PeerId) (l : calls) : Prop :=
  ∀ id, coord id = i →
    (f_accepted F id → (CAccept id, true) ∈ l) ∧ (f_rejected F id → (CReject id, true) ∈ l).

(** ** Rules for the engine's primitives *)

Abbreviation node_state := (TwoPhaseEngine * traced W)%type (only parsing).
Implicit Types Q : result ConsensusEngineError () → node_state → Prop.

Lemma wp_self (Q : result ConsensusEngineError TwoPhaseEngine → node_state → Prop) e w :
  Q (Ok e) (e, w) → wp self_ Q (e, w).
Proof. done. Qed.

Lemma wp_update f Q e w : Q (Ok ()) (f e, w) → wp (update f) Q (e, w).
Proof. done. Qed.

Lemma wp_now (Q : result ConsensusEngineError Z → node_state → Prop) e w :
  Q (Ok (now w)) (e, w) → wp instant_now Q (e, w).
Proof. done. Qed.

Lemma wp_manager c (m : eff W ProposalManagerError ()) Q e w :
  (∀ r w', Q r (e, mkTraced w' ((c, is_ok r) :: log w))) →
  wp (manager (trace c m)) Q (e, w).
Proof.
  intros HQ. unfold wp, manager, trace. cbn. destruct (m (inner w)) as [[]]; cbn.
  - apply (HQ (Ok _)).
  - apply (HQ (Err _)).
Qed.

Lemma wp_network c (m : eff W ConsensusSendError ()) Q e w :
  (∀ r w', Q r (e, mkTraced w' ((c, is_ok r) :: log w))) →
  wp (network (trace c m)) Q (e, w).
Proof.
  intros HQ. unfold wp, network, trace. cbn. destruct (m (inner w)) as [[]]; cbn.
  - apply (HQ (Ok _)).
  - apply (HQ (Err _)).
Qed.

Lemma wp_proto {A} (o : option A) (Q : result ConsensusEngineError A → node_state → Prop) s :
  Q (ok_or EngineProtobufError o) s → wp (proto o) Q s.
Proof. done. Qed.

Ltac wp_engine :=
  repeat (lazymatch goal with
  | |- wp (_ ≫= _) _ _ => apply wp_bind
  | |- wp (mret _) _ _ => apply wp_ret
  | |- wp self_ _ _ => apply wp_self
  | |- wp (update _) _ _ => apply wp_update
  | |- wp instant_now _ _ => apply wp_now
  | |- wp (proto _) _ _ => apply wp_proto
  | |- wp (catch_log _) _ _ => apply wp_catch_log
  | |- wp (attempt _) _ _ => apply wp_attempt
  | |- wp (manager _) _ _ => eapply wp_manager; intros [[]|] ?
  | |- wp (network _) _ _ => eapply wp_network; intros [[]|] ?
  end; cbn beta iota).

(** A call other than the latest one is not in the log. *)
Ltac not_logged := intros [[=]|?]%elem_of_cons; done.

(** ** Preservation: changing the log, the engine, the history *)

Lemma sent_ok_mono i l l' vals vals' c :
  (∀ x, x ∈ l → x ∈ l') → (∀ x, x ∈ vals → x ∈ vals') →
  sent_ok i l vals c → sent_ok i l' vals' c.
Proof.
  intros Hl Hv. destruct c; cbn; try done.
  - intros (id & r & ? & ? & ? & ?). exists id, r. split_and!; auto.
  - intros [?|[(id & ? & ? & ?)|(id & ? & ? & ?)]];
      [by left|right; left|right; right]; exists id; split_and!; auto.
Qed.

Lemma vouched_mono F i vals vals' id v :
  (∀ x, x ∈ vals → x ∈ vals') → vouched F i vals id v → vouched F i vals' id v.
Proof. intros Hv [(-> & ? & ?)|?]; [left|right]; auto. Qed.

Lemma proposal_ok_mono F i seen seen' vals vals' p :
  (∀ x, x ∈ seen → x ∈ seen') → (∀ x, x ∈ vals → x ∈ vals') →
  proposal_ok F i seen vals p → proposal_ok F i seen' vals' p.
Proof. intros ?? (? & ? & ? & ?). split_and!; eauto using vouched_mono. Qed.

(** More proposals seen or found valid. *)
Lemma node_ok_history F i e l seen seen' vals vals' :
  (∀ x, x ∈ seen → x ∈ seen') → (∀ x, x ∈ vals → x ∈ vals') →
  node_ok F i e l seen vals → node_ok F i e l seen' vals'.
Proof.
  intros Hs Hv []. split; try done.
  - eapply Forall_impl; [done|]. eauto using proposal_ok_mono.
  - intros id Hc Hd. destruct (ok_decided0 id Hc Hd). auto.
  - intros id Hc Hd. destruct (ok_unanimous0 id Hc Hd). eauto using vouched_mono.
  - eauto using sent_ok_mono.
Qed.

(** Logging a call: what the new entry must satisfy. *)
Definition entry_ok (F : facts) (i : PeerId) (e : TwoPhaseEngine) (l : calls)
    (seen vals : list ProposalId) (c : call) (r : bool) : Prop :=
  match c with
  | CAccept id =>
      if decide (coord id = i) then
        r = true →
        id ∈ seen ∧ (id ∉ pending_ids e) ∧ ((CReject id, true) ∉ l) ∧
        (∃ v, v ∈ verifs id ∧ v ≠ i) ∧ (∀ v, v ∈ verifs id → vouched F i vals id v)
      else r = true → f_accepted F id
  | CReject id =>
      if decide (coord id = i) then
        r = true → id ∈ seen ∧ (id ∉ pending_ids e) ∧ (CAccept id, true) ∉ l
      else f_rejected F id
  | _ => sent_ok i l vals c
  end.

Lemma elem_of_log (c c' : call) (r r' : bool) (l : calls) :
  (c', r') ∈ (c, r) :: l → (c' = c ∧ r' = r) ∨ (c', r') ∈ l.
Proof. intros [[= -> ->]|]%elem_of_cons; auto. Qed.

Lemma node_ok_call F i e l seen vals c r :
  entry_ok F i e l seen vals c r → node_ok F i e l seen vals →
  node_ok F i e ((c, r) :: l) seen vals.
Proof.
  intros Hc []. split; try done.
  - intros id Hi [[[<- <-]|?]%elem_of_log|[[<- <-]|?]%elem_of_log]; try by auto.
    + cbn in Hc. rewrite decide_True in Hc by done. naive_solver.
    + cbn in Hc. rewrite decide_True in Hc by done. naive_solver.
  - intros id Hi [[Hc1 Hr1]|?]%elem_of_log [[Hc2 Hr2]|?]%elem_of_log; try by eauto.
    + congruence.
    + subst c r. cbn in Hc. rewrite decide_True in Hc by done. naive_solver.
    + subst c r. cbn in Hc. rewrite decide_True in Hc by done. naive_solver.
  - intros id Hi [[<- <-]|?]%elem_of_log; [|by eauto].
    cbn in Hc. rewrite decide_True in Hc by done. naive_solver.
  - intros id Hi [[<- <-]|?]%elem_of_log; [|by eauto].
    cbn in Hc. rewrite decide_False in Hc by done. naive_solver.
  - intros id r' Hi [[<- <-]|?]%elem_of_log; [|by eauto].
    cbn in Hc. by rewrite decide_False in Hc by done.
  - intros c' r' [[-> ->]|Hin]%elem_of_log.
    + eapply sent_ok_mono with (l := l); [by right|done|]. by destruct c.
    + eapply sent_ok_mono with (l := l); [by right|done|]. eauto.
Qed.

(** The pending proposals shrink or are reordered. *)
Lemma node_ok_shrink F i e e' l seen vals :
  eng_id e' = eng_id e → pending e' ⊆+ pending e →
  (timeout_state (eng_coordinator_timeout e') ≠ Inactive →
     ∃ p, eng_state e' = EvaluatingProposal p ∧ coord (tpp_proposal_id p) = i) →
  node_ok F i e l seen vals → node_ok F i e' l seen vals.
Proof.
  intros Hid Hsub Ht [].
  assert (∀ p, p ∈ pending e' → p ∈ pending e) as Hin
    by (intros p ?; by eapply elem_of_submseteq).
  assert (pending_ids e' ⊆+ pending_ids e) as Hsub'
    by (by apply fmap_submseteq).
  split; try done.
  - by rewrite Hid.
  - apply Forall_forall. intros p Hp%Hin. by eapply Forall_forall.
  - by eapply NoDup_shrink.
  - intros id Hc Hd. destruct (ok_decided0 id Hc Hd) as [? Hn]. split; [done|].
    intros Hn'. apply Hn. by eapply elem_of_submseteq.
Qed.

(** A new proposal, not decided yet, becomes pending. *)
Lemma node_ok_add F i e e' l seen vals p :
  eng_id e' = eng_id e → pending e' ⊆+ p :: pending e →
  (timeout_state (eng_coordinator_timeout e') ≠ Inactive →
     ∃ p, eng_state e' = EvaluatingProposal p ∧ coord (tpp_proposal_id p) = i) →
  proposal_ok F i seen vals p → tpp_proposal_id p ∉ pending_ids e →
  (coord (tpp_proposal_id p) = i →
     ((CAccept (tpp_proposal_id p), true) ∉ l) ∧ (CReject (tpp_proposal_id p), true) ∉ l) →
  node_ok F i e l seen vals → node_ok F i e' l seen vals.
Proof.
  intros Hid Hsub Ht Hp Hfresh Hund [].
  assert (∀ q, q ∈ pending e' → q = p ∨ q ∈ pending e) as Hin.
  { intros q Hq. apply elem_of_cons. by eapply elem_of_submseteq. }
  assert (pending_ids e' ⊆+ tpp_proposal_id p :: pending_ids e) as Hsub'
    by (by apply (fmap_submseteq _ _ (p :: pending e))).
  split; try done.
  - by rewrite Hid.
  - apply Forall_forall. intros q [->|Hq]%Hin; [done|]. by eapply Forall_forall.
  - eapply NoDup_shrink; [done|]. by constructor.
  - intros id Hc Hd. destruct (ok_decided0 id Hc Hd) as [? Hn]. split; [done|].
    intros Hn'. apply (elem_of_submseteq _ _ _ Hn') in Hsub'.
    apply elem_of_cons in Hsub' as [->|?]; [|done]. naive_solver.
Qed.

Lemma node_ok_no_timer F i e l seen vals :
  node_ok F i e l seen vals → evaluating e = [] →
  timeout_state (eng_coordinator_timeout e) = Inactive.
Proof.
  intros [] He. destruct (decide (timeout_state (eng_coordinator_timeout e) = Inactive)); [done|].
  destruct ok_timer0 as (p & Hp & _); [done|]. unfold evaluating in He. by rewrite Hp in He.
Qed.

(** A pending proposal is not decided by its coordinator. *)
Lemma pending_undecided F i e l seen vals id :
  node_ok F i e l seen vals → coord id = i → id ∈ pending_ids e →
  ((CAccept id, true) ∉ l) ∧ (CReject id, true) ∉ l.
Proof. intros [] Hi Hp. split; intros ?; destruct (ok_decided0 _ Hi); auto. Qed.

Lemma evaluating_pending e p :
  eng_state e = EvaluatingProposal p → p ∈ pending e ∧ tpp_proposal_id p ∈ pending_ids e.
Proof.
  unfold pending_ids, pending, evaluating. intros ->. split; [|cbn]; left.
Qed.

Lemma evaluating_backlog F i e l seen vals p :
  node_ok F i e l seen vals → eng_state e = EvaluatingProposal p →
  tpp_proposal_id p ∉ tpp_proposal_id <$> eng_proposal_backlog e.
Proof.
  intros [] Hst. unfold pending_ids, pending, evaluating in ok_nodup0.
  rewrite Hst in ok_nodup0. by apply NoDup_cons in ok_nodup0 as [? _].
Qed.

Lemma has_id_spec id p : has_id id p = true ↔ tpp_proposal_id p = id.
Proof. unfold has_id. apply bool_decide_eq_true. Qed.

(** A backlogged proposal becomes the evaluated one. *)
Lemma node_ok_evaluate F i e l seen vals f idx p backlog :
  position f (eng_proposal_backlog e) = Some idx →
  remove_at idx (eng_proposal_backlog e) = Some (p, backlog) →
  evaluating e = [] → node_ok F i e l seen vals →
  node_ok F i (set_state (EvaluatingProposal p) (set_proposal_backlog backlog e)) l seen vals.
Proof.
  intros Hpos Hrm He Hok. pose proof (node_ok_no_timer _ _ _ _ _ _ Hok He) as Ht.
  apply position_Some in Hpos as (x & l1 & l2 & Hb & _ & _ & Hrm' & _).
  rewrite Hrm in Hrm'. injection Hrm' as -> ->.
  eapply node_ok_shrink with (e := e); [done|..|done].
  - unfold pending. rewrite He. cbn. rewrite Hb.
    apply Permutation_submseteq, Permutation_middle.
  - cbn. by rewrite Ht.
Qed.

(** ** Preservation by the engine's methods *)

Definition keeps (F : facts) (i : PeerId) (seen vals : list ProposalId) {A}
    (_ : result ConsensusEngineError A) (s : node_state) : Prop :=
  node_ok F i s.1 (log s.2) seen vals.

Lemma pending_idle e : eng_state e = Idle → pending e = eng_proposal_backlog e.
Proof. unfold pending, evaluating. by intros ->. Qed.

Lemma backlog_pending e : eng_proposal_backlog e ⊆+ pending e.
Proof. unfold pending. apply submseteq_inserts_l. done. Qed.

(** The coordinator drops the proposal it evaluates and stops its timer. *)
Definition finished (e : TwoPhaseEngine) : TwoPhaseEngine :=
  set_timeout (stop (eng_coordinator_timeout (set_state Idle e))) (set_state Idle e).

Lemma node_ok_finished F i e l seen vals :
  node_ok F i e l seen vals → node_ok F i (finished e) l seen vals.
Proof. apply node_ok_shrink; [done|apply (backlog_pending e)|done]. Qed.

Lemma complete_coordination_ok F i e w seen vals id res :
  node_ok F i e (log w) seen vals →
  coord id = i → id ∈ seen → id ∉ tpp_proposal_id <$> eng_proposal_backlog e →
  (CAccept id, true) ∉ log w → (CReject id, true) ∉ log w →
  (res = APPLY →
    (∃ v, v ∈ verifs id ∧ v ≠ i) ∧ ∀ v, v ∈ verifs id → vouched F i vals id v) →
  wp (complete_coordination id res) (keeps F i seen vals) (e, w).
Proof.
  intros Hok Hi Hseen Hb Ha Hr Hv. pose proof (node_ok_finished _ _ _ _ _ _ Hok) as Hf.
  unfold complete_coordination. destruct res; wp_engine.
  - done.
  - assert (node_ok F i (finished e) ((CAccept id, true) :: log w) seen vals) as Hf'.
    { apply node_ok_call; [|done]. cbn. rewrite decide_True by done. naive_solver. }
    destruct (write_to_bytes (proposal_result id APPLY)) eqn:Hw; cbn; [|done].
    wp_engine; (apply node_ok_call; [|exact Hf']); right; left; exists id; (split_and!; [done..|left]).
  - apply node_ok_call; [|done]. cbn. by destruct (decide _).
  - assert (node_ok F i (finished e) ((CReject id, true) :: log w) seen vals) as Hf'.
    { apply node_ok_call; [|done]. cbn. rewrite decide_True by done. naive_solver. }
    destruct (write_to_bytes (proposal_result id REJECT)) eqn:Hw; cbn; [|done].
    wp_engine; (apply node_ok_call; [|exact Hf']); right; right; exists id; (split_and!; [done..|left]).
  - apply node_ok_call; [|done]. cbn. by rewrite decide_True by done.
Qed.

#[local] Opaque complete_coordination.

Lemma start_coordination_ok F i e w seen vals p :
  node_ok F i e (log w) seen vals → evaluating e = [] →
  proposal_ok F i seen vals p → coord (tpp_proposal_id p) = i →
  tpp_proposal_id p ∉ pending_ids e →
  (CAccept (tpp_proposal_id p), true) ∉ log w →
  (CReject (tpp_proposal_id p), true) ∉ log w →
  wp (start_coordination p) (keeps F i seen vals) (e, w).
Proof.
  intros Hok He Hp Hi Hfresh Ha Hr. unfold start_coordination.
  assert (∀ r, node_ok F i e ((CCheck (tpp_proposal_id p), r) :: log w) seen vals) as Hok'
    by (intros r; by apply node_ok_call).
  wp_engine.
  - eapply node_ok_add with (e := e); [done|..|apply Hok']; try done.
    + unfold pending. rewrite He. done.
    + intros _. by exists p.
    + intros _. split; not_logged.
  - eapply complete_coordination_ok; [apply Hok'|done|apply Hp| |not_logged..|done].
    intros Hb. apply Hfresh. unfold pending_ids, pending. by rewrite He.
Qed.

#[local] Opaque start_coordination.

Lemma handle_proposal_ok F i e w seen vals p :
  node_ok F i e (log w) seen vals → proposal_id p ∉ seen →
  proposal_verifiers e p = Some (verifs (proposal_id p)) → verifs (proposal_id p) ≠ ∅ →
  wp (handle_proposal p) (keeps F i (proposal_id p :: seen) vals) (e, w).
Proof.
  intros Hok Hfresh Hvs Hne.
  assert (node_ok F i e (log w) (proposal_id p :: seen) vals) as Hok'
    by (eapply node_ok_history; [| |done]; [by right|done]).
  unfold handle_proposal. wp_engine. case_match; wp_engine; [done|].
  rewrite Hvs. cbn. destruct (min_peer (verifs (proposal_id p))) as [c|] eqn:Hmin;
    [|by apply min_peer_None in Hmin].
  assert (coord (proposal_id p) = c) as Hc by (unfold coord; by rewrite Hmin).
  set (tp := two_phase_proposal_new (proposal_id p) c (verifs (proposal_id p))).
  assert (proposal_ok F i (proposal_id p :: seen) vals tp) as Htp
    by (split_and!; [done..|left|]; set_solver).
  assert (proposal_id p ∉ pending_ids e) as Hpend.
  { intros (q & Hq & Hin)%list_elem_of_fmap. destruct Hok.
    rewrite Forall_forall in ok_pending0. destruct (ok_pending0 _ Hin) as (_ & _ & ? & _).
    congruence. }
  assert (coord (proposal_id p) = i → ((CAccept (proposal_id p), true) ∉ log w) ∧
            (CReject (proposal_id p), true) ∉ log w) as Hund.
  { intros Hi. destruct Hok. split; intros ?; destruct (ok_decided0 _ Hi); auto. }
  assert (node_ok F i (push_proposal tp e) (log w) (proposal_id p :: seen) vals) as Hpush.
  { eapply node_ok_add with (e := e) (p := tp); try done; [|apply Hok].
    unfold pending, push_proposal, evaluating; cbn. apply Permutation_submseteq.
    rewrite app_assoc. symmetry. apply Permutation_cons_append. }
  destruct (eng_state e) as [| |q] eqn:Hst; case_bool_decide as Hid; wp_engine;
    try exact Hpush; try exact Hok'.
  all: cbn in Hid; rewrite (ok_id _ _ _ _ _ _ Hok) in Hid; subst c.
  all: destruct (Hund (eq_sym Hid)).
  all: by eapply start_coordination_ok; [done|unfold evaluating; rewrite Hst|..].
Qed.

#[local] Opaque handle_proposal.

Lemma evaluating_proposal_spec id e :
  evaluating_proposal id e = true ↔
  ∃ p, eng_state e = EvaluatingProposal p ∧ tpp_proposal_id p = id.
Proof.
  unfold evaluating_proposal. destruct (eng_state e); rewrite ?bool_decide_eq_true; naive_solver.
Qed.

Lemma evaluating_undecided F i e l seen vals id :
  node_ok F i e l seen vals → evaluating_proposal id e = true → coord id = i →
  ((CAccept id, true) ∉ l) ∧ (CReject id, true) ∉ l.
Proof.
  intros Hok (p & Hst & <-)%evaluating_proposal_spec Hi.
  destruct (evaluating_pending e p Hst). by eapply pending_undecided.
Qed.

(** The coordinator evaluating [id] may complete it. *)
Lemma complete_evaluating_ok F i e w seen vals p res :
  node_ok F i e (log w) seen vals → eng_state e = EvaluatingProposal p →
  coord (tpp_proposal_id p) = i →
  (res = APPLY →
    (∃ v, v ∈ verifs (tpp_proposal_id p) ∧ v ≠ i) ∧
    ∀ v, v ∈ verifs (tpp_proposal_id p) → vouched F i vals (tpp_proposal_id p) v) →
  wp (complete_coordination (tpp_proposal_id p) res) (keeps F i seen vals) (e, w).
Proof.
  intros Hok Hst Hi Hv. destruct (evaluating_pending e p Hst) as [Hp Hpid].
  destruct (pending_undecided _ _ _ _ _ _ _ Hok Hi Hpid).
  apply complete_coordination_ok; try done; [|by eapply evaluating_backlog].
  destruct Hok. rewrite Forall_forall in ok_pending0. by apply ok_pending0.
Qed.

Lemma node_ok_idle F i e l seen vals id :
  node_ok F i e l seen vals → evaluating_proposal id e = true → coord id ≠ i →
  node_ok F i (set_state Idle e) l seen vals.
Proof.
  intros Hok (p & Hst & <-)%evaluating_proposal_spec Hi.
  eapply node_ok_shrink with (e := e); [done|apply (backlog_pending e)| |done].
  cbn. intros (q & Hq & Hc)%(ok_timer _ _ _ _ _ _ Hok). congruence.
Qed.

Lemma request_backlog_ok F i e l seen vals requests :
  node_ok F i e l seen vals → node_ok F i (set_request_backlog requests e) l seen vals.
Proof. intros Hok. by eapply node_ok_shrink with (e := e); [done| |apply Hok|]. Qed.

(** The branch of a verification request for a proposal not being evaluated. *)
Lemma find_in_backlog_ok F i e w seen vals id :
  node_ok F i e (log w) seen vals →
  (evaluating e = [] ∨ id ∉ tpp_proposal_id <$> eng_proposal_backlog e) →
  wp (match position (has_id id) (eng_proposal_backlog e) with
      | Some idx =>
          manager (check_proposal id);;
          match remove_at idx (eng_proposal_backlog e) with
          | Some (p, backlog) =>
              update (λ e, set_state (EvaluatingProposal p) (set_proposal_backlog backlog e))
          | None => mret ()
          end
      | None => update (push_request id)
      end) (keeps F i seen vals) (e, w).
Proof.
  intros Hok He.
  assert (∀ r, node_ok F i e ((CCheck id, r) :: log w) seen vals) as Hok'
    by (intros r; by apply node_ok_call).
  destruct (position _ _) as [idx|] eqn:Hpos; wp_engine; [..|by apply request_backlog_ok].
  - pose proof Hpos as (p & l1 & l2 & Hb & _ & Hid & Hrm & _)%position_Some.
    rewrite Hrm. wp_engine. destruct He as [He|Hni].
    + eapply node_ok_evaluate; [exact Hpos|exact Hrm|exact He|apply Hok'].
    + apply has_id_spec in Hid. rewrite Hb, fmap_app in Hni. set_solver.
  - apply Hok'.
Qed.

Lemma verified_response_ok F i e w seen vals p from :
  node_ok F i e (log w) seen vals → eng_state e = EvaluatingProposal p →
  coord (tpp_proposal_id p) = i → from ≠ i → f_valid F from (tpp_proposal_id p) →
  wp (update (set_state (EvaluatingProposal (add_verified_peer p from)));;
      if bool_decide (tpp_peers_verified (add_verified_peer p from) =
                      tpp_required_verifiers (add_verified_peer p from))
      then complete_coordination (tpp_proposal_id p) APPLY
      else mret ()) (keeps F i seen vals) (e, w).
Proof.
  intros Hok Hst Hi Hfrom Hval. wp_engine.
  destruct (evaluating_pending e p Hst) as [Hp _].
  assert (proposal_ok F i seen vals (add_verified_peer p from)) as (Hc & Hreq & Hseen & Hv).
  { destruct Hok. rewrite Forall_forall in ok_pending0.
    destruct (ok_pending0 p Hp) as (? & ? & ? & Hv). split_and!; try done.
    cbn. intros v [->%elem_of_singleton|?]%elem_of_union; [right|by auto].
    split; [done|congruence]. }
  set (e' := set_state _ e).
  assert (node_ok F i e' (log w) seen vals) as Hok'.
  { destruct Hok. unfold pending_ids, pending, evaluating in *. rewrite Hst in *. split; try done.
    - by apply Forall_cons in ok_pending0 as [_ ?]; constructor.
    - intros _. by exists (add_verified_peer p from). }
  case_bool_decide as Heq; wp_engine; [|done].
  apply (complete_evaluating_ok F i e' w seen vals (add_verified_peer p from)); try done.
  cbn in *. intros _. rewrite <-Hreq, <-Heq. split; [|done]. exists from. set_solver.
Qed.

Lemma handle_consensus_msg_ok F i e w seen vals cm :
  node_ok F i e (log w) seen vals → own_facts F i (log w) →
  received_ok F i (origin_id cm) (message cm) →
  wp (handle_consensus_msg cm) (keeps F i seen vals) (e, w).
Proof.
  intros Hok Hown Hrecv. unfold handle_consensus_msg. wp_engine.
  destruct (parse_from_bytes (message cm)) as [m|] eqn:Hm; cbn; [|done].
  specialize (Hrecv m Hm). set (id := tpm_proposal_id m) in *.
  destruct (tpm_message_type m).
  - done.
  - wp_engine. destruct (eng_state e) as [| |p] eqn:Hst; try case_bool_decide as Hid; wp_engine.
    + apply find_in_backlog_ok; [done|]. left. unfold evaluating. by rewrite Hst.
    + apply find_in_backlog_ok; [done|]. left. unfold evaluating. by rewrite Hst.
    + by apply request_backlog_ok.
    + apply find_in_backlog_ok; [done|]. right. rewrite <-Hid.
      by eapply evaluating_backlog.
  - destruct Hrecv as (Hi & Hfrom & Hval). wp_engine.
    destruct (evaluating_proposal id e) eqn:Hev; cbn; [|done].
    apply evaluating_proposal_spec in Hev as (p & Hst & Hid). rewrite <-Hid in *.
    destruct (tpm_proposal_verification_response m); [done|..].
    + rewrite Hst. apply verified_response_ok; auto.
    + by apply complete_evaluating_ok.
  - destruct (tpm_proposal_result m); [done|..].
    + wp_engine. destruct (evaluating_proposal id e) eqn:Hev; wp_engine; [..|done].
      all: assert (coord id ≠ i) as Hni by (intros Hi;
        destruct (evaluating_undecided _ _ _ _ _ _ _ Hok Hev Hi), (Hown id Hi); auto).
      * eapply node_ok_idle; [|done..]. apply node_ok_call; [|done].
        cbn. by rewrite decide_False by done.
      * apply node_ok_call; [|done]. cbn. by rewrite decide_False by done.
    + assert (∀ r, node_ok F i e ((CReject id, r) :: log w) seen vals) as Hok'.
      { intros r. apply node_ok_call; [|done]. cbn. case_decide as Hi; [|done]. intros _.
        apply Hown in Hrecv; [|done]. destruct Hok.
        destruct (ok_decided0 id Hi) as [? ?]; [by right|]. naive_solver. }
      wp_engine; [destruct (evaluating_proposal id e) eqn:Hev; wp_engine|]; try apply Hok'.
      eapply node_ok_idle; [apply Hok'|done|]. intros Hi.
      destruct (evaluating_undecided _ _ _ _ _ _ _ Hok Hev Hi), (Hown id Hi); auto.
Qed.

(** ** Updates from the proposal manager *)

(** The proposals seen and found valid after an update. *)
Definition seen_after (u : ProposalUpdate) (seen : list ProposalId) : list ProposalId :=
  match u with
  | ProposalCreated (Some p) | ProposalReceived p _ => proposal_id p :: seen
  | _ => seen
  end.
Definition valid_after (u : ProposalUpdate) (vals : list ProposalId) : list ProposalId :=
  match u with ProposalValid id => id :: vals | _ => vals end.

(** What the engine expects of its proposal manager: a proposal is announced
    once to each node, with verifiers that depend on the proposal only. *)
Definition update_ok (e : TwoPhaseEngine) (seen : list ProposalId) (u : ProposalUpdate) : Prop :=
  match u with
  | ProposalCreated (Some p) | ProposalReceived p _ =>
      (proposal_id p ∉ seen) ∧ proposal_verifiers e p = Some (verifs (proposal_id p)) ∧
      verifs (proposal_id p) ≠ ∅
  | _ => True
  end.

(** This node, coordinating [p], adds itself to the peers that verified it. *)
Lemma node_ok_self_verified F i e l seen vals p :
  node_ok F i e l seen vals → eng_state e = EvaluatingProposal p →
  coord (tpp_proposal_id p) = i → tpp_proposal_id p ∈ vals →
  node_ok F i (set_state (EvaluatingProposal (add_verified_peer p i)) e) l seen vals.
Proof.
  intros [] Hst Hi Hval. unfold pending_ids, pending, evaluating in *. rewrite Hst in *.
  split; try done.
  - apply Forall_cons in ok_pending0 as [(? & ? & ? & Hv) ?]. constructor; [|done].
    split_and!; try done. cbn.
    intros v [->%elem_of_singleton|?]%elem_of_union; [by left|by auto].
  - intros _. by exists (add_verified_peer p i).
Qed.

Lemma proposal_valid_ok F i e w seen vals id :
  node_ok F i e (log w) seen vals → id ∈ vals →
  wp (handle_proposal_update (ProposalValid id)) (keeps F i seen vals) (e, w).
Proof.
  intros Hok Hval. unfold handle_proposal_update. wp_engine.
  destruct (eng_state e) as [| |p] eqn:Hst; [done..|].
  case_bool_decide as Hid; [subst id|done].
  destruct (evaluating_pending e p Hst) as [Hp _].
  pose proof (proj1 (Forall_forall _ _) (ok_pending _ _ _ _ _ _ Hok) p Hp) as (Hc & _).
  rewrite (ok_id _ _ _ _ _ _ Hok), Hc. case_bool_decide as Hi; wp_engine.
  - assert (node_ok F i (set_state (EvaluatingProposal (add_verified_peer p i)) e)
              (log w) seen vals) as Hok' by (by apply node_ok_self_verified).
    destruct (write_to_bytes _) as [b|] eqn:Hw; cbn; [|done].
    wp_engine; (apply node_ok_call; [|done]); left; eauto.
  - destruct (write_to_bytes _) as [b|] eqn:Hw; cbn; [|done].
    wp_engine; (apply node_ok_call; [|done]);
      exists (tpp_proposal_id p), VERIFIED; by split_and!.
Qed.

Lemma handle_proposal_update_ok F i e w seen vals u :
  node_ok F i e (log w) seen vals → update_ok e seen u →
  wp (handle_proposal_update u) (keeps F i (seen_after u seen) (valid_after u vals)) (e, w).
Proof.
  intros Hok Hu. destruct u as [[p|]|p from|id|id|id|id err|]; cbn [seen_after valid_after];
    try done.
  - destruct Hu as (? & ? & ?). by apply handle_proposal_ok.
  - unfold handle_proposal_update. wp_engine.
    destruct (eng_state e) eqn:Hst; wp_engine; try done.
    eapply node_ok_shrink with (e := e); [done|apply (backlog_pending e)| |done].
    cbn. intros Ht. exfalso. apply Ht.
    eapply node_ok_no_timer; [done|]. unfold evaluating. by rewrite Hst.
  - destruct Hu as (? & ? & ?). by apply handle_proposal_ok.
  - apply proposal_valid_ok; [|left].
    eapply node_ok_history; [| |done]; [done|by right].
  - unfold handle_proposal_update. wp_engine.
    destruct (eng_state e) as [| |p] eqn:Hst; [done..|].
    case_bool_decide as Hid; [subst id|done].
    destruct (evaluating_pending e p Hst) as [Hp _].
    pose proof (proj1 (Forall_forall _ _) (ok_pending _ _ _ _ _ _ Hok) p Hp) as (Hc & _).
    rewrite (ok_id _ _ _ _ _ _ Hok), Hc. case_bool_decide as Hi.
    + by apply complete_evaluating_ok.
    + wp_engine. destruct (write_to_bytes _) as [b|] eqn:Hw; cbn; [|done].
      wp_engine; (apply node_ok_call; [|done]);
        exists (tpp_proposal_id p), FAILED; by split_and!.
Qed.

(** ** The periodic work of the loop *)

Lemma abort_proposal_if_timed_out_ok F i e w seen vals :
  node_ok F i e (log w) seen vals →
  wp abort_proposal_if_timed_out (keeps F i seen vals) (e, w).
Proof.
  intros Hok. unfold abort_proposal_if_timed_out. wp_engine.
  destruct (eng_state e) as [| |p] eqn:Hst; [done..|]. wp_engine.
  destruct (check_expired _ _) as [expired t] eqn:Hexp. wp_engine.
  pose proof (check_expired_active _ _ _ _ Hexp) as Ht.
  assert (node_ok F i (set_timeout t e) (log w) seen vals) as Hok'.
  { eapply node_ok_shrink with (e := e); [done..| |done].
    intros Hact. destruct (ok_timer _ _ _ _ _ _ Hok) as (q & ? & ?); [auto|]. by exists q. }
  destruct expired; wp_engine; [|done].
  apply complete_evaluating_ok; try done.
  destruct (ok_timer _ _ _ _ _ _ Hok) as (q & ? & ?); [auto|congruence].
Qed.

Lemma handle_backlogged_verification_request_ok F i e w seen vals :
  node_ok F i e (log w) seen vals →
  wp handle_backlogged_verification_request (keeps F i seen vals) (e, w).
Proof.
  intros Hok. unfold handle_backlogged_verification_request. wp_engine.
  destruct (eng_state e) eqn:Hst; [|done..].
  destruct (position _ (eng_verification_request_backlog e)) as [idx|]; [|done].
  destruct (remove_at idx _) as [[id requests]|]; [|done]. wp_engine.
  destruct (position (has_id id) _) as [j|] eqn:Hpos; cbn; [|by apply request_backlog_ok].
  pose proof Hpos as (p & l1 & l2 & Hb & _ & _ & Hrm & _)%position_Some. rewrite Hrm.
  assert (node_ok F i (set_proposal_backlog (l1 ++ l2) (set_request_backlog requests e))
            (log w) seen vals ∧
          node_ok F i (set_state (EvaluatingProposal p) (set_proposal_backlog (l1 ++ l2)
            (set_request_backlog requests e))) (log w) seen vals) as [Hok1 Hok2].
  { split.
    - eapply node_ok_shrink with (e := e); [done| |apply Hok|done].
      unfold pending, evaluating; cbn. rewrite Hst, Hb. cbn.
      rewrite <-Permutation_middle. by constructor.
    - eapply node_ok_evaluate; [exact Hpos|exact Hrm| |by apply request_backlog_ok].
      unfold evaluating; cbn. by rewrite Hst. }
  wp_engine; by apply node_ok_call.
Qed.

Lemma get_next_proposal_ok F i e w seen vals :
  node_ok F i e (log w) seen vals →
  wp get_next_proposal (keeps F i seen vals) (e, w).
Proof.
  intros Hok. unfold get_next_proposal. wp_engine.
  destruct (eng_state e) eqn:Hst; [|done..].
  destruct (position _ (eng_proposal_backlog e)) as [j|] eqn:Hpos; cbn.
  - pose proof Hpos as (p & l1 & l2 & Hb & _ & Hc & Hrm & _)%position_Some. rewrite Hrm.
    apply bool_decide_eq_true in Hc. rewrite (ok_id _ _ _ _ _ _ Hok) in Hc.
    wp_engine.
    assert (pending e ≡ₚ p :: (l1 ++ l2)) as Hperm.
    { rewrite pending_idle, Hb by done. symmetry. apply Permutation_middle. }
    assert (p ∈ pending e) as Hp by (rewrite Hperm; left).
    pose proof (proj1 (Forall_forall _ _) (ok_pending _ _ _ _ _ _ Hok) p Hp) as Hpok.
    assert (coord (tpp_proposal_id p) = i) as Hi by (destruct Hpok; congruence).
    destruct (pending_undecided _ _ _ _ _ _ _ Hok Hi) as [??].
    { unfold pending_ids. apply list_elem_of_fmap. eauto. }
    eapply wp_mono; [eapply start_coordination_ok; try done|done].
    + eapply node_ok_shrink with (e := e); [done| |apply Hok|done].
      rewrite Hperm, pending_idle by done. apply submseteq_cons, reflexivity.
    + unfold evaluating; cbn. by rewrite Hst.
    + pose proof (ok_nodup _ _ _ _ _ _ Hok) as Hnd. unfold pending_ids in Hnd.
      rewrite Hperm in Hnd. apply NoDup_cons in Hnd as [Hnd _].
      unfold pending_ids. by rewrite pending_idle.
  - assert (∀ r, node_ok F i e ((CCreate, r) :: log w) seen vals) as Hok'
      by (intros r; by apply node_ok_call).
    wp_engine; [|apply Hok'].
    eapply node_ok_shrink with (e := e); [done| | |apply Hok'].
    + apply (backlog_pending e).
    + cbn. intros Ht. exfalso. apply Ht.
      eapply node_ok_no_timer; [done|]. unfold evaluating. by rewrite Hst.
Qed.
End node.

(** ** The log only grows *)

Section extends.
Context {W : Type} `{!Codec TwoPhaseMessage, !Codec RequiredVerifiers}
  `{!ProposalManager W, !ConsensusNetworkSender W, !Clock W}.

Definition extends {A} (m : eff (TwoPhaseEngine * traced W) ConsensusEngineError A) : Prop :=
  ∀ s, log s.2 `suffix_of` log (m s).2.2.

Lemma extends_ret {A} (a : A) : extends (mret a).
Proof. by intros s. Qed.
Lemma extends_self : extends self_.
Proof. by intros s. Qed.
Lemma extends_update f : extends (update f).
Proof. by intros s. Qed.
Lemma extends_now : extends instant_now.
Proof. by intros s. Qed.
Lemma extends_proto {A} (o : option A) : extends (proto o).
Proof. by intros s. Qed.
Lemma extends_bind {A B} (m : eff _ _ A) (k : A → eff _ _ B) :
  extends m → (∀ a, extends (k a)) → extends (m ≫= k).
Proof.
  intros Hm Hk s. specialize (Hm s). unfold mbind, eff_bind.
  destruct (m s) as [[a|e] s']; cbn in *; [|done]. etrans; [done|apply Hk].
Qed.
Lemma extends_manager c (m : eff W ProposalManagerError ()) : extends (manager (trace c m)).
Proof.
  intros s. unfold manager, trace. destruct (m (inner s.2)). cbn. by apply suffix_cons_r.
Qed.
Lemma extends_network c (m : eff W ConsensusSendError ()) : extends (network (trace c m)).
Proof.
  intros s. unfold network, trace. destruct (m (inner s.2)). cbn. by apply suffix_cons_r.
Qed.
Lemma extends_attempt {A} (m : eff _ _ A) : extends m → extends (attempt m).
Proof. intros Hm s. specialize (Hm s). unfold attempt. by destruct (m s). Qed.
Lemma extends_catch_log (m : eff _ _ ()) : extends m → extends (catch_log m).
Proof. intros Hm s. specialize (Hm s). unfold catch_log. by destruct (m s). Qed.

#[local] Hint Resolve extends_ret extends_self extends_update extends_now extends_proto : splinter.

Ltac solve_extends :=
  repeat first
    [ progress intros
    | solve [eauto with splinter nocore]
    | apply extends_manager | apply extends_network
    | apply extends_bind | apply extends_attempt | apply extends_catch_log
    | case_match ].

Lemma complete_coordination_extends id r : extends (complete_coordination id r).
Proof. unfold complete_coordination. solve_extends. Qed.
#[local] Hint Resolve complete_coordination_extends : splinter.

Lemma start_coordination_extends p : extends (start_coordination p).
Proof. unfold start_coordination. solve_extends. Qed.
#[local] Hint Resolve start_coordination_extends : splinter.

Lemma handle_proposal_extends p : extends (handle_proposal p).
Proof. unfold handle_proposal. solve_extends. Qed.
#[local] Hint Resolve handle_proposal_extends : splinter.

Lemma handle_consensus_msg_extends cm : extends (handle_consensus_msg cm).
Proof. unfold handle_consensus_msg. solve_extends. Qed.

Lemma handle_proposal_update_extends u : extends (handle_proposal_update u).
Proof. unfold handle_proposal_update. solve_extends. Qed.

Lemma abort_proposal_if_timed_out_extends : extends abort_proposal_if_timed_out.
Proof. unfold abort_proposal_if_timed_out. solve_extends. Qed.

Lemma handle_backlogged_verification_request_extends :
  extends handle_backlogged_verification_request.
Proof. unfold handle_backlogged_verification_request. solve_extends. Qed.

Lemma get_next_proposal_extends : extends get_next_proposal.
Proof. unfold get_next_proposal. solve_extends. Qed.
End extends.
