(* ===== verification/TwoPhaseNetwork.v ===== *)
(** * Atomic commitment by a network of two-phase nodes

    A network is a two-phase engine per node, each over its own world (proposal
    manager, network sender, clock) with the calls it made.  A message may be
    delivered, any number of times and in any order, to any node it was sent
    to; the managers, the senders and the clocks may do anything.  Under what
    the engine expects of its proposal managers ([update_ok]) the network
    commits a proposal only when every verifier found it valid and no two nodes
    decide differently. *)

From S2P Require Import Prelude Consensus AtomicCommit TwoPhase TwoPhaseNode.
From stdpp Require Import functions relations.
From Stdlib Require Import ZArith.

Record node (W : Type) := mkNode {
  n_engine : TwoPhaseEngine;
  n_world : traced W;
  n_seen : list ProposalId;
  n_valid : list ProposalId;
}.
Arguments mkNode {W} n_engine n_world n_seen n_valid.
Arguments n_engine {W} n.
Arguments n_world {W} n.
Arguments n_seen {W} n.
Arguments n_valid {W} n.

(** What can happen next in a network. *)
Inductive event (W : Type) :=
  | EMessage (from to : PeerId) (b : bytes)
  | EUpdate (to : PeerId) (u : ProposalUpdate)
  | EAbort (i : PeerId)
  | EBacklog (i : PeerId)
  | ENext (i : PeerId)
  | EWorld (i : PeerId) (w : W).
Arguments EMessage {W} from to b.
Arguments EUpdate {W} to u.
Arguments EAbort {W} i.
Arguments EBacklog {W} i.
Arguments ENext {W} i.
Arguments EWorld {W} i w.

Section network.
Context {W : Type} `{!Codec TwoPhaseMessage, !CodecLaws TwoPhaseMessage, !Codec RequiredVerifiers}
  `{!ProposalManager W, !ConsensusNetworkSender W, !Clock W}.
Context (verifs : ProposalId → gset PeerId).

Abbreviation net := (PeerId → node W) (only parsing).
Abbreviation coord := (coord verifs).

Definition n_log (n : node W) : calls := log (n_world n).

Definition sent_to (g : net) (from to : PeerId) (b : bytes) : Prop :=
  (∃ r, (CSendTo to b, r) ∈ n_log (g from)) ∨ (∃ r, (CBroadcast b, r) ∈ n_log (g from)).

Definition event_ok (g : net) (ev : event W) : Prop :=
  match ev with
  | EMessage from to b => sent_to g from to b
  | EUpdate i u => update_ok verifs (n_engine (g i)) (n_seen (g i)) u
  | _ => True
  end.

(** One method of the engine of a node. *)
Definition run_node (m : eff (TwoPhaseEngine * traced W) ConsensusEngineError ()) (n : node W) :
    node W :=
  let '(_, (e, w)) := m (n_engine n, n_world n) in mkNode e w (n_seen n) (n_valid n).

Definition node_event (ev : event W) (n : node W) : node W :=
  match ev with
  | EMessage from _ b => run_node (handle_consensus_msg (mkConsensusMessage b from)) n
  | EUpdate _ u =>
      let n' := run_node (handle_proposal_update u) n in
      mkNode (n_engine n') (n_world n') (seen_after u (n_seen n)) (valid_after u (n_valid n))
  | EAbort _ => run_node abort_proposal_if_timed_out n
  | EBacklog _ => run_node handle_backlogged_verification_request n
  | ENext _ => run_node get_next_proposal n
  | EWorld _ w => mkNode (n_engine n) (mkTraced w (n_log n)) (n_seen n) (n_valid n)
  end.

Definition event_node (ev : event W) : PeerId :=
  match ev with
  | EMessage _ i _ | EUpdate i _ | EAbort i | EBacklog i | ENext i | EWorld i _ => i
  end.

Definition apply_event (g : net) (ev : event W) : net :=
  <[event_node ev := node_event ev (g (event_node ev))]> g.

(** Every engine starts as [run] leaves it before its loop. *)
Definition initial (g : net) : Prop :=
  ∀ i, ∃ t d peers last w,
    g i = mkNode (startup (mkStartupState i peers last) (two_phase_engine_new t d))
            (mkTraced w []) [] [].

Inductive reachable : net → Prop :=
  | reachable_initial g : initial g → reachable g
  | reachable_event g ev : reachable g → event_ok g ev → reachable (apply_event g ev).

Definition accepted (g : net) (i : PeerId) (id : ProposalId) : Prop :=
  (CAccept id, true) ∈ n_log (g i).
Definition rejected (g : net) (i : PeerId) (id : ProposalId) : Prop :=
  (CReject id, true) ∈ n_log (g i).

(** ** The invariant of the network *)

Definition net_facts (g : net) : facts := {|
  f_accepted id := accepted g (coord id) id;
  f_rejected id := rejected g (coord id) id;
  f_valid v id := id ∈ n_valid (g v);
|}.

Definition net_ok (g : net) : Prop :=
  ∀ i, node_ok verifs (net_facts g) i (n_engine (g i)) (n_log (g i)) (n_seen (g i)) (n_valid (g i)).

(** Facts only grow. *)
Definition facts_le (F F' : facts) : Prop :=
  (∀ id, f_accepted F id → f_accepted F' id) ∧
  (∀ id, f_rejected F id → f_rejected F' id) ∧
  (∀ v id, f_valid F v id → f_valid F' v id).

Lemma node_ok_facts F F' i e l seen vals :
  facts_le F F' → node_ok verifs F i e l seen vals → node_ok verifs F' i e l seen vals.
Proof.
  intros (Ha & Hr & Hv) [].
  assert (∀ id v, vouched verifs F i vals id v → vouched verifs F' i vals id v) as Hvouch.
  { intros id v [?|[? ?]]; [by left|right; auto]. }
  split; try done; [|naive_solver..].
  eapply Forall_impl; [done|]. intros p (? & ? & ? & ?). split_and!; auto.
Qed.

(** A message that was sent is one its receiver may rely on. *)
Lemma sent_received_ok g from to b :
  net_ok g → sent_to g from to b → received_ok verifs (net_facts g) to from b.
Proof.
  intros Hg Hsent m Hm. pose proof (ok_sent _ _ _ _ _ _ _ (Hg from)) as Hok.
  destruct Hsent as [[r Hin]|[r Hin]]; apply Hok in Hin; cbn in Hin.
  - destruct Hin as (id & resp & Hw%parse_write & -> & Hne & Hval).
    rewrite Hm in Hw. injection Hw as ->. cbn. auto.
  - destruct Hin as [(id & Hw)|[(id & Hw & <- & ?)|(id & Hw & <- & ?)]];
      apply parse_write in Hw; rewrite Hm in Hw; by injection Hw as ->.
Qed.

(** ** Every reachable network satisfies the invariant *)

Lemma node_event_log ev n : n_log n `suffix_of` n_log (node_event ev n).
Proof.
  assert (∀ m, extends m → n_log n `suffix_of` n_log (run_node m n)) as Hrun.
  { intros m Hm. specialize (Hm (n_engine n, n_world n)). unfold run_node.
    by destruct (m _) as [? []]. }
  destruct ev; cbn [node_event]; [..|done];
    [|unfold n_log at 2; cbn [n_world]; fold (n_log (run_node (handle_proposal_update u) n))| | |];
    apply Hrun.
  - apply handle_consensus_msg_extends.
  - apply handle_proposal_update_extends.
  - apply abort_proposal_if_timed_out_extends.
  - apply handle_backlogged_verification_request_extends.
  - apply get_next_proposal_extends.
Qed.

Lemma node_event_valid ev n : n_valid n `suffix_of` n_valid (node_event ev n).
Proof.
  assert (∀ m, n_valid (run_node m n) = n_valid n) as Hrun
    by (intros m; unfold run_node; by destruct (m _) as [? []]).
  destruct ev as [| ? []| | | |]; cbn [node_event n_valid]; rewrite ?Hrun; cbn; try done.
  by apply suffix_cons_r.
Qed.

Lemma apply_event_other g ev i : i ≠ event_node ev → apply_event g ev i = g i.
Proof. intros Hi. unfold apply_event. by rewrite fn_lookup_insert_ne. Qed.

Lemma apply_event_node g ev :
  apply_event g ev (event_node ev) = node_event ev (g (event_node ev)).
Proof. unfold apply_event. by rewrite fn_lookup_insert. Qed.

Lemma apply_event_log g ev i : n_log (g i) `suffix_of` n_log (apply_event g ev i).
Proof.
  destruct (decide (i = event_node ev)) as [->|].
  - rewrite apply_event_node. apply node_event_log.
  - by rewrite apply_event_other.
Qed.

Lemma apply_event_valid g ev i : n_valid (g i) `suffix_of` n_valid (apply_event g ev i).
Proof.
  destruct (decide (i = event_node ev)) as [->|].
  - rewrite apply_event_node. apply node_event_valid.
  - by rewrite apply_event_other.
Qed.

Lemma elem_of_suffix {A} (x : A) l k : l `suffix_of` k → x ∈ l → x ∈ k.
Proof. intros [k' ->] ?. apply elem_of_app. by right. Qed.

Lemma apply_event_facts g ev : facts_le (net_facts g) (net_facts (apply_event g ev)).
Proof.
  split_and!; cbn; intros *; apply elem_of_suffix; auto using apply_event_log, apply_event_valid.
Qed.

Lemma net_own_facts g i : own_facts verifs (net_facts g) i (n_log (g i)).
Proof. intros id <-. done. Qed.

Lemma run_node_ok F i m n seen vals :
  wp m (keeps verifs F i seen vals) (n_engine n, n_world n) →
  node_ok verifs F i (n_engine (run_node m n)) (n_log (run_node m n)) seen vals.
Proof. unfold wp, run_node. by destruct (m _) as [? []]. Qed.

Lemma node_event_ok g ev :
  net_ok g → event_ok g ev →
  let i := event_node ev in let n := node_event ev (g i) in
  node_ok verifs (net_facts g) i (n_engine n) (n_log n) (n_seen n) (n_valid n).
Proof.
  intros Hg Hev i n. pose proof (Hg i) as Hi. subst n.
  assert (∀ m, n_seen (run_node m (g i)) = n_seen (g i) ∧
               n_valid (run_node m (g i)) = n_valid (g i)) as Hrun
    by (intros m; unfold run_node; by destruct (m _) as [? []]).
  destruct ev as [from to b|to u| | | |i' w]; cbn [node_event event_node] in i |- *.
  1,3,4,5: rewrite (proj1 (Hrun _)), (proj2 (Hrun _)); apply run_node_ok.
  - apply handle_consensus_msg_ok; [done|apply net_own_facts|].
    by apply sent_received_ok.
  - by apply abort_proposal_if_timed_out_ok.
  - by apply handle_backlogged_verification_request_ok.
  - by apply get_next_proposal_ok.
  - apply (run_node_ok _ _ (handle_proposal_update u)). by apply handle_proposal_update_ok.
  - done.
Qed.

Lemma apply_event_ok g ev : net_ok g → event_ok g ev → net_ok (apply_event g ev).
Proof.
  intros Hg Hev i. eapply node_ok_facts; [apply apply_event_facts|].
  destruct (decide (i = event_node ev)) as [->|].
  - rewrite apply_event_node. by apply node_event_ok.
  - rewrite apply_event_other by done. apply Hg.
Qed.

Lemma initial_ok g : initial g → net_ok g.
Proof.
  intros Hg i. destruct (Hg i) as (t & d & peers & last & w & ->).
  split; cbn; try set_solver; try done. constructor.
Qed.

Lemma reachable_ok g : reachable g → net_ok g.
Proof. induction 1; [by apply initial_ok|by apply apply_event_ok]. Qed.

(** ** Simulation of atomic commitment *)

Definition outcome_of (c : call * bool) : option (ProposalId * bool) :=
  match c with
  | (CAccept id, true) => Some (id, true)
  | (CReject id, true) => Some (id, false)
  | _ => None
  end.

(** The network [g] is in the abstract state [s]. *)
Definition refines (g : net) (s : spec) : Prop :=
  ∀ i, votes s i = n_valid (g i) ∧ outcomes s i = omap outcome_of (n_log (g i)).

Lemma elem_of_outcome (l : calls) id (d : bool) :
  (id, d) ∈ omap outcome_of l ↔ ((if d then CAccept id else CReject id), true) ∈ l.
Proof.
  rewrite list_elem_of_omap. split.
  - intros ([c r] & Hin & Ho). destruct c, r; cbn in Ho; try done; by injection Ho as -> <-.
  - intros Hin. eexists. split; [done|]. by destruct d.
Qed.

Lemma initial_refines g : initial g → refines g spec_init.
Proof. intros Hg i. by destruct (Hg i) as (t & d & peers & last & w & ->). Qed.

(** What the node of an event adds to its log, in terms of outcomes. *)
Lemma new_outcomes_ok g i id d :
  net_ok g → (id, d) ∈ omap outcome_of (n_log (g i)) →
  if decide (coord id = i) then
    ((id, negb d) ∉ omap outcome_of (n_log (g i))) ∧
    (d = true → ∀ v, v ∈ verifs id → id ∈ n_valid (g v))
  else (id, d) ∈ omap outcome_of (n_log (g (coord id))).
Proof.
  intros Hg Hin. destruct (Hg i) as [_ _ _ _ _ Hx Hu Ha Hr _]. 
  apply elem_of_outcome in Hin. case_decide as Hi; rewrite !elem_of_outcome.
  - split; [destruct d; cbn in *; eauto|]. intros -> v Hv. cbn in Hin.
    destruct (Hu id Hi Hin) as [_ Hall].
    by destruct (Hall v Hv) as [(-> & _ & ?)|[? _]].
  - destruct d; [by apply Ha|by eapply Hr].
Qed.

Lemma simulate_event g ev s :
  net_ok g → event_ok g ev → refines g s →
  ∃ s', rtc (spec_step verifs coord) s s' ∧ refines (apply_event g ev) s'.
Proof.
  intros Hg Hev Hs. pose proof (apply_event_ok _ _ Hg Hev) as Hg'.
  set (i := event_node ev) in *. set (g' := apply_event g ev) in *.
  destruct (apply_event_valid g ev i) as [kv Hkv], (apply_event_log g ev i) as [kl Hkl].
  fold g' in Hkv, Hkl. set (s1 := foldr (cast_vote i) s kv).
  assert (∀ j, votes s1 j = n_valid (g' j)) as Hv1.
  { intros j. unfold s1. rewrite votes_foldr, (proj1 (Hs j)). case_decide as Hj.
    - subst j. by rewrite Hkv.
    - unfold g'. by rewrite apply_event_other. }
  assert (∀ j, outcomes s1 j = omap outcome_of (n_log (g j))) as Ho1.
  { intros j. unfold s1. rewrite outcomes_foldr_vote. apply Hs. }
  exists (foldr (record_outcome i) s1 (omap outcome_of kl)). split.
  - etrans; [apply cast_votes_steps|]. apply record_outcomes_steps. intros id d Hin.
    pose proof (new_outcomes_ok g' i id d Hg') as Hnew. rewrite Hkl, omap_app in Hnew.
    rewrite elem_of_app in Hnew. specialize (Hnew (or_introl Hin)). case_decide as Hi.
    + rewrite Ho1. split; [apply Hnew|]. intros Hd v Hv. rewrite Hv1. by apply Hnew.
    + rewrite Ho1. revert Hnew. unfold g'. by rewrite apply_event_other.
  - intros j. rewrite votes_foldr_outcome, outcomes_foldr. split; [done|].
    rewrite Ho1. case_decide as Hj.
    + subst j. by rewrite Hkl, omap_app.
    + unfold g'. by rewrite apply_event_other.
Qed.

(** Runs: the events of [evs] happen in order. *)
Inductive run_events : net → list (event W) → net → Prop :=
  | run_events_nil g : run_events g [] g
  | run_events_cons g ev evs g' :
      event_ok g ev → run_events (apply_event g ev) evs g' → run_events g (ev :: evs) g'.

Lemma reachable_run g evs g' : run_events g evs g' → reachable g → reachable g'.
Proof. induction 1; eauto using reachable_event. Qed.

(** ** What the coordinator of a decided proposal did *)

Lemma accepted_at_coordinator g i id :
  net_ok g → accepted g i id → accepted g (coord id) id.
Proof.
  intros Hg Ha. destruct (decide (coord id = i)) as [<-|Hi]; [done|].
  exact (ok_accepted _ _ _ _ _ _ _ (Hg i) id Hi Ha).
Qed.

Lemma rejected_at_coordinator g i id :
  net_ok g → rejected g i id → rejected g (coord id) id.
Proof.
  intros Hg Hr. destruct (decide (coord id = i)) as [<-|Hi]; [done|].
  exact (ok_rejected _ _ _ _ _ _ _ (Hg i) id true Hi Hr).
Qed.

Lemma accepted_unanimous g i id :
  net_ok g → accepted g i id →
  (∃ v, v ∈ verifs id ∧ v ≠ coord id) ∧ ∀ v, v ∈ verifs id → id ∈ n_valid (g v).
Proof.
  intros Hg Ha%accepted_at_coordinator; [|done].
  destruct (ok_unanimous _ _ _ _ _ _ _ (Hg (coord id)) id eq_refl Ha) as [? Hall].
  split; [done|]. intros v Hv. by destruct (Hall v Hv) as [(-> & _ & ?)|[? _]].
Qed.
End network.
