(* ===== verification/TwoPhaseProps.v ===== *)
(** * What two-phase commit guarantees

    The properties of the two-phase engine and of networks of engines, and a
    concrete network that commits a proposal. *)

From S2P Require Import Prelude Consensus AtomicCommit TwoPhase TwoPhaseNode TwoPhaseNetwork.
From stdpp Require Import functions relations.
From Stdlib Require Import ZArith.

(** ** A concrete world

    The clock is the world; the managers and senders accept every call. *)
Module Mock.
Export CountableCodec.

#[export] Instance TwoPhaseMessage_Type_eq_dec : EqDecision TwoPhaseMessage_Type.
Proof. solve_decision. Defined.
#[export] Instance ProposalVerificationResponse_eq_dec :
  EqDecision TwoPhaseMessage_ProposalVerificationResponse.
Proof. solve_decision. Defined.
#[export] Instance ProposalResult_eq_dec : EqDecision TwoPhaseMessage_ProposalResult.
Proof. solve_decision. Defined.
#[export] Instance TwoPhaseMessage_eq_dec : EqDecision TwoPhaseMessage.
Proof. solve_decision. Defined.
#[export] Instance RequiredVerifiers_eq_dec : EqDecision RequiredVerifiers.
Proof. solve_decision. Defined.

Definition type_code (t : TwoPhaseMessage_Type) : nat :=
  match t with
  | UNSET_TYPE => 0 | PROPOSAL_VERIFICATION_REQUEST => 1
  | PROPOSAL_VERIFICATION_RESPONSE => 2 | PROPOSAL_RESULT => 3
  end.
Definition type_of_code (n : nat) : TwoPhaseMessage_Type :=
  match n with
  | 0 => UNSET_TYPE | 1 => PROPOSAL_VERIFICATION_REQUEST
  | 2 => PROPOSAL_VERIFICATION_RESPONSE | _ => PROPOSAL_RESULT
  end.
Definition response_code (r : TwoPhaseMessage_ProposalVerificationResponse) : nat :=
  match r with UNSET_VERIFICATION_RESPONSE => 0 | VERIFIED => 1 | FAILED => 2 end.
Definition response_of_code (n : nat) : TwoPhaseMessage_ProposalVerificationResponse :=
  match n with 0 => UNSET_VERIFICATION_RESPONSE | 1 => VERIFIED | _ => FAILED end.
Definition result_code (r : TwoPhaseMessage_ProposalResult) : nat :=
  match r with UNSET_RESULT => 0 | APPLY => 1 | REJECT => 2 end.
Definition result_of_code (n : nat) : TwoPhaseMessage_ProposalResult :=
  match n with 0 => UNSET_RESULT | 1 => APPLY | _ => REJECT end.

#[export] Instance TwoPhaseMessage_countable : Countable TwoPhaseMessage.
Proof.
  refine (inj_countable'
    (λ m, (type_code (tpm_message_type m), tpm_proposal_id m,
           response_code (tpm_proposal_verification_response m),
           result_code (tpm_proposal_result m)))
    (λ '(t, id, r, x),
       mkTwoPhaseMessage (type_of_code t) id (response_of_code r) (result_of_code x)) _).
  by intros [[] ? [] []].
Defined.
#[export] Instance RequiredVerifiers_countable : Countable RequiredVerifiers.
Proof. refine (inj_countable' verifiers mkRequiredVerifiers _). by intros []. Defined.

#[export] Instance mock_manager : ProposalManager Z := {|
  create_proposal _ _ := mret (); check_proposal _ := mret ();
  accept_proposal _ _ := mret (); reject_proposal _ := mret ();
|}.
#[export] Instance mock_sender : ConsensusNetworkSender Z := {|
  send_to _ _ := mret (); broadcast _ := mret ();
|}.
#[export] Instance mock_clock : Clock Z := id.

(** Two nodes [a] and [b], each the other's peer; every other node is alone. *)
Definition peers_of (i : PeerId) : list PeerId :=
  if decide (i = "a") then ["b"] else if decide (i = "b") then ["a"] else [].
Definition net0 : PeerId → node Z := λ i,
  mkNode (startup (mkStartupState i (peers_of i) None) (two_phase_engine_new 0 5000))
    (mkTraced 0%Z []) [] [].
Definition verifs (_ : ProposalId) : gset PeerId := {[ "a"; "b" ]}.
Definition prop : Proposal := mkProposal "p" "" 1 "" "".
Definition enc (m : TwoPhaseMessage) : bytes := default "" (write_to_bytes m).

(** The run that commits the proposal at [a] and then at [b]. *)
Definition commit_a : list (event Z) :=
  [ EUpdate "a" (ProposalCreated (Some prop));
    EUpdate "b" (ProposalReceived prop "a");
    EUpdate "a" (ProposalValid "p");
    EMessage "a" "b" (enc (verification_request "p"));
    EUpdate "b" (ProposalValid "p");
    EMessage "b" "a" (enc (verification_response "p" VERIFIED)) ].
Definition commit_b : list (event Z) :=
  [ EMessage "a" "b" (enc (proposal_result "p" APPLY)) ].
Definition net1 := foldl apply_event net0 commit_a.
Definition net2 := foldl apply_event net1 commit_b.

Lemma run_events_foldl vs evs (g : PeerId → node Z) :
  (∀ k ev, evs !! k = Some ev → event_ok vs (foldl apply_event g (take k evs)) ev) →
  run_events vs g evs (foldl apply_event g evs).
Proof.
  revert g. induction evs as [|ev evs IH]; intros g Hok; [constructor|].
  constructor; [by apply (Hok 0)|]. apply IH. intros k ev' Hk. by apply (Hok (S k)).
Qed.

(** A closed event is possible: its message was just sent, or its proposal is new
    and has the expected verifiers. *)
Ltac solve_event_ok :=
  lazymatch goal with
  | |- event_ok _ _ (EUpdate _ (ProposalValid _)) => exact I
  | |- event_ok _ _ (EUpdate _ _) =>
      split_and!; [vm_compute; inversion 1|vm_compute; reflexivity|vm_compute; discriminate]
  | |- event_ok _ _ (EMessage _ _ _) =>
      first [left; exists true; vm_compute; left | right; exists true; vm_compute; left]
  end.

Lemma net1_run : run_events verifs net0 commit_a net1.
Proof.
  apply run_events_foldl. intros k ev Hk.
  destruct k as [|[|[|[|[|[|k]]]]]]; [injection Hk as <-..|done]; solve_event_ok.
Qed.

Lemma net2_run : run_events verifs net1 commit_b net2.
Proof.
  apply run_events_foldl. intros [|k] ev Hk; [injection Hk as <-|done].
  solve_event_ok.
Qed.

(** Node [c] creates a proposal that only it has to verify, and finds it valid. *)
Definition verifs_c (_ : ProposalId) : gset PeerId := {[ "c" ]}.
Definition events_c : list (event Z) :=
  [EUpdate "c" (ProposalCreated (Some prop)); EUpdate "c" (ProposalValid "p")].
Definition net_c := foldl apply_event net0 events_c.

Lemma net_c_run : run_events verifs_c net0 events_c net_c.
Proof.
  apply run_events_foldl. intros k ev Hk.
  destruct k as [|[|k]]; [injection Hk as <-..|done]; solve_event_ok.
Qed.

Lemma net0_initial : initial net0.
Proof. intros i. by exists 0%Z, 5000%Z, (peers_of i), None, 0%Z. Qed.
End Mock.

(** ** Networks *)

Section network.
Context {W : Type} `{!Codec TwoPhaseMessage, !CodecLaws TwoPhaseMessage, !Codec RequiredVerifiers}
  `{!ProposalManager W, !ConsensusNetworkSender W, !Clock W}.
Context (verifs : ProposalId → gset PeerId).
Implicit Types g : PeerId → node W.

(** C1: a network of two-phase engines implements atomic commitment.  From any
    reachable network in an abstract state, whatever sequence of messages
    (delayed, reordered, repeated or lost), proposal updates, timeouts and
    answers of the proposal managers and senders follows, the abstract protocol
    has a matching sequence of votes, decisions and learnt decisions.  Proposals are
    announced to a node at most once, with the same verifiers, of which there are some,
    at every node. *)
Theorem two_phase_refines_atomic_commit g evs g' s :
  reachable verifs g → refines g s → run_events verifs g evs g' →
  ∃ s', rtc (spec_step verifs (coord verifs)) s s' ∧ refines g' s'.
Proof.
  intros Hg Hs Hrun. revert s Hs.
  induction Hrun as [|g ev evs g' Hev _ IH]; intros s Hs; [by exists s|].
  destruct (simulate_event verifs g ev s) as (s1 & Hs1 & Hr1); [by apply reachable_ok|done..|].
  destruct (IH (reachable_event _ _ _ Hg Hev) s1 Hr1) as (s2 & Hs2 & Hr2).
  exists s2. split; [by etrans|done].
Qed.

(** C5: agreement.  In no reachable network has one node accepted a proposal
    and another (or the same one) rejected it. *)
Theorem two_phase_agreement g i j id :
  reachable verifs g → accepted g i id → ¬ rejected g j id.
Proof.
  intros Hg%reachable_ok Ha%(accepted_at_coordinator verifs)
    Hr%(rejected_at_coordinator verifs); [|done..].
  by apply (ok_exclusive _ _ _ _ _ _ _ (Hg (coord verifs id)) id).
Qed.

(** C8: unanimity.  A proposal some node accepted was found valid by every one
    of its required verifiers. *)
Theorem two_phase_unanimity g i id v :
  reachable verifs g → accepted g i id → v ∈ verifs id → id ∈ n_valid (g v).
Proof.
  intros Hg%reachable_ok Ha%(accepted_unanimous verifs); [|done]. apply Ha.
Qed.

(** A proposal whose only required verifier is one node is never accepted,
    by any node: the coordinator looks for completeness only when a response of
    another peer arrives, and there is none to arrive. *)
Theorem two_phase_single_verifier g i id v :
  reachable verifs g → verifs id = {[ v ]} → ¬ accepted g i id.
Proof.
  intros Hg%reachable_ok Hv ((u & Hu & Hne) & _)%(accepted_unanimous verifs); [|done].
  rewrite Hv in Hu. apply Hne. unfold coord. rewrite Hv in *.
  apply elem_of_singleton in Hu as ->.
  destruct (min_peer {[ v ]}) as [m|] eqn:Hm; cbn.
  - apply min_peer_Some in Hm as [Hm _]. by apply elem_of_singleton in Hm.
  - apply min_peer_None in Hm. set_solver.
Qed.
End network.

Section network_witness.
Import Mock.

Lemma two_phase_refines_atomic_commit_witness :
  ∃ s', rtc (spec_step Mock.verifs (coord Mock.verifs)) spec_init s' ∧ refines net1 s'.
Proof.
  apply (two_phase_refines_atomic_commit Mock.verifs net0 commit_a).
  - apply reachable_initial, net0_initial.
  - apply initial_refines, net0_initial.
  - apply net1_run.
Defined.

Lemma two_phase_agreement_witness : accepted net2 "b" "p" ∧ ¬ rejected net2 "a" "p".
Proof.
  assert (accepted net2 "b" "p") as Hb by (vm_compute; left).
  split; [done|]. apply (two_phase_agreement Mock.verifs net2 "b" "a" "p"); [|done].
  eapply reachable_run; [apply net2_run|]. eapply reachable_run; [apply net1_run|].
  apply reachable_initial, net0_initial.
Defined.

Lemma two_phase_unanimity_witness : "p" ∈ n_valid (net1 "b").
Proof.
  apply (two_phase_unanimity Mock.verifs net1 "a" "p" "b").
  - eapply reachable_run; [apply net1_run|]. apply reachable_initial, net0_initial.
  - vm_compute. right. left.
  - set_solver.
Defined.

Lemma two_phase_single_verifier_witness :
  "p" ∈ n_valid (net_c "c") ∧ ¬ accepted net_c "c" "p".
Proof.
  split; [vm_compute; left|].
  apply (two_phase_single_verifier verifs_c net_c "c" "p" "c"); [|done].
  eapply reachable_run; [apply net_c_run|]. apply reachable_initial, net0_initial.
Defined.
End network_witness.
