(* ===== verification/TwoPhaseProgress.v ===== *)
(** * What the two-phase engine does with its inputs

    The loop of [run] as a sequence of node events, and the progress of a
    coordinator: it commits when all the responses arrived, in whatever order,
    and aborts when its timer expired. *)

From S2P Require Import Prelude Consensus TwoPhase TwoPhaseNode TwoPhaseNetwork TwoPhaseProps.
From Stdlib Require Import ZArith.

(** ** The loop *)

(** The events of one iteration at node [i]. *)
Definition iteration_events {W} (i : PeerId)
    (m : recv ConsensusMessage) (u : recv ProposalUpdate) : list (event W) :=
  [EAbort i; EBacklog i; ENext i] ++
  match m with Received cm => [EMessage (origin_id cm) i (message cm)] | _ => [] end ++
  match m, u with
  | Disconnected, _ | _, Received Shutdown => []
  | _, Received u => [EUpdate i u]
  | _, _ => []
  end.

(** Whether an iteration is the last one. *)
Definition stops (m : recv ConsensusMessage) (u : recv ProposalUpdate) : bool :=
  match m, u with
  | Disconnected, _ | _, Disconnected | _, Received Shutdown => true
  | _, _ => false
  end.

Fixpoint loop_events {W} (i : PeerId)
    (inputs : list (recv ConsensusMessage * recv ProposalUpdate)) : list (event W) :=
  match inputs with
  | [] => []
  | (m, u) :: inputs =>
      iteration_events i m u ++ if stops m u then [] else loop_events i inputs
  end.

Section progress.
Context {W : Type} `{!Codec TwoPhaseMessage, !CodecLaws TwoPhaseMessage, !Codec RequiredVerifiers}
  `{!ProposalManager W, !ConsensusNetworkSender W, !Clock W}.

Abbreviation state_of n := (n_engine n, n_world n).

Lemma run_node_state m (n : node W) : state_of (run_node m n) = (m (state_of n)).2.
Proof. unfold run_node. by destruct (m _) as [? []]. Qed.

Lemma catch_log_run {E} m (n : node W) :
  (catch_log m : eff _ E ()) (state_of n) = (Ok (), state_of (run_node m n)).
Proof. rewrite run_node_state. unfold catch_log. by destruct (m _). Qed.

Definition events (n : node W) (evs : list (event W)) : node W :=
  foldl (λ n ev, node_event ev n) n evs.

Lemma run_iteration_events i m u (n : node W) :
  run_iteration m u (state_of n) =
    (Ok (negb (stops m u)), state_of (events n (iteration_events i m u))).
Proof.
  unfold run_iteration. do 3 (erewrite eff_bind_ok by apply catch_log_run).
  destruct m as [cm| |]; [..|done].
  - erewrite eff_bind_ok by apply catch_log_run.
    destruct u as [[]| |]; try done; by erewrite eff_bind_ok by apply catch_log_run.
  - destruct u as [[]| |]; try done; cbn [mret];
      erewrite eff_bind_ok by done; by erewrite eff_bind_ok by apply catch_log_run.
Qed.

(** The loop of [run] at a node is the sequence of the events of its
    iterations: every iteration aborts a timed-out proposal, takes a backlogged
    request, takes or asks for a proposal, handles the message and then the
    update that arrived, an error of any of them being dropped; the loop ends,
    with [Ok], exactly at the first iteration where a channel is disconnected or
    the update is [Shutdown], and what follows it has no effect. *)
Theorem run_loop_events i inputs (n : node W) :
  run_loop inputs (state_of n) =
    (Ok (forallb (λ '(m, u), negb (stops m u)) inputs), state_of (events n (loop_events i inputs))).
Proof.
  revert n. induction inputs as [|[m u] inputs IH]; intros n; [done|].
  cbn [run_loop]. erewrite eff_bind_ok by apply (run_iteration_events i).
  cbn [loop_events forallb]. unfold events. rewrite foldl_app. fold (events n (iteration_events i m u)).
  destruct (stops m u); [done|]. apply IH.
Qed.

(** ** The coordinator *)

Abbreviation node_state := (TwoPhaseEngine * traced W)%type (only parsing).

(** The messages [msgs] are handled one after the other. *)
Definition deliver (msgs : list ConsensusMessage) (s : node_state) : node_state :=
  foldl (λ s cm, (handle_consensus_msg cm s).2) s msgs.

(** A response that verifies the proposal [id]. *)
Definition verifies (id : ProposalId) (cm : ConsensusMessage) : Prop :=
  parse_from_bytes (message cm) = Some (verification_response id VERIFIED).

(** The manager applies the proposal [id] whenever it is asked to. *)
Definition always_accepts (id : ProposalId) : Prop :=
  ∀ w : W, is_ok (accept_proposal id None w).1 = true.
Definition always_rejects (id : ProposalId) : Prop :=
  ∀ w : W, is_ok (reject_proposal id w).1 = true.

(** The coordinator decided [id] as [r], starting from [e] with log [l]. *)
Definition completed (id : ProposalId) (r : TwoPhaseMessage_ProposalResult) (e : TwoPhaseEngine)
    (l : calls) (s : node_state) : Prop :=
  s.1 = set_timeout (stop (eng_coordinator_timeout e)) (set_state Idle e) ∧
  ∀ b, write_to_bytes (proposal_result id r) = Some b → ∃ sent,
    log s.2 = (CBroadcast b, sent) ::
              ((match r with APPLY => CAccept id | _ => CReject id end), true) :: l.

Lemma complete_coordination_completed id r e (w : traced W) :
  (r = APPLY ∧ always_accepts id) ∨ (r = REJECT ∧ always_rejects id) →
  completed id r e (log w) (complete_coordination id r (e, w)).2.
Proof.
  assert (∀ b w', ∃ sent w'', (network (broadcast b) : eff node_state _ ())
     (finished e, w') = (sent, (finished e, w'')) ∧ log w'' = (CBroadcast b, is_ok sent) :: log w')
    as Hnet.
  { intros b w'. unfold network, broadcast, traced_sender, trace; cbn.
    destruct (broadcast b (inner w')) as [[]]; cbn; by do 2 eexists. }
  intros [[-> Hok]|[-> Hok]]; specialize (Hok (inner w));
    unfold complete_coordination, mbind, eff_bind, manager, traced_manager, trace; cbn.
  1: destruct (accept_proposal id None (inner w)) as [[[]|] w1]; [cbn|done].
  2: destruct (reject_proposal id (inner w)) as [[[]|] w1]; [cbn|done].
  all: destruct (write_to_bytes _) as [b|] eqn:Hb; cbn; [|by split; [|intros ?; rewrite Hb]].
  all: match goal with |- context [mkTraced ?w1 ?l] =>
         destruct (Hnet b (mkTraced w1 l)) as (sent & w2 & Heq & Hlog) end.
  all: unfold finished in Heq; cbn in Heq; rewrite Heq; split; [done|].
  all: intros b'; rewrite Hb; intros [= <-]; eexists; exact Hlog.
Qed.

(** A verifying response to the coordinator. *)
Lemma handle_verified_response e (w : traced W) p cm :
  eng_state e = EvaluatingProposal p → verifies (tpp_proposal_id p) cm →
  let p' := add_verified_peer p (origin_id cm) in
  let e' := set_state (EvaluatingProposal p') e in
  handle_consensus_msg cm (e, w) =
    if bool_decide (tpp_peers_verified p' = tpp_required_verifiers p')
    then complete_coordination (tpp_proposal_id p) APPLY (e', w) else (Ok (), (e', w)).
Proof.
  intros Hst Hcm. unfold handle_consensus_msg, proto. rewrite Hcm. cbn.
  unfold mbind, eff_bind. cbn. unfold evaluating_proposal. rewrite Hst. cbn.
  rewrite bool_decide_eq_true_2 by done. cbn. by case_bool_decide.
Qed.

(** Responses that come after the decision are ignored. *)
Lemma late_responses_ignored id msgs e (w : traced W) :
  eng_state e = Idle → Forall (verifies id) msgs → deliver msgs (e, w) = (e, w).
Proof.
  intros Hst. induction 1 as [|cm msgs Hcm _ IH]; [done|]. cbn.
  replace (handle_consensus_msg cm (e, w)) with (Ok () : result ConsensusEngineError (), (e, w));
    [done|].
  unfold handle_consensus_msg, proto. rewrite Hcm. cbn. unfold mbind, eff_bind. cbn.
  unfold evaluating_proposal. by rewrite Hst.
Qed.

(** C9: a coordinator whose proposal is not complete yet commits it when
    verifying responses of all the missing verifiers arrive, in whatever order,
    with duplicates and late ones among them: the manager is told to accept the
    proposal exactly once, the result is broadcast, and the engine is idle with
    its timer stopped. *)
Theorem coordinator_commits e (w : traced W) p msgs :
  eng_state e = EvaluatingProposal p →
  tpp_peers_verified p ⊂ tpp_required_verifiers p →
  Forall (verifies (tpp_proposal_id p)) msgs →
  Forall (λ cm, origin_id cm ∈ tpp_required_verifiers p) msgs →
  tpp_required_verifiers p ⊆ tpp_peers_verified p ∪ list_to_set (origin_id <$> msgs) →
  always_accepts (tpp_proposal_id p) →
  completed (tpp_proposal_id p) APPLY e (log w) (deliver msgs (e, w)).
Proof.
  intros Hst Hsub Hver Hreq Hall Hacc. revert e p Hst Hsub Hver Hreq Hall Hacc.
  induction msgs as [|cm msgs IH]; intros e p Hst Hsub Hver Hreq Hall Hacc; [set_solver|].
  apply Forall_cons in Hver as [Hcm Hver]. apply Forall_cons in Hreq as [Horigin Hreq].
  change (deliver (cm :: msgs) (e, w)) with (deliver msgs (handle_consensus_msg cm (e, w)).2).
  rewrite (handle_verified_response e w p cm) by done.
  set (p' := add_verified_peer p (origin_id cm)). case_bool_decide as Hdone.
  - pose proof (complete_coordination_completed (tpp_proposal_id p) APPLY
      (set_state (EvaluatingProposal p') e) w ltac:(by left)) as Hc.
    destruct (complete_coordination _ _ _) as [r [e2 w2]]. cbn [snd].
    rewrite (late_responses_ignored (tpp_proposal_id p) msgs e2 w2); [done| |done].
    by destruct Hc as [Hc _]; cbn in Hc; subst e2.
  - apply (IH (set_state (EvaluatingProposal p') e) p'); [done| |done..| |done]; cbn in *; set_solver.
Qed.

(** C22: the coordinator's timer.  A proposal whose timer was started at [t0]
    with duration [d] is rejected, with the rejection broadcast, at the first
    check made more than [d] after [t0]; before, and on a node that does not
    coordinate (its timer is inactive), the check changes nothing. *)
Theorem abort_exactly_when_timed_out e (w : traced W) p :
  eng_state e = EvaluatingProposal p → always_rejects (tpp_proposal_id p) →
  match eng_coordinator_timeout e with
  | mkTimeout Active d t0 =>
      if bool_decide (now w - t0 > d)%Z
      then completed (tpp_proposal_id p) REJECT e (log w) (abort_proposal_if_timed_out (e, w)).2
      else abort_proposal_if_timed_out (e, w) = (Ok (), (e, w))
  | mkTimeout Inactive _ _ => abort_proposal_if_timed_out (e, w) = (Ok (), (e, w))
  | mkTimeout Expired _ _ =>
      completed (tpp_proposal_id p) REJECT e (log w) (abort_proposal_if_timed_out (e, w)).2
  end.
Proof.
  intros Hst Hrej. destruct e as [i peers st to pb rb]. cbn in Hst. subst st.
  pose proof (complete_coordination_completed (tpp_proposal_id p) REJECT (mkTwoPhaseEngine i peers
    (EvaluatingProposal p) (mkTimeout Expired (timeout_duration to) (timeout_start to)) pb rb) w)
    as Hc. specialize (Hc (or_intror (conj eq_refl Hrej))).
  destruct to as [[] d t0]; cbn in Hc |- *; unfold abort_proposal_if_timed_out, mbind, eff_bind; cbn.
  - unfold check_expired; cbn. case_bool_decide as Ht.
    + rewrite bool_decide_eq_true_2 by done. cbn. exact Hc.
    + rewrite bool_decide_eq_false_2 by naive_solver. done.
  - done.
  - exact Hc.
Qed.
End progress.

Section progress_witness.
Import Mock.

(** [a] has found its proposal valid and waits for [b] and [c]. *)
Definition waiting : TwoPhaseProposal := mkTwoPhaseProposal "p" "a" {[ "a" ]} {[ "a"; "b"; "c" ]}.
Definition engine_a : TwoPhaseEngine :=
  mkTwoPhaseEngine "a" {[ "b"; "c" ]} (EvaluatingProposal waiting) (mkTimeout Active 5000 0) [] [].
Definition response (from : PeerId) : ConsensusMessage :=
  mkConsensusMessage (enc (verification_response "p" VERIFIED)) from.

Lemma coordinator_commits_witness :
  completed "p" APPLY engine_a []
    (deliver [response "c"; response "c"; response "b"; response "b"] (engine_a, mkTraced 7%Z [])).
Proof.
  apply (coordinator_commits engine_a (mkTraced 7%Z []) waiting).
  - done.
  - cbn. set_solver.
  - repeat constructor.
  - cbn. repeat constructor; cbn; set_solver.
  - cbn. set_solver.
  - by intros w.
Defined.

Lemma abort_exactly_when_timed_out_witness :
  completed "p" REJECT engine_a []
    (abort_proposal_if_timed_out (engine_a, mkTraced 5001%Z [])).2.
Proof.
  pose proof (abort_exactly_when_timed_out engine_a (mkTraced 5001%Z []) waiting eq_refl
    (λ w, eq_refl)) as H. cbn [engine_a eng_coordinator_timeout] in H.
  by rewrite bool_decide_eq_true_2 in H.
Defined.
End progress_witness.
