(* ===== verification/Framing.v ===== *)
(** * The framing of messages on a stream

    Models [libsplinter/src/transport/rw.rs], through which the TCP and TLS
    connections send and receive: a message is written behind its length, in as
    many writes as it takes, and read back in as many reads.  A stream is the
    sequence of what its reads, or its writes, give. *)

From S2P Require Import Prelude.
From Stdlib Require Import ZArith Lia.

(** ** Byte strings *)

Fixpoint str_take (n : nat) (s : string) : string :=
  match n, s with
  | S n, String c s => String c (str_take n s)
  | _, _ => ""
  end.
Fixpoint str_drop (n : nat) (s : string) : string :=
  match n, s with
  | S n, String _ s => str_drop n s
  | _, _ => s
  end.

Section strings.
Implicit Types s t : string.

Lemma str_take_drop n s : str_take n s +:+ str_drop n s = s.
Proof.
  revert s. induction n as [|n IH]; intros [|c s]; [done..|]. cbn. rewrite str_app_cons. by f_equal.
Qed.
Lemma str_length_take n s : String.length (str_take n s) = n `min` String.length s.
Proof. revert s. induction n as [|n IH]; intros [|c s]; cbn; [done..|]. by f_equal. Qed.
Lemma str_take_ge n s : String.length s ≤ n → str_take n s = s.
Proof. revert s. induction n as [|n IH]; intros [|c s]; cbn; [done|lia|done|]. intros ?. f_equal. apply IH. lia. Qed.
Lemma str_take_app s t : str_take (String.length s) (s +:+ t) = s.
Proof. induction s as [|c s IH]; [by destruct t|]. rewrite str_app_cons. cbn. by f_equal. Qed.
Lemma str_drop_app s t : str_drop (String.length s) (s +:+ t) = t.
Proof. induction s as [|c s IH]; cbn; [by destruct t|]. done. Qed.
Lemma str_take_app_le n s t : n ≤ String.length s → str_take n (s +:+ t) = str_take n s.
Proof.
  revert s. induction n as [|n IH]; intros [|c s]; cbn; [by destruct t|done|lia|].
  intros ?. rewrite str_app_cons. cbn. f_equal. apply IH. lia.
Qed.
End strings.

(** ** Errors ([transport/mod.rs]) *)

(** The [io::ErrorKind]s that are told apart. *)
Inductive ErrorKind := WouldBlock | Interrupted | UnexpectedEof | WriteZero | OtherError.

Inductive TransportSendError :=
  | SendIoError (k : ErrorKind)
  | SendProtocolError (msg : string)
  | SendWouldBlock
  | SendClosed.
Inductive TransportRecvError :=
  | RecvIoError (k : ErrorKind)
  | RecvProtocolError (msg : string)
  | RecvWouldBlock
  | RecvClosed.

(** [From<io::Error>] *)
Definition send_error_from (k : ErrorKind) : TransportSendError :=
  match k with
  | UnexpectedEof => SendClosed
  | WouldBlock => SendWouldBlock
  | _ => SendIoError k
  end.

(** ** Byte order

    The [byteorder] crate: an unsigned 32-bit number as four bytes. *)
Class BigEndian := {
  read_be_u32 : bytes → Z;
  write_be_u32 : Z → bytes;
}.
Class BigEndianLaws `{!BigEndian} : Prop := {
  write_be_length n : String.length (write_be_u32 n) = 4;
  read_write_be n : (0 ≤ n < 2 ^ 32)%Z → read_be_u32 (write_be_u32 n) = n;
}.

(** ** Streams *)

(** What a call of [read] gives: some bytes, or an error; a call that asks for
    fewer bytes than there are leaves the rest for the next.  No bytes, and the
    end of the list, are the end of the stream. *)
Inductive read_event := ReadData (b : bytes) | ReadFails (k : ErrorKind).
Definition reader : Type := list read_event.

(** What a call of [write] gives: the number of bytes it takes at most, or an
    error; at the end of the list it takes everything. *)
Inductive write_event := WriteTakes (n : nat) | WriteFails (k : ErrorKind).
Record writer := mkWriter {
  w_events : list write_event;
  w_flush : option ErrorKind;
  w_out : bytes;
}.

(** [Read::read_exact] of the standard library: what was read before an error is
    lost. *)
Fixpoint read_exact (n : nat) (acc : bytes) (r : reader) : result ErrorKind bytes * reader :=
  match n with
  | 0 => (Ok acc, r)
  | S _ =>
      match r with
      | [] => (Err UnexpectedEof, [])
      | ReadData b :: r =>
          if is_empty b then (Err UnexpectedEof, r)
          else if decide (String.length b ≤ n) then read_exact (n - String.length b) (acc +:+ b) r
          else (Ok (acc +:+ str_take n b), ReadData (str_drop n b) :: r)
      | ReadFails Interrupted :: r => read_exact n acc r
      | ReadFails k :: r => (Err k, r)
      end
  end.

(** The loop of [rw::read] that fills the buffer; [n] bytes are missing. *)
Fixpoint read_body (n : nat) (acc : bytes) (r : reader) : result TransportRecvError bytes * reader :=
  match n with
  | 0 => (Ok acc, r)
  | S _ =>
      match r with
      | [] => (Err RecvClosed, [])
      | ReadData b :: r =>
          if is_empty b then (Err RecvClosed, r)
          else if decide (String.length b ≤ n) then read_body (n - String.length b) (acc +:+ b) r
          else (Ok (acc +:+ str_take n b), ReadData (str_drop n b) :: r)
      | ReadFails Interrupted :: r => read_body n acc r
      | ReadFails WouldBlock :: r => read_body n acc r
      | ReadFails k :: r => (Err (RecvIoError k), r)
      end
  end.

Section framing.
Context `{!BigEndian}.

(** The loop of [rw::read] around [read_u32]. *)
Fixpoint read_len (fuel : nat) (r : reader) : option (result TransportRecvError Z * reader) :=
  match fuel with
  | 0 => None
  | S fuel =>
      match read_exact 4 "" r with
      | (Ok b, r) => Some (Ok (read_be_u32 b), r)
      | (Err WouldBlock, r) => read_len fuel r
      | (Err k, r) => Some (Err (RecvIoError k), r)
      end
  end.

(** [rw::read] *)
Definition rw_read (fuel : nat) (r : reader) : option (result TransportRecvError bytes * reader) :=
  match read_len fuel r with
  | Some (Ok len, r) => Some (read_body (Z.to_nat len) "" r)
  | Some (Err e, r) => Some (Err e, r)
  | None => None
  end.

(** [pack] *)
Definition pack (buffer : bytes) : bytes :=
  write_be_u32 (wrap_u32 (Z.of_nat (String.length buffer))) +:+ buffer.

(** The loop of [rw::write]; [out] is what was written so far. *)
Fixpoint write_packed (packed : bytes) (events : list write_event) (out : bytes) :
    result TransportSendError () * (list write_event * bytes) :=
  if is_empty packed then (Ok (), (events, out)) else
  match events with
  | [] => (Ok (), ([], out +:+ packed))
  | WriteTakes 0 :: events => (Err (SendIoError WriteZero), (events, out))
  | WriteTakes n :: events => write_packed (str_drop n packed) events (out +:+ str_take n packed)
  | WriteFails Interrupted :: events => write_packed packed events out
  | WriteFails WouldBlock :: events => write_packed packed events out
  | WriteFails k :: events => (Err (SendIoError k), (events, out))
  end.

(** [rw::write] *)
Definition rw_write (buffer : bytes) (w : writer) : result TransportSendError () * writer :=
  let '(r, (events, out)) := write_packed (pack buffer) (w_events w) (w_out w) in
  (match r with
   | Ok () => match w_flush w with None => Ok () | Some k => Err (send_error_from k) end
   | Err e => Err e
   end, mkWriter events (w_flush w) out).

(** ** Writing *)

Lemma write_packed_out packed events out r events' out' :
  write_packed packed events out = (r, (events', out')) →
  ∃ done rest, packed = done +:+ rest ∧ out' = out +:+ done ∧ (r = Ok () → rest = "").
Proof.
  revert packed out. induction events as [|[n|k] events IH]; intros packed out;
    (destruct packed as [|c packed]; cbn;
      [intros [= <- <- <-]; exists "", ""; by rewrite !str_app_nil_r|]).
  - intros [= <- <- <-]. exists (String c packed), "". by rewrite !str_app_nil_r.
  - destruct n as [|n].
    + intros [= <- <- <-]. exists "", (String c packed). by rewrite !str_app_nil_r.
    + intros (d & rest & Hd & -> & Hr)%IH.
      exists (str_take (S n) (String c packed) +:+ d), rest.
      rewrite !str_app_assoc, <-Hd. split_and!; [|done..].
      symmetry. exact (str_take_drop (S n) (String c packed)).
  - destruct k; [by intros ?%IH..| | |]; intros [= <- <- <-];
      exists "", (String c packed); by rewrite !str_app_nil_r.
Qed.

(** What a write puts on the stream: all of the frame when it succeeds, and never
    anything but a first part of it. *)
Lemma rw_write_out m w r w' :
  rw_write m w = (r, w') →
  ∃ done rest, pack m = done +:+ rest ∧ w_out w' = w_out w +:+ done ∧ (r = Ok () → rest = "").
Proof.
  unfold rw_write. destruct (write_packed _ _ _) as [r0 [evs out]] eqn:Hw.
  apply write_packed_out in Hw as (d & rest & Hp & Ho & Hr). intros [= <- <-].
  exists d, rest. split_and!; [done..|]. destruct r0 as [[]|]; [by intros _; apply Hr|done].
Qed.

Fixpoint write_all (ms : list bytes) (w : writer) : result TransportSendError () * writer :=
  match ms with
  | [] => (Ok (), w)
  | m :: ms =>
      match rw_write m w with
      | (Ok (), w) => write_all ms w
      | (Err e, w) => (Err e, w)
      end
  end.

Definition frames (ms : list bytes) : bytes := foldr (λ m s, pack m +:+ s) "" ms.

Lemma write_all_out ms w w' :
  write_all ms w = (Ok (), w') → w_out w' = w_out w +:+ frames ms.
Proof.
  revert w. induction ms as [|m ms IH]; intros w; cbn.
  { intros [= <-]. by rewrite !str_app_nil_r. }
  destruct (rw_write m w) as [[[]|e] w1] eqn:Hw; [|done].
  apply rw_write_out in Hw as (d & rest & Hp & Ho & Hr).
  rewrite (Hr eq_refl), str_app_nil_r in Hp. subst d. intros ->%IH.
  by rewrite Ho, str_app_assoc.
Qed.

(** ** Reading *)

(** The bytes [b] come off the stream [r], which is then [r']; the reads in
    between may be interrupted, and would block if [blocks]. *)
Inductive delivers (blocks : bool) : bytes → reader → reader → Prop :=
  | delivers_none r : delivers blocks "" r r
  | delivers_data b b' r r' :
      b ≠ "" → delivers blocks b' r r' → delivers blocks (b +:+ b') (ReadData b :: r) r'
  | delivers_part b b' r :
      b ≠ "" → b' ≠ "" → delivers blocks b (ReadData (b +:+ b') :: r) (ReadData b' :: r)
  | delivers_interrupted b r r' :
      b ≠ "" → delivers blocks b r r' → delivers blocks b (ReadFails Interrupted :: r) r'
  | delivers_blocked b r r' :
      blocks = true → b ≠ "" → delivers blocks b r r' → delivers blocks b (ReadFails WouldBlock :: r) r'.

(** Nothing arrives for a while. *)
Inductive waits : reader → reader → Prop :=
  | waits_none r : waits r r
  | waits_blocked r r' : waits r r' → waits (ReadFails WouldBlock :: r) r'.

(** The frame of [m] arrives on [r]: its header in reads that do not block. *)
Definition arrives (m : bytes) (r r' : reader) : Prop :=
  ∃ r0 r1, waits r r0 ∧
    delivers false (write_be_u32 (wrap_u32 (Z.of_nat (String.length m)))) r0 r1 ∧
    delivers true (str_take (Z.to_nat (wrap_u32 (Z.of_nat (String.length m)))) m) r1 r'.

Lemma delivers_exact b r r' acc :
  delivers false b r r' → read_exact (String.length b) acc r = (Ok (acc +:+ b), r').
Proof.
  intros Hd. revert acc. induction Hd as [r|b b' r r' Hb Hd IH|b b' r Hb Hb'|b r r' Hb Hd IH|? ? ? ?];
    intros acc; [by rewrite !str_app_nil_r; destruct r| | | |done].
  - rewrite str_length_app. destruct b as [|c b]; [done|].
    cbn [String.length Nat.add read_exact is_empty]. rewrite decide_True by (cbn; lia).
    replace (S (String.length b + String.length b') - S (String.length b))
      with (String.length b') by lia.
    by rewrite IH, str_app_assoc.
  - destruct b as [|c b]; [done|]. destruct b' as [|c' b']; [done|].
    cbn [String.length read_exact]. rewrite str_app_cons. cbn [is_empty].
    rewrite decide_False by (cbn; rewrite str_length_app; cbn; lia).
    rewrite <-str_app_cons.
    by rewrite (str_take_app (String c b)), (str_drop_app (String c b)).
  - destruct b as [|c b]; [done|]. apply IH.
Qed.

Lemma delivers_body b r r' acc :
  delivers true b r r' → read_body (String.length b) acc r = (Ok (acc +:+ b), r').
Proof.
  intros Hd. revert acc.
  induction Hd as [r|b b' r r' Hb Hd IH|b b' r Hb Hb'|b r r' Hb Hd IH|b r r' _ Hb Hd IH];
    intros acc; [rewrite str_app_nil_r; by destruct r| | | |].
  - rewrite str_length_app. destruct b as [|c b]; [done|].
    cbn [String.length Nat.add read_body is_empty]. rewrite decide_True by (cbn; lia).
    replace (S (String.length b + String.length b') - S (String.length b))
      with (String.length b') by lia.
    by rewrite IH, str_app_assoc.
  - destruct b as [|c b]; [done|]. destruct b' as [|c' b']; [done|].
    cbn [String.length read_body]. rewrite str_app_cons. cbn [is_empty].
    rewrite decide_False by (cbn; rewrite str_length_app; cbn; lia).
    rewrite <-str_app_cons.
    by rewrite (str_take_app (String c b)), (str_drop_app (String c b)).
  - destruct b as [|c b]; [done|]. apply IH.
  - destruct b as [|c b]; [done|]. apply IH.
Qed.

Lemma waits_length r r' : waits r r' → length r' ≤ length r.
Proof. induction 1; cbn; lia. Qed.
Lemma delivers_length blocks b r r' : delivers blocks b r r' → length r' ≤ length r.
Proof. induction 1; cbn in *; lia. Qed.

Lemma arrives_length m r r' : arrives m r r' → length r' ≤ length r.
Proof.
  intros (r0 & r1 & Hw%waits_length & Hh%delivers_length & Hb%delivers_length). lia.
Qed.

(** The loop around the header ends: every read that would block takes an event
    off the stream. *)
Lemma read_exact_blocked n acc r r' :
  read_exact n acc r = (Err WouldBlock, r') → length r' < length r.
Proof.
  revert n acc. induction r as [|[b|k] r IH]; intros [|n] acc; cbn; try done.
  - destruct (is_empty b); [done|]. case_decide; [|done]. intros ?%IH. lia.
  - destruct k; [|intros ?%IH|..]; intros; simplify_eq; lia.
Qed.

Lemma read_len_total r fuel : length r < fuel → is_Some (read_len fuel r).
Proof.
  revert r. induction fuel as [|fuel IH]; intros r Hf; [lia|]. cbn.
  destruct (read_exact 4 "" r) as [[b|[]] r'] eqn:Hr; [by eexists| |by eexists..].
  apply IH. apply read_exact_blocked in Hr. lia.
Qed.

Context `{!BigEndianLaws}.

Lemma read_len_arrives hdr r r0 r1 fuel :
  waits r r0 → delivers false hdr r0 r1 → String.length hdr = 4 → length r < fuel →
  read_len fuel r = Some (Ok (read_be_u32 hdr), r1).
Proof.
  intros Hw Hd Hl. revert fuel. induction Hw as [r|r r' Hw IH]; intros [|fuel] Hf; cbn in Hf; try lia.
  - cbn. rewrite <-Hl at 1. by rewrite (delivers_exact hdr r r1 "" Hd).
  - cbn [read_len]. change (read_exact 4 "" (ReadFails WouldBlock :: r)) with (Err (A:=bytes) WouldBlock, r).
    cbn iota. apply IH; [done|lia].
Qed.

Lemma wrap_u32_range z : (0 ≤ wrap_u32 z < 2 ^ 32)%Z.
Proof. apply Z.mod_pos_bound. done. Qed.

(** A frame is read back as the message, as far as its length fits 32 bits. *)
Lemma rw_read_arrives m r r' fuel :
  arrives m r r' → length r < fuel →
  rw_read fuel r = Some (Ok (str_take (Z.to_nat (wrap_u32 (Z.of_nat (String.length m)))) m), r').
Proof.
  intros (r0 & r1 & Hw & Hh & Hb) Hf. unfold rw_read.
  erewrite read_len_arrives by (done || apply write_be_length).
  rewrite read_write_be by apply wrap_u32_range.
  apply (delivers_body _ _ _ "") in Hb. rewrite str_length_take, Nat.min_l in Hb; [by rewrite Hb|].
  pose proof (wrap_u32_range (Z.of_nat (String.length m))).
  assert (wrap_u32 (Z.of_nat (String.length m)) ≤ Z.of_nat (String.length m))%Z; [|lia].
  apply Z.mod_le; lia.
Qed.

Fixpoint arrive_all (ms : list bytes) (r r' : reader) : Prop :=
  match ms with
  | [] => r = r'
  | m :: ms => ∃ r0, arrives m r r0 ∧ arrive_all ms r0 r'
  end.

Fixpoint read_all (fuel n : nat) (r : reader) : option (list bytes * reader) :=
  match n with
  | 0 => Some ([], r)
  | S n =>
      match rw_read fuel r with
      | Some (Ok m, r) => '(ms, r) ← read_all fuel n r; Some (m :: ms, r)
      | _ => None
      end
  end.

(** The length of a message that its header can hold. *)
Definition fits (m : bytes) : Prop := (Z.of_nat (String.length m) < 2 ^ 32)%Z.

Lemma fits_wrap m : fits m → Z.to_nat (wrap_u32 (Z.of_nat (String.length m))) = String.length m.
Proof. unfold fits, wrap_u32. intros ?. rewrite Z.mod_small; lia. Qed.

Lemma read_all_arrive ms r r' fuel :
  Forall fits ms → arrive_all ms r r' → length r < fuel →
  read_all fuel (length ms) r = Some (ms, r').
Proof.
  intros Hms. revert r. induction Hms as [|m ms Hm Hms IH]; intros r; cbn; [by intros ->|].
  intros (r0 & Ha & Has) Hf. erewrite rw_read_arrives by done.
  apply arrives_length in Ha. erewrite IH by (done || lia).
  cbn. by rewrite fits_wrap, str_take_ge.
Qed.

(** Whatever pieces the bytes come in, they are delivered. *)
Definition str_concat (cs : list bytes) : bytes := foldr (λ c s, c +:+ s) "" cs.

Lemma chunks_deliver blocks cs b rest :
  Forall (λ c, c ≠ "") cs → str_concat cs = b +:+ rest →
  ∃ cs', delivers blocks b (ReadData <$> cs) (ReadData <$> cs') ∧ str_concat cs' = rest ∧
         Forall (λ c, c ≠ "") cs'.
Proof.
  intros Hcs. revert b. induction Hcs as [|c cs Hc Hcs IH]; intros b Hb.
  { destruct b; [|done]. exists []. by repeat constructor. }
  destruct (decide (b = "")) as [->|Hne].
  { exists (c :: cs). split_and!; [constructor|done|by constructor]. }
  change (str_concat (c :: cs)) with (c +:+ str_concat cs) in Hb.
  destruct (decide (String.length b < String.length c)) as [Hl|Hl].
  - assert (c = b +:+ str_drop (String.length b) c) as Hsplit.
    { rewrite <-(str_take_drop (String.length b) c) at 1. f_equal.
      rewrite <-(str_take_app_le _ c (str_concat cs)) by lia. by rewrite Hb, str_take_app. }
    set (c' := str_drop (String.length b) c) in *.
    assert (c' ≠ "") as Hc'.
    { intros Hc'. rewrite Hc', str_app_nil_r in Hsplit. subst c. lia. }
    exists (c' :: cs). split_and!; [| |by constructor].
    + rewrite Hsplit. by constructor.
    + rewrite Hsplit, str_app_assoc in Hb. apply (f_equal (str_drop (String.length b))) in Hb.
      by rewrite !str_drop_app in Hb.
  - assert (b = c +:+ str_drop (String.length c) b) as Hsplit.
    { rewrite <-(str_take_drop (String.length c) b) at 1. f_equal.
      rewrite <-(str_take_app_le _ b rest) by lia. by rewrite <-Hb, str_take_app. }
    set (b' := str_drop (String.length c) b) in *. rewrite Hsplit in Hb |- *.
    rewrite str_app_assoc in Hb. apply (f_equal (str_drop (String.length c))) in Hb.
    rewrite !str_drop_app in Hb. destruct (IH b' Hb) as (cs' & Hd & Hr & Hf).
    exists cs'. split_and!; [by constructor|done..].
Qed.

Lemma chunks_arrive ms cs :
  Forall fits ms → Forall (λ c, c ≠ "") cs → str_concat cs = frames ms →
  arrive_all ms (ReadData <$> cs) [].
Proof.
  intros Hms. revert cs. induction Hms as [|m ms Hm Hms IH]; intros cs Hcs Hc; cbn [arrive_all].
  { destruct Hcs as [|c cs]; [done|]. by destruct c. }
  change (frames (m :: ms)) with (pack m +:+ frames ms) in Hc.
  unfold pack in Hc. rewrite str_app_assoc in Hc.
  destruct (chunks_deliver false cs _ _ Hcs Hc) as (cs1 & Hd1 & Hc1 & Hn1).
  destruct (chunks_deliver true cs1 _ _ Hn1 Hc1) as (cs2 & Hd2 & Hc2 & Hn2).
  exists (ReadData <$> cs2). split; [|by apply IH].
  exists (ReadData <$> cs), (ReadData <$> cs1). split_and!; [constructor|done|].
  by rewrite fits_wrap, str_take_ge.
Qed.

(** C19: messages that are written to a stream, whatever number of bytes its writes
    take, are on it as their frames, one behind the other; when these arrive, in
    whatever pieces, reading gives the messages, in order and complete, and ends;
    reads may be interrupted anywhere and may block anywhere but in a header. *)
Theorem framing_roundtrip ms w w' :
  Forall fits ms → write_all ms w = (Ok (), w') →
  w_out w' = w_out w +:+ frames ms ∧
  (∀ cs, Forall (λ c, c ≠ "") cs → str_concat cs = frames ms →
         arrive_all ms (ReadData <$> cs) []) ∧
  (∀ r r' fuel, arrive_all ms r r' → length r < fuel →
         read_all fuel (length ms) r = Some (ms, r')).
Proof.
  intros Hms Hw. split_and!.
  - by apply write_all_out.
  - intros cs. by apply chunks_arrive.
  - intros r r' fuel. by apply read_all_arrive.
Qed.

(** Reading ends on every stream. *)
Lemma rw_read_total r fuel : length r < fuel → is_Some (rw_read fuel r).
Proof.
  intros [[[len|e] r'] Hr]%read_len_total; unfold rw_read; rewrite Hr; by eexists.
Qed.

(** A message of 4 GiB or more is cut: its header only has the low 32 bits of its
    length. *)
Lemma oversized_message_cut m r r' fuel :
  ¬ fits m → arrives m r r' → length r < fuel →
  ∃ m', rw_read fuel r = Some (Ok m', r') ∧ String.length m' < String.length m.
Proof.
  intros Hm Ha Hf. erewrite rw_read_arrives by done. eexists. split; [done|].
  rewrite str_length_take. unfold fits in Hm.
  pose proof (wrap_u32_range (Z.of_nat (String.length m))). lia.
Qed.
End framing.

(** ** Examples *)

Module FramingMock.
Definition be_byte (n : Z) (i : Z) : ascii := ascii_of_N (Z.to_N ((n / 2 ^ (8 * i)) `mod` 256)).
Definition byte_z (c : ascii) : Z := Z.of_N (N_of_ascii c).

#[export] Instance big_endian : BigEndian := {|
  read_be_u32 b :=
    match b with
    | String b3 (String b2 (String b1 (String b0 ""))) =>
        (byte_z b3 * 2 ^ 24 + byte_z b2 * 2 ^ 16 + byte_z b1 * 2 ^ 8 + byte_z b0)%Z
    | _ => 0%Z
    end;
  write_be_u32 n :=
    String (be_byte n 3) (String (be_byte n 2) (String (be_byte n 1) (String (be_byte n 0) "")));
|}.

Lemma byte_z_be n i : byte_z (be_byte n i) = ((n / 2 ^ (8 * i)) `mod` 256)%Z.
Proof.
  unfold byte_z, be_byte. pose proof (Z.mod_pos_bound (n / 2 ^ (8 * i)) 256 eq_refl).
  rewrite N_ascii_embedding; [|apply N2Z.inj_lt; rewrite Z2N.id; lia]. rewrite Z2N.id; lia.
Qed.

#[export] Instance big_endian_laws : BigEndianLaws.
Proof.
  split; [done|]. intros n Hn. cbn [read_be_u32 write_be_u32 big_endian].
  rewrite !byte_z_be. change (8 * 3)%Z with 24%Z. change (8 * 2)%Z with 16%Z.
  change (8 * 1)%Z with 8%Z. change (8 * 0)%Z with 0%Z. rewrite Z.div_1_r.
  change (2 ^ 32)%Z with (256 * 2 ^ 24)%Z in Hn.
  Z.to_euclidean_division_equations; lia.
Qed.

(** A stream whose writes take a few bytes at a time, and one that gives them in
    other pieces. *)
Definition slow : writer := mkWriter [WriteTakes 3; WriteFails WouldBlock; WriteTakes 1] None "".
Definition zero : ascii := ascii_of_N 0.
Definition pieces : reader :=
  [ReadFails WouldBlock; ReadData (String zero (String zero (String zero "")));
   ReadFails Interrupted; ReadData (String (ascii_of_N 5) "he"); ReadFails WouldBlock;
   ReadData "llo"].
End FramingMock.

Section framing_witness.
Import FramingMock.

Lemma framing_roundtrip_witness :
  (write_all ["hello"] slow).1 = Ok () ∧ read_all 7 1 pieces = Some (["hello"], []).
Proof.
  destruct (framing_roundtrip ["hello"] slow (write_all ["hello"] slow).2) as (_ & _ & Hr).
  - by repeat constructor.
  - done.
  - split; [done|]. apply (Hr pieces []); [|cbn; lia].
    exists []. split; [|done].
    exists (drop 1 pieces), (ReadData "he" :: drop 4 pieces). split_and!.
    + by repeat constructor.
    + apply (delivers_data _ (String zero (String zero (String zero ""))) (String (ascii_of_N 5) "")); [done|].
      apply delivers_interrupted; [done|].
      by apply (delivers_part _ (String (ascii_of_N 5) "") "he").
    + apply (delivers_data _ "he" "llo"); [done|]. apply delivers_blocked; [done..|].
      apply (delivers_data _ "llo" ""); [done|]. constructor.
Defined.

(** When a read blocks in the middle of a header, the bytes read so far are
    forgotten: the next four are taken for the length, and the message is lost. *)
Lemma header_split_loses_message :
  let r := [ReadData (String zero (String zero "")); ReadFails WouldBlock;
            ReadData (String zero (String (ascii_of_N 5) "hello"))] in
  ∃ e r', rw_read 10 r = Some (Err e, r').
Proof. eexists _, _. vm_compute. reflexivity. Qed.
End framing_witness.
