(* ===== verification/Transport.v ===== *)
(** * Transports

    Models the transports of [libsplinter/src/transport]: the choice of a
    transport by the protocol of an address ([raw.rs], [tls.rs], [multi.rs]), the
    connections of TCP, and the transport within a process ([inproc.rs]), whose
    connections share their queues. *)

From S2P Require Import Prelude Framing.
From Stdlib Require Import ZArith Lia.

(** ** Errors and the interface ([transport/mod.rs]) *)

(** [ConnectPanic] is an [unwrap] that fails. *)
Inductive ConnectError :=
  | ConnectPanic
  | ConnectIoError (k : ErrorKind)
  | ConnectParseError (msg : string)
  | ConnectProtocolError (msg : string).
Inductive ListenError :=
  | ListenIoError (k : ErrorKind)
  | ListenProtocolError (msg : string).
Inductive AcceptError :=
  | AcceptIoError (k : ErrorKind)
  | AcceptProtocolError (msg : string).
Inductive DisconnectError :=
  | DisconnectIoError (k : ErrorKind)
  | DisconnectProtocolError (msg : string).

(** A connection is an object of type [C]; sending and receiving change it. *)
Class Connection (C : Type) := {
  connection_send : bytes → eff C TransportSendError ();
  connection_recv : eff C TransportRecvError bytes;
  connection_remote_endpoint : C → string;
}.

(** [dyn Transport], with the connections and listeners it makes. *)
Record Transport (W C L : Type) := mkTransport {
  accepts : string → bool;
  connect : string → eff W ConnectError C;
  listen : string → eff W ListenError L;
}.
Arguments mkTransport {W C L} accepts connect listen.
Arguments accepts {W C L} t.
Arguments connect {W C L} t.
Arguments listen {W C L} t.

(** The addresses of a transport: those with its protocol and those without
    any. *)
Definition accepts_protocol (prefix address : string) : bool :=
  starts_with prefix address || negb (contains "://" address).
Definition strip_protocol (prefix address : string) : string :=
  if starts_with prefix address then slice_from (String.length prefix) address else address.
Definition invalid_protocol (address : string) : string := "Invalid protocol " +:+ address.

(** ** [raw.rs] *)

(** The sockets of the operating system. *)
Class Tcp (W C L : Type) := {
  tcp_connect : string → eff W ErrorKind C;
  tcp_bind : string → eff W ErrorKind L;
}.

Definition RAW_PREFIX : string := "tcp://".

Section raw.
Context {W C L : Type} `{!Tcp W C L}.

Definition raw_connect (endpoint : string) : eff W ConnectError C :=
  if accepts_protocol RAW_PREFIX endpoint then
    emap_err ConnectIoError (tcp_connect (strip_protocol RAW_PREFIX endpoint))
  else throw (ConnectProtocolError (invalid_protocol endpoint)).

Definition raw_listen (bind : string) : eff W ListenError L :=
  if accepts_protocol RAW_PREFIX bind then
    emap_err ListenIoError (tcp_bind (strip_protocol RAW_PREFIX bind))
  else throw (ListenProtocolError (invalid_protocol bind)).

Definition raw_transport : Transport W C L :=
  mkTransport (accepts_protocol RAW_PREFIX) raw_connect raw_listen.
End raw.

(** A [RawConnection] reads and writes frames on its stream. *)
Record RawConnection := mkRawConnection {
  rc_reader : reader;
  rc_writer : writer;
  rc_peer_addr : string;
}.

(** The fuel is enough for any stream ([rw_read_total]): the fallback is not
    reached. *)
#[export] Instance raw_connection `{!BigEndian} : Connection RawConnection := {|
  connection_send b c :=
    let '(r, w) := rw_write b (rc_writer c) in (r, mkRawConnection (rc_reader c) w (rc_peer_addr c));
  connection_recv c :=
    match rw_read (S (length (rc_reader c))) (rc_reader c) with
    | Some (r, rd) => (r, mkRawConnection rd (rc_writer c) (rc_peer_addr c))
    | None => (Err RecvClosed, c)
    end;
  connection_remote_endpoint c := RAW_PREFIX +:+ rc_peer_addr c;
|}.

(** ** [multi.rs] *)

Section multi.
Context {W C L : Type}.

Definition multi_accepts (transports : list (Transport W C L)) (address : string) : bool :=
  existsb (λ t, accepts t address) transports.

Definition multi_connect (transports : list (Transport W C L)) (endpoint : string) :
    eff W ConnectError C :=
  match find (λ t, accepts t endpoint) transports with
  | Some t => connect t endpoint
  | None => throw (ConnectProtocolError ("Unknown protocol " +:+ endpoint))
  end.

Definition multi_listen (transports : list (Transport W C L)) (bind : string) :
    eff W ListenError L :=
  match find (λ t, accepts t bind) transports with
  | Some t => listen t bind
  | None => throw (ListenProtocolError ("Unknown protocol " +:+ bind))
  end.

Definition multi_transport (transports : list (Transport W C L)) : Transport W C L :=
  mkTransport (multi_accepts transports) (multi_connect transports) (multi_listen transports).

(** The transport that handles an address is the first one that accepts it; an
    address that none accepts is refused without any effect. *)
Lemma multi_connect_spec ts endpoint w :
  (∃ ts1 t ts2, ts = ts1 ++ t :: ts2 ∧ accepts t endpoint = true ∧
     Forall (λ t, accepts t endpoint = false) ts1 ∧
     multi_connect ts endpoint w = connect t endpoint w) ∨
  (multi_accepts ts endpoint = false ∧
     multi_connect ts endpoint w = (Err (ConnectProtocolError ("Unknown protocol " +:+ endpoint)), w)).
Proof.
  unfold multi_connect, multi_accepts.
  induction ts as [|t ts IH]; cbn; [by right|]. destruct (accepts t endpoint) eqn:Ha.
  - left. exists [], t, ts. by split_and!.
  - destruct IH as [(ts1 & t' & ts2 & -> & Ht & Hf & Hc)|IH]; [left|by right].
    exists (t :: ts1), t', ts2. split_and!; [done..|by constructor|done].
Qed.
End multi.

(** ** [inproc.rs] *)

Definition INPROC_PREFIX : string := "inproc://".

(** What the transport, its listeners and its connections share: [ip_incoming] is
    the map from addresses to the channels of listeners, [ip_listeners] the
    connections that wait in each channel, gone with its listener.  The queues of
    all pairs have the latest message first; [ip_readable] has the queues whose
    reading end has the readiness [readable]. *)
Record Inproc := mkInproc {
  ip_incoming : gmap string nat;
  ip_listeners : gmap nat (list (nat * nat));
  ip_queues : gmap nat (list bytes);
  ip_readable : gset nat;
  ip_next : nat;
}.

(** [InprocConnection]: its end of the pair has the queue it writes to and the one
    it reads from. *)
Record InprocConnection := mkInprocConnection {
  ic_endpoint : string;
  ic_outgoing : nat;
  ic_incoming : nat;
}.
Record InprocListener := mkInprocListener { il_endpoint : string; il_rx : nat }.

(** [Vec::pop] *)
Definition vec_pop {A} (l : list A) : option A * list A :=
  match reverse l with
  | [] => (None, [])
  | x :: l => (Some x, reverse l)
  end.

Definition inproc_connect (endpoint : string) : eff Inproc ConnectError InprocConnection := λ s,
  if accepts_protocol INPROC_PREFIX endpoint then
    let address := strip_protocol INPROC_PREFIX endpoint in
    match ip_incoming s !! address with
    | Some ch =>
        match ip_listeners s !! ch with
        | Some waiting =>
            let q1 := ip_next s in
            let q2 := S (ip_next s) in
            (Ok (mkInprocConnection address q2 q1),
             mkInproc (ip_incoming s) (<[ch := waiting ++ [(q1, q2)]]> (ip_listeners s))
               (<[q1 := []]> (<[q2 := []]> (ip_queues s))) (ip_readable s) (S (S (ip_next s))))
        | None => (Err ConnectPanic, s)
        end
    | None => (Err (ConnectIoError OtherError), s)
    end
  else (Err (ConnectProtocolError (invalid_protocol endpoint)), s).

Definition inproc_listen (bind : string) : eff Inproc ListenError InprocListener := λ s,
  if accepts_protocol INPROC_PREFIX bind then
    let address := strip_protocol INPROC_PREFIX bind in
    let ch := ip_next s in
    (Ok (mkInprocListener address ch),
     mkInproc (<[address := ch]> (ip_incoming s)) (<[ch := []]> (ip_listeners s)) (ip_queues s)
       (ip_readable s) (S (ip_next s)))
  else (Err (ListenProtocolError (invalid_protocol bind)), s).

(** [accept]; it blocks, [None] here, while no connection waits. *)
Definition inproc_accept (l : InprocListener) : eff Inproc AcceptError (option InprocConnection) := λ s,
  match ip_listeners s !! il_rx l with
  | Some ((outgoing, incoming) :: waiting) =>
      (Ok (Some (mkInprocConnection (il_endpoint l) outgoing incoming)),
       mkInproc (ip_incoming s) (<[il_rx l := waiting]> (ip_listeners s)) (ip_queues s)
         (ip_readable s) (ip_next s))
  | _ => (Ok None, s)
  end.

Definition inproc_endpoint (endpoint : string) : string := INPROC_PREFIX +:+ endpoint.

Definition inproc_queue (q : nat) (s : Inproc) : list bytes := default [] (ip_queues s !! q).

Definition inproc_send (m : bytes) (c : InprocConnection) : eff Inproc TransportSendError () := λ s,
  let q := ic_outgoing c in
  (Ok (), mkInproc (ip_incoming s) (ip_listeners s) (<[q := m :: inproc_queue q s]> (ip_queues s))
            ({[q]} ∪ ip_readable s) (ip_next s)).

Definition inproc_recv (c : InprocConnection) : eff Inproc TransportRecvError bytes := λ s,
  let q := ic_incoming c in
  let readable :=
    if decide (length (inproc_queue q s) < 1) then ip_readable s ∖ {[q]} else {[q]} ∪ ip_readable s in
  let '(m, rest) := vec_pop (inproc_queue q s) in
  (ok_or RecvWouldBlock m,
   mkInproc (ip_incoming s) (ip_listeners s) (<[q := rest]> (ip_queues s)) readable (ip_next s)).

(** *** Order and wake-ups *)

(** What the ends of connections do, one after the other, and the messages that
    are received. *)
Inductive inproc_op := InprocSend (c : InprocConnection) (m : bytes) | InprocRecv (c : InprocConnection).

Definition inproc_step (op : inproc_op) (s : Inproc) : list (nat * bytes) * Inproc :=
  match op with
  | InprocSend c m => ([], (inproc_send m c s).2)
  | InprocRecv c =>
      let '(r, s) := inproc_recv c s in
      (match r with Ok m => [(ic_incoming c, m)] | Err _ => [] end, s)
  end.

Fixpoint inproc_run (ops : list inproc_op) (s : Inproc) : list (nat * bytes) * Inproc :=
  match ops with
  | [] => ([], s)
  | op :: ops =>
      let '(out, s) := inproc_step op s in
      let '(outs, s) := inproc_run ops s in (out ++ outs, s)
  end.

Definition sent_on (q : nat) (ops : list inproc_op) : list bytes :=
  omap (λ op, match op with
              | InprocSend c m => if decide (ic_outgoing c = q) then Some m else None
              | InprocRecv _ => None
              end) ops.
Definition received_on (q : nat) (outs : list (nat * bytes)) : list bytes :=
  (filter (λ p, p.1 = q) outs).*2.

Lemma inproc_queue_insert q q0 v a l qs r n :
  inproc_queue q (mkInproc a l (<[q0 := v]> qs) r n) =
    if decide (q0 = q) then v else default [] (qs !! q).
Proof.
  unfold inproc_queue. cbn [ip_queues]. case_decide as Hq.
  - subst q0. by rewrite lookup_insert_eq.
  - by rewrite lookup_insert_ne.
Qed.

Lemma inproc_step_order q op s outs s' :
  inproc_step op s = (outs, s') →
  received_on q outs ++ reverse (inproc_queue q s') = reverse (inproc_queue q s) ++ sent_on q [op].
Proof.
  destruct op as [c m|c]; cbn [inproc_step].
  - intros [= <- <-]. rewrite inproc_queue_insert. cbn [sent_on omap list_omap].
    case_decide as Hq; [subst q; by rewrite reverse_cons|by rewrite app_nil_r].
  - unfold inproc_recv, vec_pop.
    destruct (reverse (inproc_queue (ic_incoming c) s)) as [|m l] eqn:Hr; cbn [ok_or];
      intros [= <- <-]; rewrite inproc_queue_insert; cbn [sent_on omap list_omap]; rewrite app_nil_r;
      unfold received_on; (case_decide as Hq; [subst q|]).
    + by rewrite Hr.
    + done.
    + rewrite filter_cons_True by done. by rewrite reverse_involutive, Hr.
    + by rewrite filter_cons_False.
Qed.

Lemma sent_on_cons q op ops : sent_on q (op :: ops) = sent_on q [op] ++ sent_on q ops.
Proof. unfold sent_on. cbn. by case_match. Qed.

Lemma inproc_run_order q ops s outs s' :
  inproc_run ops s = (outs, s') →
  received_on q outs ++ reverse (inproc_queue q s') = reverse (inproc_queue q s) ++ sent_on q ops.
Proof.
  revert s outs. induction ops as [|op ops IH]; intros s outs; cbn [inproc_run].
  { intros [= <- <-]. by rewrite app_nil_r. }
  destruct (inproc_step op s) as [out s1] eqn:H1, (inproc_run ops s1) as [outs1 s2] eqn:H2.
  intros [= <- <-]. apply IH in H2. apply (inproc_step_order q) in H1.
  unfold received_on in *. rewrite filter_app, fmap_app, <-app_assoc, H2, app_assoc, H1, <-app_assoc.
  by rewrite <-sent_on_cons.
Qed.

(** A queue with messages is announced: the end that reads from it is readable, so
    that a poll on it wakes up. *)
Definition inproc_awake (s : Inproc) : Prop :=
  ∀ q, inproc_queue q s ≠ [] → q ∈ ip_readable s.

Lemma inproc_step_awake op s : inproc_awake s → inproc_awake (inproc_step op s).2.
Proof.
  intros Hs. destruct op as [c m|c]; cbn [inproc_step].
  - intros q. cbn [snd inproc_send ip_readable]. rewrite inproc_queue_insert.
    case_decide; [set_solver|]. intros Hne%Hs. set_solver.
  - unfold inproc_recv, vec_pop. set (q0 := ic_incoming c).
    destruct (reverse (inproc_queue q0 s)) as [|m l] eqn:Hr; intros q; cbn [snd ip_readable];
      rewrite inproc_queue_insert.
    + case_decide as Hq; [done|]. intros Hne%Hs. case_decide; set_solver.
    + apply (f_equal length) in Hr. rewrite length_reverse in Hr. cbn in Hr.
      rewrite (decide_False (P:=length _ < 1)) by lia.
      case_decide as Hq; [set_solver|]. intros Hne%Hs. set_solver.
Qed.
