(* ===== verification/Zmq.v ===== *)
(** * The ZeroMQ transport

    Models [libsplinter/src/transport/zmq.rs]: the messages between connections
    and the router of a listener, the connections, the thread of the router that
    pairs connections and keeps the messages until they are asked for, and the
    transport.  The sockets of ZeroMQ are an interface. *)

From S2P Require Import Prelude Framing Transport.

(** ** Messages *)

Inductive MessageType :=
  | RequestConnection
  | ConnectionAccepted
  | RequestData
  | NoDataAvailable
  | DataAvailable
  | SendingMessage
  | MessageReceived.
#[global] Instance MessageType_eq_dec : EqDecision MessageType.
Proof. solve_decision. Defined.

(** [TryFrom<Vec<u8>> for MessageType] *)
Definition message_type_try_from (value : bytes) : result string MessageType :=
  match from_utf8 value with
  | None => Err "Could not serialize bytes"
  | Some msg =>
      if decide (msg = "CONNECT") then Ok RequestConnection
      else if decide (msg = "CONNECTION_ACCEPTED") then Ok ConnectionAccepted
      else if decide (msg = "REQUEST_DATA") then Ok RequestData
      else if decide (msg = "DATA_AVAILABLE") then Ok DataAvailable
      else if decide (msg = "NO_DATA_AVAILABLE") then Ok NoDataAvailable
      else if decide (msg = "SENDING_MESSAGE") then Ok SendingMessage
      else if decide (msg = "MESSAGE_RECEIVED") then Ok MessageReceived
      else Err "Invalid Message Type"
  end.

(** [Into<Vec<u8>> for MessageType] *)
Definition message_type_into (t : MessageType) : bytes :=
  match t with
  | RequestConnection => "CONNECT"
  | ConnectionAccepted => "CONNECTION_ACCEPTED"
  | RequestData => "REQUEST_DATA"
  | NoDataAvailable => "NO_DATA_AVAILABLE"
  | DataAvailable => "DATA_AVAILABLE"
  | SendingMessage => "SENDING_MESSAGE"
  | MessageReceived => "MESSAGE_RECEIVED"
  end.

(** What the router receives from a connection. *)
Record RouterPayload := mkRouterPayload {
  rp_socket_id : bytes;
  rp_partner_id : bytes;
  rp_message : bytes;
  rp_message_type : MessageType;
}.

Inductive ZmqError :=
  | ZmqListenerError (msg : string)
  | ZmqSendError (msg : string)
  | ZmqRecvError (msg : string)
  | ZmqMalformedMessageType (msg : string)
  | ZmqPollingError (msg : string)
  | ZmqDisconnectError (msg : string)
  | ZmqRouterThreadJoinError (msg : string).

(** A computation fails with an error or panics: an index out of range, an [unwrap]
    of nothing. *)
Inductive or_panic (E : Type) := Panicked | Failed (e : E).
Arguments Panicked {E}.
Arguments Failed {E} e.

(** [v[n]] *)
Definition index {A E} (v : list A) (n : nat) : result (or_panic E) A := ok_or Panicked (v !! n).

(** ** The sockets of ZeroMQ *)

Inductive SocketType := REQ | ROUTER.

(** The operations of a context and of its sockets; their errors are texts.
    [zmq_poll_out] tells whether a message can be sent, [zmq_poll_in] which of two
    sockets have a message to receive. *)
Class Zmq (W Sock : Type) := {
  zmq_socket : SocketType → eff W string Sock;
  zmq_connect : Sock → string → eff W string ();
  zmq_bind : Sock → string → eff W string ();
  zmq_disconnect : Sock → string → eff W string ();
  zmq_send_multipart : Sock → list bytes → eff W string ();
  zmq_recv_multipart : Sock → eff W string (list bytes);
  zmq_poll_out : Sock → eff W string bool;
  zmq_poll_in : Sock → Sock → eff W string (bool * bool);
}.

(** ** Connections *)

Record ZmqConnection (Sock : Type) := mkZmqConnection {
  zc_socket : Sock;
  zc_partner_id : bytes;
  zc_endpoint : string;
}.
Arguments mkZmqConnection {Sock} _ _ _.
Arguments zc_socket {Sock} _.
Arguments zc_partner_id {Sock} _.
Arguments zc_endpoint {Sock} _.

Section connection.
Context {W Sock : Type} `{!Zmq W Sock}.

(** What a connection sends to the router. *)
Definition connection_payload (partner_id message : bytes) (t : MessageType) : list bytes :=
  [partner_id; ""; message; ""; message_type_into t].

Definition zmq_connection_connect (endpoint : string) :
    eff W (or_panic ConnectError) (ZmqConnection Sock) :=
  socket ← emap_err
    (λ err, Failed (ConnectProtocolError ("Could not create zmq REQ socket: " +:+ err)))
    (zmq_socket REQ);
  _ ← emap_err
    (λ err, Failed (ConnectProtocolError ("Failed to connect socket to backend: " +:+ err)))
    (zmq_connect socket endpoint);
  _ ← emap_err
    (λ err, Failed (ConnectProtocolError ("Failed to send connection payload: " +:+ err)))
    (zmq_send_multipart socket (connection_payload "" "" RequestConnection));
  payload ← emap_err
    (λ err, Failed (ConnectProtocolError ("Failed to recv connection response: " +:+ err)))
    (zmq_recv_multipart socket);
  partner_id ← lift (index payload 0);
  mret (mkZmqConnection socket partner_id endpoint).

Definition zmq_connection_send (c : ZmqConnection Sock) (message : bytes) :
    eff W (or_panic TransportSendError) () :=
  _ ← emap_err (λ err, Failed (SendProtocolError ("Failed to send payload: " +:+ err)))
    (zmq_send_multipart (zc_socket c) (connection_payload (zc_partner_id c) message SendingMessage));
  response ← emap_err
    (λ err, Failed (SendProtocolError ("Failed to receive acknowledgement: " +:+ err)))
    (zmq_recv_multipart (zc_socket c));
  message_type ← lift (index response 4);
  if decide (message_type_try_from message_type = Ok MessageReceived) then mret ()
  else throw (Failed (SendProtocolError "Failed to receive acknowledgement")).

(** One turn of the loop of [recv]: the message, if there was one. *)
Definition zmq_recv_turn (c : ZmqConnection Sock) : eff W (or_panic TransportRecvError) (option bytes) :=
  writable ← emap_err (λ err, Failed (RecvProtocolError ("Failed to poll socket " +:+ err)))
    (zmq_poll_out (zc_socket c));
  if writable : bool then
    _ ← emap_err (λ err, Failed (RecvProtocolError ("Failed to request data " +:+ err)))
      (zmq_send_multipart (zc_socket c) (connection_payload (zc_partner_id c) "" RequestData));
    response ← emap_err
      (λ err, Failed (RecvProtocolError
        ("Failed while receiving response " +:+ err +:+ " " +:+ zc_endpoint c)))
      (zmq_recv_multipart (zc_socket c));
    message_type ← lift (index response 4);
    if decide (message_type_try_from message_type = Ok DataAvailable) then
      message ← lift (index response 2); mret (Some message)
    else mret None
  else mret None.

(** [recv] for a number of turns; [None] is a call that still waits. *)
Fixpoint zmq_connection_recv (turns : nat) (c : ZmqConnection Sock) :
    eff W (or_panic TransportRecvError) (option bytes) :=
  match turns with
  | O => mret None
  | S turns =>
      message ← zmq_recv_turn c;
      match message with
      | Some message => mret (Some message)
      | None => zmq_connection_recv turns c
      end
  end.

Definition zmq_remote_endpoint (c : ZmqConnection Sock) : string := "zmq:" +:+ zc_endpoint c.
Definition zmq_local_endpoint (c : ZmqConnection Sock) : string := "zmq:" +:+ zc_endpoint c.

Definition zmq_connection_disconnect (c : ZmqConnection Sock) : eff W DisconnectError () :=
  emap_err (λ err, DisconnectProtocolError
      ("An error occurred while attempting to disconnect socket " +:+ err))
    (zmq_disconnect (zc_socket c) (zc_endpoint c)).
End connection.

(** ** The thread of the router *)

(** The variables of the thread. *)
Record Router := mkRouter {
  unmatched_clients : list bytes;
  unmatched_workers : list bytes;
  message_queue : gmap bytes (list bytes);
}.
Definition initial_router : Router := mkRouter [] [] ∅.

Section router.
Context {W Sock : Type} `{!Zmq W Sock}.

(** The frames of [send_msg]. *)
Definition router_message (socket_id partner_id message : bytes) (t : MessageType) : list bytes :=
  [socket_id; ""; partner_id; ""; message; ""; message_type_into t].

(** What is done on the sockets leaves the variables of the thread alone. *)
Definition on_sockets {A} (f : string → ZmqError) (m : eff W string A) :
    eff (Router * W) (or_panic ZmqError) A := λ '(r, w),
  let '(res, w') := m w in (map_err (λ e, Failed (f e)) res, (r, w')).
Definition on_router (f : Router → Router) : eff (Router * W) (or_panic ZmqError) () :=
  modify (λ '(r, w), (f r, w)).

Definition send_msg (socket : Sock) (socket_id partner_id message : bytes) (t : MessageType) :
    eff (Router * W) (or_panic ZmqError) () :=
  on_sockets ZmqSendError (zmq_send_multipart socket (router_message socket_id partner_id message t)).

(** The second part of [recv_msg]: taking the frames apart. *)
Definition router_payload (payload : list bytes) : result (or_panic ZmqError) RouterPayload :=
  message_type ← index payload 6;
  message_type ← map_err (λ e, Failed (ZmqMalformedMessageType e)) (message_type_try_from message_type);
  socket_id ← index payload 0;
  partner_id ← index payload 2;
  message ← index payload 4;
  mret (mkRouterPayload socket_id partner_id message message_type).

Definition recv_msg (socket : Sock) : eff (Router * W) (or_panic ZmqError) RouterPayload :=
  payload ← on_sockets ZmqRecvError (zmq_recv_multipart socket);
  lift (router_payload payload).

Section messages.
Context (frontend backend : Sock).

(** [RequestConnection] of a client *)
Definition client_connects (p : RouterPayload) : eff (Router * W) (or_panic ZmqError) () :=
  '(r, _) ← get;
  if bool_decide (unmatched_workers r = [] ∧ Forall (λ x, x ≠ rp_socket_id p) (unmatched_clients r))
  then on_router (λ r, mkRouter (unmatched_clients r ++ [rp_socket_id p]) (unmatched_workers r)
                         (message_queue r))
  else
    let '(worker, workers) := vec_pop (unmatched_workers r) in
    worker_id ← lift (ok_or Panicked worker);
    _ ← on_router (λ r, mkRouter (unmatched_clients r) workers (message_queue r));
    _ ← send_msg frontend (rp_socket_id p) worker_id "" ConnectionAccepted;
    send_msg backend worker_id (rp_socket_id p) "" ConnectionAccepted.

(** [RequestConnection] of the listener that accepts *)
Definition worker_connects (p : RouterPayload) : eff (Router * W) (or_panic ZmqError) () :=
  '(r, _) ← get;
  if bool_decide (unmatched_clients r = [] ∧ Forall (λ x, x ≠ rp_socket_id p) (unmatched_workers r))
  then on_router (λ r, mkRouter (unmatched_clients r) (unmatched_workers r ++ [rp_socket_id p])
                         (message_queue r))
  else
    let '(client, clients) := vec_pop (unmatched_clients r) in
    client_id ← lift (ok_or Panicked client);
    _ ← on_router (λ r, mkRouter clients (unmatched_workers r) (message_queue r));
    _ ← send_msg frontend client_id (rp_socket_id p) "" ConnectionAccepted;
    send_msg backend (rp_socket_id p) client_id "" ConnectionAccepted.

(** [RequestData], answered on the socket it came from *)
Definition data_requested (socket : Sock) (p : RouterPayload) : eff (Router * W) (or_panic ZmqError) () :=
  '(r, _) ← get;
  match message_queue r !! rp_socket_id p with
  | Some queue =>
      let '(msg, queue) := vec_pop queue in
      _ ← on_router (λ r, mkRouter (unmatched_clients r) (unmatched_workers r)
                            (<[rp_socket_id p := queue]> (message_queue r)));
      match msg with
      | Some msg => send_msg socket (rp_socket_id p) (rp_partner_id p) msg DataAvailable
      | None => send_msg socket (rp_socket_id p) (rp_partner_id p) "" NoDataAvailable
      end
  | None => send_msg socket (rp_socket_id p) (rp_partner_id p) "" NoDataAvailable
  end.

(** [SendingMessage], likewise *)
Definition message_sent (socket : Sock) (p : RouterPayload) : eff (Router * W) (or_panic ZmqError) () :=
  _ ← on_router (λ r, mkRouter (unmatched_clients r) (unmatched_workers r)
        (match message_queue r !! rp_partner_id p with
         | Some queue => <[rp_partner_id p := queue ++ [rp_message p]]> (message_queue r)
         | None => <[rp_partner_id p := [rp_message p]]> (message_queue r)
         end));
  send_msg socket (rp_socket_id p) (rp_partner_id p) "" MessageReceived.

Definition frontend_message (p : RouterPayload) : eff (Router * W) (or_panic ZmqError) () :=
  match rp_message_type p with
  | RequestConnection => client_connects p
  | RequestData => data_requested frontend p
  | SendingMessage => message_sent frontend p
  | _ => mret ()
  end.

Definition backend_message (p : RouterPayload) : eff (Router * W) (or_panic ZmqError) () :=
  match rp_message_type p with
  | RequestConnection => worker_connects p
  | RequestData => data_requested backend p
  | SendingMessage => message_sent backend p
  | _ => mret ()
  end.

(** One message of a socket: an error of [recv_msg] (not a panic) is logged, and
    the rest of the turn is skipped: the answer is whether to go on with it. *)
Definition socket_turn (socket : Sock) (handle : RouterPayload → eff (Router * W) (or_panic ZmqError) ()) :
    eff (Router * W) (or_panic ZmqError) bool :=
  payload ← attempt (recv_msg socket);
  match payload with
  | Ok payload => _ ← handle payload; mret true
  | Err Panicked => throw Panicked
  | Err (Failed _) => mret false
  end.

(** A turn of the loop; [stop] tells whether the request to stop has been sent by
    the end of the turn.  The answer is whether the loop is left. *)
Definition router_turn (stop : bool) : eff (Router * W) (or_panic ZmqError) bool :=
  '(frontend_readable, backend_readable) ← on_sockets ZmqPollingError (zmq_poll_in frontend backend);
  goes_on ← if frontend_readable : bool then socket_turn frontend frontend_message else mret true;
  if negb goes_on then mret false else
  goes_on ← if backend_readable : bool then socket_turn backend backend_message else mret true;
  if negb goes_on then mret false else
  mret stop.

(** The thread, for as many turns as there are in [stops]; [None] is a thread that
    still runs. *)
Fixpoint router_thread (frontend_endpoint : string) (stops : list bool) :
    eff (Router * W) (or_panic ZmqError) (option ()) :=
  match stops with
  | [] => mret None
  | stop :: stops =>
      leaves ← router_turn stop;
      if leaves : bool then
        _ ← on_sockets ZmqDisconnectError (zmq_disconnect frontend frontend_endpoint);
        _ ← on_sockets ZmqDisconnectError (zmq_disconnect backend "inproc://backend");
        mret (Some ())
      else router_thread frontend_endpoint stops
  end.
End messages.

(** ** The listener and the transport *)

(** A listener, with what its thread was given. *)
Record ZmqListener := mkZmqListener {
  zl_endpoint : string;
  zl_frontend : Sock;
  zl_backend : Sock;
}.

Definition zmq_start (endpoint : string) : eff W ListenError ZmqListener :=
  frontend ← emap_err
    (λ err, ListenProtocolError ("Could not create zmq ROUTER socket: " +:+ err)) (zmq_socket ROUTER);
  _ ← emap_err
    (λ err, ListenProtocolError ("Failed to bind ROUTER socket to " +:+ endpoint +:+ ": " +:+ err))
    (zmq_bind frontend endpoint);
  backend ← emap_err
    (λ err, ListenProtocolError ("Could not create zmq ROUTER socket: " +:+ err)) (zmq_socket ROUTER);
  _ ← emap_err
    (λ err, ListenProtocolError ("Failed to bind ROUTER socket to inproc://backend: " +:+ err))
    (zmq_bind backend "inproc://backend");
  mret (mkZmqListener endpoint frontend backend).

(** [stop] waits for the thread, which ends with the result [ended]; a thread that
    panicked cannot be joined. *)
Definition zmq_stop (listening : bool) (ended : result (or_panic ZmqError) ()) : result ZmqError () :=
  _ ← (if listening then Ok () else Err (ZmqDisconnectError "SendError"));
  match ended with
  | Ok () => Ok ()
  | Err Panicked => Err (ZmqRouterThreadJoinError "Any")
  | Err (Failed e) => Err e
  end.

Definition zmq_accept (l : ZmqListener) : eff W (or_panic AcceptError) (ZmqConnection Sock) :=
  emap_err (λ err, match err with
    | Panicked => Panicked
    | Failed _ => Failed (AcceptProtocolError "Failed to connect to backend")
    end) (zmq_connection_connect "inproc://backend").

Definition zmq_listener_endpoint (l : ZmqListener) : string := "zmq:" +:+ zl_endpoint l.

Definition zmq_accepts (address : string) : bool := starts_with "zmq:" address.

(** The endpoint of ZeroMQ for an address. *)
Definition zmq_address (address : string) : string :=
  let subprotocol := slice_from 4 address in
  if contains "://" subprotocol then subprotocol else "tcp://" +:+ subprotocol.

Definition zmq_transport_connect (endpoint : string) :
    eff W (or_panic ConnectError) (ZmqConnection Sock) :=
  if zmq_accepts endpoint then zmq_connection_connect (zmq_address endpoint)
  else throw (Failed (ConnectProtocolError (invalid_protocol endpoint))).

Definition zmq_transport_listen (bind : string) : eff W ListenError ZmqListener :=
  if zmq_accepts bind then zmq_start (zmq_address bind)
  else throw (ListenProtocolError (invalid_protocol bind)).
End router.
