(* ===== verification/ZmqProps.v ===== *)
(** * What the ZeroMQ router does with connections and messages

    Over any number of turns of the router's thread: connections are paired one to
    one, no message is lost, made up or given to another connection than the one it
    was sent to.  The order of the messages is not kept: a connection that asks for
    data is given the message that was sent last. *)

From Stdlib Require Import Lia.
From S2P Require Import Prelude Framing Transport Zmq.

(** What was sent and received on the sockets, as far as calls succeeded. *)
Class ZmqLog (W Sock : Type) `{!Zmq W Sock} := {
  sent_log : W → list (Sock * list bytes);
  received_log : W → list (Sock * list bytes);
  send_logged s p w :
    wp (zmq_send_multipart s p) (λ r w',
      sent_log w' = sent_log w ++ (if r is Ok _ then [(s, p)] else []) ∧
      received_log w' = received_log w) w;
  recv_logged s w :
    wp (zmq_recv_multipart s) (λ r w',
      sent_log w' = sent_log w ∧
      received_log w' = received_log w ++ (if r is Ok p then [(s, p)] else [])) w;
  poll_logged s s' w :
    wp (zmq_poll_in s s') (λ _ w', sent_log w' = sent_log w ∧ received_log w' = received_log w) w;
  disconnect_logged s e w :
    wp (zmq_disconnect s e) (λ _ w', sent_log w' = sent_log w ∧ received_log w' = received_log w) w;
}.

Lemma message_type_roundtrip t : message_type_try_from (message_type_into t) = Ok t.
Proof. by destruct t. Qed.

(** What the router sends has the layout of what it receives. *)
Lemma router_payload_message s p m t :
  router_payload (router_message s p m t) = Ok (mkRouterPayload s p m t).
Proof. unfold router_payload, router_message, index. cbn. by rewrite message_type_roundtrip. Qed.

Lemma vec_pop_nil {A} : vec_pop (@nil A) = (None, []).
Proof. done. Qed.
Lemma vec_pop_app {A} (l : list A) x : vec_pop (l ++ [x]) = (Some x, l).
Proof. unfold vec_pop. by rewrite reverse_snoc, reverse_involutive. Qed.

(** Either nothing or the last element is taken. *)
Lemma vec_pop_view {A} (l : list A) :
  l = [] ∧ vec_pop l = (None, []) ∨ ∃ l' x, l = l' ++ [x] ∧ vec_pop l = (Some x, l').
Proof.
  destruct l as [|x l' _] using rev_ind; [by left|right].
  exists l', x. by rewrite vec_pop_app.
Qed.

Lemma fresh_in_snoc {A} (l l' : list A) x : NoDup ((l ++ l') ++ [x]) → Forall (λ y, y ≠ x) l'.
Proof.
  rewrite <- app_assoc. intros (_ & _ & Hnd)%NoDup_app. apply NoDup_app in Hnd as (_ & Hnd & _).
  apply Forall_forall. intros y Hy ->. apply (Hnd _ Hy). by apply list_elem_of_singleton.
Qed.

Section props.
Context {W Sock : Type} {Hz : Zmq W Sock} {Hlog : ZmqLog W Sock} `{!EqDecision Sock}.
Context (frontend backend : Sock) (Hsockets : frontend ≠ backend).

Definition payload_of (m : Sock * list bytes) : option (Sock * RouterPayload) :=
  match router_payload m.2 with Ok p => Some (m.1, p) | Err _ => None end.

(** What the connections sent to [id], and what the router gave it. *)
Definition sent_to (id : bytes) (ps : list (Sock * RouterPayload)) : list bytes :=
  omap (λ '(_, p), if decide (rp_message_type p = SendingMessage ∧ rp_partner_id p = id)
                   then Some (rp_message p) else None) ps.
Definition given_to (id : bytes) (ps : list (Sock * RouterPayload)) : list bytes :=
  omap (λ '(_, p), if decide (rp_message_type p = DataAvailable ∧ rp_socket_id p = id)
                   then Some (rp_message p) else None) ps.
Definition queued_for (id : bytes) (r : Router) : list bytes := default [] (message_queue r !! id).

(** The connections that asked for a partner on a socket, and those that were told
    theirs. *)
Definition asked (s : Sock) (ps : list (Sock * RouterPayload)) : list bytes :=
  omap (λ '(s', p), if decide (s' = s ∧ rp_message_type p = RequestConnection)
                    then Some (rp_socket_id p) else None) ps.
Definition told (s : Sock) (ps : list (Sock * RouterPayload)) : list (bytes * bytes) :=
  omap (λ '(s', p), if decide (s' = s ∧ rp_message_type p = ConnectionAccepted)
                    then Some (rp_socket_id p, rp_partner_id p) else None) ps.

(** The state of the router after the payloads [ins] and the answers [outs]. *)
Record router_ok (ins outs : list (Sock * RouterPayload)) (r : Router) : Prop := {
  ro_messages id : sent_to id ins ≡ₚ given_to id outs ++ queued_for id r;
  ro_clients : asked frontend ins ≡ₚ (told frontend outs).*1 ++ unmatched_clients r;
  ro_workers : asked backend ins ≡ₚ (told backend outs).*1 ++ unmatched_workers r;
  ro_mirror : told backend outs = prod_swap <$> told frontend outs;
  ro_waiting : unmatched_clients r = [] ∨ unmatched_workers r = [];
}.

Definition ins (w : W) := omap payload_of (received_log w).
Definition outs (w : W) := omap payload_of (sent_log w).

Lemma outs_snoc w w' s id pid m t :
  sent_log w' = sent_log w ++ [(s, router_message id pid m t)] →
  outs w' = outs w ++ [(s, mkRouterPayload id pid m t)].
Proof. unfold outs. intros ->. rewrite omap_app. cbn. unfold payload_of. cbn [fst snd]. by rewrite router_payload_message. Qed.

Lemma wp_send_msg s id pid m t Q r w :
  (∀ w', outs w' = outs w ++ [(s, mkRouterPayload id pid m t)] → received_log w' = received_log w →
    Q (Ok ()) (r, w')) →
  (∀ e w', received_log w' = received_log w → Q (Err (Failed e)) (r, w')) →
  wp (send_msg s id pid m t) Q (r, w).
Proof.
  intros Hok Herr. unfold wp, send_msg, on_sockets.
  pose proof (send_logged s (router_message id pid m t) w) as H. unfold wp in H.
  destruct (zmq_send_multipart _ _ w) as [[[]|e] w'] eqn:E; destruct H as [H1 H2]; cbn.
  - apply Hok; [by apply outs_snoc|done].
  - by apply Herr.
Qed.

Lemma sent_to_snoc id ps s p :
  sent_to id (ps ++ [(s, p)]) = sent_to id ps ++
    (if decide (rp_message_type p = SendingMessage ∧ rp_partner_id p = id) then [rp_message p] else []).
Proof. unfold sent_to. rewrite omap_app. cbn. by case_decide. Qed.
Lemma given_to_snoc id ps s p :
  given_to id (ps ++ [(s, p)]) = given_to id ps ++
    (if decide (rp_message_type p = DataAvailable ∧ rp_socket_id p = id) then [rp_message p] else []).
Proof. unfold given_to. rewrite omap_app. cbn. by case_decide. Qed.
Lemma asked_snoc s ps s' p :
  asked s (ps ++ [(s', p)]) = asked s ps ++
    (if decide (s' = s ∧ rp_message_type p = RequestConnection) then [rp_socket_id p] else []).
Proof. unfold asked. rewrite omap_app. cbn. by case_decide. Qed.
Lemma told_snoc s ps s' p :
  told s (ps ++ [(s', p)]) = told s ps ++
    (if decide (s' = s ∧ rp_message_type p = ConnectionAccepted)
     then [(rp_socket_id p, rp_partner_id p)] else []).
Proof. unfold told. rewrite omap_app. cbn. by case_decide. Qed.

(** What one more payload [p] on [s] leads to, from a world [w]. *)
Definition handled (s : Sock) (p : RouterPayload) (ps0 : list (Sock * RouterPayload)) (w : W)
    (res : result (or_panic ZmqError) ()) (st : Router * W) : Prop :=
  received_log st.2 = received_log w ∧
  match res with
  | Ok _ => router_ok (ps0 ++ [(s, p)]) (outs st.2) st.1
  | Err Panicked =>
      ¬ (NoDup (asked frontend (ps0 ++ [(s, p)])) ∧ NoDup (asked backend (ps0 ++ [(s, p)])))
  | Err (Failed _) => True
  end.

(** The logs with one more entry; only the conditions that are settled are decided. *)
Ltac logs :=
  rewrite ?sent_to_snoc, ?given_to_snoc, ?asked_snoc, ?told_snoc;
  cbn [rp_socket_id rp_partner_id rp_message rp_message_type];
  repeat first [rewrite decide_True by naive_solver | rewrite decide_False by naive_solver];
  rewrite ?app_nil_r.

Lemma message_sent_ok s p ps0 r w :
  rp_message_type p = SendingMessage → router_ok ps0 (outs w) r →
  wp (message_sent s p) (handled s p ps0 w) (r, w).
Proof.
  destruct p as [id pid m t]. cbn. intros -> Hr. unfold message_sent, on_router. wp_go.
  apply wp_send_msg; [|done]. intros w' Ho Hrec. split; [done|]. cbn [fst snd]. rewrite Ho.
  destruct Hr as [Hm Hc Hw Hmi Hwa]. split; cbn [unmatched_clients unmatched_workers]; logs; try done.
  intros id'. specialize (Hm id'). logs. unfold queued_for in *. cbn [message_queue].
  destruct (decide (pid = id')) as [->|Hne].
  - rewrite decide_True by done. rewrite Hm.
    destruct (message_queue r !! id'); rewrite lookup_insert_eq; cbn; by rewrite ?app_nil_r, ?app_assoc.
  - rewrite decide_False, app_nil_r by naive_solver.
    destruct (message_queue r !! pid); by rewrite lookup_insert_ne.
Qed.

Lemma data_requested_ok s p ps0 r w :
  rp_message_type p = RequestData → router_ok ps0 (outs w) r →
  wp (data_requested s p) (handled s p ps0 w) (r, w).
Proof.
  destruct p as [id pid m t]. cbn. intros -> [Hm Hc Hw Hmi Hwa]. unfold data_requested, on_router. wp_go.
  cbn [rp_socket_id]. destruct (message_queue r !! id) as [q|] eqn:Hq.
  - destruct (vec_pop_view q) as [[-> Hp]|(q' & x & -> & Hp)]; rewrite Hp; wp_go;
      (apply wp_send_msg; [|done]); intros w' Ho Hrec; (split; [done|]); cbn [fst snd]; rewrite Ho;
      (split; cbn [unmatched_clients unmatched_workers]; logs; try done);
      intros id'; specialize (Hm id'); logs; rewrite Hm; unfold queued_for; cbn [message_queue];
      (destruct (decide (id = id')) as [->|Hne];
        [rewrite Hq, lookup_insert_eq; simpl|
         rewrite lookup_insert_ne by done; logs; done]).
    + done.
    + rewrite decide_True by done. rewrite <- app_assoc. cbn [app]. by rewrite (Permutation_app_comm q').
  - apply wp_send_msg; [|done]. intros w' Ho Hrec. split; [done|]. cbn [fst snd]. rewrite Ho.
    split; cbn [unmatched_clients unmatched_workers]; logs; try done.
    intros id'. specialize (Hm id'). by logs.
Qed.

Lemma client_connects_ok p ps0 r w :
  rp_message_type p = RequestConnection → router_ok ps0 (outs w) r →
  wp (client_connects frontend backend p) (handled frontend p ps0 w) (r, w).
Proof.
  destruct p as [id pid m t]. cbn. intros -> [Hm Hc Hw Hmi Hwa]. unfold client_connects, on_router. wp_go.
  cbn [rp_socket_id]. case_bool_decide as Hd; wp_go.
  - destruct Hd as [He Hf]. split; [done|]. cbn [fst snd].
    split; cbn [unmatched_clients unmatched_workers]; logs; try done; [intros id'; by logs| |by right].
    by rewrite Hc, app_assoc.
  - destruct (vec_pop_view (unmatched_workers r)) as [[He Hp]|(ws & x & He & Hp)]; rewrite Hp; cbn [ok_or]; wp_go.
    + split; [done|]. logs. intros [Hnd _]. rewrite Hc in Hnd.
      apply not_and_l in Hd as [Hd|Hd]; [done|]. apply Hd. by apply (fresh_in_snoc (told frontend (outs w)).*1).
    + apply wp_send_msg; [|done]. intros w1 Ho1 Hrec1.
      apply wp_send_msg; [|intros e w2 Hrec2; by split; [cbn; congruence|]]. intros w2 Ho2 Hrec2.
      split; [by cbn; congruence|]. cbn [fst snd]. rewrite Ho2, Ho1.
      assert (Hcl : unmatched_clients r = []).
      { destruct Hwa as [?|Hn]; [done|]. rewrite He in Hn. by destruct ws. }
      split; cbn [unmatched_clients unmatched_workers]; logs; try done.
      * intros id'. by logs.
      * rewrite Hc, Hcl, fmap_app, !app_nil_r. done.
      * rewrite Hw, He, fmap_app. cbn. rewrite <- app_assoc. apply Permutation_app_head, Permutation_app_comm.
      * rewrite Hmi, fmap_app. done.
      * by left.
Qed.

Lemma worker_connects_ok p ps0 r w :
  rp_message_type p = RequestConnection → router_ok ps0 (outs w) r →
  wp (worker_connects frontend backend p) (handled backend p ps0 w) (r, w).
Proof.
  destruct p as [id pid m t]. cbn. intros -> [Hm Hc Hw Hmi Hwa]. unfold worker_connects, on_router. wp_go.
  cbn [rp_socket_id]. case_bool_decide as Hd; wp_go.
  - destruct Hd as [He Hf]. split; [done|]. cbn [fst snd].
    split; cbn [unmatched_clients unmatched_workers]; logs; try done; [intros id'; by logs| |by left].
    by rewrite Hw, app_assoc.
  - destruct (vec_pop_view (unmatched_clients r)) as [[He Hp]|(cs & x & He & Hp)]; rewrite Hp; cbn [ok_or]; wp_go.
    + split; [done|]. logs. intros [_ Hnd]. rewrite Hw in Hnd.
      apply not_and_l in Hd as [Hd|Hd]; [done|]. apply Hd. by apply (fresh_in_snoc (told backend (outs w)).*1).
    + apply wp_send_msg; [|done]. intros w1 Ho1 Hrec1.
      apply wp_send_msg; [|intros e w2 Hrec2; by split; [cbn; congruence|]]. intros w2 Ho2 Hrec2.
      split; [by cbn; congruence|]. cbn [fst snd]. rewrite Ho2, Ho1.
      assert (Hcl : unmatched_workers r = []).
      { destruct Hwa as [Hn|?]; [|done]. rewrite He in Hn. by destruct cs. }
      split; cbn [unmatched_clients unmatched_workers]; logs; try done.
      * intros id'. by logs.
      * rewrite Hc, He, fmap_app. cbn. rewrite <- app_assoc. apply Permutation_app_head, Permutation_app_comm.
      * rewrite Hw, Hcl, fmap_app, !app_nil_r. done.
      * rewrite Hmi, fmap_app. done.
      * by right.
Qed.

(** Messages of other types change nothing. *)
Lemma other_message_ok s p ps0 r w :
  rp_message_type p ∉ [RequestConnection; RequestData; SendingMessage] → router_ok ps0 (outs w) r →
  handled s p ps0 w (Ok ()) (r, w).
Proof.
  intros Hn [Hm Hc Hw Hmi Hwa]. split; [done|]. cbn [fst snd].
  assert (rp_message_type p ≠ RequestConnection ∧ rp_message_type p ≠ SendingMessage) as [H1 H2]
    by set_solver.
  split; try done; [intros id'| |]; rewrite ?sent_to_snoc, ?asked_snoc; rewrite decide_False by tauto;
    by rewrite app_nil_r.
Qed.

Lemma frontend_message_ok p ps0 r w :
  router_ok ps0 (outs w) r → wp (frontend_message frontend backend p) (handled frontend p ps0 w) (r, w).
Proof.
  intros Hr. unfold frontend_message. destruct (rp_message_type p) eqn:Ht;
    auto using client_connects_ok, data_requested_ok, message_sent_ok;
    apply wp_ret, other_message_ok; (done || rewrite Ht; set_solver).
Qed.

Lemma backend_message_ok p ps0 r w :
  router_ok ps0 (outs w) r → wp (backend_message frontend backend p) (handled backend p ps0 w) (r, w).
Proof.
  intros Hr. unfold backend_message. destruct (rp_message_type p) eqn:Ht;
    auto using worker_connects_ok, data_requested_ok, message_sent_ok;
    apply wp_ret, other_message_ok; (done || rewrite Ht; set_solver).
Qed.

(** Connections ask for a partner once, since a [REQ] socket waits for its answer,
    and their messages have all frames. *)
Definition regular (w : W) : Prop :=
  NoDup (asked frontend (ins w)) ∧ NoDup (asked backend (ins w)) ∧
  Forall (λ m, 7 ≤ length m.2) (received_log w).

Definition turned {A} (res : result (or_panic ZmqError) A) (st : Router * W) : Prop :=
  match res with
  | Ok _ => router_ok (ins st.2) (outs st.2) st.1
  | Err Panicked => ¬ regular st.2
  | Err (Failed _) => True
  end.

Lemma router_payload_total m : 7 ≤ length m → router_payload m ≠ Err Panicked.
Proof.
  intros Hl. unfold router_payload, index.
  destruct m as [|? [|? [|? [|? [|? [|? [|? m]]]]]]]; cbn in Hl; try lia. cbn.
  by destruct (message_type_try_from _).
Qed.

Lemma wp_on_sockets {A} f (m : eff W string A) Q r w :
  wp m (λ res w', Q (map_err (λ e, Failed (f e)) res) (r, w')) w → wp (on_sockets f m) Q (r, w).
Proof. unfold wp, on_sockets. by destruct (m w). Qed.

Lemma ins_snoc w w' s m :
  received_log w' = received_log w ++ [(s, m)] →
  ins w' = ins w ++ match router_payload m with Ok p => [(s, p)] | Err _ => [] end.
Proof.
  unfold ins. intros ->. rewrite omap_app. f_equal. cbn. unfold payload_of. cbn.
  by destruct (router_payload m).
Qed.

Lemma socket_turn_ok s handle r w :
  (∀ p ps0 r w, router_ok ps0 (outs w) r → wp (handle p) (handled s p ps0 w) (r, w)) →
  router_ok (ins w) (outs w) r → wp (socket_turn s handle) turned (r, w).
Proof.
  intros Hh Hr. unfold socket_turn, recv_msg. wp_go. apply wp_on_sockets.
  eapply wp_mono; [apply recv_logged|]. intros [m|e] w1 [Hs1 Hr1]; cbn [map_err]; wp_go.
  2: { rewrite app_nil_r in Hr1. cbn. unfold ins, outs in *. by rewrite Hs1, Hr1. }
  pose proof (ins_snoc _ _ _ _ Hr1) as Hi.
  assert (Ho : outs w1 = outs w) by (unfold outs; by rewrite Hs1).
  destruct (router_payload m) as [p|[|e]] eqn:Hm; wp_go.
  - eapply wp_mono; [apply Hh; by rewrite Ho|]. intros [[]|[|e]] [r2 w2] [Hrec H2]; cbn in *; try done.
    + wp_go. cbn. unfold ins in *. by rewrite Hrec, Hi.
    + intros (H3 & H4 & _). apply H2. unfold ins in *. rewrite Hrec, Hi in H3. by rewrite Hrec, Hi in H4.
  - cbn. intros (_ & _ & Hf). rewrite Hr1 in Hf. apply Forall_app in Hf as [_ Hf].
    inversion_clear Hf. by apply (router_payload_total m).
  - cbn. rewrite Hi, Ho, app_nil_r. done.
Qed.

Lemma router_turn_ok stop r w :
  router_ok (ins w) (outs w) r → wp (router_turn frontend backend stop) turned (r, w).
Proof.
  intros Hr. unfold router_turn. wp_go. apply wp_on_sockets.
  eapply wp_mono; [apply poll_logged|]. intros [[rf rb]|e] w1 [Hs1 Hr1]; [|done]. cbn [map_err].
  assert (H1 : router_ok (ins w1) (outs w1) r) by (unfold ins, outs; by rewrite Hs1, Hr1).
  wp_go. apply (wp_mono _ turned).
  { destruct rf; [|by wp_go]. apply socket_turn_ok; [|done]. intros. by apply frontend_message_ok. }
  intros [[]|e] [r2 w2] H2; cbn [negb]; wp_go; try done.
  apply (wp_mono _ turned).
  { destruct rb; [|by wp_go]. apply socket_turn_ok; [|done]. intros. by apply backend_message_ok. }
  intros [[]|e'] [r3 w3] H3; cbn [negb]; wp_go; done.
Qed.

Lemma router_thread_ok e stops r w :
  router_ok (ins w) (outs w) r → wp (router_thread frontend backend e stops) turned (r, w).
Proof.
  revert r w. induction stops as [|stop stops IH]; intros r w Hr; cbn [router_thread]; wp_go; [done|].
  eapply wp_mono; [by apply router_turn_ok|]. intros [[]|e'] [r1 w1] H1; [|by apply IH|done].
  wp_go. apply wp_on_sockets. eapply wp_mono; [apply disconnect_logged|].
  intros [[]|e'] w2 [Hs2 Hr2]; [|done]. cbn [map_err]. wp_go. apply wp_on_sockets.
  eapply wp_mono; [apply disconnect_logged|]. intros [[]|e'] w3 [Hs3 Hr3]; [|done]. cbn [map_err]. wp_go.
  cbn in *. unfold ins, outs in *. by rewrite Hs3, Hr3, Hs2, Hr2.
Qed.

(** C33: the thread of a router, from its start, over any number of turns.  When
    connections keep to the protocol the thread does not panic.  As long as its
    sockets work: the messages sent to a connection are those it was given and
    those that wait for it; each connection is told one partner, the partner is
    told the same, and no connection is the partner of two; and connections that
    are told nothing wait, with none to pair them with. *)
Theorem router_pairs_and_keeps e stops w0 :
  sent_log w0 = [] → received_log w0 = [] →
  let '(res, (r, w)) := router_thread frontend backend e stops (initial_router, w0) in
  regular w →
  res ≠ Err Panicked ∧
  (is_ok res = true →
    (∀ id, sent_to id (ins w) ≡ₚ given_to id (outs w) ++ queued_for id r) ∧
    told backend (outs w) = prod_swap <$> told frontend (outs w) ∧
    NoDup (told frontend (outs w)).*1 ∧ NoDup (told frontend (outs w)).*2 ∧
    asked frontend (ins w) ≡ₚ (told frontend (outs w)).*1 ++ unmatched_clients r ∧
    asked backend (ins w) ≡ₚ (told frontend (outs w)).*2 ++ unmatched_workers r ∧
    (unmatched_clients r = [] ∨ unmatched_workers r = [])).
Proof.
  intros Hs Hr. pose proof (router_thread_ok e stops initial_router w0) as H. unfold wp in H.
  destruct (router_thread _ _ _ _ _) as [res [r w]].
  assert (H0 : turned res (r, w)).
  { apply H. unfold ins, outs. rewrite Hs, Hr. split; [intros id; done|done..|by left]. }
  intros Hreg. split; [intros ->; by apply H0|]. destruct res as [a|]; [intros _|done].
  destruct H0 as [Hm Hc Hw Hmi Hwa]. cbn in *. destruct Hreg as (Hn1 & Hn2 & _).
  assert (Hsnd : (told backend (outs w)).*1 = (told frontend (outs w)).*2).
  { rewrite Hmi, <- list_fmap_compose. by apply list_fmap_ext; intros ? []. }
  rewrite Hc in Hn1. rewrite Hw, Hsnd in Hn2. rewrite Hsnd in Hw.
  apply NoDup_app in Hn1 as [Hn1 _], Hn2 as [Hn2 _]. by split_and!.
Qed.
End props.

(** ** One listener per transport

    The router's second socket is bound to a fixed name, and ZeroMQ refuses to bind
    a name twice in a context. *)

Class ZmqBound (W Sock : Type) `{!Zmq W Sock} := {
  bound : W → gset string;
  bind_bound s e w :
    wp (zmq_bind s e) (λ r w',
      match r with Ok _ => (e ∉ bound w) ∧ bound w' = {[e]} ∪ bound w | Err _ => bound w' = bound w end) w;
  socket_bound t w : wp (zmq_socket t) (λ _ w', bound w' = bound w) w;
}.

Section listeners.
Context {W Sock : Type} {Hz : Zmq W Sock} {Hbound : ZmqBound W Sock}.

(** What a call to listen does to the bound names. *)
Lemma zmq_listen_bound bind w :
  wp (zmq_transport_listen bind) (λ r w', bound w ⊆ bound w' ∧
    match r with
    | Ok _ => ("inproc://backend" ∉ bound w) ∧ "inproc://backend" ∈ bound w'
    | Err _ => True
    end) w.
Proof.
  unfold zmq_transport_listen, zmq_start. destruct (zmq_accepts bind); [|by apply wp_throw].
  wp_go. eapply wp_mono; [apply socket_bound|]. intros [s|e] w1 H1; cbn [map_err]; [|by rewrite H1].
  wp_go. eapply wp_mono; [apply bind_bound|]. intros [[]|e] w2 H2; cbn [map_err]; [|by rewrite H2, H1].
  wp_go. eapply wp_mono; [apply socket_bound|].
  intros [s'|e] w3 H3; cbn [map_err]; [|rewrite H3; split; [set_solver|done]].
  wp_go. eapply wp_mono; [apply bind_bound|].
  intros [[]|e] w4 H4; cbn [map_err]; [wp_go|rewrite H4, H3; split; [set_solver|done]].
  set_solver.
Qed.

(** A transport that listens cannot listen on a second address. *)
Theorem second_listen_fails bind l w w1 bind' :
  zmq_transport_listen bind w = (Ok l, w1) → is_ok (zmq_transport_listen bind' w1).1 = false.
Proof.
  intros H. pose proof (zmq_listen_bound bind w) as H1. unfold wp in H1. rewrite H in H1.
  pose proof (zmq_listen_bound bind' w1) as H2. unfold wp in H2.
  destruct (zmq_transport_listen bind' w1) as [[l'|] w2]; [|done]. cbn in *. set_solver.
Qed.
End listeners.

(** ** A network

    The sockets as the comment of [MessageType] describes them: a [ROUTER] puts the
    id of the sender and an empty frame before what a connection sent, and takes
    them off what it sends to one.  A request of a connection is handled in one
    turn of the router. *)

Module ZmqNet.

Inductive Side := Frontend | Backend.
#[global] Instance Side_eq_dec : EqDecision Side.
Proof. solve_decision. Defined.
Definition side_eqb (s s' : Side) : bool :=
  match s, s' with Frontend, Frontend | Backend, Backend => true | _, _ => false end.

(** [n_in] has what waits for the router, [n_mail] the answers for connections. *)
Record Net := mkNet {
  n_in : list (Side * list bytes);
  n_mail : list (Side * bytes * list bytes);
  n_sent : list (Side * list bytes);
  n_received : list (Side * list bytes);
}.

Fixpoint take_first {A} (f : A → bool) (l : list A) : option (A * list A) :=
  match l with
  | [] => None
  | x :: l => if f x then Some (x, l) else prod_map id (x ::.) <$> take_first f l
  end.

Definition unsupported {W A} : eff W string A := throw "unsupported".

#[global] Instance router_sockets : Zmq Net Side := {|
  zmq_socket _ := unsupported;
  zmq_connect _ _ := unsupported;
  zmq_bind _ _ := unsupported;
  zmq_disconnect _ _ := mret ();
  zmq_send_multipart s p n :=
    (Ok (), mkNet (n_in n)
       (match p with id :: _ :: p => n_mail n ++ [(s, id, p)] | _ => n_mail n end)
       (n_sent n ++ [(s, p)]) (n_received n));
  zmq_recv_multipart s n :=
    match take_first (λ m, side_eqb m.1 s) (n_in n) with
    | Some (m, rest) => (Ok m.2, mkNet rest (n_mail n) (n_sent n) (n_received n ++ [(s, m.2)]))
    | None => (Err "EAGAIN", n)
    end;
  zmq_poll_out _ := mret true;
  zmq_poll_in s s' n :=
    (Ok (existsb (λ m, side_eqb m.1 s) (n_in n), existsb (λ m, side_eqb m.1 s') (n_in n)), n);
|}.

#[global] Instance router_log : ZmqLog Net Side.
Proof.
  refine {| sent_log := n_sent; received_log := n_received |}; unfold wp; cbn.
  - by intros s p w.
  - intros s w. by destruct (take_first _ _) as [[m rest]|]; cbn; rewrite ?app_nil_r.
  - by intros s s' w.
  - by intros s e w.
Defined.

(** The sockets of connections, each with the side it is on and its id. *)
#[global] Instance connection_sockets : Zmq (Router * Net) (Side * bytes) := {|
  zmq_socket _ := unsupported;
  zmq_connect _ _ := unsupported;
  zmq_bind _ _ := unsupported;
  zmq_disconnect _ _ := mret ();
  zmq_send_multipart s p := λ '(r, n),
    (Ok (), (r, mkNet (n_in n ++ [(s.1, s.2 :: "" :: p)]) (n_mail n) (n_sent n) (n_received n)));
  zmq_recv_multipart s st :=
    match router_turn Frontend Backend false st with
    | (Ok _, (r, n)) =>
        match take_first (λ m, side_eqb m.1.1 s.1 && String.eqb m.1.2 s.2) (n_mail n) with
        | Some (m, rest) => (Ok m.2, (r, mkNet (n_in n) rest (n_sent n) (n_received n)))
        | None => (Err "EAGAIN", (r, n))
        end
    | (Err _, st') => (Err "ETERM", st')
    end;
  zmq_poll_out _ := mret true;
  zmq_poll_in _ _ := unsupported;
|}.

(** No request and no answer is on its way. *)
Definition quiet (n : Net) : Prop := n_in n = [] ∧ n_mail n = [].

Definition set_queue (id : bytes) (q : list bytes) (r : Router) : Router :=
  mkRouter (unmatched_clients r) (unmatched_workers r) (<[id := q]> (message_queue r)).

Lemma try_from_sending : message_type_try_from "SENDING_MESSAGE" = Ok SendingMessage.
Proof. done. Qed.
Lemma try_from_received : message_type_try_from "MESSAGE_RECEIVED" = Ok MessageReceived.
Proof. done. Qed.
Lemma try_from_request : message_type_try_from "REQUEST_DATA" = Ok RequestData.
Proof. done. Qed.
Lemma try_from_data : message_type_try_from "DATA_AVAILABLE" = Ok DataAvailable.
Proof. done. Qed.

Ltac net_run := repeat (progress (unfold zmq_connection_send, zmq_recv_turn, router_turn, socket_turn,
  recv_msg, frontend_message, backend_message, message_sent, data_requested, mbind, eff_bind, attempt,
  emap_err, on_sockets, on_router, modify, lift, send_msg, get, throw; cbn;
  rewrite ?try_from_sending, ?try_from_received, ?try_from_request, ?try_from_data, ?String.eqb_refl)).

Lemma send_exchange s id pid e m r n :
  quiet n → ∃ n', quiet n' ∧
    zmq_connection_send (mkZmqConnection (s, id) pid e) m (r, n) =
      (Ok (), (set_queue pid (queued_for pid r ++ [m]) r, n')).
Proof.
  destruct n as [i ma se re]. intros [Hi Hm]. cbn in Hi, Hm. subst i ma.
  destruct s; eexists (mkNet [] [] _ _); (split; [by split|]); net_run;
    unfold queued_for, set_queue; by destruct (message_queue r !! pid).
Qed.

Lemma recv_exchange s id pid e q m r n :
  quiet n → queued_for id r = q ++ [m] → ∃ n', quiet n' ∧
    zmq_recv_turn (mkZmqConnection (s, id) pid e) (r, n) = (Ok (Some m), (set_queue id q r, n')).
Proof.
  destruct n as [i ma se re]. intros [Hi Hm] Hq. cbn in Hi, Hm. subst i ma.
  unfold queued_for in Hq. destruct (message_queue r !! id) as [q'|] eqn:Hr; cbn in Hq; [subst q'|by destruct q].
  destruct s; eexists (mkNet [] [] _ _); (split; [by split|]); net_run; rewrite Hr, vec_pop_app; by net_run.
Qed.

(** Calls of [send] and of [recv], one after the other. *)
Fixpoint send_all (c : ZmqConnection (Side * bytes)) (ms : list bytes) :
    eff (Router * Net) (or_panic TransportSendError) () :=
  match ms with
  | [] => mret ()
  | m :: ms => _ ← zmq_connection_send c m; send_all c ms
  end.
Fixpoint recv_all (k turns : nat) (c : ZmqConnection (Side * bytes)) :
    eff (Router * Net) (or_panic TransportRecvError) (list (option bytes)) :=
  match k with
  | O => mret []
  | S k => m ← zmq_connection_recv turns c; ms ← recv_all k turns c; mret (m :: ms)
  end.

Lemma queued_set_queue id q r : queued_for id (set_queue id q r) = q.
Proof. unfold queued_for, set_queue. cbn. by rewrite lookup_insert_eq. Qed.

Lemma send_all_ok s id pid e ms r n :
  quiet n → ∃ r' n', quiet n' ∧ queued_for pid r' = queued_for pid r ++ ms ∧
    send_all (mkZmqConnection (s, id) pid e) ms (r, n) = (Ok (), (r', n')).
Proof.
  revert r n. induction ms as [|m ms IH]; intros r n Hn.
  { exists r, n. by rewrite app_nil_r. }
  destruct (send_exchange s id pid e m r n Hn) as (n1 & Hn1 & H1).
  destruct (IH (set_queue pid (queued_for pid r ++ [m]) r) n1 Hn1) as (r2 & n2 & Hn2 & Hq & H2).
  exists r2, n2. split; [done|]. rewrite Hq, queued_set_queue, <- app_assoc. split; [done|].
  cbn [send_all]. by erewrite eff_bind_ok.
Qed.

Lemma recv_once turns (c : ZmqConnection (Side * bytes)) m st st' :
  zmq_recv_turn c st = (Ok (Some m), st') → zmq_connection_recv (S turns) c st = (Ok (Some m), st').
Proof. intros H. cbn. by rewrite (eff_bind_ok _ _ _ _ _ H). Qed.

Lemma recv_all_ok turns s id pid e q ms r n :
  quiet n → queued_for id r = q ++ ms → ∃ r' n', quiet n' ∧ queued_for id r' = q ∧
    recv_all (length ms) (S turns) (mkZmqConnection (s, id) pid e) (r, n) =
      (Ok (Some <$> reverse ms), (r', n')).
Proof.
  revert r n. induction ms as [|m ms IH] using rev_ind; intros r n Hn Hq.
  { exists r, n. by rewrite app_nil_r in Hq. }
  rewrite app_assoc in Hq.
  destruct (recv_exchange s id pid e _ _ r n Hn Hq) as (n1 & Hn1 & H1).
  destruct (IH (set_queue id (q ++ ms) r) n1 Hn1 (queued_set_queue _ _ _)) as (r2 & n2 & Hn2 & Hq2 & H2).
  exists r2, n2. do 2 (split; [done|]). rewrite length_app, Nat.add_comm, reverse_snoc.
  cbn [length Nat.add recv_all]. rewrite (eff_bind_ok _ _ _ _ _ (recv_once turns _ _ _ _ H1)).
  by rewrite (eff_bind_ok _ _ _ _ _ H2).
Qed.

(** What one end of a connection sends reaches the other end, each message once and
    whatever else the router has to do; but a receiver that does not ask in between
    gets the messages last one first. *)
Theorem zmq_last_sent_first turns s id pid e s' e' ms r n :
  quiet n →
  ∃ st r' n',
    send_all (mkZmqConnection (s, id) pid e) ms (r, n) = (Ok (), st) ∧
    recv_all (length ms) (S turns) (mkZmqConnection (s', pid) id e') st =
      (Ok (Some <$> reverse ms), (r', n')) ∧
    quiet n' ∧ queued_for pid r' = queued_for pid r.
Proof.
  intros Hn. destruct (send_all_ok s id pid e ms r n Hn) as (r1 & n1 & Hn1 & Hq1 & H1).
  destruct (recv_all_ok turns s' pid id e' _ ms r1 n1 Hn1 Hq1) as (r2 & n2 & Hn2 & Hq2 & H2).
  by exists (r1, n1), r2, n2.
Qed.

(** A message with too few frames makes the thread of the router panic. *)
Example short_message_panics :
  (router_thread Frontend Backend "tcp://a" [false]
     (initial_router, mkNet [(Frontend, ["c"; ""; "CONNECT"])] [] [] [])).1 = Err Panicked.
Proof. vm_compute. reflexivity. Qed.

(** So does a connection that asks for a partner again while it waits for one. *)
Example second_request_panics :
  let m := (Frontend, "c" :: "" :: connection_payload "" "" RequestConnection) in
  (router_thread Frontend Backend "tcp://a" [false; false]
     (initial_router, mkNet [m; m] [] [] [])).1 = Err Panicked.
Proof. vm_compute. reflexivity. Qed.

Definition example_net : Net :=
  mkNet [(Backend, "w" :: "" :: connection_payload "" "" RequestConnection);
         (Frontend, "c" :: "" :: connection_payload "" "" RequestConnection);
         (Frontend, "c" :: "" :: connection_payload "w" "hello" SendingMessage);
         (Backend, "w" :: "" :: connection_payload "c" "" RequestData)] [] [] [].

(** A client and a worker are paired, and the worker is given a message. *)
Lemma router_pairs_and_keeps_witness :
  let '(_, (r, w)) :=
    router_thread Frontend Backend "tcp://a" [false; false; true] (initial_router, example_net) in
  told Frontend (outs w) = [("c", "w")] ∧ given_to "w" (outs w) = ["hello"] ∧
  sent_to "w" (ins w) ≡ₚ given_to "w" (outs w) ++ queued_for "w" r.
Proof.
  pose proof (router_pairs_and_keeps Frontend Backend ltac:(done) "tcp://a" [false; false; true]
    example_net eq_refl eq_refl) as H.
  destruct (router_thread _ _ _ _ _) as [res [r w]] eqn:E. vm_compute in E. injection E as <- <- <-.
  destruct H as [_ (H & _)]; [split_and!; vm_compute; repeat constructor; set_solver|done|].
  split_and!; [vm_compute; reflexivity..|apply H].
Defined.
End ZmqNet.
