(* ===== verification/Tls.v ===== *)
(** * The TLS transport

    Models [libsplinter/src/transport/tls.rs]: how the two contexts of OpenSSL are set
    up, the name a server is expected to have, and the connections, which frame
    messages as those of TCP do.  OpenSSL and the parser of URLs are interfaces. *)

From Stdlib Require Import ZArith Lia.
From S2P Require Import Prelude Framing Transport.

(** ** Addresses of the standard library *)

Definition all_digits (radix : nat) (s : string) : bool :=
  forallb (λ c, match nat_of_ascii c with n =>
    (48 <=? n) && (n <=? 57) ||
    (radix =? 16) && ((97 <=? n) && (n <=? 102) || (65 <=? n) && (n <=? 70)) end)
    (String.list_ascii_of_string s).
Definition decimal (s : string) : nat :=
  foldl (λ acc c, acc * 10 + (nat_of_ascii c - 48)) 0 (String.list_ascii_of_string s).

(** [str::parse::<Ipv4Addr>], as far as it succeeds: four numbers below 256, of at most
    three digits *)
Definition is_ipv4 (s : string) : bool :=
  let parts := split_on "." s in
  (length parts =? 4) &&
  forallb (λ p, negb (is_empty p) && (String.length p <=? 3) && all_digits 10 p && (decimal p <? 256)) parts.

(** [str::parse::<Ipv6Addr>], likewise: eight groups of at most four hexadecimal digits,
    the last two of which may be an IPv4 address; two colons in a row, once, stand for
    groups that are left out. *)
Definition is_group (s : string) : bool :=
  negb (is_empty s) && (String.length s <=? 4) && all_digits 16 s.
Definition count_groups (v4_last : bool) (groups : list string) : option nat :=
  match reverse groups with
  | [] => Some 0
  | last :: rest =>
      if forallb is_group rest then
        if is_group last then Some (length groups)
        else if v4_last && is_ipv4 last then Some (S (length groups)) else None
      else None
  end.
Fixpoint split_double_colon (before : string) (s : string) : option (string * string) :=
  match s with
  | String ":" (String ":" after) => Some (before, after)
  | String c s => split_double_colon (before +:+ String c "") s
  | "" => None
  end.
Definition groups_of (s : string) : list string := if is_empty s then [] else split_on ":" s.
Definition is_ipv6 (s : string) : bool :=
  match split_double_colon "" s with
  | None => bool_decide (count_groups true (groups_of s) = Some 8)
  | Some (head, tail) =>
      match count_groups false (groups_of head), count_groups true (groups_of tail) with
      | Some n, Some m => n + m <=? 7
      | _, _ => false
      end
  end.

(** ** OpenSSL *)

Inductive SslVerifyMode := SslVerifyNone | SslVerifyPeer.
Inductive SslKind := Connector | Acceptor.

(** The contexts [Ctx] that a builder sets up, and the streams of a handshake *)
Class Ssl (W Ctx TcpStream SslStream : Type) := {
  ssl_builder : SslKind → eff W string Ctx;
  set_private_key_file : string → Ctx → eff W string Ctx;
  set_certificate_chain_file : string → Ctx → eff W string Ctx;
  check_private_key : Ctx → eff W string ();
  set_ca_file : string → Ctx → eff W string Ctx;
  set_verify : SslVerifyMode → Ctx → Ctx;
  ssl_connect : Ctx → string → TcpStream → eff W string SslStream;
  ssl_accept : Ctx → TcpStream → eff W string SslStream;
  ssl_shutdown : SslStream → eff W string ();
  set_nonblocking : SslStream → eff W ErrorKind ();
  verify_mode : Ctx → SslVerifyMode;
}.

(** [Url::parse], and [Url::domain] of what it gives *)
Class UrlDomain := url_domain : string → result string (option string).

Inductive TlsInitError := TlsProtocolError (msg : string).
Definition openssl_error (err : string) : TlsInitError := TlsProtocolError ("Openssl Error: " +:+ err).

Definition TLS_PREFIX : string := "tls://".

Record TlsTransport (Ctx : Type) := mkTlsTransport { tt_connector : Ctx; tt_acceptor : Ctx }.
Arguments mkTlsTransport {Ctx} _ _.
Arguments tt_connector {Ctx} _.
Arguments tt_acceptor {Ctx} _.

Section tls.
Context {W Ctx TcpStream SslStream L : Type} {Hssl : Ssl W Ctx TcpStream SslStream}
  {Htcp : Tcp W TcpStream L} {Hurl : UrlDomain}.

(** The key and the certificate of one context *)
Definition ssl_context (kind : SslKind) (key cert : string) : eff W string Ctx :=
  c ← ssl_builder kind;
  c ← set_private_key_file key c;
  c ← set_certificate_chain_file cert c;
  _ ← check_private_key c;
  mret c.

Definition tls_transport_new (ca_cert : option string) (client_key client_cert server_key server_cert : string) :
    eff W TlsInitError (TlsTransport Ctx) :=
  connector ← emap_err openssl_error (ssl_context Connector client_key client_cert);
  acceptor ← emap_err openssl_error (ssl_context Acceptor server_key server_cert);
  match ca_cert with
  | Some ca_cert =>
      acceptor ← emap_err openssl_error (set_ca_file ca_cert acceptor);
      connector ← emap_err openssl_error (set_ca_file ca_cert connector);
      mret (mkTlsTransport connector acceptor)
  | None =>
      mret (mkTlsTransport (set_verify SslVerifyNone connector) (set_verify SslVerifyNone acceptor))
  end.

Definition endpoint_to_dns_name (endpoint : string) : result string string :=
  url ← url_domain ("tcp://" +:+ endpoint);
  mret (match url with
        | Some d => if is_ipv4 d then "localhost" else if is_ipv6 d then "localhost" else d
        | None => "localhost"
        end).

Definition tls_connect (t : TlsTransport Ctx) (endpoint : string) : eff W ConnectError SslStream :=
  if accepts_protocol TLS_PREFIX endpoint then
    let address := strip_protocol TLS_PREFIX endpoint in
    dns_name ← lift (map_err (λ e, ConnectParseError ("Parse Error: " +:+ e)) (endpoint_to_dns_name address));
    stream ← emap_err ConnectIoError (tcp_connect address);
    tls_stream ← emap_err (λ e, ConnectProtocolError ("TLS Handshake Err: " +:+ e))
      (ssl_connect (tt_connector t) dns_name stream);
    _ ← emap_err ConnectIoError (set_nonblocking tls_stream);
    mret tls_stream
  else throw (ConnectProtocolError (invalid_protocol endpoint)).

(** A listener has the socket and the context of the transport. *)
Definition tls_listen (t : TlsTransport Ctx) (bind : string) : eff W ListenError (L * Ctx) :=
  if accepts_protocol TLS_PREFIX bind then
    listener ← emap_err ListenIoError (tcp_bind (strip_protocol TLS_PREFIX bind));
    mret (listener, tt_acceptor t)
  else throw (ListenProtocolError (invalid_protocol bind)).

(** [accept]; [tcp_accept] waits for a connection of the socket. *)
Definition tls_accept (tcp_accept : L → eff W ErrorKind TcpStream) (l : L * Ctx) : eff W AcceptError SslStream :=
  stream ← emap_err AcceptIoError (tcp_accept l.1);
  tls_stream ← emap_err (λ e, AcceptProtocolError ("TLS Handshake Err: " +:+ e)) (ssl_accept l.2 stream);
  _ ← emap_err AcceptIoError (set_nonblocking tls_stream);
  mret tls_stream.

Definition tls_disconnect (s : SslStream) : eff W DisconnectError () :=
  emap_err (λ e, DisconnectProtocolError ("Openssl Err: " +:+ e)) (ssl_shutdown s).

Definition tls_transport (t : TlsTransport Ctx) : Transport W SslStream (L * Ctx) :=
  mkTransport (accepts_protocol TLS_PREFIX) (tls_connect t) (tls_listen t).

(** ** Facts *)

(** [set_verify] sets the mode; loading files does not. *)
Class SslModes := {
  mode_set m c : verify_mode (set_verify m c) = m;
  mode_kept f c w : f ∈ [set_private_key_file; set_certificate_chain_file; set_ca_file] →
    ∀ p, wp (f p c) (λ r _, match r with Ok c' => verify_mode c' = verify_mode c | Err _ => True end) w;
}.
Context {Hmodes : SslModes} (initial_mode : SslKind → SslVerifyMode).
Context (Hinitial : ∀ kind w,
  wp (ssl_builder kind) (λ r _, match r with Ok c => verify_mode c = initial_mode kind | Err _ => True end) w).

Lemma ssl_context_mode kind key cert w :
  wp (ssl_context kind key cert)
    (λ r _, match r with Ok c => verify_mode c = initial_mode kind | Err _ => True end) w.
Proof.
  unfold ssl_context. wp_go. eapply wp_mono; [apply Hinitial|]. intros [c0|e] w0 H0; [|done]. wp_go.
  eapply wp_mono; [apply (mode_kept set_private_key_file); set_solver|]. intros [c1|e] w1 H1; [|done]. wp_go.
  eapply wp_mono; [apply (mode_kept set_certificate_chain_file); set_solver|]. intros [c2|e] w2 H2; [|done].
  wp_go. unfold wp. destruct (check_private_key c2 w2) as [[[]|] w3]; cbn; [congruence|done].
Qed.

(** Without a CA no certificate is verified, on either side.  With one, each side keeps
    the mode that OpenSSL gives to its builder: nothing asks the acceptor to verify
    the certificates of clients. *)
Theorem tls_verification ca client_key client_cert server_key server_cert w :
  wp (tls_transport_new ca client_key client_cert server_key server_cert) (λ r _,
    match r with
    | Ok t =>
        verify_mode (tt_connector t) = (if ca is Some _ then initial_mode Connector else SslVerifyNone) ∧
        verify_mode (tt_acceptor t) = (if ca is Some _ then initial_mode Acceptor else SslVerifyNone)
    | Err _ => True
    end) w.
Proof.
  unfold tls_transport_new. wp_go. eapply wp_mono; [apply ssl_context_mode|].
  intros [c|e] w1 H1; cbn [map_err]; [|done]. wp_go. eapply wp_mono; [apply ssl_context_mode|].
  intros [a|e] w2 H2; cbn [map_err]; [|done]. destruct ca as [ca|]; wp_go; [|by cbn; rewrite !mode_set].
  eapply wp_mono; [apply (mode_kept set_ca_file); set_solver|]. intros [a'|e] w3 H3; cbn [map_err]; [|done]. wp_go.
  eapply wp_mono; [apply (mode_kept set_ca_file); set_solver|]. intros [c'|e] w4 H4; cbn [map_err]; [|done]. wp_go.
  cbn. split; congruence.
Qed.
End tls.

(** The name that is expected of a server at an address is that of its host; an address
    in numbers stands for [localhost]. *)
Section dns.
Context {Hurl : UrlDomain}.
Lemma dns_name_never_ip endpoint name :
  endpoint_to_dns_name endpoint = Ok name → is_ipv4 name = false ∧ is_ipv6 name = false.
Proof.
  unfold endpoint_to_dns_name. destruct (url_domain _) as [[d|]|]; cbn; [|by intros [= <-]|done].
  destruct (is_ipv4 d) eqn:H4; [by intros [= <-]|]. destruct (is_ipv6 d) eqn:H6; by intros [= <-].
Qed.
End dns.

Example ip_addresses :
  is_ipv4 "127.0.0.1" = true ∧ is_ipv4 "256.0.0.1" = false ∧ is_ipv4 "node1" = false ∧
  is_ipv6 "::1" = true ∧ is_ipv6 "fe80::1:2" = true ∧ is_ipv6 "1:2:3:4:5:6:7:8" = true ∧
  is_ipv6 "::ffff:10.0.0.1" = true ∧ is_ipv6 "1:2" = false ∧ is_ipv6 "1::2::3" = false.
Proof. by vm_compute. Qed.

(** A context that is only its mode. *)
Module TlsExample.
#[export] Instance modes_only : Ssl () SslVerifyMode () () := {|
  ssl_builder kind := mret (match kind with Connector => SslVerifyPeer | Acceptor => SslVerifyNone end);
  set_private_key_file _ c := mret c;
  set_certificate_chain_file _ c := mret c;
  check_private_key _ := mret ();
  set_ca_file _ c := mret c;
  set_verify m _ := m;
  ssl_connect _ _ _ := mret ();
  ssl_accept _ _ := mret ();
  ssl_shutdown _ := mret ();
  set_nonblocking _ := mret ();
  verify_mode c := c;
|}.
#[export] Instance modes_only_laws : SslModes.
Proof. split; [done|]. intros f c w Hf p. set_unfold in Hf. by destruct_or! Hf; subst. Qed.

Lemma tls_verification_witness :
  ∃ t, tls_transport_new (Some "ca.pem") "a" "b" "c" "d" () = (Ok t, ()) ∧
    verify_mode (tt_acceptor t) = SslVerifyNone.
Proof.
  pose proof (tls_verification (λ k, match k with Connector => SslVerifyPeer | Acceptor => SslVerifyNone end)
    ltac:(by intros [] []) (Some "ca.pem") "a" "b" "c" "d" ()) as H.
  eexists. split; [reflexivity|]. apply H.
Defined.
End TlsExample.
