(* ===== verification/MeshReactor.v ===== *)
(** * The mesh

    Models [libsplinter/src/mesh]: a pool of connections with a queue of outgoing
    messages each ([pool.rs]), the reactor that moves messages when a poll says it
    can ([reactor.rs]), and the operations through which other threads use them
    ([mod.rs], [control.rs], [outgoing.rs], [incoming.rs]).  The reactor handles a
    request while the thread that made it waits, so a request is one step; the
    events of a poll are steps of their own, of any kind and in any order.  The
    channels never fail to wake the reactor up. *)

From S2P Require Import Prelude Network Framing Transport.
From Stdlib Require Import ZArith Lia.

(** ** The pool *)

(** [mio::Poll], on tokens; the flag asks for the readiness to write, too. *)
Class Poll (P : Type) := {
  poll_register : nat → eff P ErrorKind ();
  poll_reregister : nat → bool → eff P ErrorKind ();
  poll_deregister : nat → eff P ErrorKind ();
}.

Record Event := mkEvent { ev_token : nat; ev_readable : bool; ev_writable : bool }.

Inductive TryEventError :=
  | ConnectionDisconnected
  | IncomingDisconnected
  | OutgoingDisconnected
  | EventProtocolError (msg : string)
  | EventIoError (k : ErrorKind).

(** [e_outgoing] is the receiving end of the queue of the connection. *)
Record Entry (C : Type) := mkEntry {
  e_id : nat;
  e_connection : C;
  e_connection_token : nat;
  e_outgoing : list bytes;
  e_outgoing_token : nat;
  e_cached : option bytes;
  e_write_evented_guard : bool;
}.
Arguments mkEntry {C} _ _ _ _ _ _ _.
Arguments e_id {C} _.
Arguments e_connection {C} _.
Arguments e_connection_token {C} _.
Arguments e_outgoing {C} _.
Arguments e_outgoing_token {C} _.
Arguments e_cached {C} _.
Arguments e_write_evented_guard {C} _.

Record Pool (C P : Type) := mkPool {
  p_entries : gmap nat (Entry C);
  p_tokens : gmap nat nat;
  p_next_id : nat;
  p_poll : P;
}.
Arguments mkPool {C P} _ _ _ _.
Arguments p_entries {C P} _.
Arguments p_tokens {C P} _.
Arguments p_next_id {C P} _.
Arguments p_poll {C P} _.

(** A bounded queue of envelopes, and its capacity. *)
Record Incoming := mkIncoming { in_queue : list (nat * bytes); in_capacity : nat }.

Section pool.
Context {C P : Type} `{!Connection C, !Poll P}.

Abbreviation pool_eff := (eff (Pool C P)).

(** A call on the poll. *)
Definition on_poll (m : eff P ErrorKind ()) : pool_eff ErrorKind () := λ p,
  let '(r, q) := m (p_poll p) in (r, mkPool (p_entries p) (p_tokens p) (p_next_id p) q).

(** [next_id], also the tokens *)
Definition next_id {E} : pool_eff E nat := λ p,
  (Ok (p_next_id p), mkPool (p_entries p) (p_tokens p) (S (p_next_id p)) (p_poll p)).

Definition entry_new (id : nat) (c : C) (connection_token outgoing_token : nat) : Entry C :=
  mkEntry id c connection_token [] outgoing_token None false.

(** [Pool::add] *)
Definition pool_add (c : C) : pool_eff ErrorKind nat :=
  connection_token ← next_id;
  outgoing_token ← next_id;
  id ← next_id;
  on_poll (poll_register connection_token);;
  on_poll (poll_register outgoing_token);;
  modify (λ p, mkPool
    (<[id := entry_new id c connection_token outgoing_token]> (p_entries p))
    (<[outgoing_token := id]> (<[connection_token := id]> (p_tokens p)))
    (p_next_id p) (p_poll p));;
  mret id.

(** [Pool::remove] *)
Definition pool_remove (id : nat) : pool_eff ErrorKind (option C) := λ p,
  match p_entries p !! id with
  | Some e =>
      (on_poll (poll_deregister (e_connection_token e));;
       on_poll (poll_deregister (e_outgoing_token e));;
       mret (Some (e_connection e)))
      (mkPool (delete id (p_entries p))
         (delete (e_outgoing_token e) (delete (e_connection_token e) (p_tokens p)))
         (p_next_id p) (p_poll p))
  | None => (Ok None, p)
  end.

(** [Pool::entry_by_token] *)
Definition entry_by_token (token : nat) (p : Pool C P) : option (Entry C) :=
  p_tokens p !! token ≫= λ id, p_entries p !! id.

(** ** An event of one connection

    The entry, the poll and the queue of received messages. *)
Abbreviation entry_eff := (eff (Entry C * P * Incoming) TryEventError).

Definition set_cached (x : option bytes) : entry_eff () := modify (λ '(e, q, i),
  (mkEntry (e_id e) (e_connection e) (e_connection_token e) (e_outgoing e) (e_outgoing_token e)
     x (e_write_evented_guard e), q, i)).
Definition set_guard (x : bool) : entry_eff () := modify (λ '(e, q, i),
  (mkEntry (e_id e) (e_connection e) (e_connection_token e) (e_outgoing e) (e_outgoing_token e)
     (e_cached e) x, q, i)).
Definition set_outgoing (x : list bytes) : entry_eff () := modify (λ '(e, q, i),
  (mkEntry (e_id e) (e_connection e) (e_connection_token e) x (e_outgoing_token e)
     (e_cached e) (e_write_evented_guard e), q, i)).

Definition on_connection {E X} (m : eff C E X) : entry_eff (result E X) := λ '(e, q, i),
  let '(r, c) := m (e_connection e) in
  (Ok r, (mkEntry (e_id e) c (e_connection_token e) (e_outgoing e) (e_outgoing_token e)
            (e_cached e) (e_write_evented_guard e), q, i)).
Definition reregister (writable : bool) : entry_eff () := λ '(e, q, i),
  let '(r, q) := poll_reregister (e_connection_token e) writable q in
  (map_err EventIoError r, (e, q, i)).

(** [try_send_connection_or_cache] *)
Definition try_send_connection_or_cache (payload : bytes) : entry_eff () :=
  r ← on_connection (connection_send payload);
  match r with
  | Ok _ =>
      '(e, _, _) ← get;
      if e_write_evented_guard e then set_guard false;; reregister false else mret ()
  | Err SendWouldBlock =>
      set_cached (Some payload);;
      '(e, _, _) ← get;
      if e_write_evented_guard e then mret () else reregister true;; set_guard true
  | Err SendClosed => throw ConnectionDisconnected
  | Err (SendProtocolError msg) => throw (EventProtocolError msg)
  | Err (SendIoError k) => throw (EventIoError k)
  end.

(** [try_send_connection_from_cached] *)
Definition try_send_connection_from_cached : entry_eff () :=
  '(e, _, _) ← get;
  match e_cached e with
  | Some cached => set_cached None;; try_send_connection_or_cache cached
  | None => mret ()
  end.

(** [try_read_outgoing]; [live] says whether there is a sender for the queue. *)
Definition try_read_outgoing (live : bool) : entry_eff () :=
  '(e, _, _) ← get;
  match e_outgoing e with
  | payload :: rest => set_outgoing rest;; try_send_connection_or_cache payload
  | [] => if live then mret () else throw OutgoingDisconnected
  end.

Definition is_full (i : Incoming) : bool := bool_decide (in_capacity i ≤ length (in_queue i)).

(** [try_read_connection]; the receiving end of [incoming_tx] is never dropped. *)
Definition try_read_connection : entry_eff () :=
  '(_, _, i) ← get;
  if is_full i then mret () else
  r ← on_connection connection_recv;
  match r with
  | Ok payload =>
      modify (λ '(e, q, i),
        (e, q, if is_full i then i
               else mkIncoming (in_queue i ++ [(e_id e, payload)]) (in_capacity i)))
  | Err RecvWouldBlock => mret ()
  | Err RecvClosed => throw ConnectionDisconnected
  | Err (RecvProtocolError msg) => throw (EventProtocolError msg)
  | Err (RecvIoError k) => throw (EventIoError k)
  end.

(** [try_event], with the conditions [outgoing_wants_read],
    [connection_wants_write] and [connection_wants_read] *)
Definition try_event (live : bool) (ev : Event) : entry_eff () :=
  '(e, _, _) ← get;
  if bool_decide (e_outgoing_token e = ev_token ev) && ev_readable ev
     && bool_decide (e_cached e = None) then try_read_outgoing live
  else if bool_decide (e_connection_token e = ev_token ev) && ev_writable ev
     && negb (bool_decide (e_cached e = None)) then try_send_connection_from_cached
  else if bool_decide (e_connection_token e = ev_token ev) && ev_readable ev then
    try_read_connection
  else mret ().

(** [Pool::handle_event], with [try_handle_event] *)
Definition pool_handle_event (live : nat → bool) (ev : Event) :
    eff (Pool C P * Incoming) () () := λ '(p, i),
  match entry_by_token (ev_token ev) p with
  | Some e =>
      let '(r, (e, q, i)) := try_event (live (e_id e)) ev (e, p_poll p, i) in
      let p := mkPool (<[e_id e := e]> (p_entries p)) (p_tokens p) (p_next_id p) q in
      match r with
      | Ok _ => (Ok (), (p, i))
      | Err _ => (Ok (), ((pool_remove (e_id e) p).2, i))
      end
  | None => (Ok (), (p, i))
  end.
End pool.

(** ** The mesh *)

(** [m_outgoings] has the connections with an [Outgoing] handle in the map of the
    mesh; without one the queue of a connection has no sender.  [m_ctrl_token] is
    the token of the control channel of the reactor. *)
Record MeshState (C P : Type) := mkMeshState {
  m_outgoings : gset nat;
  m_pool : Pool C P;
  m_incoming : Incoming;
  m_outgoing_capacity : nat;
  m_ctrl_token : nat;
  m_running : bool;
}.
Arguments mkMeshState {C P} _ _ _ _ _ _.
Arguments m_outgoings {C P} _.
Arguments m_pool {C P} _.
Arguments m_incoming {C P} _.
Arguments m_outgoing_capacity {C P} _.
Arguments m_ctrl_token {C P} _.
Arguments m_running {C P} _.

Section mesh.
Context {C P : Type} `{!Connection C, !Poll P}.

Abbreviation mesh_state := (MeshState C P).

(** [Mesh::new], with [Reactor::new]: the first token is that of the control
    channel. *)
Definition mesh_new (q : P) (incoming_capacity outgoing_capacity : nat) : mesh_state :=
  mkMeshState ∅ (mkPool ∅ ∅ 1 q) (mkIncoming [] incoming_capacity) outgoing_capacity 0 true.

Definition set_pool (p : Pool C P) (s : mesh_state) : mesh_state :=
  mkMeshState (m_outgoings s) p (m_incoming s) (m_outgoing_capacity s) (m_ctrl_token s) (m_running s).
Definition set_outgoings (o : gset nat) (s : mesh_state) : mesh_state :=
  mkMeshState o (m_pool s) (m_incoming s) (m_outgoing_capacity s) (m_ctrl_token s) (m_running s).

(** [Mesh::add], with [Control::add] and [Reactor::add_connection] *)
Definition mesh_add_connection (c : C) : eff mesh_state () nat := λ s,
  if m_running s then
    match pool_add c (m_pool s) with
    | (Ok id, p) => (Ok id, set_outgoings ({[id]} ∪ m_outgoings s) (set_pool p s))
    | (Err _, p) => (Err (), set_pool p s)
    end
  else (Err (), s).

(** [Mesh::remove], with [Control::remove] and [Reactor::remove_connection] *)
Definition mesh_remove_connection (id : nat) : eff mesh_state () () := λ s,
  if m_running s then
    match pool_remove id (m_pool s) with
    | (Ok (Some _), p) => (Ok (), set_outgoings (m_outgoings s ∖ {[id]}) (set_pool p s))
    | (_, p) => (Err (), set_pool p s)
    end
  else (Err (), s).

Definition push_outgoing (payload : bytes) (e : Entry C) : Entry C :=
  mkEntry (e_id e) (e_connection e) (e_connection_token e) (e_outgoing e ++ [payload])
    (e_outgoing_token e) (e_cached e) (e_write_evented_guard e).

(** [Mesh::send], with [Outgoing::send]: the queue of a connection that left the
    pool is closed. *)
Definition mesh_send_envelope (id : nat) (payload : bytes) : eff mesh_state MeshSendError () := λ s,
  if decide (id ∈ m_outgoings s) then
    let p := m_pool s in
    match p_entries p !! id with
    | Some e =>
        if decide (length (e_outgoing e) < m_outgoing_capacity s) then
          (Ok (), set_pool (mkPool (<[id := push_outgoing payload e]> (p_entries p)) (p_tokens p)
                              (p_next_id p) (p_poll p)) s)
        else (Err MeshFull, s)
    | None => (Err MeshDisconnected, s)
    end
  else (Err MeshNotFound, s).

(** [Mesh::recv_timeout], with [Incoming::recv_timeout] *)
Definition mesh_recv_envelope : eff mesh_state MeshRecvError (nat * bytes) := λ s,
  match in_queue (m_incoming s) with
  | envelope :: rest =>
      (Ok envelope,
       mkMeshState (m_outgoings s) (m_pool s) (mkIncoming rest (in_capacity (m_incoming s)))
         (m_outgoing_capacity s) (m_ctrl_token s) (m_running s))
  | [] => (Err (if m_running s then MeshRecvTimeout else MeshRecvDisconnected), s)
  end.

(** The mesh is what the network expects of it. *)
#[export] Instance mesh_instance : Mesh mesh_state C := {|
  remote_endpoint := connection_remote_endpoint;
  mesh_add := mesh_add_connection;
  mesh_remove := mesh_remove_connection;
  mesh_send := mesh_send_envelope;
  mesh_recv := mesh_recv_envelope;
|}.

(** [Reactor::handle_event]: the requests on the control channel are handled when
    they are made. *)
Definition reactor_handle_event (ev : Event) (s : mesh_state) : mesh_state :=
  if decide (ev_token ev = m_ctrl_token s) then s else
  let '(_, (p, i)) :=
    pool_handle_event (λ id, bool_decide (id ∈ m_outgoings s)) ev (m_pool s, m_incoming s) in
  mkMeshState (m_outgoings s) p i (m_outgoing_capacity s) (m_ctrl_token s) (m_running s).

(** [Reactor::turn]: what the poll gives, [None] for an error, which ends the
    reactor and drops the pool. *)
Definition reactor_turn (events : option (list Event)) (s : mesh_state) : mesh_state :=
  if m_running s then
    match events with
    | Some events => foldl (λ s ev, reactor_handle_event ev s) s events
    | None =>
        let p := m_pool s in
        mkMeshState (m_outgoings s) (mkPool ∅ ∅ (p_next_id p) (p_poll p)) (m_incoming s)
          (m_outgoing_capacity s) (m_ctrl_token s) false
    end
  else s.
End mesh.

(** ** What the mesh does with messages *)

(** A connection that remembers what was sent and received on it. *)
Record logged (C : Type) := mkLogged { lc_inner : C; lc_sent : list bytes; lc_received : list bytes }.
Arguments mkLogged {C} _ _ _.
Arguments lc_inner {C} _.
Arguments lc_sent {C} _.
Arguments lc_received {C} _.

#[export] Instance logged_connection {C} `{!Connection C} : Connection (logged C) := {|
  connection_send b c :=
    let '(r, c') := connection_send b (lc_inner c) in
    (r, mkLogged c' (lc_sent c ++ if r is Ok _ then [b] else []) (lc_received c));
  connection_recv c :=
    let '(r, c') := connection_recv (lc_inner c) in
    (r, mkLogged c' (lc_sent c) (lc_received c ++ if r is Ok b then [b] else []));
  connection_remote_endpoint c := connection_remote_endpoint (lc_inner c);
|}.

(** What the threads that use the mesh, and its reactor, do, and what comes of
    it: messages that are accepted for a connection, and messages that are
    delivered from one. *)
Inductive mesh_op (C : Type) :=
  | MeshAdd (c : C)
  | MeshRemove (id : nat)
  | MeshSend (id : nat) (b : bytes)
  | MeshRecv
  | MeshTurn (events : option (list Event)).
Arguments MeshAdd {C} c.
Arguments MeshRemove {C} id.
Arguments MeshSend {C} id b.
Arguments MeshRecv {C}.
Arguments MeshTurn {C} events.

Inductive mesh_out := MeshAccepted (id : nat) (b : bytes) | MeshDelivered (id : nat) (b : bytes).

Section mesh_run.
Context {C P : Type} `{!Connection C, !Poll P}.
Abbreviation logged_mesh := (MeshState (logged C) P).

Definition mesh_step (op : mesh_op C) (s : logged_mesh) : list mesh_out * logged_mesh :=
  match op with
  | MeshAdd c => ([], (mesh_add (mkLogged c [] []) s).2)
  | MeshRemove id => ([], (mesh_remove id s).2)
  | MeshSend id b =>
      let '(r, s) := mesh_send id b s in (if r is Ok _ then [MeshAccepted id b] else [], s)
  | MeshRecv =>
      let '(r, s) := mesh_recv s in (if r is Ok (id, b) then [MeshDelivered id b] else [], s)
  | MeshTurn events => ([], reactor_turn events s)
  end.

Fixpoint mesh_run (ops : list (mesh_op C)) (s : logged_mesh) : list mesh_out * logged_mesh :=
  match ops with
  | [] => ([], s)
  | op :: ops =>
      let '(out, s) := mesh_step op s in
      let '(outs, s) := mesh_run ops s in (out ++ outs, s)
  end.
End mesh_run.

Definition accepted (id : nat) (outs : list mesh_out) : list bytes :=
  omap (λ o, if o is MeshAccepted j b then if decide (j = id) then Some b else None else None) outs.
Definition delivered_from (id : nat) (outs : list mesh_out) : list bytes :=
  omap (λ o, if o is MeshDelivered j b then if decide (j = id) then Some b else None else None) outs.
Definition queued_from (id : nat) (q : list (nat * bytes)) : list bytes :=
  omap (λ p, if decide (p.1 = id) then Some p.2 else None) q.
