(* ===== verification/MeshProps.v ===== *)
(** * What the mesh guarantees

    The invariant of the pool and of the queues, over everything that threads and
    the reactor can do: messages travel in order, without loss or duplication, and
    no queue grows beyond its capacity. *)

From S2P Require Import Prelude Network Framing Transport MeshReactor.
From Stdlib Require Import ZArith Lia.

Section props.
Context {C P : Type} `{!Connection C, !Poll P}.
Abbreviation entry := (Entry (logged C)).

(** ** One connection *)

(** The messages of a connection, from those that were sent on it to those that
    wait. *)
Definition entry_messages (e : entry) : list bytes :=
  lc_sent (e_connection e) ++ option_list (e_cached e) ++ e_outgoing e.

(** The connection is watched for the readiness to write exactly while a message
    waits for it. *)
Definition entry_ok (cap : nat) (e : entry) : Prop :=
  e_write_evented_guard e = bool_decide (is_Some (e_cached e)) ∧ length (e_outgoing e) ≤ cap.

Definition same_entry (e e' : entry) : Prop :=
  e_id e' = e_id e ∧ e_connection_token e' = e_connection_token e ∧
  e_outgoing_token e' = e_outgoing_token e.

(** What an event does to an entry and to the queue of received messages. *)
Record event_spec (e : entry) (i : Incoming) (r : result TryEventError ()) (e' : entry)
    (i' : Incoming) : Prop := {
  event_same : same_entry e e';
  event_err : is_ok r = false → i' = i;
  event_ok cap : is_ok r = true → entry_ok cap e → entry_ok cap e';
  event_sent : is_ok r = true → entry_messages e' = entry_messages e;
  event_received : is_ok r = true →
    ∃ l, in_queue i' = in_queue i ++ ((λ b, (e_id e, b)) <$> l) ∧
         lc_received (e_connection e') = lc_received (e_connection e) ++ l;
  event_capacity : in_capacity i' = in_capacity i;
  event_bound : length (in_queue i) ≤ in_capacity i → length (in_queue i') ≤ in_capacity i;
}.

Abbreviation event_post e i := (λ r '(e', _, i'), event_spec e i r e' i').

Lemma event_spec_unchanged e i r : event_spec e i r e i.
Proof. split; try done. intros _. exists []. by rewrite !app_nil_r. Qed.

(** Sending [payload], which was taken from the messages of [e]. *)
Lemma try_send_spec payload (e0 e : entry) (q : P) i :
  same_entry e0 e → e_cached e = None →
  lc_received (e_connection e) = lc_received (e_connection e0) →
  entry_messages e0 = lc_sent (e_connection e) ++ payload :: e_outgoing e →
  length (e_outgoing e) ≤ length (e_outgoing e0) →
  wp (try_send_connection_or_cache payload) (event_post e0 i) (e, q, i).
Proof.
  intros Hs Hc Hr Hm Hl. destruct e as [id [c sent recv] ct out ot cached guard]. cbn in *. subst cached.
  unfold wp, try_send_connection_or_cache, mbind, eff_bind, on_connection. cbn.
  destruct (connection_send payload c) as [[u|[k|msg| |]] c']; cbn.
  - destruct guard; cbn; [destruct (poll_reregister ct false q) as [[[]|] q']; cbn|];
      (split; [done|done|unfold entry_ok; cbn; naive_solver lia| |intros _; exists [];
        rewrite !app_nil_r; done|done|done]); cbn; intros; try done;
      rewrite Hm; unfold entry_messages; cbn; by rewrite <-app_assoc.
  - split; cbn; try done.
  - split; cbn; try done.
  - destruct guard; cbn; [|destruct (poll_reregister ct true q) as [[[]|] q']; cbn];
      (split; [done|done|unfold entry_ok; cbn; naive_solver lia| |intros _; exists [];
        rewrite !app_nil_r; done|done|done]); cbn; intros; try done;
      rewrite Hm; unfold entry_messages; cbn; by rewrite app_nil_r.
  - split; cbn; try done.
Qed.

Lemma try_event_spec live ev (e : entry) (q : P) i :
  wp (try_event live ev) (event_post e i) (e, q, i).
Proof.
  unfold try_event. wp_go. case_match eqn:Hout; [|case_match; [|case_match]].
  - unfold try_read_outgoing. wp_go. destruct (e_outgoing e) as [|payload rest] eqn:Ho.
    + destruct live; wp_go; apply event_spec_unchanged.
    + wp_go. apply try_send_spec; unfold entry_messages; cbn; rewrite ?Ho; cbn; [done|..|lia].
      * by apply andb_true_iff in Hout as [_ ?%bool_decide_eq_true].
      * done.
      * apply andb_true_iff in Hout as [_ ->%bool_decide_eq_true]. done.
  - unfold try_send_connection_from_cached. wp_go. destruct (e_cached e) as [payload|] eqn:Hc.
    + wp_go. apply try_send_spec; unfold entry_messages; cbn; rewrite ?Hc; done.
    + wp_go. apply event_spec_unchanged.
  - unfold try_read_connection. wp_go. case_match eqn:Hfull; [wp_go; apply event_spec_unchanged|].
    destruct e as [id [c sent recv] ct out ot cached guard].
    unfold wp, mbind, eff_bind, on_connection. cbn.
    destruct (connection_recv c) as [[b|[k|msg| |]] c']; cbn;
      (split; cbn; [done|done|done|done| |try done..]); try done.
    + intros _. exists [b]. split; [|done]. by rewrite Hfull.
    + by rewrite Hfull.
    + rewrite Hfull. cbn. rewrite length_app. cbn. apply bool_decide_eq_false in Hfull. lia.
    + intros _. exists []. by rewrite !app_nil_r.
  - wp_go. apply event_spec_unchanged.
Qed.

(** ** The pool *)

(** Every token belongs to one connection of the pool, and every connection has
    its two tokens. *)
Record pool_ok (p : Pool (logged C) P) : Prop := {
  pool_entry id e : p_entries p !! id = Some e →
    e_id e = id ∧ id < p_next_id p ∧ e_connection_token e ≠ e_outgoing_token e ∧
    p_tokens p !! e_connection_token e = Some id ∧ p_tokens p !! e_outgoing_token e = Some id;
  pool_token t id : p_tokens p !! t = Some id →
    t < p_next_id p ∧
    ∃ e, p_entries p !! id = Some e ∧ (t = e_connection_token e ∨ t = e_outgoing_token e);
}.

Lemma pool_ok_update p id e e' q :
  p_entries p !! id = Some e → same_entry e e' → pool_ok p →
  pool_ok (mkPool (<[id := e']> (p_entries p)) (p_tokens p) (p_next_id p) q).
Proof.
  intros He (Hid & Hct & Hot) [Hent Htok]. split; cbn.
  - intros j x [[<- <-]|[Hj Hx]]%lookup_insert_Some; [|by apply Hent].
    rewrite Hid, Hct, Hot. by apply Hent.
  - intros t j Ht. destruct (Htok t j Ht) as (Hlt & x & Hx & Hor). split; [done|].
    destruct (decide (id = j)) as [<-|Hj].
    + exists e'. rewrite lookup_insert_eq, Hct, Hot. split; [done|]. congruence.
    + exists x. by rewrite lookup_insert_ne.
Qed.

Lemma pool_ok_delete p id e q :
  p_entries p !! id = Some e → pool_ok p →
  pool_ok (mkPool (delete id (p_entries p))
             (delete (e_outgoing_token e) (delete (e_connection_token e) (p_tokens p)))
             (p_next_id p) q).
Proof.
  intros He [Hent Htok]. destruct (Hent id e He) as (Hid & Hlt & Hne & Hct & Hot). split; cbn.
  - intros j x [Hj Hx]%lookup_delete_Some. destruct (Hent j x Hx) as (? & ? & ? & Hct' & Hot').
    split_and!; [done..| |]; rewrite !lookup_delete_ne; congruence.
  - intros t j [Ht1 [Ht2 Ht]%lookup_delete_Some]%lookup_delete_Some.
    destruct (Htok t j Ht) as (Hlt' & x & Hx & Hor). split; [done|]. exists x.
    rewrite lookup_delete_ne; [done|]. intros <-. destruct Hor; congruence.
Qed.

(** Removing an entry: whether or not the poll reports an error, it is gone. *)
Lemma pool_remove_state id (p : Pool (logged C) P) :
  ∃ q, (pool_remove id p).2 =
    match p_entries p !! id with
    | Some e => mkPool (delete id (p_entries p))
                  (delete (e_outgoing_token e) (delete (e_connection_token e) (p_tokens p)))
                  (p_next_id p) q
    | None => p
    end.
Proof.
  unfold pool_remove. destruct (p_entries p !! id) as [e|]; [|by exists (p_poll p)].
  unfold mbind, eff_bind, on_poll. cbn.
  destruct (poll_deregister (e_connection_token e) (p_poll p)) as [[[]|k] q]; cbn; [|by exists q].
  destruct (poll_deregister (e_outgoing_token e) q) as [[[]|k] q']; cbn; by exists q'.
Qed.

Lemma pool_add_state c (p : Pool (logged C) P) :
  ∃ q r, pool_add c p = (r, mkPool
    (if is_ok r then <[S (S (p_next_id p)) := entry_new (S (S (p_next_id p))) c (p_next_id p)
                         (S (p_next_id p))]> (p_entries p) else p_entries p)
    (if is_ok r then <[S (p_next_id p) := S (S (p_next_id p))]>
                       (<[p_next_id p := S (S (p_next_id p))]> (p_tokens p)) else p_tokens p)
    (S (S (S (p_next_id p)))) q) ∧ ∀ id, r = Ok id → id = S (S (p_next_id p)).
Proof.
  unfold pool_add, mbind, eff_bind, next_id, on_poll, modify. cbn.
  destruct (poll_register (p_next_id p) (p_poll p)) as [[[]|k] q]; cbn; [|by exists q, (Err k)].
  destruct (poll_register (S (p_next_id p)) q) as [[[]|k] q']; cbn; [|by exists q', (Err k)].
  exists q', (Ok (S (S (p_next_id p)))). split; [done|]. by intros ? [= <-].
Qed.

Lemma pool_ok_more p n q :
  p_next_id p ≤ n → pool_ok p → pool_ok (mkPool (p_entries p) (p_tokens p) n q).
Proof.
  intros Hn [Hent Htok]. split; cbn.
  - intros id e He. destruct (Hent id e He) as (? & ? & ? & ? & ?). split_and!; [done|lia|done..].
  - intros t id Ht. destruct (Htok t id Ht) as (? & ?). split; [lia|done].
Qed.

Lemma pool_ok_add p c n q :
  p_next_id p = n → pool_ok p →
  pool_ok (mkPool (<[S (S n) := entry_new (S (S n)) c n (S n)]> (p_entries p))
             (<[S n := S (S n)]> (<[n := S (S n)]> (p_tokens p))) (S (S (S n))) q).
Proof.
  intros Hn [Hent Htok]. split; cbn.
  - intros id e [[<- <-]|[Hid He]]%lookup_insert_Some; cbn.
    + split_and!; [done|lia|lia| |by rewrite lookup_insert_eq].
      rewrite lookup_insert_ne by lia. by rewrite lookup_insert_eq.
    + destruct (Hent id e He) as (? & ? & ? & Hct & Hot).
      destruct (Htok _ _ Hct) as [Hlt1 _], (Htok _ _ Hot) as [Hlt2 _].
      split_and!; [done|lia|done|..]; rewrite !lookup_insert_ne by lia; done.
  - intros t id [[<- <-]|[Ht [[<- <-]|[Ht' Hid]]%lookup_insert_Some]]%lookup_insert_Some.
    + split; [lia|]. eexists. rewrite lookup_insert_eq. split; [done|by right].
    + split; [lia|]. eexists. rewrite lookup_insert_eq. split; [done|by left].
    + destruct (Htok t id Hid) as (Hlt & e & He & Hor). split; [lia|]. exists e.
      split; [|done]. destruct (Hent id e He) as (_ & ? & _). by rewrite lookup_insert_ne by lia.
Qed.

(** ** The mesh *)

(** After the outputs [h]: every connection was sent a first part of the messages
    that were accepted for it and has the others, in order; what was received on it
    is delivered or waits to be. *)
Record mesh_ok (h : list mesh_out) (s : MeshState (logged C) P) : Prop := {
  mesh_pool : pool_ok (m_pool s);
  mesh_entry id e : p_entries (m_pool s) !! id = Some e →
    entry_ok (m_outgoing_capacity s) e ∧ entry_messages e = accepted id h ∧
    delivered_from id h ++ queued_from id (in_queue (m_incoming s)) = lc_received (e_connection e);
  mesh_fresh id : p_next_id (m_pool s) ≤ id →
    accepted id h = [] ∧ delivered_from id h = [] ∧ queued_from id (in_queue (m_incoming s)) = [];
  mesh_bound : length (in_queue (m_incoming s)) ≤ in_capacity (m_incoming s);
}.

Lemma mesh_new_ok q m n : mesh_ok [] (mesh_new q m n).
Proof. split; cbn; [split; cbn; intros; simplify_map_eq|intros; simplify_map_eq|done|lia]. Qed.

Lemma mesh_add_ok h c s :
  mesh_ok h s → mesh_ok h (mesh_add_connection (mkLogged c [] []) s).2.
Proof.
  intros [Hp He Hf Hb]. unfold mesh_add_connection. destruct (m_running s); [|done].
  destruct (pool_add_state (mkLogged c [] []) (m_pool s)) as (q & r & Hr & Hid). rewrite Hr.
  destruct r as [id|k]; cbn [is_ok snd]; (split; cbn [m_pool m_incoming m_outgoing_capacity
    set_outgoings set_pool p_entries p_next_id]; [|  |intros j Hj; apply Hf; lia|done]).
  - by apply pool_ok_add.
  - intros j e [[<- <-]|[Hj Hje]]%lookup_insert_Some; [|by apply He].
    destruct (Hf (S (S (p_next_id (m_pool s))))) as (Ha & Hd & Hq); [lia|].
    unfold entry_ok, entry_messages. cbn. rewrite Ha, Hd, Hq. split_and!; [done|lia|done..].
  - apply pool_ok_more; [lia|done].
  - done.
Qed.

Lemma mesh_remove_ok h id s :
  mesh_ok h s → mesh_ok h (mesh_remove_connection id s).2.
Proof.
  intros [Hp He Hf Hb]. unfold mesh_remove_connection. destruct (m_running s); [|done].
  destruct (pool_remove_state id (m_pool s)) as [q Hq]. destruct (pool_remove id (m_pool s)) as [r p] eqn:Hr.
  cbn in Hq. assert (mesh_ok h (set_pool p s)) as Hok.
  { subst p. destruct (p_entries (m_pool s) !! id) as [e|] eqn:Hid; [|by destruct s].
    split; cbn; [by apply pool_ok_delete| |done..].
    intros j x [Hj Hx]%lookup_delete_Some. by apply He. }
  destruct r as [[c|]|k]; [|done..]. by destruct Hok.
Qed.

Lemma mesh_send_ok h id b s r s' :
  mesh_send_envelope id b s = (r, s') → mesh_ok h s →
  mesh_ok (h ++ if r is Ok _ then [MeshAccepted id b] else []) s'.
Proof.
  unfold mesh_send_envelope. intros Hs Hok.
  destruct (decide (id ∈ m_outgoings s)) as [Ho|Ho]; simplify_eq; [|by rewrite app_nil_r].
  destruct (p_entries (m_pool s) !! id) as [e|] eqn:He; simplify_eq; [|by rewrite app_nil_r].
  case_decide as Hl; simplify_eq; [|by rewrite app_nil_r]. destruct Hok as [Hp Hent Hf Hb].
  split; cbn; [by eapply pool_ok_update| | |done].
  - intros j x Hx. unfold accepted, delivered_from. rewrite !omap_app. cbn.
    destruct (Hent id e He) as ([Hg Hle] & Hm & Hr). apply lookup_insert_Some in Hx as [[<- <-]|[Hj Hx]].
    + rewrite decide_True by done. unfold entry_ok, entry_messages in *. cbn.
      rewrite !length_app, app_nil_r. cbn. split_and!; [done|lia| |done].
      unfold accepted in Hm. rewrite <-Hm. by rewrite !app_assoc.
    + rewrite decide_False by done. rewrite !app_nil_r. by apply Hent.
  - intros j Hj. unfold accepted, delivered_from. rewrite !omap_app. cbn.
    destruct (pool_entry _ Hp id e He) as (_ & ? & _). rewrite decide_False by lia.
    rewrite !app_nil_r. by apply Hf.
Qed.

Lemma mesh_recv_ok h s r s' :
  mesh_recv_envelope s = (r, s') → mesh_ok h s →
  mesh_ok (h ++ if r is Ok (id, b) then [MeshDelivered id b] else []) s'.
Proof.
  unfold mesh_recv_envelope. intros Hs [Hp He Hf Hb].
  destruct (in_queue (m_incoming s)) as [|[id b] rest] eqn:Hq; simplify_eq.
  { rewrite app_nil_r. split; rewrite ?Hq; done. }
  assert (∀ j, delivered_from j (h ++ [MeshDelivered id b]) ++ queued_from j rest =
               delivered_from j h ++ queued_from j ((id, b) :: rest)) as Hd.
  { intros j. unfold delivered_from, queued_from. rewrite omap_app. cbn. rewrite <-app_assoc.
    by case_decide. }
  assert (∀ j, accepted j (h ++ [MeshDelivered id b]) = accepted j h) as Ha.
  { intros j. unfold accepted. rewrite omap_app. cbn. by rewrite app_nil_r. }
  split; cbn; [done|..].
  - intros j e Hj. rewrite Ha, Hd. by apply He.
  - intros j Hj. destruct (Hf j Hj) as (Haj & Hdj & Hqj). rewrite Ha. split; [done|].
    apply app_nil. by rewrite Hd, Hdj, Hqj.
  - cbn in Hb. lia.
Qed.

Lemma reactor_handle_event_ok h ev s :
  mesh_ok h s → mesh_ok h (reactor_handle_event ev s).
Proof.
  intros Hok. unfold reactor_handle_event, pool_handle_event. case_decide; [done|].
  unfold entry_by_token. destruct (p_tokens (m_pool s) !! ev_token ev ≫= _) as [e|] eqn:He; [|by destruct s].
  apply bind_Some in He as (id & Ht & He). destruct Hok as [Hp Hent Hf Hb].
  destruct (pool_entry _ Hp id e He) as (Hid & Hlt & _).
  pose proof (try_event_spec (bool_decide (e_id e ∈ m_outgoings s)) ev e (p_poll (m_pool s)) (m_incoming s))
    as Hev. unfold wp in Hev.
  destruct (try_event _ ev _) as [r [[e' q] i']]. destruct Hev as [Hs Herr Hok Hsent Hrecv Hcap Hbd].
  assert (e_id e' = id) as Hid' by (destruct Hs; congruence). rewrite Hid'.
  pose proof (pool_ok_update _ id e e' q He Hs Hp) as Hp'.
  destruct r as [u|err].
  - destruct (Hrecv eq_refl) as (l & Hl & Hr). rewrite Hid in Hl.
    assert (∀ j, queued_from j (in_queue i') = queued_from j (in_queue (m_incoming s)) ++
                 if decide (id = j) then l else []) as Hq.
    { intros j. rewrite Hl. unfold queued_from. rewrite omap_app. f_equal.
      clear. induction l as [|b l IH]; cbn; case_decide; [done..| |done]. by rewrite IH. }
    destruct (Hent id e He) as (Heok & Hem & Her). split; cbn; [done|..|by rewrite Hcap; apply Hbd].
    + intros j x [[<- <-]|[Hj Hx]]%lookup_insert_Some.
      * rewrite Hq, decide_True, app_assoc, Her, Hr by done. by rewrite Hsent, Hem; auto.
      * rewrite Hq, decide_False, app_nil_r by done. by apply Hent.
    + intros j Hj. rewrite Hq, decide_False, app_nil_r by lia. by apply Hf.
  - rewrite (Herr eq_refl). set (p' := mkPool _ _ _ _) in *.
    destruct (pool_remove_state id p') as [q' ->]. cbn. rewrite lookup_insert_eq. cbn.
    split; cbn; [|intros j x [Hj [[? _]|[_ Hx]]%lookup_insert_Some]%lookup_delete_Some; [done|by apply Hent]
      |done..].
    apply (pool_ok_delete p' id e' q'); [apply lookup_insert_eq|done].
Qed.

Lemma reactor_turn_ok h events s : mesh_ok h s → mesh_ok h (reactor_turn events s).
Proof.
  intros Hok. unfold reactor_turn. destruct (m_running s); [|done]. destruct events as [evs|].
  - revert s Hok. induction evs as [|ev evs IH]; intros s Hok; [done|].
    by apply IH, reactor_handle_event_ok.
  - destruct Hok as [Hp He Hf Hb]. split; cbn; [split; cbn; intros; simplify_map_eq|
      intros; simplify_map_eq|done..].
Qed.

Lemma mesh_step_ok h op s outs s' :
  mesh_step op s = (outs, s') → mesh_ok h s → mesh_ok (h ++ outs) s'.
Proof.
  destruct op as [c|id|id b| |events]; cbn.
  - intros [= <- <-]. rewrite app_nil_r. apply mesh_add_ok.
  - intros [= <- <-]. rewrite app_nil_r. apply mesh_remove_ok.
  - destruct (mesh_send_envelope id b s) as [r s1] eqn:Hs. intros [= <- <-]. by eapply mesh_send_ok.
  - destruct (mesh_recv_envelope s) as [r s1] eqn:Hs. intros [= <- <-] Hok.
    by apply (mesh_recv_ok _ _ _ _ Hs) in Hok.
  - intros [= <- <-]. rewrite app_nil_r. apply reactor_turn_ok.
Qed.

Lemma mesh_run_ok h ops s outs s' :
  mesh_run ops s = (outs, s') → mesh_ok h s → mesh_ok (h ++ outs) s'.
Proof.
  revert h s outs. induction ops as [|op ops IH]; intros h s outs; cbn [mesh_run].
  { intros [= <- <-]. by rewrite app_nil_r. }
  destruct (mesh_step op s) as [out s1] eqn:H1, (mesh_run ops s1) as [outs1 s2] eqn:H2.
  intros [= <- <-] Hok. rewrite app_assoc. eapply IH; [done|]. by eapply mesh_step_ok.
Qed.

(** The capacities of the queues do not change. *)
Definition capacities (s : MeshState (logged C) P) : nat * nat :=
  (m_outgoing_capacity s, in_capacity (m_incoming s)).

Lemma reactor_handle_event_capacities ev s : capacities (reactor_handle_event ev s) = capacities s.
Proof.
  unfold reactor_handle_event, pool_handle_event. case_decide; [done|].
  destruct (entry_by_token (ev_token ev) (m_pool s)) as [e|]; [|by destruct s].
  pose proof (try_event_spec (bool_decide (e_id e ∈ m_outgoings s)) ev e (p_poll (m_pool s)) (m_incoming s))
    as Hev. unfold wp in Hev. destruct (try_event _ ev _) as [r [[e' q] i']].
  unfold capacities. destruct r; cbn; by rewrite (event_capacity _ _ _ _ _ Hev).
Qed.

Lemma mesh_step_capacities op s : capacities (mesh_step op s).2 = capacities s.
Proof.
  destruct op as [c|id|id b| |events]; cbn.
  - unfold mesh_add_connection. case_match; [|done]. by destruct (pool_add _ _) as [[]].
  - unfold mesh_remove_connection. case_match; [|done]. by destruct (pool_remove _ _) as [[[]|]].
  - unfold mesh_send_envelope. case_decide; [|done].
    destruct (p_entries (m_pool s) !! id); [|done]. by case_decide.
  - unfold mesh_recv_envelope. by destruct (in_queue (m_incoming s)) as [|[]].
  - unfold reactor_turn. case_match; [|done]. destruct events as [evs|]; [|done].
    clear. revert s. induction evs as [|ev evs IH]; intros s; [done|]. cbn.
    by rewrite IH, reactor_handle_event_capacities.
Qed.

Lemma mesh_run_capacities ops s : capacities (mesh_run ops s).2 = capacities s.
Proof.
  revert s. induction ops as [|op ops IH]; intros s; [done|]. cbn [mesh_run].
  pose proof (mesh_step_capacities op s) as Hs. destruct (mesh_step op s) as [out s1].
  specialize (IH s1). destruct (mesh_run ops s1). cbn in *. congruence.
Qed.

(** C11: whatever threads do with the mesh and whatever events its reactor is
    given, a connection of the mesh has been sent the messages that were accepted
    for it, in order and each once, but for the last ones, which are in its cache
    and its queue; the messages received on it have been delivered, in order and
    each once, but for the last ones, which are in the queue of the mesh; it is
    watched for the readiness to write exactly when it has a cached message; the
    events of its tokens are handled for it; and no queue exceeds its capacity. *)
Theorem mesh_messages_in_order q m n ops outs s id e :
  mesh_run ops (mesh_new q m n) = (outs, s) → p_entries (m_pool s) !! id = Some e →
  lc_sent (e_connection e) ++ option_list (e_cached e) ++ e_outgoing e = accepted id outs ∧
  delivered_from id outs ++ queued_from id (in_queue (m_incoming s)) = lc_received (e_connection e) ∧
  e_write_evented_guard e = bool_decide (is_Some (e_cached e)) ∧
  entry_by_token (e_connection_token e) (m_pool s) = Some e ∧
  entry_by_token (e_outgoing_token e) (m_pool s) = Some e ∧
  length (e_outgoing e) ≤ n ∧ length (in_queue (m_incoming s)) ≤ m.
Proof.
  intros Hrun He. pose proof (mesh_run_capacities ops (mesh_new q m n)) as Hcap. rewrite Hrun in Hcap.
  injection Hcap as Hn Hm. apply (mesh_run_ok []) in Hrun as [Hp Hent _ Hb]; [|apply mesh_new_ok].
  destruct (Hent id e He) as ([Hg Hl] & Hs & Hr). cbn in Hs, Hr.
  destruct (pool_entry _ Hp id e He) as (_ & _ & _ & Hct & Hot). unfold entry_by_token.
  rewrite Hct, Hot. split_and!; [done..| |]; lia.
Qed.
End props.

(** ** Example *)

Module MeshMock.
(** A connection that blocks a number of times before it sends, and has messages to
    be received. *)
#[export] Instance blocking : Connection (nat * list bytes) := {|
  connection_send _ c :=
    match c.1 with 0 => (Ok (), c) | S k => (Err SendWouldBlock, (k, c.2)) end;
  connection_recv c :=
    match c.2 with [] => (Err RecvWouldBlock, c) | b :: l => (Ok b, (c.1, l)) end;
  connection_remote_endpoint _ := "tcp://a";
|}.
#[export] Instance no_poll : Poll () := {|
  poll_register _ := mret ();
  poll_reregister _ _ := mret ();
  poll_deregister _ := mret ();
|}.

(** Two messages are sent: the first one blocks, then both go out; one message is
    received.  The connection has the id 3 and the tokens 1 and 2. *)
Definition ops : list (mesh_op (nat * list bytes)) :=
  [MeshAdd (1, ["x"]); MeshSend 3 "a"; MeshSend 3 "b"; MeshTurn (Some [mkEvent 2 true false]);
   MeshTurn (Some [mkEvent 2 true false; mkEvent 1 true false]); MeshRecv;
   MeshTurn (Some [mkEvent 1 true true; mkEvent 2 true false])].
Definition final : list mesh_out * MeshState (logged (nat * list bytes)) () :=
  mesh_run ops (mesh_new () 4 4).
End MeshMock.

Section mesh_witness.
Import MeshMock.

Lemma mesh_messages_in_order_witness :
  ∃ e, p_entries (m_pool final.2) !! 3 = Some e ∧ lc_sent (e_connection e) = ["a"; "b"] ∧
    delivered_from 3 final.1 = ["x"].
Proof.
  destruct (p_entries (m_pool final.2) !! 3) as [e|] eqn:He; [|by vm_compute in He].
  assert (e_cached e = None ∧ e_outgoing e = [] ∧ delivered_from 3 final.1 = ["x"] ∧
          accepted 3 final.1 = ["a"; "b"]) as (Hc & Ho & Hd & Ha).
  { vm_compute in He. injection He as <-. by vm_compute. }
  destruct (mesh_messages_in_order () 4 4 ops final.1 final.2 3 e) as (Hs & _).
  - exact (surjective_pairing final).
  - exact He.
  - exists e. rewrite Hc, Ho, app_nil_r, Ha in Hs. by split_and!.
Defined.
End mesh_witness.
