(* ===== verification/Reply.v ===== *)
(** * Replies to requests

    Models [libsplinter/src/network/reply.rs]: the router that hands an incoming
    message to the request that waits for it, by its correlation id, and every
    other message to a default channel; and the futures through which requests
    wait. *)

From S2P Require Import Prelude.
From Stdlib Require Import Lia.

(** [MessageResult]: a message and its type, or the text of a [RecvError]. *)
Definition MessageResult (MT : Type) : Type := result string (MT * bytes).

(** The channel of a request is in [rt_channels] until its receiving end, the
    future, is dropped; its sending end is in [rt_expected] until a reply was
    routed. *)
Record InboundRouter (MT : Type) := mkInboundRouter {
  rt_expected : gmap string nat;
  rt_channels : gmap nat (list (MessageResult MT));
  rt_next : nat;
}.
Arguments mkInboundRouter {MT} rt_expected rt_channels rt_next.
Arguments rt_expected {MT} i.
Arguments rt_channels {MT} i.
Arguments rt_next {MT} i.

(** [RouteError] *)
Inductive RouteError := RouteFailed.

Inductive FutureError := UnableToParseMessage | UnableToReceive.

Record MessageFuture (MT : Type) := mkMessageFuture {
  mf_inner : nat;
  mf_result : option (MessageResult MT);
}.
Arguments mkMessageFuture {MT} mf_inner mf_result.
Arguments mf_inner {MT} m.
Arguments mf_result {MT} m.

Section router.
Context {MT W : Type} `{!Sender W (MessageResult MT)}.

Abbreviation router := (InboundRouter MT).
Abbreviation router_eff := (eff (InboundRouter MT * W)).

Definition router_new : router := mkInboundRouter ∅ ∅ 0.

(** Sending on the channel of a request. *)
Definition reply_send (ch : nat) (m : MessageResult MT) : router_eff RouteError () := λ '(r, w),
  match rt_channels r !! ch with
  | Some q => (Ok (), (mkInboundRouter (rt_expected r) (<[ch := q ++ [m]]> (rt_channels r)) (rt_next r), w))
  | None => (Err RouteFailed, (r, w))
  end.

Definition default_send (m : MessageResult MT) : router_eff RouteError () := λ '(r, w),
  let '(x, w) := send m w in (map_err (λ _, RouteFailed) x, (r, w)).

(** An error is sent to all who wait, in the unspecified order of a hash map. *)
Fixpoint send_errors (l : list (string * nat)) (error : string) : router_eff RouteError () :=
  match l with
  | [] => mret ()
  | (_, ch) :: l => reply_send ch (Err error);; send_errors l error
  end.

(** [InboundRouter::route] *)
Definition route (correlation_id : string) (m : MessageResult MT) : router_eff RouteError () :=
  match m with
  | Ok message => λ '(r, w),
      match rt_expected r !! correlation_id with
      | Some ch =>
          reply_send ch (Ok message)
            (mkInboundRouter (delete correlation_id (rt_expected r)) (rt_channels r) (rt_next r), w)
      | None => default_send (Ok message) (r, w)
      end
  | Err error => λ '(r, w), send_errors (map_to_list (rt_expected r)) error (r, w)
  end.

(** [InboundRouter::expect_reply] *)
Definition expect_reply {E} (correlation_id : string) : router_eff E (MessageFuture MT) := λ '(r, w),
  let ch := rt_next r in
  (Ok (mkMessageFuture ch None),
   (mkInboundRouter (<[correlation_id := ch]> (rt_expected r)) (<[ch := []]> (rt_channels r)) (S ch), w)).

(** The future goes out of scope. *)
Definition drop_future {E} (f : MessageFuture MT) : router_eff E () := λ '(r, w),
  (Ok (), (mkInboundRouter (rt_expected r) (delete (mf_inner f) (rt_channels r)) (rt_next r), w)).

Definition parse_reply {M} `{!Codec M} (m : MessageResult MT) : result FutureError M :=
  match m with
  | Ok (_, b) => ok_or UnableToParseMessage (parse_from_bytes b)
  | Err _ => Err UnableToReceive
  end.

Definition sender_alive (ch : nat) (r : router) : bool :=
  bool_decide (map_Exists (λ _ c, c = ch) (rt_expected r)).

(** [MessageFuture::get]; it blocks, [None] here, until the channel has a message
    or no sender. *)
Definition future_get {M} `{!Codec M} (f : MessageFuture MT) :
    router_eff FutureError (option M * MessageFuture MT) := λ '(r, w),
  match mf_result f with
  | Some m => (x ← parse_reply m; mret (Some x, f), (r, w))
  | None =>
      match rt_channels r !! mf_inner f with
      | Some (m :: q) =>
          (x ← parse_reply m; mret (Some x, mkMessageFuture (mf_inner f) (Some m)),
           (mkInboundRouter (rt_expected r) (<[mf_inner f := q]> (rt_channels r)) (rt_next r), w))
      | _ => if sender_alive (mf_inner f) r then (Ok (None, f), (r, w))
             else (Err UnableToReceive, (r, w))
      end
  end.

(** ** The router is consistent *)

(** Different requests wait on different channels, on which nothing was sent
    yet. *)
Record router_ok (r : router) : Prop := {
  router_inj c c' ch : rt_expected r !! c = Some ch → rt_expected r !! c' = Some ch → c = c';
  router_waiting c ch : rt_expected r !! c = Some ch →
    ch < rt_next r ∧ from_option (eq []) True (rt_channels r !! ch);
  router_channel ch q : rt_channels r !! ch = Some q → ch < rt_next r;
}.

Lemma router_new_ok : router_ok router_new.
Proof. split; intros *; cbn; rewrite lookup_empty; done. Qed.

Lemma expect_reply_ok {E} c r w f r' w' :
  expect_reply (E:=E) c (r, w) = (Ok f, (r', w')) → router_ok r → router_ok r'.
Proof.
  intros [= <- <- <-] [Hinj Hwait Hch]. split; cbn.
  - intros c1 c2 ch. destruct (decide (c = c1)) as [<-|H1], (decide (c = c2)) as [<-|H2]; [done|..];
      rewrite ?lookup_insert_eq, ?lookup_insert_ne by done.
    + intros [= <-] [? _]%Hwait. lia.
    + intros [? _]%Hwait [= <-]. lia.
    + apply Hinj.
  - intros c1 ch [[<- <-]|[Hc H1]]%lookup_insert_Some.
    + rewrite lookup_insert_eq. cbn. split; [lia|done].
    + destruct (Hwait _ _ H1) as [Hlt Hq]. rewrite lookup_insert_ne by lia. split; [lia|done].
  - intros ch q [[<- <-]|[Hc Hq]]%lookup_insert_Some; [lia|]. apply Hch in Hq. lia.
Qed.

Lemma route_ok c m r w x r' w' :
  route c (Ok m) (r, w) = (x, (r', w')) → router_ok r → router_ok r'.
Proof.
  unfold route. destruct (rt_expected r !! c) as [ch|] eqn:Hc.
  2: { unfold default_send. destruct (send _ w). by intros [= <- <- <-]. }
  intros Hr [Hinj Hwait Hch].
  assert (∀ c' ch', rt_expected r !! c' = Some ch' → c ≠ c' → ch' ≠ ch) as Hne.
  { intros c' ch' Hc' Hcc ->. eauto. }
  unfold reply_send in Hr. cbn in Hr. destruct (rt_channels r !! ch) as [q|] eqn:Hq;
    simplify_eq; split; cbn.
  - intros c1 c2 ch' [_ H1]%lookup_delete_Some [_ H2]%lookup_delete_Some. eauto.
  - intros c1 ch' [Hcc H1]%lookup_delete_Some. rewrite lookup_insert_ne by (apply not_eq_sym; eauto). by eapply Hwait.
  - intros ch' q' [[<- <-]|[_ H1]]%lookup_insert_Some; eauto.
  - intros c1 c2 ch' [_ H1]%lookup_delete_Some [_ H2]%lookup_delete_Some. eauto.
  - intros c1 ch' [Hcc H1]%lookup_delete_Some. by eapply Hwait.
  - done.
Qed.

Lemma drop_future_ok {E} f r w x r' w' :
  drop_future (E:=E) f (r, w) = (x, (r', w')) → router_ok r → router_ok r'.
Proof.
  intros [= <- <- <-] [Hinj Hwait Hch]. split; cbn; [done|..].
  - intros c ch Hc. destruct (Hwait c ch Hc) as [? Hq]. split; [done|].
    destruct (decide (mf_inner f = ch)) as [<-|]; [by rewrite lookup_delete_eq|by rewrite lookup_delete_ne].
  - intros ch q [_ Hq]%lookup_delete_Some. eauto.
Qed.

Lemma future_get_ok {M} `{!Codec M} f r w x r' w' :
  future_get (M:=M) f (r, w) = (x, (r', w')) → router_ok r → router_ok r'.
Proof.
  unfold future_get. destruct (mf_result f); [by intros [= _ <- _]|].
  destruct (rt_channels r !! mf_inner f) as [[|m q]|] eqn:Hq; [by destruct (sender_alive _ r); intros [= _ <- _]|..].
  2: { by destruct (sender_alive _ r); intros [= _ <- _]. }
  intros [= _ <- _] [Hinj Hwait Hch]. split; cbn; [done|..].
  - intros c ch Hc. destruct (Hwait c ch Hc) as [? Hw]. split; [done|].
    rewrite lookup_insert_ne; [done|]. intros <-. by rewrite Hq in Hw.
  - intros ch q' [[<- <-]|[_ H]]%lookup_insert_Some; eauto.
Qed.

(** ** Where messages go *)

(** The channel [ch] of the request [c] holds the messages [q]. *)
Record holds (c : string) (ch : nat) (q : list (MessageResult MT)) (r : router) : Prop := {
  holds_ok : router_ok r;
  holds_channel : rt_channels r !! ch = Some q;
  holds_waiting : match q with
                  | [] => rt_expected r !! c = Some ch
                  | _ => ∀ c', rt_expected r !! c' ≠ Some ch
                  end;
}.

Lemma expect_reply_holds {E} c r w f r' w' :
  expect_reply (E:=E) c (r, w) = (Ok f, (r', w')) → router_ok r →
  f = mkMessageFuture (mf_inner f) None ∧ w' = w ∧ holds c (mf_inner f) [] r'.
Proof.
  intros He Hr. pose proof (expect_reply_ok _ _ _ _ _ _ He Hr). injection He as <- <- <-.
  split_and!; [done..|]. split; cbn; [done|by rewrite lookup_insert_eq..].
Qed.

(** What happens to other requests does not change what a channel holds. *)
Lemma expect_reply_other {E} c ch q c' r w f r' w' :
  expect_reply (E:=E) c' (r, w) = (Ok f, (r', w')) → c' ≠ c → holds c ch q r →
  holds c ch q r' ∧ mf_inner f ≠ ch.
Proof.
  intros He Hc [Hok Hq Hw]. pose proof (expect_reply_ok _ _ _ _ _ _ He Hok). injection He as <- <- <-.
  pose proof (router_channel _ Hok _ _ Hq). cbn. split; [|lia].
  split; cbn; [done|by rewrite lookup_insert_ne by lia|]. destruct q as [|m q].
  - by rewrite lookup_insert_ne.
  - intros c1 [[_ ?]|[_ ?]]%lookup_insert_Some; [lia|by eapply Hw].
Qed.

Lemma route_other c ch q c' m r w x r' w' :
  route c' (Ok m) (r, w) = (x, (r', w')) → c' ≠ c → holds c ch q r → holds c ch q r'.
Proof.
  intros Hr Hc [Hok Hq Hw]. pose proof (route_ok _ _ _ _ _ _ _ Hr Hok) as Hok'. revert Hr. unfold route.
  destruct (rt_expected r !! c') as [ch'|] eqn:Hc'.
  2: { unfold default_send. destruct (send _ w). by intros [= <- <- <-]. }
  assert (ch' ≠ ch) as Hne.
  { intros ->. destruct q; [|by eapply Hw]. apply Hc. exact (router_inj _ Hok _ _ _ Hc' Hw). }
  assert (match q with [] => delete c' (rt_expected r) !! c = Some ch
          | _ => ∀ c1, delete c' (rt_expected r) !! c1 ≠ Some ch end) as Hw'.
  { destruct q; [by rewrite lookup_delete_ne|]. intros c1 [_ ?]%lookup_delete_Some. by eapply Hw. }
  unfold reply_send. cbn. destruct (rt_channels r !! ch') as [q'|]; intros [= <- <- <-]; split; cbn; try done.
  by rewrite lookup_insert_ne.
Qed.

Lemma drop_future_other {E} c ch q f r w x r' w' :
  drop_future (E:=E) f (r, w) = (x, (r', w')) → mf_inner f ≠ ch → holds c ch q r → holds c ch q r'.
Proof.
  intros Hd Hf [Hok Hq Hw]. pose proof (drop_future_ok _ _ _ _ _ _ Hd Hok). injection Hd as <- <- <-.
  split; cbn; [done|by rewrite lookup_delete_ne|done].
Qed.

Lemma future_get_other {M} `{!Codec M} c ch q f r w x r' w' :
  future_get (M:=M) f (r, w) = (x, (r', w')) → mf_inner f ≠ ch → holds c ch q r → holds c ch q r'.
Proof.
  intros Hg Hf [Hok Hq Hw]. pose proof (future_get_ok _ _ _ _ _ _ Hg Hok) as Hok'. revert Hg.
  unfold future_get. destruct (mf_result f); [by intros [= _ <- _]|].
  destruct (rt_channels r !! mf_inner f) as [[|m q']|]; [by destruct (sender_alive _ r); intros [= _ <- _]|..].
  2: { by destruct (sender_alive _ r); intros [= _ <- _]. }
  intros [= _ <- _]. split; cbn; [done|by rewrite lookup_insert_ne|done].
Qed.

(** The reply reaches the request that waits for it. *)
Lemma route_holds c ch m r w :
  holds c ch [] r →
  ∃ r', route c (Ok m) (r, w) = (Ok (), (r', w)) ∧ holds c ch [Ok m] r'.
Proof.
  intros [Hok Hq Hw]. cbn in Hw.
  assert (∃ r', route c (Ok m) (r, w) = (Ok (), (r', w)) ∧
    r' = mkInboundRouter (delete c (rt_expected r)) (<[ch := [Ok m]]> (rt_channels r)) (rt_next r)) as (r' & Hr & Hr').
  { eexists. split; [|done]. unfold route, reply_send. rewrite Hw. cbn. by rewrite Hq. }
  exists r'. split; [done|]. split; [by eapply route_ok|..]; subst r'; cbn; [by rewrite lookup_insert_eq|].
  intros c' [Hc ?]%lookup_delete_Some. apply Hc. by apply (router_inj _ Hok _ _ ch).
Qed.

(** A message nobody waits for goes to the default channel. *)
Lemma route_default c m r w :
  rt_expected r !! c = None →
  route c (Ok m) (r, w) =
    (map_err (λ _, RouteFailed) (send (Ok m : MessageResult MT) w).1, (r, (send (Ok m : MessageResult MT) w).2)).
Proof. intros Hc. unfold route, default_send. rewrite Hc. by destruct (send _ w). Qed.

(** A future whose channel has a message gives it, again and again. *)
Lemma future_get_reply {M} `{!Codec M} ch m r w :
  rt_channels r !! ch = Some [m] →
  ∃ r', future_get (M:=M) (mkMessageFuture ch None) (r, w) =
    (x ← parse_reply m; mret (Some x, mkMessageFuture ch (Some m)), (r', w)) ∧
  future_get (M:=M) (mkMessageFuture ch (Some m)) (r', w) =
    (x ← parse_reply m; mret (Some x, mkMessageFuture ch (Some m)), (r', w)).
Proof. intros Hq. unfold future_get. cbn. rewrite Hq. eexists. by split. Qed.
End router.
