(* ===== verification/Services.v ===== *)
(** * Services and their messages

    Models [libsplinter/src/service/mod.rs], [sender.rs] and [registry.rs]: what a
    service is, the senders through which it sends messages to other services, and
    the registry through which it connects to its node.  A call that waits for a
    reply is two operations: the request, which gives a future, and the wait. *)

From S2P Require Import Prelude Circuit Dispatch CircuitHandlers Reply.

(** ** Interfaces ([service/mod.rs], [service/error.rs]) *)

Record ServiceMessageContext := mkServiceMessageContext {
  smc_sender : string;
  smc_circuit : string;
  smc_correlation_id : string;
}.

(** The boxed errors carry no payload. *)
Inductive NetworkSenderError :=
  | SenderCodecError
  | SenderChannelError
  | SenderReplyError (e : FutureError).

Inductive ServiceConnectionError :=
  | ConnectionFailed
  | ConnectionRejected (msg : string).
Inductive ServiceDisconnectionError :=
  | DisconnectionFailed
  | DisconnectionRejected (msg : string).

Inductive StartError := StartAlreadyStarted | StartUnableToConnect (e : ServiceConnectionError) | StartFailed.
Inductive StopError := StopNotRunning | StopUnableToDisconnect (e : ServiceDisconnectionError) | StopFailed.
Inductive DestroyError := DestroyNotStopped | DestroyFailed.
Inductive HandleMessageError :=
  | InvalidMessage
  | UnableToHandleMessage
  | UnableToSendMessage (e : NetworkSenderError)
  | MessageNotStarted.

(** [dyn Service]: a service of type [S] acts on itself and on a world [W], which
    has the router and the channel of the registry it is given; the registry itself
    is known by its circuit. *)
Class Service (S W : Type) := {
  service_id : S → string;
  service_start : string → eff (S * W) StartError ();
  service_stop : string → eff (S * W) StopError ();
  service_destroy : S → eff W DestroyError ();
  service_handle_message : bytes → ServiceMessageContext → eff (S * W) HandleMessageError ();
}.

(** ** [sender.rs] *)

Inductive ServiceMessage :=
  | SvcAdminDirectMessage (m : AdminDirectMessage)
  | SvcCircuitDirectMessage (m : CircuitDirectMessage).
Inductive ProcessorMessage :=
  | ProcServiceMessage (m : ServiceMessage)
  | ProcShutdown.

(** [AdminServiceNetworkSender] and [StandardServiceNetworkSender], but for the
    channel and the router they share. *)
Inductive NetworkSender :=
  | AdminNetworkSender (message_sender : string)
  | StandardNetworkSender (circuit message_sender : string).

Section services.
Context {W : Type} `{!Sender W bytes, !Sender W (MessageResult CircuitMessageType)}.
Context `{!Codec CircuitMessage, !Codec NetworkMessage, !Codec CircuitDirectMessage,
  !Codec AdminDirectMessage, !Codec ServiceConnectRequest, !Codec ServiceConnectResponse,
  !Codec ServiceDisconnectRequest, !Codec ServiceDisconnectResponse}.

Abbreviation router := (InboundRouter CircuitMessageType).
Abbreviation service_eff := (eff (InboundRouter CircuitMessageType * W)).

(** [create_message] *)
Definition network_envelope (payload : bytes) (ty : CircuitMessageType) : option bytes :=
  b ← write_to_bytes (mkCircuitMessage ty payload);
  write_to_bytes (mkNetworkMessage CIRCUIT b).

Definition outgoing_send (b : bytes) : service_eff SendError () := λ '(r, w),
  let '(x, w) := send b w in (x, (r, w)).

(** The bytes of a direct message, by the kind of the sender. *)
Definition direct_message (s : NetworkSender) (circuit recipient : string) (payload : bytes)
    (correlation_id : string) : option bytes :=
  match s with
  | AdminNetworkSender me =>
      b ← write_to_bytes (mkAdminDirectMessage circuit me recipient payload correlation_id);
      network_envelope b ADMIN_DIRECT_MESSAGE
  | StandardNetworkSender _ me =>
      b ← write_to_bytes (mkCircuitDirectMessage circuit me recipient payload correlation_id);
      network_envelope b CIRCUIT_DIRECT_MESSAGE
  end.

Definition sender_circuit (s : NetworkSender) : string :=
  match s with AdminNetworkSender _ => "admin" | StandardNetworkSender circuit _ => circuit end.

(** [send] *)
Definition sender_send (s : NetworkSender) (recipient : string) (message : bytes) :
    service_eff NetworkSenderError () :=
  b ← lift (ok_or SenderCodecError (direct_message s (sender_circuit s) recipient message ""));
  emap_err (λ _, SenderChannelError) (outgoing_send b).

(** A request is sent once its reply is expected; when it cannot be sent the future
    is dropped. *)
Definition send_expecting (correlation_id : string) (b : bytes) :
    service_eff SendError (MessageFuture CircuitMessageType) :=
  f ← expect_reply correlation_id;
  r ← attempt (outgoing_send b);
  match r with
  | Ok _ => mret f
  | Err e => drop_future f;; throw e
  end.

(** [send_and_await]: the request, where [uuid] is what [Uuid::new_v4] gives, and
    the wait for the payload of the reply. *)
Definition sender_request (s : NetworkSender) (uuid recipient : string) (message : bytes) :
    service_eff NetworkSenderError (MessageFuture CircuitMessageType) :=
  b ← lift (ok_or SenderCodecError (direct_message s (sender_circuit s) recipient message uuid));
  emap_err (λ _, SenderChannelError) (send_expecting uuid b).

Definition sender_await (s : NetworkSender) (f : MessageFuture CircuitMessageType) :
    service_eff NetworkSenderError (option bytes) :=
  match s with
  | AdminNetworkSender _ =>
      p ← emap_err SenderReplyError (future_get (M:=AdminDirectMessage) f);
      mret (adm_payload <$> p.1)
  | StandardNetworkSender _ _ =>
      p ← emap_err SenderReplyError (future_get (M:=CircuitDirectMessage) f);
      mret (cdm_payload <$> p.1)
  end.

(** [reply] *)
Definition sender_reply (s : NetworkSender) (origin : ServiceMessageContext) (message : bytes) :
    service_eff NetworkSenderError () :=
  b ← lift (ok_or SenderCodecError (direct_message s (smc_circuit origin) (smc_sender origin) message
             (smc_correlation_id origin)));
  emap_err (λ _, SenderChannelError) (outgoing_send b).

(** ** [registry.rs] *)

Definition ADMIN_CIRCUIT_NAME : string := "admin".

(** [connect]: the request and the wait for the response; [circuit] is the circuit
    of the registry. *)
Definition registry_connect_request (circuit uuid service_id : string) :
    service_eff ServiceConnectionError (MessageFuture CircuitMessageType) :=
  msg ← lift (ok_or ConnectionFailed (write_to_bytes (mkServiceConnectRequest circuit service_id uuid)));
  b ← lift (ok_or ConnectionFailed (network_envelope msg SERVICE_CONNECT_REQUEST));
  emap_err (λ _, ConnectionFailed) (send_expecting uuid b).

Definition registry_connect_await (circuit service_id : string)
    (f : MessageFuture CircuitMessageType) : service_eff ServiceConnectionError (option NetworkSender) :=
  p ← emap_err (λ _, ConnectionFailed) (future_get (M:=ServiceConnectResponse) f);
  match p.1 with
  | Some response =>
      match scp_status response with
      | CONNECT_OK =>
          mret (Some (if bool_decide (circuit = ADMIN_CIRCUIT_NAME) then AdminNetworkSender service_id
                      else StandardNetworkSender circuit service_id))
      | _ => throw (ConnectionRejected (scp_error_message response))
      end
  | None => mret None
  end.

(** [disconnect] *)
Definition registry_disconnect_request (circuit uuid service_id : string) :
    service_eff ServiceDisconnectionError (MessageFuture CircuitMessageType) :=
  msg ← lift (ok_or DisconnectionFailed
                (write_to_bytes (mkServiceDisconnectRequest circuit service_id uuid)));
  b ← lift (ok_or DisconnectionFailed (network_envelope msg SERVICE_DISCONNECT_REQUEST));
  emap_err (λ _, DisconnectionFailed) (send_expecting uuid b).

Definition registry_disconnect_await (f : MessageFuture CircuitMessageType) :
    service_eff ServiceDisconnectionError (option ()) :=
  p ← emap_err (λ _, DisconnectionFailed) (future_get (M:=ServiceDisconnectResponse) f);
  match p.1 with
  | Some response =>
      match sdp_status response with
      | DISCONNECT_OK => mret (Some ())
      | _ => throw (DisconnectionRejected (sdp_error_message response))
      end
  | None => mret None
  end.
End services.
