(* ===== verification/ServiceProcessor.v ===== *)
(** * The service processor

    Models [libsplinter/src/service/processor.rs]: the routing of the messages of a
    node to the services of a process, and the loops of its threads, each on the
    list of what its channel gives while [running] is set. *)

From S2P Require Import Prelude Network Circuit Dispatch CircuitHandlers Auth Reply Services.
From Stdlib Require Import Lia.

(** [ServiceProcessorError], with the contexts of [ProcessError] *)
Inductive ServiceProcessorError :=
  | AddServiceError (msg : string)
  | ProcessError (context : string)
  | ProcessorIoError
  | ShutdownError (msg : string).

(** [SharedState]: the services that were started, and the channels of those whose
    thread still runs. *)
Record SharedState := mkSharedState {
  ps_services : gset string;
  ps_channels : gmap string (list ProcessorMessage);
}.

(** [ServiceProcessor::add_service], on the services added so far *)
Definition processor_add_service {S W} `{!Service S W} (service : S) (services : list S) :
    result ServiceProcessorError (list S) :=
  if existsb (λ s, bool_decide (service_id s = service_id service)) services then
    Err (AddServiceError (service_id service +:+ " already exists"))
  else Ok (services ++ [service]).

Section processor.
Context {W : Type} `{!Sender W bytes, !Sender W (MessageResult CircuitMessageType)}.
Context `{!Codec CircuitMessage, !Codec NetworkMessage, !Codec CircuitDirectMessage,
  !Codec AdminDirectMessage, !Codec ServiceConnectResponse, !Codec ServiceDisconnectResponse,
  !Codec CircuitError, !Codec AuthorizationMessage, !Codec ConnectRequest}.

(** [create_connect_request] *)
Definition service_connect_request : option bytes :=
  request ← write_to_bytes (mkConnectRequest UNIDIRECTIONAL);
  b ← write_to_bytes (mkAuthorizationMessage CONNECT_REQUEST request);
  write_to_bytes (mkNetworkMessage AUTHORIZATION b).

(** ** Incoming messages *)

(** The correlation id of a message of a type that is routed, with the context of
    the error when it cannot be parsed. *)
Definition correlation_id (ty : CircuitMessageType) (payload : bytes) :
    option (string * option string) :=
  match ty with
  | ADMIN_DIRECT_MESSAGE =>
      Some ("unable to parse admin direct message",
        adm_correlation_id <$> (parse_from_bytes payload : option AdminDirectMessage))
  | CIRCUIT_DIRECT_MESSAGE =>
      Some ("unable to parse circuit direct message",
        cdm_correlation_id <$> (parse_from_bytes payload : option CircuitDirectMessage))
  | SERVICE_CONNECT_RESPONSE =>
      Some ("unable to parse service connect response",
        scp_correlation_id <$> (parse_from_bytes payload : option ServiceConnectResponse))
  | SERVICE_DISCONNECT_RESPONSE =>
      Some ("unable to parse service disconnect response",
        sdp_correlation_id <$> (parse_from_bytes payload : option ServiceDisconnectResponse))
  | _ => None
  end.

(** [process_incoming_msg] *)
Definition process_incoming_msg (message_bytes : bytes) :
    eff (InboundRouter CircuitMessageType * W) ServiceProcessorError () :=
  msg ← lift (ok_or (ProcessError "unable parse network message") (parse_from_bytes message_bytes));
  match nm_message_type msg with
  | CIRCUIT =>
      circuit_msg ← lift (ok_or (ProcessError "unable to parse circuit message")
                            (parse_from_bytes (nm_payload msg)));
      let ty := cm_message_type circuit_msg in
      match correlation_id ty (cm_payload circuit_msg) with
      | Some (context, parsed) =>
          id ← lift (ok_or (ProcessError context) parsed);
          emap_err (λ _, ProcessError "unable to route message")
            (route id (Ok (ty, cm_payload circuit_msg)))
      | None => mret ()
      end
  | _ => mret ()
  end.

(** The thread that handles incoming messages: an error is logged. *)
Fixpoint processor_incoming_loop (polls : list (recv bytes)) :
    eff (InboundRouter CircuitMessageType * W) ServiceProcessorError () :=
  match polls with
  | [] => mret ()
  | Received b :: polls => catch_log (process_incoming_msg b);; processor_incoming_loop polls
  | RecvTimeout :: polls => processor_incoming_loop polls
  | Disconnected :: _ => mret ()
  end.

(** ** Messages nobody waits for *)

Abbreviation shared_eff := (eff SharedState ServiceProcessorError).

(** Sending on the channel of a service. *)
Definition service_sender_send (id : string) (m : ProcessorMessage) (context : string) : shared_eff () := λ s,
  match ps_channels s !! id with
  | Some q => (Ok (), mkSharedState (ps_services s) (<[id := q ++ [m]]> (ps_channels s)))
  | None => (Err (ProcessError context), s)
  end.

(** [handle_circuit_direct_msg] and [handle_admin_direct_msg] *)
Definition handle_circuit_direct_msg (m : CircuitDirectMessage) : shared_eff () :=
  s ← get;
  if decide (cdm_recipient m ∈ ps_services s) then
    service_sender_send (cdm_recipient m) (ProcServiceMessage (SvcCircuitDirectMessage m))
      "unable to send service (circuit direct) message"
  else mret ().
Definition handle_admin_direct_msg (m : AdminDirectMessage) : shared_eff () :=
  s ← get;
  if decide (adm_recipient m ∈ ps_services s) then
    service_sender_send (adm_recipient m) (ProcServiceMessage (SvcAdminDirectMessage m))
      "unable to send service (admin direct) message"
  else mret ().

(** [process_inbound_msg_with_correlation_id] *)
Definition process_inbound_msg (ty : CircuitMessageType) (msg : bytes) : shared_eff () :=
  match ty with
  | ADMIN_DIRECT_MESSAGE =>
      m ← lift (ok_or (ProcessError "unable to parse inbound admin direct message") (parse_from_bytes msg));
      emap_err (λ _, ProcessError "unable to handle inbound admin direct message")
        (handle_admin_direct_msg m)
  | CIRCUIT_DIRECT_MESSAGE =>
      m ← lift (ok_or (ProcessError "unable to parse inbound circuit direct message") (parse_from_bytes msg));
      emap_err (λ _, ProcessError "unable to handle inbound circuit direct message")
        (handle_circuit_direct_msg m)
  | CIRCUIT_ERROR_MESSAGE =>
      lift (ok_or (ProcessError "unable to parse circuit error message")
              (parse_from_bytes msg : option CircuitError));;
      mret ()
  | _ => mret ()
  end.

(** The thread of the inbound channel: an error of the channel ends it, one of the
    processing is logged. *)
Fixpoint processor_inbound_loop (polls : list (recv (MessageResult CircuitMessageType))) : shared_eff () :=
  match polls with
  | [] => mret ()
  | Received (Ok (ty, b)) :: polls => catch_log (process_inbound_msg ty b);; processor_inbound_loop polls
  | Received (Err _) :: _ => throw (ProcessError "received service message error")
  | RecvTimeout :: polls => processor_inbound_loop polls
  | Disconnected :: _ => throw (ProcessError "inbound sender dropped")
  end.

(** The shutdown handle: every service is told to stop, in the order of a hash map;
    a service whose thread has ended makes it fail.  Then the threads are joined from
    the last one; [None] is one that panicked. *)
Fixpoint send_shutdown (ids : list string) : shared_eff () :=
  match ids with
  | [] => mret ()
  | id :: ids =>
      emap_err (λ _, ShutdownError "unable to send shutdown message") (service_sender_send id ProcShutdown "");;
      send_shutdown ids
  end.
Fixpoint join_services (rev_handles : list (option (result ServiceProcessorError ()))) :
    result ServiceProcessorError () :=
  match rev_handles with
  | [] => Ok ()
  | h :: rev_handles =>
      r ← ok_or (ShutdownError "unable to cleanly join a Service thread") h;
      r;;
      join_services rev_handles
  end.
Definition processor_shutdown (join_handles : list (option (result ServiceProcessorError ()))) : shared_eff () :=
  s ← get;
  send_shutdown (elements (ps_services s));;
  lift (join_services (reverse join_handles)).

(** The thread of outgoing messages: a message that cannot be sent is logged. *)
Fixpoint processor_outgoing_loop {C V} `{!Mesh V C} (node_mesh_id : nat) (polls : list (recv bytes)) :
    eff V ServiceProcessorError () :=
  match polls with
  | [] => mret ()
  | Received b :: polls => catch_log (mesh_send node_mesh_id b);; processor_outgoing_loop node_mesh_id polls
  | RecvTimeout :: polls => processor_outgoing_loop node_mesh_id polls
  | Disconnected :: _ => mret ()
  end.
End processor.

(** ** The thread of a service *)

Section service_loop.
Context {S W : Type} `{!Service S W}.

Abbreviation loop_eff := (eff (S * W) ServiceProcessorError).

(** What a service is given with a message. *)
Definition message_context (m : ServiceMessage) : bytes * ServiceMessageContext :=
  match m with
  | SvcAdminDirectMessage m =>
      (adm_payload m, mkServiceMessageContext (adm_sender m) (adm_circuit m) (adm_correlation_id m))
  | SvcCircuitDirectMessage m =>
      (cdm_payload m, mkServiceMessageContext (cdm_sender m) (cdm_circuit m) (cdm_correlation_id m))
  end.

Definition handle_service_message (m : ServiceMessage) : loop_eff () :=
  let '(b, ctx) := message_context m in
  emap_err (λ _, ProcessError match m with
    | SvcAdminDirectMessage _ => "unable to handle admin direct message"
    | SvcCircuitDirectMessage _ => "unable to handle circuit direct message"
    end) (service_handle_message b ctx).

(** [destroy] consumes the service. *)
Definition destroy_service {E} (f : DestroyError → E) : eff (S * W) E () := λ '(s, w),
  let '(r, w) := service_destroy s w in (map_err f r, (s, w)).

(** The loop of [run_service_loop], on what the channel of the service gives: a
    message, or [None] when it is disconnected.  The result says whether the service
    was shut down. *)
Fixpoint service_loop (circuit : string) (inputs : list (option ProcessorMessage)) : loop_eff bool :=
  match inputs with
  | [] => mret false
  | Some (ProcServiceMessage m) :: inputs => handle_service_message m;; service_loop circuit inputs
  | Some ProcShutdown :: _ =>
      emap_err (λ _, ProcessError "unable to stop service") (service_stop circuit);;
      destroy_service (λ _, ProcessError "unable to destroy service");;
      mret true
  | None :: _ => throw (ProcessError "unable to receive service messages")
  end.

(** [run_service_loop] *)
Definition run_service_loop (circuit : string) (inputs : list (option ProcessorMessage)) : loop_eff bool :=
  s ← get;
  emap_err (λ _, ProcessError ("unable to start service " +:+ service_id s.1)) (service_start circuit);;
  service_loop circuit inputs.
End service_loop.
