(* ===== verification/ServiceOrchestrator.v ===== *)
(** * The service orchestrator

    Models [libsplinter/src/orchestrator/mod.rs] and its [rest_api.rs]: the services
    a node runs for its circuits, their lifecycle, and the loops through which they
    receive and send messages.  The locks are never poisoned. *)

From S2P Require Import Prelude Network Circuit Dispatch CircuitHandlers Auth Reply Services.
From S2P Require Import ServiceProcessor AdminShared.
From Stdlib Require Import Lia.

(** [OrchestratorError] and the errors of the operations; the boxed errors carry no
    payload. *)
Inductive OrchestratorError := OrchestratorInternal.
Inductive InitializeServiceError := InitializationFailed | UnknownType.
Inductive ShutdownServiceError := ShutdownFailed (def : OrchestratorService) | UnknownService.

(** [dyn ServiceFactory] ([service/factory.rs]); a REST endpoint is its service
    type, its route and its handler. *)
Record ServiceFactory (S W : Type) := mkServiceFactory {
  available_service_types : list string;
  factory_create : string → string → string → gmap string string → eff W () S;
}.
Arguments mkServiceFactory {S W} available_service_types factory_create.
Arguments available_service_types {S W} s.
Arguments factory_create {S W} s service_id service_type circuit_id args.

(** A [ManagedService] is its service: the registry is known by the circuit of the
    definition. *)
Record ServiceOrchestrator (S W : Type) := mkServiceOrchestrator {
  so_services : gmap OrchestratorService S;
  so_factories : list (ServiceFactory S W);
  so_supported_service_types : list string;
}.
Arguments mkServiceOrchestrator {S W} so_services so_factories so_supported_service_types.
Arguments so_services {S W} s.
Arguments so_factories {S W} s.
Arguments so_supported_service_types {S W} s.

Section orchestrator.
Context {S W : Type} `{!Service S W}.

Abbreviation orchestrator := (ServiceOrchestrator S W).
Abbreviation orch_eff := (eff (ServiceOrchestrator S W * W)).

Definition set_services (f : gmap OrchestratorService S → gmap OrchestratorService S) (o : orchestrator) :
    orchestrator :=
  mkServiceOrchestrator (f (so_services o)) (so_factories o) (so_supported_service_types o).

(** [ServiceOrchestrator::new], but for the connection and the threads *)
Definition orchestrator_new (factories : list (ServiceFactory S W)) : orchestrator :=
  mkServiceOrchestrator ∅ factories (factories ≫= available_service_types).

(** ** Lifecycle *)

(** A call of a service that is not in the map (yet, or any more). *)
Definition on_service {E E' A} (f : E → E') (m : eff (S * W) E A) (service : S) : orch_eff E' (A * S) :=
  λ '(o, w), match m (service, w) with
             | (Ok a, (service, w)) => (Ok (a, service), (o, w))
             | (Err e, (_, w)) => (Err (f e), (o, w))
             end.

Definition on_world {E E' A} (f : E → E') (m : eff W E A) : orch_eff E' A := λ '(o, w),
  let '(r, w) := m w in (map_err f r, (o, w)).

(** [initialize_service] *)
Definition orchestrator_initialize (def : OrchestratorService) (args : gmap string string) :
    orch_eff InitializeServiceError () :=
  s ← get;
  match list_find (λ f, os_service_type def ∈ available_service_types f) (so_factories s.1) with
  | None => throw UnknownType
  | Some (_, factory) =>
      service ← on_world (λ _, InitializationFailed)
        (factory_create factory (os_service_id def) (os_service_type def) (os_circuit def) args);
      p ← on_service (λ _, InitializationFailed) (service_start (os_circuit def)) service;
      modify (λ s, (set_services <[def := p.2]> s.1, s.2))
  end.

(** [stop] and [destroy], of a service that was taken out of the map *)
Definition stop_and_destroy {E} (e : E) (circuit : string) (service : S) : orch_eff E () :=
  p ← on_service (λ _, e) (service_stop circuit) service;
  on_world (λ _, e) (service_destroy p.2).

(** [shutdown_service] *)
Definition orchestrator_shutdown (def : OrchestratorService) : orch_eff ShutdownServiceError () :=
  s ← get;
  match so_services s.1 !! def with
  | None => throw UnknownService
  | Some service =>
      modify (λ s, (set_services (delete def) s.1, s.2));;
      stop_and_destroy (ShutdownFailed def) (os_circuit def) service
  end.

(** [list_services], in the unspecified order of a hash map *)
Definition list_services (circuits service_types : list string) (o : orchestrator) : list OrchestratorService :=
  filter (λ def, (circuits = [] ∨ os_circuit def ∈ circuits) ∧
                 (service_types = [] ∨ os_service_type def ∈ service_types))
    (map_to_list (so_services o)).*1.

(** [destroy]: the map is drained, also when a service fails. *)
Fixpoint destroy_all (l : list (OrchestratorService * S)) : orch_eff OrchestratorError () :=
  match l with
  | [] => mret ()
  | (def, service) :: l => stop_and_destroy OrchestratorInternal (os_circuit def) service;; destroy_all l
  end.
Definition orchestrator_destroy : orch_eff OrchestratorError () :=
  s ← get;
  modify (λ s, (set_services (λ _, ∅) s.1, s.2));;
  destroy_all (map_to_list (so_services s.1)).

(** ** Messages *)

(** [find_map] on the services of the map, by circuit and id *)
Definition find_service (circuit service_id : string) (o : orchestrator) : option (OrchestratorService * S) :=
  snd <$> list_find (λ p, os_circuit p.1 = circuit ∧ os_service_id p.1 = service_id)
            (map_to_list (so_services o)).

(** The service found handles the message, in place. *)
Definition deliver (circuit recipient : string) (payload : bytes) (ctx : ServiceMessageContext) :
    orch_eff OrchestratorError () := λ '(o, w),
  match find_service circuit recipient o with
  | Some (def, service) =>
      let '(r, (service, w)) := service_handle_message payload ctx (service, w) in
      (map_err (λ _, OrchestratorInternal) r, (set_services <[def := service]> o, w))
  | None => (Ok (), (o, w))
  end.

Context `{!Codec CircuitMessage, !Codec NetworkMessage, !Codec CircuitDirectMessage,
  !Codec AdminDirectMessage, !Codec ServiceConnectResponse, !Codec ServiceDisconnectResponse,
  !Codec CircuitError, !Codec AuthorizationMessage, !Codec ConnectRequest}.

(** The body of the loop of [run_inbound_loop] *)
Definition orchestrator_handle_inbound (ty : CircuitMessageType) (msg : bytes) :
    orch_eff OrchestratorError () :=
  match ty with
  | ADMIN_DIRECT_MESSAGE =>
      m ← lift (ok_or OrchestratorInternal (parse_from_bytes msg));
      deliver (adm_circuit m) (adm_recipient m) (adm_payload m)
        (mkServiceMessageContext (adm_sender m) (adm_circuit m) (adm_correlation_id m))
  | CIRCUIT_DIRECT_MESSAGE =>
      m ← lift (ok_or OrchestratorInternal (parse_from_bytes msg));
      deliver (cdm_circuit m) (cdm_recipient m) (cdm_payload m)
        (mkServiceMessageContext (cdm_sender m) (cdm_circuit m) (cdm_correlation_id m))
  | _ => mret ()
  end.

(** [run_inbound_loop], on what the channel gives while [running] is set *)
Fixpoint run_inbound_loop (polls : list (recv (MessageResult CircuitMessageType))) :
    orch_eff OrchestratorError () :=
  match polls with
  | [] => mret ()
  | Received (Ok (ty, b)) :: polls => orchestrator_handle_inbound ty b;; run_inbound_loop polls
  | Received (Err _) :: _ => throw OrchestratorInternal
  | RecvTimeout :: polls => run_inbound_loop polls
  | Disconnected :: _ => throw OrchestratorInternal
  end.
End orchestrator.

Section loops.
Context {V : Type} `{!Sender V (MessageResult CircuitMessageType)}.
Context `{!Codec CircuitMessage, !Codec NetworkMessage, !Codec CircuitDirectMessage,
  !Codec AdminDirectMessage, !Codec ServiceConnectResponse, !Codec ServiceDisconnectResponse,
  !Codec CircuitError}.

Abbreviation incoming_eff := (eff (InboundRouter CircuitMessageType * V) OrchestratorError).

(** The body of the loop of [run_incoming_loop]: [process_incoming_msg] of the
    service processor, but that an error message of a circuit must parse. *)
Definition orchestrator_handle_incoming (message_bytes : bytes) : incoming_eff () :=
  msg ← lift (ok_or OrchestratorInternal (parse_from_bytes message_bytes));
  match nm_message_type msg with
  | CIRCUIT =>
      circuit_msg ← lift (ok_or OrchestratorInternal (parse_from_bytes (nm_payload msg)));
      let ty := cm_message_type circuit_msg in
      match correlation_id ty (cm_payload circuit_msg) with
      | Some (_, parsed) =>
          id ← lift (ok_or OrchestratorInternal parsed);
          emap_err (λ _, OrchestratorInternal) (route id (Ok (ty, cm_payload circuit_msg)))
      | None =>
          match ty with
          | CIRCUIT_ERROR_MESSAGE =>
              lift (ok_or OrchestratorInternal
                      (parse_from_bytes (cm_payload circuit_msg) : option CircuitError));;
              mret ()
          | _ => mret ()
          end
      end
  | _ => mret ()
  end.

(** [run_incoming_loop] *)
Fixpoint run_incoming_loop (polls : list (recv bytes)) : incoming_eff () :=
  match polls with
  | [] => mret ()
  | Received b :: polls => orchestrator_handle_incoming b;; run_incoming_loop polls
  | RecvTimeout :: polls => run_incoming_loop polls
  | Disconnected :: _ => mret ()
  end.

(** [run_outgoing_loop] *)
Fixpoint run_outgoing_loop {C M} `{!Mesh M C} (mesh_id : nat) (polls : list (recv bytes)) :
    eff M OrchestratorError () :=
  match polls with
  | [] => mret ()
  | Received b :: polls =>
      emap_err (λ _, OrchestratorInternal) (mesh_send mesh_id b);; run_outgoing_loop mesh_id polls
  | RecvTimeout :: polls => run_outgoing_loop mesh_id polls
  | Disconnected :: _ => mret ()
  end.
End loops.

(** ** What the admin service uses *)

#[export] Instance orchestrator_instance {S W} `{!Service S W} :
    Orchestrator (ServiceOrchestrator S W * W) := {|
  supported_service_types s := so_supported_service_types s.1;
  initialize_service def args := emap_err (λ _, ()) (orchestrator_initialize def args);
  shutdown_service def := emap_err (λ _, ()) (orchestrator_shutdown def);
|}.
