(* ===== verification/OrchestratorProps.v ===== *)
(** * The orchestrator keeps what the admin service believes it runs

    What the operations of the orchestrator do to the set of its services, the
    isolation of the services it delivers messages to, and the agreement with the
    services the admin service has on its list. *)

From S2P Require Import Prelude Network Circuit Dispatch CircuitHandlers Auth Reply Services.
From S2P Require Import ServiceProcessor AdminMessages AdminShared AdminCommit ServiceOrchestrator.
From Stdlib Require Import Lia.

Section orchestrator_props.
Context {S W : Type} `{!Service S W}.

Abbreviation orchestrator := (ServiceOrchestrator S W).
Abbreviation running o := (dom (so_services o) : gset OrchestratorService).

Definition only_services (o o' : orchestrator) : Prop :=
  so_factories o' = so_factories o ∧
  so_supported_service_types o' = so_supported_service_types o.

(** ** Lifecycle *)

(** A service that was started is added, and nothing changes when it cannot be. *)
Lemma orchestrator_initialize_spec def args (o o' : orchestrator) w w' r :
  orchestrator_initialize def args (o, w) = (r, (o', w')) →
  match r with
  | Ok _ => (os_service_type def ∈ (so_factories o ≫= available_service_types)) ∧
            ∃ service, o' = set_services <[def := service]> o
  | Err UnknownType => (os_service_type def ∉ (so_factories o ≫= available_service_types)) ∧ o' = o ∧ w' = w
  | Err InitializationFailed => o' = o
  end.
Proof.
  unfold orchestrator_initialize, get, mbind, eff_bind, on_world, on_service, modify, throw. cbn.
  match goal with |- context [@list_find ?A ?P ?H ?l] => destruct (@list_find A P H l) as [[i f]|] eqn:Hf end.
  - apply list_find_Some in Hf as (Hi & Hty & _).
    unfold mbind, eff_bind. cbn. destruct (factory_create _ _ _ _ _ w) as [[service|] w1]; cbn;
      [|by intros [= <- <- <-]].
    destruct (service_start _ (service, w1)) as [[]  [service' w2]]; cbn; intros [= <- <- <-]; [|done].
    split; [|by eexists]. apply list_elem_of_bind. exists f. split; [done|]. by eapply list_elem_of_lookup_2.
  - apply list_find_None in Hf. intros [= <- <- <-]. split; [|done].
    intros (f & Hty & Hin)%list_elem_of_bind. by eapply Forall_forall in Hf.
Qed.

Lemma stop_and_destroy_services {E} (e : E) circuit service (o : orchestrator) w :
  (stop_and_destroy e circuit service (o, w)).2.1 = o.
Proof.
  unfold stop_and_destroy, on_service, on_world, mbind, eff_bind. cbn.
  destruct (service_stop circuit (service, w)) as [[] [service' w']]; cbn; [|done].
  by destruct (service_destroy service' w').
Qed.

(** A known service is removed, also when it cannot be stopped. *)
Lemma orchestrator_shutdown_services def (o : orchestrator) w :
  (orchestrator_shutdown def (o, w)).2.1 = set_services (delete def) o.
Proof.
  unfold orchestrator_shutdown, get, mbind, eff_bind, modify, throw. cbn.
  destruct (so_services o !! def) as [service|] eqn:Hdef; cbn.
  - apply stop_and_destroy_services.
  - destruct o as [m]. unfold set_services. cbn in *. by rewrite delete_id.
Qed.

Lemma orchestrator_shutdown_unknown def (o : orchestrator) w :
  so_services o !! def = None → orchestrator_shutdown def (o, w) = (Err UnknownService, (o, w)).
Proof. intros H. unfold orchestrator_shutdown, get, mbind, eff_bind. cbn. by rewrite H. Qed.

Lemma destroy_all_services l (o : orchestrator) w : (destroy_all l (o, w)).2.1 = o.
Proof.
  revert w. induction l as [|[def service] l IH]; intros w; [done|]. cbn. unfold mbind, eff_bind.
  pose proof (stop_and_destroy_services OrchestratorInternal (os_circuit def) service o w) as H.
  destruct (stop_and_destroy _ _ _ (o, w)) as [[] [o1 w1]]; cbn in *; by subst o1.
Qed.
Lemma orchestrator_destroy_services (o : orchestrator) w :
  (orchestrator_destroy (o, w)).2.1 = set_services (λ _, ∅) o.
Proof. apply destroy_all_services. Qed.

(** The list is the set of the services that run, each once, filtered. *)
Lemma list_services_spec circuits types (o : orchestrator) :
  NoDup (list_services circuits types o) ∧
  ∀ def, def ∈ list_services circuits types o ↔
    def ∈ running o ∧ (circuits = [] ∨ os_circuit def ∈ circuits) ∧ (types = [] ∨ os_service_type def ∈ types).
Proof.
  unfold list_services. split.
  - apply NoDup_filter, NoDup_fst_map_to_list.
  - intros def. rewrite list_elem_of_filter, elem_of_dom, list_elem_of_fmap. split.
    + intros [? ([d s] & -> & Hin%elem_of_map_to_list)]. cbn. split; [by eexists|done].
    + intros [[s Hs] ?]. split; [done|]. exists (def, s). split; [done|]. by apply elem_of_map_to_list.
Qed.

(** ** Messages *)

Definition is_service (circuit service_id : string) (def : OrchestratorService) : Prop :=
  os_circuit def = circuit ∧ os_service_id def = service_id.

Lemma find_service_spec circuit service_id (o : orchestrator) :
  match find_service circuit service_id o with
  | Some (def, service) => so_services o !! def = Some service ∧ is_service circuit service_id def
  | None => ∀ def, def ∈ running o → ¬ is_service circuit service_id def
  end.
Proof.
  unfold find_service.
  match goal with |- context [@list_find ?A ?P ?H ?l] => destruct (@list_find A P H l) as [[i [def s]]|] eqn:Hf end; cbn.
  - apply list_find_Some in Hf as (Hi & Hdef & _). split; [|done].
    by apply elem_of_map_to_list, list_elem_of_lookup_2 with i.
  - apply list_find_None in Hf. intros def [s Hs%elem_of_map_to_list]%elem_of_dom.
    by eapply Forall_forall in Hf; [|done].
Qed.

(** With one service of that id on the circuit, it is found. *)
Lemma find_service_unique circuit service_id (o : orchestrator) def service :
  so_services o !! def = Some service → is_service circuit service_id def →
  (∀ def', def' ∈ running o → is_service circuit service_id def' → def' = def) →
  find_service circuit service_id o = Some (def, service).
Proof.
  intros Hdef His Huniq. pose proof (find_service_spec circuit service_id o) as H.
  destruct (find_service circuit service_id o) as [[def' service']|].
  - destruct H as [Hl H']. apply Huniq in H' as ->; [by simplify_eq|]. by eapply elem_of_dom_2.
  - exfalso. by eapply H; [eapply elem_of_dom_2|].
Qed.

Lemma deliver_services circuit recipient payload ctx (o : orchestrator) w r o' w' :
  deliver circuit recipient payload ctx (o, w) = (r, (o', w')) →
  running o' = running o ∧
  ∀ def, so_services o' !! def ≠ so_services o !! def → is_service circuit recipient def.
Proof.
  unfold deliver. pose proof (find_service_spec circuit recipient o) as H.
  destruct (find_service circuit recipient o) as [[def service]|]; [|by intros [= <- <- <-]].
  destruct H as [Hl His]. destruct (service_handle_message _ _ _) as [x [service' w1]].
  intros [= <- <- <-]. cbn. split.
  - rewrite dom_insert_L. assert (def ∈ dom (so_services o)) by (by eapply elem_of_dom_2). set_solver.
  - intros def' Hne. destruct (decide (def = def')) as [<-|]; [done|]. by rewrite lookup_insert_ne in Hne.
Qed.

Lemma inbound_services `{!Codec CircuitDirectMessage, !Codec AdminDirectMessage} ty b (o : orchestrator) w r o' w' :
  orchestrator_handle_inbound ty b (o, w) = (r, (o', w')) → running o' = running o.
Proof.
  destruct ty; cbn; try (by intros [= <- <- <-]); unfold mbind, eff_bind, lift; cbn;
    (case_match; cbn; [|by intros [= <- <- <-]]); by intros [? _]%deliver_services.
Qed.
End orchestrator_props.

(** ** The admin service and the orchestrator *)

Section agreement.
Context {Sub D S W : Type} `{!Service S W, !Codec CircuitDirectMessage, !Codec AdminDirectMessage}.

Abbreviation node := (Admin Sub D (ServiceOrchestrator S W * W)).
Abbreviation node_eff := (eff (Admin Sub D (ServiceOrchestrator S W * W)) AdminSharedError).

(** The services on the list of the admin service are those the orchestrator has. *)
Definition agree (s : node) : Prop :=
  running_services (shared s) = dom (so_services (world s).1).

(** What changes the services of a node: a circuit is initialized, the node restarts
    or stops, or the orchestrator has a message for one of them. *)
Inductive lifecycle_op :=
  | OpInitialize (c : Proto.Circuit)
  | OpRestart
  | OpStop
  | OpMessage (ty : CircuitMessageType) (b : bytes).

Definition lifecycle (op : lifecycle_op) : node_eff () :=
  match op with
  | OpInitialize c => initialize_services c
  | OpRestart => restart_services
  | OpStop => stop_services
  | OpMessage ty b => in_world (catch_log (orchestrator_handle_inbound ty b))
  end.
Definition lifecycle_run (ops : list lifecycle_op) (s : node) : node :=
  foldl (λ s op, (lifecycle op s).2) s ops.

Lemma start_services_agree circuit_id l :
  ∀ s : node, agree s → wp (start_services circuit_id l) (λ _, agree) s.
Proof.
  induction l as [|sd l IH]; intros s Hs; [done|]. cbn [start_services].
  apply wp_bind, wp_emap_err. unfold wp, in_world. cbn.
  destruct (world s) as [o w] eqn:Hw. unfold emap_err.
  set (def := mkOrchestratorService _ _ _).
  destruct (orchestrator_initialize def (sd_arguments sd) (o, w)) as [r [o' w']] eqn:Hi.
  apply orchestrator_initialize_spec in Hi. unfold agree in Hs. rewrite Hw in Hs. cbn in Hs.
  destruct r as [[]|[]]; cbn in *.
  - destruct Hi as [_ [service ->]]. apply wp_bind. unfold on_shared. cbn. apply IH. unfold agree. cbn.
    by rewrite dom_insert_L, Hs.
  - unfold agree. cbn. by subst o'.
  - unfold agree. cbn. destruct Hi as (_ & -> & _). done.
Qed.

Lemma restart_circuits_agree l : ∀ s : node, agree s → wp (restart_circuits l) (λ _, agree) s.
Proof.
  induction l as [|[name c] l IH]; intros s Hs; [done|]. cbn [restart_circuits].
  apply wp_bind. cbn. apply wp_bind. eapply wp_mono; [by apply start_services_agree|].
  intros [] s' Hs'; [by apply IH|done].
Qed.

Lemma shutdown_all_removes l failed :
  ∀ s : node, wp (shutdown_all l failed) (λ r s',
    is_ok r = true ∧ shared s' = shared s ∧
    (dom (so_services (world s').1) : gset _) = dom (so_services (world s).1) ∖ list_to_set l) s.
Proof.
  revert failed. induction l as [|def l IH]; intros failed s; cbn [shutdown_all].
  - unfold wp. cbn. split_and!; [done..|]. set_solver.
  - apply wp_bind, wp_attempt. unfold wp at 1, in_world. cbn. destruct (world s) as [o w] eqn:Hw.
    unfold emap_err. pose proof (orchestrator_shutdown_services def o w) as Ho.
    destruct (orchestrator_shutdown def (o, w)) as [r [o' w']]. cbn in Ho |- *. subst o'.
    eapply wp_mono; [apply IH|]. intros r' s' (? & -> & Hdom). split_and!; [done..|].
    rewrite Hdom. cbn. rewrite dom_delete_L. set_solver.
Qed.

Lemma stop_services_agree (s : node) :
  agree s → wp stop_services (λ _ s', agree s' ∧ so_services (world s').1 = ∅) s.
Proof.
  intros Hs. unfold stop_services. apply wp_bind. cbn. apply wp_bind.
  eapply wp_mono; [apply shutdown_all_removes|]. intros [failed|] s' (? & Hsh & Hdom); [|done].
  rewrite list_to_set_elements_L, Hs in Hdom.
  assert (dom (so_services (world s').1) =@{gset _} ∅) as He by (rewrite Hdom; set_solver).
  apply wp_bind, wp_modify. unfold agree.
  destruct failed; unfold wp; cbn; rewrite He; (split; [done|]); by apply dom_empty_iff_L in He.
Qed.

Lemma in_message_agree ty b (s : node) : agree s → agree (lifecycle (OpMessage ty b) s).2.
Proof.
  unfold agree, lifecycle, in_world, catch_log. destruct (world s) as [o w]. cbn.
  destruct (orchestrator_handle_inbound ty b (o, w)) as [r [o' w']] eqn:Hm. cbn. intros ->.
  symmetry. apply (inbound_services _ _ _ _ _ _ _ Hm).
Qed.

(** C18: the admin service and the orchestrator agree on the services that run on a
    node.  However circuits are initialized, the node is restarted and stopped, and
    messages come in, and whichever of these fail on the way because a service
    cannot be created, started, stopped or cannot handle its message, the list of the
    admin service names exactly the services the orchestrator holds; and once the
    services were stopped the orchestrator holds none. *)
Theorem running_services_agree ops (s : node) :
  agree s →
  agree (lifecycle_run ops s) ∧
  so_services (world (lifecycle_run (ops ++ [OpStop]) s)).1 = ∅.
Proof.
  intros Hs. assert (agree (lifecycle_run ops s)) as H.
  { revert s Hs. induction ops as [|op ops IH]; intros s Hs; [done|]. apply IH. destruct op.
    - by apply wp_state, start_services_agree.
    - by apply wp_state, restart_circuits_agree.
    - eapply (wp_state (λ s', agree s')), wp_mono; [by apply stop_services_agree|]. by intros ? ? [? _].
    - by apply in_message_agree. }
  split; [done|]. unfold lifecycle_run. rewrite foldl_snoc.
  eapply (wp_state (λ s', so_services (world s').1 = ∅)), wp_mono; [by apply stop_services_agree|].
  by intros ? ? [_ ?].
Qed.
End agreement.
