(* ===== verification/ServiceDelivery.v ===== *)
(** * Messages between services

    The senders of [service/sender.rs], the nodes on the way, and the receiving
    ends ([processor.rs] and [orchestrator/mod.rs]) together: a message sent by a
    service is handled by the service it names, and the reply to a request is what
    the request gets. *)

From S2P Require Import Prelude Network Circuit Dispatch CircuitHandlers CircuitRouting Auth Reply.
From S2P Require Import Services ServiceProcessor AdminMessages AdminShared AdminCommit.
From S2P Require Import ServiceOrchestrator OrchestratorProps.
From Stdlib Require Import Lia.

Section delivery.
Context `{!Codec CircuitMessage, !Codec NetworkMessage, !Codec CircuitDirectMessage,
  !Codec AdminDirectMessage, !Codec ServiceConnectResponse, !Codec ServiceDisconnectResponse,
  !Codec CircuitError}.
Context `{!CodecLaws CircuitMessage, !CodecLaws NetworkMessage, !CodecLaws CircuitDirectMessage,
  !CodecLaws AdminDirectMessage}.

(** ** What is on the wire *)

Lemma network_envelope_open payload ty b :
  network_envelope payload ty = Some b → open_envelope b = Some (mkCircuitMessage ty payload).
Proof.
  unfold network_envelope, open_envelope. intros (c & Hc & Hb)%bind_Some.
  erewrite parse_write by done. cbn. by apply parse_write.
Qed.

(** The direct message that a circuit message carries. *)
Definition direct_of (cm : CircuitMessage) : option ServiceMessage :=
  match cm_message_type cm with
  | ADMIN_DIRECT_MESSAGE => SvcAdminDirectMessage <$> parse_from_bytes (cm_payload cm)
  | CIRCUIT_DIRECT_MESSAGE => SvcCircuitDirectMessage <$> parse_from_bytes (cm_payload cm)
  | _ => None
  end.
Definition carries (b : bytes) (m : ServiceMessage) : Prop := open_envelope b ≫= direct_of = Some m.

Definition message_recipient (m : ServiceMessage) : string :=
  match m with SvcAdminDirectMessage m => adm_recipient m | SvcCircuitDirectMessage m => cdm_recipient m end.
Definition message_payload (m : ServiceMessage) : bytes := (message_context m).1.
Definition message_origin (m : ServiceMessage) : ServiceMessageContext := (message_context m).2.

(** The direct message of a sender. *)
Definition sender_message (s : NetworkSender) (circuit recipient : string) (payload : bytes)
    (correlation_id : string) : ServiceMessage :=
  match s with
  | AdminNetworkSender me =>
      SvcAdminDirectMessage (mkAdminDirectMessage circuit me recipient payload correlation_id)
  | StandardNetworkSender _ me =>
      SvcCircuitDirectMessage (mkCircuitDirectMessage circuit me recipient payload correlation_id)
  end.

Lemma direct_message_carries s circuit recipient payload id b :
  direct_message s circuit recipient payload id = Some b →
  carries b (sender_message s circuit recipient payload id).
Proof.
  destruct s; cbn; intros (p & Hp & Hb%network_envelope_open)%bind_Some;
    unfold carries, direct_of; rewrite Hb; cbn; by erewrite parse_write.
Qed.

(** ** The nodes on the way *)

(** A node forwards a direct message ([direct_message.rs]) or an admin message
    ([admin_message.rs]). *)
Inductive hop : bytes → bytes → Prop :=
  | hop_direct {W} node_id state msg (ctx : MessageContext CircuitMessageType)
      (s s' : SplinterState * W) b b' peer :
      open_envelope b = Some (mkCircuitMessage CIRCUIT_DIRECT_MESSAGE (message_bytes ctx)) →
      parse_from_bytes (message_bytes ctx) = Some msg →
      services_ok node_id state → routable msg state = true →
      direct_message_response node_id msg ctx state s = (Ok (Some (b', peer)), s') →
      hop b b'
  | hop_admin {W} node_id msg (ctx : MessageContext CircuitMessageType)
      (s s' : SplinterState * W) b b' peer :
      open_envelope b = Some (mkCircuitMessage ADMIN_DIRECT_MESSAGE (message_bytes ctx)) →
      parse_from_bytes (message_bytes ctx) = Some msg →
      is_admin_service_id (adm_sender msg) = true → is_admin_service_id (adm_recipient msg) = true →
      is_Some (circuit (adm_circuit msg) s.1) →
      create_response node_id msg ctx s = (Ok (b', peer), s') →
      hop b b'.

Lemma hop_envelope b b' : hop b b' → open_envelope b' = open_envelope b.
Proof.
  intros [W node_id state msg ctx s s' b1 b1' peer Hopen _ Hok Hr H
         |W node_id msg ctx s s' b1 b1' peer Hopen _ Hs Hr [c Hc] H]; rewrite Hopen.
  - apply direct_message_forward in H as [_ (b2 & p2 & svc & [= <- <-] & Hb & _)]; done.
  - revert H. unfold create_response. rewrite Hs, Hr. cbn [negb].
    intros (st & s1 & [= <- <-] & H)%eff_bind_inv. rewrite Hc in H.
    apply eff_bind_inv in H as (b2 & s2 & [-> Hb]%create_message_inv & [= <- _ _]). done.
Qed.

Lemma hops_carry b b' m : rtc hop b b' → carries b m → carries b' m.
Proof. induction 1 as [|b1 b2 b3 H _ IH]; [done|]. intros Hm. apply IH. unfold carries. by rewrite (hop_envelope _ _ H). Qed.

(** ** The receiving end *)

Lemma open_envelope_inv b cm :
  open_envelope b = Some cm →
  ∃ nm, parse_from_bytes b = Some nm ∧ nm_message_type nm = CIRCUIT ∧ parse_from_bytes (nm_payload nm) = Some cm.
Proof. unfold open_envelope. intros (nm & Hnm & H)%bind_Some. case_bool_decide; [by exists nm|done]. Qed.

Lemma direct_of_correlation cm m :
  direct_of cm = Some m →
  ∃ context, correlation_id (cm_message_type cm) (cm_payload cm) =
    Some (context, Some (smc_correlation_id (message_origin m))).
Proof.
  unfold direct_of, correlation_id. destruct (cm_message_type cm); try done;
    intros (x & Hx & ->)%fmap_Some; rewrite Hx; by eexists.
Qed.

Section incoming.
Context {V : Type} `{!Sender V (MessageResult CircuitMessageType)}.

(** Both the processor and the orchestrator route a direct message by its
    correlation id. *)
Lemma processor_routes b m (s : InboundRouter CircuitMessageType * V) :
  carries b m →
  ∃ cm, direct_of cm = Some m ∧
    process_incoming_msg b s =
    emap_err (λ _, ProcessError "unable to route message")
      (route (smc_correlation_id (message_origin m)) (Ok (cm_message_type cm, cm_payload cm))) s.
Proof.
  intros (cm & (nm & Hnm & Hty & Hcm)%open_envelope_inv & Hm)%bind_Some. exists cm. split; [done|].
  destruct (direct_of_correlation _ _ Hm) as [context Hid].
  unfold process_incoming_msg, mbind, eff_bind, lift. rewrite Hnm. cbn. rewrite Hty. cbn.
  unfold mbind, eff_bind. rewrite Hcm. cbn. by rewrite Hid.
Qed.
Lemma orchestrator_routes b m (s : InboundRouter CircuitMessageType * V) :
  carries b m →
  ∃ cm, direct_of cm = Some m ∧
    orchestrator_handle_incoming b s =
    emap_err (λ _, OrchestratorInternal)
      (route (smc_correlation_id (message_origin m)) (Ok (cm_message_type cm, cm_payload cm))) s.
Proof.
  intros (cm & (nm & Hnm & Hty & Hcm)%open_envelope_inv & Hm)%bind_Some. exists cm. split; [done|].
  destruct (direct_of_correlation _ _ Hm) as [context Hid].
  unfold orchestrator_handle_incoming, mbind, eff_bind, lift. rewrite Hnm. cbn. rewrite Hty. cbn.
  unfold mbind, eff_bind. rewrite Hcm. cbn. by rewrite Hid.
Qed.

(** The orchestrator hands a message from its inbound channel to its recipient. *)
Lemma inbound_delivers {S W} `{!Service S W} cm m (s : ServiceOrchestrator S W * W) :
  direct_of cm = Some m →
  orchestrator_handle_inbound (cm_message_type cm) (cm_payload cm) s =
  deliver (smc_circuit (message_origin m)) (message_recipient m) (message_payload m) (message_origin m) s.
Proof.
  unfold direct_of, orchestrator_handle_inbound. destruct (cm_message_type cm); try done;
    intros (x & Hx & ->)%fmap_Some; unfold mbind, eff_bind, lift; by rewrite Hx.
Qed.
End incoming.

(** ** A message is handled by its recipient *)

Definition sender_name (s : NetworkSender) : string :=
  match s with AdminNetworkSender me => me | StandardNetworkSender _ me => me end.

Lemma sender_message_origin s circuit recipient payload id :
  message_context (sender_message s circuit recipient payload id) =
    (payload, mkServiceMessageContext (sender_name s) circuit id) ∧
  message_recipient (sender_message s circuit recipient payload id) = recipient.
Proof. by destruct s. Qed.

(** C7: a message is handled by the service it was sent to.  What a service sends
    with its sender, forwarded any number of times by nodes that have the two
    services in their circuit, is put by the orchestrator that gets it on its
    inbound channel, unless someone waits for a reply under its id; and taken from
    there it is handled by the service with the recipient's id on the sender's
    circuit, which is told the payload, the sender, the circuit and the id as they
    were given to the sender. *)
Theorem message_delivered {V S W} `{!Sender V (MessageResult CircuitMessageType), !Service S W}
    s recipient payload id b b' (r : InboundRouter CircuitMessageType) (v : V)
    (o : ServiceOrchestrator S W) w def service :
  direct_message s (sender_circuit s) recipient payload id = Some b →
  rtc hop b b' →
  rt_expected r !! id = None →
  so_services o !! def = Some service →
  is_service (sender_circuit s) recipient def →
  (∀ def', is_Some (so_services o !! def') → is_service (sender_circuit s) recipient def' → def' = def) →
  ∃ ty p,
    orchestrator_handle_incoming b' (r, v) =
      (let '(x, v) := send (Ok (ty, p) : MessageResult CircuitMessageType) v in
       (map_err (λ _, OrchestratorInternal) x, (r, v))) ∧
    orchestrator_handle_inbound ty p (o, w) =
      (let '(x, (service, w)) := service_handle_message payload
         (mkServiceMessageContext (sender_name s) (sender_circuit s) id) (service, w) in
       (map_err (λ _, OrchestratorInternal) x, (set_services <[def := service]> o, w))).
Proof.
  intros Hb%direct_message_carries Hhops Hid Hdef His Huniq.
  apply (hops_carry _ _ _ Hhops) in Hb. destruct (orchestrator_routes _ _ (r, v) Hb) as (cm & Hcm & Hin).
  destruct (sender_message_origin s (sender_circuit s) recipient payload id) as [Hctx Hrec].
  exists (cm_message_type cm), (cm_payload cm). split.
  - rewrite Hin. unfold message_origin, emap_err. rewrite Hctx. cbn [snd smc_correlation_id].
    rewrite route_default by done. by destruct (send _ v) as [[]].
  - rewrite (inbound_delivers _ _ _ Hcm). unfold message_origin, message_payload. rewrite Hctx, Hrec.
    cbn [fst snd smc_circuit]. unfold deliver. by rewrite (find_service_unique _ _ _ def service) by (done || intros ? [??]%elem_of_dom; eauto).
Qed.

(** ** A request gets its reply *)

Section requests.
Context {W : Type} `{!Sender W bytes, !Sender W (MessageResult CircuitMessageType)}.

Abbreviation routed := (InboundRouter CircuitMessageType * W)%type.

(** What happens to the router of a process: a message comes in, another request is
    made, a future is read or dropped. *)
Inductive router_event :=
  | EvIncoming (b : bytes)
  | EvRequest (uuid : string) (b : bytes)
  | EvGet (f : MessageFuture CircuitMessageType)
  | EvDrop (f : MessageFuture CircuitMessageType).

Definition router_step (s : routed) (ev : router_event) : routed :=
  match ev with
  | EvIncoming b => (process_incoming_msg b s).2
  | EvRequest uuid b => (send_expecting uuid b s).2
  | EvGet f => (future_get (M:=CircuitDirectMessage) f s).2
  | EvDrop f => (drop_future (E:=()) f s).2
  end.
Definition router_run (s : routed) (evs : list router_event) : routed := foldl router_step s evs.

(** The correlation id under which a message that came in is routed. *)
Definition incoming_id (b : bytes) : option string :=
  cm ← open_envelope b;
  p ← correlation_id (cm_message_type cm) (cm_payload cm);
  p.2.

(** An event that is about the request [c], which waits on the channel [ch]. *)
Definition concerns (c : string) (ch : nat) (ev : router_event) : Prop :=
  match ev with
  | EvIncoming b => incoming_id b = Some c
  | EvRequest uuid _ => uuid = c
  | EvGet f | EvDrop f => mf_inner f = ch
  end.

Lemma emap_err_state {X E E' A} (f : E → E') (m : eff X E A) s : (emap_err f m s).2 = (m s).2.
Proof. unfold emap_err. by destruct (m s). Qed.

Lemma process_incoming_state b (s : routed) :
  (process_incoming_msg b s).2 = s ∨
  ∃ id m, incoming_id b = Some id ∧ (process_incoming_msg b s).2 = (route id (Ok m) s).2.
Proof.
  unfold process_incoming_msg, incoming_id, open_envelope, mbind, eff_bind, option_bind, lift.
  destruct (parse_from_bytes b) as [nm|]; cbn; [|by left].
  destruct (nm_message_type nm); cbn; try (by left). unfold mbind, eff_bind.
  destruct (parse_from_bytes (nm_payload nm)) as [cm|]; cbn; [|by left].
  destruct (correlation_id _ _) as [[context [id|]]|] eqn:Hid; cbn; [|by left..]. right.
  exists id, (cm_message_type cm, cm_payload cm). split; [rewrite bool_decide_eq_true_2 by done; cbn; by rewrite Hid|]. apply emap_err_state.
Qed.

Lemma router_step_holds c ch q ev (s : routed) :
  holds c ch q s.1 → ¬ concerns c ch ev → holds c ch q (router_step s ev).1.
Proof.
  destruct s as [r w]. intros Hr Hev. destruct ev as [b|uuid b|f|f]; cbn [concerns router_step] in *.
  - destruct (process_incoming_state b (r, w)) as [->|(id & m & Hid & ->)]; [done|].
    destruct (route id (Ok m) (r, w)) as [x [r' w']] eqn:Hroute. eapply route_other; [exact Hroute|congruence|done].
  - unfold send_expecting, mbind, eff_bind.
    destruct (expect_reply uuid (r, w)) as [[f|e] [r1 w1]] eqn:He; [|discriminate He].
    destruct (expect_reply_other c ch q _ _ _ _ _ _ He Hev Hr) as [Hr1 Hf].
    unfold attempt, outgoing_send. destruct (send b w1) as [[[]|e] w2]; cbn; [done|].
    eapply (drop_future_other (E:=()) c ch q f r1 w2); [reflexivity|done..].
  - destruct (future_get (M:=CircuitDirectMessage) f (r, w)) as [x [r' w']] eqn:Hg. exact (future_get_other (M:=CircuitDirectMessage) _ _ _ _ _ _ _ _ _ Hg Hev Hr).
  - eapply (drop_future_other (E:=()) c ch q f r w); [reflexivity|done..].
Qed.

Lemma router_run_holds c ch q evs (s : routed) :
  holds c ch q s.1 → Forall (λ ev, ¬ concerns c ch ev) evs → holds c ch q (router_run s evs).1.
Proof.
  intros Hs Hevs. revert s Hs. induction Hevs as [|ev evs Hev _ IH]; intros s Hs; [done|].
  by apply IH, router_step_holds.
Qed.

(** Two senders of the same kind. *)
Definition same_kind (s s' : NetworkSender) : Prop :=
  match s, s' with
  | AdminNetworkSender _, AdminNetworkSender _ | StandardNetworkSender _ _, StandardNetworkSender _ _ => True
  | _, _ => False
  end.

Lemma sender_request_inv s uuid recipient payload (r r1 : InboundRouter CircuitMessageType) (w w1 : W) f :
  sender_request s uuid recipient payload (r, w) = (Ok f, (r1, w1)) → router_ok r →
  (∃ b, direct_message s (sender_circuit s) recipient payload uuid = Some b ∧ send b w = (Ok (), w1)) ∧
  f = mkMessageFuture (mf_inner f) None ∧ holds uuid (mf_inner f) [] r1.
Proof.
  unfold sender_request. intros (b & s1 & Hb & H)%eff_bind_inv Hr. unfold lift in Hb.
  destruct (direct_message _ _ _ _ _) as [b'|]; cbn in Hb; [|done]. injection Hb as <- <-.
  unfold emap_err, send_expecting, mbind, eff_bind in H.
  destruct (expect_reply uuid (r, w)) as [[f'|e] [r2 w2]] eqn:He; [|discriminate He].
  destruct (expect_reply_holds _ _ _ _ _ _ He Hr) as (Hf & -> & Hh).
  unfold attempt, outgoing_send in H. destruct (send b' w) as [[[]|e] w3] eqn:Hs; cbn in H; simplify_eq.
  split_and!; [by exists b'|done..].
Qed.

Lemma sender_await_reply s s' circuit recipient payload cm ch c r (w : W) :
  same_kind s s' →
  direct_of cm = Some (sender_message s' circuit recipient payload c) →
  holds c ch [Ok (cm_message_type cm, cm_payload cm)] r →
  (sender_await s (mkMessageFuture ch None) (r, w)).1 = Ok (Some payload).
Proof.
  intros Hk Hcm Hr. pose proof (holds_channel _ _ _ _ Hr) as Hq. unfold direct_of in Hcm.
  unfold sender_await, future_get, emap_err, mbind, eff_bind. cbn [mf_result mf_inner].
  destruct s, s'; try done; rewrite Hq; cbn;
    (destruct (cm_message_type cm); try done); apply fmap_Some in Hcm as (x & Hx & [= <-]); by rewrite Hx.
Qed.

(** C16: a request gets its reply.  When a request was sent, and the service that it
    reached, over any number of nodes, replied to what it was told was the sender,
    then the wait gives the payload of the reply: whatever else the process receives,
    requests, reads and drops between the request and the reply and between the reply
    and the wait, as long as it is not about this request. *)
Theorem request_reply s s' uuid recipient payload reply (r : InboundRouter CircuitMessageType) (w : W)
    f st evs1 evs2 b b' c c' m :
  router_ok r →
  sender_request s uuid recipient payload (r, w) = (Ok f, st) →
  direct_message s (sender_circuit s) recipient payload uuid = Some b → rtc hop b b' →
  carries b' m → same_kind s s' →
  direct_message s' (smc_circuit (message_origin m)) (smc_sender (message_origin m)) reply
    (smc_correlation_id (message_origin m)) = Some c → rtc hop c c' →
  Forall (λ ev, ¬ concerns uuid (mf_inner f) ev) (evs1 ++ evs2) →
  message_payload m = payload ∧ smc_sender (message_origin m) = sender_name s ∧
  message_recipient m = recipient ∧
  (sender_await s f (router_run st (evs1 ++ EvIncoming c' :: evs2))).1 = Ok (Some reply).
Proof.
  intros Hr Hreq Hb%direct_message_carries Hhops Hm Hk Hc%direct_message_carries Hhops' [Hevs1 Hevs2]%Forall_app.
  destruct st as [r1 w1]. destruct (sender_request_inv _ _ _ _ _ _ _ _ _ Hreq Hr) as (_ & -> & Hholds).
  apply (hops_carry _ _ _ Hhops) in Hb. apply (hops_carry _ _ _ Hhops') in Hc.
  assert (m = sender_message s (sender_circuit s) recipient payload uuid) as -> by (unfold carries in *; congruence).
  destruct (sender_message_origin s (sender_circuit s) recipient payload uuid) as [Hctx Hrec].
  unfold message_origin, message_payload in *. rewrite Hctx in *. cbn [fst snd smc_circuit smc_sender smc_correlation_id] in *.
  split_and!; [done..|]. unfold router_run. rewrite foldl_app. cbn [foldl mf_inner] in *.
  apply (router_run_holds _ _ [] _ (r1, w1)) in Hevs1; [|done]. unfold router_run in Hevs1.
  destruct (foldl router_step (r1, w1) evs1) as [r2 w2]. cbn [fst] in Hevs1.
  cbn [router_step]. destruct (processor_routes _ _ (r2, w2) Hc) as (cm & Hcm & ->).
  destruct (sender_message_origin s' (sender_circuit s) (sender_name s) reply uuid) as [Hctx' _].
  unfold message_origin. rewrite Hctx'. cbn [snd smc_correlation_id]. rewrite emap_err_state.
  destruct (route_holds uuid _ (cm_message_type cm, cm_payload cm) r2 w2 Hevs1) as (r3 & -> & Hr3).
  apply (router_run_holds _ _ _ _ (r3, w2) Hr3) in Hevs2. unfold router_run in Hevs2. cbn [snd].
  destruct (foldl router_step (r3, w2) evs2) as [r4 w4]. by eapply sender_await_reply.
Qed.
End requests.
End delivery.
