(* ===== verification/ServiceExample.v ===== *)
(** * Concrete services

    A service that keeps the messages it handles, on a node with an orchestrator, as
    an instance of the theorems on services and their messages. *)

From S2P Require Import Prelude Network Circuit Dispatch CircuitHandlers CircuitRouting Auth Reply.
From S2P Require Import Services ServiceProcessor AdminMessages OpenProposals AdminShared.
From S2P Require Import AdminCommit ServiceOrchestrator OrchestratorProps ServiceDelivery.

Module ServiceMock.
Export HandlersMock.

(** A service is its id and what it handled; it does not start on the circuit
    ["closed"], does not stop on ["stuck"] and does not handle the empty message. *)
Definition mock : Type := string * list (bytes * ServiceMessageContext).

#[export] Instance mock_service : Service mock () := {|
  service_id := fst;
  service_start circuit s := (if decide (circuit = "closed") then Err StartFailed else Ok (), s);
  service_stop circuit s := (if decide (circuit = "stuck") then Err StopFailed else Ok (), s);
  service_destroy _ := mret ();
  service_handle_message b ctx s :=
    (if decide (b = "") then Err InvalidMessage else Ok (), ((s.1.1, s.1.2 ++ [(b, ctx)]), s.2));
|}.

Definition mock_factory : ServiceFactory mock () :=
  mkServiceFactory ["scabbard"] (λ service_id _ _ _, mret (service_id, [])).

(** The channels keep what was sent. *)
Definition channels : Type := list bytes * list (MessageResult CircuitMessageType).
#[export] Instance bytes_channel : Sender channels bytes := λ b w, (Ok (), (w.1 ++ [b], w.2)).
#[export] Instance inbound_channel : Sender channels (MessageResult CircuitMessageType) :=
  λ m w, (Ok (), (w.1, w.2 ++ [m])).
End ServiceMock.

Section service_witness.
Import ServiceMock.

Definition circuit_named (name : string) : Proto.Circuit :=
  Proto.mkCircuit name [Proto.mkSplinterService "abc" "scabbard" ["n1"] []] [] Proto.TRUST_AUTHORIZATION
    Proto.ANY_PERSISTENCE Proto.NO_DURABILITY Proto.ANY_ROUTE "m" "".
Definition empty_node : Admin () () (ServiceOrchestrator mock () * ()) :=
  mkAdmin (mkAdminServiceShared "n1" (mkOpenProposals "memory" ∅) ∅ ∅ true [] [] ∅ None [] ∅ [])
    (splinter_state_new "memory" Directory.new) () (orchestrator_new [mock_factory], ()).

(** A circuit whose service does not start, and one whose service does not stop. *)
Definition lifecycle_ops : list lifecycle_op :=
  [OpInitialize (circuit_named "alpha"); OpInitialize (circuit_named "closed");
   OpInitialize (circuit_named "stuck"); OpMessage CIRCUIT_DIRECT_MESSAGE "?"].

Lemma running_services_agree_witness :
  agree (lifecycle_run lifecycle_ops empty_node) ∧
  size (so_services (world (lifecycle_run lifecycle_ops empty_node)).1) = 2 ∧
  so_services (world (lifecycle_run (lifecycle_ops ++ [OpStop]) empty_node)).1 = ∅.
Proof.
  assert (agree empty_node) as H by done.
  destruct (running_services_agree lifecycle_ops empty_node H) as [H1 H2].
  split; [exact H1|]. split; [by vm_compute|exact H2].
Defined.

(** [abc] sends to [def], over the node [n1]. *)
Definition abc_sender : NetworkSender := StandardNetworkSender "alpha" "abc".
Definition def_sender : NetworkSender := StandardNetworkSender "alpha" "def".
Definition raw : bytes := default "" (write_to_bytes direct).
Definition sent : bytes := default "" (direct_message abc_sender "alpha" "def" "hello" "1").

Lemma default_Some {A} (x : A) o : bool_decide (is_Some o) = true → o = Some (default x o).
Proof. rewrite bool_decide_eq_true. by intros [y ->]. Qed.

Lemma raw_eq : write_to_bytes direct = Some raw.
Proof. apply default_Some. by vm_compute. Qed.
Lemma sent_eq : direct_message abc_sender "alpha" "def" "hello" "1" = Some sent.
Proof. apply default_Some. by vm_compute. Qed.
Lemma sent_open : open_envelope sent = Some (mkCircuitMessage CIRCUIT_DIRECT_MESSAGE raw).
Proof.
  pose proof sent_eq as H. unfold direct_message in H. cbn [abc_sender] in H.
  change (mkCircuitDirectMessage _ _ _ _ _) with direct in H. rewrite raw_eq in H.
  by apply network_envelope_open in H.
Qed.

Lemma sent_hop : ∃ b, rtc hop sent b.
Proof.
  destruct (direct_message_response "n1" direct (context raw) state2 (state2, ())) as [r s'] eqn:H.
  assert (is_ok (direct_message_response "n1" direct (context raw) state2 (state2, ())).1 = true) as Hok
    by (by vm_compute).
  rewrite H in Hok. destruct r as [r|]; [|discriminate Hok].
  assert (routable direct state2 = true) as Hr by (by vm_compute).
  pose proof (direct_message_forward _ _ _ _ _ _ _ state2_ok Hr H) as [_ (b & peer & svc & -> & _)].
  exists b. apply rtc_once. apply (hop_direct "n1" state2 direct (context raw) (state2, ()) s' sent b peer);
    [exact sent_open|apply parse_write, raw_eq|exact state2_ok|exact Hr|exact H].
Qed.

Definition def_service : OrchestratorService := mkOrchestratorService "alpha" "def" "scabbard".
Definition def_orchestrator : ServiceOrchestrator mock () :=
  mkServiceOrchestrator {[def_service := ("def", [])]} [mock_factory] ["scabbard"].

Lemma message_delivered_witness :
  ∃ b ty p, rtc hop sent b ∧
    (orchestrator_handle_incoming b (router_new, ([], []) : channels)).2.2 = ([], [Ok (ty, p)]) ∧
    so_services (orchestrator_handle_inbound ty p (def_orchestrator, ())).2.1 !! def_service =
      Some ("def", [("hello", mkServiceMessageContext "abc" "alpha" "1")]).
Proof.
  destruct sent_hop as [b Hb]. exists b.
  destruct (message_delivered abc_sender "def" "hello" "1" sent b router_new (([], []) : channels)
    def_orchestrator () def_service ("def", [])) as (ty & p & Hin & Hout).
  - exact sent_eq.
  - exact Hb.
  - reflexivity.
  - reflexivity.
  - done.
  - intros def' [x Hx] _. cbn in Hx. apply lookup_singleton_Some in Hx as [<- _]. done.
  - exists ty, p. rewrite Hin, Hout. done.
Defined.

(** [def] answers; meanwhile another message comes in, another request is made, and
    its future is read. *)
Definition reply_bytes : bytes := default "" (direct_message def_sender "alpha" "abc" "world" "1").
Definition other_bytes : bytes := default "" (direct_message def_sender "alpha" "abc" "other" "9").

Lemma other_id : incoming_id other_bytes = Some "9".
Proof.
  assert (direct_message def_sender "alpha" "abc" "other" "9" = Some other_bytes) as H
    by (apply default_Some; by vm_compute).
  apply direct_message_carries, bind_Some in H as (cm & Hcm & Hm). unfold incoming_id. rewrite Hcm. cbn.
  destruct (direct_of_correlation _ _ Hm) as [context ->]. done.
Qed.

Definition request_state := sender_request abc_sender "1" "def" "hello" (router_new, ([], []) : channels).

Lemma request_reply_witness :
  (sender_await abc_sender (mkMessageFuture 0 None)
     (router_run request_state.2 ([EvIncoming other_bytes; EvRequest "2" "x"] ++
        EvIncoming reply_bytes :: [EvGet (mkMessageFuture 1 None)]))).1 = Ok (Some "world").
Proof.
  destruct sent_hop as [b Hb].
  assert (request_state = (Ok (mkMessageFuture 0 None), request_state.2)) as Hreq.
  { rewrite (surjective_pairing request_state) at 1. f_equal. }
  assert (direct_message def_sender "alpha" "abc" "world" "1" = Some reply_bytes) as Hreply
    by (apply default_Some; by vm_compute).
  refine (proj2 (proj2 (proj2 (request_reply abc_sender def_sender "1" "def" "hello" "world" router_new
    (([], []) : channels) (mkMessageFuture 0 None) request_state.2
    [EvIncoming other_bytes; EvRequest "2" "x"] [EvGet (mkMessageFuture 1 None)] sent b reply_bytes reply_bytes
    (sender_message abc_sender "alpha" "def" "hello" "1")
    router_new_ok Hreq sent_eq Hb _ I Hreply (rtc_refl _ _) _)))).
  - apply (hops_carry _ _ _ Hb), direct_message_carries, sent_eq.
  - apply Forall_cons; split; [cbn [concerns]; rewrite other_id; congruence|].
    apply Forall_cons; split; [cbn; congruence|]. apply Forall_cons; split; [cbn; congruence|constructor].
Defined.
End service_witness.
