(* ===== verification/PeerConnector.v ===== *)
(** * Connecting to peers, and sending to them

    Models [libsplinter/src/network/peer.rs], which opens the connections of a node
    to other nodes, and [network/sender.rs], the thread that sends the messages of
    the handlers.  The mutex of the transport is never poisoned. *)

From S2P Require Import Prelude BiMap Network Circuit Dispatch CircuitHandlers Auth Transport.

(** ** [peer.rs] *)

(** [PeerConnectorError], with the node or endpoint of [ErrorInfo] *)
Inductive PeerConnectorError :=
  | ConnectionFailed (node_id : string)
  | AddPeerFailed (node_id : string).

Section connector.
Context {M T C L : Type} `{!Mesh M C} (transport : Transport T C L).
Context `{!Codec NetworkMessage, !Codec AuthorizationMessage, !Codec ConnectRequest}.

(** The network of the node, and what its transport acts on. *)
Abbreviation connector_eff := (eff (Network M * T) PeerConnectorError).

Definition on_network {E A} (f : E → PeerConnectorError) (m : eff (Network M) E A) : connector_eff A :=
  λ '(n, t), let '(r, n) := m n in (map_err f r, (n, t)).
Definition on_transport {E A} (f : E → PeerConnectorError) (m : eff T E A) : connector_eff A :=
  λ '(n, t), let '(r, t) := m t in (map_err f r, (n, t)).

Definition get_peer_by_endpoint (endpoint : string) : connector_eff (option string) := λ s,
  (Ok (Peers.get_peer_by_endpoint endpoint (net_peers s.1)), s).

(** [create_connect_request] *)
Definition create_connect_request : option bytes :=
  request ← write_to_bytes (mkConnectRequest BIDIRECTIONAL);
  b ← write_to_bytes (mkAuthorizationMessage CONNECT_REQUEST request);
  write_to_bytes (mkNetworkMessage AUTHORIZATION b).

(** [PeerConnector::connect_peer] *)
Definition connect_peer (node_id endpoint : string) : connector_eff () :=
  known ← get_peer_by_endpoint endpoint;
  if bool_decide (is_Some known) then mret () else
  connection ← on_transport (λ _, ConnectionFailed node_id) (connect transport endpoint);
  on_network (λ _, AddPeerFailed node_id) (Net.add_peer node_id connection);;
  request ← lift (ok_or (ConnectionFailed node_id) create_connect_request);
  on_network (λ _, ConnectionFailed node_id) (Net.send node_id request).

(** [PeerConnector::connect_unidentified_peer]; [uuid] is what [Uuid::new_v4] gives
    to [Network::add_connection]. *)
Definition connect_unidentified_peer (uuid endpoint : string) : connector_eff () :=
  known ← get_peer_by_endpoint endpoint;
  if bool_decide (is_Some known) then mret () else
  connection ← on_transport (λ _, ConnectionFailed endpoint) (connect transport endpoint);
  temp_peer_id ← on_network (λ _, AddPeerFailed endpoint) (Net.add_connection uuid connection);
  request ← lift (ok_or (ConnectionFailed endpoint) create_connect_request);
  on_network (λ _, ConnectionFailed endpoint) (Net.send temp_peer_id request).

(** ** Connecting twice *)

(** The first half of [connect_peer]: up to the connect request the peer is known by
    the endpoint its connection has. *)
Lemma add_peer_endpoint peer_id (c : C) (n n' : Network M) :
  Net.add_peer peer_id c n = (Ok (), n') →
  Peers.get_peer_by_endpoint (remote_endpoint c) (net_peers n') = Some peer_id ∧
  net_notified n' = net_notified n.
Proof.
  unfold Net.add_peer. intros (id & n1 & H & [= <-])%eff_bind_inv. unfold Net.on_mesh in H.
  destruct (mesh_add c (net_mesh n)) as [[] w]; cbn in H; simplify_eq. cbn. split; [|done].
  unfold Peers.get_peer_by_endpoint, BiMap.get_by_value. cbn. by rewrite lookup_insert_eq.
Qed.

(** A peer known by the endpoint is not connected again. *)
Lemma connect_peer_known node_id endpoint s :
  is_Some (Peers.get_peer_by_endpoint endpoint (net_peers s.1)) →
  connect_peer node_id endpoint s = (Ok (), s).
Proof.
  intros H. unfold connect_peer, get_peer_by_endpoint, mbind, eff_bind.
  by rewrite bool_decide_eq_true_2.
Qed.
Lemma connect_unidentified_peer_known uuid endpoint s :
  is_Some (Peers.get_peer_by_endpoint endpoint (net_peers s.1)) →
  connect_unidentified_peer uuid endpoint s = (Ok (), s).
Proof.
  intros H. unfold connect_unidentified_peer, get_peer_by_endpoint, mbind, eff_bind.
  by rewrite bool_decide_eq_true_2.
Qed.

Lemma net_send_peers peer_id b (n n' : Network M) :
  Net.send peer_id b n = (Ok (), n') → net_peers n' = net_peers n.
Proof.
  unfold Net.send, Net.on_mesh. destruct (Peers.get_mesh_id peer_id (net_peers n)); [|done].
  destruct (mesh_send _ b (net_mesh n)) as [[[]|[]] w]; by intros [= <-].
Qed.

(** Connecting to a peer is idempotent, given that a connection reports the endpoint
    it was opened to as its remote one. *)
Lemma connect_peer_idempotent node_id endpoint s s' :
  (∀ c t t', connect transport endpoint t = (Ok c, t') → remote_endpoint c = endpoint) →
  connect_peer node_id endpoint s = (Ok (), s') →
  connect_peer node_id endpoint s' = (Ok (), s').
Proof.
  intros Hrem H. apply connect_peer_known. revert H. unfold connect_peer.
  intros (known & s1 & [= <- <-] & H)%eff_bind_inv.
  case_bool_decide as Hk; [by injection H as <-|].
  apply eff_bind_inv in H as (c & [n1 t1] & Hc & H). destruct s as [n t]. unfold on_transport in Hc.
  destruct (connect transport endpoint t) as [[c'|e] t2] eqn:Ht; cbn in Hc; simplify_eq.
  apply Hrem in Ht. apply eff_bind_inv in H as ([] & [n2 t2] & Ha & H). unfold on_network in Ha.
  destruct (Net.add_peer node_id c n1) as [[[]|] n3] eqn:Hadd; cbn in Ha; simplify_eq.
  apply add_peer_endpoint in Hadd as [Hadd _].
  apply eff_bind_inv in H as (b & s4 & Hb & H). unfold lift in Hb. destruct create_connect_request; cbn in Hb; simplify_eq.
  unfold on_network in H. destruct (Net.send node_id b n2) as [[[]|] n4] eqn:Hs; cbn in H; simplify_eq.
  apply net_send_peers in Hs. cbn. rewrite Hs. by eexists.
Qed.
End connector.

(** ** [sender.rs] *)

Section sender.
Context {M C : Type} `{!Mesh M C}.

Inductive NetworkMessageSenderError := SenderRecvTimeoutError (msg : string).
Abbreviation sender_eff := (eff (Network M) NetworkMessageSenderError).

Definition send_or_warn (r : SendRequest) : sender_eff () :=
  catch_log (Net.send (sr_recipient r) (sr_payload r)).

(** What is queued when [running] was unset, until [try_recv] fails. *)
Fixpoint send_queued (l : list SendRequest) : sender_eff () :=
  match l with
  | [] => mret ()
  | r :: l => send_or_warn r;; send_queued l
  end.

(** [NetworkMessageSender::run], on what its channel gives while [running] is set and
    what is queued after that *)
Fixpoint sender_run (polls : list (recv SendRequest)) (queued : list SendRequest) : sender_eff () :=
  match polls with
  | [] => send_queued queued
  | Received r :: polls => send_or_warn r;; sender_run polls queued
  | RecvTimeout :: polls => sender_run polls queued
  | Disconnected :: _ => throw (SenderRecvTimeoutError "Received Disconnected Error from receiver")
  end.

(** What it is given to send, in the order in which it tries. *)
Definition requests (polls : list (recv SendRequest)) : list SendRequest :=
  omap (λ p, match p with Received r => Some r | _ => None end) polls.

(** Every request is tried, in order, whichever fail. *)
Lemma sender_run_sends polls queued (n : Network M) :
  Disconnected ∉ polls →
  sender_run polls queued n =
    (Ok (), foldl (λ n r, (Net.send (sr_recipient r) (sr_payload r) n).2) n (requests polls ++ queued)).
Proof.
  assert (∀ l (n : Network M), send_queued l n =
    (Ok (), foldl (λ n r, (Net.send (sr_recipient r) (sr_payload r) n).2) n l)) as Hq.
  { intros l. induction l as [|r l IH]; intros n'; [done|]. cbn. unfold mbind, eff_bind, send_or_warn, catch_log.
    destruct (Net.send _ _ n'). apply IH. }
  revert n. induction polls as [|[r| |] polls IH]; intros n Hd; [apply Hq|..].
  - cbn. unfold mbind, eff_bind, send_or_warn, catch_log.
    destruct (Net.send (sr_recipient r) (sr_payload r) n) as [x n1]. cbn. apply IH. set_solver.
  - apply IH. set_solver.
  - set_solver.
Qed.
End sender.

(** ** A host name *)

(** The remote endpoint of a TCP connection is the address of the peer, whatever name
    it was connected by: connecting again by the name opens another connection, and
    the peer has two entries in the mesh. *)
Module PeerMock.
#[export] Instance counting_mesh : Mesh nat string := {|
  remote_endpoint c := c;
  mesh_add _ n := (Ok n, S n);
  mesh_remove _ := mret ();
  mesh_send _ _ := mret ();
  mesh_recv := throw MeshRecvTimeout;
|}.
Definition resolving : Transport () string () :=
  mkTransport (λ _, true) (λ _, mret "tcp://127.0.0.1:8044") (λ _, mret ()).
#[export] Instance network_codec : Codec NetworkMessage := {| parse_from_bytes _ := None; write_to_bytes _ := Some "" |}.
#[export] Instance auth_codec : Codec AuthorizationMessage := {| parse_from_bytes _ := None; write_to_bytes _ := Some "" |}.
#[export] Instance request_codec : Codec ConnectRequest := {| parse_from_bytes _ := None; write_to_bytes _ := Some "" |}.
End PeerMock.

Section connect_twice.
Import PeerMock.
Lemma connect_by_name_twice :
  let connect_again := connect_peer resolving "n2" "tcp://localhost:8044" in
  let s1 := (connect_again (Net.new 0, ())).2 in
  let s2 := (connect_again s1).2 in
  (connect_again s1).1 = Ok () ∧ net_mesh s1.1 = 1 ∧ net_mesh s2.1 = 2 ∧
  Peers.get_mesh_id "n2" (net_peers s2.1) = Some 1 ∧ Peers.get_peer_id 0 (net_peers s2.1) = Some "n2".
Proof. by vm_compute. Qed.
End connect_twice.
