(* ===== verification/Events.v ===== *)
(** * Events

    Models the event machinery of [libsplinter/src/rest_api/events.rs]: the history
    of the most recent events and the senders that push events to websockets.  What
    a websocket does with a message (JSON over HTTP) is actix code and not
    modelled. *)

From S2P Require Import Prelude.
From Stdlib Require Import Lia.

(** ** [LocalEventHistory] *)

Record LocalEventHistory (T : Type) := mkLocalEventHistory {
  leh_history : list T;
  leh_limit : nat;
}.
Arguments mkLocalEventHistory {T} leh_history leh_limit.
Arguments leh_history {T} l.
Arguments leh_limit {T} l.

Section history.
Context {T : Type}.

Definition history_with_limit (limit : nat) : LocalEventHistory T := mkLocalEventHistory [] limit.
Definition history_default : LocalEventHistory T := history_with_limit 100.

Definition history_store (event : T) (h : LocalEventHistory T) : LocalEventHistory T :=
  let history := leh_history h ++ [event] in
  mkLocalEventHistory (if length history <=? leh_limit h then history else tail history) (leh_limit h).

Definition history_events (h : LocalEventHistory T) : list T := leh_history h.

(** The history holds the most recent events, as many as the limit allows, in the
    order in which they were stored. *)
Definition most_recent (n : nat) (l : list T) : list T := drop (length l - n) l.

Lemma most_recent_snoc n l x :
  let h := history_store x (mkLocalEventHistory (most_recent n l) n) in
  h = mkLocalEventHistory (most_recent n (l ++ [x])) n.
Proof.
  unfold history_store, most_recent. cbn. f_equal. rewrite !length_app, length_drop. cbn.
  destruct (Nat.leb_spec (length l - (length l - n) + 1) n) as [H|H].
  - replace (length l + 1 - n) with 0 by lia. by replace (length l - n) with 0 by lia.
  - rewrite <- drop_app_le by lia. replace (length l + 1 - n) with (length l - n + 1) by lia.
    rewrite <- drop_drop. by destruct (drop (length l - n) (l ++ [x])).
Qed.

Lemma history_stores limit (l : list T) :
  foldl (λ h x, history_store x h) (history_with_limit limit) l = mkLocalEventHistory (most_recent limit l) limit.
Proof.
  induction l as [|x l IH] using rev_ind; [done|]. rewrite foldl_snoc, IH. apply most_recent_snoc.
Qed.
End history.

(** ** [EventDealer] and [EventSender] *)

Inductive MessageWrapper (T : Type) :=
  | WrapMessage (event : T)
  | WrapShutdown.
Arguments WrapMessage {T} event.
Arguments WrapShutdown {T}.

(** The streams of the websockets that are open, by the channel of their sender:
    the events a websocket was started with and what was sent to it since. *)
Record Streams (T : Type) := mkStreams {
  st_open : gmap nat (list (MessageWrapper T));
  st_next : nat;
}.
Arguments mkStreams {T} st_open st_next.
Arguments st_open {T} s.
Arguments st_next {T} s.

Inductive ResponseError := ResponseFailed.

Section senders.
Context {T : Type}.

(** [EventSender::send]; it fails when the websocket is gone. *)
Definition event_send (sender : nat) (event : T) : eff (Streams T) T () := λ s,
  match st_open s !! sender with
  | Some q => (Ok (), mkStreams (<[sender := q ++ [WrapMessage event]]> (st_open s)) (st_next s))
  | None => (Err event, s)
  end.

(** The drop of a sender. *)
Definition event_drop (sender : nat) (s : Streams T) : Streams T :=
  match st_open s !! sender with
  | Some q => mkStreams (<[sender := q ++ [WrapShutdown]]> (st_open s)) (st_next s)
  | None => s
  end.

(** [EventSender::shutdown], which consumes the sender *)
Definition event_shutdown (sender : nat) (s : Streams T) : Streams T := event_drop sender (event_drop sender s).

(** [EventDealer::subscribe]; [started] says whether actix starts the websocket. *)
Definition dealer_subscribe (started : bool) (initial_events : list T) : eff (Streams T) ResponseError nat := λ s,
  if started then
    (Ok (st_next s), mkStreams (<[st_next s := WrapMessage <$> initial_events]> (st_open s)) (S (st_next s)))
  else (Err ResponseFailed, s).

(** [Vec::retain(|sender| sender.send(..).is_ok())]; the senders that fail are
    dropped. *)
Fixpoint retain_sending (event : T) (senders : list nat) (s : Streams T) : list nat * Streams T :=
  match senders with
  | [] => ([], s)
  | sender :: senders =>
      match event_send sender event s with
      | (Ok _, s) => let '(kept, s) := retain_sending event senders s in (sender :: kept, s)
      | (Err _, s) => retain_sending event senders (event_drop sender s)
      end
  end.

Lemma filter_ext_in {A} (P Q : A → Prop) `{!∀ x, Decision (P x), !∀ x, Decision (Q x)} (l : list A) :
  (∀ x, x ∈ l → P x ↔ Q x) → filter P l = filter Q l.
Proof.
  induction l as [|x l IH]; intros HPQ; [done|]. rewrite !filter_cons, IH by (intros; apply HPQ; set_solver).
  assert (P x ↔ Q x) by (apply HPQ; set_solver). by repeat case_decide; try tauto.
Qed.

(** Those whose websocket is open get the event, once, and stay. *)
Lemma retain_sending_spec event senders s :
  NoDup senders →
  let '(kept, s') := retain_sending event senders s in
  kept = filter (λ x, is_Some (st_open s !! x)) senders ∧ st_next s' = st_next s ∧
  ∀ x, st_open s' !! x =
    (if decide (x ∈ senders) then (.++ [WrapMessage event]) <$> st_open s !! x else st_open s !! x).
Proof.
  revert s. induction senders as [|a senders IH]; intros s Hd; [by split_and!|].
  apply NoDup_cons in Hd as [Ha Hd]. cbn [retain_sending]. unfold event_send.
  destruct (st_open s !! a) as [q|] eqn:Hq.
  - specialize (IH (mkStreams (<[a := q ++ [WrapMessage event]]> (st_open s)) (st_next s)) Hd).
    destruct (retain_sending event senders _) as [kept s']. destruct IH as (-> & -> & IH). cbn in IH.
    split_and!; [|done|].
    + rewrite filter_cons_True by (by rewrite Hq). f_equal. apply filter_ext_in.
      intros x Hx. cbn. rewrite lookup_insert_ne; [done|]. by intros ->.
    + intros x. rewrite IH. destruct (decide (x = a)) as [->|Hne].
      * rewrite decide_False, lookup_insert_eq, decide_True, Hq by set_solver. done.
      * rewrite lookup_insert_ne by done. by destruct (decide (x ∈ senders)), (decide (x ∈ a :: senders)); set_solver.
  - unfold event_drop. rewrite Hq. specialize (IH s Hd).
    destruct (retain_sending event senders s) as [kept s']. destruct IH as (-> & -> & IH).
    split_and!; [|done|].
    + rewrite filter_cons_False; [done|]. rewrite Hq. by intros [].
    + intros x. rewrite IH. destruct (decide (x = a)) as [->|Hne].
      * rewrite decide_False, decide_True, Hq by set_solver. done.
      * by destruct (decide (x ∈ senders)), (decide (x ∈ a :: senders)); set_solver.
Qed.
End senders.
