(* ===== verification/ScabbardState.v ===== *)
(** * The state of scabbard

    Models [libsplinter/src/service/scabbard/state.rs]: the state root of a scabbard
    service, the change that is prepared and then committed or rolled back, and the
    history of the batches.  The [transact] and [sawtooth] crates, which execute
    batches and store state, are the class [Transact]. *)

From S2P Require Import Prelude Hex Events AdminShared.
From Stdlib Require Import Lia ZArith.

(** ** What transact works on *)

Inductive StateChange :=
  | ChangeSet (key : string) (value : bytes)
  | ChangeDelete (key : string).

Record TransactionReceipt := mkTransactionReceipt {
  receipt_transaction_id : string;
  receipt_state_changes : list StateChange;
}.
Record InvalidTransactionResult := mkInvalidTransactionResult {
  itr_transaction_id : string;
  itr_error_message : string;
  itr_error_data : bytes;
}.
Inductive TransactionExecutionResult :=
  | ResultValid (r : TransactionReceipt)
  | ResultInvalid (r : InvalidTransactionResult).

(** [BatchPair]: a batch with its parsed header *)
Record Transaction := mkTransaction {
  txn_header : bytes;
  txn_header_signature : string;
  txn_payload : bytes;
}.
Record BatchPair := mkBatchPair {
  batch_header : bytes;
  batch_header_signature : string;
  batch_signer_public_key : bytes;
  batch_transaction_ids : list bytes;
  batch_transactions : list Transaction;
}.

(** The scheduler and the executor run a batch on a state root, and give no result
    when they fail; the merkle state computes and commits the state root that
    changes lead to; an index of the database has the root of the current state,
    under [HEAD]; the receipt store is another database. *)
Class Transact (D : Type) := {
  execute_batch : string → BatchPair → eff D () (list TransactionExecutionResult);
  initial_state_root : eff D () string;
  compute_state_id : string → list StateChange → D → option string;
  merkle_commit : string → list StateChange → eff D () string;
  head_get : D → option (option bytes);
  head_put : bytes → eff D () ();
  receipts_append : list TransactionReceipt → eff D () ();
}.

(** What scabbard relies on.  Committing changes gives the state id that was
    computed for them, on whatever database; a state id is the hexadecimal form of a
    hash; what is put under [HEAD] is there, and nothing else changes it. *)
Class TransactLaws (D : Type) `{!Transact D} : Prop := {
  merkle_commit_id root changes d root' d' id e :
    merkle_commit root changes d = (Ok root', d') → compute_state_id root changes e = Some id → root' = id;
  merkle_commit_hex root changes d root' d' :
    merkle_commit root changes d = (Ok root', d') → ∃ b, root' = to_hex b;
  merkle_commit_head root changes d : head_get (merkle_commit root changes d).2 = head_get d;
  execute_head root b d : head_get (execute_batch root b d).2 = head_get d;
  receipts_head r d : head_get (receipts_append r d).2 = head_get d;
  head_put_get b d d' : head_put b d = (Ok (), d') → head_get d' = Some (Some b);
}.

(** ** Batch statuses *)

Record InvalidTransaction := mkInvalidTransaction {
  inv_transaction_id : string;
  inv_error_message : string;
  inv_error_data : bytes;
}.
#[export] Instance InvalidTransaction_eq_dec : EqDecision InvalidTransaction.
Proof. solve_decision. Defined.

(** A [ValidTransaction] is its transaction id. *)
Inductive BatchStatus :=
  | BatchUnknown
  | BatchPending
  | BatchInvalid (l : list InvalidTransaction)
  | BatchValid (l : list string)
  | BatchCommitted (l : list string).
#[export] Instance BatchStatus_eq_dec : EqDecision BatchStatus.
Proof. solve_decision. Defined.

(** [From<BatchExecutionResult> for BatchStatus] *)
Definition valid_results (l : list TransactionExecutionResult) : list TransactionReceipt :=
  omap (λ r, match r with ResultValid r => Some r | _ => None end) l.
Definition invalid_results (l : list TransactionExecutionResult) : list InvalidTransactionResult :=
  omap (λ r, match r with ResultInvalid r => Some r | _ => None end) l.
Definition batch_status (l : list TransactionExecutionResult) : BatchStatus :=
  match invalid_results l with
  | [] => BatchValid (receipt_transaction_id <$> valid_results l)
  | invalid => BatchInvalid ((λ r, mkInvalidTransaction (itr_transaction_id r) (itr_error_message r)
                                     (itr_error_data r)) <$> invalid)
  end.

(** ** [BatchHistory] *)

Record BatchInfo := mkBatchInfo {
  bi_id : string;
  bi_status : BatchStatus;
  bi_timestamp : Z;
}.
Definition set_status (status : BatchStatus) (i : BatchInfo) : BatchInfo :=
  mkBatchInfo (bi_id i) status (bi_timestamp i).

Record BatchHistory := mkBatchHistory {
  bh_history : gmap string BatchInfo;
  bh_limit : nat;
}.
Definition batch_history_default : BatchHistory := mkBatchHistory ∅ 100.

(** [min_by_key] of the timestamps: the first of the oldest entries, in the order in
    which they come. *)
Fixpoint oldest (l : list (string * BatchInfo)) : option (string * BatchInfo) :=
  match l with
  | [] => None
  | e :: l =>
      match oldest l with
      | Some e' => if (bi_timestamp e'.2 <? bi_timestamp e.2)%Z then Some e' else Some e
      | None => Some e
      end
  end.

(** [now] is what [SystemTime::now] gives. *)
Definition history_add_batch (signature : string) (now : Z) (h : BatchHistory) : BatchHistory :=
  let m := <[signature := mkBatchInfo signature BatchPending now]> (bh_history h) in
  if bh_limit h <? size m then
    match oldest (map_to_list m) with
    | Some (k, _) => mkBatchHistory (delete k m) (bh_limit h)
    | None => mkBatchHistory m (bh_limit h)
    end
  else mkBatchHistory m (bh_limit h).

Definition update_batch_status (signature : string) (status : BatchStatus) (h : BatchHistory) : BatchHistory :=
  match bh_history h !! signature with
  | Some i =>
      if decide (bi_status i = BatchPending) then
        mkBatchHistory (<[signature := set_status status i]> (bh_history h)) (bh_limit h)
      else h
  | None => h
  end.

Definition history_commit (signature : string) (h : BatchHistory) : BatchHistory :=
  match bh_history h !! signature with
  | Some i =>
      match bi_status i with
      | BatchValid t =>
          mkBatchHistory (<[signature := set_status (BatchCommitted t) i]> (bh_history h)) (bh_limit h)
      | _ => h
      end
  | None => h
  end.

Definition get_batch_info (signature : string) (now : Z) (h : BatchHistory) : BatchInfo :=
  default (mkBatchInfo signature BatchUnknown now) (bh_history h !! signature).

(** ** [ScabbardState] *)

(** [StateChangeEvent] has the constructors of [StateChange]. *)
Definition StateChangeEvent : Type := StateChange.

(** The text of the error, or a panic *)
Inductive ScabbardStateError :=
  | StateError (msg : string)
  | StatePanic.

Record ScabbardState := mkScabbardState {
  current_state_root : string;
  st_pending_changes : option (string * list TransactionReceipt);
  st_event_senders : list nat;
  st_streams : Streams (list StateChangeEvent);
  st_batch_history : BatchHistory;
  st_commit_history : LocalEventHistory (list StateChangeEvent);
}.

Definition receipts_into_state_changes (l : list TransactionReceipt) : list StateChange :=
  l ≫= receipt_state_changes.

(** The key and the protobuf bytes of the setting with the admin keys. *)
Class AdminSetting := {
  administrators_setting_address : string;
  administrators_setting : list string → option bytes;
}.

Section state.
Context {D : Type} `{!Transact D}.

Abbreviation state_eff := (eff (ScabbardState * D) ScabbardStateError).

Definition on_db {A} (msg : string) (m : eff D () A) : state_eff A := λ '(s, d),
  let '(r, d) := m d in (map_err (λ _, StateError msg) r, (s, d)).
Definition on_state (f : ScabbardState → ScabbardState) : state_eff () := modify (λ '(s, d), (f s, d)).

Definition set_root root s := mkScabbardState root (st_pending_changes s) (st_event_senders s)
  (st_streams s) (st_batch_history s) (st_commit_history s).
Definition set_pending p s := mkScabbardState (current_state_root s) p (st_event_senders s)
  (st_streams s) (st_batch_history s) (st_commit_history s).
Definition set_senders l streams s := mkScabbardState (current_state_root s) (st_pending_changes s) l
  streams (st_batch_history s) (st_commit_history s).
Definition on_history f s := mkScabbardState (current_state_root s) (st_pending_changes s) (st_event_senders s)
  (st_streams s) (f (st_batch_history s)) (st_commit_history s).
Definition on_commits f s := mkScabbardState (current_state_root s) (st_pending_changes s) (st_event_senders s)
  (st_streams s) (st_batch_history s) (f (st_commit_history s)).

(** [ScabbardState::new], on its database: the root under [HEAD], or that of a state
    with only the admin keys, which is not written to [HEAD]. *)
Definition read_current_state_root (d : D) : result ScabbardStateError (option string) :=
  head ← ok_or (StateError "Unable to read HEAD entry: ") (head_get d);
  mret (to_hex <$> (head : option bytes)).
Definition initial_root `{!AdminSetting} (admin_keys : list string) : eff D ScabbardStateError string :=
  d ← get;
  head ← lift (read_current_state_root d);
  match head with
  | Some root => mret root
  | None =>
      setting ← lift (ok_or (StateError "failed to write admin keys setting to bytes: ")
                        (administrators_setting admin_keys));
      root ← emap_err (λ _, StateError "") initial_state_root;
      emap_err (λ _, StateError "") (merkle_commit root [ChangeSet administrators_setting_address setting])
  end.
Definition state_new `{!AdminSetting} (admin_keys : list string) : eff D ScabbardStateError ScabbardState :=
  root ← initial_root admin_keys;
  mret (mkScabbardState root None [] (mkStreams ∅ 0) batch_history_default history_default).

(** [write_current_state_root] *)
Definition write_current_state_root : state_eff () := λ '(s, d),
  match parse_hex (current_state_root s) with
  | Ok b => on_db "Unable to write HEAD entry: " (head_put b) (s, d)
  | Err HexPanic => (Err StatePanic, (s, d))
  | Err _ => (Err (StateError "The in-memory current state root is invalid: "), (s, d))
  end.

(** [collect::<Result<Vec<_>, _>>] *)
Fixpoint collect_receipts (l : list TransactionExecutionResult) :
    result ScabbardStateError (list TransactionReceipt) :=
  match l with
  | [] => Ok []
  | ResultValid r :: l => rs ← collect_receipts l; mret (r :: rs)
  | ResultInvalid r :: _ => Err (StateError "transaction failed: ")
  end.

Definition prepare_change (batch : BatchPair) : state_eff string :=
  s ← get;
  results ← on_db "no result returned from executor" (execute_batch (current_state_root s.1) batch);
  on_state (on_history (update_batch_status (batch_header_signature batch) (batch_status results)));;
  txn_results ← lift (collect_receipts results);
  s ← get;
  state_root ← lift (ok_or (StateError "")
    (compute_state_id (current_state_root s.1) (receipts_into_state_changes txn_results) s.2));
  on_state (set_pending (Some (batch_header_signature batch, txn_results)));;
  mret state_root.

Definition state_commit : state_eff () :=
  s ← get;
  on_state (set_pending None);;
  match st_pending_changes s.1 with
  | Some (signature, txn_receipts) =>
      let state_changes := receipts_into_state_changes txn_receipts in
      root ← on_db "" (merkle_commit (current_state_root s.1) state_changes);
      on_state (set_root root);;
      write_current_state_root;;
      on_db "failed to add transaction receipts to store: " (receipts_append txn_receipts);;
      on_state (on_commits (history_store state_changes));;
      on_state (λ s, let '(kept, streams) := retain_sending state_changes (st_event_senders s) (st_streams s) in
                     set_senders kept streams s);;
      on_state (on_history (history_commit signature))
  | None => throw (StateError "no pending changes to commit")
  end.

Definition state_rollback : state_eff () := on_state (set_pending None).

(** [started] says whether actix starts the websocket. *)
Definition subscribe_to_state (started : bool) (s : ScabbardState) : result ResponseError () * ScabbardState :=
  match dealer_subscribe started (history_events (st_commit_history s)) (st_streams s) with
  | (Ok sender, streams) => (Ok (), set_senders (st_event_senders s ++ [sender]) streams s)
  | (Err e, streams) => (Err e, set_senders (st_event_senders s) streams s)
  end.

(** [Vec::clear] drops the senders. *)
Definition shutdown_event_dealer (s : ScabbardState) : ScabbardState :=
  set_senders [] (foldl (λ streams sender, event_drop sender streams) (st_streams s) (st_event_senders s)) s.
End state.
