(* ===== verification/Scabbard.v ===== *)
(** * Scabbard

    Models [libsplinter/src/service/scabbard/shared.rs], [mod.rs], [consensus.rs] and
    [factory.rs], with the hash verifier of [signing/hash.rs]: the batches of a
    scabbard service from their submission to their commit, driven by the two-phase
    engine through the [ProposalManager]; and the life cycle of the service.  The
    locks are never poisoned; the thread of the engine is the model of [TwoPhase]. *)

From S2P Require Import Prelude Hex Storage Events Consensus Network Circuit CircuitHandlers Reply.
From S2P Require Import Services ServiceOrchestrator AdminShared ScabbardState.
From Stdlib Require Import Lia ZArith.

(** ** Messages ([protos/scabbard.proto]) *)

Inductive ScabbardMessage_Type := SCABBARD_UNSET | SCABBARD_CONSENSUS_MESSAGE | PROPOSED_BATCH.
Record ProposedBatch := mkProposedBatch {
  pb_proposal : bytes;
  pb_batch : bytes;
  pb_service_id : string;
}.
Record ScabbardMessage := mkScabbardMessage {
  sm_message_type : ScabbardMessage_Type;
  sm_consensus_message : bytes;
  sm_proposed_batch : ProposedBatch;
}.
Definition no_proposed_batch : ProposedBatch := mkProposedBatch "" "" "".

(** [TransactionHeader] of transact, whose only hash method is SHA-512 *)
Record TransactionHeader := mkTransactionHeader {
  th_batcher_public_key : bytes;
  th_signer_public_key : bytes;
  th_payload_hash : bytes;
}.

(** ** [signing/hash.rs] *)

Class Sha512 := sha512_digest : bytes → option bytes.

Definition hash_sign `{!Sha512} (message : bytes) : option bytes := sha512_digest message.
Definition hash_verify `{!Sha512} (message signature _public_key : bytes) : result () bool :=
  expected_hash ← ok_or () (sha512_digest message);
  mret (bool_decide (expected_hash = signature)).

(** ** [shared.rs] *)

(** [network_sender] says whether the service is connected; the sender itself and the
    signature verifier belong to the world. *)
Record ScabbardShared := mkScabbardShared {
  batch_queue : list BatchPair;
  sh_network_sender : bool;
  peer_services : gset string;
  proposed_batches : gmap ProposalId BatchPair;
  sh_state : ScabbardState;
}.

Definition shared_new (queue : list BatchPair) (sender : bool) (peers : gset string) (state : ScabbardState) :
    ScabbardShared := mkScabbardShared queue sender peers ∅ state.

Definition add_batch_to_queue (b : BatchPair) (s : ScabbardShared) : ScabbardShared :=
  mkScabbardShared (batch_queue s ++ [b]) (sh_network_sender s) (peer_services s) (proposed_batches s) (sh_state s).
Definition set_batch_queue (q : list BatchPair) (s : ScabbardShared) : ScabbardShared :=
  mkScabbardShared q (sh_network_sender s) (peer_services s) (proposed_batches s) (sh_state s).
Definition sh_set_network_sender (x : bool) (s : ScabbardShared) : ScabbardShared :=
  mkScabbardShared (batch_queue s) x (peer_services s) (proposed_batches s) (sh_state s).
Definition add_proposed_batch (id : ProposalId) (b : BatchPair) (s : ScabbardShared) : ScabbardShared :=
  mkScabbardShared (batch_queue s) (sh_network_sender s) (peer_services s) (<[id := b]> (proposed_batches s)) (sh_state s).
Definition remove_proposed_batch (id : ProposalId) (s : ScabbardShared) : ScabbardShared :=
  mkScabbardShared (batch_queue s) (sh_network_sender s) (peer_services s) (delete id (proposed_batches s)) (sh_state s).
Definition set_state (x : ScabbardState) (s : ScabbardShared) : ScabbardShared :=
  mkScabbardShared (batch_queue s) (sh_network_sender s) (peer_services s) (proposed_batches s) x.

Inductive BatchError := BatchUnableToHandle | BatchInvalidFormat | BatchPanic.

Definition hex_error (e : HexError) : BatchError :=
  match e with HexPanic => BatchPanic | _ => BatchUnableToHandle end.

Section verify.
Context {W : Type} `{!SignatureVerifier W, !Sha512} (w : W).
Context (header_from_bytes : bytes → option TransactionHeader).

(** The body of the loop on the transactions of a batch. *)
Definition verify_transaction (batch : BatchPair) (i : nat) (txn : Transaction) : result BatchError bool :=
  header ← ok_or BatchInvalidFormat (header_from_bytes (txn_header txn));
  signature ← map_err hex_error (parse_hex (txn_header_signature txn));
  id ← ok_or BatchPanic (batch_transaction_ids batch !! i);
  if bool_decide (signature ≠ id) then mret false
  else if bool_decide (th_batcher_public_key header ≠ batch_signer_public_key batch) then mret false
  else
    ok ← map_err (λ _, BatchUnableToHandle)
           (verify (txn_header txn) signature (th_signer_public_key header) w);
    if negb ok then mret false
    else map_err (λ _, BatchUnableToHandle) (hash_verify (txn_payload txn) (th_payload_hash header) "").

Fixpoint verify_transactions (batch : BatchPair) (i : nat) (l : list Transaction) : result BatchError bool :=
  match l with
  | [] => mret true
  | txn :: l =>
      ok ← verify_transaction batch i txn;
      if negb ok then mret false else verify_transactions batch (S i) l
  end.

Definition verify_batch (batch : BatchPair) : result BatchError bool :=
  signature ← map_err hex_error (parse_hex (batch_header_signature batch));
  ok ← map_err (λ _, BatchUnableToHandle)
         (verify (batch_header batch) signature (batch_signer_public_key batch) w);
  if negb ok then mret false
  else if bool_decide (length (batch_transaction_ids batch) ≠ length (batch_transactions batch)) then mret false
  else verify_transactions batch 0 (batch_transactions batch).

(** [verify_batches] *)
Fixpoint verify_batches (batches : list BatchPair) : result BatchError bool :=
  match batches with
  | [] => mret true
  | batch :: batches =>
      ok ← verify_batch batch;
      if negb ok then mret false else verify_batches batches
  end.
End verify.

(** ** [mod.rs] *)

(** [sc_consensus] says whether the consensus manager is there. *)
Record Scabbard := mkScabbard {
  sc_circuit_id : string;
  sc_service_id : string;
  sc_shared : ScabbardShared;
  sc_consensus : bool;
}.
Definition with_shared (x : ScabbardShared) (s : Scabbard) : Scabbard :=
  mkScabbard (sc_circuit_id s) (sc_service_id s) x (sc_consensus s).
Definition with_consensus (x : bool) (s : Scabbard) : Scabbard :=
  mkScabbard (sc_circuit_id s) (sc_service_id s) (sc_shared s) x.

(** A registry of the circuit given first ([service/registry.rs]). *)
Class CircuitRegistry (W : Type) := {
  circuit_connect : string → string → eff W ServiceConnectionError ();
  circuit_disconnect : string → string → eff W ServiceDisconnectionError ();
}.

Section scabbard.
Context {W : Type} `{!Transact W, !SignatureVerifier W, !Sha512, !SystemClock W, !ServiceNetworkSender W,
  !CircuitRegistry W, !Sender W ProposalUpdate, !Sender W ConsensusMessage}.
Context `{!Codec ScabbardMessage, !Codec BatchPair, !Codec ProposalProto, !Codec ConsensusMessageProto}.
Context (header_from_bytes : bytes → option TransactionHeader).

Abbreviation scabbard_eff := (eff (Scabbard * W)).

Definition shared_get {E} : scabbard_eff E ScabbardShared := λ s, (Ok (sc_shared s.1), s).
Definition shared_modify {E} (f : ScabbardShared → ScabbardShared) : scabbard_eff E () :=
  modify (λ '(s, w), (with_shared (f (sc_shared s)) s, w)).
Definition consensus_modify {E} (x : bool) : scabbard_eff E () := modify (λ '(s, w), (with_consensus x s, w)).
Definition in_state {E A} (f : ScabbardStateError → E) (m : eff (ScabbardState * W) ScabbardStateError A) :
    scabbard_eff E A := λ '(s, w),
  let '(r, (st, w)) := m (sh_state (sc_shared s), w) in
  (map_err f r, (with_shared (set_state st (sc_shared s)) s, w)).
Definition on_w {E E' A} (f : E → E') (m : eff W E A) : scabbard_eff E' A := λ '(s, w),
  let '(r, w) := m w in (map_err f r, (s, w)).

(** *** Batches *)

(** The loop of [add_batches]: the statuses, the queue and the link. *)
Fixpoint queue_batches (batches : list BatchPair) (link : string) : scabbard_eff BatchError string :=
  match batches with
  | [] => mret link
  | batch :: batches =>
      now ← on_w id (λ w, let '(t, w) := system_time w in (Ok t, w));
      shared_modify (λ sh, set_state (on_history (history_add_batch (batch_header_signature batch) now) (sh_state sh)) sh);;
      shared_modify (add_batch_to_queue batch);;
      queue_batches batches (link +:+ batch_header_signature batch +:+ ",")
  end.

(** [String::pop] of a string that ends with a character of one byte *)
Fixpoint string_pop (s : string) : string :=
  match s with
  | "" => ""
  | String c "" => ""
  | String c s => String c (string_pop s)
  end.

Definition add_batches (batches : list BatchPair) : scabbard_eff BatchError (option string) :=
  s ← get;
  ok ← lift (verify_batches s.2 header_from_bytes batches);
  if (ok : bool) then
    link ← queue_batches batches
      ("/scabbard/" +:+ sc_circuit_id s.1 +:+ "/" +:+ sc_service_id s.1 +:+ "/batch_statuses?ids=");
    mret (Some (string_pop link))
  else mret None.

(** [get_batch_info] *)
Fixpoint scabbard_batch_info (ids : list string) : scabbard_eff BatchError (list BatchInfo) :=
  match ids with
  | [] => mret []
  | signature :: ids =>
      now ← on_w id (λ w, let '(t, w) := system_time w in (Ok t, w));
      sh ← shared_get;
      infos ← scabbard_batch_info ids;
      mret (get_batch_info signature now (st_batch_history (sh_state sh)) :: infos)
  end.

Definition scabbard_subscribe (started : bool) : scabbard_eff ResponseError () := λ '(s, w),
  let '(r, st) := subscribe_to_state started (sh_state (sc_shared s)) in
  (r, (with_shared (set_state st (sc_shared s)) s, w)).

(** *** The service *)

(** [StartupState] of the engine, made by [ScabbardConsensusManager::new] *)
Definition scabbard_startup_state (s : Scabbard) : StartupState :=
  mkStartupState (sc_service_id s) (elements (peer_services (sc_shared s))) None.

Definition scabbard_start (circuit : string) : scabbard_eff StartError () :=
  s ← get;
  (if sc_consensus s.1 then throw StartAlreadyStarted else mret ());;
  on_w StartUnableToConnect (circuit_connect circuit (sc_service_id s.1));;
  shared_modify (sh_set_network_sender true);;
  consensus_modify true.

Definition scabbard_stop (circuit : string) : scabbard_eff StopError () :=
  s ← get;
  consensus_modify false;;
  (if sc_consensus s.1 then mret () else throw StopNotRunning);;
  on_w (λ _, StopFailed) (send Shutdown);;
  sh ← shared_get;
  shared_modify (sh_set_network_sender false);;
  (if sh_network_sender sh then mret () else throw StopFailed);;
  shared_modify (λ sh, set_state (shutdown_event_dealer (sh_state sh)) sh);;
  on_w StopUnableToDisconnect (circuit_disconnect circuit (sc_service_id s.1)).

Definition scabbard_destroy (s : Scabbard) : eff W DestroyError () :=
  if sc_consensus s then throw DestroyNotStopped else mret ().

Definition scabbard_handle_message (message_bytes : bytes) (_ctx : ServiceMessageContext) :
    scabbard_eff HandleMessageError () :=
  message ← lift (ok_or InvalidMessage (parse_from_bytes message_bytes));
  s ← get;
  match sm_message_type message with
  | SCABBARD_CONSENSUS_MESSAGE =>
      (if sc_consensus s.1 then mret () else throw MessageNotStarted);;
      m ← lift (ok_or UnableToHandleMessage (consensus_message_try_from (sm_consensus_message message)));
      on_w (λ _, UnableToHandleMessage) (send m)
  | PROPOSED_BATCH =>
      let proposed_batch := sm_proposed_batch message in
      proposal ← lift (ok_or InvalidMessage (proposal_try_from (pb_proposal proposed_batch)));
      batch ← lift (ok_or UnableToHandleMessage (parse_from_bytes (pb_batch proposed_batch)));
      shared_modify (add_proposed_batch (proposal_id proposal) batch);;
      (if sc_consensus s.1 then mret () else throw MessageNotStarted);;
      on_w (λ _, UnableToHandleMessage) (send (ProposalReceived proposal (pb_service_id proposed_batch)))
  | SCABBARD_UNSET => throw InvalidMessage
  end.

#[export] Instance scabbard_service : Service Scabbard W := {|
  service_id := sc_service_id;
  service_start := scabbard_start;
  service_stop := scabbard_stop;
  service_destroy := scabbard_destroy;
  service_handle_message := scabbard_handle_message;
|}.

(** ** [consensus.rs] *)

Definition pm_error (e : ScabbardStateError) : ProposalManagerError :=
  match e with StatePanic => PMPanic | StateError _ => PMInternal end.
Definition sc_update_send (u : ProposalUpdate) : scabbard_eff ProposalManagerError () :=
  on_w (λ _, UpdateSendFailed) (send u).

(** A message is sent to every peer, in the unspecified order of a hash set. *)
Fixpoint send_services {E} (e : E) (l : list string) (b : bytes) : scabbard_eff E () :=
  match l with
  | [] => mret ()
  | service :: l => on_w (λ _, e) (service_send service b);; send_services e l b
  end.

Definition scabbard_create_proposal (_previous : option ProposalId) (_consensus_data : bytes) :
    scabbard_eff ProposalManagerError () :=
  sh ← shared_get;
  match batch_queue sh with
  | batch :: queue =>
      shared_modify (set_batch_queue queue);;
      expected_hash ← in_state pm_error (prepare_change batch);
      let proposal := mkProposal expected_hash "" 0 expected_hash "" in
      shared_modify (add_proposed_batch (proposal_id proposal) batch);;
      proposal_bytes ← lift (ok_or PMInternal (proposal_try_into proposal));
      batch_bytes ← lift (ok_or PMInternal (write_to_bytes batch));
      s ← get;
      msg_bytes ← lift (ok_or PMInternal (write_to_bytes (mkScabbardMessage PROPOSED_BATCH ""
        (mkProposedBatch proposal_bytes batch_bytes (sc_service_id s.1)))));
      (if sh_network_sender sh then mret () else throw PMNotReady);;
      send_services PMInternal (elements (peer_services sh)) msg_bytes;;
      sc_update_send (ProposalCreated (Some proposal))
  | [] => sc_update_send (ProposalCreated None)
  end.

Definition scabbard_check_proposal (id : ProposalId) : scabbard_eff ProposalManagerError () :=
  sh ← shared_get;
  batch ← lift (ok_or (UnknownProposal id) (proposed_batches sh !! id));
  hash ← in_state pm_error (prepare_change batch);
  if bool_decide (hash ≠ id) then sc_update_send (ProposalInvalid id)
  else sc_update_send (ProposalValid id).

Definition scabbard_accept_proposal (id : ProposalId) (_consensus_data : option bytes) :
    scabbard_eff ProposalManagerError () :=
  sh ← shared_get;
  shared_modify (remove_proposed_batch id);;
  lift (ok_or (UnknownProposal id) (proposed_batches sh !! id));;
  in_state pm_error state_commit;;
  sc_update_send (ProposalAccepted id).

Definition scabbard_reject_proposal (id : ProposalId) : scabbard_eff ProposalManagerError () :=
  sh ← shared_get;
  shared_modify (remove_proposed_batch id);;
  lift (ok_or (UnknownProposal id) (proposed_batches sh !! id));;
  in_state pm_error state_rollback.

#[export] Instance scabbard_proposal_manager : ProposalManager (Scabbard * W) := {|
  create_proposal := scabbard_create_proposal;
  check_proposal := scabbard_check_proposal;
  accept_proposal := scabbard_accept_proposal;
  reject_proposal := scabbard_reject_proposal;
|}.

(** [ScabbardConsensusNetworkSender] *)
Definition scabbard_consensus_envelope (message : bytes) : scabbard_eff ConsensusSendError (option bytes) :=
  s ← get;
  m ← lift (ok_or CSInternal (consensus_message_try_into (mkConsensusMessage message (sc_service_id s.1))));
  mret (write_to_bytes (mkScabbardMessage SCABBARD_CONSENSUS_MESSAGE m no_proposed_batch)).

Definition scabbard_send_to (peer_id : PeerId) (message : bytes) : scabbard_eff ConsensusSendError () :=
  peer_id_string ← lift (ok_or CSInternal (from_utf8 peer_id));
  msg ← scabbard_consensus_envelope message;
  sh ← shared_get;
  (if decide (peer_id_string ∈ peer_services sh) then mret () else throw (UnknownPeer peer_id));;
  (if sh_network_sender sh then mret () else throw CSNotReady);;
  b ← lift (ok_or CSInternal msg);
  on_w (λ _, CSInternal) (service_send peer_id_string b).

Definition scabbard_broadcast (message : bytes) : scabbard_eff ConsensusSendError () :=
  msg ← scabbard_consensus_envelope message;
  sh ← shared_get;
  (if sh_network_sender sh then mret () else throw CSNotReady);;
  match elements (peer_services sh) with
  | [] => mret ()
  | services => b ← lift (ok_or CSInternal msg); send_services CSInternal services b
  end.

#[export] Instance scabbard_network_sender : ConsensusNetworkSender (Scabbard * W) := {|
  send_to := scabbard_send_to;
  broadcast := scabbard_broadcast;
|}.
End scabbard.
