(* ===== verification/ScabbardProps.v ===== *)
(** * What scabbard guarantees

    Which batches a scabbard service queues, what it commits, and what its history of
    batches and its subscribers show. *)

From S2P Require Import Prelude Hex Storage Events Consensus Network Circuit CircuitHandlers Reply.
From S2P Require Import Services ServiceOrchestrator AdminShared ScabbardState Scabbard.
From Stdlib Require Import Lia ZArith.

(** ** Verified batches *)

Section verified.
Context {W : Type} `{!SignatureVerifier W} {sha512 : Sha512} (w : W).
Context (header_from_bytes : bytes → option TransactionHeader).

(** A transaction with the given id, of a batch signed by the key. *)
Definition signed_transaction (key : bytes) (id : bytes) (txn : Transaction) : Prop :=
  ∃ header, header_from_bytes (txn_header txn) = Some header ∧
    parse_hex (txn_header_signature txn) = Ok id ∧ th_batcher_public_key header = key ∧
    verify (txn_header txn) id (th_signer_public_key header) w = Ok true ∧
    sha512_digest (txn_payload txn) = Some (th_payload_hash header).

(** A batch signed by its key, whose transactions are those its header lists. *)
Definition signed_batch (batch : BatchPair) : Prop :=
  (∃ signature, parse_hex (batch_header_signature batch) = Ok signature ∧
     verify (batch_header batch) signature (batch_signer_public_key batch) w = Ok true) ∧
  Forall2 (signed_transaction (batch_signer_public_key batch)) (batch_transaction_ids batch)
    (batch_transactions batch).

Lemma verify_transaction_iff batch i txn :
  verify_transaction w header_from_bytes batch i txn = Ok true ↔
  ∃ id, batch_transaction_ids batch !! i = Some id ∧ signed_transaction (batch_signer_public_key batch) id txn.
Proof.
  unfold verify_transaction, signed_transaction, hash_verify. split.
  - intros (header & Hh & H)%result_bind_inv.
    destruct (header_from_bytes (txn_header txn)) as [h|]; cbn in Hh; simplify_eq.
    apply result_bind_inv in H as (signature & Hs & H).
    destruct (parse_hex (txn_header_signature txn)) as [sg|] eqn:Hp; cbn in Hs; simplify_eq.
    apply result_bind_inv in H as (id & Hid & H).
    destruct (batch_transaction_ids batch !! i) as [id'|]; cbn in Hid; simplify_eq.
    case_bool_decide as H1; [done|]. case_bool_decide as H2; [done|]. subst signature.
    apply result_bind_inv in H as (ok & Hok & H).
    destruct (verify _ _ _ w) as [ok'|] eqn:Hv; cbn in Hok; simplify_eq. destruct ok; [|done].
    destruct (sha512_digest _) as [digest|] eqn:Hd; [|done]. cbn in H. case_bool_decide; [|done]. subst.
    by exists id; split; [|exists header].
  - intros (id & Hid & header & Hh & Hp & Hk & Hv & Hd).
    rewrite Hh. cbn. rewrite Hp. cbn. rewrite Hid. cbn. rewrite bool_decide_eq_false_2 by (intros []; done).
    rewrite bool_decide_eq_false_2 by (intros []; done). rewrite Hv. cbn. rewrite Hd. cbn. by rewrite bool_decide_eq_true_2.
Qed.

Lemma verify_transactions_iff batch i l :
  verify_transactions w header_from_bytes batch i l = Ok true ↔
  ∀ j txn, l !! j = Some txn →
    ∃ id, batch_transaction_ids batch !! (i + j)%nat = Some id ∧
          signed_transaction (batch_signer_public_key batch) id txn.
Proof.
  revert i. induction l as [|txn l IH]; intros i; [split; [by intros _ []|done]|]. cbn [verify_transactions]. split.
  - intros (ok & Hok & H)%result_bind_inv. destruct ok; [|done]. cbn in H.
    intros [|j] txn' Hj; cbn in Hj.
    + injection Hj as <-. rewrite Nat.add_0_r. by apply verify_transaction_iff.
    + rewrite Nat.add_succ_r, <- Nat.add_succ_l. by apply (proj1 (IH (S i)) H).
  - intros H. assert (verify_transaction w header_from_bytes batch i txn = Ok true) as ->.
    { apply verify_transaction_iff. rewrite <- (Nat.add_0_r i). by apply H. }
    cbn. apply IH. intros j txn' Hj. rewrite Nat.add_succ_l, <- Nat.add_succ_r. by apply H.
Qed.

Lemma verify_batch_iff batch :
  verify_batch w header_from_bytes batch = Ok true ↔ signed_batch batch.
Proof.
  unfold verify_batch, signed_batch. rewrite Forall2_same_length_lookup. split.
  - intros (signature & Hs & H)%result_bind_inv.
    destruct (parse_hex (batch_header_signature batch)) as [sg|]; cbn in Hs; simplify_eq.
    apply result_bind_inv in H as (ok & Hok & H).
    destruct (verify _ _ _ w) as [ok'|] eqn:Hv; cbn in Hok; simplify_eq. destruct ok; [|done]. cbn in H.
    case_bool_decide as Hlen; [done|]. split_and!; [by eexists|done|].
    intros j id txn Hid Htxn. destruct (proj1 (verify_transactions_iff _ _ _) H j txn Htxn) as (id' & Hid' & ?).
    cbn in Hid'. congruence.
  - intros [(signature & Hs & Hv) [Hlen Htxns]]. rewrite Hs. cbn. rewrite Hv. cbn.
    rewrite bool_decide_eq_false_2 by (intros []; done). apply verify_transactions_iff.
    intros j txn Hj. cbn. destruct (lookup_lt_is_Some_2 (batch_transaction_ids batch) j) as [id Hid].
    { rewrite Hlen. by eapply lookup_lt_Some. }
    exists id. eauto.
Qed.

Lemma verify_batches_forall batches :
  verify_batches w header_from_bytes batches = Ok true ↔ Forall signed_batch batches.
Proof.
  induction batches as [|batch batches IH]; [done|]. cbn [verify_batches]. rewrite Forall_cons, <- IH, <- verify_batch_iff.
  split.
  - intros (ok & Hok & H)%result_bind_inv. destruct ok; [|done]. by split.
  - intros [-> ->]. done.
Qed.
End verified.

(** ** Queued batches *)

Section queued.
Context {W : Type} `{!SignatureVerifier W, !SystemClock W} {sha512 : Sha512}.
Context (header_from_bytes : bytes → option TransactionHeader).

(** The same service but for its queue and the statuses of its batches. *)
Definition requeued (q : list BatchPair) (h : BatchHistory) (s : Scabbard) : Scabbard :=
  with_shared (set_batch_queue q (set_state (on_history (λ _, h) (sh_state (sc_shared s))) (sc_shared s))) s.

Definition signature_list (batches : list BatchPair) : string :=
  foldr (λ b l, batch_header_signature b +:+ "," +:+ l) "" batches.

Lemma queue_batches_spec batches link (s : Scabbard) (w : W) :
  ∃ h w', queue_batches batches link (s, w) =
    (Ok (link +:+ signature_list batches), (requeued (batch_queue (sc_shared s) ++ batches) h s, w')).
Proof.
  revert link s w. induction batches as [|b batches IH]; intros link s w.
  - exists (st_batch_history (sh_state (sc_shared s))), w. cbn. rewrite app_nil_r, str_app_nil_r.
    by destruct s as [? ? [? ? ? ? []] ?].
  - cbn [queue_batches]. unfold mbind, eff_bind, on_w, shared_modify, modify.
    destruct (system_time w) as [now w1]. cbn -[queue_batches].
    edestruct IH as (h & w' & ->). exists h, w'. cbn. unfold requeued. cbn. f_equal.
    + by rewrite !str_app_assoc.
    + by rewrite <- app_assoc.
Qed.

Lemma string_pop_snoc s c : string_pop (s +:+ String c "") = s.
Proof.
  induction s as [|a s IH]; [done|]. rewrite str_app_cons. cbn [string_pop].
  destruct (s +:+ String c "") eqn:H; [by destruct s|]. by rewrite IH.
Qed.

(** The path of the batch statuses, with the ids of the batches. *)
Definition status_path (s : Scabbard) : string :=
  "/scabbard/" +:+ sc_circuit_id s +:+ "/" +:+ sc_service_id s +:+ "/batch_statuses?ids=".

(** C12: only signed batches are queued.  Submitted batches are all queued, in their
    order, when each of them is signed by its key, has exactly the transactions that
    its header lists, and each of these is signed, names the batch's signer as its
    batcher and has the hash of its payload; otherwise the service does not change
    at all.  Nothing but the queue and the statuses changes. *)
Theorem only_signed_batches_queued batches (s : Scabbard) (w : W) :
  (Forall (signed_batch w header_from_bytes) batches →
   ∃ h w', add_batches header_from_bytes batches (s, w) =
     (Ok (Some (string_pop (status_path s +:+ signature_list batches))),
      (requeued (batch_queue (sc_shared s) ++ batches) h s, w'))) ∧
  (¬ Forall (signed_batch w header_from_bytes) batches →
   (add_batches header_from_bytes batches (s, w)).2 = (s, w) ∧
   ∀ link, (add_batches header_from_bytes batches (s, w)).1 ≠ Ok (Some link)).
Proof.
  rewrite <- verify_batches_forall. unfold add_batches, mbind, eff_bind, get, lift. cbn.
  split.
  - intros ->. destruct (queue_batches_spec batches (status_path s) s w) as (h & w' & H).
    exists h, w'. unfold mbind, eff_bind, status_path in *. by rewrite H.
  - intros H. destruct (verify_batches w header_from_bytes batches) as [[]|]; done.
Qed.

(** The link of a single batch. *)
Lemma status_link s b :
  string_pop (status_path s +:+ signature_list [b]) = status_path s +:+ batch_header_signature b.
Proof. cbn. rewrite <- str_app_assoc. apply string_pop_snoc. Qed.
End queued.

(** ** Commits *)

(** Channels, the clock and the network do not touch the databases. *)
Class TransactFrame (W : Type) `{!Transact W, !SystemClock W, !ServiceNetworkSender W,
    !Sender W ProposalUpdate, !Sender W ConsensusMessage} : Prop := {
  frame_clock w : head_get (system_time w).2 = head_get w;
  frame_service to b w : head_get (service_send to b w).2 = head_get w;
  frame_update (u : ProposalUpdate) w : head_get (send u w).2 = head_get w;
  frame_message (m : ConsensusMessage) w : head_get (send m w).2 = head_get w;
}.

Section commits.
Context {W : Type} `{!Transact W, !TransactLaws W, !SystemClock W, !ServiceNetworkSender W,
  !Sender W ProposalUpdate, !Sender W ConsensusMessage, !TransactFrame W}.

Abbreviation state_of s := (sh_state (sc_shared s.1)) (only parsing).

(** What matters of a service: its root, its pending change, and the root on disk. *)
Definition core (s : Scabbard * W) :=
  (current_state_root (sh_state (sc_shared s.1)), st_pending_changes (sh_state (sc_shared s.1)), head_get s.2).

(** The pending change leads to the state root [id]. *)
Definition prepared (s : Scabbard * W) (id : ProposalId) : Prop :=
  ∃ sig receipts e, st_pending_changes (sh_state (sc_shared s.1)) = Some (sig, receipts) ∧
    compute_state_id (current_state_root (sh_state (sc_shared s.1))) (receipts_into_state_changes receipts) e = Some id.

Lemma prepared_core s s' id : core s' = core s → prepared s id → prepared s' id.
Proof. intros [= Hr Hp _] (sig & receipts & e & ? & ?). exists sig, receipts, e. by rewrite Hr, Hp. Qed.

(** Preparing a change does not change the state, on disk or in memory. *)
Lemma prepare_change_spec batch (st st' : ScabbardState) (w w' : W) id :
  prepare_change batch (st, w) = (Ok id, (st', w')) →
  current_state_root st' = current_state_root st ∧ head_get w' = head_get w ∧
  ∃ sig receipts, st_pending_changes st' = Some (sig, receipts) ∧
    compute_state_id (current_state_root st) (receipts_into_state_changes receipts) w' = Some id.
Proof.
  unfold prepare_change. intros (s0 & s1 & [= <- <-] & H)%eff_bind_inv.
  apply eff_bind_inv in H as (results & [st1 w1] & Hx & H). unfold on_db in Hx. cbn [fst] in Hx.
  pose proof (execute_head (current_state_root st) batch w) as Hh.
  destruct (execute_batch (current_state_root st) batch w) as [[rs|] w2]; cbn in Hx, Hh; simplify_eq.
  apply eff_bind_inv in H as ([] & s2 & [= <-] & H).
  apply eff_bind_inv in H as (receipts & s3 & Hc & H). unfold lift in Hc.
  destruct (collect_receipts results) as [rc|]; simplify_eq.
  apply eff_bind_inv in H as (s4 & s5 & [= <- <-] & H).
  apply eff_bind_inv in H as (root & s6 & Hroot & H). unfold lift in Hroot. cbn in Hroot.
  destruct (compute_state_id _ _ _) as [root'|] eqn:Hid; cbn in Hroot; simplify_eq.
  apply eff_bind_inv in H as ([] & s7 & [= <-] & [= <- <- <-]). cbn. split_and!; [done..|].
  by exists (batch_header_signature batch), receipts.
Qed.

(** A commit makes the prepared root the current one, in memory and on disk. *)
Lemma state_commit_spec (st st' : ScabbardState) (w w' : W) sig receipts id e :
  state_commit (st, w) = (Ok (), (st', w')) →
  st_pending_changes st = Some (sig, receipts) →
  compute_state_id (current_state_root st) (receipts_into_state_changes receipts) e = Some id →
  current_state_root st' = id ∧ read_current_state_root w' = Ok (Some id).
Proof.
  unfold state_commit. intros (s0 & s1 & [= <- <-] & H)%eff_bind_inv Hp Hid.
  apply eff_bind_inv in H as ([] & s1 & [= <-] & H). cbn in H. rewrite Hp in H.
  apply eff_bind_inv in H as (root & [st2 w2] & Hm & H). unfold on_db in Hm.
  destruct (merkle_commit _ _ w) as [[root'|] w3] eqn:Hc; cbn in Hm; simplify_eq.
  pose proof (merkle_commit_hex _ _ _ _ _ Hc) as [b Hb].
  apply (merkle_commit_id _ _ _ _ _ _ _ Hc) in Hid as ->.
  apply eff_bind_inv in H as ([] & s3 & [= <-] & H).
  apply eff_bind_inv in H as ([] & [st4 w4] & Hw & H). unfold write_current_state_root in Hw. cbn in Hw.
  rewrite Hb, parse_hex_to_hex in Hw. unfold on_db in Hw.
  destruct (head_put b w2) as [[[]|] w5] eqn:Hput; cbn in Hw; simplify_eq. apply head_put_get in Hput.
  apply eff_bind_inv in H as ([] & [st5 w5] & Hr & H). unfold on_db in Hr.
  pose proof (receipts_head receipts w4) as Hrh.
  destruct (receipts_append receipts w4) as [[[]|] w6]; cbn in Hr, Hrh; simplify_eq.
  apply eff_bind_inv in H as ([] & s6 & [= <-] & H).
  apply eff_bind_inv in H as ([] & s7 & [= <-] & [= <- <-]). cbn.
  destruct (retain_sending _ _ _). cbn. split; [done|].
  unfold read_current_state_root. by rewrite Hrh, Hput.
Qed.

(** *** What does not change the core *)

Abbreviation keeps m := (preserves core m).

Lemma keeps_shared_get {E} : keeps (shared_get (E:=E)).
Proof. done. Qed.
Lemma keeps_shared_modify {E} f :
  (∀ sh, current_state_root (sh_state (f sh)) = current_state_root (sh_state sh) ∧
         st_pending_changes (sh_state (f sh)) = st_pending_changes (sh_state sh)) →
  keeps (shared_modify (E:=E) f).
Proof. intros Hf [s w]. unfold core. cbn. by destruct (Hf (sc_shared s)) as [-> ->]. Qed.
Lemma keeps_on_w {E E' A} (f : E → E') (m : eff W E A) :
  (∀ w, head_get (m w).2 = head_get w) → keeps (on_w f m).
Proof. intros Hm [s w]. unfold core, on_w. specialize (Hm w). destruct (m w). cbn in *. by rewrite Hm. Qed.

Lemma keeps_service_send {E} (e : E) to b : keeps (on_w (λ _, e) (service_send to b)).
Proof. apply keeps_on_w, frame_service. Qed.
Lemma keeps_update {E} (e : SendError → E) (u : ProposalUpdate) : keeps (on_w e (send u)).
Proof. apply keeps_on_w, frame_update. Qed.
Lemma keeps_message {E} (e : SendError → E) (m : ConsensusMessage) : keeps (on_w e (send m)).
Proof. apply keeps_on_w, frame_message. Qed.
Lemma keeps_clock {E} : keeps (on_w (E':=E) id (λ w : W, let '(t, w) := system_time w in (Ok t, w))).
Proof. apply keeps_on_w. intros w. rewrite <- (frame_clock w). by destruct (system_time w). Qed.

Create HintDb keeps discriminated.
#[local] Hint Resolve preserves_ret preserves_throw preserves_lift preserves_get keeps_shared_get keeps_service_send
  keeps_update keeps_message keeps_clock : keeps.
Ltac solve_keeps :=
  repeat first
    [ progress intros
    | solve [eauto with keeps nocore]
    | apply preserves_bind
    | apply keeps_shared_modify; intros []; by split
    | case_match ].

Lemma keeps_send_services {E} (e : E) l b : keeps (send_services e l b).
Proof. induction l as [|x l IH]; cbn [send_services]; solve_keeps. Qed.
#[local] Hint Resolve keeps_send_services : keeps.

Section others.
Context `{!Codec ScabbardMessage, !Codec BatchPair, !Codec ProposalProto, !Codec ConsensusMessageProto}.
Context `{!SignatureVerifier W, sha512 : Sha512} (header_from_bytes : bytes → option TransactionHeader).

Lemma keeps_queue_batches batches link : keeps (queue_batches batches link).
Proof. revert link. induction batches as [|b batches IH]; intros link; cbn [queue_batches]; solve_keeps. Qed.
#[local] Hint Resolve keeps_queue_batches : keeps.
Lemma keeps_add_batches batches : keeps (add_batches header_from_bytes batches).
Proof. unfold add_batches. solve_keeps. Qed.
Lemma keeps_handle_message b ctx : keeps (scabbard_handle_message b ctx).
Proof. unfold scabbard_handle_message. solve_keeps. Qed.
Lemma keeps_subscribe started : keeps (scabbard_subscribe started).
Proof.
  intros [s w]. unfold scabbard_subscribe, subscribe_to_state. by destruct (dealer_subscribe _ _ _) as [[]].
Qed.
Lemma keeps_send_to peer_id message : keeps (scabbard_send_to peer_id message).
Proof. unfold scabbard_send_to, scabbard_consensus_envelope. solve_keeps. Qed.
Lemma keeps_broadcast message : keeps (scabbard_broadcast message).
Proof. unfold scabbard_broadcast, scabbard_consensus_envelope. solve_keeps. Qed.

(** *** The proposals of consensus *)

(** The root, in memory and on disk. *)
Definition roots (s : Scabbard * W) := (current_state_root (sh_state (sc_shared s.1)), head_get s.2).
Lemma core_roots s s' : core s' = core s → roots s' = roots s.
Proof. by intros [= ? ? ?]; unfold roots; f_equal. Qed.

Abbreviation keeps_roots m := (preserves roots m).
Lemma keeps_keeps_roots {E A} (m : eff (Scabbard * W) E A) : keeps m → keeps_roots m.
Proof. intros Hm s. apply core_roots, Hm. Qed.

Lemma prepare_change_roots batch (st : ScabbardState) (w : W) :
  current_state_root (prepare_change batch (st, w)).2.1 = current_state_root st ∧
  head_get (prepare_change batch (st, w)).2.2 = head_get w.
Proof.
  unfold prepare_change, mbind, eff_bind, get, on_db, lift, on_state, modify. cbn.
  pose proof (execute_head (current_state_root st) batch w) as Hh.
  destruct (execute_batch (current_state_root st) batch w) as [[rs|] w1]; cbn in *; [|done].
  destruct (collect_receipts rs); cbn; [|done]. by destruct (compute_state_id _ _ _).
Qed.
Lemma keeps_roots_prepare {E} (f : ScabbardStateError → E) batch : keeps_roots (in_state f (prepare_change batch)).
Proof.
  intros [s w]. unfold roots, in_state. cbn.
  destruct (prepare_change_roots batch (sh_state (sc_shared s)) w) as [Hr Hh].
  destruct (prepare_change batch (sh_state (sc_shared s), w)) as [r [st w']]. cbn in *. by rewrite Hr, Hh.
Qed.
Ltac solve_keeps_roots :=
  repeat first
    [ progress intros
    | solve [apply keeps_keeps_roots; solve_keeps]
    | apply keeps_roots_prepare
    | apply preserves_bind
    | case_match ].

Lemma create_roots prev data : keeps_roots (scabbard_create_proposal prev data).
Proof. unfold scabbard_create_proposal, sc_update_send. solve_keeps_roots. Qed.
Lemma check_roots id : keeps_roots (scabbard_check_proposal id).
Proof. unfold scabbard_check_proposal, sc_update_send. solve_keeps_roots. Qed.
Lemma reject_roots id : keeps_roots (scabbard_reject_proposal id).
Proof.
  unfold scabbard_reject_proposal. solve_keeps_roots. intros [s w]. done.
Qed.

(** The state root that the change of the first queued batch, or of a proposed one, leads
    to, when the change can be prepared. *)
Definition prepare_hash (batch : option BatchPair) (s : Scabbard * W) : option ProposalId :=
  b ← batch;
  match (prepare_change b (sh_state (sc_shared s.1), s.2)).1 with Ok hash => Some hash | Err _ => None end.

Lemma prepare_change_err batch (st st' : ScabbardState) (w w' : W) e :
  prepare_change batch (st, w) = (Err e, (st', w')) →
  current_state_root st' = current_state_root st ∧ st_pending_changes st' = st_pending_changes st.
Proof.
  unfold prepare_change, mbind, eff_bind, get, on_db, lift, on_state, modify. cbn.
  destruct (execute_batch (current_state_root st) batch w) as [[rs|] w1]; cbn; [|by intros [= _ <- _]].
  destruct (collect_receipts rs); cbn; [|by intros [= _ <- _]].
  by destruct (compute_state_id _ _ _); cbn; [|intros [= _ <- _]].
Qed.

(** A change that could be prepared is pending; otherwise the one before still is. *)
Lemma in_state_prepare {E} (f : ScabbardStateError → E) batch (s : Scabbard * W) :
  match in_state f (prepare_change batch) s with
  | (Ok hash, s') => prepare_hash (Some batch) s = Some hash ∧ prepared s' hash
  | (Err _, s') => prepare_hash (Some batch) s = None ∧ ∀ id, prepared s id → prepared s' id
  end.
Proof.
  destruct s as [s w]. unfold in_state, prepare_hash. cbn [mbind option_bind fst snd].
  destruct (prepare_change batch (sh_state (sc_shared s), w)) as [[hash|] [st w']] eqn:H; cbn; (split; [done|]).
  - apply prepare_change_spec in H as (Hr & _ & sig & receipts & Hp & Hid).
    exists sig, receipts, w'. cbn. by rewrite Hr.
  - apply prepare_change_err in H as [Hr Hp]. intros id (sig & receipts & e0 & ? & ?).
    exists sig, receipts, e0. cbn in *. by rewrite Hr, Hp.
Qed.

(** What comes after a change was prepared does not touch it. *)
Lemma prepare_then {E A} (f : ScabbardStateError → E) batch (k : string → eff (Scabbard * W) E A) s :
  (∀ hash, keeps (k hash)) →
  let s' := (in_state f (prepare_change batch) ≫= k) s in
  match prepare_hash (Some batch) s with
  | Some hash => prepared s'.2 hash
  | None => ∀ id, prepared s id → prepared s'.2 id
  end.
Proof.
  intros Hk. unfold mbind, eff_bind. pose proof (in_state_prepare f batch s) as Hp.
  destruct (in_state f (prepare_change batch) s) as [[hash|] s']; destruct Hp as [-> Hp]; [|done].
  by eapply prepared_core; [apply Hk|].
Qed.

Lemma check_prepares id s :
  match prepare_hash (proposed_batches (sc_shared s.1) !! id) s with
  | Some hash => prepared (scabbard_check_proposal id s).2 hash
  | None => ∀ id', prepared s id' → prepared (scabbard_check_proposal id s).2 id'
  end.
Proof.
  unfold scabbard_check_proposal. rewrite (eff_bind_ok shared_get _ s (sc_shared s.1) s) by done.
  destruct (proposed_batches (sc_shared s.1) !! id) as [batch|]; [|intros id' Hp; exact Hp].
  erewrite eff_bind_ok by reflexivity. apply prepare_then. intros hash. unfold sc_update_send. solve_keeps.
Qed.

Lemma create_prepares prev data s :
  match prepare_hash (head (batch_queue (sc_shared s.1))) s with
  | Some hash => prepared (scabbard_create_proposal prev data s).2 hash
  | None => ∀ id', prepared s id' → prepared (scabbard_create_proposal prev data s).2 id'
  end.
Proof.
  unfold scabbard_create_proposal. rewrite (eff_bind_ok shared_get _ s (sc_shared s.1) s) by done.
  destruct (batch_queue (sc_shared s.1)) as [|batch queue] eqn:Hq; cbn [head].
  - intros id'. apply prepared_core. unfold sc_update_send. apply keeps_update.
  - erewrite eff_bind_ok by reflexivity.
    match goal with |- context [(in_state pm_error (prepare_change batch) ≫= ?k) ?s1] =>
      pose proof (prepare_then pm_error batch k s1) as H; cbn zeta in H end.
    destruct s as [s w]. cbn in H. unfold prepare_hash in *. cbn in H |- *.
    destruct (prepare_change batch _).1; apply H; intros hash'; unfold sc_update_send; solve_keeps.
Qed.

Lemma accept_commits id data s s' id' :
  scabbard_accept_proposal id data s = (Ok (), s') → prepared s id' →
  current_state_root (sh_state (sc_shared s'.1)) = id' ∧ read_current_state_root s'.2 = Ok (Some id').
Proof.
  destruct s as [s w]. unfold scabbard_accept_proposal. intros H (sig & receipts & e & Hp & Hid).
  apply eff_bind_inv in H as (sh & s1 & [= <- <-] & H). apply eff_bind_inv in H as ([] & s2 & [= <-] & H).
  apply eff_bind_inv in H as (batch & s3 & Hb & H). unfold lift in Hb.
  destruct (proposed_batches _ !! id); cbn in Hb; simplify_eq.
  apply eff_bind_inv in H as ([] & s4 & Hc & H). unfold in_state in Hc. cbn in Hc, Hp, Hid.
  destruct (state_commit (sh_state (sc_shared s), w)) as [[[]|] [st w']] eqn:Hcommit; cbn in Hc; simplify_eq.
  destruct (state_commit_spec _ _ _ _ _ _ _ _ Hcommit Hp Hid) as [Hroot Hhead].
  pose proof (keeps_update (λ _, UpdateSendFailed) (ProposalAccepted id)) as Hk.
  match type of H with ?m ?s0 = _ => specialize (Hk s0); change (core (m s0).2 = core s0) in Hk; rewrite H in Hk end.
  apply core_roots in Hk. injection Hk as Hk1 Hk2. cbn in Hk1, Hk2. rewrite Hk1. split; [done|].
  unfold read_current_state_root in *. by rewrite Hk2.
Qed.

(** ** Replicas *)

(** What a service does: batches are submitted to it, messages come in, applications
    subscribe, consensus sends messages, and creates, checks, rejects and accepts
    proposals. *)
Inductive replica_op :=
  | OpAddBatches (batches : list BatchPair)
  | OpMessage (b : bytes) (ctx : ServiceMessageContext)
  | OpSubscribe (started : bool)
  | OpSendTo (peer_id : PeerId) (b : bytes)
  | OpBroadcast (b : bytes)
  | OpCreate (prev : option ProposalId) (data : bytes)
  | OpCheck (id : ProposalId)
  | OpReject (id : ProposalId)
  | OpAccept (id : ProposalId) (data : option bytes).

Definition replica_exec (op : replica_op) (s : Scabbard * W) : bool * (Scabbard * W) :=
  let ran {E A} (m : eff (Scabbard * W) E A) :=
    let '(r, s') := m s in (match r with Ok _ => true | Err _ => false end, s') in
  match op with
  | OpAddBatches batches => ran (add_batches header_from_bytes batches)
  | OpMessage b ctx => ran (scabbard_handle_message b ctx)
  | OpSubscribe started => ran (scabbard_subscribe started)
  | OpSendTo peer_id b => ran (scabbard_send_to peer_id b)
  | OpBroadcast b => ran (scabbard_broadcast b)
  | OpCreate prev data => ran (scabbard_create_proposal prev data)
  | OpCheck id => ran (scabbard_check_proposal id)
  | OpReject id => ran (scabbard_reject_proposal id)
  | OpAccept id data => ran (scabbard_accept_proposal id data)
  end.

(** The proposal whose change was prepared last, if it was not rejected or accepted
    since: creating and checking a proposal prepare its change, when they can, whatever
    they find; rejecting and accepting any proposal that is known drop the change. *)
Definition validated_after (op : replica_op) (s : Scabbard * W) (validated : option ProposalId) : option ProposalId :=
  let prepares batch := match prepare_hash batch s with Some hash => Some hash | None => validated end in
  match op with
  | OpCreate _ _ => prepares (head (batch_queue (sc_shared s.1)))
  | OpCheck id => prepares (proposed_batches (sc_shared s.1) !! id)
  | OpReject id | OpAccept id _ =>
      if decide (is_Some (proposed_batches (sc_shared s.1) !! id)) then None else validated
  | _ => validated
  end.

(** A proposal that is accepted is the one validated last; an accept that fails has not
    changed the root. *)
Definition orderly_op (op : replica_op) (s : Scabbard * W) (validated : option ProposalId) : Prop :=
  match op with
  | OpAccept id _ =>
      if (replica_exec op s).1 then validated = Some id else roots (replica_exec op s).2 = roots s
  | _ => True
  end.
Definition accepts (op : replica_op) (s : Scabbard * W) : list ProposalId :=
  match op with
  | OpAccept id _ => if (replica_exec op s).1 then [id] else []
  | _ => []
  end.

(** A run: the proposals it accepts, in order, and where it ends. *)
Fixpoint replica_run (ops : list replica_op) (s : Scabbard * W) : list ProposalId * (Scabbard * W) :=
  match ops with
  | [] => ([], s)
  | op :: ops => let '(ids, s') := replica_run ops (replica_exec op s).2 in (accepts op s ++ ids, s')
  end.
Fixpoint orderly (ops : list replica_op) (s : Scabbard * W) (validated : option ProposalId) : Prop :=
  match ops with
  | [] => True
  | op :: ops =>
      orderly_op op s validated ∧ orderly ops (replica_exec op s).2 (validated_after op s validated)
  end.

Definition validated_prepared (s : Scabbard * W) (validated : option ProposalId) : Prop :=
  ∀ id, validated = Some id → prepared s id.

(** The root is that of the last proposal accepted, in memory and on disk. *)
Definition root_of (ids : list ProposalId) (s s' : Scabbard * W) : Prop :=
  match last ids with
  | None => roots s' = roots s
  | Some id => current_state_root (sh_state (sc_shared s'.1)) = id ∧ read_current_state_root s'.2 = Ok (Some id)
  end.
Lemma root_of_app ids ids' s s1 s2 : root_of ids s s1 → root_of ids' s1 s2 → root_of (ids ++ ids') s s2.
Proof.
  unfold root_of. rewrite last_app. destruct (last ids'); [done|]. intros H1 H2. injection H2 as H2 H3.
  destruct (last ids); unfold roots, read_current_state_root in *; by rewrite H2, H3.
Qed.

Lemma exec_ran {E A} (m : eff (Scabbard * W) E A) s :
  (let '(r, s') := m s in (match r with Ok _ => true | Err _ => false end, s')).2 = (m s).2.
Proof. by destruct (m s). Qed.

(** An operation other than an accept keeps the roots, and the pending change is that of
    the proposal validated last. *)
Lemma replica_keeps {E A} (m : eff (Scabbard * W) E A) s validated :
  keeps m → validated_prepared s validated → validated_prepared (m s).2 validated ∧ roots (m s).2 = roots s.
Proof. intros Hm Hv. split; [|apply core_roots, Hm]. intros id Hid. by eapply prepared_core; [apply Hm|apply Hv]. Qed.

Lemma reject_pending id s validated :
  validated_prepared s validated →
  validated_prepared (scabbard_reject_proposal id s).2
    (if decide (is_Some (proposed_batches (sc_shared s.1) !! id)) then None else validated).
Proof.
  intros Hv id'. case_decide as Hd; [done|]. destruct s as [s w]. cbn [fst] in Hd.
  unfold scabbard_reject_proposal, mbind, eff_bind, lift. cbn.
  destruct (proposed_batches (sc_shared s) !! id); [by destruct Hd|]. exact (Hv id').
Qed.
Lemma accept_pending id data s validated :
  validated_prepared s validated →
  validated_prepared (scabbard_accept_proposal id data s).2
    (if decide (is_Some (proposed_batches (sc_shared s.1) !! id)) then None else validated).
Proof.
  intros Hv id'. case_decide as Hd; [done|]. destruct s as [s w]. cbn [fst] in Hd.
  unfold scabbard_accept_proposal, mbind, eff_bind, lift. cbn.
  destruct (proposed_batches (sc_shared s) !! id); [by destruct Hd|]. exact (Hv id').
Qed.

Lemma replica_step op s validated :
  validated_prepared s validated → orderly_op op s validated →
  validated_prepared (replica_exec op s).2 (validated_after op s validated) ∧
  root_of (accepts op s) s (replica_exec op s).2.
Proof.
  intros Hv Ho. destruct op as [batches|b ctx|started|peer_id b|b|prev data|id|id|id data];
    cbn [accepts validated_after orderly_op] in *; [unfold replica_exec; rewrite exec_ran..|].
  - apply replica_keeps, Hv. apply keeps_add_batches.
  - apply replica_keeps, Hv. apply keeps_handle_message.
  - apply replica_keeps, Hv. apply keeps_subscribe.
  - apply replica_keeps, Hv. apply keeps_send_to.
  - apply replica_keeps, Hv. apply keeps_broadcast.
  - split; [|apply create_roots]. pose proof (create_prepares prev data s) as H.
    destruct (prepare_hash _ s); [by intros ? [= <-]|]. intros id Hid. by apply H, Hv.
  - split; [|apply check_roots]. pose proof (check_prepares id s) as H.
    destruct (prepare_hash _ s); [by intros ? [= <-]|]. intros id' Hid. by apply H, Hv.
  - split; [by apply reject_pending|apply reject_roots].
  - unfold replica_exec in *. rewrite exec_ran in *. split; [by apply accept_pending|].
    destruct (scabbard_accept_proposal id data s) as [[[]|] s'] eqn:Ha; cbn in *; [|done].
    by apply (accept_commits _ _ _ _ _ Ha), Hv.
Qed.

Lemma replica_run_root ops s validated :
  validated_prepared s validated → orderly ops s validated →
  root_of (replica_run ops s).1 s (replica_run ops s).2.
Proof.
  revert s validated. induction ops as [|op ops IH]; intros s validated Hv Ho; [done|].
  destruct Ho as [Ho1 Ho2]. destruct (replica_step op s validated Hv Ho1) as [Hv' Hr].
  specialize (IH _ _ Hv' Ho2). cbn. destruct (replica_run ops (replica_exec op s).2) as [ids s'].
  by eapply root_of_app.
Qed.

End others.
End commits.
