(* ===== verification/ScabbardHistory.v ===== *)
(** * What scabbard shows of its batches

    The history of the batches of a scabbard service, and what the subscribers to its
    state are sent. *)

From S2P Require Import Prelude Hex Events AdminShared ScabbardState.
From Stdlib Require Import Lia ZArith.

(** ** The history of the batches *)

(** A batch is submitted, executed or committed. *)
Inductive history_op :=
  | HAdd (signature : string) (now : Z)
  | HResult (signature : string) (results : list TransactionExecutionResult)
  | HCommit (signature : string).
Definition history_exec (h : BatchHistory) (op : history_op) : BatchHistory :=
  match op with
  | HAdd signature now => history_add_batch signature now h
  | HResult signature results => update_batch_status signature (batch_status results) h
  | HCommit signature => history_commit signature h
  end.
Definition history_run (ops : list history_op) : BatchHistory := foldl history_exec batch_history_default ops.

(** How the status of a batch changes. *)
Inductive status_step : BatchStatus → BatchStatus → Prop :=
  | status_same s : status_step s s
  | status_executed results : status_step BatchPending (batch_status results)
  | status_committed l : status_step (BatchValid l) (BatchCommitted l).

Definition history_ok (limit : nat) (h : BatchHistory) : Prop :=
  bh_limit h = limit ∧ size (bh_history h) ≤ limit ∧ ∀ k i, bh_history h !! k = Some i → bi_id i = k.

Lemma oldest_spec l :
  match oldest l with
  | Some e => e ∈ l ∧ ∀ e', e' ∈ l → (bi_timestamp e.2 ≤ bi_timestamp e'.2)%Z
  | None => l = []
  end.
Proof.
  induction l as [|e l IH]; [done|]. cbn. destruct (oldest l) as [e'|].
  - destruct IH as [Hin Hmin]. destruct (Z.ltb_spec (bi_timestamp e'.2) (bi_timestamp e.2)) as [Hlt|Hge]; split.
    + set_solver.
    + intros e'' [->|He]%elem_of_cons; [lia|auto].
    + set_solver.
    + intros e'' [->|He]%elem_of_cons; [lia|]. specialize (Hmin e'' He). lia.
  - subst. split; [set_solver|]. intros e' ->%list_elem_of_singleton. lia.
Qed.

(** Adding a batch evicts at most one other, one of the oldest, and only when the
    history is full. *)
Lemma history_add_spec signature now limit h :
  history_ok limit h →
  ∃ evicted, (evicted = None ∧ size (<[signature := mkBatchInfo signature BatchPending now]> (bh_history h)) ≤ limit ∨
    ∃ k i, evicted = Some k ∧
      (limit ≤ size (bh_history h) ∧
       limit < size (<[signature := mkBatchInfo signature BatchPending now]> (bh_history h))) ∧
      <[signature := mkBatchInfo signature BatchPending now]> (bh_history h) !! k = Some i ∧
      ∀ k' i', <[signature := mkBatchInfo signature BatchPending now]> (bh_history h) !! k' = Some i' →
               (bi_timestamp i ≤ bi_timestamp i')%Z) ∧
  history_add_batch signature now h =
    mkBatchHistory (from_option (λ k, delete k) id evicted
      (<[signature := mkBatchInfo signature BatchPending now]> (bh_history h))) limit ∧
  history_ok limit (history_add_batch signature now h).
Proof.
  intros (Hlim & Hsize & Hid). unfold history_add_batch. rewrite Hlim.
  set (m := <[signature := mkBatchInfo signature BatchPending now]> (bh_history h)).
  assert (∀ k i, m !! k = Some i → bi_id i = k) as Hm.
  { intros k i [[<- <-]|[_ H]]%lookup_insert_Some; [done|eauto]. }
  assert (size m ≤ S (size (bh_history h))) as Hs.
  { unfold m. destruct (bh_history h !! signature) eqn:Hl.
    - rewrite map_size_insert_Some by (by eexists). lia.
    - rewrite map_size_insert_None by done. lia. }
  destruct (Nat.ltb_spec limit (size m)) as [Hlt|Hge].
  2: { exists None. split_and!; [by left|done|]. split_and!; [done..|]. cbn. done. }
  pose proof (oldest_spec (map_to_list m)) as Ho. destruct (oldest (map_to_list m)) as [[k i]|].
  - destruct Ho as [Hin%elem_of_map_to_list Hmin]. exists (Some k). split_and!.
    + right. exists k, i. split_and!; [done|lia|lia|done|].
      intros k' i' Hk'. by apply (Hmin (k', i')), elem_of_map_to_list.
    + done.
    + split_and!; [done|cbn; rewrite map_size_delete_Some by (by eexists); lia|].
      cbn. intros k' i' [_ H]%lookup_delete_Some. eauto.
  - apply map_to_list_empty_iff in Ho. rewrite Ho, map_size_empty in Hlt. lia.
Qed.

Lemma history_set_ok limit signature status i h :
  history_ok limit h → bh_history h !! signature = Some i →
  history_ok limit (mkBatchHistory (<[signature := set_status status i]> (bh_history h)) (bh_limit h)).
Proof.
  intros (Hlim & Hsize & Hid) Hi. split_and!; cbn; [done|by rewrite map_size_insert_Some by (by eexists)|].
  intros k i' [[<- <-]|[_ H]]%lookup_insert_Some; cbn; eauto.
Qed.

Lemma history_exec_ok limit op h : history_ok limit h → history_ok limit (history_exec h op).
Proof.
  intros Hok. destruct op as [signature now|signature results|signature]; cbn [history_exec].
  - by destruct (history_add_spec signature now limit h Hok) as (? & ? & ? & ?).
  - unfold update_batch_status. destruct (bh_history h !! signature) as [i|] eqn:Hi; [|done].
    case_decide; [|done]. by apply history_set_ok.
  - unfold history_commit. destruct (bh_history h !! signature) as [i|] eqn:Hi; [|done].
    destruct (bi_status i); try done. by apply history_set_ok.
Qed.

Lemma history_run_ok ops : history_ok 100 (history_run ops).
Proof.
  unfold history_run. assert (history_ok 100 batch_history_default) as H.
  { split_and!; [done|cbn; rewrite map_size_empty; lia|]. intros k i. cbn. by rewrite lookup_empty. }
  revert H. generalize batch_history_default. induction ops as [|op ops IH]; intros h H; [done|].
  cbn. by apply IH, history_exec_ok.
Qed.

Lemma history_exec_status op h sig i i' :
  (∃ limit, history_ok limit h) →
  bh_history h !! sig = Some i → bh_history (history_exec h op) !! sig = Some i' →
  (∃ now, op = HAdd sig now ∧ bi_status i' = BatchPending) ∨ status_step (bi_status i) (bi_status i').
Proof.
  intros [limit Hok] Hi Hi'. destruct op as [signature now|signature results|signature]; cbn [history_exec] in Hi'.
  - destruct (history_add_spec signature now limit h Hok) as (ev & _ & Heq & _). rewrite Heq in Hi'. cbn in Hi'.
    assert (<[signature := mkBatchInfo signature BatchPending now]> (bh_history h) !! sig = Some i') as Hl.
    { destruct ev as [k|]; cbn in Hi'; [|done]. by apply lookup_delete_Some in Hi' as [_ ?]. }
    apply lookup_insert_Some in Hl as [[<- <-]|[_ Hl]]; [left; by eexists|]. right.
    rewrite Hi in Hl. injection Hl as <-. constructor.
  - right. unfold update_batch_status in Hi'. destruct (bh_history h !! signature) as [j|] eqn:Hj.
    2: { simplify_eq. constructor. }
    case_decide as Hp; [|simplify_eq; constructor]. cbn in Hi'.
    apply lookup_insert_Some in Hi' as [[<- <-]|[_ Hl]]; simplify_eq; [rewrite Hp|]; constructor.
  - right. unfold history_commit in Hi'. destruct (bh_history h !! signature) as [j|] eqn:Hj.
    2: { simplify_eq. constructor. }
    destruct (bi_status j) eqn:Hs; try (simplify_eq; constructor). cbn in Hi'.
    apply lookup_insert_Some in Hi' as [[<- <-]|[_ Hl]]; simplify_eq; [rewrite Hs|]; constructor.
Qed.

(** What an operation does to the entries: a result is kept of a pending batch only, a
    commit of a valid one; adding a batch drops the oldest entry when there are more than
    the limit. *)
Definition executed (results : list TransactionExecutionResult) (i : BatchInfo) : BatchInfo :=
  if decide (bi_status i = BatchPending) then set_status (batch_status results) i else i.
Definition committed (i : BatchInfo) : BatchInfo :=
  match bi_status i with BatchValid l => set_status (BatchCommitted l) i | _ => i end.
Definition history_effect (limit : nat) (op : history_op) (m m' : gmap string BatchInfo) : Prop :=
  match op with
  | HAdd sig now =>
      let added := <[sig := mkBatchInfo sig BatchPending now]> m in
      (size added ≤ limit ∧ m' = added) ∨
      (limit < size added ∧ ∃ k i, added !! k = Some i ∧ m' = delete k added ∧
         ∀ k' i', added !! k' = Some i' → (bi_timestamp i ≤ bi_timestamp i')%Z)
  | HResult sig results => m' = alter (executed results) sig m
  | HCommit sig => m' = alter committed sig m
  end.

Lemma alter_lookup {A} (f : A → A) k x (m : gmap string A) :
  m !! k = Some x → alter f k m = <[k := f x]> m.
Proof. intros H. apply map_eq. intros j. rewrite lookup_insert. case_decide; subst; by simplify_map_eq. Qed.
Lemma alter_same {A} (f : A → A) k (m : gmap string A) : (∀ x, m !! k = Some x → f x = x) → alter f k m = m.
Proof.
  intros H. apply map_eq. intros j. rewrite lookup_alter. case_decide; [subst j|done].
  destruct (m !! k) as [x|] eqn:Hx; [|done]. cbn. by rewrite (H x).
Qed.

Lemma history_exec_effect limit op h :
  history_ok limit h → history_effect limit op (bh_history h) (bh_history (history_exec h op)).
Proof.
  intros Hok. destruct op as [sig now|sig results|sig]; cbn [history_exec history_effect].
  - destruct (history_add_spec sig now limit h Hok) as (ev & Hev & -> & _).
    destruct Hev as [[-> ?]|(k & i & -> & [_ ?] & ? & ?)]; [by left|]. right. split; [done|]. by exists k, i.
  - unfold update_batch_status. destruct (bh_history h !! sig) as [i|] eqn:Hi.
    2: { symmetry. apply alter_same. congruence. }
    case_decide as Hp; cbn; [rewrite (alter_lookup _ _ _ _ Hi); unfold executed; by rewrite decide_True|].
    symmetry. apply alter_same. intros x Hx. unfold executed. rewrite decide_False; congruence.
  - unfold history_commit. destruct (bh_history h !! sig) as [i|] eqn:Hi.
    2: { symmetry. apply alter_same. congruence. }
    pose proof (alter_lookup committed _ _ _ Hi) as Ha. unfold committed in Ha.
    destruct (bi_status i) eqn:Hs; cbn; unfold committed; rewrite Ha; try done; symmetry; by apply insert_id.
Qed.

(** C32: the history of batches is bounded and truthful.  However many batches are
    submitted, executed and committed, the history has at most a hundred entries,
    each under its own id.  A batch that is submitted is pending; an execution sets the
    status of a pending batch to its result, and a commit that of a valid one to
    committed, and no other entry changes: so the status of an entry goes from pending to
    what its execution gave, from valid to committed, and back to pending only when the
    batch is submitted again.  An entry leaves the history only when there would be more
    than a hundred, one at a time, and none is older than it, so that a batch with a
    timestamp later than all others in the history is there. *)
Theorem batch_history_bounded ops op :
  let h := history_run ops in
  let h' := history_exec h op in
  size (bh_history h') ≤ 100 ∧
  (∀ sig i, bh_history h' !! sig = Some i → bi_id i = sig) ∧
  (∀ sig i i', bh_history h !! sig = Some i → bh_history h' !! sig = Some i' →
     (∃ now, op = HAdd sig now ∧ bi_status i' = BatchPending) ∨ status_step (bi_status i) (bi_status i')) ∧
  history_effect 100 op (bh_history h) (bh_history h') ∧
  (∀ sig now, op = HAdd sig now →
     (∀ k i, k ≠ sig → bh_history h !! k = Some i → (bi_timestamp i < now)%Z) →
     bh_history h' !! sig = Some (mkBatchInfo sig BatchPending now)).
Proof.
  intros h h'. pose proof (history_run_ok ops) as Hok. fold h in Hok.
  destruct (history_exec_ok 100 op h Hok) as (_ & Hsize & Hid).
  split_and!; [done..|eauto using history_exec_status|by apply history_exec_effect|].
  intros sig now -> Hlt. unfold h'. cbn [history_exec].
  destruct (history_add_spec sig now 100 h Hok) as (ev & Hev & -> & _). cbn.
  destruct Hev as [[-> _]|(k & i & -> & [Hfull _] & Hk & Hmin)]; cbn; [by rewrite lookup_insert_eq|].
  destruct (decide (k = sig)) as [->|Hne]; [exfalso|by rewrite lookup_delete_ne, lookup_insert_eq].
  rewrite lookup_insert_eq in Hk. injection Hk as <-. cbn in Hmin.
  destruct (map_choose (delete sig (bh_history h))) as (k' & i' & Hk').
  { intros He. pose proof (map_size_delete sig (bh_history h)) as Hs. rewrite He, map_size_empty in Hs.
    destruct (bh_history h !! sig); cbn in Hs; lia. }
  apply lookup_delete_Some in Hk' as [Hk1 Hk2]. specialize (Hlt k' i' (not_eq_sym Hk1) Hk2).
  specialize (Hmin k' i'). rewrite lookup_insert_ne in Hmin by done. specialize (Hmin Hk2). cbn in Hmin. lia.
Qed.

(** ** Subscribers *)

Section subscribers.
Context {D : Type} `{!Transact D}.

(** The senders are those of websockets that were started, each once. *)
Definition senders_ok (st : ScabbardState) : Prop :=
  NoDup (st_event_senders st) ∧
  ∀ x, x ∈ st_event_senders st ∨ is_Some (st_open (st_streams st) !! x) → x < st_next (st_streams st).

(** A websocket is closed by its client. *)
Definition close_stream (x : nat) (st : ScabbardState) : ScabbardState :=
  set_senders (st_event_senders st)
    (mkStreams (delete x (st_open (st_streams st))) (st_next (st_streams st))) st.

(** What happens to the state while the subscriber [x] is there, with the changes
    that are committed; other websockets may be closed, not that of [x]. *)
Inductive while_subscribed (x : nat) : ScabbardState → list (list StateChange) → ScabbardState → Prop :=
  | ws_done st : while_subscribed x st [] st
  | ws_prepare batch d st st' cs :
      while_subscribed x (prepare_change batch (st, d)).2.1 cs st' → while_subscribed x st cs st'
  | ws_rollback st st' cs :
      while_subscribed x (set_pending None st) cs st' → while_subscribed x st cs st'
  | ws_subscribe started st st' cs :
      while_subscribed x (subscribe_to_state started st).2 cs st' → while_subscribed x st cs st'
  | ws_close y st st' cs :
      y ≠ x → while_subscribed x (close_stream y st) cs st' → while_subscribed x st cs st'
  | ws_commit sig receipts d d' st st1 st' cs :
      st_pending_changes st = Some (sig, receipts) →
      state_commit (st, d) = (Ok (), (st1, d')) →
      while_subscribed x st1 cs st' →
      while_subscribed x st (receipts_into_state_changes receipts :: cs) st'.

(** The websocket of the subscriber [x] was sent the events [l]. *)
Definition was_sent (x : nat) (l : list (list StateChangeEvent)) (st : ScabbardState) : Prop :=
  senders_ok st ∧ x ∈ st_event_senders st ∧ st_open (st_streams st) !! x = Some (WrapMessage <$> l).

Definition events_of (st : ScabbardState) := (st_event_senders st, st_streams st).
Lemma was_sent_events x l st st' : events_of st' = events_of st → was_sent x l st → was_sent x l st'.
Proof. intros [= He Hs]. unfold was_sent, senders_ok. by rewrite He, Hs. Qed.

Lemma prepare_change_events batch st (d : D) : events_of (prepare_change batch (st, d)).2.1 = events_of st.
Proof.
  unfold prepare_change, mbind, eff_bind, get, on_db, lift, on_state, modify. cbn.
  destruct (execute_batch _ _ _) as [[rs|] d1]; cbn; [|done].
  destruct (collect_receipts rs); cbn; [|done]. by destruct (compute_state_id _ _ _).
Qed.

(** What a commit does to the senders. *)
Lemma state_commit_events st st' (d d' : D) sig receipts :
  state_commit (st, d) = (Ok (), (st', d')) → st_pending_changes st = Some (sig, receipts) →
  events_of st' = retain_sending (receipts_into_state_changes receipts) (st_event_senders st) (st_streams st).
Proof.
  unfold state_commit. intros (s0 & s1 & [= <- <-] & H)%eff_bind_inv Hp.
  apply eff_bind_inv in H as ([] & s1 & [= <-] & H). cbn in H. rewrite Hp in H.
  apply eff_bind_inv in H as (root & [st2 d2] & Hm & H). unfold on_db in Hm.
  destruct (merkle_commit _ _ d) as [[root'|] d3]; cbn in Hm; simplify_eq.
  apply eff_bind_inv in H as ([] & s3 & [= <-] & H).
  apply eff_bind_inv in H as ([] & [st4 d4] & Hw & H). unfold write_current_state_root, on_db in Hw. cbn in Hw.
  destruct (parse_hex root) as [b|[]]; [|done..].
  destruct (head_put b d2) as [[[]|] d5]; cbn in Hw; simplify_eq.
  apply eff_bind_inv in H as ([] & [st5 d5] & Hr & H). unfold on_db in Hr.
  destruct (receipts_append receipts d4) as [[[]|] d6]; cbn in Hr; simplify_eq.
  apply eff_bind_inv in H as ([] & s6 & [= <-] & H).
  apply eff_bind_inv in H as ([] & s7 & [= <-] & [= <- <-]). cbn. by destruct (retain_sending _ _ _).
Qed.

Lemma subscribe_ok started st :
  senders_ok st →
  let st' := (subscribe_to_state started st).2 in
  senders_ok st' ∧
  (∀ y, y < st_next (st_streams st) → (y ∈ st_event_senders st' ↔ y ∈ st_event_senders st) ∧
        st_open (st_streams st') !! y = st_open (st_streams st) !! y) ∧
  (started = true → was_sent (st_next (st_streams st)) (history_events (st_commit_history st)) st').
Proof.
  intros [Hd Hlt]. unfold subscribe_to_state, dealer_subscribe. destruct started; cbn.
  2: { split_and!; [done..|]. done. }
  set (x := st_next (st_streams st)) in *.
  assert (x ∉ st_event_senders st) as Hx. { intros Hin. assert (x < x); [|lia]. apply Hlt. by left. }
  assert (senders_ok (set_senders (st_event_senders st ++ [x])
    (mkStreams (<[x := WrapMessage <$> history_events (st_commit_history st)]> (st_open (st_streams st))) (S x)) st)) as Hok.
  { split; cbn.
    - apply NoDup_app. split_and!; [done| |apply NoDup_singleton]. set_solver.
    - intros y [[Hy| ->%list_elem_of_singleton]%elem_of_app|Hy]; [|lia|].
      + assert (y < x) by (apply Hlt; by left). lia.
      + destruct (decide (x = y)) as [<-|]; [lia|]. rewrite lookup_insert_ne in Hy by done.
        assert (y < x) by (apply Hlt; by right). lia. }
  split_and!; [done| |].
  - intros y Hy. split; [set_unfold; naive_solver lia|]. cbn. by rewrite lookup_insert_ne by lia.
  - intros _. split_and!; cbn; [done|set_solver|by rewrite lookup_insert_eq].
Qed.

Lemma retain_was_sent x l st st' c :
  was_sent x l st → events_of st' = retain_sending c (st_event_senders st) (st_streams st) →
  was_sent x (l ++ [c]) st'.
Proof.
  intros ([Hd Hlt] & Hx & Hl) He. pose proof (retain_sending_spec c _ (st_streams st) Hd) as Hr.
  rewrite <- He in Hr. cbn in Hr. destruct Hr as (Hk & Hn & Hs). unfold was_sent, senders_ok. rewrite Hk, Hn. split_and!.
  - by apply NoDup_filter.
  - intros y Hy. apply Hlt. rewrite Hs in Hy. destruct Hy as [[_ Hy]%list_elem_of_filter|Hy]; [by left|].
    right. destruct (decide _); [|done]. by apply fmap_is_Some in Hy.
  - apply list_elem_of_filter. split; [cbn; rewrite Hl; by eexists|done].
  - rewrite Hs, decide_True by done. by rewrite Hl, fmap_app.
Qed.

Lemma while_subscribed_sent x st cs st' l :
  while_subscribed x st cs st' → was_sent x l st → was_sent x (l ++ cs) st'.
Proof.
  intros H. revert l. induction H as [st|batch d st st' cs _ IH|st st' cs _ IH|started st st' cs _ IH
    |y st st' cs Hy _ IH|sig receipts d d' st st1 st' cs Hp Hc _ IH]; intros l Hl.
  - by rewrite app_nil_r.
  - by apply IH, (was_sent_events _ _ _ _ (prepare_change_events batch st d)).
  - by apply IH.
  - apply IH. destruct Hl as (Hok & Hx & Hs). destruct (subscribe_ok started st Hok) as (Hok' & Hsame & _).
    destruct (Hsame x) as [Hi Ho]; [apply Hok; by left|]. split_and!; [done|by apply Hi|by rewrite Ho].
  - apply IH. destruct Hl as ([Hd Hlt] & Hx & Hs). split_and!; cbn; [split; cbn; [done|]|done|by rewrite lookup_delete_ne].
    intros z Hz. apply Hlt. destruct Hz as [Hz|[? [_ Hz]%lookup_delete_Some]]; [by left|right; by eexists].
  - rewrite cons_middle, app_assoc. apply IH. eapply retain_was_sent; [done|]. by eapply state_commit_events.
Qed.

(** C25: subscribers miss nothing.  A subscriber to the state of a scabbard service
    is sent the most recent commits of the history, and from then on every commit,
    each once and in order, whatever else is prepared, rolled back, subscribed or
    closed in between. *)
Theorem subscriber_sees_commits st st1 cs st2 :
  senders_ok st → subscribe_to_state true st = (Ok (), st1) →
  while_subscribed (st_next (st_streams st)) st1 cs st2 →
  st_open (st_streams st2) !! st_next (st_streams st) =
    Some (WrapMessage <$> (history_events (st_commit_history st) ++ cs)).
Proof.
  intros Hok Hsub Hrun. destruct (subscribe_ok true st Hok) as (_ & _ & Hsent). rewrite Hsub in Hsent.
  by apply (while_subscribed_sent _ _ _ _ _ Hrun), Hsent.
Qed.
End subscribers.
