(* ===== verification/ScabbardFactory.v ===== *)
(** * The scabbard factory

    Models [libsplinter/src/service/scabbard/factory.rs] and [Scabbard::new]: how the
    orchestrator makes a scabbard service from the arguments of its definition, and
    the REST endpoints of the service.  JSON, the query strings and the bodies of
    requests are read by libraries: what they give is an argument. *)

From S2P Require Import Prelude Hex Storage Events Consensus Network Circuit CircuitHandlers Reply.
From S2P Require Import Services ServiceOrchestrator AdminShared ScabbardState Scabbard.
From S2P Require Import ScabbardProps.
From Stdlib Require Import Lia ZArith.

Definition SERVICE_TYPE : string := "scabbard".
Definition DEFAULT_STATE_DB_DIR : string := "/var/lib/splinter".
Definition DEFAULT_STATE_DB_SIZE : Z := Z.shiftl 1 30.
Definition DEFAULT_RECEIPT_DB_DIR : string := "/var/lib/splinter".
Definition DEFAULT_RECEIPT_DB_SIZE : Z := Z.shiftl 1 30.

(** [ScabbardFactory], without the factory of signature verifiers *)
Record ScabbardFactory := mkScabbardFactory {
  sf_service_types : list string;
  sf_state_db_dir : string;
  sf_state_db_size : Z;
  sf_receipt_db_dir : string;
  sf_receipt_db_size : Z;
}.
Definition scabbard_factory_new (state_db_dir : option string) (state_db_size : option Z)
    (receipt_db_dir : option string) (receipt_db_size : option Z) : ScabbardFactory :=
  mkScabbardFactory [SERVICE_TYPE] (default DEFAULT_STATE_DB_DIR state_db_dir)
    (default DEFAULT_STATE_DB_SIZE state_db_size) (default DEFAULT_RECEIPT_DB_DIR receipt_db_dir)
    (default DEFAULT_RECEIPT_DB_SIZE receipt_db_size).

Inductive FactoryCreateError :=
  | CreationFailed
  | InvalidArguments (msg : string).

(** [Scabbard::new]: the files of the databases of a service *)
Definition db_file `{!Sha256} (suffix dir service_id circuit_id : string) : option string :=
  digest ← sha256_digest (service_id +:+ "::" +:+ circuit_id);
  Some (path_join dir (to_hex digest +:+ suffix)).
Definition state_db_path `{!Sha256} : string → string → string → option string := db_file "-state.lmdb".
Definition receipt_db_path `{!Sha256} : string → string → string → option string := db_file "-receipts.lmdb".

(** The databases of a service, by their files and sizes. *)
Class OpenDatabases (W : Type) := open_databases : string → Z → string → Z → eff W () ().

Section factory.
Context {W : Type} `{!Transact W, !OpenDatabases W} {sha256 : Sha256} {setting : AdminSetting}.
(** [serde_json::from_str::<Vec<String>>] *)
Context (json_strings : string → option (list string)).

Definition scabbard_new (service_id circuit_id : string) (peers : gset string) (f : ScabbardFactory)
    (admin_keys : list string) : eff W FactoryCreateError Scabbard :=
  state_path ← lift (ok_or CreationFailed (state_db_path (sf_state_db_dir f) service_id circuit_id));
  receipt_path ← lift (ok_or CreationFailed (receipt_db_path (sf_receipt_db_dir f) service_id circuit_id));
  emap_err (λ _, CreationFailed)
    (open_databases state_path (sf_state_db_size f) receipt_path (sf_receipt_db_size f));;
  state ← emap_err (λ _, CreationFailed) (state_new admin_keys);
  mret (mkScabbard circuit_id service_id (shared_new [] false peers state) false).

(** [ScabbardFactory::create] *)
Definition scabbard_create (f : ScabbardFactory) (service_id _service_type circuit_id : string)
    (args : gmap string string) : eff W FactoryCreateError Scabbard :=
  peer_services_str ← lift (ok_or (InvalidArguments "peer_services argument not provided")
                              (args !! "peer_services"));
  peer_services ← lift (ok_or (InvalidArguments "failed to parse peer_services list: ")
                          (json_strings peer_services_str));
  admin_keys_str ← lift (ok_or (InvalidArguments "admin_keys argument not provided") (args !! "admin_keys"));
  admin_keys ← lift (ok_or (InvalidArguments "failed to parse admin_keys list: ") (json_strings admin_keys_str));
  scabbard_new service_id circuit_id (list_to_set peer_services) f admin_keys.

(** The factory that the orchestrator is given. *)
Definition scabbard_service_factory (f : ScabbardFactory) : ServiceFactory Scabbard W :=
  mkServiceFactory (sf_service_types f) (λ service_id service_type circuit_id args,
    emap_err (λ _, ()) (scabbard_create f service_id service_type circuit_id args)).

(** A service that was created is not started, has no batches, and shares state with
    the services of its argument. *)
Lemma scabbard_create_new f service_id ty circuit_id args w s w' :
  scabbard_create f service_id ty circuit_id args w = (Ok s, w') →
  sc_service_id s = service_id ∧ sc_circuit_id s = circuit_id ∧ sc_consensus s = false ∧
  sh_network_sender (sc_shared s) = false ∧ batch_queue (sc_shared s) = [] ∧
  ∃ arg peers, args !! "peer_services" = Some arg ∧ json_strings arg = Some peers ∧
    peer_services (sc_shared s) = list_to_set peers.
Proof.
  unfold scabbard_create, lift. intros H.
  apply eff_bind_inv in H as (arg & w1 & Ha & H). destruct (args !! "peer_services") as [a|]; cbn in Ha; simplify_eq.
  apply eff_bind_inv in H as (peers & w2 & Hp & H). destruct (json_strings arg) as [p|] eqn:Hj; cbn in Hp; simplify_eq.
  apply eff_bind_inv in H as (k & w3 & Hk & H). destruct (args !! "admin_keys"); cbn in Hk; simplify_eq.
  apply eff_bind_inv in H as (keys & w4 & Hk & H). destruct (json_strings k); cbn in Hk; simplify_eq.
  unfold scabbard_new in H. apply eff_bind_inv in H as (sp & w5 & _ & H). apply eff_bind_inv in H as (rp & w6 & _ & H).
  apply eff_bind_inv in H as ([] & w7 & _ & H). apply eff_bind_inv in H as (state & w8 & _ & [= <- <-]).
  cbn. split_and!; [done..|]. by exists arg, peers.
Qed.
End factory.

(** The files are named by the service and the circuit, but these are joined by a
    separator that they may contain: different services can have the same files. *)
Lemma db_files_collide `{!Sha256} dir :
  state_db_path dir "a::b" "c" = state_db_path dir "a" "b::c" ∧
  receipt_db_path dir "a::b" "c" = receipt_db_path dir "a" "b::c".
Proof. done. Qed.

(** ** REST endpoints *)

Inductive ScabbardResponse :=
  | RespAccepted (link : string)
  | RespStatuses (infos : list BatchInfo)
  | RespWebSocket
  | RespBadRequest (message : option string)
  | RespInternalServerError.

Section endpoints.
Context {W : Type} `{!SignatureVerifier W, !SystemClock W} {sha512 : Sha512} `{!Codec (list BatchPair)}.
Context (header_from_bytes : bytes → option TransactionHeader).

Abbreviation response_eff := (Scabbard * W → ScabbardResponse * (Scabbard * W)).

Definition post_batches (body : bytes) : response_eff := λ s,
  match parse_from_bytes body with
  | None => (RespBadRequest None, s)
  | Some batches =>
      let '(r, s) := add_batches header_from_bytes batches s in
      (match r with
       | Ok (Some link) => RespAccepted link
       | Ok None => RespBadRequest None
       | Err _ => RespInternalServerError
       end, s)
  end.

(** [query] is what the query string parses to. *)
Definition get_batch_statuses (query : option (gmap string string)) : response_eff := λ s,
  match query with
  | None => (RespBadRequest (Some "Invalid query"), s)
  | Some q =>
      match q !! "ids" with
      | None => (RespBadRequest (Some "No batch IDs specified"), s)
      | Some ids =>
          let '(r, s) := scabbard_batch_info (split_on "," ids) s in
          (match r with Ok infos => RespStatuses infos | Err _ => RespInternalServerError end, s)
      end
  end.

Definition get_subscribe (started : bool) : response_eff := λ s,
  let '(r, s) := scabbard_subscribe started s in
  (match r with Ok _ => RespWebSocket | Err _ => RespInternalServerError end, s).

(** *** The link of submitted batches *)

Lemma string_pop_app s a c t : string_pop (s +:+ String a (String c t)) = s +:+ String a (string_pop (String c t)).
Proof.
  induction s as [|b s IH]; [done|]. rewrite !str_app_cons. cbn [string_pop].
  destruct (s +:+ String a (String c t)) eqn:H; [by destruct s|]. by rewrite IH.
Qed.

(** The ids in the link are those of the batches. *)
Lemma link_ids batches :
  batches ≠ [] → Forall (λ b, ∀ n, String.get n (batch_header_signature b) ≠ Some ","%char) batches →
  split_on "," (string_pop (signature_list batches)) = batch_header_signature <$> batches.
Proof.
  induction batches as [|b [|b' batches] IH]; [done|..]; intros _ [Hb Hl]%Forall_cons.
  - cbn [signature_list foldr]. rewrite str_app_nil_r, string_pop_snoc. by apply split_on_no_sep.
  - specialize (IH ltac:(done) Hl). rewrite fmap_cons, <- IH. cbn [signature_list foldr].
    set (l := batch_header_signature b' +:+ _).
    assert (∃ c l', l = String c l') as (c & l' & ->).
    { unfold l. destruct (batch_header_signature b'); by do 2 eexists. }
    rewrite str_app_cons, str_app_nil, string_pop_app. by apply split_on_app.
Qed.
End endpoints.
