(* ===== verification/ScabbardExample.v ===== *)
(** * Concrete scabbard services

    A world in which the state of a scabbard service is what was written to it, as an
    instance of the theorems on scabbard. *)

From S2P Require Import Prelude Hex Storage Events Consensus Network Circuit CircuitHandlers Reply.
From S2P Require Import Services ServiceOrchestrator AdminShared ScabbardState Scabbard.
From S2P Require Import ScabbardProps ScabbardHistory.
From Stdlib Require Import Lia ZArith.

Module ScabbardMock.

(** The root on disk, the updates that were sent, and the time. *)
Record world := mkWorld {
  wd_head : option bytes;
  wd_updates : list ProposalUpdate;
  wd_time : Z;
}.

(** A transaction sets its payload; a state root is made of the root before it and
    the values that were set. *)
Definition state_hash (root : string) (changes : list StateChange) : bytes :=
  foldl (λ b c, match c with ChangeSet _ v => b +:+ v | ChangeDelete _ => b end) root changes.
Definition execute_transaction (t : Transaction) : TransactionExecutionResult :=
  if decide (txn_payload t = "") then
    ResultInvalid (mkInvalidTransactionResult (txn_header_signature t) "no payload" "")
  else ResultValid (mkTransactionReceipt (txn_header_signature t) [ChangeSet "k" (txn_payload t)]).
#[export] Instance mock_transact : Transact world := {|
  execute_batch _ b w := (Ok (execute_transaction <$> batch_transactions b), w);
  initial_state_root w := (Ok "00", w);
  compute_state_id root changes _ := Some (to_hex (state_hash root changes));
  merkle_commit root changes w := (Ok (to_hex (state_hash root changes)), w);
  head_get w := Some (wd_head w);
  head_put b w := (Ok (), mkWorld (Some b) (wd_updates w) (wd_time w));
  receipts_append _ w := (Ok (), w);
|}.
#[export] Instance mock_laws : TransactLaws world.
Proof.
  split; cbn; try done.
  - by intros ?????? _ [= <- _] [= <-].
  - intros ????? [= <- _]. by eexists.
  - by intros b d d' [= <-].
Qed.

#[export] Instance mock_clock : SystemClock world := λ w,
  (wd_time w, mkWorld (wd_head w) (wd_updates w) (wd_time w + 1)).
#[export] Instance mock_sender : ServiceNetworkSender world := λ _ _, mret ().
#[export] Instance mock_updates : Sender world ProposalUpdate := λ u w,
  (Ok (), mkWorld (wd_head w) (wd_updates w ++ [u]) (wd_time w)).
#[export] Instance mock_messages : Sender world ConsensusMessage := λ _, mret ().
#[export] Instance mock_frame : TransactFrame world.
Proof. by split. Qed.
#[export] Instance mock_verifier : SignatureVerifier world := λ _ signature key _, Ok (bool_decide (signature = key)).
#[export] Instance mock_sha512 : Sha512 := Some.

#[export] Instance message_codec : Codec ScabbardMessage := {| parse_from_bytes _ := None; write_to_bytes _ := Some "" |}.
#[export] Instance batch_codec : Codec BatchPair := {| parse_from_bytes _ := None; write_to_bytes _ := Some "" |}.
#[export] Instance proposal_codec : Codec ProposalProto := {| parse_from_bytes _ := None; write_to_bytes _ := Some "" |}.
#[export] Instance consensus_codec : Codec ConsensusMessageProto :=
  {| parse_from_bytes _ := None; write_to_bytes _ := Some "" |}.

Definition headers (_ : bytes) : option TransactionHeader := Some (mkTransactionHeader "A" "B" "x").

(** A batch signed by [A], with a transaction signed by [B]. *)
Definition batch : BatchPair :=
  mkBatchPair "header" (to_hex "A") "A" ["B"] [mkTransaction "txn" (to_hex "B") "x"].

Definition state0 : ScabbardState := mkScabbardState "00" None [] (mkStreams ∅ 0) batch_history_default history_default.
Definition world0 : world := mkWorld None [] 0.
Definition service_with (queue : list BatchPair) (proposed : gmap ProposalId BatchPair) : Scabbard :=
  mkScabbard "alpha" "sc1" (mkScabbardShared queue true {["sc2"]} proposed state0) true.
Definition root1 : string := to_hex "00x".
End ScabbardMock.

Section scabbard_witness.
Import ScabbardMock.

Lemma only_signed_batches_queued_witness :
  Forall (signed_batch world0 headers) [batch] ∧
  batch_queue (sc_shared (add_batches headers [batch] (service_with [] ∅, world0)).2.1) = [batch].
Proof.
  assert (Forall (signed_batch world0 headers) [batch]) as H.
  { apply Forall_singleton. split; [by exists "A"|]. repeat constructor. by exists (mkTransactionHeader "A" "B" "x"). }
  split; [exact H|].
  destruct (proj1 (only_signed_batches_queued headers [batch] (service_with [] ∅) world0) H) as (h & w' & ->). done.
Defined.

(** One service creates the proposal, the other one checks it. *)
Definition creator := service_with [batch] ∅.
Definition checker := service_with [] {[root1 := batch]}.
(** The second one checks a proposal that it does not know before it accepts the first. *)
Definition creator_ops := [OpAddBatches [batch]; OpCreate None ""; OpReject "unknown"; OpAccept root1 None].
Definition checker_ops := [OpCheck root1; OpCheck "unknown"; OpSubscribe true; OpAccept root1 None].


(** A subscriber, a commit, and another subscriber. *)
Definition prepared1 := (prepare_change batch ((subscribe_to_state true state0).2, world0)).2.
Definition committed1 := (state_commit prepared1).2.

Lemma subscriber_sees_commits_witness :
  st_open (st_streams (subscribe_to_state true committed1.1).2) !! 0 = Some [WrapMessage [ChangeSet "k" "x"]].
Proof.
  apply (subscriber_sees_commits state0 (subscribe_to_state true state0).2 [[ChangeSet "k" "x"]]).
  - split; [constructor|]. cbn. intros x [Hx|[? Hx]]; [by apply elem_of_nil in Hx|]. by rewrite lookup_empty in Hx.
  - reflexivity.
  - apply (ws_prepare _ batch world0).
    apply (ws_commit 0 (to_hex "A") [mkTransactionReceipt (to_hex "B") [ChangeSet "k" "x"]] prepared1.2 committed1.2
      _ committed1.1); [reflexivity|reflexivity|]. apply (ws_subscribe _ true). apply ws_done.
Defined.

(** A batch whose signature is not ASCII makes the service panic. *)
Lemma verify_batch_panics :
  verify_batches world0 headers
    [mkBatchPair "" (String "a" (String (ascii_of_nat 226) (String (ascii_of_nat 130)
       (String (ascii_of_nat 172) "")))) "" [] []] = Err BatchPanic.
Proof. done. Qed.
End scabbard_witness.
