(* ===== verification/NodeRegistry.v ===== *)
(** * The node registry

    Models [libsplinter/src/node_registry/mod.rs], [noop.rs] and [yaml/mod.rs]: the
    nodes a node knows, kept in a file.  The mutex is never poisoned. *)

From S2P Require Import Prelude Storage.
From Stdlib Require Import Lia ZArith.

Record Node := mkNode {
  identity : string;
  metadata : gmap string string;
}.

(** [NodeRegistryError]; the boxed errors carry no payload. *)
Inductive NodeRegistryError :=
  | NotFoundError (msg : string)
  | DuplicateNodeError (msg : string)
  | InvalidFilterError (msg : string)
  | NodeInternalError
  | UnableToAddNode (msg : string).

(** A filter has a property, an operator and a value. *)
Definition Filter : Type := gmap string (string * string).

(** [dyn NodeRegistry] *)
Class NodeRegistry (R : Type) := {
  registry_add_node : Node → eff R NodeRegistryError ();
  registry_list_nodes : option Filter → option nat → option nat → R → result NodeRegistryError (list Node);
  registry_fetch_node : string → R → result NodeRegistryError Node;
  registry_update_node : string → gmap string string → eff R NodeRegistryError ();
  registry_delete_node : string → eff R NodeRegistryError ();
}.

(** ** [NoOpNodeRegistry] *)

#[export] Instance noop_registry : NodeRegistry () := {|
  registry_add_node _ := throw (UnableToAddNode "operation not supported");
  registry_list_nodes _ _ _ _ := Ok [];
  registry_fetch_node id _ := Err (NotFoundError id);
  registry_update_node id _ := throw (NotFoundError id);
  registry_delete_node id := throw (NotFoundError id);
|}.

(** ** [YamlNodeRegistry] *)

Record FileInternal := mkFileInternal {
  file_path : string;
  cached_nodes : list Node;
}.

(** The comparison of an operator; strings are compared by their bytes. *)
Definition operator_fn (operator : string) : option (string → string → bool) :=
  if decide (operator = "=") then Some (λ a b, bool_decide (a = b))
  else if decide (operator = ">") then Some (λ a b, String.ltb b a)
  else if decide (operator = "<") then Some String.ltb
  else if decide (operator = "<=") then Some String.leb
  else if decide (operator = ">=") then Some (λ a b, String.leb b a)
  else if decide (operator = "!=") then Some (λ a b, negb (bool_decide (a = b)))
  else None.

Definition filter_matches (cmp : string → string → bool) (key value : string) (n : Node) : bool :=
  match metadata n !! key with
  | Some current_value => cmp current_value value
  | None => false
  end.

(** [Iterator::skip] and [take] *)
Definition page {A} (offset limit : nat) (l : list A) : list A := take limit (drop offset l).

(** [try_fold] over the filters, in the unspecified order of a hash map: each step
    filters what the one before left, and takes the page of that. *)
Fixpoint apply_filters (offset limit : nat) (filters : list (string * (string * string))) (acc : list Node) :
    result NodeRegistryError (list Node) :=
  match filters with
  | [] => Ok acc
  | (key, (operator, value)) :: filters =>
      cmp ← ok_or (InvalidFilterError ("Unknown operator " +:+ operator)) (operator_fn operator);
      apply_filters offset limit filters
        (page offset limit (filter (λ n, filter_matches cmp key value n = true) acc))
  end.

Definition list_nodes (filters : option Filter) (limit offset : option nat) (nodes : list Node) :
    result NodeRegistryError (list Node) :=
  let offset_value := default 0 offset in
  let limit_value := default (length nodes) limit in
  match filters with
  | Some filters => apply_filters offset_value limit_value (map_to_list filters) nodes
  | None => Ok (page offset_value limit_value nodes)
  end.

Definition find_index (id : string) (nodes : list Node) : option nat :=
  fst <$> list_find (λ n, identity n = id) nodes.

Section yaml.
Context {D : Type} `{!FileSystem D, !PlainFiles D, !Serde (list Node)}.

Abbreviation yaml_eff := (eff (FileInternal * D) NodeRegistryError).

(** [YamlNodeRegistry::new] *)
Definition yaml_registry_new (path : string) (d : D) : option FileInternal :=
  b ← read_file path d;
  nodes ← from_yaml b;
  Some (mkFileInternal path nodes).

Definition get_cached_nodes : yaml_eff (list Node) := λ s, (Ok (cached_nodes s.1), s).

(** [write_nodes]: the file, then the cache.  The file is overwritten in place, so that
    a write that fails may leave only a part of it. *)
Definition write_nodes (nodes : list Node) : yaml_eff () := λ '(r, d),
  match to_yaml nodes with
  | Some output =>
      match fs_write (file_path r) output d with
      | (Ok _, d) => (Ok (), (mkFileInternal (file_path r) nodes, d))
      | (Err _, d) => (Err NodeInternalError, (r, d))
      end
  | None => (Err NodeInternalError, (r, d))
  end.

Definition add_node (node : Node) : yaml_eff () :=
  nodes ← get_cached_nodes;
  if existsb (λ n, bool_decide (identity n = identity node)) nodes then
    throw (DuplicateNodeError ("Node with ID " +:+ identity node +:+ " already exists"))
  else write_nodes (nodes ++ [node]).

Definition fetch_node (id : string) (r : FileInternal) : result NodeRegistryError Node :=
  ok_or (NotFoundError ("Could not find node with identity " +:+ id))
    (snd <$> list_find (λ n, identity n = id) (cached_nodes r)).

(** [HashMap::extend]: the updates take precedence. *)
Definition update_node (id : string) (updates : gmap string string) : yaml_eff () :=
  nodes ← get_cached_nodes;
  match find_index id nodes with
  | Some i =>
      node ← lift (ok_or NodeInternalError (nodes !! i));
      write_nodes (<[i := mkNode (identity node) (updates ∪ metadata node)]> nodes)
  | None => throw (NotFoundError ("Could not find node with identity: " +:+ id))
  end.

Definition delete_node (id : string) : yaml_eff () :=
  nodes ← get_cached_nodes;
  match find_index id nodes with
  | Some i => write_nodes (delete i nodes)
  | None => throw (NotFoundError ("Could not find node with identity: " +:+ id))
  end.

#[export] Instance yaml_registry : NodeRegistry (FileInternal * D) := {|
  registry_add_node := add_node;
  registry_list_nodes filters limit offset s := list_nodes filters limit offset (cached_nodes s.1);
  registry_fetch_node id s := fetch_node id s.1;
  registry_update_node := update_node;
  registry_delete_node := delete_node;
|}.
End yaml.

(** ** The registry is a map *)

Section registry_map.
Context {D : Type} `{!FileSystem D, !PlainFiles D, !PlainFilesLaws D, !Serde (list Node)}.
Context `{!SerdeLaws (λ nodes : list Node, nodes)}.

(** The metadata of the nodes, by their identities. *)
Definition node_pairs (nodes : list Node) : list (string * gmap string string) :=
  (λ n, (identity n, metadata n)) <$> nodes.
Definition node_map (nodes : list Node) : gmap string (gmap string string) := list_to_map (node_pairs nodes).

(** Identities are unique. *)
Definition registry_ok (r : FileInternal) : Prop := NoDup (identity <$> cached_nodes r).
(** The file has the nodes of the cache: a restart reads them. *)
Definition registry_saved (s : FileInternal * D) : Prop :=
  yaml_registry_new (file_path s.1) s.2 = Some s.1.
(** The file is as it was, or has the beginning of the text of the nodes. *)
Definition torn_write (nodes : list Node) (s s' : FileInternal * D) : Prop :=
  s'.1 = s.1 ∧
  (read_file (file_path s.1) s'.2 = read_file (file_path s.1) s.2 ∨
   ∃ b' rest, to_yaml nodes = Some (b' +:+ rest) ∧ read_file (file_path s.1) s'.2 = Some b').

Inductive node_op :=
  | NodeAdd (n : Node)
  | NodeUpdate (id : string) (updates : gmap string string)
  | NodeDelete (id : string).
Definition node_exec (op : node_op) : eff (FileInternal * D) NodeRegistryError () :=
  match op with
  | NodeAdd n => add_node n
  | NodeUpdate id updates => update_node id updates
  | NodeDelete id => delete_node id
  end.

(** What the operations promise, on the map. *)
Definition node_spec (op : node_op) (m : gmap string (gmap string string)) : option (gmap string (gmap string string)) :=
  match op with
  | NodeAdd n => if decide (is_Some (m !! identity n)) then None else Some (<[identity n := metadata n]> m)
  | NodeUpdate id updates => old ← m !! id; Some (<[id := updates ∪ old]> m)
  | NodeDelete id => _ ← m !! id; Some (delete id m)
  end.

Lemma node_pairs_fst nodes : (node_pairs nodes).*1 = identity <$> nodes.
Proof. unfold node_pairs. by rewrite <- list_fmap_compose. Qed.

Lemma node_map_lookup nodes id md :
  NoDup (identity <$> nodes) → node_map nodes !! id = Some md ↔ mkNode id md ∈ nodes.
Proof.
  intros Hd. unfold node_map. rewrite <- elem_of_list_to_map by (by rewrite node_pairs_fst).
  unfold node_pairs. rewrite list_elem_of_fmap. split.
  - by intros ([id' md'] & [= -> ->] & ?).
  - intros ?. by exists (mkNode id md).
Qed.

Lemma node_map_None nodes id : node_map nodes !! id = None ↔ id ∉ identity <$> nodes.
Proof. unfold node_map. by rewrite <- not_elem_of_list_to_map, node_pairs_fst. Qed.

Lemma find_node_spec nodes id :
  NoDup (identity <$> nodes) →
  match list_find (λ n, identity n = id) nodes with
  | Some (i, n) => nodes !! i = Some n ∧ identity n = id ∧ node_map nodes !! id = Some (metadata n)
  | None => node_map nodes !! id = None
  end.
Proof.
  intros Hd. destruct (list_find (λ n, identity n = id) nodes) as [[i n]|] eqn:Hf.
  - apply list_find_Some in Hf as (Hi & Hid & _). split_and!; [done..|]. apply node_map_lookup; [done|].
    apply list_elem_of_lookup_2 in Hi. by destruct n; cbn in *; subst.
  - apply list_find_None in Hf. apply node_map_None. intros (n & -> & Hn)%list_elem_of_fmap.
    by eapply Forall_forall in Hf.
Qed.

Lemma write_nodes_spec nodes s s' x :
  write_nodes nodes s = (x, s') →
  file_path s'.1 = file_path s.1 ∧
  (∀ path, path ≠ file_path s.1 → read_file path s'.2 = read_file path s.2) ∧
  match x with
  | Ok _ => cached_nodes s'.1 = nodes ∧ registry_saved s'
  | Err e => e = NodeInternalError ∧ torn_write nodes s s'
  end.
Proof.
  destruct s as [r d]. unfold write_nodes, torn_write, registry_saved.
  destruct (to_yaml nodes) as [b|] eqn:Hb; [|intros [= <- <-]; cbn; split_and!; auto].
  pose proof (fs_write_other (file_path r)) as Hother.
  destruct (fs_write (file_path r) b d) as [[[]|[]] d'] eqn:Hw; intros [= <- <-]; cbn;
    (split; [done|]; split; [intros path Hne; rewrite <- (Hother path b d Hne); by rewrite Hw|]).
  - split; [done|]. unfold yaml_registry_new. rewrite (fs_write_ok _ _ _ _ Hw). cbn. by rewrite (from_to_yaml _ _ Hb).
  - split; [done|]. split; [done|]. destruct (fs_write_err _ _ _ _ _ Hw) as [?|(b' & rest & -> & ?)]; [by left|].
    right. by exists b', rest.
Qed.

Lemma node_map_perm nodes nodes' :
  NoDup (identity <$> nodes) → nodes ≡ₚ nodes' → node_map nodes = node_map nodes'.
Proof.
  intros Hd Hp. apply list_to_map_proper; [by rewrite node_pairs_fst|]. unfold node_pairs. by rewrite Hp.
Qed.

Lemma node_at nodes i n :
  NoDup (identity <$> nodes) → nodes !! i = Some n →
  NoDup (identity <$> n :: delete i nodes) ∧ (identity n ∉ identity <$> delete i nodes) ∧
  node_map nodes = <[identity n := metadata n]> (node_map (delete i nodes)).
Proof.
  intros Hd Hi. pose proof (delete_Permutation _ _ _ Hi) as Hp.
  assert (NoDup (identity <$> n :: delete i nodes)) as Hd' by (by rewrite <- Hp).
  split_and!; [done|by apply NoDup_cons in Hd' as [? _]|exact (node_map_perm _ _ Hd Hp)].
Qed.

Lemma delete_node_map nodes i n :
  NoDup (identity <$> nodes) → nodes !! i = Some n →
  NoDup (identity <$> delete i nodes) ∧ node_map (delete i nodes) = delete (identity n) (node_map nodes).
Proof.
  intros Hd Hi. destruct (node_at _ _ _ Hd Hi) as (Hd' & Hn & ->). apply NoDup_cons in Hd' as [_ ?].
  split; [done|]. rewrite delete_insert_id; [done|]. by apply node_map_None.
Qed.

Lemma update_node_map nodes i n n' :
  NoDup (identity <$> nodes) → nodes !! i = Some n → identity n' = identity n →
  NoDup (identity <$> <[i := n']> nodes) ∧
  node_map (<[i := n']> nodes) = <[identity n := metadata n']> (node_map nodes).
Proof.
  intros Hd Hi Hid. assert (identity <$> <[i := n']> nodes = identity <$> nodes) as Hids.
  { rewrite list_fmap_insert, Hid. apply list_insert_id. by rewrite list_lookup_fmap, Hi. }
  assert (<[i := n']> nodes !! i = Some n') as Hi'.
  { apply list_lookup_insert_eq. by eapply lookup_lt_Some. }
  assert (NoDup (identity <$> <[i := n']> nodes)) as Hd' by (by rewrite Hids). split; [done|].
  destruct (node_at _ _ _ Hd' Hi') as (_ & _ & ->). destruct (node_at _ _ _ Hd Hi) as (_ & _ & ->).
  rewrite insert_insert_eq, Hid. do 2 f_equal. rewrite !delete_take_drop.
  by rewrite take_insert_ge, drop_insert_lt by lia.
Qed.

Lemma add_node_map nodes n :
  NoDup (identity <$> nodes) → node_map nodes !! identity n = None →
  NoDup (identity <$> nodes ++ [n]) ∧ node_map (nodes ++ [n]) = <[identity n := metadata n]> (node_map nodes).
Proof.
  intros Hd Hn%node_map_None. assert (NoDup (identity <$> nodes ++ [n])) as Hd'.
  { rewrite fmap_app. apply NoDup_app. split_and!; [done|set_solver|apply NoDup_singleton]. }
  split; [done|]. rewrite (node_map_perm _ (n :: nodes) Hd'); [done|]. by rewrite Permutation_app_comm.
Qed.

(** What an operation does: on the map and the file when it succeeds, nothing when it is
    refused, and when the file could not be written only what that leaves of the file. *)
Definition node_effect (op : node_op) (s s' : FileInternal * D) (x : result NodeRegistryError ()) : Prop :=
  match x with
  | Ok _ => node_spec op (node_map (cached_nodes s.1)) = Some (node_map (cached_nodes s'.1)) ∧ registry_saved s'
  | Err NodeInternalError =>
      ∃ nodes, node_spec op (node_map (cached_nodes s.1)) = Some (node_map nodes) ∧ torn_write nodes s s'
  | Err _ => node_spec op (node_map (cached_nodes s.1)) = None ∧ s' = s
  end.

Lemma write_nodes_effect op nodes s s' x :
  write_nodes nodes s = (x, s') → NoDup (identity <$> nodes) → registry_ok s.1 →
  node_spec op (node_map (cached_nodes s.1)) = Some (node_map nodes) →
  registry_ok s'.1 ∧ file_path s'.1 = file_path s.1 ∧
  (∀ path, path ≠ file_path s.1 → read_file path s'.2 = read_file path s.2) ∧ node_effect op s s' x.
Proof.
  intros (Hp & Hother & Hx)%write_nodes_spec Hd Hok Hspec. unfold registry_ok, node_effect in *. destruct x as [|e].
  - destruct Hx as [-> Hs]. by split_and!.
  - destruct Hx as [-> Ht]. rewrite (proj1 Ht). split_and!; [done..|]. by exists nodes.
Qed.

Lemma node_exec_spec op s s' x :
  registry_ok s.1 → node_exec op s = (x, s') →
  registry_ok s'.1 ∧ file_path s'.1 = file_path s.1 ∧
  (∀ path, path ≠ file_path s.1 → read_file path s'.2 = read_file path s.2) ∧ node_effect op s s' x.
Proof.
  destruct s as [r d]. intros Hd H. cbn [fst] in Hd. unfold registry_ok in Hd.
  assert (∀ nodes m, write_nodes nodes (r, d) = (x, s') → NoDup (identity <$> nodes) →
    node_spec op (node_map (cached_nodes r)) = Some m → node_map nodes = m →
    registry_ok s'.1 ∧ file_path s'.1 = file_path r ∧
    (∀ path, path ≠ file_path r → read_file path s'.2 = read_file path d) ∧ node_effect op (r, d) s' x) as Hwrite.
  { intros nodes m Hw Hd' Hspec <-. by apply (write_nodes_effect op nodes (r, d)). }
  destruct op as [n|id updates|id]; cbn in H.
  - unfold add_node, mbind, eff_bind in H. cbn in H. cbn in Hwrite.
    destruct (existsb _ _) eqn:He.
    + injection H as <- <-. split_and!; [done..|]. cbn. apply existsb_exists in He as (n' & Hin%list_elem_of_In & Hid%bool_decide_eq_true).
      split; [|done]. rewrite decide_True; [done|]. apply not_eq_None_Some. rewrite node_map_None.
      intros Hnot. apply Hnot, list_elem_of_fmap. by exists n'.
    + assert (node_map (cached_nodes r) !! identity n = None) as Hn.
      { apply node_map_None. intros (n' & Hid & Hin)%list_elem_of_fmap.
        assert (existsb (λ n0, bool_decide (identity n0 = identity n)) (cached_nodes r) = true); [|congruence].
        apply existsb_exists. exists n'. split; [by apply list_elem_of_In|by apply bool_decide_eq_true]. }
      destruct (add_node_map _ _ Hd Hn) as [Hd' Hm].
      eapply Hwrite; [exact H|done| |exact Hm]. rewrite decide_False; [done|]. rewrite Hn. by intros [].
  - unfold update_node, find_index, mbind, eff_bind in H. cbn in H.
    pose proof (find_node_spec _ id Hd) as Hfind. destruct (list_find _ _) as [[i n]|]; cbn in H.
    + destruct Hfind as (Hi & <- & Hl). rewrite Hi in H. cbn in H.
      destruct (update_node_map _ _ _ (mkNode (identity n) (updates ∪ metadata n)) Hd Hi eq_refl) as [Hd' Hm].
      eapply Hwrite; [exact H|done| |exact Hm]. cbn. by rewrite Hl.
    + injection H as <- <-. split_and!; [done..|]. cbn. by rewrite Hfind.
  - unfold delete_node, find_index, mbind, eff_bind in H. cbn in H.
    pose proof (find_node_spec _ id Hd) as Hfind. destruct (list_find _ _) as [[i n]|]; cbn in H.
    + destruct Hfind as (Hi & <- & Hl). destruct (delete_node_map _ _ _ Hd Hi) as [Hd' Hm].
      eapply Hwrite; [exact H|done| |exact Hm]. cbn. by rewrite Hl.
    + injection H as <- <-. split_and!; [done..|]. cbn. by rewrite Hfind.
Qed.

(** What is fetched is the node of the map. *)
Lemma fetch_node_spec id r :
  NoDup (identity <$> cached_nodes r) →
  fetch_node id r = ok_or (NotFoundError ("Could not find node with identity " +:+ id))
    (mkNode id <$> node_map (cached_nodes r) !! id).
Proof.
  intros Hd. unfold fetch_node. pose proof (find_node_spec _ id Hd) as Hf.
  destruct (list_find _ _) as [[i n]|]; cbn; [|by rewrite Hf].
  destruct Hf as (_ & <- & ->). by destruct n.
Qed.
End registry_map.

(** C21: the node registry is a map from identities to metadata.  Every operation
    that succeeds changes the map as it promises (a new node is added with its
    metadata, an update changes the given properties and keeps the others, a deletion
    removes the node), and the file then has the nodes of the registry, so that a
    restart has the same.  It is refused without any effect when the node to add is
    there or the one to change is not.  When an operation that is not refused fails, the
    registry is unchanged, but the file is as it was or has only the beginning of the new
    text.  No other file changes; and what is fetched is what the map has. *)
Theorem node_registry_refines_map {D : Type} `{!FileSystem D, !PlainFiles D, !PlainFilesLaws D,
    !Serde (list Node), !SerdeLaws (λ nodes : list Node, nodes)} op (s s' : FileInternal * D) x :
  registry_ok s.1 → node_exec op s = (x, s') →
  registry_ok s'.1 ∧
  match x with
  | Ok _ => node_spec op (node_map (cached_nodes s.1)) = Some (node_map (cached_nodes s'.1)) ∧
            yaml_registry_new (file_path s.1) s'.2 = Some s'.1
  | Err NodeInternalError =>
      s'.1 = s.1 ∧
      ∃ nodes, node_spec op (node_map (cached_nodes s.1)) = Some (node_map nodes) ∧
        (read_file (file_path s.1) s'.2 = read_file (file_path s.1) s.2 ∨
         ∃ b' rest, to_yaml nodes = Some (b' +:+ rest) ∧ read_file (file_path s.1) s'.2 = Some b')
  | Err _ => node_spec op (node_map (cached_nodes s.1)) = None ∧ s' = s
  end ∧
  (∀ path, path ≠ file_path s.1 → read_file path s'.2 = read_file path s.2) ∧
  ∀ id, fetch_node id s'.1 = ok_or (NotFoundError ("Could not find node with identity " +:+ id))
          (mkNode id <$> node_map (cached_nodes s'.1) !! id).
Proof.
  intros Hok H. destruct (node_exec_spec _ _ _ _ Hok H) as (Hok' & Hp & Hother & Hx).
  split; [done|]. split; [|split; [done|]; intros id; by apply fetch_node_spec].
  unfold node_effect, registry_saved in Hx. rewrite Hp in Hx. destruct x as [|[]]; try done.
  destruct Hx as (nodes & Hspec & -> & Hread). split; [done|]. by exists nodes.
Qed.

(** ** Listing *)

(** The node matches a filter. *)
Definition matches (f : string * (string * string)) (n : Node) : bool :=
  match operator_fn f.2.1 with
  | Some cmp => filter_matches cmp f.1 f.2.2 n
  | None => false
  end.

Lemma apply_filters_all limit filters nodes :
  length nodes ≤ limit → Forall (λ f, is_Some (operator_fn f.2.1)) filters →
  apply_filters 0 limit filters nodes = Ok (filter (λ n, Forall (λ f, matches f n = true) filters) nodes).
Proof.
  intros Hlen Hops. revert nodes Hlen. induction Hops as [|[key [operator value]] filters [cmp Hop] _ IH]; intros nodes Hlen.
  - cbn. f_equal. clear Hlen. induction nodes as [|n nodes IH]; [done|]. by rewrite filter_cons_True, <- IH.
  - cbn in Hop |- *. rewrite Hop. cbn. unfold page. rewrite drop_0.
    assert (length (filter (λ n, filter_matches cmp key value n = true) nodes) ≤ limit) as Hl.
    { etransitivity; [apply length_filter|done]. }
    rewrite take_ge by done. rewrite IH by done. f_equal. rewrite list_filter_filter.
    apply list_filter_iff. intros n. rewrite Forall_cons. unfold matches at 2. cbn. rewrite Hop. tauto.
Qed.

(** Without a page, the nodes that match all filters are listed; an unknown operator
    is refused. *)
Lemma list_nodes_matching filters nodes :
  Forall (λ f, is_Some (operator_fn f.2.1)) (map_to_list filters) →
  list_nodes (Some filters) None None nodes =
    Ok (filter (λ n, Forall (λ f, matches f n = true) (map_to_list filters)) nodes).
Proof. intros H. by apply apply_filters_all. Qed.

(** With a page and several filters, the page is taken after every filter: of three
    nodes that match both filters, the second page of one node is not the second node
    but empty. *)
Definition matching_node (id : string) : Node := mkNode id {["a" := "1"; "b" := "1"]}.
Lemma filters_page_twice :
  let nodes := [matching_node "x"; matching_node "y"; matching_node "z"] in
  let filters := {["a" := ("=", "1"); "b" := ("=", "1")]} : Filter in
  list_nodes (Some filters) None None nodes = Ok nodes ∧
  list_nodes (Some filters) (Some 1) (Some 1) nodes = Ok [].
Proof. by vm_compute. Qed.

(** ** A concrete registry *)

Module NodeMock.
Export Files.
#[export] Instance Node_eq_dec : EqDecision Node.
Proof. solve_decision. Defined.
Definition node1 : Node := mkNode "n1" {["company" := "A"]}.
Definition node1' : Node := mkNode "n1" {["company" := "B"]}.
#[export] Instance nodes_serde : Serde (list Node) := {|
  to_yaml l := if decide (l = []) then Some "[]" else if decide (l = [node1]) then Some "[1]"
               else if decide (l = [node1']) then Some "[1']" else None;
  from_yaml b := if decide (b = "[]") then Some [] else if decide (b = "[1]") then Some [node1]
                 else if decide (b = "[1']") then Some [node1'] else None;
|}.
#[export] Instance nodes_serde_laws : SerdeLaws (λ nodes : list Node, nodes).
Proof. intros l b. cbn. repeat case_decide; intros [= <-]; subst; done. Qed.
Definition registry1 : FileInternal * gmap string bytes := (mkFileInternal "nodes" [node1], {["nodes" := "[1]"]}).
End NodeMock.

Section node_witness.
Import NodeMock.
Lemma node_registry_refines_map_witness :
  let s' := (node_exec (NodeUpdate "n1" {["company" := "B"]}) registry1).2 in
  registry_ok s'.1 ∧ fetch_node "n1" s'.1 = Ok node1' ∧ read_file "nodes" s'.2 = Some "[1']".
Proof.
  assert (registry_ok registry1.1) as Hok by apply NoDup_singleton.
  destruct (node_registry_refines_map (NodeUpdate "n1" {["company" := "B"]}) registry1
    (node_exec (NodeUpdate "n1" {["company" := "B"]}) registry1).2
    (node_exec (NodeUpdate "n1" {["company" := "B"]}) registry1).1 Hok (surjective_pairing _)) as (Hok' & _ & _).
  split; [exact Hok'|]. split; reflexivity.
Defined.

(** A write that fails after the file was truncated loses the registry: the next start
    finds a file without nodes, which is an error, while the nodes that were kept there
    are only in the memory of the process that could not write them. *)
Lemma failed_write_loses_registry :
  let s := (mkFileInternal "full/nodes" [node1], {["full/nodes" := "[1]"]} : gmap string bytes) in
  let '(x, s') := node_exec (NodeUpdate "n1" {["company" := "B"]}) s in
  yaml_registry_new "full/nodes" s.2 = Some s.1 ∧
  x = Err NodeInternalError ∧ fetch_node "n1" s'.1 = Ok node1 ∧
  read_file "full/nodes" s'.2 = Some "" ∧ yaml_registry_new "full/nodes" s'.2 = None.
Proof. by vm_compute. Qed.
End node_witness.
