(* ===== verification/Routes.v ===== *)
(** * The REST routes of the daemon

    Models [splinterd/src/routes/mod.rs], [circuit.rs], [node.rs], [keys.rs] and
    [status.rs]: the paging of lists and what the routes answer.  The query string,
    the path and the body of a request are taken apart by actix and serde: a route is
    given what they give.  A panic in a closure of [web::block] is answered with an
    internal server error; the locks are never poisoned. *)

From stdpp Require Import pretty.
From S2P Require Import Prelude Storage Hex Keys Circuit NodeRegistry.
From Stdlib Require Import Lia ZArith.

(** ** Paging ([routes/mod.rs]) *)

Definition DEFAULT_LIMIT : Z := 100.
Definition DEFAULT_OFFSET : Z := 0.

Record Paging := mkPaging {
  pg_current : string;
  pg_offset : Z;
  pg_limit : Z;
  pg_total : Z;
  pg_first : string;
  pg_prev : string;
  pg_next : string;
  pg_last : string;
}.

Definition previous_offset (limit offset : Z) : Z := if (offset >? limit)%Z then (offset - limit)%Z else 0.
(** The division by zero is a panic. *)
Definition last_offset (limit query_count : Z) : option Z :=
  if (query_count >? 0)%Z then
    if (limit =? 0)%Z then None else Some ((query_count - 1) / limit * limit)%Z
  else Some 0%Z.
Definition next_offset (limit offset last : Z) : Z :=
  if (usize_add offset limit >? last)%Z then last else usize_add offset limit.

Definition get_response_paging_info (limit offset : option Z) (link : string) (query_count : Z) : option Paging :=
  let limit := default DEFAULT_LIMIT limit in
  let offset := default DEFAULT_OFFSET offset in
  let base_link := link +:+ "limit=" +:+ pretty limit +:+ "&" in
  let link_to o := base_link +:+ "offset=" +:+ pretty o in
  last ← last_offset limit query_count;
  Some (mkPaging (link_to offset) offset limit query_count (base_link +:+ "offset=0")
    (link_to (previous_offset limit offset)) (link_to (next_offset limit offset last)) (link_to last)).

(** ** Responses *)

(** The status, with the body of a successful answer or the text of an error, without
    what it quotes of the error of a library.  [HttpPanic] is a panic outside of
    [web::block], after which there is no answer. *)
Inductive HttpResponse (A : Type) :=
  | HttpOk (body : A)
  | HttpBadRequest (msg : string)
  | HttpForbidden (msg : string)
  | HttpNotFound (msg : string)
  | HttpInternalServerError
  | HttpPanic.
Arguments HttpOk {A} body.
Arguments HttpBadRequest {A} msg.
Arguments HttpForbidden {A} msg.
Arguments HttpNotFound {A} msg.
Arguments HttpInternalServerError {A}.
Arguments HttpPanic {A}.

(** The part the routes that list have in common: the values of [offset] and [limit]
    in the query, which is [None] when the query string is not valid. *)
Definition page_parameters (query : option (gmap string string)) : result string (Z * Z * gmap string string) :=
  q ← ok_or "Invalid query" query;
  offset ← match q !! "offset" with
           | Some value => ok_or ("Invalid offset value passed: " +:+ value) (parse_usize value)
           | None => mret DEFAULT_OFFSET
           end;
  limit ← match q !! "limit" with
          | Some value => ok_or ("Invalid limit value passed: " +:+ value) (parse_usize value)
          | None => mret DEFAULT_LIMIT
          end;
  mret (offset, limit, q).

(** A list of data with its paging. *)
Definition list_response {A} (data : list A) (limit offset : Z) (link : string) (total : nat) :
    HttpResponse (list A * Paging) :=
  match get_response_paging_info (Some limit) (Some offset) link (Z.of_nat total) with
  | Some paging => HttpOk (data, paging)
  | None => HttpPanic
  end.

(** ** Nodes ([routes/node.rs]) *)

Section nodes.
Context {R : Type} `{!NodeRegistry R}.
(** [serde_json] on filters and nodes, and [utf8_percent_encode] *)
Context (json_filter : string → option Filter) (json_node : bytes → option Node).
Context (json_updates : bytes → option (gmap string string)) (percent_encode : string → string).

Definition fetch_node_route (id : string) (r : R) : HttpResponse Node :=
  match registry_fetch_node id r with
  | Ok node => HttpOk node
  | Err (NotFoundError msg) => HttpNotFound msg
  | Err _ => HttpInternalServerError
  end.

Definition update_node_route (id : string) (body : bytes) (r : R) : HttpResponse () * R :=
  match json_updates body with
  | Some updates =>
      let '(x, r) := registry_update_node id updates r in
      (match x with
       | Ok _ => HttpOk ()
       | Err (NotFoundError msg) => HttpNotFound msg
       | Err _ => HttpInternalServerError
       end, r)
  | None => (HttpBadRequest "invalid updates: ", r)
  end.

Definition delete_node_route (id : string) (r : R) : HttpResponse () * R :=
  let '(x, r) := registry_delete_node id r in
  (match x with
   | Ok _ => HttpOk ()
   | Err (NotFoundError msg) => HttpNotFound msg
   | Err _ => HttpInternalServerError
   end, r).

Definition add_node_route (body : bytes) (r : R) : HttpResponse () * R :=
  match json_node body with
  | Some node =>
      let '(x, r) := registry_add_node node r in
      (match x with
       | Ok _ => HttpOk ()
       | Err (DuplicateNodeError id) => HttpForbidden ("node with with ID (" +:+ id +:+ ") already exists")
       | Err _ => HttpInternalServerError
       end, r)
  | None => (HttpBadRequest "invalid node: ", r)
  end.

(** [query_list_nodes]: the total is the number of nodes without the page. *)
Definition query_list_nodes (link : string) (filters : option Filter) (offset limit : Z) (r : R) :
    HttpResponse (list Node * Paging) :=
  match
    nodes ← registry_list_nodes filters None None r;
    data ← registry_list_nodes filters (Some (Z.to_nat limit)) (Some (Z.to_nat offset)) r;
    mret (data, length nodes)
  with
  | Ok (data, total) => list_response data limit offset link total
  | Err (InvalidFilterError msg) => HttpBadRequest msg
  | Err _ => HttpInternalServerError
  end.

Definition list_nodes_route (path : string) (query : option (gmap string string)) (r : R) :
    HttpResponse (list Node * Paging) :=
  match page_parameters query with
  | Err msg => HttpBadRequest msg
  | Ok (offset, limit, q) =>
      let link := path +:+ "?" in
      match q !! "filter" with
      | Some value =>
          match json_filter value with
          | Some filters => query_list_nodes (link +:+ "filter=" +:+ percent_encode value +:+ "&") (Some filters) offset limit r
          | None => HttpBadRequest ("Invalid filter value passed: " +:+ value)
          end
      | None => query_list_nodes link None offset limit r
      end
  end.
End nodes.

(** ** Circuits ([routes/circuit.rs]) *)

Record CircuitResponse := mkCircuitResponse {
  cr_id : string;
  cr_auth : AuthorizationType;
  cr_members : list string;
  cr_roster : Roster;
  cr_persistence : PersistenceType;
  cr_durability : DurabilityType;
  cr_routes : RouteType;
  cr_circuit_management_type : string;
}.
(** The id is the one the circuit was found by. *)
Definition circuit_response (circuit_id : string) (c : Circuit) : CircuitResponse :=
  mkCircuitResponse circuit_id (c_auth c) (c_members c) (c_roster c) (c_persistence c) (c_durability c)
    (c_routes c) (c_circuit_management_type c).

Definition fetch_circuit_route (circuit_id : string) (state : SplinterState) : HttpResponse CircuitResponse :=
  match circuit circuit_id state with
  | Some c => HttpOk (circuit_response circuit_id c)
  | None => HttpNotFound ("Unable to find circuit: " +:+ circuit_id)
  end.

(** The total is that of the page. *)
Definition query_list_circuits (link : string) (member : option string) (offset limit : Z) (state : SplinterState) :
    HttpResponse (list CircuitResponse * Paging) :=
  let circuits := btree_entries (cd_circuits (ss_circuit_directory state)) in
  let selected := match member with
                  | Some m => filter (λ p, m ∈ c_members p.2) circuits
                  | None => circuits
                  end in
  let data := map (λ p, circuit_response p.1 p.2) (page (Z.to_nat offset) (Z.to_nat limit) selected) in
  list_response data limit offset link (length data).

Definition list_circuits_route (path : string) (query : option (gmap string string)) (state : SplinterState) :
    HttpResponse (list CircuitResponse * Paging) :=
  match page_parameters query with
  | Err msg => HttpBadRequest msg
  | Ok (offset, limit, q) =>
      let link := path +:+ "?" in
      match q !! "filter" with
      | Some value => query_list_circuits (link +:+ "filter=" +:+ value +:+ "&") (Some value) offset limit state
      | None => query_list_circuits link None offset limit state
      end
  end.

(** ** Keys ([routes/keys.rs]) *)

(** The serializer writes the key with [as_hex]. *)
Record KeyInfoResponse := mkKeyInfoResponse {
  kir_public_key : string;
  kir_node_id : string;
  kir_metadata : gmap string string;
}.
Definition key_info_response (k : KeyInfo) : KeyInfoResponse :=
  mkKeyInfoResponse (to_hex (public_key k)) (associated_node_id k) (Keys.metadata k).

(** The [parse_hex] of the routes has the steps of that of the library, and texts for
    errors. *)
Definition fetch_key_route {R} `{!KeyRegistry R} (hex : string) (r : R) : HttpResponse KeyInfoResponse :=
  match parse_hex hex with
  | Ok key =>
      match get_key key r with
      | Ok (Some k) => HttpOk (key_info_response k)
      | Ok None => HttpNotFound ""
      | Err _ => HttpInternalServerError
      end
  | Err OddDigits => HttpBadRequest (hex +:+ " is not valid hex: odd number of digits")
  | Err InvalidHex => HttpBadRequest (hex +:+ " contains invalid hex")
  | Err HexPanic => HttpPanic
  end.

Definition list_keys_route (path : string) (query : option (gmap string string)) (r : StorageKeyRegistry) :
    HttpResponse (list KeyInfoResponse * Paging) :=
  match page_parameters query with
  | Err msg => HttpBadRequest msg
  | Ok (offset, limit, _) =>
      match
        keys ← keys_page (Z.to_nat offset) (Z.to_nat limit) 0 r;
        total ← count r;
        mret (map key_info_response keys, total)
      with
      | Ok (data, total) => list_response data limit offset (path +:+ "?") total
      | Err _ => HttpInternalServerError
      end
  end.

(** ** Status ([routes/status.rs]) *)

Record Status := mkStatus { status_node_id : string; status_endpoint : string; status_version : string }.
(** [version] is that of the package. *)
Definition get_status (version node_id endpoint : string) : HttpResponse Status :=
  HttpOk (mkStatus node_id endpoint version).

(** ** Facts *)

Lemma digit_of_pretty n : (n < 10)%N → digit_of (pretty_N_char n) = Some (Z.of_N n).
Proof.
  intros Hn. assert (n = 0 ∨ n = 1 ∨ n = 2 ∨ n = 3 ∨ n = 4 ∨ n = 5 ∨ n = 6 ∨ n = 7 ∨ n = 8 ∨ n = 9)%N as H by lia.
  by destruct_or! H; subst.
Qed.

Lemma parse_digits_pretty n s :
  (Z.of_N n < usize_modulus)%Z → parse_digits usize_modulus (pretty_N_go n s) 0 = parse_digits usize_modulus s (Z.of_N n).
Proof.
  revert s. induction (N.lt_wf_0 n) as [n _ IH]. intros s Hn.
  destruct (decide (n = 0)%N) as [->|Hpos]; [done|].
  rewrite pretty_N_go_step by lia. assert (n `div` 10 < n)%N by (apply N.div_lt; lia).
  rewrite IH by lia. cbn [parse_digits]. rewrite digit_of_pretty by (apply N.mod_lt; lia).
  pose proof (N.div_mod n 10 ltac:(lia)).
  cbn [mbind option_bind]. replace (Z.of_N (n `div` 10) * 10 + Z.of_N (n `mod` 10))%Z with (Z.of_N n) by lia.
  by rewrite (proj2 (Z.ltb_lt _ _)) by done.
Qed.

(** A number is read back as it was written. *)
Lemma parse_usize_pretty z : (0 ≤ z < usize_modulus)%Z → parse_usize (pretty z) = Some z.
Proof.
  intros Hz. destruct z as [|p|p]; [done| |lia].
  change (pretty (Z.pos p)) with (pretty (N.pos p)). unfold pretty, pretty_N. rewrite decide_False by done.
  pose proof (parse_digits_pretty (N.pos p) "" ltac:(lia)) as Hp. cbn [parse_digits] in Hp.
  unfold parse_usize, parse_unsigned. destruct (pretty_N_go (N.pos p) "") as [|c s] eqn:Hs; [by cbn in Hp; simplify_eq|].
  destruct (decide (c = "+"%char)) as [->|Hc]; [done|].
  rewrite (bool_decide_eq_false_2 (c = _)), bool_decide_eq_false_2 by done. exact Hp.
Qed.

(** [last] is the start of the page of the last entry. *)
Lemma last_offset_spec limit total :
  (0 < limit)%Z → (0 ≤ total)%Z →
  ∃ k, last_offset limit total = Some (k * limit)%Z ∧ (0 ≤ k)%Z ∧
       (k * limit ≤ total ∧ total ≤ k * limit + limit)%Z.
Proof.
  intros Hl Ht. unfold last_offset. rewrite (proj2 (Z.eqb_neq limit 0)) by lia.
  destruct (Z.gtb_spec total 0) as [H|H].
  - exists ((total - 1) / limit)%Z. pose proof (Z.div_mod (total - 1) limit ltac:(lia)).
    pose proof (Z.mod_pos_bound (total - 1) limit Hl). pose proof (Z.div_pos (total - 1) limit ltac:(lia) Hl).
    split_and!; [done|lia|nia..].
  - exists 0%Z. split_and!; [done|lia..].
Qed.

(** A limit of zero makes the paging of a list that is not empty panic. *)
Lemma zero_limit_panics {A} (data : list A) offset link total :
  total ≠ 0 → list_response data 0 offset link total = HttpPanic.
Proof.
  intros Ht. unfold list_response, get_response_paging_info, last_offset. cbn [from_option id].
  rewrite (proj2 (Z.gtb_lt _ _)) by lia. done.
Qed.

(** *** Following the links *)

(** What actix and [serde_urlencoded] make of the URI of a request: the path and the
    values of the query. *)
Class QueryString := parse_uri : string → string * option (gmap string string).

(** A path without the characters that have a meaning in a URI. *)
Definition plain_char (c : ascii) : bool :=
  let n := nat_of_ascii c in
  ((47 <=? n) && (n <=? 57) || (65 <=? n) && (n <=? 90) || (97 <=? n) && (n <=? 122))%nat.
Fixpoint plain (s : string) : bool :=
  match s with "" => true | String c s => plain_char c && plain s end.

Class QueryStringLaws `{!QueryString} := parse_uri_page path limit offset :
  plain path = true → plain limit = true → plain offset = true →
  parse_uri (path +:+ "?limit=" +:+ limit +:+ "&offset=" +:+ offset) =
    (path, Some {["limit" := limit; "offset" := offset]}).

Lemma plain_pretty_go n s : plain s = true → plain (pretty_N_go n s) = true.
Proof.
  revert s. induction (N.lt_wf_0 n) as [n _ IH]. intros s Hs.
  destruct (decide (n = 0)%N) as [->|Hpos]; [done|].
  rewrite pretty_N_go_step by lia. apply IH; [apply N.div_lt; lia|]. cbn. rewrite Hs.
  by unfold pretty_N_char; repeat case_match.
Qed.
Lemma plain_pretty z : (0 ≤ z)%Z → plain (pretty z) = true.
Proof.
  destruct z as [|p|p]; intros; [done| |lia]. change (pretty (Z.pos p)) with (pretty (N.pos p)).
  unfold pretty, pretty_N. rewrite decide_False by done. by apply plain_pretty_go.
Qed.

Section follow.
Context {D : Type} `{!FileSystem D, !PlainFiles D, !Serde (list Node), !QueryString}.
Context (json_filter : string → option Filter) (percent_encode : string → string).

(** A request for the nodes of a registry *)
Definition get_nodes (uri : string) (r : FileInternal * D) : HttpResponse (list Node * Paging) :=
  let '(path, query) := parse_uri uri in list_nodes_route json_filter percent_encode path query r.

(** A client that follows the links to the next page, until it is the current one. *)
Fixpoint follow_next (fuel : nat) (uri : string) (r : FileInternal * D) : option (list Node) :=
  match fuel with
  | 0 => None
  | S fuel =>
      match get_nodes uri r with
      | HttpOk (data, paging) =>
          if decide (pg_next paging = pg_current paging) then Some data
          else rest ← follow_next fuel (pg_next paging) r; Some (data ++ rest)
      | _ => None
      end
  end.

Definition page_uri (path : string) (limit offset : Z) : string :=
  path +:+ "?limit=" +:+ pretty limit +:+ "&offset=" +:+ pretty offset.

Context `{!QueryStringLaws}.

Lemma page_parameters_page limit offset :
  (0 ≤ limit < usize_modulus)%Z → (0 ≤ offset < usize_modulus)%Z →
  let q := {["limit" := pretty limit; "offset" := pretty offset]} in
  page_parameters (Some q) = Ok (offset, limit, q) ∧ q !! "filter" = None.
Proof.
  intros Hl Ho q. split; [|by unfold q; rewrite lookup_insert_ne, lookup_singleton_ne].
  assert (q !! "offset" = Some (pretty offset)) as Hqo by (by unfold q; rewrite lookup_insert_ne, lookup_singleton_eq).
  assert (q !! "limit" = Some (pretty limit)) as Hql by apply lookup_insert_eq.
  unfold page_parameters. cbn [ok_or mbind result_bind]. rewrite Hqo. cbn beta iota.
  rewrite parse_usize_pretty by done. cbn [ok_or]. rewrite Hql. cbn beta iota. by rewrite parse_usize_pretty.
Qed.

Lemma get_nodes_page path limit offset r :
  plain path = true → (0 < limit < usize_modulus)%Z → (0 ≤ offset < usize_modulus)%Z →
  get_nodes (page_uri path limit offset) r =
    list_response (page (Z.to_nat offset) (Z.to_nat limit) (cached_nodes r.1)) limit offset (path +:+ "?")
      (length (cached_nodes r.1)).
Proof.
  intros Hp Hl Ho. unfold get_nodes, page_uri.
  rewrite parse_uri_page by (first [done | apply plain_pretty; lia]).
  destruct (page_parameters_page limit offset ltac:(lia) Ho) as (Hq & Hf).
  unfold list_nodes_route. rewrite Hq, Hf. unfold query_list_nodes. cbn. unfold page at 1. cbn.
  by rewrite drop_0, firstn_all.
Qed.

Lemma list_response_page {A} (data : list A) limit offset path total k :
  last_offset limit (Z.of_nat total) = Some (k * limit)%Z →
  ∃ paging, list_response data limit offset (path +:+ "?") total = HttpOk (data, paging) ∧
    pg_current paging = page_uri path limit offset ∧
    pg_next paging = page_uri path limit (next_offset limit offset (k * limit)).
Proof.
  intros Hk. unfold list_response, get_response_paging_info. cbn [from_option id]. rewrite Hk. cbn [mbind option_bind].
  eexists. split; [reflexivity|]. cbn [pg_current pg_next]. unfold page_uri.
  by rewrite !str_app_assoc.
Qed.

Lemma page_uri_inj path limit a b : page_uri path limit a = page_uri path limit b → a = b.
Proof. unfold page_uri. by intros ?%(inj _)%(inj _)%(inj _)%(inj _)%(inj _). Qed.

Lemma follow_next_from path limit k fuel i r :
  plain path = true → (0 < limit)%Z →
  (Z.of_nat (length (cached_nodes r.1)) + limit < usize_modulus)%Z →
  last_offset limit (Z.of_nat (length (cached_nodes r.1))) = Some (k * limit)%Z →
  (k * limit ≤ Z.of_nat (length (cached_nodes r.1)) ≤ k * limit + limit)%Z →
  (0 ≤ i ≤ k)%Z → (k - i < Z.of_nat fuel)%Z →
  follow_next fuel (page_uri path limit (i * limit)) r = Some (drop (Z.to_nat (i * limit)) (cached_nodes r.1)).
Proof.
  intros Hp Hl Hmax Hlast Hk. revert i. induction fuel as [|fuel IH]; intros i Hi Hf; [lia|]. cbn [follow_next].
  rewrite get_nodes_page by (first [done | nia]).
  destruct (list_response_page (page (Z.to_nat (i * limit)) (Z.to_nat limit) (cached_nodes r.1)) limit
    (i * limit) path (length (cached_nodes r.1)) k Hlast) as (paging & -> & Hc & Hn). rewrite Hc, Hn.
  unfold next_offset, usize_add. rewrite Z.mod_small by nia. unfold page.
  destruct (Z.gtb_spec (i * limit + limit) (k * limit)) as [Hgt|Hle].
  - assert (i = k) as -> by nia. rewrite decide_True by done. f_equal. apply take_ge. rewrite length_drop. lia.
  - rewrite decide_False by (intros ?%page_uri_inj; lia).
    replace (i * limit + limit)%Z with ((i + 1) * limit)%Z by lia. rewrite IH by nia. cbn. f_equal.
    replace (Z.to_nat ((i + 1) * limit)) with (Z.to_nat (i * limit) + Z.to_nat limit) by lia.
    by rewrite <- drop_drop, take_drop.
Qed.

(** C30: a client that asks for a page of nodes and then follows the links to the next
    page comes to an end, after at most as many requests as there are nodes and one,
    and has got every node of the registry, once and in order, as long as the number
    of nodes and the limit of a page together fit a machine word and the limit is not
    zero. *)
Theorem paging_visits_all path limit r :
  plain path = true → (0 < limit)%Z →
  (Z.of_nat (length (cached_nodes r.1)) + limit < usize_modulus)%Z →
  follow_next (S (length (cached_nodes r.1))) (page_uri path limit 0) r = Some (cached_nodes r.1).
Proof.
  intros Hp Hl Hmax.
  destruct (last_offset_spec limit (Z.of_nat (length (cached_nodes r.1))) Hl ltac:(lia)) as (k & Hk & Hk0 & Hkl).
  apply (follow_next_from path limit k (S (length (cached_nodes r.1))) 0); [done..|lia|nia].
Qed.
End follow.

(** *** The list of circuits *)

(** Its total is that of the page, so that whatever the page, the next one and the
    last one are the first. *)
Lemma circuits_next_is_first path member limit offset state :
  (0 < limit)%Z → (0 ≤ offset)%Z → (offset + limit < usize_modulus)%Z →
  ∃ data paging, query_list_circuits (path +:+ "?") member offset limit state = HttpOk (data, paging) ∧
    pg_next paging = page_uri path limit 0 ∧ pg_last paging = page_uri path limit 0.
Proof.
  intros Hl Ho Hmax. unfold query_list_circuits. set (data := map _ _).
  assert (last_offset limit (Z.of_nat (length data)) = Some 0%Z) as Hlast.
  { unfold last_offset. rewrite (proj2 (Z.eqb_neq limit 0)) by lia. case_match; [|done].
    assert (length data ≤ Z.to_nat limit) by (unfold data, page; rewrite length_map, length_take; lia).
    rewrite Z.div_small by lia. done. }
  unfold list_response, get_response_paging_info. cbn [from_option id]. rewrite Hlast. cbn [mbind option_bind].
  do 2 eexists. split; [reflexivity|]. cbn [pg_next pg_last]. unfold page_uri, next_offset, usize_add.
  rewrite Z.mod_small by lia. rewrite (proj2 (Z.gtb_lt _ _)) by lia. by rewrite !str_app_assoc.
Qed.

(** *** Keys *)

(** A key that was saved is found under its hexadecimal form. *)
Lemma fetch_saved_key k loc m :
  fetch_key_route (to_hex (public_key k)) (mkStorageKeyRegistry loc (add_key k m)) = HttpOk (key_info_response k).
Proof.
  unfold fetch_key_route. rewrite parse_hex_to_hex. unfold get_key, storage_key_registry.
  by rewrite storage_get_add_key, decide_True.
Qed.

(** The total of the list counts the entries the iterator skips. *)
Lemma list_keys_total path limit offset r :
  keys_readable r → (0 < limit < usize_modulus)%Z → (0 ≤ offset < usize_modulus)%Z →
  ∃ paging, list_keys_route path (Some {["limit" := pretty limit; "offset" := pretty offset]}) r =
      HttpOk (map key_info_response (page (Z.to_nat offset) (Z.to_nat limit) (good_keys (btree_entries (kr_keys r)).*2)), paging) ∧
    pg_total paging = Z.of_nat (size (kr_keys r)).
Proof.
  intros Hr Hl Ho. unfold list_keys_route. destruct (page_parameters_page limit offset ltac:(lia) Ho) as [-> _].
  rewrite keys_page_spec by done. cbn. unfold list_response, get_response_paging_info. cbn [from_option id].
  destruct (last_offset_spec limit (Z.of_nat (size (kr_keys r))) ltac:(lia) ltac:(lia)) as (n & -> & _).
  eexists. split; reflexivity.
Qed.

(** ** An example *)

Module RouteMock.
(** Percent encoding left out, what the two libraries do. *)
#[export] Instance split_uri : QueryString := λ uri,
  match split_on "?" uri with
  | path :: query :: _ =>
      (path, Some (list_to_map (omap (λ pair, match split_on "=" pair with
                                              | [k; v] => Some (k, v)
                                              | _ => None
                                              end) (split_on "&" query))))
  | _ => (uri, Some ∅)
  end.

Lemma plain_avoids c s n : plain_char c = false → plain s = true → String.get n s ≠ Some c.
Proof.
  intros Hc. revert n. induction s as [|a s IH]; intros n; cbn; [done|].
  intros [Ha Hs]%andb_true_iff. destruct n as [|n]; [intros [= ->]; congruence|by apply IH].
Qed.

Lemma avoids_app c s t :
  (∀ n, String.get n s ≠ Some c) → (∀ n, String.get n t ≠ Some c) → ∀ n, String.get n (s +:+ t) ≠ Some c.
Proof.
  induction s as [|a s IH]; intros Hs Ht n; [apply Ht|]. rewrite str_app_cons.
  destruct n as [|n]; [apply (Hs 0)|]. apply IH; [|done]. intros m. apply (Hs (S m)).
Qed.

Lemma split_pair k v :
  (∀ n, String.get n k ≠ Some "="%char) → (∀ n, String.get n v ≠ Some "="%char) →
  split_on "=" (k +:+ String "=" v) = [k; v].
Proof. intros Hk Hv. by rewrite split_on_app, split_on_no_sep. Qed.

Ltac avoids := first [by intros ?; apply plain_avoids | by intros [|[|[|[|[|[|[|[|]]]]]]]]].

#[export] Instance split_uri_laws : QueryStringLaws.
Proof.
  intros path limit offset Hp Hl Ho. unfold parse_uri, split_uri.
  change ("?limit=" +:+ ?x) with (String "?" ("limit=" +:+ x)).
  rewrite split_on_app by avoids.
  rewrite split_on_no_sep by (repeat apply avoids_app; avoids).
  change ("&offset=" +:+ offset) with (String "&" ("offset=" +:+ offset)).
  rewrite <- str_app_assoc, split_on_app by (apply avoids_app; avoids).
  rewrite split_on_no_sep by (apply avoids_app; avoids). cbn [omap list_omap].
  change ("limit=" +:+ limit) with ("limit" +:+ String "=" limit).
  change ("offset=" +:+ offset) with ("offset" +:+ String "=" offset).
  by rewrite !split_pair by avoids.
Qed.
End RouteMock.

Section route_witness.
Import NodeMock RouteMock.
Definition three_nodes : FileInternal * gmap string bytes :=
  (mkFileInternal "nodes" [node1; mkNode "n2" ∅; mkNode "n3" ∅], ∅).
Lemma paging_visits_all_witness :
  follow_next (λ _, None) (λ s, s) 4 (page_uri "/nodes" 2 0) three_nodes = Some (cached_nodes three_nodes.1) ∧
  (next_offset 2 0 2 = 2 ∧ next_offset 2 2 2 = 2)%Z.
Proof.
  split; [|done].
  apply (paging_visits_all (λ _, None) (λ s, s) "/nodes" 2 three_nodes); reflexivity.
Defined.
End route_witness.
