(* ===== verification/Config.v ===== *)
(** * The configuration of the daemon

    Models [splinterd/src/config/mod.rs], [builder.rs] and [toml.rs],
    [registry_config.rs], the part of [main.rs] that makes the settings of the daemon
    from the command line, the configuration file and the environment, and
    [SplinterDaemonBuilder] of [daemon.rs].  The command line (clap), TOML and openssl
    are parameters; the deprecated generation of certificates is left out. *)

From S2P Require Import Prelude Storage.
From Stdlib Require Import Lia ZArith.

(** ** Configuration files *)

(** [Config], [ConfigBuilder] and [TomlConfig] have the same fields. *)
Record Config := mkConfig {
  cfg_storage : option string;
  cfg_transport : option string;
  cfg_cert_dir : option string;
  cfg_ca_certs : option string;
  cfg_client_cert : option string;
  cfg_client_key : option string;
  cfg_server_cert : option string;
  cfg_server_key : option string;
  cfg_service_endpoint : option string;
  cfg_network_endpoint : option string;
  cfg_peers : option (list string);
  cfg_node_id : option string;
  cfg_bind : option string;
  cfg_registry_backend : option string;
  cfg_registry_file : option string;
  cfg_heartbeat_interval : option Z;
}.
Definition ConfigBuilder : Type := Config.
Definition TomlConfig : Type := Config.

(** *** [ConfigBuilder] *)

Definition config_builder_new : ConfigBuilder :=
  mkConfig None None None None None None None None None None None None None None None None.

Definition with_storage (x : string) (b : ConfigBuilder) : ConfigBuilder :=
  mkConfig (Some x) (cfg_transport b) (cfg_cert_dir b) (cfg_ca_certs b) (cfg_client_cert b) (cfg_client_key b)
    (cfg_server_cert b) (cfg_server_key b) (cfg_service_endpoint b) (cfg_network_endpoint b) (cfg_peers
    b) (cfg_node_id b) (cfg_bind b) (cfg_registry_backend b) (cfg_registry_file b)
    (cfg_heartbeat_interval b).
Definition with_transport (x : string) (b : ConfigBuilder) : ConfigBuilder :=
  mkConfig (cfg_storage b) (Some x) (cfg_cert_dir b) (cfg_ca_certs b) (cfg_client_cert b) (cfg_client_key b)
    (cfg_server_cert b) (cfg_server_key b) (cfg_service_endpoint b) (cfg_network_endpoint b) (cfg_peers
    b) (cfg_node_id b) (cfg_bind b) (cfg_registry_backend b) (cfg_registry_file b)
    (cfg_heartbeat_interval b).
Definition with_cert_dir (x : string) (b : ConfigBuilder) : ConfigBuilder :=
  mkConfig (cfg_storage b) (cfg_transport b) (Some x) (cfg_ca_certs b) (cfg_client_cert b) (cfg_client_key b)
    (cfg_server_cert b) (cfg_server_key b) (cfg_service_endpoint b) (cfg_network_endpoint b) (cfg_peers
    b) (cfg_node_id b) (cfg_bind b) (cfg_registry_backend b) (cfg_registry_file b)
    (cfg_heartbeat_interval b).
Definition with_ca_certs (x : string) (b : ConfigBuilder) : ConfigBuilder :=
  mkConfig (cfg_storage b) (cfg_transport b) (cfg_cert_dir b) (Some x) (cfg_client_cert b) (cfg_client_key b)
    (cfg_server_cert b) (cfg_server_key b) (cfg_service_endpoint b) (cfg_network_endpoint b) (cfg_peers
    b) (cfg_node_id b) (cfg_bind b) (cfg_registry_backend b) (cfg_registry_file b)
    (cfg_heartbeat_interval b).
Definition with_client_cert (x : string) (b : ConfigBuilder) : ConfigBuilder :=
  mkConfig (cfg_storage b) (cfg_transport b) (cfg_cert_dir b) (cfg_ca_certs b) (Some x) (cfg_client_key b)
    (cfg_server_cert b) (cfg_server_key b) (cfg_service_endpoint b) (cfg_network_endpoint b) (cfg_peers
    b) (cfg_node_id b) (cfg_bind b) (cfg_registry_backend b) (cfg_registry_file b)
    (cfg_heartbeat_interval b).
Definition with_client_key (x : string) (b : ConfigBuilder) : ConfigBuilder :=
  mkConfig (cfg_storage b) (cfg_transport b) (cfg_cert_dir b) (cfg_ca_certs b) (cfg_client_cert b) (Some x)
    (cfg_server_cert b) (cfg_server_key b) (cfg_service_endpoint b) (cfg_network_endpoint b) (cfg_peers
    b) (cfg_node_id b) (cfg_bind b) (cfg_registry_backend b) (cfg_registry_file b)
    (cfg_heartbeat_interval b).
Definition with_server_cert (x : string) (b : ConfigBuilder) : ConfigBuilder :=
  mkConfig (cfg_storage b) (cfg_transport b) (cfg_cert_dir b) (cfg_ca_certs b) (cfg_client_cert b)
    (cfg_client_key b) (Some x) (cfg_server_key b) (cfg_service_endpoint b) (cfg_network_endpoint b)
    (cfg_peers b) (cfg_node_id b) (cfg_bind b) (cfg_registry_backend b) (cfg_registry_file b)
    (cfg_heartbeat_interval b).
Definition with_server_key (x : string) (b : ConfigBuilder) : ConfigBuilder :=
  mkConfig (cfg_storage b) (cfg_transport b) (cfg_cert_dir b) (cfg_ca_certs b) (cfg_client_cert b)
    (cfg_client_key b) (cfg_server_cert b) (Some x) (cfg_service_endpoint b) (cfg_network_endpoint b)
    (cfg_peers b) (cfg_node_id b) (cfg_bind b) (cfg_registry_backend b) (cfg_registry_file b)
    (cfg_heartbeat_interval b).
Definition with_service_endpoint (x : string) (b : ConfigBuilder) : ConfigBuilder :=
  mkConfig (cfg_storage b) (cfg_transport b) (cfg_cert_dir b) (cfg_ca_certs b) (cfg_client_cert b)
    (cfg_client_key b) (cfg_server_cert b) (cfg_server_key b) (Some x) (cfg_network_endpoint b)
    (cfg_peers b) (cfg_node_id b) (cfg_bind b) (cfg_registry_backend b) (cfg_registry_file b)
    (cfg_heartbeat_interval b).
Definition with_network_endpoint (x : string) (b : ConfigBuilder) : ConfigBuilder :=
  mkConfig (cfg_storage b) (cfg_transport b) (cfg_cert_dir b) (cfg_ca_certs b) (cfg_client_cert b)
    (cfg_client_key b) (cfg_server_cert b) (cfg_server_key b) (cfg_service_endpoint b) (Some x)
    (cfg_peers b) (cfg_node_id b) (cfg_bind b) (cfg_registry_backend b) (cfg_registry_file b)
    (cfg_heartbeat_interval b).
Definition with_peers (x : list string) (b : ConfigBuilder) : ConfigBuilder :=
  mkConfig (cfg_storage b) (cfg_transport b) (cfg_cert_dir b) (cfg_ca_certs b) (cfg_client_cert b)
    (cfg_client_key b) (cfg_server_cert b) (cfg_server_key b) (cfg_service_endpoint b)
    (cfg_network_endpoint b) (Some x) (cfg_node_id b) (cfg_bind b) (cfg_registry_backend b)
    (cfg_registry_file b) (cfg_heartbeat_interval b).
Definition with_node_id (x : string) (b : ConfigBuilder) : ConfigBuilder :=
  mkConfig (cfg_storage b) (cfg_transport b) (cfg_cert_dir b) (cfg_ca_certs b) (cfg_client_cert b)
    (cfg_client_key b) (cfg_server_cert b) (cfg_server_key b) (cfg_service_endpoint b)
    (cfg_network_endpoint b) (cfg_peers b) (Some x) (cfg_bind b) (cfg_registry_backend b)
    (cfg_registry_file b) (cfg_heartbeat_interval b).
Definition with_bind (x : string) (b : ConfigBuilder) : ConfigBuilder :=
  mkConfig (cfg_storage b) (cfg_transport b) (cfg_cert_dir b) (cfg_ca_certs b) (cfg_client_cert b)
    (cfg_client_key b) (cfg_server_cert b) (cfg_server_key b) (cfg_service_endpoint b)
    (cfg_network_endpoint b) (cfg_peers b) (cfg_node_id b) (Some x) (cfg_registry_backend b)
    (cfg_registry_file b) (cfg_heartbeat_interval b).
Definition with_registry_backend (x : string) (b : ConfigBuilder) : ConfigBuilder :=
  mkConfig (cfg_storage b) (cfg_transport b) (cfg_cert_dir b) (cfg_ca_certs b) (cfg_client_cert b)
    (cfg_client_key b) (cfg_server_cert b) (cfg_server_key b) (cfg_service_endpoint b)
    (cfg_network_endpoint b) (cfg_peers b) (cfg_node_id b) (cfg_bind b) (Some x) (cfg_registry_file b)
    (cfg_heartbeat_interval b).
Definition with_registry_file (x : string) (b : ConfigBuilder) : ConfigBuilder :=
  mkConfig (cfg_storage b) (cfg_transport b) (cfg_cert_dir b) (cfg_ca_certs b) (cfg_client_cert b)
    (cfg_client_key b) (cfg_server_cert b) (cfg_server_key b) (cfg_service_endpoint b)
    (cfg_network_endpoint b) (cfg_peers b) (cfg_node_id b) (cfg_bind b) (cfg_registry_backend b) (Some
    x) (cfg_heartbeat_interval b).
Definition with_heartbeat_interval (x : Z) (b : ConfigBuilder) : ConfigBuilder :=
  mkConfig (cfg_storage b) (cfg_transport b) (cfg_cert_dir b) (cfg_ca_certs b) (cfg_client_cert b)
    (cfg_client_key b) (cfg_server_cert b) (cfg_server_key b) (cfg_service_endpoint b)
    (cfg_network_endpoint b) (cfg_peers b) (cfg_node_id b) (cfg_bind b) (cfg_registry_backend b)
    (cfg_registry_file b) (Some x).

(** [build] *)
Definition config_build (b : ConfigBuilder) : Config := b.

(** *** [TomlConfig] *)

Inductive ConfigError := ReadError | TomlParseError.

(** [toml::from_str] *)
Class Toml := toml_from_str : string → option TomlConfig.

Definition toml_config_new `{!Toml} (toml : string) : result ConfigError TomlConfig :=
  ok_or TomlParseError (toml_from_str toml).

Definition apply_some {A B} (o : option A) (f : A → B → B) (b : B) : B :=
  match o with Some x => f x b | None => b end.
Definition apply_to_builder (t : TomlConfig) (b : ConfigBuilder) : ConfigBuilder :=
  let b := apply_some (cfg_storage t) with_storage b in
  let b := apply_some (cfg_transport t) with_transport b in
  let b := apply_some (cfg_cert_dir t) with_cert_dir b in
  let b := apply_some (cfg_ca_certs t) with_ca_certs b in
  let b := apply_some (cfg_client_cert t) with_client_cert b in
  let b := apply_some (cfg_client_key t) with_client_key b in
  let b := apply_some (cfg_server_cert t) with_server_cert b in
  let b := apply_some (cfg_server_key t) with_server_key b in
  let b := apply_some (cfg_service_endpoint t) with_service_endpoint b in
  let b := apply_some (cfg_network_endpoint t) with_network_endpoint b in
  let b := apply_some (cfg_peers t) with_peers b in
  let b := apply_some (cfg_node_id t) with_node_id b in
  let b := apply_some (cfg_bind t) with_bind b in
  let b := apply_some (cfg_registry_backend t) with_registry_backend b in
  let b := apply_some (cfg_registry_file t) with_registry_file b in
  let b := apply_some (cfg_heartbeat_interval t) with_heartbeat_interval b in
  b.

(** *** [load_toml_config], without and with the feature [config-toml] *)

Section load.
Context {D : Type} `{!FileSystem D, !Toml}.

(** [Config::from_file] and [fs::read_to_string]: the file has to be UTF-8. *)
Definition read_to_string (path : string) (d : D) : result ConfigError string :=
  b ← ok_or ReadError (read_file path d);
  ok_or ReadError (from_utf8 b).

Definition load_config_file (path : string) (d : D) : Config :=
  match (toml ← read_to_string path d; toml_config_new toml) with
  | Ok config => config
  | Err _ => config_builder_new
  end.
Definition load_toml_config (path : string) (d : D) : Config :=
  let b := config_builder_new in
  config_build match (toml ← read_to_string path d; toml_config_new toml) with
               | Ok toml_config => apply_to_builder toml_config b
               | Err _ => b
               end.
End load.

(** ** [RegistryConfig] *)

Inductive RegistryConfig :=
  | RegistryFile (registry_file : string)
  | RegistryNoOp.
Inductive RegistryConfigError :=
  | MissingValue (msg : string)
  | InvalidType (msg : string).

Record RegistryConfigBuilder := mkRegistryConfigBuilder {
  rcb_registry_backend : option string;
  rcb_registry_file : option string;
}.
Definition registry_config_default : RegistryConfigBuilder := mkRegistryConfigBuilder (Some "FILE") None.
Definition rcb_with_backend (x : option string) (b : RegistryConfigBuilder) : RegistryConfigBuilder :=
  mkRegistryConfigBuilder x (rcb_registry_file b).
Definition rcb_with_file (x : string) (b : RegistryConfigBuilder) : RegistryConfigBuilder :=
  mkRegistryConfigBuilder (rcb_registry_backend b) (Some x).
Definition registry_config_build (b : RegistryConfigBuilder) : result RegistryConfigError RegistryConfig :=
  match rcb_registry_backend b with
  | Some registry_type =>
      if decide (registry_type = "FILE") then
        ok_or (MissingValue "For registry_backend of type 'FILE' a path to the file must be provided.")
          (RegistryFile <$> rcb_registry_file b)
      else Err (InvalidType "NodeRegistry type is not supported")
  | None => Ok RegistryNoOp
  end.

(** ** [SplinterDaemonBuilder] *)

Inductive CreateError :=
  | MissingRequiredField (msg : string)
  | DaemonRegistryError (e : RegistryConfigError)
  | DaemonNetworkError.

Record SplinterDaemonBuilder := mkDaemonBuilder {
  db_storage_location : option string;
  db_key_registry_location : option string;
  db_service_endpoint : option string;
  db_network_endpoint : option string;
  db_initial_peers : option (list string);
  db_node_id : option string;
  db_rest_api_endpoint : option string;
  db_registry_backend : option string;
  db_registry_file : option string;
  db_storage_type : option string;
  db_heartbeat_interval : option Z;
}.
Definition daemon_builder_new : SplinterDaemonBuilder :=
  mkDaemonBuilder None None None None None None None None None None None.

Definition daemon_with_storage_location (x : string) (b : SplinterDaemonBuilder) : SplinterDaemonBuilder :=
  mkDaemonBuilder (Some x) (db_key_registry_location b) (db_service_endpoint b) (db_network_endpoint b)
    (db_initial_peers b) (db_node_id b) (db_rest_api_endpoint b) (db_registry_backend b)
    (db_registry_file b) (db_storage_type b) (db_heartbeat_interval b).
Definition daemon_with_key_registry_location (x : string) (b : SplinterDaemonBuilder) : SplinterDaemonBuilder :=
  mkDaemonBuilder (db_storage_location b) (Some x) (db_service_endpoint b) (db_network_endpoint b)
    (db_initial_peers b) (db_node_id b) (db_rest_api_endpoint b) (db_registry_backend b)
    (db_registry_file b) (db_storage_type b) (db_heartbeat_interval b).
Definition daemon_with_service_endpoint (x : string) (b : SplinterDaemonBuilder) : SplinterDaemonBuilder :=
  mkDaemonBuilder (db_storage_location b) (db_key_registry_location b) (Some x) (db_network_endpoint b)
    (db_initial_peers b) (db_node_id b) (db_rest_api_endpoint b) (db_registry_backend b)
    (db_registry_file b) (db_storage_type b) (db_heartbeat_interval b).
Definition daemon_with_network_endpoint (x : string) (b : SplinterDaemonBuilder) : SplinterDaemonBuilder :=
  mkDaemonBuilder (db_storage_location b) (db_key_registry_location b) (db_service_endpoint b) (Some x)
    (db_initial_peers b) (db_node_id b) (db_rest_api_endpoint b) (db_registry_backend b)
    (db_registry_file b) (db_storage_type b) (db_heartbeat_interval b).
Definition daemon_with_initial_peers (x : list string) (b : SplinterDaemonBuilder) : SplinterDaemonBuilder :=
  mkDaemonBuilder (db_storage_location b) (db_key_registry_location b) (db_service_endpoint b)
    (db_network_endpoint b) (Some x) (db_node_id b) (db_rest_api_endpoint b) (db_registry_backend
    b) (db_registry_file b) (db_storage_type b) (db_heartbeat_interval b).
Definition daemon_with_node_id (x : string) (b : SplinterDaemonBuilder) : SplinterDaemonBuilder :=
  mkDaemonBuilder (db_storage_location b) (db_key_registry_location b) (db_service_endpoint b)
    (db_network_endpoint b) (db_initial_peers b) (Some x) (db_rest_api_endpoint b)
    (db_registry_backend b) (db_registry_file b) (db_storage_type b) (db_heartbeat_interval b).
Definition daemon_with_rest_api_endpoint (x : string) (b : SplinterDaemonBuilder) : SplinterDaemonBuilder :=
  mkDaemonBuilder (db_storage_location b) (db_key_registry_location b) (db_service_endpoint b)
    (db_network_endpoint b) (db_initial_peers b) (db_node_id b) (Some x) (db_registry_backend b)
    (db_registry_file b) (db_storage_type b) (db_heartbeat_interval b).
Definition daemon_with_registry_backend (x : option string) (b : SplinterDaemonBuilder) : SplinterDaemonBuilder :=
  mkDaemonBuilder (db_storage_location b) (db_key_registry_location b) (db_service_endpoint b)
    (db_network_endpoint b) (db_initial_peers b) (db_node_id b) (db_rest_api_endpoint b) x
    (db_registry_file b) (db_storage_type b) (db_heartbeat_interval b).
Definition daemon_with_registry_file (x : string) (b : SplinterDaemonBuilder) : SplinterDaemonBuilder :=
  mkDaemonBuilder (db_storage_location b) (db_key_registry_location b) (db_service_endpoint b)
    (db_network_endpoint b) (db_initial_peers b) (db_node_id b) (db_rest_api_endpoint b)
    (db_registry_backend b) (Some x) (db_storage_type b) (db_heartbeat_interval b).
Definition daemon_with_storage_type (x : string) (b : SplinterDaemonBuilder) : SplinterDaemonBuilder :=
  mkDaemonBuilder (db_storage_location b) (db_key_registry_location b) (db_service_endpoint b)
    (db_network_endpoint b) (db_initial_peers b) (db_node_id b) (db_rest_api_endpoint b)
    (db_registry_backend b) (db_registry_file b) (Some x) (db_heartbeat_interval b).
Definition daemon_with_heartbeat_interval (x : Z) (b : SplinterDaemonBuilder) : SplinterDaemonBuilder :=
  mkDaemonBuilder (db_storage_location b) (db_key_registry_location b) (db_service_endpoint b)
    (db_network_endpoint b) (db_initial_peers b) (db_node_id b) (db_rest_api_endpoint b)
    (db_registry_backend b) (db_registry_file b) (db_storage_type b) (Some x).

Record SplinterDaemon (N : Type) := mkSplinterDaemon {
  sd_storage_location : string;
  sd_key_registry_location : string;
  sd_service_endpoint : string;
  sd_network_endpoint : string;
  sd_initial_peers : list string;
  sd_network : N;
  sd_node_id : string;
  sd_rest_api_endpoint : string;
  sd_registry_config : RegistryConfig;
  sd_storage_type : string;
}.
Arguments mkSplinterDaemon {N} _ _ _ _ _ _ _ _ _ _.
Arguments sd_storage_location {N} s.
Arguments sd_key_registry_location {N} s.
Arguments sd_service_endpoint {N} s.
Arguments sd_network_endpoint {N} s.
Arguments sd_initial_peers {N} s.
Arguments sd_network {N} s.
Arguments sd_node_id {N} s.
Arguments sd_rest_api_endpoint {N} s.
Arguments sd_registry_config {N} s.
Arguments sd_storage_type {N} s.

Definition required {A} (field : string) (o : option A) : result CreateError A :=
  ok_or (MissingRequiredField ("Missing field: " +:+ field)) o.

(** [build]; [network_new] is [Network::new] on a new mesh. *)
Definition daemon_build {N} (network_new : Z → option N) (b : SplinterDaemonBuilder) :
    result CreateError (SplinterDaemon N) :=
  heartbeat_interval ← required "heartbeat_interval" (db_heartbeat_interval b);
  network ← ok_or DaemonNetworkError (network_new heartbeat_interval);
  storage_location ← required "storage_location" (db_storage_location b);
  key_registry_location ← required "key_registry_location" (db_key_registry_location b);
  service_endpoint ← required "service_location" (db_service_endpoint b);
  network_endpoint ← required "network_endpoint" (db_network_endpoint b);
  initial_peers ← required "initial_peers" (db_initial_peers b);
  node_id ← required "node_id" (db_node_id b);
  rest_api_endpoint ← required "rest_api_endpoint" (db_rest_api_endpoint b);
  storage_type ← required "storage_type" (db_storage_type b);
  let rb := rcb_with_backend (db_registry_backend b) registry_config_default in
  let rb := apply_some (db_registry_file b) rcb_with_file rb in
  registry_config ← map_err DaemonRegistryError (registry_config_build rb);
  mret (mkSplinterDaemon storage_location key_registry_location service_endpoint network_endpoint
          initial_peers network node_id rest_api_endpoint registry_config storage_type).

(** ** [main] *)

(** The arguments of the command line, as clap matched them. *)
Record Args := mkArgs {
  arg_config : option string;
  arg_node_id : option string;
  arg_storage : option string;
  arg_transport : option string;
  arg_network_endpoint : option string;
  arg_service_endpoint : option string;
  arg_peers : option (list string);
  arg_ca_file : option string;
  arg_cert_dir : option string;
  arg_client_cert : option string;
  arg_server_cert : option string;
  arg_server_key : option string;
  arg_client_key : option string;
  arg_insecure : bool;
  arg_bind : option string;
  arg_registry_backend : option string;
  arg_registry_file : option string;
  arg_heartbeat_interval : option string;
}.

(** The variables of the environment *)
Record Env := mkEnv {
  env_state_dir : option string;
  env_cert_dir : option string;
}.

(** How [main] ends early: a panic, or an error that is logged before the exit. *)
Inductive MainError :=
  | MainPanic (msg : string)
  | TransportNotSupported (msg : string)
  | TransportIoError
  | TransportTlsError
  | DaemonCreateError (e : CreateError).

(** [or_else] *)
Definition or_else {A} (o o' : option A) : option A :=
  match o with Some x => Some x | None => o' end.
Definition expect {A} (msg : string) (o : option A) : result MainError A := ok_or (MainPanic msg) o.

Definition DEFAULT_STATE_DIR : string := "/var/lib/splinter/".
Definition DEFAULT_CERT_DIR : string := "/etc/splinter/certs/".
Definition CLIENT_CERT : string := "client.crt".
Definition CLIENT_KEY : string := "private/client.key".
Definition SERVER_CERT : string := "server.crt".
Definition SERVER_KEY : string := "private/server.key".
Definition CA_PEM : string := "ca.pem".
Definition HEARTBEAT_DEFAULT : Z := 30.

(** The transport that was chosen; that of TLS with the files for openssl. *)
Inductive TransportSettings :=
  | RawSettings
  | TlsSettings (ca_file : option string) (client_key client_cert server_key server_cert : string).

Section main.
Context {D : Type} `{!FileSystem D, !Toml}.
(** [Path::is_file], [fs::canonicalize], which fails for a path that does not exist,
    and whether [TlsTransport::new] succeeds *)
Context (is_file can_canonicalize : string → D → bool) (tls_new : TransportSettings → D → bool).

(** A file that is given, or the one of that name in the directory, if it exists *)
Definition file_setting (arg config : option string) (cert_dir name msg : string) (d : D) :
    result MainError string :=
  let path := path_join cert_dir name in
  expect msg (or_else arg (or_else config (if is_file path d then Some path else None))).

Definition canonical (path : string) (d : D) : result MainError () :=
  if can_canonicalize path d then mret () else Err TransportIoError.

(** [get_transport], but for what the feature [generate-certs] puts first:
    [Clients.Generated.get_transport_generating] has both. *)
Definition get_transport (transport_type : string) (args : Args) (config : Config) (env : Env) (d : D) :
    result MainError TransportSettings :=
  if decide (transport_type = "tls") then
    let cert_location := default DEFAULT_CERT_DIR (env_cert_dir env) in
    cert_dir ← expect "Must provide a valid client certificate"
      (or_else (arg_cert_dir args) (or_else (cfg_cert_dir config) (Some cert_location)));
    client_cert ← file_setting (arg_client_cert args) (cfg_client_cert config) cert_dir CLIENT_CERT
      "Must provide a valid client certificate" d;
    server_cert ← file_setting (arg_server_cert args) (cfg_server_cert config) cert_dir SERVER_CERT
      "Must provide a valid server certificate" d;
    server_key ← file_setting (arg_server_key args) (cfg_server_key config) cert_dir SERVER_KEY
      "Must provide a valid key path" d;
    client_key ← file_setting (arg_client_key args) (cfg_client_key config) cert_dir CLIENT_KEY
      "Must provide a valid key path" d;
    ca_file ← (if arg_insecure args then mret None
               else ca_file ← file_setting (arg_ca_file args) (cfg_ca_certs config) cert_dir CA_PEM
                      "Must provide a valid file containing ca certs" d;
                    mret (Some ca_file));
    match ca_file with Some ca_file => canonical ca_file d | None => mret () end;;
    canonical client_cert d;;
    canonical client_key d;;
    canonical server_cert d;;
    canonical server_key d;;
    let settings := TlsSettings ca_file client_key client_cert server_key server_cert in
    if tls_new settings d then mret settings else Err TransportTlsError
  else if decide (transport_type = "raw") then mret RawSettings
  else Err (TransportNotSupported ("Transport type " +:+ transport_type +:+ " is not supported")).

(** Where a storage of the daemon is *)
Definition storage_file (storage_type location file : string) : result MainError string :=
  if decide (storage_type = "yaml") then mret (location +:+ file)
  else if decide (storage_type = "memory") then mret "memory"
  else Err (MainPanic ("Storage type is not supported: " +:+ storage_type)).

(** [main], up to the start of the daemon *)
Definition main_daemon {N} (network_new : Z → option N) (args : Args) (env : Env) (d : D) :
    result MainError (SplinterDaemon N * TransportSettings) :=
  let config := load_toml_config (default "/etc/splinter/splinterd.toml" (arg_config args)) d in
  node_id ← expect "Must provide a unique node id" (or_else (arg_node_id args) (cfg_node_id config));
  storage_type ← expect "No Storage Provided"
    (or_else (arg_storage args) (or_else (cfg_storage config) (Some "yaml")));
  transport_type ← expect "No Transport Provided"
    (or_else (arg_transport args) (or_else (cfg_transport config) (Some "raw")));
  service_endpoint ← expect "Must provide a valid service endpoint"
    (or_else (arg_service_endpoint args) (or_else (cfg_service_endpoint config) (Some "127.0.0.1:8043")));
  network_endpoint ← expect "Must provide a valid network endpoint"
    (or_else (arg_network_endpoint args) (or_else (cfg_network_endpoint config) (Some "127.0.0.1:8044")));
  let initial_peers := default [] (or_else (arg_peers args) (cfg_peers config)) in
  let heartbeat_interval := match arg_heartbeat_interval args ≫= parse_usize with
                            | Some n => n
                            | None => default HEARTBEAT_DEFAULT (cfg_heartbeat_interval config)
                            end in
  transport ← get_transport transport_type args config env d;
  let location := default DEFAULT_STATE_DIR (env_state_dir env) in
  storage_location ← storage_file storage_type location "circuits.yaml";
  key_registry_location ← storage_file storage_type location "keys.yaml";
  rest_api_endpoint ← expect "Must provide a url for REST API endpoint"
    (or_else (arg_bind args) (or_else (cfg_bind config) (Some "127.0.0.1:8080")));
  let registry_backend := or_else (arg_registry_backend args) (cfg_registry_backend config) in
  let registry_file := or_else (arg_registry_file args) (cfg_registry_file config) in
  let b := daemon_with_storage_location storage_location daemon_builder_new in
  let b := daemon_with_key_registry_location key_registry_location b in
  let b := daemon_with_network_endpoint network_endpoint b in
  let b := daemon_with_service_endpoint service_endpoint b in
  let b := daemon_with_initial_peers initial_peers b in
  let b := daemon_with_node_id node_id b in
  let b := daemon_with_rest_api_endpoint rest_api_endpoint b in
  let b := daemon_with_registry_backend registry_backend b in
  let b := daemon_with_storage_type storage_type b in
  let b := daemon_with_heartbeat_interval heartbeat_interval b in
  let b := apply_some registry_file daemon_with_registry_file b in
  daemon ← map_err DaemonCreateError (daemon_build network_new b);
  mret (daemon, transport).
End main.

(** ** Facts *)

Lemma apply_some_other {A B C} (p : B → C) (f : A → B → B) o b :
  (∀ x, p (f x b) = p b) → p (apply_some o f b) = p b.
Proof. by destruct o; cbn. Qed.
Lemma apply_some_same {A B} (p : B → option A) (f : A → B → B) o b :
  (∀ x, p (f x b) = Some x) → p (apply_some o f b) = or_else o (p b).
Proof. by destruct o; cbn. Qed.

Lemma config_eq c c' :
  cfg_storage c = cfg_storage c' →
  cfg_transport c = cfg_transport c' →
  cfg_cert_dir c = cfg_cert_dir c' →
  cfg_ca_certs c = cfg_ca_certs c' →
  cfg_client_cert c = cfg_client_cert c' →
  cfg_client_key c = cfg_client_key c' →
  cfg_server_cert c = cfg_server_cert c' →
  cfg_server_key c = cfg_server_key c' →
  cfg_service_endpoint c = cfg_service_endpoint c' →
  cfg_network_endpoint c = cfg_network_endpoint c' →
  cfg_peers c = cfg_peers c' →
  cfg_node_id c = cfg_node_id c' →
  cfg_bind c = cfg_bind c' →
  cfg_registry_backend c = cfg_registry_backend c' →
  cfg_registry_file c = cfg_registry_file c' →
  cfg_heartbeat_interval c = cfg_heartbeat_interval c' →
  c = c'.
Proof. destruct c, c'; cbn; intros; by subst. Qed.

(** The file takes precedence over the builder it is applied to, field by field. *)
Lemma apply_to_builder_spec t b :
  apply_to_builder t b = mkConfig
    (or_else (cfg_storage t) (cfg_storage b))
    (or_else (cfg_transport t) (cfg_transport b))
    (or_else (cfg_cert_dir t) (cfg_cert_dir b))
    (or_else (cfg_ca_certs t) (cfg_ca_certs b))
    (or_else (cfg_client_cert t) (cfg_client_cert b))
    (or_else (cfg_client_key t) (cfg_client_key b))
    (or_else (cfg_server_cert t) (cfg_server_cert b))
    (or_else (cfg_server_key t) (cfg_server_key b))
    (or_else (cfg_service_endpoint t) (cfg_service_endpoint b))
    (or_else (cfg_network_endpoint t) (cfg_network_endpoint b))
    (or_else (cfg_peers t) (cfg_peers b))
    (or_else (cfg_node_id t) (cfg_node_id b))
    (or_else (cfg_bind t) (cfg_bind b))
    (or_else (cfg_registry_backend t) (cfg_registry_backend b))
    (or_else (cfg_registry_file t) (cfg_registry_file b))
    (or_else (cfg_heartbeat_interval t) (cfg_heartbeat_interval b)).
Proof.
  apply config_eq; cbn; unfold apply_to_builder; cbv zeta;
    repeat first [rewrite apply_some_same by (intros; reflexivity) |
                  rewrite apply_some_other by (intros; reflexivity)]; reflexivity.
Qed.

Lemma or_else_None {A} (o : option A) : or_else o None = o.
Proof. by destruct o. Qed.

(** The two ways to load a configuration file give the same. *)
Lemma load_toml_config_agrees {D} `{!FileSystem D, !Toml} path (d : D) :
  load_toml_config path d = load_config_file path d.
Proof.
  unfold load_toml_config, load_config_file. destruct (toml ← read_to_string path d; _) as [t|e]; [|done].
  unfold config_build. rewrite apply_to_builder_spec. cbn. rewrite !or_else_None. by destruct t.
Qed.

(** *** What [main] gives to the daemon *)

Lemma storage_file_supported {D T} `{!FileSystem D, !Serde T} ty location file loc :
  ends_with ".yaml" file = true → storage_file ty location file = Ok loc →
  ∀ (x : T) (d : D) msg, (get_storage loc x d).1 ≠ Err (UnknownStateLocation msg).
Proof.
  intros Hf Hs x d msg. unfold storage_file in Hs. unfold get_storage.
  case_decide; [|case_decide; [|done]; injection Hs as <-; by vm_compute].
  injection Hs as <-. rewrite ends_with_app by done. unfold yaml_storage_new. case_match; [by case_match|].
  unfold mbind, eff_bind, write_yaml. by repeat case_match; simplify_eq/=.
Qed.

Lemma storage_files_differ ty location file file' loc :
  storage_file ty location file = Ok loc → storage_file ty location file' = Ok loc → file ≠ file' → ty = "memory".
Proof.
  unfold storage_file. case_decide; [|by case_decide]. intros [= <-] [= Heq] Hne. exfalso. apply Hne.
  by apply (inj (String.append location)) in Heq.
Qed.

Section main_facts.
Context {D T T' N : Type} `{!FileSystem D, !Serde T, !Serde T'} {toml : Toml}.
Context (is_file can_canonicalize : string → D → bool) (tls_new : TransportSettings → D → bool).
Context (network_new : Z → option N).

Lemma map_err_Ok {E E' A} (f : E → E') (r : result E A) x : map_err f r = Ok x → r = Ok x.
Proof. by destruct r; intros; simplify_eq/=. Qed.

Lemma required_inv {A} field (o : option A) x : required field o = Ok x → o = Some x.
Proof. unfold required, ok_or. by destruct o; intros; simplify_eq. Qed.

Lemma daemon_build_inv b (sd : SplinterDaemon N) :
  daemon_build network_new b = Ok sd →
  db_storage_location b = Some (sd_storage_location sd) ∧
  db_key_registry_location b = Some (sd_key_registry_location sd) ∧
  db_node_id b = Some (sd_node_id sd) ∧ db_storage_type b = Some (sd_storage_type sd) ∧
  match db_registry_backend b with
  | None => sd_registry_config sd = RegistryNoOp
  | Some backend => backend = "FILE" ∧ RegistryFile <$> db_registry_file b = Some (sd_registry_config sd)
  end.
Proof.
  intros H. unfold daemon_build in H. do 10 (apply result_bind_inv in H as (? & ? & H)).
  apply result_bind_inv in H as (rc & Hrc & [= <-]). cbn. split_and!; try (by eapply required_inv).
  unfold registry_config_build in Hrc. destruct b as [? ? ? ? ? ? ? [backend|] [f|] ? ?]; cbn in *; simplify_eq; try done;
    case_decide; cbn in *; by simplify_eq.
Qed.

(** What the daemon is made with works: its node id is the one given, on the command
    line rather than in the file; its storages are of a kind that is known, and are
    different files unless they are in memory; and it has a node registry in a file
    exactly when the backend [FILE] was asked for, on the command line rather than in
    the file, and no registry when nothing was. *)
Theorem main_daemon_settings args env d daemon transport :
  main_daemon is_file can_canonicalize tls_new network_new args env d = Ok (daemon, transport) →
  let config := load_toml_config (default "/etc/splinter/splinterd.toml" (arg_config args)) d in
  or_else (arg_node_id args) (cfg_node_id config) = Some (sd_node_id daemon) ∧
  (∀ (x : T) (d' : D) msg, (get_storage (sd_storage_location daemon) x d').1 ≠ Err (UnknownStateLocation msg)) ∧
  (∀ (x : T') (d' : D) msg, (get_storage (sd_key_registry_location daemon) x d').1 ≠ Err (UnknownStateLocation msg)) ∧
  (sd_storage_location daemon = sd_key_registry_location daemon → sd_storage_type daemon = "memory") ∧
  match or_else (arg_registry_backend args) (cfg_registry_backend config) with
  | None => sd_registry_config daemon = RegistryNoOp
  | Some backend => backend = "FILE" ∧
      RegistryFile <$> or_else (arg_registry_file args) (cfg_registry_file config) = Some (sd_registry_config daemon)
  end.
Proof.
  intros H. cbv zeta. unfold main_daemon in H. set (config := load_toml_config _ _) in *.
  apply result_bind_inv in H as (node_id & Hid & H).
  do 4 (apply result_bind_inv in H as (? & ? & H)).
  apply result_bind_inv in H as (? & _ & H).
  apply result_bind_inv in H as (loc & Hloc & H). apply result_bind_inv in H as (loc' & Hloc' & H).
  apply result_bind_inv in H as (? & _ & H). apply result_bind_inv in H as (sd & Hsd & [= -> _]).
  assert (or_else (arg_node_id args) (cfg_node_id config) = Some node_id) as Hid'.
  { unfold expect, ok_or in Hid. by destruct (or_else _ _); simplify_eq. }
  apply map_err_Ok, daemon_build_inv in Hsd.
  set (file := or_else (arg_registry_file args) _) in *. set (backend := or_else (arg_registry_backend args) _) in *.
  assert (sd_storage_location daemon = loc ∧ sd_key_registry_location daemon = loc' ∧ sd_node_id daemon = node_id ∧
          sd_storage_type daemon = x ∧
          match backend with
          | None => sd_registry_config daemon = RegistryNoOp
          | Some b => b = "FILE" ∧ RegistryFile <$> file = Some (sd_registry_config daemon)
          end) as (-> & -> & -> & -> & Hr).
  { destruct file as [f|], Hsd as (H1' & H2' & H3' & H4' & H5'); cbn in *; simplify_eq; by split_and!. }
  split_and!; [done| | | |done].
  - apply (storage_file_supported _ _ "circuits.yaml" _ eq_refl Hloc).
  - apply (storage_file_supported _ _ "keys.yaml" _ eq_refl Hloc').
  - intros Heq. rewrite <- Heq in Hloc'. by apply (storage_files_differ _ _ _ _ _ Hloc Hloc').
Qed.
End main_facts.

(** The backend [FILE] the builder of the registry starts with is never used: the
    daemon always overwrites it, with nothing when nothing was asked for. *)
Lemma registry_default_unused {N} (network_new : Z → option N) b (sd : SplinterDaemon N) :
  db_registry_backend b = None → daemon_build network_new b = Ok sd → sd_registry_config sd = RegistryNoOp.
Proof. intros Hb (_ & _ & _ & _ & Hr)%daemon_build_inv. by rewrite Hb in Hr. Qed.
