(* ===== verification/Daemon.v ===== *)
(** * The daemon

    Models [SplinterDaemon::start] of [splinterd/src/daemon.rs] and what its threads
    do: the state is loaded, listeners are opened, the threads that accept connections
    add them to the network, peers are connected, and the main loop hands the messages
    of the network to the dispatcher.  The threads that run the loops of other
    components (dispatchers, sender, orchestrator, service processor, REST API) are
    those components'; here each thread is a function of what it is given. *)

From S2P Require Import Prelude BiMap Network Storage Circuit Dispatch CircuitHandlers Auth.
From S2P Require Import Transport PeerConnector NodeRegistry Config.
From Stdlib Require Import Lia ZArith.

Definition ADMIN_SERVICE_ADDRESS : string := "inproc://admin-service".

(** [StartError], as far as it is used, with the panics of a start as the last constructor *)
Inductive DaemonStartError :=
  | StartTransportError (msg : string)
  | StartStorageError (e : StorageError)
  | StartRestApiError (msg : string)
  | StartThreadError (msg : string)
  | StartOrchestratorError
  | StartAdminServiceError (msg : string)
  | StartHealthServiceError (msg : string)
  | StartPanic.

(** ** The state and the listeners *)

Section state.
Context {D : Type} `{!FileSystem D, !Serde CircuitDirectory}.

(** The initial state, from the storage of the daemon *)
Definition load_state (storage_location : string) : eff D DaemonStartError SplinterState :=
  storage ← emap_err StartStorageError (get_storage storage_location Directory.new);
  mret (splinter_state_new storage_location (data storage)).
End state.

Section listeners.
Context {T C L : Type} (transport : Transport T C L).

Definition listen_on (endpoint : string) : eff T DaemonStartError L :=
  emap_err (λ _, StartTransportError "Listen Error") (listen transport endpoint).

(** The listeners for nodes, for services and for the services of the daemon itself *)
Definition daemon_listeners (network_endpoint service_endpoint : string) : eff T DaemonStartError (L * L * L) :=
  network_listener ← listen_on network_endpoint;
  service_listener ← listen_on service_endpoint;
  admin_service_listener ← listen_on ADMIN_SERVICE_ADDRESS;
  mret (network_listener, service_listener, admin_service_listener).
End listeners.

(** ** The node registry *)

(** [create_node_registry]; the one that does nothing is the unit. *)
Definition create_node_registry {D} `{!FileSystem D, !Serde (list Node)} (c : RegistryConfig) (d : D) :
    result DaemonStartError (FileInternal + ()) :=
  match c with
  | RegistryFile registry_file =>
      ok_or (StartRestApiError "Failed to initialize YamlNodeRegistry") (inl <$> yaml_registry_new registry_file d)
  | RegistryNoOp => Ok (inr ())
  end.

(** ** Accepting connections *)

Section accept.
Context {M C : Type} `{!Mesh M C}.

Abbreviation accept_eff := (eff (Network M) DaemonStartError).

(** The thread that listens for nodes, on what its listener accepts and the ids
    [Uuid::new_v4] gives: a connection that cannot be added is logged, one that does
    not speak the protocol is skipped. *)
Fixpoint accept_nodes (accepted : list (string * result AcceptError C)) : accept_eff () :=
  match accepted with
  | [] => mret ()
  | (uuid, Ok connection) :: accepted =>
      catch_log (Net.add_connection uuid connection;; mret ());; accept_nodes accepted
  | (_, Err (AcceptProtocolError _)) :: accepted => accept_nodes accepted
  | (_, Err (AcceptIoError _)) :: _ => throw (StartTransportError "Accept Error")
  end.

(** The services that connect from outside *)
Fixpoint accept_services (accepted : list (string * result AcceptError C)) : accept_eff () :=
  match accepted with
  | [] => mret ()
  | (uuid, Ok connection) :: accepted =>
      catch_log (Net.add_connection uuid connection;; mret ());; accept_services accepted
  | (_, Err _) :: _ => throw (StartTransportError "Accept Error")
  end.

(** [listen_for_services]: as many internal connections as there are ids are accepted
    first, and get the ids in that order; then the external ones.  The thread waits
    when there are no more internal connections than accepted. *)
Fixpoint listen_for_services (internal_service_peer_ids : list string) (internal : list (result AcceptError C))
    (external : list (string * result AcceptError C)) : accept_eff () :=
  match internal_service_peer_ids with
  | [] => accept_services external
  | id :: ids =>
      match internal with
      | [] => mret ()
      | Ok connection :: internal =>
          catch_log (Net.add_peer id connection);; listen_for_services ids internal external
      | Err _ :: _ => throw (StartTransportError "Accept Error")
      end
  end.

(** The ids of the services of the daemon: the orchestrator, which connects first, and
    the admin service *)
Definition internal_ids (admin_service_id : string → string) (node_id : string) : list string :=
  ["orchestator::" +:+ node_id; admin_service_id node_id].
End accept.

(** ** Connecting to peers *)

Section peers.
Context {M T C L : Type} `{!Mesh M C} (transport : Transport T C L).
Context `{!Codec NetworkMessage, !Codec AuthorizationMessage, !Codec ConnectRequest}.

Abbreviation peers_eff := (eff (Network M * T) DaemonStartError).

(** The initial peers; errors are logged. *)
Fixpoint connect_initial_peers (peers : list (string * string)) : peers_eff () :=
  match peers with
  | [] => mret ()
  | (uuid, peer) :: peers =>
      catch_log (connect_unidentified_peer transport uuid peer);; connect_initial_peers peers
  end.

(** The nodes of the circuit directory, in the order of their ids: other nodes are
    connected to at the first of their endpoints. *)
Fixpoint connect_nodes (node_id : string) (nodes : list (string * SplinterNode)) : peers_eff () :=
  match nodes with
  | [] => mret ()
  | (id, n) :: nodes =>
      (if decide (id ≠ node_id) then
         match sn_endpoints n with
         | endpoint :: _ => catch_log (connect_peer transport id endpoint)
         | [] => mret ()
         end
       else mret ());;
      connect_nodes node_id nodes
  end.
Definition connect_known_nodes (node_id : string) (s : SplinterState) : peers_eff () :=
  connect_nodes node_id (btree_entries (cd_nodes (ss_circuit_directory s))).
End peers.

(** ** The main loop *)

Section main_loop.
Context {M C W : Type} `{!Mesh M C, !Sender W (DispatchMessage NetworkMessageType), !Codec NetworkMessage}.

(** A message that cannot be parsed makes the thread panic. *)
Inductive MainLoopPanic := MessageUnwrap.

Abbreviation loop_eff := (eff (Network M * W) MainLoopPanic).

(** What is dispatched for a message of a peer *)
Definition dispatch_of (message : string * bytes) : option (DispatchMessage NetworkMessageType) :=
  msg ← parse_from_bytes message.2;
  Some (mkDispatchMessage (nm_message_type msg) (nm_payload msg) message.1).

Definition main_loop_message (message : string * bytes) : loop_eff () :=
  dispatch_msg ← lift (ok_or MessageUnwrap (dispatch_of message));
  catch_log (on_channel (send dispatch_msg)).

(** The loop, for a number of iterations, after which [running] is no longer set *)
Fixpoint main_loop (iterations : nat) : loop_eff () :=
  match iterations with
  | 0 => mret ()
  | S iterations =>
      r ← attempt (on_net Net.recv);
      match r with
      | Ok message => main_loop_message message;; main_loop iterations
      | Err (MeshRecvFailed MeshRecvDisconnected) => mret ()
      | Err _ => main_loop iterations
      end
  end.

(** *** What it dispatches *)

(** What the mesh gives in successive calls *)
Inductive mesh_yields : M → list (result MeshRecvError (nat * bytes)) → M → Prop :=
  | yields_nothing m : mesh_yields m [] m
  | yields_next m r m1 l m' : mesh_recv m = (r, m1) → mesh_yields m1 l m' → mesh_yields m (r :: l) m'.

(** What should be handed to the dispatcher for one of them: a network message that a
    peer wrote, with its type, its payload and the name under which the connection is
    known; nothing for connections that are not known, nor for a timeout. *)
Inductive comes (peers : PeerMap) :
    result MeshRecvError (nat * bytes) → list (DispatchMessage NetworkMessageType) → Prop :=
  | comes_message mesh_id peer_id ty payload b :
      Peers.get_peer_id mesh_id peers = Some peer_id →
      write_to_bytes (mkNetworkMessage ty payload) = Some b →
      comes peers (Ok (mesh_id, b)) [mkDispatchMessage ty payload peer_id]
  | comes_stranger mesh_id b : Peers.get_peer_id mesh_id peers = None → comes peers (Ok (mesh_id, b)) []
  | comes_timeout : comes peers (Err MeshRecvTimeout) [].

Definition send_all (ds : list (DispatchMessage NetworkMessageType)) (w : W) : W :=
  foldl (λ w d, (send d w).2) w ds.
Definition with_mesh (m : M) (n : Network M) : Network M := mkNetwork (net_peers n) m (net_notified n).

Lemma recv_step n r m1 :
  mesh_recv (net_mesh n) = (r, m1) →
  Net.recv n = (match r with
                | Ok (mesh_id, b) =>
                    ok_or (NoPeerRecvError mesh_id) ((λ peer_id, (peer_id, b)) <$> Peers.get_peer_id mesh_id (net_peers n))
                | Err e => Err (MeshRecvFailed e)
                end, with_mesh m1 n).
Proof.
  intros Hr. unfold Net.recv, mbind, eff_bind, Net.on_mesh. rewrite Hr. destruct r as [[mesh_id b]|e]; [|done]. cbn -[Peers.get_peer_id].
  by destruct (Peers.get_peer_id mesh_id (net_peers n)) eqn:Hp.
Qed.

Lemma main_loop_next `{!CodecLaws NetworkMessage} k n w r ds m1 :
  mesh_recv (net_mesh n) = (r, m1) → comes (net_peers n) r ds →
  main_loop (S k) (n, w) = main_loop k (with_mesh m1 n, send_all ds w).
Proof.
  intros Hr%recv_step Hc. cbn [main_loop]. unfold mbind at 1, eff_bind at 1, attempt, on_net. rewrite Hr. clear Hr.
  destruct Hc as [mesh_id peer_id ty payload b Hp Hb|mesh_id b Hp|]; [rewrite Hp|by rewrite Hp|done].
  cbn -[main_loop]. unfold main_loop_message, dispatch_of, mbind, eff_bind, lift, catch_log, on_channel. cbn -[main_loop].
  rewrite (parse_write _ _ Hb). cbn -[main_loop]. by destruct (send _ w).
Qed.

Lemma main_loop_prefix `{!CodecLaws NetworkMessage} k n w arrivals outs m' :
  mesh_yields (net_mesh n) arrivals m' → Forall2 (comes (net_peers n)) arrivals outs →
  main_loop (length arrivals + k) (n, w) = main_loop k (with_mesh m' n, send_all (concat outs) w).
Proof.
  intros Hy. remember (net_mesh n) as m eqn:Hm. revert n w outs Hm.
  induction Hy as [m|m r m1 l m' Hr _ IH]; intros n w outs -> Hc.
  { apply Forall2_nil_inv_l in Hc as ->. by destruct n. }
  apply Forall2_cons_inv_l in Hc as (ds & outs' & Hd & Hc & ->).
  cbn [length plus]. rewrite (main_loop_next _ _ _ _ _ _ Hr Hd).
  rewrite (IH (with_mesh m1 n) _ outs' eq_refl Hc). cbn. unfold send_all. by rewrite foldl_app.
Qed.

(** C27: the main loop hands every network message that a known peer wrote to the
    dispatcher, in the order in which the mesh gives them, with its type, its payload and
    the name of the peer, and nothing else: not what comes from a connection that is not
    known, and timeouts do not end it.  It ends without an error when the mesh is gone.
    But bytes of a known peer, whichever it is, that are no network message make the
    thread panic: what came before was handed over, and the node receives nothing any
    more. *)
Theorem main_loop_dispatches `{!CodecLaws NetworkMessage} n (w : W) arrivals outs m' :
  mesh_yields (net_mesh n) arrivals m' → Forall2 (comes (net_peers n)) arrivals outs →
  let w' := send_all (concat outs) w in
  main_loop (length arrivals) (n, w) = (Ok (), (with_mesh m' n, w')) ∧
  (∀ k m'', mesh_recv m' = (Err MeshRecvDisconnected, m'') →
     main_loop (length arrivals + S k) (n, w) = (Ok (), (with_mesh m'' n, w'))) ∧
  (∀ k mesh_id peer_id b m'', mesh_recv m' = (Ok (mesh_id, b), m'') →
     Peers.get_peer_id mesh_id (net_peers n) = Some peer_id → parse_from_bytes (M:=NetworkMessage) b = None →
     main_loop (length arrivals + S k) (n, w) = (Err MessageUnwrap, (with_mesh m'' n, w'))).
Proof.
  intros Hy Hc w'. split_and!.
  - rewrite <- (Nat.add_0_r (length arrivals)). by rewrite (main_loop_prefix _ _ _ _ _ _ Hy Hc).
  - intros k m'' Hr. rewrite (main_loop_prefix _ _ _ _ _ _ Hy Hc). cbn [main_loop].
    unfold mbind, eff_bind, attempt, on_net. by rewrite (recv_step (with_mesh m' n) _ _ Hr).
  - intros k mesh_id peer_id b m'' Hr Hp Hb. rewrite (main_loop_prefix _ _ _ _ _ _ Hy Hc). cbn [main_loop].
    unfold mbind at 1, eff_bind at 1, attempt, on_net. rewrite (recv_step (with_mesh m' n) _ _ Hr). cbn -[main_loop].
    rewrite Hp. cbn -[main_loop]. unfold main_loop_message, dispatch_of, mbind, eff_bind, lift. cbn -[main_loop].
    by rewrite Hb.
Qed.
End main_loop.

(** A mesh that gives what it was made with, and network messages of one kind *)
Module MainLoopMock.
#[export] Instance script_mesh : Mesh (list (result MeshRecvError (nat * bytes))) string := {|
  remote_endpoint c := c;
  mesh_add _ := mret 0;
  mesh_remove _ := mret ();
  mesh_send _ _ := mret ();
  mesh_recv l := match l with r :: l => (r, l) | [] => (Err MeshRecvDisconnected, []) end;
|}.
#[export] Instance circuit_messages : Codec NetworkMessage := {|
  parse_from_bytes b := match b with String "C" b => Some (mkNetworkMessage CIRCUIT b) | _ => None end;
  write_to_bytes m := match nm_message_type m with CIRCUIT => Some (String "C" (nm_payload m)) | _ => None end;
|}.
#[export] Instance circuit_messages_laws : CodecLaws NetworkMessage.
Proof. intros [[] payload] b; try done. by intros [= <-]. Qed.
#[export] Instance dispatched : Sender (list (DispatchMessage NetworkMessageType)) (DispatchMessage NetworkMessageType) :=
  λ d w, (Ok (), w ++ [d]).
Definition two_peers : PeerMap := Peers.insert "b" 2 "tcp:b" (Peers.insert "a" 1 "tcp:a" Peers.new).
Definition script : list (result MeshRecvError (nat * bytes)) :=
  [Ok (2, "Cx"); Err MeshRecvTimeout; Ok (7, "Cz"); Ok (1, "Cy")].

(** The second peer sends what is no network message. *)
Lemma main_loop_dispatches_witness :
  main_loop 9 (mkNetwork two_peers (script ++ [Ok (1, "?"); Ok (2, "Cx")]) [], []) =
    (Err MessageUnwrap, (mkNetwork two_peers [Ok (2, "Cx")] [],
      [mkDispatchMessage CIRCUIT "x" "b"; mkDispatchMessage CIRCUIT "y" "a"])).
Proof.
  destruct (main_loop_dispatches (mkNetwork two_peers (script ++ [Ok (1, "?"); Ok (2, "Cx")]) []) [] script
    [[mkDispatchMessage CIRCUIT "x" "b"]; []; []; [mkDispatchMessage CIRCUIT "y" "a"]]
    [Ok (1, "?"); Ok (2, "Cx")]) as (_ & _ & Hpanic).
  - do 4 (eapply yields_next; [reflexivity|]). apply yields_nothing.
  - repeat constructor.
  - apply (Hpanic 4 1 "a" "?"); reflexivity.
Defined.
End MainLoopMock.
