(* ===== verification/FileTree.v ===== *)
(** * Files and directories

    What the command line and the daemon use of [std::fs], [std::path] and of the
    system: a tree of directories and files with their attributes.  A call may fail
    for reasons outside of the tree, and a write may be cut short: the outcomes of
    the coming calls are part of the state, and theorems hold for all of them. *)

From stdpp Require Import gmap.
From Stdlib Require Import ZArith Lia.
From S2P Require Import Prelude Framing.

(** ** Paths *)

(** [Path::components]: the root, and the names between slashes. *)
Definition components (p : string) : list string :=
  (if starts_with "/" p then ["/"] else []) ++
  base.filter (λ c, c ≠ "" ∧ c ≠ ".") (split_on "/" p).

(** [Path::join] *)
Definition join (dir file : string) : string :=
  if starts_with "/" file then file else path_join dir file.

(** The text up to the last [sep], and the text after it *)
Fixpoint rsplit (sep : ascii) (s : string) : option (string * string) :=
  match s with
  | "" => None
  | String c s =>
      match rsplit sep s with
      | Some (a, b) => Some (String c a, b)
      | None => if bool_decide (c = sep) then Some ("", s) else None
      end
  end.

(** [Path::file_stem] of a file name: a dot at its start does not count. *)
Definition file_stem (name : string) : string :=
  if bool_decide (name = "..") then name else
  match rsplit "." name with
  | Some ("", _) | None => name
  | Some (stem, _) => stem
  end.

(** [Path::with_extension], of a path that ends with a file name *)
Definition with_extension (p ext : string) : string :=
  match rsplit "/" p with
  | Some (dir, name) => dir +:+ "/" +:+ file_stem name +:+ "." +:+ ext
  | None => file_stem p +:+ "." +:+ ext
  end.

(** *** Facts about paths *)

Definition no_sep (sep : ascii) (s : string) : Prop := ∀ n, String.get n s ≠ Some sep.

Lemma no_sep_nil sep : no_sep sep "".
Proof. by intros []. Qed.
Lemma no_sep_cons sep c s : no_sep sep (String c s) ↔ c ≠ sep ∧ no_sep sep s.
Proof.
  split.
  - intros H. split; [intros ->; by apply (H 0)|]. intros n. apply (H (S n)).
  - intros [Hc Hs] [|n]; cbn; [congruence|apply Hs].
Qed.
Lemma no_sep_app sep s t : no_sep sep (s +:+ t) ↔ no_sep sep s ∧ no_sep sep t.
Proof.
  induction s as [|c s IH]; rewrite ?str_app_nil, ?str_app_cons; [by pose proof (no_sep_nil sep); tauto|].
  rewrite !no_sep_cons, IH. tauto.
Qed.

Lemma split_on_nonempty sep s : split_on sep s ≠ [].
Proof. destruct s; cbn; [done|]. case_bool_decide; [done|]. by case_match. Qed.
Lemma split_on_join sep s t : split_on sep (s +:+ String sep t) = split_on sep s ++ split_on sep t.
Proof.
  induction s as [|c s IH]; rewrite ?str_app_nil, ?str_app_cons; cbn.
  - by rewrite bool_decide_eq_true_2.
  - rewrite IH. case_bool_decide; [done|].
    pose proof (split_on_nonempty sep s). by destruct (split_on sep s).
Qed.

Lemma rsplit_None sep s : rsplit sep s = None → no_sep sep s.
Proof.
  induction s as [|c s IH]; cbn; [intros _; apply no_sep_nil|].
  destruct (rsplit sep s) as [[]|]; [done|]. case_bool_decide; [done|]. intros _. apply no_sep_cons. auto.
Qed.
Lemma rsplit_Some sep s a b : rsplit sep s = Some (a, b) → s = a +:+ String sep b ∧ no_sep sep b.
Proof.
  revert a b.
  induction s as [|c s IH]; cbn; [done|]. intros a b.
  destruct (rsplit sep s) as [[a' b']|] eqn:E.
  - intros [= <- <-]. destruct (IH a' b' eq_refl) as [-> Hb]. by rewrite str_app_cons.
  - case_bool_decide as Hc; [|done]. intros [= <- <-]. subst. split; [done|]. by apply rsplit_None.
Qed.

Lemma file_stem_no_sep name : no_sep "/" name → no_sep "/" (file_stem name).
Proof.
  unfold file_stem. case_bool_decide; [done|]. destruct (rsplit "." name) as [[[|c a] b]|] eqn:E; [done| |done].
  apply rsplit_Some in E as [-> _]. intros Hs. by apply no_sep_app in Hs as [Hs _].
Qed.

Lemma starts_with_slash dir s : starts_with "/" (dir +:+ String "/" s) = starts_with "/" (dir +:+ "/").
Proof.
  unfold starts_with. destruct dir as [|c dir]; [by destruct s|]. rewrite !str_app_cons. cbn.
  case_match; [|done]. by destruct dir.
Qed.

(** A path with a file name at its end *)
Lemma components_file dir name :
  no_sep "/" name → name ≠ "" → name ≠ "." →
  components (dir +:+ "/" +:+ name) = components (dir +:+ "/") ++ [name].
Proof.
  intros Hs H1 H2. unfold components. rewrite <- app_assoc.
  change ("/" +:+ name) with (String "/" name). change (dir +:+ "/") with (dir +:+ String "/" "").
  f_equal; [by rewrite !starts_with_slash|].
  rewrite !split_on_join, (split_on_no_sep "/" name) by done. rewrite !filter_app. cbn [split_on].
  rewrite !filter_cons, !filter_nil. rewrite decide_True by done. rewrite decide_False by naive_solver.
  by rewrite app_nil_r.
Qed.
Lemma components_name name : no_sep "/" name → name ≠ "" → name ≠ "." → components name = [name].
Proof.
  intros Hs H1 H2. unfold components. rewrite split_on_no_sep by done. rewrite filter_cons, filter_nil.
  rewrite decide_True by done. destruct name as [|c name]; [done|].
  apply no_sep_cons in Hs as [Hc _]. unfold starts_with. cbn [String.prefix]. destruct (ascii_dec _ _); [congruence|done].
Qed.

(** A slash at the end does not count. *)
Lemma components_slash dir : dir ≠ "" → components (dir +:+ "/") = components dir.
Proof.
  intros Hd. unfold components. change (dir +:+ "/") with (dir +:+ String "/" "").
  rewrite split_on_join, filter_app. cbn [split_on]. rewrite filter_cons, filter_nil, decide_False by naive_solver.
  rewrite app_nil_r. f_equal. destruct dir as [|c dir]; [done|]. unfold starts_with. rewrite str_app_cons.
  cbn [String.prefix]. by destruct (ascii_dec _ _); [destruct dir|].
Qed.

Lemma last_char_slash dir :
  String.get (String.length dir - 1) dir = Some "/"%char → ∃ dir', dir = dir' +:+ "/".
Proof.
  induction dir as [|c dir IH]; [done|]. destruct dir as [|c' dir].
  - intros [= ->]. by exists "".
  - intros H. destruct IH as [dir' ->]; [|by exists (String c dir')].
    rewrite <- H. cbn [String.length]. by rewrite !Nat.sub_succ, Nat.sub_0_r.
Qed.

(** The place of a file in a directory *)
Lemma components_join dir name :
  no_sep "/" name → name ≠ "" → name ≠ "." → components (join dir name) = components dir ++ [name].
Proof.
  intros Hs H1 H2. unfold join.
  destruct (starts_with "/" name) eqn:Hn.
  { destruct name as [|c name]; [done|]. apply no_sep_cons in Hs as [Hc _]. unfold starts_with in Hn.
    cbn [String.prefix] in Hn. by destruct (ascii_dec _ _). }
  unfold path_join. destruct (decide (dir = "")) as [->|Hd]; [by rewrite components_name|].
  rewrite bool_decide_eq_false_2 by done. cbn [orb]. case_bool_decide as Hl.
  - apply last_char_slash in Hl as [dir' ->]. by rewrite str_app_assoc, components_file.
  - by rewrite components_file, components_slash.
Qed.
(** The same for a name with a slash at its end *)
Lemma components_join_slash dir name :
  no_sep "/" name → name ≠ "" → name ≠ "." → components (join dir (name +:+ "/")) = components dir ++ [name].
Proof.
  intros Hs H1 H2. rewrite <- components_join by done.
  rewrite <- (components_slash (join dir name)).
  - f_equal. unfold join, path_join. destruct name as [|c name]; [done|]. rewrite str_app_cons.
    unfold starts_with. cbn [String.prefix].
    apply no_sep_cons in Hs as [Hc _]. destruct (ascii_dec _ _); [congruence|].
    case_match; by rewrite ?str_app_assoc, ?str_app_cons.
  - unfold join, path_join. case_match; [done|]. destruct dir, name; case_match; done.
Qed.

(** A path of two names below a directory *)
Lemma components_below dir a b :
  no_sep "/" a → a ≠ "" → a ≠ "." → no_sep "/" b → b ≠ "" → b ≠ "." →
  components (path_join dir (a +:+ "/" +:+ b)) = components dir ++ [a; b].
Proof.
  intros Ha1 Ha2 Ha3 Hb1 Hb2 Hb3.
  assert (path_join dir (a +:+ "/" +:+ b) = path_join dir a +:+ "/" +:+ b) as ->.
  { unfold path_join. case_match; by rewrite ?str_app_assoc. }
  assert (components (path_join dir a) = components dir ++ [a]) as Ha.
  { rewrite <- components_join by done. unfold join. destruct (starts_with "/" a) eqn:Hs; [|done].
    destruct a as [|c a]; [done|]. apply no_sep_cons in Ha1 as [Hc _]. unfold starts_with in Hs.
    cbn [String.prefix] in Hs. by destruct (ascii_dec _ _). }
  rewrite components_file by done. rewrite components_slash.
  - rewrite Ha, <- app_assoc. done.
  - unfold path_join. case_match; destruct dir, a; done.
Qed.

Lemma dotted_name stem ext : no_sep "/" ext → ext ≠ "" → no_sep "/" stem →
  no_sep "/" (stem +:+ "." +:+ ext) ∧ stem +:+ "." +:+ ext ≠ "" ∧ stem +:+ "." +:+ ext ≠ ".".
Proof.
  intros He Hn Hs. split_and!.
  - apply no_sep_app. split; [done|]. change ("." +:+ ext) with (String "." ext). by apply no_sep_cons.
  - by destruct stem.
  - destruct stem as [|c stem]; [by destruct ext|].
    rewrite str_app_cons. intros [= _ H]. by destruct stem.
Qed.

Lemma str_app_inj_l s t t' : s +:+ t = s +:+ t' → t = t'.
Proof. induction s as [|c s IH]; rewrite ?str_app_nil, ?str_app_cons; [done|]. intros [= Heq]. auto. Qed.

(** Other extensions make other files. *)
Lemma with_extension_inj p ext ext' :
  no_sep "/" ext → no_sep "/" ext' → ext ≠ "" → ext' ≠ "" →
  components (with_extension p ext) = components (with_extension p ext') → ext = ext'.
Proof.
  intros H1 H2 Hn1 Hn2. unfold with_extension.
  destruct (rsplit "/" p) as [[dir name]|] eqn:E.
  - apply rsplit_Some in E as [_ Hs]. apply file_stem_no_sep in Hs.
    destruct (dotted_name _ _ H1 Hn1 Hs) as (?&?&?), (dotted_name _ _ H2 Hn2 Hs) as (?&?&?).
    rewrite !components_file by done. intros [_ [= Heq]]%app_inj_2; [|done].
    by apply str_app_inj_l, (str_app_inj_l ".") in Heq.
  - apply rsplit_None in E. apply file_stem_no_sep in E.
    destruct (dotted_name _ _ H1 Hn1 E) as (?&?&?), (dotted_name _ _ H2 Hn2 E) as (?&?&?).
    rewrite !components_name by done. intros [= Heq]. by apply str_app_inj_l, (str_app_inj_l ".") in Heq.
Qed.

(** ** The tree *)

Record attrs := mkAttrs { a_mode : Z; a_uid : Z; a_gid : Z }.
Inductive node := Dir (a : attrs) | File (a : attrs) (content : bytes).

(** What a call comes to: [Fails] is an error of the system, [Takes] a write of at
    most so many bytes. *)
Inductive outcome := Works | Fails (err : string) | Takes (n : nat).

Record Fs := mkFs {
  fs_nodes : gmap (list string) node;
  fs_outcomes : list outcome;
  fs_umask : Z;
  fs_user : Z;
  fs_group : Z;
}.
Definition set_nodes (nodes : gmap (list string) node) (d : Fs) : Fs :=
  mkFs nodes (fs_outcomes d) (fs_umask d) (fs_user d) (fs_group d).
Definition set_outcomes (o : list outcome) (d : Fs) : Fs :=
  mkFs (fs_nodes d) o (fs_umask d) (fs_user d) (fs_group d).

Definition at_path (p : string) (d : Fs) : option node := fs_nodes d !! components p.
Definition path_exists (p : string) (d : Fs) : bool := bool_decide (is_Some (at_path p d)).
Definition is_dir (p : string) (d : Fs) : bool :=
  match at_path p d with Some (Dir _) => true | _ => false end.
Definition is_file (p : string) (d : Fs) : bool :=
  match at_path p d with Some (File _ _) => true | _ => false end.

Definition node_attrs (n : node) : attrs := match n with Dir a | File a _ => a end.
Definition set_attrs (a : attrs) (n : node) : node :=
  match n with Dir _ => Dir a | File _ c => File a c end.
(** [Permissions::readonly] *)
Definition readonly (a : attrs) : bool := (Z.land (a_mode a) 146 =? 0)%Z.

(** The attributes of a new file or directory. *)
Definition new_attrs (mode : Z) (d : Fs) : attrs :=
  mkAttrs (Z.ldiff mode (fs_umask d)) (fs_user d) (fs_group d).

(** ** Calls *)

(** A call that the system lets through. *)
Definition io {A} (m : eff Fs string A) : eff Fs string A := λ d,
  match fs_outcomes d with
  | [] => m d
  | Fails err :: o => (Err err, set_outcomes o d)
  | _ :: o => m (set_outcomes o d)
  end.

Definition metadata (p : string) : eff Fs string attrs := io (λ d,
  (ok_or "No such file or directory" (node_attrs <$> at_path p d), d)).

(** The path itself stands for the text of [fs::canonicalize]. *)
Definition canonicalize (p : string) : eff Fs string string := io (λ d,
  (if path_exists p d then Ok p else Err "No such file or directory", d)).

Definition open_read (p : string) : eff Fs string () := io (λ d,
  (if path_exists p d then Ok () else Err "No such file or directory", d)).

Definition read (p : string) : eff Fs string bytes := io (λ d,
  (match at_path p d with
   | Some (File _ c) => Ok c
   | Some (Dir _) => Err "Is a directory"
   | None => Err "No such file or directory"
   end, d)).

(** [create_dir_all]: the directories of the path, from the root on. *)
Fixpoint make_dirs (a : attrs) (above rest : list string) (nodes : gmap (list string) node) :
    result string (gmap (list string) node) :=
  match rest with
  | [] => Ok nodes
  | c :: rest =>
      let here := above ++ [c] in
      match nodes !! here with
      | Some (Dir _) => make_dirs a here rest nodes
      | Some (File _ _) => Err "Not a directory"
      | None => make_dirs a here rest (<[here := Dir a]> nodes)
      end
  end.
Definition create_dir_all (p : string) : eff Fs string () := io (λ d,
  match make_dirs (new_attrs 511 d) [] (components p) (fs_nodes d) with
  | Ok nodes => (Ok (), set_nodes nodes d)
  | Err err => (Err err, d)
  end).

Definition in_dir (k : list string) (d : Fs) : bool :=
  match fs_nodes d !! removelast k with Some (Dir _) => true | _ => false end.

(** [OpenOptions::new().write(true).create(true)], with [truncate] and the mode of a
    new file; the file is known by its place in the tree. *)
Definition open_write (truncate : bool) (mode : Z) (p : string) : eff Fs string (list string) := io (λ d,
  let k := components p in
  match fs_nodes d !! k with
  | Some (Dir _) => (Err "Is a directory", d)
  | Some (File a c) =>
      (Ok k, if truncate then set_nodes (<[k := File a ""]> (fs_nodes d)) d else d)
  | None =>
      if in_dir k d then (Ok k, set_nodes (<[k := File (new_attrs mode d) ""]> (fs_nodes d)) d)
      else (Err "No such file or directory", d)
  end).

(** Bytes that are written at a position take the place of those there. *)
Definition overwrite (pos : nat) (b c : bytes) : bytes :=
  str_take pos c +:+ b +:+ str_drop (pos + String.length b) c.
Definition put (k : list string) (pos : nat) (b : bytes) (d : Fs) : Fs :=
  match fs_nodes d !! k with
  | Some (File a c) => set_nodes (<[k := File a (overwrite pos b c)]> (fs_nodes d)) d
  | _ => d
  end.

(** [Write::write]: the number of bytes that were written. *)
Definition write (k : list string) (pos : nat) (b : bytes) : eff Fs string nat := λ d,
  match fs_outcomes d with
  | [] => (Ok (String.length b), put k pos b d)
  | Works :: o => (Ok (String.length b), put k pos b (set_outcomes o d))
  | Fails err :: o => (Err err, set_outcomes o d)
  | Takes n :: o =>
      (Ok (n `min` String.length b), put k pos (str_take n b) (set_outcomes o d))
  end.

(** [Write::write_all], with as many calls of [write] as there are bytes. *)
Fixpoint write_calls (fuel : nat) (k : list string) (pos : nat) (b : bytes) : eff Fs string () :=
  match fuel with
  | O => mret ()
  | S fuel =>
      if bool_decide (b = "") then mret () else
      n ← write k pos b;
      if bool_decide (n = 0) then throw "failed to write whole buffer"
      else write_calls fuel k (pos + n) (str_drop n b)
  end.
Definition write_all (k : list string) (b : bytes) : eff Fs string () :=
  write_calls (String.length b) k 0 b.

Definition rename (p q : string) : eff Fs string () := io (λ d,
  match at_path p d, at_path q d with
  | Some (File a c), Some (Dir _) => (Err "Is a directory", d)
  | Some n, _ =>
      if in_dir (components q) d then
        (Ok (), set_nodes (<[components q := n]> (delete (components p) (fs_nodes d))) d)
      else (Err "No such file or directory", d)
  | None, _ => (Err "No such file or directory", d)
  end).

Definition remove_file (p : string) : eff Fs string () := io (λ d,
  match at_path p d with
  | Some (File _ _) => (Ok (), set_nodes (delete (components p) (fs_nodes d)) d)
  | Some (Dir _) => (Err "Is a directory", d)
  | None => (Err "No such file or directory", d)
  end).

(** [libc::chown], which gives a code *)
Definition chown_call (p : string) (uid gid : Z) : eff Fs string () := io (λ d,
  match at_path p d with
  | Some n =>
      (Ok (), set_nodes (<[components p := set_attrs (mkAttrs (a_mode (node_attrs n)) uid gid) n]>
                           (fs_nodes d)) d)
  | None => (Err "No such file or directory", d)
  end).
Definition libc_chown (p : string) (uid gid : Z) (d : Fs) : Z * Fs :=
  match chown_call p uid gid d with
  | (Ok _, d') => (0%Z, d')
  | (Err _, d') => ((-1)%Z, d')
  end.

(** ** What calls leave as it is *)

(** The trees differ at most at the places [ks]; calls use up outcomes. *)
Definition differ_at (ks : list (list string)) (d d' : Fs) : Prop :=
  (∀ k, k ∉ ks → fs_nodes d' !! k = fs_nodes d !! k) ∧
  fs_outcomes d' `suffix_of` fs_outcomes d ∧
  fs_umask d' = fs_umask d ∧ fs_user d' = fs_user d ∧ fs_group d' = fs_group d.

#[global] Instance differ_at_refl ks : Reflexive (differ_at ks).
Proof. by intros d. Qed.
#[global] Instance differ_at_trans ks : Transitive (differ_at ks).
Proof.
  intros d1 d2 d3 (Ha & ? & ? & ? & ?) (Hb & ? & ? & ? & ?).
  split; [|split; [by etrans|split_and!; congruence]]. intros k Hk. by rewrite Hb, Ha.
Qed.
Lemma differ_at_mono ks ks' d d' : ks ⊆ ks' → differ_at ks d d' → differ_at ks' d d'.
Proof. intros Hs [H ?]. split; [|done]. intros k Hk. apply H. set_solver. Qed.
Lemma differ_at_lookup ks d d' k : differ_at ks d d' → k ∉ ks → fs_nodes d' !! k = fs_nodes d !! k.
Proof. intros [H _]. apply H. Qed.
Lemma differ_at_outcomes ks o d : o `suffix_of` fs_outcomes d → differ_at ks d (set_outcomes o d).
Proof. by split. Qed.
Lemma differ_at_insert ks k n d : k ∈ ks → differ_at ks d (set_nodes (<[k := n]> (fs_nodes d)) d).
Proof. intros Hk. split; [|done]. intros k' Hk'. cbn. by rewrite lookup_insert_ne by set_solver. Qed.
Lemma differ_at_set_nodes ks nodes d :
  (∀ k, k ∉ ks → nodes !! k = fs_nodes d !! k) → differ_at ks d (set_nodes nodes d).
Proof. by split. Qed.

(** A call of the system: it fails with nothing done, or it is made. *)
Lemma wp_io {A} (m : eff Fs string A) Q d :
  (∀ o err, o `suffix_of` fs_outcomes d → Q (Err err) (set_outcomes o d)) →
  (∀ o, o `suffix_of` fs_outcomes d → wp m Q (set_outcomes o d)) → wp (io m) Q d.
Proof.
  intros Hf Hm. unfold wp, io in *. pose proof (Hm (fs_outcomes d) ltac:(done)) as H0.
  destruct d as [ns [|x o] um us gr]; cbn in *; [done|].
  assert (o `suffix_of` x :: o) by by apply suffix_cons_r.
  destruct x; [by apply Hm|by apply Hf|by apply Hm].
Qed.

(** A call that only looks. *)
Lemma wp_look {A} (f : Fs → result string A) Q d :
  (∀ d' r, differ_at [] d d' → Q r d') → wp (io (λ d, (f d, d))) Q d.
Proof. intros H. apply wp_io; intros o; [intros err|]; intros Ho; apply H; by apply differ_at_outcomes. Qed.

(** A file is read. *)
Lemma wp_read p Q d :
  (∀ d' r, differ_at [] d d' → match r with Ok b => ∃ a, at_path p d = Some (File a b) | Err _ => True end →
    Q r d') →
  wp (read p) Q d.
Proof.
  intros H. unfold read. apply wp_io; intros o; [intros err|]; intros Ho;
    (apply H; [by apply differ_at_outcomes|]); [done|].
  change (at_path p (set_outcomes o d)) with (at_path p d). destruct (at_path p d) as [[|]|]; try done. by eexists.
Qed.

(** The system takes every write as a whole. *)
Definition whole (d : Fs) : Prop := Forall (λ o, match o with Takes _ => False | _ => True end) (fs_outcomes d).
Lemma whole_differ ks d d' : differ_at ks d d' → whole d → whole d'.
Proof. intros (_ & [l Hl] & _). unfold whole. rewrite Hl, Forall_app. by intros [_ ?]. Qed.

(** A new file is opened. *)
Lemma wp_open_new truncate mode p Q d :
  at_path p d = None →
  (∀ d' err, differ_at [] d d' → Q (Err err) d') →
  (∀ d', differ_at [components p] d d' →
     fs_nodes d' !! components p = Some (File (new_attrs mode d) "") → Q (Ok (components p)) d') →
  wp (open_write truncate mode p) Q d.
Proof.
  unfold at_path. intros Hp He Hok. unfold open_write. apply wp_io.
  { intros o err Ho. apply He. by apply differ_at_outcomes. }
  intros o Ho. unfold wp. cbn. rewrite Hp. destruct (in_dir _ _).
  - apply Hok; cbn; [|by rewrite lookup_insert_eq].
    etrans; [by apply differ_at_outcomes|]. apply (differ_at_insert _ _ _ (set_outcomes o d)). set_solver.
  - apply He. by apply differ_at_outcomes.
Qed.

Lemma overwrite_app b b' : overwrite (String.length b) b' b = b +:+ b'.
Proof.
  unfold overwrite. rewrite <- (str_app_nil_r b) at 2. rewrite str_take_app.
  enough (str_drop (String.length b + String.length b') b = "") as -> by by rewrite str_app_nil_r.
  assert (∀ n s, String.length s ≤ n → str_drop n s = "") as Hd; [|apply Hd; lia].
  clear. induction n as [|n IH]; intros [|c s] Hl; cbn in *; [done|lia|done|apply IH; lia].
Qed.

(** A write at the end of a file. *)
Lemma wp_write k a b0 b Q d :
  fs_nodes d !! k = Some (File a b0) →
  (∀ d' err, differ_at [] d d' → Q (Err err) d') →
  (∀ d' n, n ≤ String.length b → (whole d → n = String.length b) → differ_at [k] d d' →
     fs_nodes d' !! k = Some (File a (b0 +:+ str_take n b)) → Q (Ok n) d') →
  wp (write k (String.length b0) b) Q d.
Proof.
  intros Hk He Hok. unfold wp, write.
  assert (Hput : ∀ o n, o `suffix_of` fs_outcomes d →
    let d' := put k (String.length b0) (str_take n b) (set_outcomes o d) in differ_at [k] d d' ∧ fs_nodes d' !! k = Some (File a (b0 +:+ str_take n b))).
  { intros o n Ho. unfold put. cbn. rewrite Hk, overwrite_app. cbn. rewrite lookup_insert_eq. split; [|done].
    etrans; [by apply differ_at_outcomes|]. apply (differ_at_insert [k] k _ (set_outcomes o d)). set_solver. }
  pose proof (λ o, Hput o (String.length b)) as Hfull. rewrite str_take_ge in Hfull by done.
  destruct (fs_outcomes d) as [|x o] eqn:Ho.
  { destruct (Hfull [] ltac:(done)) as [H1 H2].
    replace (set_outcomes [] d) with d in * by (destruct d; cbn in *; by subst).
    apply Hok; [lia|done..|by rewrite str_take_ge]. }
  assert (Hs : o `suffix_of` x :: o) by by apply suffix_cons_r. destruct x as [|err|n].
  - destruct (Hfull o Hs) as [H1 H2]. apply Hok; [lia|done..|by rewrite str_take_ge].
  - apply He. apply differ_at_outcomes. by rewrite Ho.
  - destruct (Hput o n Hs) as [H1 H2]. apply Hok; [lia| |done|].
    { unfold whole. rewrite Ho. by inversion_clear 1. }
    rewrite H2. do 3 f_equal. destruct (decide (n ≤ String.length b)); [by rewrite Nat.min_l|].
    rewrite Nat.min_r, !str_take_ge by lia. done.
Qed.

Lemma str_drop_length n s : String.length (str_drop n s) = String.length s - n.
Proof. revert s. induction n as [|n IH]; intros [|c s]; cbn; try lia. apply IH. Qed.

Lemma wp_write_calls fuel k a b0 b Q d :
  String.length b ≤ fuel → fs_nodes d !! k = Some (File a b0) →
  (∀ d' err, differ_at [k] d d' → Q (Err err) d') →
  (∀ d', differ_at [k] d d' → fs_nodes d' !! k = Some (File a (b0 +:+ b)) → Q (Ok ()) d') →
  wp (write_calls fuel k (String.length b0) b) Q d.
Proof.
  revert b0 b d. induction fuel as [|fuel IH]; intros b0 b d Hf Hk He Hok; cbn [write_calls].
  { destruct b; cbn in Hf; [|lia]. apply wp_ret, Hok; [done|]. by rewrite str_app_nil_r. }
  case_bool_decide as Hb; [subst; apply wp_ret, Hok; [done|by rewrite str_app_nil_r]|].
  wp_go. eapply wp_write; [done|..].
  { intros d' err Hd. apply He. apply (differ_at_mono []); [set_solver|done]. }
  intros d' n Hn _ Hd Hk'. case_bool_decide as H0; [apply wp_throw; by apply He|].
  replace (String.length b0 + n) with (String.length (b0 +:+ str_take n b)).
  2: { rewrite str_length_app, str_length_take. lia. }
  apply IH; [rewrite str_drop_length; lia|done|..].
  - intros d2 err Hd2. apply He. by etrans.
  - intros d2 Hd2 Hk2. apply Hok; [by etrans|]. by rewrite Hk2, str_app_assoc, str_take_drop.
Qed.

(** The bytes are appended to an empty file, or the call fails. *)
Lemma wp_write_all k a b Q d :
  fs_nodes d !! k = Some (File a "") →
  (∀ d' err, differ_at [k] d d' → Q (Err err) d') →
  (∀ d', differ_at [k] d d' → fs_nodes d' !! k = Some (File a b) → Q (Ok ()) d') →
  wp (write_all k b) Q d.
Proof. intros Hk He Hok. by apply (wp_write_calls _ k a ""). Qed.

(** Only the attributes of an existing file change. *)
Lemma wp_chown_call p uid gid Q d :
  (∀ d' err, differ_at [] d d' → Q (Err err) d') →
  (∀ d' n, at_path p d = Some n → differ_at [components p] d d' →
     at_path p d' = Some (set_attrs (mkAttrs (a_mode (node_attrs n)) uid gid) n) → Q (Ok ()) d') →
  wp (chown_call p uid gid) Q d.
Proof.
  intros He Hok. apply wp_io; intros o; [intros err|]; intros Ho; [by apply He, differ_at_outcomes|].
  unfold wp, at_path in *. cbn. destruct (fs_nodes d !! components p) as [n|] eqn:Hn.
  - eapply Hok; [done| |by cbn; rewrite lookup_insert_eq]. etrans; [by apply differ_at_outcomes|].
    apply (differ_at_insert _ _ _ (set_outcomes o d)). set_solver.
  - by apply He, differ_at_outcomes.
Qed.

(** A file is opened and emptied, or made. *)
Lemma wp_open_truncate mode p Q d :
  (∀ d' err, differ_at [] d d' → Q (Err err) d') →
  (∀ d' a, differ_at [components p] d d' → (at_path p d = None → a = new_attrs mode d) →
     fs_nodes d' !! components p = Some (File a "") → Q (Ok (components p)) d') →
  wp (open_write true mode p) Q d.
Proof.
  unfold at_path. intros He Hok. apply wp_io.
  { intros o err Ho. apply He. by apply differ_at_outcomes. }
  intros o Ho. unfold wp. cbn.
  assert (Hd : ∀ n, differ_at [components p] d
    (set_nodes (<[components p := n]> (fs_nodes (set_outcomes o d))) (set_outcomes o d))).
  { intros n. etrans; [by apply differ_at_outcomes|].
    apply (differ_at_insert _ _ _ (set_outcomes o d)). set_solver. }
  destruct (fs_nodes d !! components p) as [[a|a c]|] eqn:Hp.
  - by apply He, differ_at_outcomes.
  - apply (Hok _ a); [apply Hd|done|by cbn; rewrite lookup_insert_eq].
  - destruct (in_dir _ _); [|by apply He, differ_at_outcomes].
    apply (Hok _ (new_attrs mode d)); [apply Hd|done|by cbn; rewrite lookup_insert_eq].
Qed.

(** A file changes its place. *)
Lemma wp_rename p q n Q d :
  at_path p d = Some n → components p ≠ components q →
  (∀ d' err, differ_at [] d d' → Q (Err err) d') →
  (∀ d', differ_at [components p; components q] d d' → at_path q d' = Some n → Q (Ok ()) d') →
  wp (rename p q) Q d.
Proof.
  unfold at_path. intros Hp Hne He Hok. apply wp_io.
  { intros o err Ho. apply He. by apply differ_at_outcomes. }
  intros o Ho. unfold wp, at_path. cbn [fs_nodes set_outcomes]. rewrite Hp.
  assert (Hmove : Q (Ok ()) (set_nodes (<[components q := n]> (delete (components p) (fs_nodes (set_outcomes o d))))
    (set_outcomes o d))).
  { apply Hok; [|by cbn; rewrite lookup_insert_eq]. etrans; [by apply differ_at_outcomes|].
    apply differ_at_set_nodes. intros k Hk. rewrite lookup_insert_ne, lookup_delete_ne by set_solver. done. }
  destruct n as [a|a c]; [|destruct (fs_nodes d !! components q) as [[]|]; [by apply He, differ_at_outcomes|..]];
    (destruct (in_dir _ _); [exact Hmove|by apply He, differ_at_outcomes]).
Qed.
