(* ===== verification/Cli.v ===== *)
(** * The command line

    Models [cli/src/action/mod.rs] and [cli/src/action/admin.rs]: the choice of an
    action by the names of subcommands, and the actions that make keys and a
    registry of keys.  The arguments are those that [clap] found; the library that
    makes keys is an interface.  In messages, [{:?}] of a path is written as its text. *)

From stdpp Require Import gmap pretty.
From Stdlib Require Import ZArith.
From S2P Require Import Prelude Framing Storage Hex Keys FileTree.

Inductive CliError :=
  | RequiresArgs
  | InvalidSubcommand
  | ActionError (msg : string)
  | EnvironmentError (msg : string).

(** [Display for CliError] *)
Definition cli_error_display (e : CliError) : string :=
  match e with
  | RequiresArgs => "action requires arguments"
  | InvalidSubcommand => "received invalid subcommand"
  | ActionError msg => "action encountered an error: " +:+ msg
  | EnvironmentError msg => "action encountered an environment error: " +:+ msg
  end.

(** What [clap] found: the values of options, the flags, and the subcommand with its
    own arguments. *)
#[warnings="-register-all"] Inductive ArgMatches := mkArgMatches
  (values : gmap string string) (present : gset string) (subcommand : string) (sub_args : option ArgMatches).
Definition value_of (name : string) (m : ArgMatches) : option string :=
  let 'mkArgMatches values _ _ _ := m in values !! name.
Definition is_present (name : string) (m : ArgMatches) : bool :=
  let 'mkArgMatches values present _ _ := m in
  bool_decide (name ∈ present) || bool_decide (is_Some (values !! name)).
Definition subcommand (m : ArgMatches) : string * option ArgMatches :=
  let 'mkArgMatches _ _ name args := m in (name, args).

(** [trait Action]: what is run on the arguments, if there are any. *)
Definition Action (S : Type) : Type := option ArgMatches → eff S CliError ().

(** [SubcommandActions] *)
Definition SubcommandActions (S : Type) : Type := gmap string (Action S).
Definition with_command {S} (command : string) (action : Action S) (a : SubcommandActions S) :
    SubcommandActions S := <[command := action]> a.
Definition run_subcommand {S} (actions : SubcommandActions S) : Action S := λ arg_matches,
  args ← lift (ok_or RequiresArgs arg_matches);
  let '(name, args) := subcommand args in
  match actions !! name with
  | Some action => action args
  | None => throw InvalidSubcommand
  end.

(** [Path::to_str], of the bytes of a path *)
Definition to_str (p : string) : option string := from_utf8 p.

Definition nul : string := String "000" "".

Definition chown (p : string) (uid gid : Z) : eff Fs CliError () :=
  pathstr ← lift (ok_or (EnvironmentError ("Invalid path: " +:+ p)) (to_str p));
  if contains nul pathstr then throw (EnvironmentError "nul byte found in provided data")
  else λ d,
    let '(code, d') := libc_chown pathstr uid gid d in
    (if (code =? 0)%Z then Ok () else Err (EnvironmentError ("Error chowning file " +:+ pathstr +:+ ": " +:+ pretty code)), d').

(** ** Keys *)

(** What the actions use of [sawtooth_sdk::signing], with its state: keys and their
    texts. *)
Class KeyMaker (W : Type) := {
  create_context : eff W string ();
  new_random_private_key : eff W string bytes;
  get_public_key : bytes → result string bytes;
}.

(** The key files have the hexadecimal form of the keys. *)
Definition as_hex (k : bytes) : string := to_hex k.

Definition on_fs {W A} (f : string → CliError) (m : eff Fs string A) : eff (Fs * W) CliError A := λ '(d, w),
  let '(r, d') := m d in (map_err f r, (d', w)).
Definition in_fs {W A} (m : eff Fs CliError A) : eff (Fs * W) CliError A := λ '(d, w),
  let '(r, d') := m d in (r, (d', w)).
Definition in_lib {W A} (f : string → CliError) (m : eff W string A) : eff (Fs * W) CliError A := λ '(d, w),
  let '(r, w') := m w in (map_err f r, (d, w')).

Section keygen.
Context {W : Type} `{!KeyMaker W}.

(** A key file: opened without truncation, and written by one call of [write]. *)
Definition write_key (mode : Z) (p : string) (text : bytes) : eff (Fs * W) CliError () :=
  k ← on_fs EnvironmentError (open_write false mode p);
  _ ← on_fs EnvironmentError (write k 0 text);
  mret ().

Definition create_key_pair (key_dir private_key_path public_key_path : string)
    (force_create change_permissions : bool) : eff (Fs * W) CliError bytes :=
  '(d, _) ← get;
  _ ← (if force_create then mret ()
       else if path_exists private_key_path d then
         throw (EnvironmentError ("file exists: " +:+ private_key_path))
       else if path_exists public_key_path d then
         throw (EnvironmentError ("file exists: " +:+ public_key_path))
       else mret ());
  _ ← in_lib EnvironmentError create_context;
  private_key ← in_lib EnvironmentError new_random_private_key;
  public_key ← lift (map_err EnvironmentError (get_public_key private_key));
  key_dir_info ← on_fs EnvironmentError (metadata key_dir);
  _ ← write_key 416 private_key_path (as_hex private_key);
  _ ← write_key 420 public_key_path (as_hex public_key);
  _ ← (if change_permissions then
         _ ← in_fs (chown private_key_path (a_uid key_dir_info) (a_gid key_dir_info));
         in_fs (chown public_key_path (a_uid key_dir_info) (a_gid key_dir_info))
       else mret ());
  mret public_key.

(** [KeyGenAction] *)
Definition keygen_action : Action (Fs * W) := λ arg_matches,
  args ← lift (ok_or RequiresArgs arg_matches);
  let key_name := default "splinter" (value_of "key_name" args) in
  let key_dir := default "." (value_of "key_dir" args) in
  _ ← create_key_pair key_dir (with_extension (join key_dir key_name) "priv")
        (with_extension (join key_dir key_name) "pub") (is_present "force" args) true;
  mret ().

(** [KeyRegistrySpec]: the keys to make, by their names *)
Record KeySpec := mkKeySpec { ks_node_id : string; ks_metadata : gmap string string }.
Definition KeyRegistrySpec : Type := gmap string KeySpec.

(** [serde_yaml::from_reader] *)
Class SpecYaml := spec_from_yaml : bytes → result string KeyRegistrySpec.

Definition DEFAULT_STATE_DIR : string := "/var/lib/splinter/".
Definition registry_error (e : KeyRegistryError) : string :=
  match e with KeyError msg => msg | KeyPanic => "panic" end.

Section registry.
Context `{!SpecYaml, !FileSystem Fs, !Serde PersistedKeyRegistry}.

(** The key of one entry, with the node and the metadata of its specification *)
Definition make_registry_key (target_dir : string) (force_write : bool) (name : string) (spec : KeySpec) :
    eff (Fs * W) CliError KeyInfo :=
  public_key ← create_key_pair target_dir (with_extension (join target_dir name) "priv")
    (with_extension (join target_dir name) "pub") force_write false;
  mret (mkKeyInfo public_key (ks_node_id spec) (ks_metadata spec)).

Fixpoint make_registry_keys (target_dir : string) (force_write : bool) (specs : list (string * KeySpec)) :
    eff (Fs * W) CliError (list KeyInfo) :=
  match specs with
  | [] => mret []
  | (name, spec) :: specs =>
      info ← make_registry_key target_dir force_write name spec;
      infos ← make_registry_keys target_dir force_write specs;
      mret (info :: infos)
  end.

(** The file that is there is kept from being overwritten, or removed. *)
Definition clear_registry_file (p : string) (force_write : bool) : eff (Fs * W) CliError () :=
  '(d, _) ← get;
  if path_exists p d then
    if negb force_write then throw (EnvironmentError ("file exists: " +:+ p))
    else on_fs (λ err, EnvironmentError ("Unable to overwrite " +:+ p +:+ ": " +:+ err)) (remove_file p)
  else mret ().

Definition open_registry (p : string) : eff (Fs * W) CliError StorageKeyRegistry := λ '(d, w),
  let '(r, d') := key_registry_new p d in
  (map_err (λ e, EnvironmentError ("Unable to read " +:+ p +:+ ": " +:+ registry_error e)) r, (d', w)).

Definition save_registry (r : StorageKeyRegistry) (infos : list KeyInfo) : eff (Fs * W) CliError () := λ '(d, w),
  let '(res, (_, d')) := save_keys infos (r, d) in
  (map_err (λ e, ActionError ("Unable to write keys: " +:+ registry_error e)) res, (d', w)).

(** [KeyRegistryGenerationAction]; [state_dir] is the variable of the environment. *)
Definition key_registry_action (state_dir : option string) : Action (Fs * W) := λ arg_matches,
  args ← lift (ok_or RequiresArgs arg_matches);
  let registry_spec_path := default "./key_registry_spec.yaml" (value_of "registry_spec_path" args) in
  let target_dir :=
    match value_of "target_dir" args with
    | Some dir => dir
    | None => default DEFAULT_STATE_DIR state_dir
    end in
  let target_registry_path := join target_dir (default "keys.yaml" (value_of "registry_file" args)) in
  let force_write := is_present "force" args in
  _ ← clear_registry_file target_registry_path force_write;
  _ ← on_fs (λ err, ActionError ("Unable to open key registry spec " +:+ registry_spec_path +:+ ": " +:+ err))
    (open_read registry_spec_path);
  let read_error := λ err, ActionError ("Unable to read key registry " +:+ registry_spec_path +:+ ": " +:+ err) in
  spec_bytes ← on_fs read_error (read registry_spec_path);
  registry_spec ← lift (map_err read_error (spec_from_yaml spec_bytes));
  location ← lift (ok_or (EnvironmentError
    ("Key registry output file " +:+ target_registry_path +:+ " contains invalid characters"))
    (to_str target_registry_path));
  key_registry ← open_registry location;
  key_infos ← make_registry_keys target_dir force_write (btree_entries registry_spec);
  save_registry key_registry key_infos.
End registry.
End keygen.
