(* ===== verification/CliProps.v ===== *)
(** * What the key actions of the command line do to files

    Without [--force] no file that is there is touched, whatever fails; when an
    action succeeds, the key files and the registry are what they should be. *)

From stdpp Require Import gmap.
From Stdlib Require Import ZArith Lia.
From S2P Require Import Prelude Framing Storage Hex Keys FileTree Cli.

Section rules.
Context {W : Type}.

Lemma wp_on_fs {A} f (m : eff Fs string A) Q d (w : W) :
  wp m (λ r d', Q (map_err f r) (d', w)) d → wp (on_fs f m) Q (d, w).
Proof. unfold wp, on_fs. by destruct (m d). Qed.
Lemma wp_in_fs {A} (m : eff Fs CliError A) Q d (w : W) :
  wp m (λ r d', Q r (d', w)) d → wp (in_fs m) Q (d, w).
Proof. unfold wp, in_fs. by destruct (m d). Qed.
Lemma wp_in_lib_spec {A} f (m : eff W string A) Q d w :
  wp m (λ r w', Q (map_err f r) (d, w')) w → wp (in_lib f m) Q (d, w).
Proof. unfold wp, in_lib. by destruct (m w). Qed.
Lemma wp_any {S E A} (m : eff S E A) (Q : result E A → S → Prop) w : (∀ r w', Q r w') → wp m Q w.
Proof. intros H. unfold wp. destruct (m w). apply H. Qed.
Lemma wp_in_lib {A} f (m : eff W string A) Q d w :
  (∀ r w', Q (map_err f r) (d, w')) → wp (in_lib f m) Q (d, w).
Proof. intros H. by apply wp_in_lib_spec, wp_any. Qed.
End rules.

Lemma wp_chown p uid gid Q d :
  (∀ d' err, differ_at [] d d' → Q (Err err) d') →
  (∀ d' n, at_path p d = Some n → differ_at [components p] d d' →
     at_path p d' = Some (set_attrs (mkAttrs (a_mode (node_attrs n)) uid gid) n) → Q (Ok ()) d') →
  wp (chown p uid gid) Q d.
Proof.
  intros He Hok. unfold chown, to_str, from_utf8. wp_go. destruct (valid_utf8 p); cbn [ok_or]; [|by apply He].
  case_match; [by apply wp_throw, He|]. unfold wp, libc_chown.
  enough (wp (chown_call p uid gid)
    (λ r d', match r with Ok _ => Q (Ok ()) d' | Err _ => ∀ e, Q (Err e) d' end) d) as Hwp.
  { unfold wp in Hwp. destruct (chown_call p uid gid d) as [[[]|e] d']; cbn; auto. }
  apply wp_chown_call; [|done]. intros d' err Hd e. by apply He.
Qed.

(** A mask does not add bits. *)
Lemma land_ldiff_0 m u b : Z.land m b = 0%Z → Z.land (Z.ldiff m u) b = 0%Z.
Proof.
  intros H. rewrite <- (Z.ldiff_0_l u), <- H. apply Z.bits_inj'. intros i _.
  rewrite Z.land_spec, !Z.ldiff_spec, Z.land_spec. by destruct (Z.testbit m i), (Z.testbit u i), (Z.testbit b i).
Qed.

(** The places [ks] were free, and nothing else changed. *)
Definition made (ks : list (list string)) (d d' : Fs) : Prop :=
  differ_at ks d d' ∧ Forall (λ k, fs_nodes d !! k = None) ks.
(** What was there is still there, unchanged. *)
Definition keeps (d d' : Fs) : Prop := ∀ k n, fs_nodes d !! k = Some n → fs_nodes d' !! k = Some n.

Lemma made_keeps ks d d' : made ks d d' → keeps d d'.
Proof.
  intros [Hd Hf] k n Hk. rewrite (differ_at_lookup _ _ _ _ Hd); [done|]. intros Hin.
  rewrite Forall_forall in Hf. by rewrite (Hf _ Hin) in Hk.
Qed.
Lemma differ_keeps d d' : differ_at [] d d' → keeps d d'.
Proof. intros Hd k n Hk. by rewrite (differ_at_lookup _ _ _ _ Hd) by set_solver. Qed.
#[global] Instance keeps_preorder : PreOrder keeps.
Proof. split; [by intros d k n|]. intros d1 d2 d3 H1 H2 k n Hk. by apply H2, H1. Qed.

(** The file of a key: [t] is the text, a part of it only if a write was cut short. *)
Definition key_file (mode : Z) (p : string) (text : bytes) (d d' : Fs) : Prop :=
  ∃ a n, at_path p d' = Some (File a (str_take n text)) ∧ (whole d → n = String.length text) ∧
    a_mode a = Z.ldiff mode (fs_umask d).

Lemma key_file_later mode p text d d' d'' ks :
  key_file mode p text d d' → differ_at ks d' d'' → components p ∉ ks → key_file mode p text d d''.
Proof.
  intros (a & n & H & Hn & Hm) Hd Hk. exists a, n. split; [|done].
  unfold at_path in *. by rewrite (differ_at_lookup _ _ _ _ Hd).
Qed.

Lemma key_file_from mode p text d d' d'' ks :
  differ_at ks d d' → key_file mode p text d' d'' → key_file mode p text d d''.
Proof.
  intros Hd (a & n & H & Hn & Hm). exists a, n. split; [done|].
  split; [intros Hw; by apply Hn, (whole_differ _ _ _ Hd)|]. destruct Hd as (_ & _ & <- & _). done.
Qed.

Section keygen.
Context {W : Type} {Hmaker : KeyMaker W}.

Lemma write_key_new mode p text d (w : W) :
  at_path p d = None →
  wp (write_key mode p text) (λ r st, differ_at [components p] d st.1 ∧ 
    match r with Ok _ => key_file mode p text d st.1 | Err _ => True end) (d, w).
Proof.
  intros Hp. unfold write_key. wp_go. apply wp_on_fs. apply wp_open_new; [done| |].
  { intros d' err Hd. split; [|done]. by apply (differ_at_mono []); [set_solver|]. }
  intros d1 Hd1 H1. cbn [map_err]. wp_go. apply wp_on_fs.
  apply (wp_write (components p) (new_attrs mode d) ""); [done| |].
  { intros d' err Hd. split; [|done]. etrans; [done|]. by apply (differ_at_mono []); [set_solver|]. }
  intros d2 n Hn Hw Hd2 H2. cbn [map_err]. wp_go. split; [by etrans|].
  exists (new_attrs mode d), n. split; [done|]. split; [|done]. intros Hwh. by apply Hw, (whole_differ _ _ _ Hd1).
Qed.

(** The attributes of a key file but for its mode are changed. *)
Lemma chown_key_file mode p text uid gid d d1 (w : W) :
  key_file mode p text d d1 →
  wp (in_fs (chown p uid gid)) (λ r st, differ_at [components p] d1 st.1 ∧ key_file mode p text d st.1) (d1, w).
Proof.
  intros (a & n & Hf & Hw & Hm). apply wp_in_fs, wp_chown.
  - intros d' err Hd. split; [by apply (differ_at_mono []); [set_solver|]|]. exists a, n. split; [|done].
    unfold at_path in *. cbn. by rewrite (differ_at_lookup _ _ _ _ Hd) by set_solver.
  - intros d' node Hn Hd Hat. split; [done|]. rewrite Hf in Hn. injection Hn as <-.
    by exists (mkAttrs (a_mode a) uid gid), n.
Qed.

(** The key files [p] and [q], after the owner of both is set, or not *)
Lemma chown_key_files p q t t' uid gid (cp : bool) d d1 (w : W) :
  components p ≠ components q → key_file 416 p t d d1 → key_file 420 q t' d d1 →
  wp (if cp then _ ← in_fs (chown p uid gid); in_fs (chown q uid gid) else mret ())
    (λ r st, differ_at [components p; components q] d1 st.1 ∧
       key_file 416 p t d st.1 ∧ key_file 420 q t' d st.1) (d1, w).
Proof.
  intros Hne Hp Hq. destruct cp; [|by apply wp_ret]. wp_go.
  eapply wp_mono; [by apply chown_key_file|]. intros r2 [d2 w2] [Hd2 Hp2]. cbn in *.
  assert (Hq2 : key_file 420 q t' d d2) by (eapply key_file_later; [done..|set_solver]).
  assert (Hd12 : differ_at [components p; components q] d1 d2)
    by (apply (differ_at_mono [components p]); [set_solver|done]).
  destruct r2; [|done]. eapply wp_mono; [by apply chown_key_file|]. intros r3 [d3 w3] [Hd3 Hq3]. cbn in *.
  split; [|split; [|done]]; [|eapply key_file_later; [done..|set_solver]].
  etrans; [done|]. by apply (differ_at_mono [components q]); [set_solver|].
Qed.

(** A pair of keys without [--force]: nothing is done, or the two files are new. *)
Definition key_pair_made (p q : string) (d : Fs) (r : result CliError bytes) (st : Fs * W) : Prop :=
  is_ok r = false ∧ st.1 = d ∨
  made [components p; components q] d st.1 ∧
  match r with
  | Ok pub => ∃ priv, get_public_key priv = Ok pub ∧
      key_file 416 p (as_hex priv) d st.1 ∧ key_file 420 q (as_hex pub) d st.1
  | Err _ => True
  end.

Lemma create_key_pair_new dir p q cp d (w : W) :
  components p ≠ components q → wp (create_key_pair dir p q false cp) (key_pair_made p q d) (d, w).
Proof.
  intros Hne. unfold create_key_pair, path_exists. wp_go.
  case_bool_decide as Hp; wp_go; [by left|]. case_bool_decide as Hq; wp_go; [by left|].
  apply eq_None_not_Some in Hp, Hq.
  assert (Hmade : ∀ d', differ_at [components p; components q] d d' → made [components p; components q] d d').
  { intros d' Hd. split; [done|]. by repeat constructor. }
  apply wp_in_lib. intros [[]|e] w1; cbn [map_err]; [|by left]. wp_go.
  apply wp_in_lib. intros [priv|e] w2; cbn [map_err]; [|by left]. wp_go.
  destruct (get_public_key priv) as [pub|e] eqn:Hpub; cbn [map_err]; [|by left]. wp_go.
  apply wp_on_fs, wp_look. intros d1 [info|e] Hd1; cbn [map_err]; wp_go.
  2: { right. split; [|done]. apply Hmade. by apply (differ_at_mono []); [set_solver|]. }
  eapply wp_mono; [apply write_key_new|].
  { unfold at_path in *. by rewrite (differ_at_lookup _ _ _ _ Hd1) by set_solver. }
  assert (Hd01 : differ_at [components p; components q] d d1) by (by apply (differ_at_mono []); [set_solver|]).
  intros r2 [d2 w3] [Hd2 Hf2]. cbn in Hd2, Hf2.
  assert (Hd02 : differ_at [components p; components q] d d2).
  { etrans; [done|]. by apply (differ_at_mono [components p]); [set_solver|]. }
  destruct r2 as [[]|e]; [|right; split; [by apply Hmade|done]].
  wp_go. eapply wp_mono; [apply write_key_new|].
  { unfold at_path in *. rewrite (differ_at_lookup _ _ _ _ Hd2) by set_solver.
    by rewrite (differ_at_lookup _ _ _ _ Hd1) by set_solver. }
  intros r3 [d3 w4] [Hd3 Hf3]. cbn in Hd3, Hf3.
  assert (Hd03 : differ_at [components p; components q] d d3).
  { etrans; [done|]. by apply (differ_at_mono [components q]); [set_solver|]. }
  destruct r3 as [[]|e]; [|right; split; [by apply Hmade|done]].
  apply (key_file_from _ _ _ _ _ _ _ Hd01) in Hf2. apply (key_file_from _ _ _ _ _ _ _ Hd02) in Hf3.
  wp_go. eapply wp_mono; [eapply chown_key_files; [done| |done]|].
  { eapply key_file_later; [done..|set_solver]. }
  intros r4 [d4 w5] (Hd4 & Hp4 & Hq4). cbn in *. destruct r4 as [[]|e]; wp_go; right.
  - split; [apply Hmade; by etrans|]. by exists priv.
  - split; [apply Hmade; by etrans|done].
Qed.

Lemma key_paths_differ x : components (with_extension x "priv") ≠ components (with_extension x "pub").
Proof. intros H. apply with_extension_inj in H; [done| | |done..]; by intros [|[|[|[|n]]]]. Qed.

Lemma key_pair_made_keeps p q d r (st : Fs * W) : key_pair_made p q d r st → keeps d st.1.
Proof. intros [[_ ->]|[H _]]; [done|by eapply made_keeps]. Qed.

(** Making keys without [--force].  Whatever the system refuses, every file and every
    directory is as it was, but for the two new files.  When the command succeeds and
    the system took the writes as a whole, these have the private key, which no other
    user can read, and its public key. *)
Theorem keygen_new_keys args d (w : W) :
  is_present "force" args = false →
  let '(r, (d', _)) := keygen_action (Some args) (d, w) in
  let path := join (default "." (value_of "key_dir" args)) (default "splinter" (value_of "key_name" args)) in
  keeps d d' ∧
  (r = Ok () → whole d → ∃ priv pub a a',
    get_public_key priv = Ok pub ∧
    at_path (with_extension path "priv") d' = Some (File a (as_hex priv)) ∧ Z.land (a_mode a) 7 = 0%Z ∧
    at_path (with_extension path "pub") d' = Some (File a' (as_hex pub))).
Proof.
  intros Hforce. pose proof (create_key_pair_new (default "." (value_of "key_dir" args)) _ _ true d w
    (key_paths_differ (join (default "." (value_of "key_dir" args)) (default "splinter" (value_of "key_name" args)))))
    as Hk.
  unfold keygen_action, lift, ok_or, mbind, eff_bind. rewrite Hforce. unfold wp in Hk.
  destruct (create_key_pair _ _ _ _ _ _) as [r [d' w']]. pose proof (key_pair_made_keeps _ _ _ _ _ Hk) as Hkeep.
  destruct r as [pub|e]; (split; [done|]); [intros _ Hw|done].
  destruct Hk as [[? _]|[_ (priv & Hpub & (a & n & Ha & Hn & Hm) & (a' & n' & Ha' & Hn' & _))]]; [done|].
  cbn [fst] in Ha, Ha'. exists priv, pub, a, a'. rewrite Ha, Ha', Hn, Hn' by done. rewrite !str_take_ge by done. split_and!; try done.
  rewrite Hm. apply land_ldiff_0. done.
Qed.
End keygen.

(** ** The registry *)

(** The storage of the registry, [AtomicFile], works on the same files. *)
Class FsStorage `{!FileSystem Fs} : Prop := {
  fs_read_file p d : read_file p d = match at_path p d with Some (File _ b) => Some b | _ => None end;
  fs_write_file p b d d' :
    write_file p b d = Some d' → differ_at [components p] d d' ∧ ∃ a, at_path p d' = Some (File a b);
}.

Section registry.
Context {W : Type} {Hmaker : KeyMaker W} {Hspec : SpecYaml} {Hfs : FileSystem Fs} {Hstore : FsStorage}
  {Hserde : Serde PersistedKeyRegistry}.

#[local] Instance fs_reads : ReadsWritten Fs.
Proof. intros p b d d' H. destruct (fs_write_file _ _ _ _ H) as [_ [a Ha]]. by rewrite fs_read_file, Ha. Qed.

(** What the storage writes is the one file. *)
Lemma write_yaml_differ loc (x : PersistedKeyRegistry) d :
  wp (write_yaml loc x) (λ r d', differ_at [components loc] d d' ∧ (is_ok r = true → is_Some (at_path loc d'))) d.
Proof.
  unfold wp, write_yaml. destruct (to_yaml x ≫= _) as [d'|] eqn:E; [|done].
  apply bind_Some in E as (b & _ & Hw). destruct (fs_write_file _ _ _ _ Hw) as [Hd [a Ha]].
  split; [done|]. intros _. by rewrite Ha.
Qed.

Lemma get_storage_differ loc (x : PersistedKeyRegistry) d :
  wp (get_storage loc x) (λ r d', differ_at [components loc] d d' ∧
    (is_ok r = true → ends_with ".yaml" loc = true → is_Some (at_path loc d'))) d.
Proof.
  unfold get_storage, yaml_storage_new. destruct (ends_with ".yaml" loc).
  - unfold wp at 1. destruct (read_file loc d) as [b|] eqn:Hb.
    + rewrite fs_read_file in Hb. destruct (at_path loc d) eqn:Hat; [|done].
      destruct (from_yaml b); cbn; by rewrite ?Hat.
    + pose proof (write_yaml_differ loc x d) as Hw. unfold wp in Hw. unfold mbind, eff_bind.
      destruct (write_yaml loc x d) as [[[]|] d']; cbn in *; naive_solver.
  - case_bool_decide; by unfold wp.
Qed.

Lemma replace_stored_differ loc (x : PersistedKeyRegistry) d :
  wp (replace_stored loc x) (λ _ d', differ_at [components loc] d d') d.
Proof.
  unfold replace_stored. wp_go.
  assert (Hloc : wp (get_storage loc x) (λ r d', differ_at [components loc] d d' ∧
    match r with Ok (YamlStorage _ p) => p = loc | _ => True end) d).
  { pose proof (get_storage_differ loc x d) as Hg. unfold wp in *.
    destruct (get_storage loc x d) as [r d'] eqn:E. split; [apply Hg|]. destruct r as [[y p|y]|]; try done.
    unfold get_storage, yaml_storage_new in E. destruct (ends_with ".yaml" loc).
    - destruct (read_file loc d); [destruct (from_yaml _); by simplify_eq|].
      apply eff_bind_inv in E as (? & ? & _ & E). by injection E.
    - by case_bool_decide. }
  eapply wp_mono; [exact Hloc|]. intros [s|e] d1 [Hd1 Hp]; [|done]. wp_go.
  destruct s as [y p|y]; cbn [storage_write]; wp_go; [subst p|done].
  eapply wp_mono; [apply write_yaml_differ|]. intros [[]|e] d2 [Hd2 _]; wp_go; by etrans.
Qed.

Lemma wp_open_registry loc d (w : W) :
  wp (open_registry loc) (λ r st, differ_at [components loc] d st.1 ∧
    (is_ok r = true → ends_with ".yaml" loc = true → is_Some (at_path loc st.1)) ∧
    match r with
    | Ok reg => kr_storage_location reg = loc ∧ key_registry_new loc d = (Ok reg, st.1)
    | Err _ => True
    end) (d, w).
Proof.
  unfold wp, open_registry, key_registry_new, emap_err, mbind, eff_bind.
  pose proof (get_storage_differ loc (∅ : PersistedKeyRegistry) d) as H. unfold wp in H.
  destruct (get_storage loc ∅ d) as [[s|e] d']; cbn in *; naive_solver.
Qed.

Lemma wp_save_registry reg infos d (w : W) :
  wp (save_registry reg infos) (λ r st, differ_at [components (kr_storage_location reg)] d st.1 ∧
    (is_ok r = true → ∃ reg', save_keys infos (reg, d) = (Ok (), (reg', st.1)))) (d, w).
Proof.
  unfold wp, save_registry. destruct (save_keys infos (reg, d)) as [res [reg' d']] eqn:E. cbn.
  split; [|destruct res as [[]|]; naive_solver].
  unfold save_keys, modify, mbind, eff_bind, write_key_registry in E. cbn in E.
  pose proof (replace_stored_differ (kr_storage_location reg)
    (foldl (λ m k, add_key k m) (kr_keys reg) infos) d) as H. unfold wp in H.
  destruct (replace_stored _ _ d) as [r d2]. injection E as _ _ <-. exact H.
Qed.

Definition priv_path (target_dir name : string) : string := with_extension (join target_dir name) "priv".
Definition pub_path (target_dir name : string) : string := with_extension (join target_dir name) "pub".

(** The key that was made for an entry of the specification. *)
Definition entry_made (target_dir : string) (d d' : Fs) (entry : string * KeySpec) (info : KeyInfo) : Prop :=
  associated_node_id info = ks_node_id entry.2 ∧ Keys.metadata info = ks_metadata entry.2 ∧
  ∃ priv, get_public_key priv = Ok (public_key info) ∧
    key_file 416 (priv_path target_dir entry.1) (as_hex priv) d d' ∧
    key_file 420 (pub_path target_dir entry.1) (as_hex (public_key info)) d d'.

(** Its files were not there. *)
Definition entry_fresh (target_dir : string) (d : Fs) (entry : string * KeySpec) : Prop :=
  at_path (priv_path target_dir entry.1) d = None ∧ at_path (pub_path target_dir entry.1) d = None.

Lemma keeps_None d d' k : keeps d d' → fs_nodes d' !! k = None → fs_nodes d !! k = None.
Proof. intros Hk Hn. apply eq_None_not_Some. intros [n Hd]. by rewrite (Hk _ _ Hd) in Hn. Qed.

Lemma key_file_keeps mode p text d d' d'' :
  keeps d' d'' → key_file mode p text d d' → key_file mode p text d d''.
Proof. intros Hk (a & n & Hf & Hr). exists a, n. split; [by apply Hk|done]. Qed.

Lemma entry_made_from target_dir d d0 d' d'' e i ks :
  differ_at ks d d0 → keeps d' d'' → entry_made target_dir d0 d' e i → entry_made target_dir d d'' e i.
Proof.
  intros Hd Hk (H1 & H2 & priv & H3 & H4 & H5). split_and!; [done..|]. exists priv.
  split_and!; [done|..]; eapply key_file_keeps; try done; by eapply key_file_from.
Qed.

Lemma make_registry_keys_new target_dir specs d (w : W) :
  wp (make_registry_keys target_dir false specs) (λ r st,
    (∃ ks, made ks d st.1) ∧
    match r with
    | Ok infos => Forall2 (entry_made target_dir d st.1) specs infos ∧ Forall (entry_fresh target_dir d) specs
    | Err _ => True
    end) (d, w).
Proof.
  revert d w. induction specs as [|[name spec] specs IH]; intros d w; cbn [make_registry_keys]; wp_go.
  { split; [by exists []|by repeat constructor]. }
  unfold make_registry_key. wp_go.
  eapply wp_mono; [apply create_key_pair_new, key_paths_differ|]. intros r1 [d1 w1] H1.
  assert (Hm1 : ∃ ks, made ks d d1).
  { destruct H1 as [[_ H1]|[H1 _]]; [cbn in H1; subst; by exists []|by eexists]. }
  destruct r1 as [pub|e]; wp_go; [|done].
  destruct H1 as [[? _]|[[Hd1 Hf1] (priv & Hpub & Hp & Hq)]]; [done|]. cbn in *.
  eapply wp_mono; [apply IH|]. intros r2 [d2 w2] [[ks2 Hm2] H2]. cbn in *.
  assert (Hm02 : ∃ ks, made ks d d2).
  { destruct Hm1 as [ks1 Hm1]. exists (ks1 ++ ks2). destruct Hm1 as [Hda Hfa], Hm2 as [Hdb Hfb]. split.
    - etrans; [|apply (differ_at_mono ks2 _ d1); [set_solver|done]]. apply (differ_at_mono ks1); [set_solver|done].
    - apply Forall_app. split; [done|]. eapply Forall_impl; [exact Hfb|]. intros k Hk.
      by eapply keeps_None; [apply (made_keeps ks1)|]. }
  destruct r2 as [infos|e]; wp_go; [|done]. split; [done|].
  pose proof (made_keeps _ _ _ Hm2) as Hk2. destruct H2 as [H2 Hfr]. split; constructor.
  - split_and!; [done..|]. exists priv. split_and!; [done|..]; by eapply key_file_keeps.
  - eapply Forall2_impl; [exact H2|]. intros e i. by apply (entry_made_from _ d d1 d2 d2 e i _ Hd1).
  - inversion_clear Hf1 as [|?? Ha Hb]. by inversion_clear Hb.
  - pose proof (made_keeps _ _ _ (conj Hd1 Hf1)) as Hk1. eapply Forall_impl; [exact Hfr|].
    intros e [Ha Hb]. split; by eapply keeps_None.
Qed.

(** A file that was there before the keys were made, and is written again, is none of
    theirs. *)
Lemma entries_later target_dir d d3 d4 d5 ks kl specs infos :
  differ_at ks d d3 → differ_at [kl] d4 d5 → is_Some (fs_nodes d3 !! kl) →
  Forall2 (entry_made target_dir d3 d4) specs infos → Forall (entry_fresh target_dir d3) specs →
  Forall2 (entry_made target_dir d d5) specs infos.
Proof.
  intros Hd Hd5 [n Hn]. induction 1 as [|e i specs infos (H1 & H2 & priv & H3 & H4 & H5) _ IH];
    inversion_clear 1 as [|?? [Hp Hq] Hfr]; constructor; [|by apply IH].
  split_and!; [done..|]. exists priv. split; [done|]. unfold at_path in *.
  split; (eapply key_file_from; [done|]; eapply key_file_later; [done..|]);
    intros Heq%list_elem_of_singleton; congruence.
Qed.

Context {Hlaws : SerdeLaws (λ m : PersistedKeyRegistry, m)}.

Lemma new_registry_empty loc d reg d' k :
  at_path loc d = None → key_registry_new loc d = (Ok reg, d') → storage_get_key k reg = Ok None.
Proof.
  intros Hn (st & d1 & H1 & H2)%eff_bind_inv. injection H2 as <- <-. unfold emap_err, get_storage in H1.
  enough (data st = ∅) as Hd by (unfold storage_get_key; cbn; by rewrite Hd, lookup_empty).
  destruct (ends_with ".yaml" loc); [|case_bool_decide; cbn in H1; by simplify_eq].
  unfold yaml_storage_new in H1. rewrite fs_read_file, Hn in H1. unfold mbind, eff_bind in H1.
  destruct (write_yaml _ _ _) as [[[]|] d2]; cbn in H1; by simplify_eq.
Qed.

(** C37: a registry of keys is made without [--force].  Whatever fails, every file and
    directory that is there is as it was.  When the action succeeds, each entry of the
    specification that was read has its two key files, with the private key and the public key
    that belongs to it, or the beginning of it if a write was cut short, and, when the name of
    the registry ends in [.yaml], a node that reads the registry finds each public key with
    the node and the metadata of its entry. *)
Theorem key_registry_new_keys state_dir args d (w : W) :
  is_present "force" args = false →
  let target_dir := match value_of "target_dir" args with Some x => x | None => default DEFAULT_STATE_DIR state_dir end in
  let location := join target_dir (default "keys.yaml" (value_of "registry_file" args)) in
  let spec_path := default "./key_registry_spec.yaml" (value_of "registry_spec_path" args) in
  let '(r, (d', _)) := key_registry_action state_dir (Some args) (d, w) in
  keeps d d' ∧
  (r = Ok () → ends_with ".yaml" location = true → ∃ a b spec infos reg,
    at_path spec_path d = Some (File a b) ∧ spec_from_yaml b = Ok spec ∧
    Forall2 (entry_made target_dir d d') (btree_entries spec) infos ∧
    key_registry_new location d' = (Ok reg, d') ∧
    ∀ k, storage_get_key k reg = Ok (foldl (last_saved k) None infos)).
Proof.
  intros Hforce target_dir location spec_path.
  enough (wp (key_registry_action state_dir (Some args)) (λ r st, keeps d st.1 ∧
    (r = Ok () → ends_with ".yaml" location = true → ∃ a b spec infos reg,
      at_path spec_path d = Some (File a b) ∧ spec_from_yaml b = Ok spec ∧
      Forall2 (entry_made target_dir d st.1) (btree_entries spec) infos ∧
      key_registry_new location st.1 = (Ok reg, st.1) ∧
      ∀ k, storage_get_key k reg = Ok (foldl (last_saved k) None infos))) (d, w)) as H.
  { unfold wp in H. by destruct (key_registry_action _ _ _) as [r [d' w']]. }
  unfold key_registry_action, clear_registry_file. wp_go. cbn [ok_or]. wp_go. rewrite Hforce.
  fold target_dir location spec_path. unfold path_exists. cbn [negb].
  case_bool_decide as Hloc; wp_go; [done|]. apply eq_None_not_Some in Hloc.
  apply wp_on_fs, wp_look. intros d1 r1 Hd1. destruct r1; cbn [map_err]; wp_go; [|by split; [apply differ_keeps|]].
  apply wp_on_fs, wp_read. intros d2 r2 Hd2 Hr2. assert (Hd02 : differ_at [] d d2) by by etrans.
  destruct r2 as [b|]; cbn [map_err]; wp_go; [|by split; [apply differ_keeps|]]. destruct Hr2 as [attr Hb].
  unfold at_path in Hb. rewrite (differ_at_lookup _ _ _ _ Hd1) in Hb by set_solver.
  destruct (spec_from_yaml b) as [spec|] eqn:Hyaml; cbn [map_err]; wp_go; [|by split; [apply differ_keeps|]].
  unfold to_str, from_utf8. destruct (valid_utf8 location); cbn [ok_or]; wp_go; [|by split; [apply differ_keeps|]].
  assert (Hloc2 : at_path location d2 = None).
  { unfold at_path in *. by rewrite (differ_at_lookup _ _ _ _ Hd02) by set_solver. }
  eapply wp_mono; [apply wp_open_registry|]. intros r3 [d3 w3] (Hd3 & Hsome & Hreg). cbn in *.
  assert (Hm3 : made [components location] d d3).
  { split; [|by repeat constructor]. etrans; [|done]. by apply (differ_at_mono []); [set_solver|]. }
  destruct r3 as [reg|]; [|by split; [eapply made_keeps|]]. destruct Hreg as [<- Hnew]. wp_go.
  eapply wp_mono; [apply make_registry_keys_new|]. intros r4 [d4 w4] [[ks Hm4] H4]. cbn in *.
  assert (Hk4 : keeps d d4) by (etrans; by eapply made_keeps).
  destruct r4 as [infos|]; [|done]. destruct H4 as [H4 Hfr].
  eapply wp_mono; [apply wp_save_registry|]. intros r5 [d5 w5] [Hd5 Hsave]. cbn in *. split.
  - intros k n Hk. rewrite (differ_at_lookup _ _ _ _ Hd5); [by apply Hk4|].
    intros ->%list_elem_of_singleton. unfold at_path in Hloc. congruence.
  - intros -> Hy. destruct (Hsave eq_refl) as [reg' Hs]. exists attr, b, spec, infos, reg'.
    destruct (saved_keys_found infos reg d4 reg' d5 "" None Hy) as [_ Hread];
      [by eapply new_registry_empty|done|].
    split; [exact Hb|]. split; [exact Hyaml|]. split; [by eapply (entries_later target_dir d d3 d4 d5); [apply Hm3|apply Hd5|apply Hsome|..]|].
    split; [done|]. intros k.
    by destruct (saved_keys_found infos reg d4 reg' d5 k None Hy) as [Hk _]; [eapply new_registry_empty|..].
Qed.
End registry.

(** ** Examples *)
Module CliExample.
Import CountableCodec.

(** Keys are numbered. *)
#[export] Instance numbered_keys : KeyMaker nat := {|
  create_context := mret ();
  new_random_private_key n := (Ok (String (ascii_of_nat n) "private"), S n);
  get_public_key k := Ok (String.substring 0 1 k +:+ "public");
|}.

#[export] Instance key_info_eq_dec : EqDecision PersistedKeyInfo.
Proof. solve_decision. Defined.
#[export] Instance key_info_countable : Countable PersistedKeyInfo.
Proof.
  refine (inj_countable' (λ p, (pk_public_key p, pk_associated_node_id p, pk_metadata p))
    (λ '(a, b, c), mkPersistedKeyInfo a b c) _). by intros [].
Defined.
#[export] Instance registry_serde : Serde PersistedKeyRegistry := {|
  to_yaml m := Some (write_pos (encode m));
  from_yaml b := parse_pos b ≫= decode;
|}.
#[export] Instance registry_serde_laws : SerdeLaws (λ m : PersistedKeyRegistry, m).
Proof. intros x b [= <-]. cbn. rewrite parse_write_pos. cbn. apply decode_encode. Qed.

#[export] Instance storage_files : FileSystem Fs := {|
  read_file p d := match at_path p d with Some (File _ b) => Some b | _ => None end;
  write_file p b d := Some (set_nodes (<[components p := File (new_attrs 438 d) b]> (fs_nodes d)) d);
|}.
#[export] Instance storage_files_laws : FsStorage.
Proof.
  split; [done|]. intros p b d d' [= <-]. split; [apply differ_at_insert; set_solver|].
  eexists. unfold at_path. cbn. by rewrite lookup_insert_eq.
Qed.

(** The specification has one entry for each letter of the file, with that name, and
    one for each digit [n], with the name [k.n]. *)
#[export] Instance letters_yaml : SpecYaml := λ b,
  Ok (list_to_map ((λ c, ((if digit_of c is Some _ then "k." else "") +:+ String c "", mkKeySpec "node" ∅))
                     <$> String.list_ascii_of_string b)).

Definition dir_attrs : attrs := mkAttrs 493 7 7.
Definition example_tree (files : list (list string * node)) (o : list outcome) : Fs :=
  mkFs (list_to_map ((["/"], Dir dir_attrs) :: (["/"; "keys"], Dir dir_attrs) :: files)) o 18 7 7.
Definition spec_file (letters : string) : list string * node :=
  (["/"; "keys"; "spec.yaml"], File (mkAttrs 420 7 7) letters).
Definition example_args (flags : gset string) : ArgMatches :=
  mkArgMatches {["target_dir" := "/keys"; "registry_spec_path" := "/keys/spec.yaml"; "key_dir" := "/keys"]}
    flags "" None.
Definition example_registry (letters : string) (flags : gset string) (o : list outcome) :=
  key_registry_action None (Some (example_args flags)) (example_tree [spec_file letters] o, 0).

Lemma keygen_new_keys_witness :
  ∃ d' w', keygen_action (Some (example_args ∅)) (example_tree [] [], 0) = (Ok (), (d', w')) ∧
    is_file "/keys/splinter.priv" d' = true ∧ keeps (example_tree [] []) d'.
Proof.
  pose proof (keygen_new_keys (example_args ∅) (example_tree [] []) 0 eq_refl) as H.
  destruct (keygen_action _ _) as [r [d' w']] eqn:E. exists d', w'.
  assert (r = Ok ()) as -> by (change r with (r, (d', w')).1; rewrite <- E; by vm_compute).
  split; [done|]. destruct H as [Hk _]. split; [|done].
  change d' with (Ok (E := CliError) (), (d', w')).2.1. rewrite <- E. by vm_compute.
Defined.

Lemma key_registry_new_keys_witness :
  ∃ d' w', example_registry "ab" ∅ [] = (Ok (), (d', w')) ∧ ∃ reg,
    key_registry_new "/keys/keys.yaml" d' = (Ok reg, d').
Proof.
  pose proof (key_registry_new_keys None (example_args ∅) (example_tree [spec_file "ab"] []) 0 eq_refl) as H.
  unfold example_registry in *. destruct (key_registry_action _ _ _) as [r [d' w']] eqn:E. exists d', w'.
  assert (r = Ok ()) as -> by (change r with (r, (d', w')).1; rewrite <- E; by vm_compute).
  split; [done|]. destruct H as [_ H]. destruct (H eq_refl eq_refl) as (_ & _ & _ & _ & reg & _ & _ & _ & Hreg & _). by exists reg.
Defined.

(** A write that is cut short goes unnoticed: the command succeeds with half of a
    key. *)
Example half_a_key_written :
  let '(r, (d', _)) := keygen_action (Some (example_args ∅)) (example_tree [] [Works; Works; Takes 3], 0) in
  r = Ok () ∧ ∃ a, at_path "/keys/splinter.priv" d' = Some (File a "007").
Proof. vm_compute. split; [done|]. by eexists. Qed.

(** With [--force] the file is not truncated, and keeps its mode: the private key is
    written over the start of a longer file, for all to read. *)
Example force_keeps_mode_and_rest :
  let old := (["/"; "keys"; "splinter.priv"], File (mkAttrs 420 7 7) "an older and longer text") in
  let '(r, (d', _)) := keygen_action (Some (example_args {["force"]})) (example_tree [old] [], 0) in
  r = Ok () ∧ at_path "/keys/splinter.priv" d' = Some (File (mkAttrs 420 7 7) "0070726976617465ger text").
Proof. by vm_compute. Qed.

(** The names [k.1] and [k.2] of a specification stand for the same files.  Without
    [--force] the second key is refused; with it, the first private key is lost, and
    its public key stays in the registry. *)
Example dotted_names_collide :
  (example_registry "12" ∅ []).1 = Err (EnvironmentError "file exists: /keys/k.priv") ∧
  let '(r, (d', _)) := example_registry "12" {["force"]} [] in
  r = Ok () ∧
  at_path "/keys/k.priv" d' = Some (File (mkAttrs 416 7 7) (as_hex (String "001" "private"))) ∧
  match key_registry_new "/keys/keys.yaml" d' with
  | (Ok reg, _) => storage_get_key (String "000" "public") reg =
      Ok (Some (mkKeyInfo (String "000" "public") "node" ∅))
  | _ => False
  end.
Proof. by vm_compute. Qed.

(** With [--force] the old registry is removed before the specification is looked
    for: a name that is not there costs the registry. *)
Example force_loses_registry :
  let old := (["/"; "keys"; "keys.yaml"], File (mkAttrs 420 7 7) "old") in
  let '(r, (d', _)) :=
    key_registry_action None (Some (example_args {["force"]})) (example_tree [old] [], 0) in
  is_ok r = false ∧ path_exists "/keys/keys.yaml" d' = false.
Proof. by vm_compute. Qed.
End CliExample.
