(* ===== verification/CliCerts.v ===== *)
(** * Certificates

    Models [cli/src/action/certs.rs]: the certificates and keys that
    [splinter cert generate] makes, and how their files are written, skipped or
    refused; [splinterd/src/certs.rs] makes certificates the same way.  OpenSSL is an
    interface: what it makes are keys and signatures, and any of its calls may
    fail. *)

From stdpp Require Import gmap.
From Stdlib Require Import ZArith Lia.
From S2P Require Import Prelude Framing Storage Hex Keys FileTree Cli.

(** ** X.509 *)

Inductive Extension :=
  | BasicConstraints (critical ca : bool)
  | KeyUsage (key_cert_sign : bool)
  | ExtendedKeyUsage (server_auth client_auth : bool).

(** What a certificate says.  The times are in days from now. *)
Record CertBody (PubKey : Type) := mkCertBody {
  cb_version : Z;
  cb_serial_number : option Z;
  cb_subject_name : string;
  cb_issuer_name : string;
  cb_pubkey : option PubKey;
  cb_not_before : Z;
  cb_not_after : Z;
  cb_extensions : list Extension;
}.
Arguments mkCertBody {PubKey} _ _ _ _ _ _ _ _.
Arguments cb_version {PubKey} _.
Arguments cb_serial_number {PubKey} _.
Arguments cb_subject_name {PubKey} _.
Arguments cb_issuer_name {PubKey} _.
Arguments cb_pubkey {PubKey} _.
Arguments cb_not_before {PubKey} _.
Arguments cb_not_after {PubKey} _.
Arguments cb_extensions {PubKey} _.

(** The keys, the signatures and the files of OpenSSL; [ssl_call] stands for the calls
    that can only fail. *)
Class OpenSsl (W PKey PubKey Sig : Type) := {
  rsa_generate : Z → eff W string PKey;
  ssl_call : eff W string ();
  rand_serial : Z → eff W string Z;
  public_part : PKey → PubKey;
  ssl_sign : PKey → CertBody PubKey → Sig;
  ssl_verifies : PubKey → CertBody PubKey → Sig → bool;
  cert_to_pem : CertBody PubKey * Sig → result string bytes;
  cert_from_pem : bytes → result string (CertBody PubKey * Sig);
  key_to_pem : PKey → result string bytes;
  key_from_pem : bytes → result string PKey;
}.
Class OpenSslLaws (W PKey PubKey Sig : Type) `{!OpenSsl W PKey PubKey Sig} : Prop := {
  sign_verifies k b : ssl_verifies (public_part k) b (ssl_sign k b) = true;
  cert_read_back c b : cert_to_pem c = Ok b → cert_from_pem b = Ok c;
  key_read_back k b : key_to_pem k = Ok b → key_from_pem b = Ok k;
}.

Module Certs.

Definition DEFAULT_CERT_DIR : string := "/etc/splinter/certs/".
Definition CLIENT_CERT : string := "client.crt".
Definition CLIENT_KEY : string := "client.key".
Definition SERVER_CERT : string := "server.crt".
Definition SERVER_KEY : string := "server.key".
Definition CA_CERT : string := "generated_ca.pem".
Definition CA_KEY : string := "generated_ca.key".

Section certs.
Context {W PKey PubKey Sig : Type} {Hssl : OpenSsl W PKey PubKey Sig}.

Abbreviation X509 := (CertBody PubKey * Sig)%type.

(** [X509::builder], and a call that sets a part *)
Definition builder : CertBody PubKey := mkCertBody 0 None "" "" None 0 0 [].
Definition set_part (f : CertBody PubKey → CertBody PubKey) (b : CertBody PubKey) :
    eff W string (CertBody PubKey) := ssl_call;; mret (f b).
Definition set_version (v : Z) : CertBody PubKey → CertBody PubKey := λ b,
  mkCertBody v (cb_serial_number b) (cb_subject_name b) (cb_issuer_name b) (cb_pubkey b)
    (cb_not_before b) (cb_not_after b) (cb_extensions b).
Definition set_serial_number (n : Z) : CertBody PubKey → CertBody PubKey := λ b,
  mkCertBody (cb_version b) (Some n) (cb_subject_name b) (cb_issuer_name b) (cb_pubkey b)
    (cb_not_before b) (cb_not_after b) (cb_extensions b).
Definition set_names (subject issuer : string) : CertBody PubKey → CertBody PubKey := λ b,
  mkCertBody (cb_version b) (cb_serial_number b) subject issuer (cb_pubkey b)
    (cb_not_before b) (cb_not_after b) (cb_extensions b).
Definition set_pubkey (k : PKey) : CertBody PubKey → CertBody PubKey := λ b,
  mkCertBody (cb_version b) (cb_serial_number b) (cb_subject_name b) (cb_issuer_name b)
    (Some (public_part k)) (cb_not_before b) (cb_not_after b) (cb_extensions b).
Definition set_times (from to : Z) : CertBody PubKey → CertBody PubKey := λ b,
  mkCertBody (cb_version b) (cb_serial_number b) (cb_subject_name b) (cb_issuer_name b) (cb_pubkey b)
    from to (cb_extensions b).
Definition append_extension (e : Extension) : CertBody PubKey → CertBody PubKey := λ b,
  mkCertBody (cb_version b) (cb_serial_number b) (cb_subject_name b) (cb_issuer_name b) (cb_pubkey b)
    (cb_not_before b) (cb_not_after b) (cb_extensions b ++ [e]).

(** A new key, and the name [CN = name] *)
Definition new_key_and_name : eff W string PKey :=
  privkey ← rsa_generate 2048;
  ssl_call;;
  ssl_call;;
  mret privkey.

Definition make_ca_cert : eff W string (PKey * X509) :=
  privkey ← new_key_and_name;
  b ← set_part (set_version 2) builder;
  b ← set_part (set_names "generated_ca" "generated_ca") b;
  b ← set_part (set_pubkey privkey) b;
  b ← set_part (set_times 0 365) b;
  b ← set_part (append_extension (BasicConstraints true true)) b;
  b ← set_part (append_extension (KeyUsage true)) b;
  ssl_call;;
  mret (privkey, (b, ssl_sign privkey b)).

Definition make_ca_signed_cert (ca_cert : X509) (ca_privkey : PKey) (common_name : string) :
    eff W string (PKey * X509) :=
  privkey ← new_key_and_name;
  b ← set_part (set_version 2) builder;
  serial ← rand_serial 159;
  b ← set_part (set_serial_number serial) b;
  b ← set_part (set_names common_name (cb_subject_name ca_cert.1)) b;
  b ← set_part (set_pubkey privkey) b;
  b ← set_part (set_times 0 365) b;
  b ← set_part (append_extension (ExtendedKeyUsage true true)) b;
  ssl_call;;
  mret (privkey, (b, ssl_sign ca_privkey b)).

(** ** Files *)

(** [From<io::Error>] and [From<ErrorStack>] *)
Abbreviation io_result := (on_fs (W := W) ActionError).
Abbreviation ssl_result := (in_lib ActionError).

Definition absolute_path (p : string) : eff (Fs * W) CliError string :=
  path ← io_result (canonicalize p);
  lift (ok_or (ActionError "Path is not valid unicode") (to_str path)).

(** Writes a file under another name and renames it. *)
Definition write_file (dir file_name : string) (b : bytes) : eff (Fs * W) CliError () :=
  temp_path ← lift (ok_or (ActionError "Path is not valid unicode")
    (to_str (join dir ("." +:+ file_name +:+ ".new"))));
  final_path ← lift (ok_or (ActionError "Path is not valid unicode") (to_str (join dir file_name)));
  file ← io_result (open_write true 416 temp_path);
  _ ← io_result (write_all file b);
  dir_info ← on_fs EnvironmentError (metadata dir);
  _ ← in_fs (chown temp_path (a_uid dir_info) (a_gid dir_info));
  io_result (rename temp_path final_path).

Definition write_pair (cert_path private_cert_path cert_name key_name : string) (pair : PKey * X509) :
    eff (Fs * W) CliError () :=
  pem ← lift (map_err ActionError (cert_to_pem pair.2));
  _ ← write_file cert_path cert_name pem;
  key ← lift (map_err ActionError (key_to_pem pair.1));
  write_file private_cert_path key_name key.

Definition write_ca (cert_path private_cert_path : string) : eff (Fs * W) CliError (PKey * X509) :=
  ca ← ssl_result make_ca_cert;
  _ ← write_pair cert_path private_cert_path CA_CERT CA_KEY ca;
  mret ca.
Definition write_server (cert_path private_cert_path : string) (ca : PKey * X509) (common_name : string) :
    eff (Fs * W) CliError () :=
  server ← ssl_result (make_ca_signed_cert ca.2 ca.1 common_name);
  write_pair cert_path private_cert_path SERVER_CERT SERVER_KEY server.
Definition write_client (cert_path private_cert_path : string) (ca : PKey * X509) (common_name : string) :
    eff (Fs * W) CliError () :=
  client ← ssl_result (make_ca_signed_cert ca.2 ca.1 common_name);
  write_pair cert_path private_cert_path CLIENT_CERT CLIENT_KEY client.

Definition create_all_certs (cert_path private_cert_path common_name : string) : eff (Fs * W) CliError () :=
  ca ← write_ca cert_path private_cert_path;
  _ ← write_client cert_path private_cert_path ca common_name;
  write_server cert_path private_cert_path ca common_name.

Definition get_ca_cert (p : string) : eff (Fs * W) CliError X509 :=
  b ← io_result (read p);
  lift (map_err ActionError (cert_from_pem b)).
Definition get_ca_key (p : string) : eff (Fs * W) CliError PKey :=
  b ← io_result (read p);
  lift (map_err ActionError (key_from_pem b)).

(** What is logged has the absolute paths of directories and files. *)
Fixpoint log_paths (ps : list string) : eff (Fs * W) CliError () :=
  match ps with
  | [] => mret ()
  | p :: ps => _ ← absolute_path p; log_paths ps
  end.
(** [info!], whose arguments are not evaluated when only errors are logged *)
Definition log_info (quiet : bool) (ps : list string) : eff (Fs * W) CliError () :=
  if quiet then mret () else log_paths ps.
Definition log_writing (quiet : bool) (cert_path private_cert_path : string) : eff (Fs * W) CliError () :=
  log_info quiet [cert_path; private_cert_path; cert_path; private_cert_path; cert_path; private_cert_path].
Definition log_overwriting (quiet : bool) (cert_path private_cert_path : string) : eff (Fs * W) CliError () :=
  log_info quiet [cert_path; private_cert_path; cert_path; private_cert_path; cert_path; private_cert_path].

Definition exists_now (p : string) : eff (Fs * W) CliError bool := λ st, (Ok (path_exists p st.1), st).

(** One of a certificate and its key is there without the other. *)
Definition check_pair (cert_path private_cert_path cert_file key_file cert_name key_name : string) :
    eff (Fs * W) CliError () :=
  c ← exists_now cert_file;
  k ← exists_now key_file;
  if (c || k) && negb (c && k) then
    if c : bool then
      dir ← absolute_path cert_path;
      throw (ActionError ("Matching key for the certificate is missing: " +:+ dir +:+ "/" +:+ key_name +:+ " "))
    else
      dir ← absolute_path private_cert_path;
      throw (ActionError ("Matching certificate for the key is missing: " +:+ dir +:+ "/" +:+ cert_name +:+ " "))
  else mret ().

(** The pair is left alone if it is there, and made otherwise. *)
Definition skip_or_make {A} (quiet : bool) (cert_path private_cert_path cert_file key_file : string)
    (there make : eff (Fs * W) CliError A) : eff (Fs * W) CliError A :=
  c ← exists_now cert_file;
  k ← exists_now key_file;
  if c && k then _ ← log_info quiet [cert_file; key_file]; there
  else _ ← log_info quiet [cert_path; private_cert_path]; make.

Definition handle_skip (quiet : bool) (cert_dir private_cert_path common_name : string) : eff (Fs * W) CliError () :=
  let client_cert := join cert_dir CLIENT_CERT in
  let server_cert := join cert_dir SERVER_CERT in
  let ca_cert := join cert_dir CA_CERT in
  let client_key := join private_cert_path CLIENT_KEY in
  let server_key := join private_cert_path SERVER_KEY in
  let ca_key := join private_cert_path CA_KEY in
  '(d, _) ← get;
  if forallb (λ p, path_exists p d) [client_cert; client_key; server_cert; server_key; ca_cert; ca_key] then
    log_info quiet [client_cert; client_key; server_cert; server_key; ca_cert; ca_key]
  else
    _ ← check_pair cert_dir private_cert_path ca_cert ca_key CA_CERT CA_KEY;
    _ ← check_pair cert_dir private_cert_path client_cert client_key CLIENT_CERT CLIENT_KEY;
    _ ← check_pair cert_dir private_cert_path server_cert server_key SERVER_CERT SERVER_KEY;
    ca ← skip_or_make quiet cert_dir private_cert_path ca_cert ca_key
      (c ← get_ca_cert ca_cert; k ← get_ca_key ca_key; mret (k, c))
      (write_ca cert_dir private_cert_path);
    _ ← skip_or_make quiet cert_dir private_cert_path client_cert client_key (mret ())
      (write_client cert_dir private_cert_path ca common_name);
    skip_or_make quiet cert_dir private_cert_path server_cert server_key (mret ())
      (write_server cert_dir private_cert_path ca common_name).

(** The file is reported when it exists. *)
Fixpoint report_existing (ps : list string) : eff (Fs * W) CliError bool :=
  match ps with
  | [] => mret false
  | p :: ps =>
      e ← exists_now p;
      _ ← (if e : bool then log_paths [p] else mret ());
      errored ← report_existing ps;
      mret (e || errored)
  end.

(** A directory that can be written. *)
Definition check_writable (dir what : string) : eff (Fs * W) CliError () :=
  info ← attempt (λ '(d, w), let '(r, d) := metadata dir d in (r, (d, w)));
  match info with
  | Ok a =>
      if readonly a then
        path ← absolute_path dir; throw (ActionError (what +:+ " directory is not writeable: " +:+ path))
      else mret ()
  | Err err =>
      path ← absolute_path dir;
      throw (ActionError ("Cannot check if cert directory " +:+ path +:+ " is writable: " +:+ err))
  end.

(** [CertGenAction]; [env] is the variable [SPLINTER_CERT_DIR] *)
Definition cert_gen_action (env : option string) : Action (Fs * W) := λ arg_matches,
  args ← lift (ok_or RequiresArgs arg_matches);
  let quiet := is_present "quiet" args in
  let common_name := default "localhost" (value_of "common_name" args) in
  let cert_dir := match value_of "cert_dir" args with
                  | Some dir => dir
                  | None => default DEFAULT_CERT_DIR env
                  end in
  '(d, _) ← get;
  if negb (is_dir cert_dir d) then throw (ActionError ("Cert directory does not exist: " +:+ cert_dir)) else
  let private_cert_path := join cert_dir "private/" in
  _ ← (if is_dir private_cert_path d then mret ()
       else on_fs (λ err, ActionError ("Unable to create private directory: " +:+ err))
              (create_dir_all private_cert_path));
  _ ← check_writable cert_dir "Cert";
  _ ← check_writable private_cert_path "Private cert";
  if is_present "skip" args then handle_skip quiet cert_dir private_cert_path common_name
  else if negb (is_present "force" args) then
    errored ← report_existing
      [join cert_dir CLIENT_CERT; join private_cert_path CLIENT_KEY; join cert_dir SERVER_CERT;
       join private_cert_path SERVER_KEY; join cert_dir CA_CERT; join private_cert_path CA_KEY];
    if errored : bool then throw (ActionError "Refusing to overwrite files, exiting")
    else
      _ ← log_writing quiet cert_dir private_cert_path;
      create_all_certs cert_dir private_cert_path common_name
  else
    _ ← log_overwriting quiet cert_dir private_cert_path;
    create_all_certs cert_dir private_cert_path common_name.
End certs.
End Certs.
