(* ===== verification/CliCertsProps.v ===== *)
(** * What [splinter cert generate] leaves behind

    Whatever fails on the way, each file of a certificate or key is as it was or has
    the whole of a new one; files that are there are only replaced with [--force];
    and when the command succeeds, the certificates are signed by the CA whose files
    are there. *)

From stdpp Require Import gmap.
From Stdlib Require Import ZArith Lia.
From S2P Require Import Prelude Framing Storage Hex Keys FileTree Cli CliProps CliCerts.
Import Certs.

Section files.
Context {W PKey PubKey Sig : Type} {Hssl : OpenSsl W PKey PubKey Sig}.

(** The text of a certificate or of a key. *)
Definition pem (b : bytes) : Prop := (∃ c, cert_to_pem c = Ok b) ∨ (∃ k, key_to_pem k = Ok b).

(** Outside of [temps], the places [ks] may have got a whole new file; all else is as
    it was. *)
Definition installs (ks temps : list (list string)) (d d' : Fs) : Prop :=
  ∀ k, k ∉ temps → fs_nodes d' !! k = fs_nodes d !! k ∨
    k ∈ ks ∧ ∃ a b, fs_nodes d' !! k = Some (File a b) ∧ pem b.

#[global] Instance installs_preorder ks temps : PreOrder (installs ks temps).
Proof.
  split; [by intros d k Hk; left|]. intros d1 d2 d3 H12 H23 k Hk.
  destruct (H23 k Hk) as [->|?]; [by apply H12|by right].
Qed.
Lemma installs_mono ks ks' temps d d' : ks ⊆ ks' → installs ks temps d d' → installs ks' temps d d'.
Proof. intros Hs H k Hk. destruct (H k Hk) as [?|[? ?]]; [by left|right; split; [set_solver|done]]. Qed.
Lemma differ_installs ks ks0 temps d d' : ks0 ⊆ temps → differ_at ks0 d d' → installs ks temps d d'.
Proof. intros Hs Hd k Hk. left. apply (differ_at_lookup _ _ _ _ Hd). set_solver. Qed.

(** [write_file]: the file under its final name is untouched or complete. *)
Lemma wp_write_file dir name b temps d (w : W) :
  let kt := components (join dir ("." +:+ name +:+ ".new")) in
  let kf := components (join dir name) in
  kt ∈ temps → kt ≠ kf → pem b →
  wp (write_file dir name b) (λ r st, installs [kf] temps d st.1 ∧
    match r with
    | Ok _ => ∃ a, fs_nodes st.1 !! kf = Some (File a b) ∧
        (fs_nodes d !! kt = None → a_mode a = Z.ldiff 416 (fs_umask d))
    | Err _ => differ_at [kt] d st.1
    end) (d, w).
Proof.
  intros kt kf Hin Hne Hpem. unfold write_file, to_str, from_utf8.
  assert (Herr : ∀ d', differ_at [kt] d d' → installs [kf] temps d d' ∧ differ_at [kt] d d').
  { intros d' Hd. split; [|done]. by eapply differ_installs; [|done]; set_solver. }
  destruct (valid_utf8 (join dir ("." +:+ name +:+ ".new"))); cbn [ok_or]; wp_go; [|by apply Herr].
  destruct (valid_utf8 (join dir name)); cbn [ok_or]; wp_go; [|by apply Herr].
  apply wp_on_fs, wp_open_truncate.
  { intros d1 err Hd. apply Herr. by apply (differ_at_mono []); [set_solver|]. }
  fold kt. intros d1 a Hd1 Ha H1. cbn [map_err]. wp_go. apply wp_on_fs. eapply wp_write_all; [done|..].
  { intros d2 err Hd2. apply Herr. by etrans. }
  intros d2 Hd2 H2. assert (Hd02 : differ_at [kt] d d2) by by etrans. cbn [map_err]. wp_go.
  apply wp_on_fs, wp_look. intros d3 [info|err] Hd3; cbn [map_err]; wp_go.
  2: { apply Herr. etrans; [done|]. by apply (differ_at_mono []); [set_solver|]. }
  assert (Hd03 : differ_at [kt] d d3) by (etrans; [done|]; by apply (differ_at_mono []); [set_solver|]).
  apply wp_in_fs, wp_chown.
  { intros d4 err Hd4. apply Herr. etrans; [done|]. by apply (differ_at_mono []); [set_solver|]. }
  fold kt. intros d4 n Hn Hd4 H4. assert (Hd04 : differ_at [kt] d d4) by by etrans.
  unfold at_path in Hn, H4. fold kt in Hn, H4.
  rewrite (differ_at_lookup _ _ _ _ Hd3) in Hn by set_solver. rewrite H2 in Hn. injection Hn as <-.
  apply wp_on_fs. eapply wp_rename; [exact H4|done|..].
  { intros d5 err Hd5. apply Herr. etrans; [done|]. by apply (differ_at_mono []); [set_solver|]. }
  fold kt kf. intros d5 Hd5 H5. unfold at_path in H5. fold kf in H5. cbn [map_err set_attrs] in *. split.
  - intros k Hk. destruct (decide (k = kf)) as [->|]; [right; split; [set_solver|eauto]|left].
    rewrite (differ_at_lookup _ _ _ _ Hd5) by set_solver. apply (differ_at_lookup _ _ _ _ Hd04). set_solver.
  - eexists. split; [exact H5|]. intros Hnone. cbn. by rewrite Ha.
Qed.

(** ** The places of the files *)

Definition temp_name (name : string) : string := "." +:+ name +:+ ".new".
Definition certs : list string := [CA_CERT; CLIENT_CERT; SERVER_CERT].
Definition keys : list string := [CA_KEY; CLIENT_KEY; SERVER_KEY].

(** Below the directory of the certificates: the files, and the places that are used
    on the way or are directories. *)
Definition final_suffixes : list (list string) := ((λ n, [n]) <$> certs) ++ ((λ n, ["private"; n]) <$> keys).
Definition temp_suffixes : list (list string) :=
  ["private"] :: ((λ n, [temp_name n]) <$> certs) ++ ((λ n, ["private"; temp_name n]) <$> keys).

Section directory.
Context (cert_dir : string).

Definition place (s : list string) : list string := components cert_dir ++ s.
Definition private_dir : string := join cert_dir "private/".
Definition temps : list (list string) := place <$> temp_suffixes.

Lemma place_in s (l : list (list string)) : place s ∈ (place <$> l) ↔ s ∈ l.
Proof. apply list_elem_of_fmap_inj. intros a b. apply app_inv_head. Qed.
Lemma place_inj s s' : place s = place s' ↔ s = s'.
Proof. split; [apply app_inv_head|by intros ->]. Qed.

Lemma components_cert name :
  no_sep "/" name → name ≠ "" → name ≠ "." → components (join cert_dir name) = place [name].
Proof. apply components_join. Qed.
Lemma components_private : components private_dir = place ["private"].
Proof.
  unfold private_dir. change "private/" with ("private" +:+ "/").
  rewrite components_join_slash; [done| |done..]. by intros [|[|[|[|[|[|[|n]]]]]]].
Qed.
Lemma components_key name :
  no_sep "/" name → name ≠ "" → name ≠ "." → components (join private_dir name) = place ["private"; name].
Proof.
  intros. rewrite components_join by done. rewrite components_private. unfold place. by rewrite <- app_assoc.
Qed.

Lemma name_facts name :
  name ∈ certs ++ keys →
  no_sep "/" name ∧ name ≠ "" ∧ name ≠ "." ∧
  no_sep "/" (temp_name name) ∧ temp_name name ≠ "" ∧ temp_name name ≠ "." ∧
  ([name] ∉ temp_suffixes) ∧ (["private"; name] ∉ temp_suffixes) ∧
  [temp_name name] ≠ [name] ∧ ["private"; temp_name name] ≠ ["private"; name].
Proof.
  assert (Hs : ∀ s, split_on "/" s = [s] → no_sep "/" s).
  { clear. induction s as [|c s IH]; intros H; [apply no_sep_nil|]. apply no_sep_cons. cbn in H.
    case_bool_decide as Hc; [done|]. split; [done|]. apply IH.
    destruct (split_on "/" s) as [|x l] eqn:E; [by apply split_on_nonempty in E|]. by injection H as -> ->. }
  intros Hin. cbn in Hin. repeat (apply elem_of_cons in Hin as [->|Hin]; [split_and!;
    try (apply Hs; reflexivity); try (by vm_compute); by apply (bool_decide_unpack _); vm_compute|]).
  by apply elem_of_nil in Hin.
Qed.

(** ** What the files have *)

Definition cert_at (name : string) (c : CertBody PubKey * Sig) (d : Fs) : Prop :=
  ∃ a b, fs_nodes d !! place [name] = Some (File a b) ∧ cert_from_pem b = Ok c.
Definition key_at (name : string) (k : PKey) (d : Fs) : Prop :=
  ∃ a b, fs_nodes d !! place ["private"; name] = Some (File a b) ∧ key_from_pem b = Ok k.

(** The pair of files of a certificate and its key. *)
Definition pair_places (cert key : string) : list (list string) := place <$> [[cert]; ["private"; key]].

Lemma installs_other ks d d' s :
  installs ks temps d d' → s ∉ temp_suffixes → place s ∉ ks → fs_nodes d' !! place s = fs_nodes d !! place s.
Proof.
  intros Hi Hs Hk. destruct (Hi (place s)) as [?|[? _]]; [|done|done]. unfold temps. by rewrite place_in.
Qed.
Lemma cert_at_later ks name c d d' :
  name ∈ certs → installs ks temps d d' → place [name] ∉ ks → cert_at name c d → cert_at name c d'.
Proof.
  intros Hn Hi Hk (a & b & Hb & Hc). exists a, b. split; [|done].
  destruct (name_facts name) as (_&_&_&_&_&_&Ht&_); [set_solver|]. by rewrite (installs_other _ _ _ _ Hi).
Qed.
Lemma key_at_later ks name c d d' :
  name ∈ keys → installs ks temps d d' → place ["private"; name] ∉ ks → key_at name c d → key_at name c d'.
Proof.
  intros Hn Hi Hk (a & b & Hb & Hc). exists a, b. split; [|done].
  destruct (name_facts name) as (_&_&_&_&_&_&_&Ht&_); [set_solver|]. by rewrite (installs_other _ _ _ _ Hi).
Qed.

Context {Hlaws : OpenSslLaws W PKey PubKey Sig}.

Lemma wp_write_pair cert key pair d (w : W) :
  cert ∈ certs → key ∈ keys →
  wp (write_pair cert_dir private_dir cert key pair) (λ r st,
    installs (pair_places cert key) temps d st.1 ∧
    (r = Ok () → cert_at cert pair.2 st.1 ∧ key_at key pair.1 st.1)) (d, w).
Proof.
  intros Hc Hk. destruct (name_facts cert) as (Hc1&Hc2&Hc3&Hc4&Hc5&Hc6&Hc7&Hc8&Hc9&Hc10); [set_solver|].
  destruct (name_facts key) as (Hk1&Hk2&Hk3&Hk4&Hk5&Hk6&Hk7&Hk8&Hk9&Hk10); [set_solver|].
  unfold write_pair. destruct (cert_to_pem pair.2) as [pc|e] eqn:Hpc; cbn [map_err]; wp_go; [|done].
  eapply wp_mono; [apply (wp_write_file _ _ _ temps); [| |left; eauto]|].
  { fold (temp_name cert). rewrite components_cert by done. apply place_in.
    right. apply elem_of_app. left. by apply (list_elem_of_fmap_2 (λ n, [temp_name n])). }
  { fold (temp_name cert). rewrite !components_cert by done. by rewrite place_inj. }
  intros r1 [d1 w1] [Hi1 H1]. rewrite components_cert in Hi1, H1 by done. cbn [fst] in *.
  assert (Hi1' : installs (pair_places cert key) temps d d1) by (eapply installs_mono; [|done]; set_solver).
  destruct r1 as [[]|e]; [|done]. destruct H1 as (a & Ha & _). wp_go.
  destruct (key_to_pem pair.1) as [pk|e] eqn:Hpk; cbn [map_err]; wp_go; [|done].
  eapply wp_mono; [apply (wp_write_file _ _ _ temps); [| |right; eauto]|].
  { fold (temp_name key). rewrite components_key by done. apply place_in.
    right. apply elem_of_app. right. by apply (list_elem_of_fmap_2 (λ n, ["private"; temp_name n])). }
  { fold (temp_name key). rewrite !components_key by done. by rewrite place_inj. }
  intros r2 [d2 w2] [Hi2 H2]. rewrite components_key in Hi2, H2 by done. cbn [fst] in *. split.
  { etrans; [done|]. eapply installs_mono; [|done]. set_solver. }
  intros ->. destruct H2 as (a' & Ha' & _). split.
  - apply (cert_at_later _ _ _ _ _ Hc Hi2); [by rewrite list_elem_of_singleton, place_inj|].
    exists a, pc. split; [done|]. by apply cert_read_back.
  - exists a', pk. split; [done|]. by apply key_read_back.
Qed.

Definition finals : list (list string) := place <$> final_suffixes.

Lemma pair_places_finals cert key : cert ∈ certs → key ∈ keys → pair_places cert key ⊆ finals.
Proof.
  intros Hc Hk x. unfold pair_places, finals. intros (s & -> & Hs)%list_elem_of_fmap. apply place_in.
  unfold final_suffixes. apply elem_of_app. repeat (apply elem_of_cons in Hs as [->|Hs]).
  - left. by apply (list_elem_of_fmap_2 (λ n, [n])).
  - right. by apply (list_elem_of_fmap_2 (λ n, ["private"; n])).
  - by apply elem_of_nil in Hs.
Qed.

(** ** Certificates *)

(** A certificate for a year, for the holder of its key, signed by the CA. *)
Definition signed_by (ca : PKey * (CertBody PubKey * Sig)) (common_name : string)
    (pair : PKey * (CertBody PubKey * Sig)) : Prop :=
  cb_subject_name pair.2.1 = common_name ∧ cb_issuer_name pair.2.1 = cb_subject_name ca.2.1 ∧
  cb_pubkey pair.2.1 = Some (public_part pair.1) ∧
  ssl_verifies (public_part ca.1) pair.2.1 pair.2.2 = true ∧
  cb_not_before pair.2.1 = 0%Z ∧ cb_not_after pair.2.1 = 365%Z ∧
  ExtendedKeyUsage true true ∈ cb_extensions pair.2.1.
(** The certificate of the CA is signed with its own key, and allows it to sign. *)
Definition self_signed (ca : PKey * (CertBody PubKey * Sig)) : Prop :=
  cb_subject_name ca.2.1 = cb_issuer_name ca.2.1 ∧ cb_pubkey ca.2.1 = Some (public_part ca.1) ∧
  ssl_verifies (public_part ca.1) ca.2.1 ca.2.2 = true ∧
  BasicConstraints true true ∈ cb_extensions ca.2.1.

Lemma wp_set_part f b Q (w : W) :
  (∀ r w', r = Ok (f b) ∨ is_ok r = false → Q r w') → wp (set_part f b) Q w.
Proof.
  intros H. unfold set_part. wp_go. apply wp_any. intros [[]|e] w'; wp_go; apply H; [by left|by right].
Qed.

Lemma make_ca_cert_ok (w : W) :
  wp make_ca_cert (λ r _, match r with Ok ca => self_signed ca | Err _ => True end) w.
Proof.
  unfold make_ca_cert. wp_go. apply wp_any. intros [k|e] w1; [|done].
  repeat (wp_go; apply wp_set_part; intros r ? [->|Hr]; [|by destruct r]).
  wp_go. apply wp_any. intros [[]|e] w2; [|done]. wp_go.
  split_and!; [done..|apply sign_verifies|cbn; set_solver].
Qed.

Lemma make_ca_signed_cert_ok ca common_name (w : W) :
  wp (make_ca_signed_cert ca.2 ca.1 common_name)
    (λ r _, match r with Ok cp => signed_by ca common_name cp | Err _ => True end) w.
Proof.
  unfold make_ca_signed_cert. wp_go. apply wp_any. intros [k|e] w1; [|done].
  wp_go. apply wp_set_part. intros r ? [->|Hr]; [|by destruct r]. wp_go.
  apply wp_any. intros [n|e] w2; [|done].
  repeat (wp_go; apply wp_set_part; intros r ? [->|Hr]; [|by destruct r]).
  wp_go. apply wp_any. intros [[]|e] w3; [|done]. wp_go.
  split_and!; [done..|apply sign_verifies|done|done|cbn; set_solver].
Qed.

(** The files have a certificate that the CA of the files signed. *)
Definition ca_at (ca : PKey * (CertBody PubKey * Sig)) (d : Fs) : Prop :=
  cert_at CA_CERT ca.2 d ∧ key_at CA_KEY ca.1 d.
Definition issued (common_name cert key : string) (d : Fs) : Prop :=
  ∃ ca pair, ca_at ca d ∧ cert_at cert pair.2 d ∧ key_at key pair.1 d ∧ signed_by ca common_name pair.

Ltac places := unfold pair_places; rewrite place_in; apply (bool_decide_unpack _); by vm_compute.

Lemma wp_write_ca d (w : W) :
  wp (write_ca cert_dir private_dir) (λ r st, installs (pair_places CA_CERT CA_KEY) temps d st.1 ∧
    match r with Ok ca => self_signed ca ∧ ca_at ca st.1 | Err _ => True end) (d, w).
Proof.
  unfold write_ca. wp_go. apply wp_in_lib_spec. eapply wp_mono; [apply make_ca_cert_ok|].
  intros [ca|e] w1 Hca; cbn [map_err]; [|done]. wp_go. eapply wp_mono; [apply wp_write_pair; set_solver|].
  intros [[]|e] [d2 w2] [Hi H2]; wp_go; [|done]. split; [done|]. split; [done|]. by apply H2.
Qed.

(** [write_client] and [write_server] *)
Lemma wp_write_signed cert key ca common_name d (w : W) (m : eff (Fs * W) CliError ()) :
  (cert, key) ∈ [(CLIENT_CERT, CLIENT_KEY); (SERVER_CERT, SERVER_KEY)] →
  m = (pair ← in_lib ActionError (make_ca_signed_cert ca.2 ca.1 common_name);
       write_pair cert_dir private_dir cert key pair) →
  ca_at ca d →
  wp m (λ r st, installs (pair_places cert key) temps d st.1 ∧ ca_at ca st.1 ∧
    (r = Ok () → issued common_name cert key st.1)) (d, w).
Proof.
  intros Hin -> [Hc Hk]. wp_go. apply wp_in_lib_spec. eapply wp_mono; [apply make_ca_signed_cert_ok|].
  intros [cp|e] w1 Hs; cbn [map_err]; [|done]. wp_go.
  assert (cert ∈ certs ∧ key ∈ keys ∧ (place [CA_CERT] ∉ pair_places cert key) ∧
    (place ["private"; CA_KEY] ∉ pair_places cert key)) as (H1 & H2 & H3 & H4).
  { repeat (apply elem_of_cons in Hin as [Hin|Hin]; [injection Hin as -> ->;
      split_and!; [set_solver..|places|places]|]). by apply elem_of_nil in Hin. }
  eapply wp_mono; [by apply wp_write_pair|]. intros r [d2 w2] [Hi Hr]. cbn [fst] in *.
  assert (ca_at ca d2) as Hca by (split; [by eapply cert_at_later; [set_solver|..]|by eapply key_at_later; [set_solver|..]]).
  split_and!; [done..|]. intros ->. destruct (Hr eq_refl). by exists ca, cp.
Qed.

(** A pair that is written later leaves a certificate alone. *)
Lemma issued_later ks common_name cert key d d' :
  cert ∈ certs → key ∈ keys → installs ks temps d d' →
  place [CA_CERT] ∉ ks → place ["private"; CA_KEY] ∉ ks → place [cert] ∉ ks → place ["private"; key] ∉ ks →
  issued common_name cert key d → issued common_name cert key d'.
Proof.
  intros Hc Hk Hi H1 H2 H3 H4 (ca & cp & [Hca Hcak] & Hcert & Hkey & Hs). exists ca, cp.
  split_and!; [split|..]; try done;
    (eapply cert_at_later || eapply key_at_later); try done; set_solver.
Qed.

Lemma installs_finals cert key d d' :
  cert ∈ certs → key ∈ keys → installs (pair_places cert key) temps d d' → installs finals temps d d'.
Proof. intros. eapply installs_mono; [by apply pair_places_finals|done]. Qed.

Lemma wp_create_all_certs common_name d (w : W) :
  wp (create_all_certs cert_dir private_dir common_name) (λ r st, installs finals temps d st.1 ∧
    (r = Ok () → issued common_name CLIENT_CERT CLIENT_KEY st.1 ∧ issued common_name SERVER_CERT SERVER_KEY st.1))
    (d, w).
Proof.
  unfold create_all_certs. wp_go. eapply wp_mono; [apply wp_write_ca|]. intros r1 [d1 w1] [Hi1 H1].
  cbn [fst] in *. apply installs_finals in Hi1; [|set_solver..]. destruct r1 as [ca|]; [|done].
  wp_go. eapply wp_mono; [apply (wp_write_signed CLIENT_CERT CLIENT_KEY ca); [set_solver|done|apply H1]|].
  intros r2 [d2 w2] (Hi2 & Hca2 & H2). cbn [fst] in *. apply installs_finals in Hi2; [|set_solver..].
  destruct r2 as [[]|]; [|split; [by etrans|done]].
  eapply wp_mono; [apply (wp_write_signed SERVER_CERT SERVER_KEY ca); [set_solver|done..]|].
  intros r3 [d3 w3] (Hi3 & Hca3 & H3). cbn [fst] in *. split.
  - etrans; [done|]. etrans; [done|]. eapply installs_finals; [| |done]; set_solver.
  - intros ->. split; [|by apply H3]. eapply issued_later; [set_solver..|done|places|places|places|places|by apply H2].
Qed.

(** ** Looking *)

Definition same (d d' : Fs) : Prop := fs_nodes d' = fs_nodes d.

Lemma differ_same d d' : differ_at [] d d' → same d d'.
Proof. intros Hd. apply map_eq. intros k. apply (differ_at_lookup _ _ _ _ Hd). set_solver. Qed.
Lemma same_exists p d d' : same d d' → path_exists p d' = path_exists p d.
Proof. unfold path_exists, at_path. by intros ->. Qed.

Lemma wp_log_paths ps Q d (w : W) :
  (∀ r d' w', same d d' → Q r (d', w')) → wp (log_paths ps) Q (d, w).
Proof.
  revert d w. induction ps as [|p ps IH]; intros d w HQ; cbn [log_paths]; wp_go; [by apply HQ|].
  unfold absolute_path. wp_go. apply wp_on_fs, wp_look. intros d1 [path|e] Hd%differ_same; cbn [map_err]; wp_go;
    [|by apply HQ]. destruct (to_str path); cbn [ok_or]; wp_go; [|by apply HQ].
  apply IH. intros r d2 w2 Hs. apply HQ. unfold same in *. congruence.
Qed.
Lemma wp_log_info quiet ps Q d (w : W) :
  (∀ r d' w', same d d' → Q r (d', w')) → wp (log_info quiet ps) Q (d, w).
Proof. unfold log_info. destruct quiet; [|apply wp_log_paths]. intros HQ. wp_go. by apply HQ. Qed.

Lemma wp_report_existing ps Q d (w : W) :
  (∀ r d' w', same d d' → (∀ e, r = Ok e → e = existsb (λ p, path_exists p d) ps) → Q r (d', w')) →
  wp (report_existing ps) Q (d, w).
Proof.
  revert Q d w. induction ps as [|p ps IH]; intros Q d w HQ; cbn [report_existing]; wp_go.
  { apply HQ; [done|]. by intros e [= <-]. }
  unfold exists_now. wp_go. unfold wp at 1. cbn [fst]. wp_go.
  assert (Hrec : ∀ d' w', same d d' → wp (report_existing ps) (λ r st,
    match r with Ok e => wp (mret (path_exists p d || e)) Q st | Err e => Q (Err e) st end) (d', w')).
  { intros d' w' Hs. apply IH. intros r d2 w2 Hs2 Hr.
    assert (same d d2) by (unfold same in *; congruence). destruct r as [e|e]; wp_go; apply HQ; [done| |done|done].
    intros e' [= <-]. rewrite (Hr e eq_refl). cbn. unfold path_exists, at_path. by rewrite Hs. }
  destruct (path_exists p d) eqn:Hp; wp_go; [|by apply Hrec].
  apply wp_log_paths. intros r d1 w1 Hs. destruct r; [wp_go; by apply Hrec|by apply HQ].
Qed.

Lemma wp_exists_now p Q d (w : W) : Q (Ok (path_exists p d)) (d, w) → wp (exists_now p) Q (d, w).
Proof. done. Qed.

(** The checks of [handle_skip] only look; when they pass, a certificate is there
    exactly if its key is. *)
Lemma wp_check_pair cp pp cf kf cert key Q d (w : W) :
  (∀ e d' w', same d d' → Q (Err e) (d', w')) →
  (path_exists cf d = path_exists kf d → Q (Ok ()) (d, w)) →
  wp (check_pair cp pp cf kf cert key) Q (d, w).
Proof.
  intros He Hok. unfold check_pair. wp_go. apply wp_exists_now. wp_go. apply wp_exists_now.
  assert (Hthrow : ∀ p f, wp (dir ← absolute_path p; throw (f dir)) Q (d, w)).
  { intros p f. wp_go. unfold absolute_path. wp_go. apply wp_on_fs, wp_look.
    intros d1 [x|e] Hd%differ_same; cbn [map_err]; wp_go; [|by apply He].
    destruct (to_str x); cbn [ok_or]; wp_go; by apply He. }
  destruct (path_exists cf d), (path_exists kf d); cbn [orb andb negb];
    [by apply wp_ret, Hok|apply Hthrow|apply Hthrow|by apply wp_ret, Hok].
Qed.

Lemma wp_skip_or_make {A} quiet cp pp cf kf (there make : eff (Fs * W) CliError A) Q d w :
  path_exists cf d = path_exists kf d →
  (∀ e d' w', same d d' → Q (Err e) (d', w')) →
  (∀ d' w', same d d' → path_exists cf d = true → wp there Q (d', w')) →
  (∀ d' w', same d d' → path_exists cf d = false → wp make Q (d', w')) →
  wp (skip_or_make quiet cp pp cf kf there make) Q (d, w).
Proof.
  intros Heq He Ht Hm. unfold skip_or_make. wp_go. apply wp_exists_now. wp_go. apply wp_exists_now.
  rewrite <- Heq. destruct (path_exists cf d); cbn [andb]; wp_go; apply wp_log_info;
    intros [[]|e] d' w' Hs; auto.
Qed.

(** What is there outside of [temps] stays as it is. *)
Definition kept (d d' : Fs) : Prop :=
  ∀ k n, k ∉ temps → fs_nodes d !! k = Some n → fs_nodes d' !! k = Some n.
#[local] Instance kept_preorder : PreOrder kept.
Proof. split; [by intros d k n|]. intros d1 d2 d3 H1 H2 k n Hk Hn. by apply H2, H1. Qed.

Definition pair_kept (cert key : string) (d d' : Fs) : Prop :=
  ∀ s, s ∈ [[cert]; ["private"; key]] →
    is_Some (fs_nodes d !! place s) ∧ fs_nodes d' !! place s = fs_nodes d !! place s.
(** The pair was there and is as it was, or it is new. *)
Definition settled (common_name cert key : string) (d d' : Fs) : Prop :=
  pair_kept cert key d d' ∨ issued common_name cert key d'.

Lemma installs_kept ks d d' :
  installs ks temps d d' → (∀ k, k ∈ ks → fs_nodes d !! k = None) → kept d d'.
Proof.
  intros Hi Hn k n Hk Hs. destruct (Hi k Hk) as [->|[Hin _]]; [done|]. by rewrite Hn in Hs.
Qed.

(** Steps before and after that leave the pair alone. *)
Lemma settled_around common_name cert key ks ks' d0 d d1 d2 :
  cert ∈ certs → key ∈ keys → installs ks temps d0 d → installs ks' temps d1 d2 →
  (∀ s, s ∈ [[CA_CERT]; ["private"; CA_KEY]; [cert]; ["private"; key]] → place s ∉ ks') →
  (∀ s, s ∈ [[cert]; ["private"; key]] → place s ∉ ks) →
  settled common_name cert key d d1 → settled common_name cert key d0 d2.
Proof.
  intros Hc Hk Hi Hi' Hks' Hks [Hkept|Hiss].
  - left. intros s Hs.
    assert (s ∉ temp_suffixes) as Ht.
    { destruct (name_facts cert) as (_&_&_&_&_&_&H1&_); [set_solver|].
      destruct (name_facts key) as (_&_&_&_&_&_&_&H2&_); [set_solver|]. set_solver. }
    destruct (Hkept s Hs) as [Hsome Heq].
    rewrite (installs_other _ _ _ _ Hi Ht (Hks s Hs)) in Hsome, Heq. split; [done|].
    rewrite (installs_other _ _ _ _ Hi' Ht); [done|]. apply Hks'. set_solver.
  - right. eapply issued_later; [done..| | | | |done]; apply Hks'; set_solver.
Qed.

Lemma exists_place s p d :
  components p = place s → path_exists p d = true ↔ is_Some (fs_nodes d !! place s).
Proof. intros <-. unfold path_exists, at_path. by rewrite bool_decide_eq_true. Qed.

(** The client or the server of [handle_skip] *)
Lemma wp_skip_signed quiet cert key ca common_name d (w : W) (m : eff (Fs * W) CliError ()) :
  (cert, key) ∈ [(CLIENT_CERT, CLIENT_KEY); (SERVER_CERT, SERVER_KEY)] →
  m = (cp ← in_lib ActionError (make_ca_signed_cert ca.2 ca.1 common_name);
       write_pair cert_dir private_dir cert key cp) →
  ca_at ca d → path_exists (join cert_dir cert) d = path_exists (join private_dir key) d →
  wp (skip_or_make quiet cert_dir private_dir (join cert_dir cert) (join private_dir key) (mret ()) m)
    (λ r st, installs (pair_places cert key) temps d st.1 ∧ kept d st.1 ∧ ca_at ca st.1 ∧
       (r = Ok () → settled common_name cert key d st.1)) (d, w).
Proof.
  intros Hin Hm Hca Heq.
  assert (cert ∈ certs ∧ key ∈ keys) as [Hc Hk] by set_solver.
  destruct (name_facts cert) as (Hc1&Hc2&Hc3&_); [set_solver|].
  destruct (name_facts key) as (Hk1&Hk2&Hk3&_); [set_solver|].
  assert (Hca' : ∀ d', same d d' → ca_at ca d') by (unfold ca_at, cert_at, key_at; by intros d' ->).
  assert (Hsame : ∀ d', same d d' → installs (pair_places cert key) temps d d' ∧ kept d d').
  { intros d' Hs. unfold same in Hs. split; [intros k _; left|intros k n _]; by rewrite Hs. }
  apply wp_skip_or_make; [done|..].
  - intros e d' w' Hs. destruct (Hsame d' Hs). split_and!; [done..|by apply Hca'|done].
  - intros d' w' Hs Ht. wp_go. destruct (Hsame d' Hs). split_and!; [done..|by apply Hca'|]. intros _. left.
    intros s [->|[->|[]%elem_of_nil]%elem_of_cons]%elem_of_cons; (split; [|unfold same in Hs; cbn; by rewrite Hs]).
    + apply (exists_place _ (join cert_dir cert)); [by apply components_cert|done].
    + apply (exists_place _ (join private_dir key)); [by apply components_key|congruence].
  - intros d' w' Hs Hf. eapply wp_mono; [by apply wp_write_signed; [..|apply Hca']|].
    intros r [d2 w2] (Hi & Hca2 & Hr). cbn [fst] in *. unfold same in Hs.
    assert (Hi' : installs (pair_places cert key) temps d d2) by (intros k Hk'; rewrite <- Hs; by apply Hi).
    split_and!; [done| |done|intros ->; right; by apply Hr].
    apply (installs_kept (pair_places cert key)); [done|]. unfold pair_places.
    intros k (s & -> & Hin')%list_elem_of_fmap. apply eq_None_not_Some. intros Hsome.
    apply elem_of_cons in Hin' as [->|Hin']; [|apply list_elem_of_singleton in Hin' as ->].
    + apply (exists_place _ (join cert_dir cert)) in Hsome; [congruence|by apply components_cert].
    + apply (exists_place _ (join private_dir key)) in Hsome; [congruence|by apply components_key].
Qed.

(** The places of a pair are none of another one. *)
Ltac other_pair :=
  let s := fresh "s" in let Hs := fresh "Hs" in
  intros s Hs; repeat (apply elem_of_cons in Hs as [->|Hs]; [places|]); by apply elem_of_nil in Hs.

(** The CA of the files, or a new one *)
Lemma wp_read_ca d (w : W) :
  wp (c ← get_ca_cert (join cert_dir CA_CERT); k ← get_ca_key (join private_dir CA_KEY); mret (k, c))
    (λ r st, same d st.1 ∧ match r with Ok ca => ca_at ca st.1 | Err _ => True end) (d, w).
Proof.
  destruct (name_facts CA_CERT) as (Hc1&Hc2&Hc3&_); [set_solver|].
  destruct (name_facts CA_KEY) as (Hk1&Hk2&Hk3&_); [set_solver|].
  assert (Hread : ∀ p d w Q, (∀ r d', same d d' →
      match r with Ok b => ∃ a, fs_nodes d' !! components p = Some (File a b) | Err _ => True end →
      Q (map_err ActionError r) (d', w)) →
    wp (on_fs ActionError (read p)) Q (d, w : W)).
  { clear. intros p d w Q HQ. apply wp_on_fs. apply wp_io.
    { intros o err Ho. by apply HQ. }
    intros o Ho. unfold wp, at_path. cbn. apply HQ; [done|]. cbn.
    destruct (fs_nodes d !! components p) as [[]|]; eauto. }
  unfold get_ca_cert, get_ca_key. wp_go. apply Hread. intros [bc|e] d1 Hs1 Hf1; cbn [map_err]; [|done]. wp_go.
  destruct (cert_from_pem bc) as [c|e] eqn:Hc; cbn [map_err]; wp_go; [|done].
  apply Hread. intros [bk|e] d2 Hs2 Hf2; cbn [map_err]; unfold same in *; [|cbn; by rewrite Hs2]. wp_go.
  destruct (key_from_pem bk) as [k|e] eqn:Hk; cbn [map_err]; wp_go; cbn [fst]; rewrite Hs2; [|done].
  split; [done|]. destruct Hf1 as [a1 Hf1], Hf2 as [a2 Hf2].
  rewrite components_cert in Hf1 by done. rewrite components_key in Hf2 by done.
  split; [exists a1, bc; by rewrite Hs2|by exists a2, bk].
Qed.

Lemma wp_skip_ca quiet d (w : W) :
  path_exists (join cert_dir CA_CERT) d = path_exists (join private_dir CA_KEY) d →
  wp (skip_or_make quiet cert_dir private_dir (join cert_dir CA_CERT) (join private_dir CA_KEY)
        (c ← get_ca_cert (join cert_dir CA_CERT); k ← get_ca_key (join private_dir CA_KEY); mret (k, c))
        (write_ca cert_dir private_dir))
    (λ r st, installs (pair_places CA_CERT CA_KEY) temps d st.1 ∧ kept d st.1 ∧
       match r with Ok ca => ca_at ca st.1 | Err _ => True end) (d, w).
Proof.
  destruct (name_facts CA_CERT) as (Hc1&Hc2&Hc3&_); [set_solver|].
  destruct (name_facts CA_KEY) as (Hk1&Hk2&Hk3&_); [set_solver|].
  intros Heq.
  assert (Hsame : ∀ d', same d d' → installs (pair_places CA_CERT CA_KEY) temps d d' ∧ kept d d').
  { intros d' Hs. unfold same in Hs. split; [intros k _; left|intros k n _]; by rewrite Hs. }
  apply wp_skip_or_make; [done|..].
  - intros e d' w' Hs. destruct (Hsame d' Hs). done.
  - intros d' w' Hs Ht. eapply wp_mono; [apply wp_read_ca|]. intros r [d2 w2] [Hs2 Hr]. cbn [fst] in *.
    assert (same d d2) as [H1 H2]%Hsame by (unfold same in *; congruence). done.
  - intros d' w' Hs Hf. eapply wp_mono; [apply wp_write_ca|]. intros r [d2 w2] (Hi & Hr). cbn [fst] in *.
    unfold same in Hs.
    assert (Hi' : installs (pair_places CA_CERT CA_KEY) temps d d2) by (intros k Hk'; rewrite <- Hs; by apply Hi).
    split_and!; [done| |by destruct r as [ca|]; [destruct Hr|]].
    apply (installs_kept (pair_places CA_CERT CA_KEY)); [done|]. unfold pair_places.
    intros k (s & -> & Hin')%list_elem_of_fmap. apply eq_None_not_Some. intros Hsome.
    apply elem_of_cons in Hin' as [->|Hin']; [|apply list_elem_of_singleton in Hin' as ->].
    + apply (exists_place _ (join cert_dir CA_CERT)) in Hsome; [congruence|by apply components_cert].
    + apply (exists_place _ (join private_dir CA_KEY)) in Hsome; [congruence|by apply components_key].
Qed.

(** A path of the action, seen as a place *)
Lemma exists_at_cert name d :
  name ∈ certs → path_exists (join cert_dir name) d = bool_decide (is_Some (fs_nodes d !! place [name])).
Proof.
  intros Hn. destruct (name_facts name) as (H1&H2&H3&_); [set_solver|].
  unfold path_exists, at_path. by rewrite components_cert.
Qed.
Lemma exists_at_key name d :
  name ∈ keys → path_exists (join private_dir name) d = bool_decide (is_Some (fs_nodes d !! place ["private"; name])).
Proof.
  intros Hn. destruct (name_facts name) as (H1&H2&H3&_); [set_solver|].
  unfold path_exists, at_path. by rewrite components_key.
Qed.

(** Writing another pair does not change whether a pair is there. *)
Lemma exists_later cert key ks d d' :
  cert ∈ certs → key ∈ keys → installs ks temps d d' →
  (∀ s, s ∈ [[cert]; ["private"; key]] → place s ∉ ks) →
  path_exists (join cert_dir cert) d = path_exists (join private_dir key) d →
  path_exists (join cert_dir cert) d' = path_exists (join private_dir key) d'.
Proof.
  intros Hc Hk Hi Hks. rewrite !exists_at_cert, !exists_at_key by done.
  destruct (name_facts cert) as (_&_&_&_&_&_&H1&_); [set_solver|].
  destruct (name_facts key) as (_&_&_&_&_&_&_&H2&_); [set_solver|].
  rewrite !(installs_other _ _ _ _ Hi) by (done || apply Hks; set_solver). done.
Qed.

Lemma wp_handle_skip quiet common_name d (w : W) :
  wp (handle_skip quiet cert_dir private_dir common_name) (λ r st,
    installs finals temps d st.1 ∧ kept d st.1 ∧
    (r = Ok () → settled common_name CLIENT_CERT CLIENT_KEY d st.1 ∧
                 settled common_name SERVER_CERT SERVER_KEY d st.1)) (d, w).
Proof.
  assert (Hsame : ∀ d', same d d' → installs finals temps d d' ∧ kept d d').
  { intros d' Hs. unfold same in Hs. split; [intros k _; left|intros k n _]; by rewrite Hs. }
  unfold handle_skip. wp_go. destruct (forallb _ _) eqn:Hall.
  { apply wp_log_info. intros r d' w' Hs. destruct (Hsame d' Hs). split_and!; [done..|]. intros _.
    cbn [forallb] in Hall. rewrite !andb_true_iff in Hall. rewrite !exists_at_cert, !exists_at_key in Hall by set_solver.
    rewrite !bool_decide_eq_true in Hall. unfold same in Hs. cbn [fst].
    split; left; intros s [->|[->|[]%elem_of_nil]%elem_of_cons]%elem_of_cons; rewrite Hs; (split; [tauto|done]). }
  wp_go. apply wp_check_pair; [intros e d' w' Hs; by destruct (Hsame d' Hs)|]. intros Hca.
  wp_go. apply wp_check_pair; [intros e d' w' Hs; by destruct (Hsame d' Hs)|]. intros Hcl.
  wp_go. apply wp_check_pair; [intros e d' w' Hs; by destruct (Hsame d' Hs)|]. intros Hse.
  wp_go. eapply wp_mono; [by apply wp_skip_ca|]. intros r1 [d1 w1] (Hi1 & Hk1 & H1). cbn [fst] in *.
  destruct r1 as [ca|]; [|split_and!; [eapply installs_finals; [| |done]; set_solver|done..]]. wp_go.
  eapply wp_mono; [apply (wp_skip_signed quiet CLIENT_CERT CLIENT_KEY ca common_name); [set_solver|done|done|]|].
  { eapply exists_later; [set_solver|set_solver|exact Hi1| |done]. other_pair. }
  intros r2 [d2 w2] (Hi2 & Hk2 & Hca2 & H2). cbn [fst] in *.
  assert (Hi02 : installs finals temps d d2).
  { etrans; (eapply installs_finals; [| |done]; set_solver). }
  destruct r2 as [[]|]; [|split_and!; [done|by etrans|done]].
  eapply wp_mono; [apply (wp_skip_signed quiet SERVER_CERT SERVER_KEY ca common_name); [set_solver|done|done|]|].
  { eapply exists_later; [set_solver|set_solver|exact Hi2| |]; [other_pair|].
    eapply exists_later; [set_solver|set_solver|exact Hi1| |done]. other_pair. }
  intros r3 [d3 w3] (Hi3 & Hk3 & Hca3 & H3). cbn [fst] in *. split_and!.
  - etrans; [done|]. eapply installs_finals; [| |done]; set_solver.
  - etrans; [done|]. by etrans.
  - intros ->. split.
    + eapply settled_around; [set_solver|set_solver|exact Hi1|exact Hi3|other_pair|other_pair|by apply H2].
    + eapply (settled_around _ _ _ _ []); [set_solver|set_solver|exact Hi1|done|set_solver|other_pair|].
      eapply (settled_around _ _ _ _ []); [set_solver|set_solver|exact Hi2|done|set_solver|other_pair|by apply H3].
Qed.

(** ** The action *)

(** The directories above a directory are directories. *)
Definition parents_ok (d : Fs) : Prop :=
  ∀ l, l ≠ [] → l `prefix_of` components cert_dir → ∃ a, fs_nodes d !! l = Some (Dir a).

Lemma make_dirs_below a above rest last nodes nodes' :
  (∀ l, l ≠ [] → l `prefix_of` rest → ∃ a, nodes !! (above ++ l) = Some (Dir a)) →
  make_dirs a above (rest ++ [last]) nodes = Ok nodes' →
  ∀ k, k ≠ above ++ rest ++ [last] → nodes' !! k = nodes !! k.
Proof.
  revert above. induction rest as [|c rest IH]; intros above Hp; cbn.
  - destruct (nodes !! (above ++ [last])) as [[]|]; intros [= <-] k Hk; [done|]. by rewrite lookup_insert_ne.
  - destruct (Hp [c]) as [a' Ha]; [done|by exists rest|]. rewrite Ha. intros Hm k Hk.
    apply (IH (above ++ [c])); [|done|by rewrite <- app_assoc].
    intros l Hl [x ->]. destruct (Hp (c :: l)) as [a0 H0]; [done|by exists x|].
    exists a0. by rewrite <- app_assoc.
Qed.

(** The directory of the keys is made, if at all. *)
Lemma wp_create_private f d (w : W) :
  parents_ok d →
  wp (on_fs f (create_dir_all private_dir)) (λ _ st,
    ∀ k, k ≠ place ["private"] → fs_nodes st.1 !! k = fs_nodes d !! k) (d, w).
Proof.
  intros Hp. apply wp_on_fs, wp_io; [done|]. intros o Ho. unfold wp. rewrite components_private.
  destruct (make_dirs _ _ _ _) as [nodes|e] eqn:Hm; [|done]. cbn. intros k Hk.
  by eapply (make_dirs_below _ [] (components cert_dir)).
Qed.

Lemma wp_fs {E A} (m : eff Fs E A) Q d (w : W) :
  wp m (λ r d', Q r (d', w)) d → wp (λ '(d, w), let '(r, d) := m d in (r, (d, w))) Q (d, w).
Proof. unfold wp. by destruct (m d). Qed.
Lemma wp_check_writable dir what Q d (w : W) :
  (∀ r d' w', same d d' → Q r (d', w')) → wp (check_writable dir what) Q (d, w).
Proof.
  intros HQ. unfold check_writable. wp_go. apply (wp_fs (metadata dir)), wp_look. intros d1 r Hd%differ_same. wp_go.
  assert (Ha : ∀ p f, wp (path ← absolute_path p; throw (f path)) Q (d1, w)).
  { intros p f. wp_go. unfold absolute_path. wp_go. apply wp_on_fs, wp_look.
    intros d2 [x|e] Hd2%differ_same; assert (same d d2) by (unfold same in *; congruence);
      cbn [map_err]; wp_go; [|by apply HQ]. destruct (to_str x); cbn [ok_or]; wp_go; by apply HQ. }
  destruct r as [a|e]; cbn [map_err]; [|apply Ha]. destruct (readonly a); [apply Ha|]. by apply wp_ret, HQ.
Qed.

(** What the action comes to: with [skip], a pair that is there is left. *)
Definition generated (common_name : string) (forced skip : bool) (d : Fs) (r : result CliError ()) (st : Fs * W) : Prop :=
  installs finals temps d st.1 ∧ (forced = false → kept d st.1) ∧
  (r = Ok () → ∀ cert key, (cert, key) ∈ [(CLIENT_CERT, CLIENT_KEY); (SERVER_CERT, SERVER_KEY)] →
    skip = true ∧ pair_kept cert key d st.1 ∨ issued common_name cert key st.1).

Definition only_private (d d' : Fs) : Prop := ∀ k, k ≠ place ["private"] → fs_nodes d' !! k = fs_nodes d !! k.
Lemma private_in_temps : place ["private"] ∈ temps.
Proof. apply place_in. set_solver. Qed.
Lemma same_private d d1 d2 : only_private d d1 → same d1 d2 → only_private d d2.
Proof. intros Hp Hs k Hk. unfold same in Hs. rewrite Hs. by apply Hp. Qed.

(** Making the directory of the keys does not matter. *)
Lemma generated_private common_name forced skip d d1 r st :
  only_private d d1 → generated common_name forced skip d1 r st → generated common_name forced skip d r st.
Proof.
  pose proof private_in_temps as Ht. intros Hp (Hi & Hk & Hr).
  assert (Hp' : ∀ k, k ∉ temps → fs_nodes d1 !! k = fs_nodes d !! k) by (intros k Hk'; apply Hp; by intros ->).
  split_and!.
  - intros k Hk'. rewrite <- Hp' by done. by apply Hi.
  - intros Hf k n Hk' Hn. apply (Hk Hf); [done|]. by rewrite Hp'.
  - intros Hok cert key Hin. destruct (Hr Hok cert key Hin) as [[Hf Hkept]|?]; [left; split; [done|]|by right].
    intros s Hs. rewrite <- Hp'; [by apply Hkept|]. unfold temps. rewrite place_in.
    assert (cert ∈ certs ∧ key ∈ keys) as [Hc Hkey] by set_solver.
    destruct (name_facts cert) as (_&_&_&_&_&_&H1&_); [set_solver|].
    destruct (name_facts key) as (_&_&_&_&_&_&_&H2&_); [set_solver|]. set_solver.
Qed.
Lemma generated_err common_name forced skip d d' e (w : W) :
  same d d' → generated common_name forced skip d (Err e) (d', w).
Proof.
  unfold same. intros Hs. split_and!; [intros k _; left|intros _ k n _|done]; cbn; by rewrite Hs.
Qed.

(** The three ways to go on. *)
Lemma wp_forced common_name forced skip d (w : W) :
  (forced = false → ∀ k, k ∈ finals → fs_nodes d !! k = None) →
  wp (create_all_certs cert_dir private_dir common_name) (generated common_name forced skip d) (d, w).
Proof.
  intros Hf. eapply wp_mono; [apply wp_create_all_certs|]. intros r [d' w'] [Hi Hr]. cbn [fst] in *.
  split_and!; [done|intros ?; eapply installs_kept; [done|by apply Hf]|].
  intros ->. destruct (Hr eq_refl) as [H1 H2]. intros cert key Hin. right.
  repeat (apply elem_of_cons in Hin as [Hin|Hin]; [by injection Hin as -> ->|]). by apply elem_of_nil in Hin.
Qed.
Lemma wp_skipping quiet common_name d (w : W) :
  wp (handle_skip quiet cert_dir private_dir common_name) (generated common_name false true d) (d, w).
Proof.
  eapply wp_mono; [apply wp_handle_skip|]. intros r [d' w'] (Hi & Hk & Hr). cbn [fst] in *.
  split_and!; [done..|]. intros ->. destruct (Hr eq_refl) as [H1 H2]. intros cert key Hin.
  apply elem_of_cons in Hin as [[= -> ->]|Hin]; [destruct H1 as [?|?]; [by left|by right]|].
  apply elem_of_cons in Hin as [[= -> ->]|Hin]; [destruct H2 as [?|?]; [by left|by right]|].
  by apply elem_of_nil in Hin.
Qed.
End directory.

(** [generated] holds of the whole action. *)
Lemma wp_cert_gen_action {Hlaws : OpenSslLaws W PKey PubKey Sig} env args d (w : W) :
  let cert_dir := match value_of "cert_dir" args with Some x => x | None => default DEFAULT_CERT_DIR env end in
  let common_name := default "localhost" (value_of "common_name" args) in
  let forced := is_present "force" args && negb (is_present "skip" args) in
  parents_ok cert_dir d →
  wp (cert_gen_action env (Some args)) (generated cert_dir common_name forced (is_present "skip" args) d) (d, w).
Proof.
  intros cert_dir common_name forced Hp.
  unfold cert_gen_action. wp_go. cbn [ok_or]. wp_go. fold cert_dir common_name (private_dir cert_dir).
  destruct (is_dir cert_dir d); cbn [negb]; [|by apply wp_throw, generated_err]. wp_go.
  apply (wp_mono _ (λ _ st, only_private cert_dir d st.1)).
  { destruct (is_dir (private_dir cert_dir) d); [by apply wp_ret|by apply wp_create_private]. }
  intros r1 [d1 w1] Hd1. cbn [fst] in Hd1.
  destruct r1 as [[]|e]; [|by eapply generated_private, generated_err]. wp_go.
  apply wp_check_writable. intros r2 d2 w2 Hs2. pose proof (same_private _ _ _ _ Hd1 Hs2) as Hd2.
  destruct r2 as [[]|e]; [|by eapply generated_private, generated_err]. wp_go.
  apply wp_check_writable. intros r3 d3 w3 Hs3. pose proof (same_private _ _ _ _ Hd2 Hs3) as Hd3.
  destruct r3 as [[]|e]; [|by eapply generated_private, generated_err]. wp_go.
  eapply wp_mono; [|intros r st; by apply (generated_private _ _ _ _ _ d3)].
  unfold forced. destruct (is_present "skip" args); [rewrite andb_false_r; by apply wp_skipping|].
  rewrite andb_true_r. destruct (is_present "force" args); cbn [negb].
  - unfold log_overwriting. wp_go. apply wp_log_info. intros [[]|e] d4 w4 Hs4; [|by apply generated_err].
    eapply wp_mono; [by apply (wp_forced _ _ true false)|]. intros r st.
    by apply (generated_private cert_dir _ _ _ d3 d4), (same_private cert_dir d3 d3 d4).
  - wp_go. apply wp_report_existing. intros r4 d4 w4 Hs4 Hr4. destruct r4 as [e|e]; [|by apply generated_err].
    pose proof (Hr4 e eq_refl) as He. destruct e; [by apply wp_throw, generated_err|]. symmetry in He.
    unfold log_writing. wp_go. apply wp_log_info. intros [[]|e] d5 w5 Hs5; [|apply generated_err; unfold same in *; congruence].
    assert (Hs35 : same d3 d5) by (unfold same in *; congruence).
    eapply wp_mono; [apply (wp_forced _ _ false false)|].
    2: { intros r st. by apply (generated_private cert_dir _ _ _ d3 d5), (same_private cert_dir d3 d3 d5). }
    intros _ k (s & -> & Hin)%list_elem_of_fmap. unfold same in Hs35. rewrite Hs35.
    cbn [existsb] in He. rewrite !orb_false_iff, (exists_at_cert _ CLIENT_CERT), (exists_at_cert _ SERVER_CERT),
      (exists_at_cert _ CA_CERT), !exists_at_key, !bool_decide_eq_false in He by set_solver.
    rewrite !eq_None_not_Some.
    change final_suffixes with [[CA_CERT]; [CLIENT_CERT]; [SERVER_CERT];
      ["private"; CA_KEY]; ["private"; CLIENT_KEY]; ["private"; SERVER_KEY]] in Hin.
    repeat (apply elem_of_cons in Hin as [->|Hin]; [tauto|]). by apply elem_of_nil in Hin.
Qed.

(** C34: [splinter cert generate], with any arguments and whatever the system or OpenSSL
    refuses.  No file outside of the directory of the certificates is touched; each
    file of a certificate or key is as it was or has the whole of a new one, never a
    part of it, which only the temporary files may have; and without [--force], and with
    [--skip], the files that are there stay as they are.  When the command succeeds, the
    client and the server each have a new key and a certificate for it, signed by the CA
    whose certificate and key are in the directory; with [--skip], and only then, files
    that are there for both the key and the certificate are left instead, whatever is in
    them. *)
Theorem cert_generate_correct {Hlaws : OpenSslLaws W PKey PubKey Sig} env args d (w : W) :
  let cert_dir := match value_of "cert_dir" args with Some x => x | None => default DEFAULT_CERT_DIR env end in
  let common_name := default "localhost" (value_of "common_name" args) in
  let forced := is_present "force" args && negb (is_present "skip" args) in
  parents_ok cert_dir d →
  let '(r, (d', _)) := cert_gen_action env (Some args) (d, w) in
  installs (finals cert_dir) (temps cert_dir) d d' ∧
  (forced = false → kept cert_dir d d') ∧
  (r = Ok () →
    ∀ cert key, (cert, key) ∈ [(CLIENT_CERT, CLIENT_KEY); (SERVER_CERT, SERVER_KEY)] →
    is_present "skip" args = true ∧ pair_kept cert_dir cert key d d' ∨ issued cert_dir common_name cert key d').
Proof.
  intros cert_dir common_name forced Hp. pose proof (wp_cert_gen_action env args d w Hp) as H.
  unfold wp in H. by destruct (cert_gen_action _ _ _) as [r [d' w']].
Qed.

(** With [--force] both pairs are new. *)
Lemma generated_all {Hlaws : OpenSslLaws W PKey PubKey Sig} env args d (w : W) :
  let cert_dir := match value_of "cert_dir" args with Some x => x | None => default DEFAULT_CERT_DIR env end in
  let common_name := default "localhost" (value_of "common_name" args) in
  is_present "force" args = true → is_present "skip" args = false → parents_ok cert_dir d →
  match cert_gen_action env (Some args) (d, w) with
  | (Ok _, (d', _)) => installs (finals cert_dir) (temps cert_dir) d d' ∧
      issued cert_dir common_name CLIENT_CERT CLIENT_KEY d' ∧ issued cert_dir common_name SERVER_CERT SERVER_KEY d'
  | _ => True
  end.
Proof.
  intros cert_dir common_name Hf Hs Hp. pose proof (wp_cert_gen_action env args d w Hp) as H.
  fold cert_dir common_name in H. rewrite Hf, Hs in H. unfold wp in H.
  destruct (cert_gen_action _ _ _) as [[[]|] [d' w']]; [|done]. destruct H as (Hi & _ & Hr).
  split; [done|]. split; (edestruct (Hr eq_refl) as [[? _]|?]; [|done|done]); set_solver.
Qed.
End files.

(** ** Examples *)
Module CertExample.
Import CountableCodec.

#[export] Instance extension_eq_dec : EqDecision Extension.
Proof. solve_decision. Defined.
#[export] Instance extension_countable : Countable Extension.
Proof.
  refine (inj_countable'
    (λ e, match e with
          | BasicConstraints a b => (0, a, b)
          | KeyUsage a => (1, a, a)
          | ExtendedKeyUsage a b => (2, a, b)
          end)
    (λ '(n, a, b), match n with 0 => BasicConstraints a b | 1 => KeyUsage a | _ => ExtendedKeyUsage a b end) _).
  by intros [].
Defined.
#[export] Instance body_eq_dec : EqDecision (CertBody nat).
Proof. solve_decision. Defined.
#[export] Instance body_countable : Countable (CertBody nat).
Proof.
  refine (inj_countable'
    (λ b, (cb_version b, cb_serial_number b, cb_subject_name b, cb_issuer_name b, cb_pubkey b,
           cb_not_before b, cb_not_after b, cb_extensions b))
    (λ '(v, n, s, i, k, f, t, e), mkCertBody v n s i k f t e) _).
  by intros [].
Defined.

(** Keys and serial numbers are counted, a signature is the key. *)
#[export] Instance counted_keys : OpenSsl nat nat nat nat := {|
  rsa_generate _ n := (Ok n, S n);
  ssl_call := mret ();
  rand_serial _ n := (Ok (Z.of_nat n), S n);
  public_part k := k;
  ssl_sign k _ := k;
  ssl_verifies k _ s := (k =? s)%nat;
  cert_to_pem c := Ok (write_pos (encode c));
  cert_from_pem b := ok_or "PEM" (parse_pos b ≫= decode);
  key_to_pem k := Ok (write_pos (encode k));
  key_from_pem b := ok_or "PEM" (parse_pos b ≫= decode);
|}.
#[export] Instance counted_keys_laws : OpenSslLaws nat nat nat nat.
Proof.
  split; cbn.
  - intros k _. apply Nat.eqb_refl.
  - intros c b [= <-]. rewrite parse_write_pos. cbn. by rewrite decode_encode.
  - intros c b [= <-]. rewrite parse_write_pos. cbn. by rewrite decode_encode.
Qed.

Definition dir_attrs : attrs := mkAttrs 493 0 0.
Definition cert_tree (files : list (list string * node)) (o : list outcome) : Fs :=
  mkFs (list_to_map ((["/"], Dir dir_attrs) :: (["/"; "certs"], Dir dir_attrs) :: files)) o 18 0 0.
Definition cert_args (flags : gset string) : ArgMatches :=
  mkArgMatches {["cert_dir" := "/certs"]} flags "" None.

Lemma cert_tree_parents d :
  is_dir "/" d && is_dir "/certs" d = true → parents_ok "/certs" d.
Proof.
  unfold is_dir, at_path. change (components "/") with ["/"]. change (components "/certs") with ["/"; "certs"].
  intros [H1 H2]%andb_true_iff l Hl [x Hx]. change (components "/certs") with ["/"; "certs"] in Hx.
  destruct l as [|a [|b [|c l]]]; [done|..]; cbn in Hx; simplify_eq.
  - destruct (fs_nodes d !! ["/"]) as [[]|]; [by eexists|done..].
  - destruct (fs_nodes d !! ["/"; "certs"]) as [[]|]; [by eexists|done..].
Qed.

Lemma cert_generate_correct_witness :
  ∃ d' w', cert_gen_action None (Some (cert_args ∅)) (cert_tree [] [], 0) = (Ok (), (d', w')) ∧
    issued "/certs" "localhost" CLIENT_CERT CLIENT_KEY d'.
Proof.
  pose proof (cert_generate_correct None (cert_args ∅) (cert_tree [] []) 0
    (cert_tree_parents (cert_tree [] []) ltac:(by vm_compute))) as H.
  destruct (cert_gen_action _ _ _) as [r [d' w']] eqn:E. exists d', w'.
  assert (r = Ok ()) as -> by (change r with (r, (d', w')).1; rewrite <- E; by vm_compute).
  split; [done|]. destruct H as (_ & _ & Hr).
  destruct (Hr eq_refl CLIENT_CERT CLIENT_KEY (list_elem_of_here _ _)) as [[Hskip _]|Hi]; [|exact Hi].
  exfalso. vm_compute in Hskip. discriminate.
Defined.

(** A key and its certificate are not replaced together: when the system fails in
    between, with [--force], a new certificate is left with an old key. *)
Example force_leaves_mismatch :
  let old := [(["/"; "certs"; "private"], Dir dir_attrs);
              (["/"; "certs"; "client.crt"], File (mkAttrs 416 0 0) "old certificate");
              (["/"; "certs"; "private"; "client.key"], File (mkAttrs 416 0 0) "old key")] in
  let '(r, (d', _)) := cert_gen_action None (Some (cert_args {["force"]}))
    (cert_tree old (repeat Works 23 ++ [Fails "No space left on device"]), 0) in
  r = Err (ActionError "No space left on device") ∧
  at_path "/certs/client.crt" d' ≠ at_path "/certs/client.crt" (cert_tree old []) ∧
  at_path "/certs/private/client.key" d' = at_path "/certs/private/client.key" (cert_tree old []).
Proof. vm_compute. by split. Qed.

(** With [--skip], the message for a missing key names the directory of the
    certificates, in which keys are not looked for. *)
Example missing_key_message :
  let old := [(["/"; "certs"; "client.crt"], File (mkAttrs 416 0 0) "certificate")] in
  (cert_gen_action None (Some (cert_args {["skip"]})) (cert_tree old [], 0)).1 =
    Err (ActionError "Matching key for the certificate is missing: /certs/client.key ").
Proof. by vm_compute. Qed.
End CertExample.
