(* ===== verification/RestApi.v ===== *)
(** * REST resources

    Models [libsplinter/src/rest_api/mod.rs] and its users
    [libsplinter/src/orchestrator/rest_api.rs] and [services/health/src/lib.rs]: what a
    resource is, the server that is started for resources, and the resources of the
    services of an orchestrator.  The matching of paths by actix is an interface. *)

From stdpp Require Import gmap.
From Stdlib Require Import ZArith Ascii.
From S2P Require Import Prelude Network Circuit Dispatch CircuitHandlers Auth Reply Services DurableSets.
From S2P Require Import ServiceProcessor AdminShared ServiceOrchestrator.

(** ** Requests and answers *)

Inductive Method := Get | Post | Put | Patch | Delete | Head.
#[global] Instance Method_eq_dec : EqDecision Method.
Proof. solve_decision. Defined.

(** The status of an answer and its body *)
Record Response := mkResponse { status : Z; body : string }.
Definition finish (code : Z) : Response := mkResponse code "".

(** The body of a request arrives in chunks, each of which may fail. *)
Definition Payload : Type := list (result string bytes).
(** What the route matched of the path ([match_info]) *)
Definition MatchInfo : Type := gmap string string.
Definition HandlerFunction (S : Type) : Type := MatchInfo → Payload → eff S panic Response.

(** ** [Resource] *)

Record Resource (S : Type) := mkResource {
  route : string;
  methods : list (Method * HandlerFunction S);
}.
Arguments mkResource {S} _ _.
Arguments route {S} _.
Arguments methods {S} _.

Definition resource_build {S} (r : string) : Resource S := mkResource r [].
Definition add_method {S} (m : Method) (h : HandlerFunction S) (r : Resource S) : Resource S :=
  mkResource (route r) (methods r ++ [(m, h)]).
Definition resource_new {S} (m : Method) (r : string) (h : HandlerFunction S) : Resource S :=
  add_method m h (resource_build r).

(** ** The server *)

(** A route of actix: its guard, on the method, and its handler *)
Record ActixResource (S : Type) := mkActixResource {
  ar_pattern : string;
  ar_routes : list ((Method → bool) * HandlerFunction S);
}.
Arguments mkActixResource {S} _ _.
Arguments ar_pattern {S} _.
Arguments ar_routes {S} _.

Definition into_route {S} (r : Resource S) : ActixResource S :=
  foldl (λ a '(m, h), mkActixResource (ar_pattern a) (ar_routes a ++ [(λ m', bool_decide (m' = m), h)]))
    (mkActixResource (route r) []) (methods r).

(** How actix matches a path with the pattern of a resource. *)
Class Actix := match_path : string → string → option MatchInfo.

(** A request goes to the first resource whose pattern matches, and there to the first
    route whose guard lets it pass; [web::Resource] answers with 405 when there is none,
    and [App] with 404 when no resource matches. *)
Definition serve_resource {S} (a : ActixResource S) (m : Method) (info : MatchInfo) (p : Payload) :
    eff S panic Response := λ s,
  match find (λ r, r.1 m) (ar_routes a) with
  | Some (_, h) => h info p s
  | None => (Ok (finish 405), s)
  end.
Fixpoint serve {S} `{!Actix} (app : list (ActixResource S)) (m : Method) (path : string) (p : Payload) :
    eff S panic Response := λ s,
  match app with
  | [] => (Ok (finish 404), s)
  | a :: app =>
      match match_path (ar_pattern a) path with
      | Some info => serve_resource a m info p s
      | None => serve app m path p s
      end
  end.

Inductive RestApiServerError :=
  | StartUpError (msg : string)
  | MissingField (field : string)
  | StdError (msg : string).
Definition rest_api_error_display (e : RestApiServerError) : string :=
  match e with
  | StartUpError e => "Start-up Error: " +:+ e
  | StdError e => "Std Error: " +:+ e
  | MissingField field => "Missing required field: " +:+ field
  end.

Record RestApi (S : Type) := mkRestApi { api_resources : list (Resource S); api_bind : string }.
Arguments mkRestApi {S} _ _.
Arguments api_resources {S} _.
Arguments api_bind {S} _.

(** What the system makes of the thread of the server, and of the address *)
Record ServerOutcome := mkServerOutcome { so_spawn : result string (); so_bind : string → result string () }.

(** [RestApi::run]: the resources that the server serves.  A thread that cannot bind ends,
    and its end of the channel is gone. *)
Definition rest_api_run {S} (o : ServerOutcome) (api : RestApi S) :
    result RestApiServerError (list (ActixResource S)) :=
  _ ← map_err StdError (so_spawn o);
  match so_bind o (api_bind api) with
  | Ok _ => mret (into_route <$> api_resources api)
  | Err _ => Err (StartUpError "Unable to receive Server Addr: receiving on a closed channel")
  end.

Record RestApiBuilder (S : Type) := mkRestApiBuilder {
  rb_resources : list (Resource S);
  rb_bind : option string;
}.
Arguments mkRestApiBuilder {S} _ _.
Arguments rb_resources {S} _.
Arguments rb_bind {S} _.
Definition rest_api_builder_new {S} : RestApiBuilder S := mkRestApiBuilder [] None.
Definition with_bind {S} (value : string) (b : RestApiBuilder S) : RestApiBuilder S :=
  mkRestApiBuilder (rb_resources b) (Some value).
Definition add_resource {S} (r : Resource S) (b : RestApiBuilder S) : RestApiBuilder S :=
  mkRestApiBuilder (rb_resources b ++ [r]) (rb_bind b).
Definition add_resources {S} (rs : list (Resource S)) (b : RestApiBuilder S) : RestApiBuilder S :=
  mkRestApiBuilder (rb_resources b ++ rs) (rb_bind b).
Definition rest_api_build {S} (b : RestApiBuilder S) : result RestApiServerError (RestApi S) :=
  bind ← ok_or (MissingField "bind") (rb_bind b);
  mret (mkRestApi (rb_resources b) bind).

(** [into_protobuf]: an error of the payload, or of the message; the text of the error in
    the body of an answer is left out, here and below. *)
Fixpoint collect_body (p : Payload) (acc : bytes) : result Response bytes :=
  match p with
  | [] => Ok acc
  | Ok chunk :: p => collect_body p (acc +:+ chunk)
  | Err _ :: _ => Err (finish 400)
  end.
Definition into_protobuf {M} `{!Codec M} (p : Payload) : result Response M :=
  body ← collect_body p "";
  ok_or (mkResponse 400 "message") (parse_from_bytes body).

(** ** The services of an orchestrator *)

(** [ServiceEndpoint]; its handler works on a service and on the world. *)
Record ServiceEndpoint (Svc W : Type) := mkServiceEndpoint {
  se_service_type : string;
  se_route : string;
  se_method : Method;
  se_handler : HandlerFunction (Svc * W);
}.
Arguments mkServiceEndpoint {Svc W} _ _ _ _.
Arguments se_service_type {Svc W} _.
Arguments se_route {Svc W} _.
Arguments se_method {Svc W} _.
Arguments se_handler {Svc W} _.

Section orchestrator.
Context {Svc W : Type}.

Definition endpoint_route (e : ServiceEndpoint Svc W) : string :=
  "/" +:+ se_service_type e +:+ "/{circuit}/{service_id}" +:+ se_route e.

(** The service of the circuit and the id in the path *)
Definition endpoint_service (e : ServiceEndpoint Svc W) (circuit service_id : string)
    (services : gmap OrchestratorService Svc) : option (OrchestratorService * Svc) :=
  find (λ '(def, _),
    bool_decide (os_service_type def = se_service_type e) && bool_decide (os_circuit def = circuit) &&
    bool_decide (os_service_id def = service_id)) (map_to_list services).

Definition endpoint_handler (e : ServiceEndpoint Svc W) : HandlerFunction (ServiceOrchestrator Svc W * W) :=
  λ info payload '(o, w),
    let circuit := default "" (info !! "circuit") in
    let service_id := default "" (info !! "service_id") in
    match endpoint_service e circuit service_id (so_services o) with
    | None => (Ok (finish 404), (o, w))
    | Some (def, service) =>
        let '(res, (service, w)) := se_handler e info payload (service, w) in
        (res, (set_services <[def := service]> o, w))
    end.

(** [resources], of the endpoints of each factory *)
Definition orchestrator_resources (endpoints : list (list (ServiceEndpoint Svc W))) :
    list (Resource (ServiceOrchestrator Svc W * W)) :=
  foldl (λ acc es, acc ++ ((λ e, add_method (se_method e) (endpoint_handler e) (resource_build (endpoint_route e))) <$> es))
    [] endpoints.
End orchestrator.

(** ** The health service *)

Record HealthService := mkHealthService { hs_service_id : string }.
Definition health_service_new (node_id : string) : HealthService := mkHealthService ("health::" +:+ node_id).
Definition health_service_type : string := "health".
Definition health_service {W} : Service HealthService W := {|
  service_id := hs_service_id;
  service_start _ := mret ();
  service_stop _ := mret ();
  service_destroy _ := mret ();
  service_handle_message _ _ := mret ();
|}.
Definition make_status_resource {S} : Resource S :=
  add_method Get (λ _ _, mret (finish 200)) (resource_build "/health/status").
Definition health_resources {S} : list (Resource S) := [make_status_resource].

(** ** Facts *)

Lemma into_route_from {S} l (a : ActixResource S) :
  foldl (λ a '(m, h), mkActixResource (ar_pattern a) (ar_routes a ++ [(λ m', bool_decide (m' = m), h)])) a l =
  mkActixResource (ar_pattern a) (ar_routes a ++ ((λ '(m, h), (λ m', bool_decide (m' = m), h)) <$> l)).
Proof.
  revert a. induction l as [|[m h] l IH]; intros [p rs]; cbn; [by rewrite app_nil_r|].
  rewrite IH. cbn. by rewrite <- app_assoc.
Qed.
Lemma into_route_spec {S} (r : Resource S) :
  into_route r = mkActixResource (route r) ((λ '(m, h), (λ m', bool_decide (m' = m), h)) <$> methods r).
Proof. exact (into_route_from (methods r) (mkActixResource (route r) [])). Qed.

(** The body of a request is the same however it is cut into chunks. *)
Lemma collect_body_chunks (chunks : list bytes) acc :
  collect_body (Ok <$> chunks) acc = Ok (acc +:+ foldr (λ c b, c +:+ b) "" chunks).
Proof.
  revert acc. induction chunks as [|c chunks IH]; intros acc; cbn; [by rewrite str_app_nil_r|].
  by rewrite IH, str_app_assoc.
Qed.
Lemma into_protobuf_chunks {M} `{!Codec M, !CodecLaws M} (m : M) b (chunks : list bytes) :
  write_to_bytes m = Some b → foldr (λ c b, c +:+ b) "" chunks = b → into_protobuf (Ok <$> chunks) = Ok m.
Proof.
  intros Hm <-. unfold into_protobuf. rewrite collect_body_chunks. cbn.
  by rewrite str_app_nil, (parse_write _ _ Hm).
Qed.

(** The first resource that matches a path answers, whatever comes after it. *)
Lemma serve_first {S} `{!Actix} (before after : list (ActixResource S)) a m path info p s :
  Forall (λ b, match_path (ar_pattern b) path = None) before → match_path (ar_pattern a) path = Some info →
  serve (before ++ a :: after) m path p s = serve_resource a m info p s.
Proof.
  intros Hb Ha. induction Hb as [|b before Hb _ IH]; cbn; [by rewrite Ha|]. by rewrite Hb.
Qed.

(** ** Patterns *)

Lemma split_on_not_nil sep s : split_on sep s ≠ [].
Proof. destruct s; cbn; [done|]. case_bool_decide; [done|]. by destruct (split_on sep s). Qed.
Lemma split_on_inj sep s t : split_on sep s = split_on sep t → s = t.
Proof.
  revert t. induction s as [|c s IH]; intros [|d t]; cbn; [done| | |].
  - case_bool_decide; [by pose proof (split_on_not_nil sep t); destruct (split_on sep t)|]. by destruct (split_on sep t).
  - case_bool_decide; [by pose proof (split_on_not_nil sep s); destruct (split_on sep s)|]. by destruct (split_on sep s).
  - repeat case_bool_decide; subst.
    + intros [= Heq]. f_equal. by apply IH.
    + by destruct (split_on sep t).
    + by destruct (split_on sep s).
    + pose proof (split_on_not_nil sep s) as Hs. pose proof (split_on_not_nil sep t) as Htt.
      destruct (split_on sep s) as [|x l] eqn:E1; [done|]. destruct (split_on sep t) as [|y k] eqn:E2; [done|].
      intros [= -> -> ->]. f_equal. apply IH. congruence.
Qed.

Definition avoid (c : ascii) (s : string) : Prop := ∀ n, String.get n s ≠ Some c.
Definition segment (s : string) : Prop := s ≠ "" ∧ avoid "/" s.

(** A segment of a pattern that stands for any segment of a path, and its name *)
Definition variable (p : string) : option string :=
  match p with
  | String "{" p => match String.rev p with String "}" name => Some (String.rev name) | _ => None end
  | _ => None
  end.
Definition no_brace (s : string) : bool :=
  forallb (λ c, negb (bool_decide (c = "{"%char)) && negb (bool_decide (c = "}"%char))) (String.list_ascii_of_string s).
(** Patterns without regular expressions *)
Definition simple_segment (p : string) : bool :=
  match variable p with
  | Some name => no_brace name && forallb (λ c, negb (bool_decide (c = ":"%char))) (String.list_ascii_of_string name)
  | None => no_brace p
  end.
Definition simple_pattern (pattern : string) : bool := forallb simple_segment (split_on "/" pattern).

Fixpoint match_segments (pattern path : list string) : option MatchInfo :=
  match pattern, path with
  | [], [] => Some ∅
  | p :: pattern, x :: path =>
      match variable p with
      | Some name => if is_empty x then None else <[name := x]> <$> match_segments pattern path
      | None => if bool_decide (p = x) then match_segments pattern path else None
      end
  | _, _ => None
  end.

(** What actix documents of simple patterns: a variable stands for one segment of the
    path, and the rest of the pattern for itself. *)
Class ActixPatterns `{!Actix} : Prop :=
  match_pattern pattern path :
    simple_pattern pattern = true →
    match_path pattern path = match_segments (split_on "/" pattern) (split_on "/" path).

Lemma no_brace_avoid s : no_brace s = true → avoid "{" s.
Proof.
  unfold no_brace. induction s as [|d s IH]; cbn; [by intros _ []|].
  rewrite !andb_true_iff, !negb_true_iff. intros [[Hd _] Hs] [|n]; cbn; [|by apply IH].
  apply bool_decide_eq_false in Hd. congruence.
Qed.
Lemma no_brace_literal s : no_brace s = true → variable s = None.
Proof.
  destruct s as [|c s]; [done|]. intros Hs. apply no_brace_avoid in Hs. specialize (Hs 0). cbn in Hs.
  unfold variable. destruct c as [[] [] [] [] [] [] [] []]; done.
Qed.
Lemma split_on_no_brace s : no_brace s = true → Forall (λ p, no_brace p = true) (split_on "/" s).
Proof.
  induction s as [|d s IH]; intros Ha; cbn; [by apply Forall_singleton|].
  unfold no_brace in Ha. cbn in Ha. apply andb_true_iff in Ha as [Hd Ha]. specialize (IH Ha).
  destruct (bool_decide (d = "/"%char)); [by constructor|].
  destruct IH as [|x l Hx Hl]; (constructor; [|done]); unfold no_brace; cbn; by rewrite Hd.
Qed.
Lemma match_literals l k :
  Forall (λ p, no_brace p = true) l → match_segments l k = if decide (l = k) then Some ∅ else None.
Proof.
  intros Hl. revert k. induction Hl as [|p l Hp Hl IH]; intros [|x k]; cbn; [done..|].
  rewrite no_brace_literal by done. rewrite IH. repeat case_bool_decide; repeat case_decide; naive_solver.
Qed.

Section endpoints.
Context {Svc W : Type}.

Lemma endpoint_service_lookup (e : ServiceEndpoint Svc W) circuit service_id services :
  let def := mkOrchestratorService circuit service_id (se_service_type e) in
  endpoint_service e circuit service_id services = (def,.) <$> services !! def.
Proof.
  intros def. unfold endpoint_service.
  assert (Heq : ∀ d : OrchestratorService,
    (bool_decide (os_service_type d = se_service_type e) && bool_decide (os_circuit d = circuit) &&
     bool_decide (os_service_id d = service_id)) = true ↔ d = def).
  { intros [c i t]. rewrite !andb_true_iff, !bool_decide_eq_true. unfold def. cbn. naive_solver. }
  destruct (find _ _) as [[d s]|] eqn:Hf.
  - apply find_some in Hf as [Hin Hd]. apply Heq in Hd as ->. apply list_elem_of_In, elem_of_map_to_list in Hin.
    by rewrite Hin.
  - destruct (services !! def) as [s|] eqn:Hs; [|done]. apply elem_of_map_to_list, list_elem_of_In in Hs.
    pose proof (find_none _ _ Hf _ Hs) as Hn. cbn beta iota in Hn. by rewrite (proj2 (Heq def) eq_refl) in Hn.
Qed.

Lemma orchestrator_resources_concat (es : list (list (ServiceEndpoint Svc W))) :
  orchestrator_resources es =
    (λ e, mkResource (endpoint_route e) [(se_method e, endpoint_handler e)]) <$> mjoin es.
Proof.
  unfold orchestrator_resources.
  enough (∀ acc, foldl (λ acc es, acc ++ ((λ e : ServiceEndpoint Svc W,
      add_method (se_method e) (endpoint_handler e) (resource_build (endpoint_route e))) <$> es)) acc es =
    acc ++ ((λ e, mkResource (endpoint_route e) [(se_method e, endpoint_handler e)]) <$> mjoin es)) as H
    by apply (H []).
  induction es as [|l es IH]; intros acc; cbn; [by rewrite app_nil_r|].
  rewrite IH, fmap_app, <- app_assoc. done.
Qed.

(** The path of a request to the service of a circuit *)
Definition service_path (service_type circuit service_id r : string) : string :=
  "/" +:+ service_type +:+ "/" +:+ circuit +:+ "/" +:+ service_id +:+ r.

(** Routes and types of services without variables *)
Definition plain_route (r : string) : Prop := (r = "" ∨ ∃ t, r = String "/" t) ∧ no_brace r = true.
Definition plain_endpoint (e : ServiceEndpoint Svc W) : Prop :=
  segment (se_service_type e) ∧ no_brace (se_service_type e) = true ∧ plain_route (se_route e).

(** The segments of a path after the one that ends before the route *)
Definition route_segments (r : string) : list string := tail (split_on "/" r).
Lemma split_route s r : avoid "/" s → plain_route r → split_on "/" (s +:+ r) = s :: route_segments r.
Proof.
  intros Hs [[->|[t ->]] _]; [rewrite str_app_nil_r, split_on_no_sep by done; done|]. by rewrite split_on_app.
Qed.
Lemma split_path ty c s r :
  avoid "/" ty → avoid "/" c → avoid "/" s → plain_route r →
  split_on "/" (service_path ty c s r) = "" :: ty :: c :: s :: route_segments r.
Proof.
  intros. unfold service_path. rewrite <- (split_route s) by done.
  trans (split_on "/" ("" +:+ String "/" (ty +:+ String "/" (c +:+ String "/" (s +:+ r))))); [done|].
  rewrite !split_on_app by (done || by intros []). done.
Qed.
Lemma route_segments_inj r r' : plain_route r → plain_route r' → route_segments r = route_segments r' → r = r'.
Proof.
  intros [[->|[t ->]] _] [[->|[t' ->]] _]; cbn; [done|..].
  - intros Heq. by destruct (split_on_not_nil "/" t').
  - intros Heq. by destruct (split_on_not_nil "/" t).
  - by intros ->%split_on_inj.
Qed.
Lemma route_segments_literal r : plain_route r → Forall (λ p, no_brace p = true) (route_segments r).
Proof.
  intros [_ Hr]. pose proof (split_on_no_brace r Hr) as Hf. unfold route_segments. by destruct Hf.
Qed.
Lemma endpoint_segments e :
  plain_endpoint e →
  split_on "/" (endpoint_route e) =
    "" :: se_service_type e :: "{circuit}" :: "{service_id}" :: route_segments (se_route e).
Proof.
  intros ([_ Ht] & _ & Hr).
  by apply (split_path _ "{circuit}" "{service_id}"); [done|..|done]; intros n; do 12 (destruct n as [|n]; [done|]); destruct n.
Qed.
Lemma endpoint_simple e : plain_endpoint e → simple_pattern (endpoint_route e) = true.
Proof.
  intros He. unfold simple_pattern. rewrite endpoint_segments by done. destruct He as (_ & Ht & Hr). cbn.
  assert (Hlit : ∀ p, no_brace p = true → simple_segment p = true).
  { intros p Hp. unfold simple_segment. by rewrite no_brace_literal. }
  rewrite (Hlit _ Ht). cbn. apply forallb_forall. intros p Hp%list_elem_of_In. apply Hlit.
  pose proof (route_segments_literal _ Hr) as Hf. rewrite Forall_forall in Hf. by apply Hf.
Qed.

Context `{!Actix} {Hpaths : ActixPatterns}.

Lemma match_service_path (e : ServiceEndpoint Svc W) service_type circuit service_id r :
  plain_endpoint e → segment service_type → segment circuit → segment service_id → plain_route r →
  match_path (endpoint_route e) (service_path service_type circuit service_id r) =
    if decide (se_service_type e = service_type ∧ se_route e = r)
    then Some {["circuit" := circuit; "service_id" := service_id]} else None.
Proof.
  intros He [Ht Hst] [Hc Hsc] [Hs Hss] Hr. rewrite match_pattern by (by apply endpoint_simple).
  rewrite split_path, endpoint_segments by done. destruct He as (_ & Hbe & Hre).
  cbn [match_segments]. rewrite (no_brace_literal _ Hbe).
  rewrite (match_literals _ _ (route_segments_literal _ Hre)). cbn [variable String.rev String.rev_app].
  rewrite (bool_decide_eq_true_2 ("" = "")) by done.
  destruct circuit as [|c0 c]; [done|]. destruct service_id as [|s0 s]; [done|]. cbn [is_empty].
  destruct (decide (se_service_type e = service_type)) as [He|He].
  - rewrite bool_decide_eq_true_2 by done. destruct (decide (se_route e = r)) as [Hre'|Hre'].
    + rewrite decide_True by congruence. rewrite decide_True by done. done.
    + rewrite decide_False by (intros Heq; by apply Hre', route_segments_inj). rewrite decide_False by naive_solver. done.
  - rewrite bool_decide_eq_false_2, decide_False by naive_solver. done.
Qed.


(** A request to an endpoint of a service type that no earlier endpoint has the route of:
    it is answered by the handler, on the one service of that circuit, id and type if it
    runs, with 404 and no effect otherwise; a request with another method gets 405. *)
Theorem endpoint_reaches_service (es : list (list (ServiceEndpoint Svc W))) before e after circuit service_id m p o (w : W) :
  mjoin es = before ++ e :: after →
  Forall plain_endpoint (mjoin es) →
  Forall (λ b, (se_service_type b, se_route b) ≠ (se_service_type e, se_route e)) before →
  segment circuit → segment service_id →
  serve (into_route <$> orchestrator_resources es) m
    (service_path (se_service_type e) circuit service_id (se_route e)) p (o, w) =
  if decide (m = se_method e) then
    let def := mkOrchestratorService circuit service_id (se_service_type e) in
    match so_services o !! def with
    | Some service =>
        let '(res, (service', w')) :=
          se_handler e {["circuit" := circuit; "service_id" := service_id]} p (service, w) in
        (res, (set_services <[def := service']> o, w'))
    | None => (Ok (finish 404), (o, w))
    end
  else (Ok (finish 405), (o, w)).
Proof.
  intros Hes Hplain Hb Hc Hs. rewrite orchestrator_resources_concat. rewrite Hes in *.
  apply Forall_app in Hplain as [Hpb [[Ht [Hv Hr]] _]%Forall_cons].
  rewrite !fmap_app, !fmap_cons.
  erewrite serve_first; [| |by rewrite into_route_spec; cbn; rewrite (match_service_path e), decide_True by done].
  - rewrite into_route_spec. unfold serve_resource. cbn [ar_routes methods fmap list_fmap find fst].
    destruct (decide (m = se_method e)) as [->|Hm].
    + rewrite bool_decide_eq_true_2 by done. unfold endpoint_handler.
      simplify_map_eq. cbn [default].
      rewrite endpoint_service_lookup. by destruct (so_services o !! _).
    + by rewrite bool_decide_eq_false_2.
  - rewrite !Forall_fmap. eapply Forall_impl; [exact (proj2 (Forall_and _ _) (conj Hpb Hb))|]. intros b [Hp Hne]. cbn.
    rewrite (match_service_path b), decide_False by (done || naive_solver congruence). done.
Qed.
End endpoints.

(** ** An orchestrator with two routes *)

Module OrchestratorExample.
#[export] Instance actix : Actix := λ pattern path, match_segments (split_on "/" pattern) (split_on "/" path).
#[export] Instance actix_patterns : ActixPatterns.
Proof. done. Qed.

(** A service keeps what was posted to it. *)
Definition posted : ServiceEndpoint (list Payload) () :=
  mkServiceEndpoint "box" "/items" Post (λ _ p '(svc, w), (Ok (finish 202), (svc ++ [p], w))).
Definition listed : ServiceEndpoint (list Payload) () :=
  mkServiceEndpoint "box" "/list" Get (λ _ _ s, (Ok (mkResponse 200 "items"), s)).
(** It could also be read by the route that it is written with. *)
Definition read_back : ServiceEndpoint (list Payload) () :=
  mkServiceEndpoint "box" "/items" Get (λ _ _ s, (Ok (mkResponse 200 "items"), s)).
Definition box (id : string) : OrchestratorService := mkOrchestratorService "c" id "box".
Definition boxes : ServiceOrchestrator (list Payload) () :=
  mkServiceOrchestrator (<[box "s1" := []]> {[box "s2" := []]}) [] ["box"].

Lemma plain_examples : Forall plain_endpoint (mjoin [[listed; posted]]).
Proof.
  assert (He : ∀ e, e = listed ∨ e = posted → plain_endpoint e).
  { intros e [-> | ->]; (split_and!; [split; [done|]|done|split; [|done]; right; by eexists]);
      intros n; do 4 (destruct n as [|n]; [done|]); by destruct n. }
  change (Forall plain_endpoint [listed; posted]). apply Forall_cons. split; [|apply Forall_singleton]; apply He; auto.
Qed.

Lemma endpoint_reaches_service_witness :
  (so_services (serve (into_route <$> orchestrator_resources [[listed; posted]]) Post "/box/c/s1/items" [Ok "x"]
    (boxes, ())).2.1) !! box "s1" = Some [[Ok "x"]].
Proof.
  assert (Hs : ∀ a, a = "c" ∨ a = "s1" → segment a).
  { intros a [-> | ->]; (split; [done|]); intros n; do 3 (destruct n as [|n]; [done|]); by destruct n. }
  assert (Hb : Forall (λ b : ServiceEndpoint (list Payload) (),
    (se_service_type b, se_route b) ≠ (se_service_type posted, se_route posted)) [listed]).
  { constructor; [intros [=]|constructor]. }
  pose proof (endpoint_reaches_service [[listed; posted]] [listed] posted [] "c" "s1" Post [Ok "x"] boxes ()
    eq_refl plain_examples Hb (Hs "c" (or_introl eq_refl)) (Hs "s1" (or_intror eq_refl))) as Hr.
  change (service_path (se_service_type posted) "c" "s1" (se_route posted)) with "/box/c/s1/items" in Hr.
  rewrite Hr. by vm_compute.
Defined.

(** Each endpoint is a resource of its own: of two with the same route, the method of the
    second one is not allowed. *)
Example same_route_shadowed :
  (serve (into_route <$> orchestrator_resources [[posted; read_back]]) Get "/box/c/s1/items" [] (boxes, ())).1 =
    Ok (finish 405).
Proof. by vm_compute. Qed.
End OrchestratorExample.
