(* ===== verification/AdminRest.v ===== *)
(** * The REST routes of the admin service

    Models [libsplinter/src/admin/rest_api/mod.rs] and the commands of
    [libsplinter/src/admin/service/mod.rs] that it calls: changes are submitted with one
    route, and an application subscribes to the events of its type of circuit with the
    other, through a websocket of [libsplinter/src/rest_api/events.rs]. *)

From stdpp Require Import gmap.
From Stdlib Require Import ZArith.
From S2P Require Import Prelude Storage Circuit Hex Keys Consensus AdminMessages DurableSets Mailbox.
From S2P Require Import OpenProposals AdminShared Events RestApi.

(** ** The websocket *)

Inductive CloseCode := Normal | Away | CloseError.
Inductive Frame :=
  | TextFrame (t : string)
  | BinaryFrame (b : bytes)
  | PingFrame (b : bytes)
  | PongFrame (b : bytes)
  | CloseFrame (code : CloseCode) (description : option string).

(** What the actor of a websocket has: the stream it was made with until it starts, and
    the frames it has written. *)
Record EventDealerWebSocket (T : Type) := mkEventDealerWebSocket {
  ews_stream : option (list (MessageWrapper T));
  ews_reading : list (MessageWrapper T);
  ews_frames : list Frame;
  ews_stopped : bool;
}.
Arguments mkEventDealerWebSocket {T} _ _ _ _.
Arguments ews_stream {T} _.
Arguments ews_reading {T} _.
Arguments ews_frames {T} _.
Arguments ews_stopped {T} _.

(** [serde_json::to_string] *)
Class ToJson (T : Type) := to_json : T → option string.

(** What a client sends *)
Inductive WsMessage :=
  | WsPing (b : bytes)
  | WsPong (b : bytes)
  | WsText (t : string)
  | WsBinary (b : bytes)
  | WsClose
  | WsNop.

Section websocket.
Context {T : Type} `{!ToJson T}.

Definition websocket_new (stream : list (MessageWrapper T)) : EventDealerWebSocket T :=
  mkEventDealerWebSocket (Some stream) [] [] false.
Definition write_frame (f : Frame) (a : EventDealerWebSocket T) : EventDealerWebSocket T :=
  mkEventDealerWebSocket (ews_stream a) (ews_reading a) (ews_frames a ++ [f]) (ews_stopped a).
Definition ctx_stop (a : EventDealerWebSocket T) : EventDealerWebSocket T :=
  mkEventDealerWebSocket (ews_stream a) (ews_reading a) (ews_frames a) true.

(** [Actor::started] and the ping that it asks for every [PING_INTERVAL] seconds *)
Definition started (a : EventDealerWebSocket T) : EventDealerWebSocket T :=
  match ews_stream a with
  | Some stream => mkEventDealerWebSocket None (ews_reading a ++ stream) (ews_frames a) (ews_stopped a)
  | None => a
  end.
Definition PING_INTERVAL : Z := 30.
Definition send_ping (a : EventDealerWebSocket T) : EventDealerWebSocket T := write_frame (PingFrame "") a.

(** [StreamHandler<MessageWrapper<T>, ()>] *)
Definition handle_wrapper (msg : MessageWrapper T) (a : EventDealerWebSocket T) : EventDealerWebSocket T :=
  match msg with
  | WrapMessage msg =>
      match to_json msg with
      | Some text => write_frame (TextFrame text) a
      | None => a
      end
  | WrapShutdown => ctx_stop (write_frame (CloseFrame Away None) a)
  end.
Definition stream_error (a : EventDealerWebSocket T) : EventDealerWebSocket T :=
  ctx_stop (write_frame (CloseFrame CloseError None) a).

(** [StreamHandler<ws::Message, ws::ProtocolError>] *)
Definition handle_client (msg : WsMessage) (a : EventDealerWebSocket T) : EventDealerWebSocket T :=
  match msg with
  | WsPing msg => write_frame (PingFrame msg) a
  | WsPong msg => write_frame (PongFrame msg) a
  | WsText text => write_frame (TextFrame text) a
  | WsBinary bin => write_frame (BinaryFrame bin) a
  | WsClose => ctx_stop (write_frame (CloseFrame Normal (Some "Received close frame closing normally")) a)
  | WsNop => a
  end.

(** An actor that was stopped handles nothing more. *)
Definition read_stream (a : EventDealerWebSocket T) : EventDealerWebSocket T :=
  foldl (λ a msg, if ews_stopped a then a else handle_wrapper msg a)
    (mkEventDealerWebSocket (ews_stream a) [] (ews_frames a) (ews_stopped a)) (ews_reading a).
End websocket.

(** ** Errors and events *)

Inductive AdminServiceError :=
  | AdminServiceServiceError (e : ServiceError)
  | AdminServiceGeneralError (context : string).

Record JsonAdminEvent := mkJsonAdminEvent {
  je_timestamp : Z;
  je_event : Msg.AdminServiceEvent;
}.
Definition json_admin_event_from (raw_evt : Z * Msg.AdminServiceEvent) : JsonAdminEvent :=
  mkJsonAdminEvent raw_evt.1 raw_evt.2.

(** [st_as_millis], of a time in nanoseconds *)
Definition st_as_millis (data : Z) : result panic Z :=
  if (data <? UNIX_EPOCH)%Z then Err Panic else Ok ((data - UNIX_EPOCH) / 1000000)%Z.

(** ** The routes *)

(** The streams of the websockets that are open are part of the world. *)
Class Websockets (W : Type) := {
  streams : W → Streams JsonAdminEvent;
  set_streams : Streams JsonAdminEvent → W → W;
}.
Class WebsocketsLaws (W : Type) `{!Websockets W} : Prop := {
  streams_set x w : streams (set_streams x w) = x;
  set_streams_set x y w : set_streams x (set_streams y w) = set_streams x w;
  set_streams_same w : set_streams (streams w) w = w;
}.
#[export] Instance pair_websockets {W0} : Websockets (W0 * Streams JsonAdminEvent) := {
  streams := snd;
  set_streams x w := (w.1, x);
}.
#[export] Instance pair_websockets_laws {W0} : WebsocketsLaws (W0 * Streams JsonAdminEvent).
Proof. split; [done..|]. by intros []. Qed.

Section routes.
Context {D W : Type} `{!FileSystem D}.
Context `{!Serde ProposalRegistry, !Sha256, !Codec Proto.Circuit, !Codec Proto.CircuitProposal,
  !Codec Proto.Header, !Codec Proto.CircuitManagementPayload}.
Context `{!KeyRegistry W, !KeyPermissionManager W, !SignatureVerifier W, !PeerConnector W,
  !AuthorizationInquisitor W, !SystemClock W, !Websockets W}.

Definition in_streams {E X} (m : eff (Streams JsonAdminEvent) E X) : eff W E X := λ w,
  let '(r, x) := m (streams w) in (r, set_streams x w).

(** [WsAdminServiceEventSubscriber], which is its sender *)
#[export] Instance ws_subscribers : Subscribers W nat := λ sender event timestamp,
  in_streams (emap_err (λ _, Unsubscribe) (event_send sender (mkJsonAdminEvent timestamp event))).

(** The dealers of [AdminEventDealers], by type, and the admin service.  The senders of a
    dealer are those it was made with: [subscribe] does not keep any. *)
Record AdminRest := mkAdminRest {
  event_dealers_by_type : gmap string (list nat);
  rest_admin : Admin nat D W;
}.
Definition in_admin {E X} (m : eff (Admin nat D W) E X) : eff AdminRest E X := λ s,
  let '(r, a) := m (rest_admin s) in (r, mkAdminRest (event_dealers_by_type s) a).

(** [AdminServiceCommands] *)
Definition submit_circuit_change (circuit_change : Proto.CircuitManagementPayload) :
    eff AdminRest AdminServiceError () :=
  in_admin (emap_err AdminServiceServiceError (submit circuit_change)).
Definition add_event_subscriber (event_type : string) (subscriber : nat) : eff AdminRest AdminServiceError () :=
  in_admin (add_subscriber event_type subscriber).
Definition commands_get_events_since (since : Z) (event_type : string) :
    eff AdminRest panic (MailboxIter * (Msg.AdminServiceEvent → bool)) :=
  in_admin (get_events_since since event_type).

(** [make_submit_route] *)
Definition submit_response (r : result AdminServiceError ()) : result panic Response :=
  match r with
  | Ok _ => Ok (finish 202)
  | Err (AdminServiceServiceError (SvcUnableToHandleMessage _)) => Ok (mkResponse 400 "Unable to handle message")
  | Err (AdminServiceServiceError SvcInvalidMessageFormat) => Ok (mkResponse 400 "Failed to parse payload")
  | Err (AdminServiceServiceError SvcPanic) => Err Panic
  | Err _ => Ok (finish 500)
  end.
Definition submit_handler : HandlerFunction AdminRest := λ _ payload s,
  match into_protobuf payload with
  | Ok payload => let '(r, s) := submit_circuit_change payload s in (submit_response r, s)
  | Err res => (Ok res, s)
  end.
Definition make_submit_route : Resource AdminRest :=
  add_method Post submit_handler (resource_build "/admin/submit").

(** [AdminEventDealers::add_event_dealer].  The events a websocket is started with are read
    from the iterator; one more than the mailbox holds is enough. *)
Definition initial_events (s : AdminRest) (events : MailboxIter * (Msg.AdminServiceEvent → bool)) :
    option (list JsonAdminEvent) :=
  (λ l : list (Z * Msg.AdminServiceEvent), json_admin_event_from <$> filter (λ x, Is_true (events.2 x.2)) l) <$>
    mailbox_collect (S DEFAULT_IN_MEMORY_EVENT_LIMIT) (event_mailbox (shared (rest_admin s))) events.1.
Definition add_event_dealer (starts : bool) (event_type : string) (initial : list JsonAdminEvent) :
    eff AdminRest ResponseError nat :=
  modify (λ s, mkAdminRest
    (<[event_type := default [] (event_dealers_by_type s !! event_type)]> (event_dealers_by_type s)) (rest_admin s));;
  in_admin (in_world (in_streams (dealer_subscribe starts initial))).

(** [make_application_handler_registration_route], up to the subscription and from it on:
    the service is locked for the events, and again for the subscription, so that these are
    two steps for the other threads.  [starts] says whether actix starts the websocket. *)
Definition open_websocket (starts : bool) (event_type : string) : eff AdminRest panic (result ResponseError nat) :=
  events ← commands_get_events_since UNIX_EPOCH event_type;
  s ← get;
  initial ← lift (ok_or Panic (initial_events s events));
  attempt (add_event_dealer starts event_type initial).
Definition subscribe_websocket (event_type : string) (r : result ResponseError nat) : eff AdminRest panic Response :=
  match r with
  | Ok sender =>
      r ← attempt (add_event_subscriber event_type sender);
      mret (match r with Ok _ => finish 101 | Err _ => finish 500 end)
  | Err _ => mret (finish 500)
  end.
(** The route when nothing comes between *)
Definition register_handler (starts : bool) : HandlerFunction AdminRest := λ info _,
  match info !! "type" with
  | Some event_type => r ← open_websocket starts event_type; subscribe_websocket event_type r
  | None => mret (finish 400)
  end.
Definition make_application_handler_registration_route (starts : bool) : Resource AdminRest :=
  add_method Get (register_handler starts) (resource_build "/ws/admin/register/{type}").

Definition admin_resources (starts : bool) : list (Resource AdminRest) :=
  [make_application_handler_registration_route starts; make_submit_route].
End routes.
