(* ===== verification/AdminRestProps.v ===== *)
(** * What an application sees of the admin service

    Theorems on the routes of [AdminRest]: what a websocket writes for the application
    that registered with it, and when a change is accepted. *)

From stdpp Require Import gmap.
From Stdlib Require Import ZArith.
From S2P Require Import Prelude Storage Circuit Hex Keys Consensus AdminMessages DurableSets Mailbox.
From S2P Require Import OpenProposals AdminShared Events RestApi AdminRest.

(** ** Subscribers and streams *)

Abbreviation view := (gmap string (list nat) * Streams JsonAdminEvent)%type.

Definition view_send (ty : string) (je : JsonAdminEvent) (v : view) : view :=
  match v.1 !! ty with
  | Some subs => let '(kept, x) := retain_sending je subs v.2 in (<[ty := kept]> v.1, x)
  | None => v
  end.
Definition view_open (init : list JsonAdminEvent) (x : Streams JsonAdminEvent) : Streams JsonAdminEvent :=
  mkStreams (<[st_next x := WrapMessage <$> init]> (st_open x)) (S (st_next x)).
Definition view_subscribe (ty : string) (k : nat) (v : view) : view :=
  (<[ty := default [] (v.1 !! ty) ++ [k]]> v.1, v.2).
Definition view_close (k : nat) (v : view) : view := (v.1, mkStreams (delete k (st_open v.2)) (st_next v.2)).

(** The sender [k] is that of a subscriber to [ty]. *)
Definition subscription (k : nat) (v : view) (ty : string) : Prop := ∃ subs, v.1 !! ty = Some subs ∧ k ∈ subs.
(** The senders of subscribers and websockets are distinct and were handed out. *)
Definition subscribers_ok (v : view) : Prop :=
  (∀ ty subs, v.1 !! ty = Some subs → NoDup subs ∧ ∀ x, x ∈ subs → x < st_next v.2) ∧
  (∀ ty1 ty2 subs1 subs2 x, v.1 !! ty1 = Some subs1 → v.1 !! ty2 = Some subs2 → x ∈ subs1 → x ∈ subs2 → ty1 = ty2) ∧
  (∀ x, is_Some (st_open v.2 !! x) → x < st_next v.2).
(** [q] went to the websocket of the sender [k], which is the one of a subscriber to [sub],
    or not subscribed. *)
Definition watching (k : nat) (sub : option string) (q : list (MessageWrapper JsonAdminEvent)) (v : view) : Prop :=
  subscribers_ok v ∧ (∀ ty, subscription k v ty ↔ sub = Some ty) ∧ st_open v.2 !! k = Some q.

Lemma view_open_ok init v : subscribers_ok v → subscribers_ok (v.1, view_open init v.2).
Proof.
  intros (Hs & Hd & Ho). split_and!; [|exact Hd|]; cbn.
  - intros ty subs Hl. destruct (Hs _ _ Hl) as [? Hlt]. split; [done|]. intros x Hx. specialize (Hlt x Hx). lia.
  - intros x. rewrite lookup_insert_is_Some. intros [<-|[_ ?%Ho]]; lia.
Qed.
Lemma view_open_new init v :
  subscribers_ok v → watching (st_next v.2) None (WrapMessage <$> init) (v.1, view_open init v.2).
Proof.
  intros Hok. split_and!; [by apply view_open_ok| |cbn; by rewrite lookup_insert_eq].
  destruct Hok as (Hs & _ & _). intros ty. split; [|done]. intros (subs & Hl & Hin). apply (Hs _ _ Hl) in Hin. lia.
Qed.
Lemma view_open_watching k sub q init v : watching k sub q v → watching k sub q (v.1, view_open init v.2).
Proof.
  intros (Hok & Hsub & Hq). split_and!; [by apply view_open_ok|exact Hsub|]. cbn.
  assert (k < st_next v.2) by (by apply Hok; eexists). by rewrite lookup_insert_ne by lia.
Qed.

(** A sender that was handed out and is not that of a subscriber yet *)
Definition unsubscribed (k : nat) (v : view) : Prop := k < st_next v.2 ∧ ∀ ty, ¬ subscription k v ty.

Lemma subscribe_subscription ty k v x ty' :
  subscription x (view_subscribe ty k v) ty' ↔ subscription x v ty' ∨ ty' = ty ∧ x = k.
Proof.
  unfold subscription. cbn. destruct (decide (ty' = ty)) as [->|Hne].
  - rewrite lookup_insert_eq. split.
    + intros (l & [= <-] & [Hin| ->%list_elem_of_singleton]%elem_of_app); [left|by right].
      destruct (v.1 !! ty) as [subs|]; [by exists subs|by apply elem_of_nil in Hin].
    + intros [(l & -> & Hin)|[_ ->]]; (eexists; split; [reflexivity|]); apply elem_of_app; [by left|right].
      by apply list_elem_of_singleton.
  - rewrite lookup_insert_ne by done. naive_solver.
Qed.
Lemma view_subscribe_ok ty k v : subscribers_ok v → unsubscribed k v → subscribers_ok (view_subscribe ty k v).
Proof.
  intros (Hs & Hd & Ho) [Hk Hnot]. split_and!; [| |exact Ho].
  - cbn. intros ty' subs [[<- <-]|[Hne Hl]]%lookup_insert_Some; [|by apply (Hs _ _ Hl)].
    destruct (v.1 !! ty) as [subs|] eqn:Hl; cbn.
    + destruct (Hs _ _ Hl) as [Hnd Hlt]. split; [|intros x; rewrite elem_of_app, list_elem_of_singleton; intros [?| ->]; auto].
      apply NoDup_app. split_and!; [done| |apply NoDup_singleton]. intros x Hx ->%list_elem_of_singleton.
      apply (Hnot ty). by exists subs.
    + split; [apply NoDup_singleton|]. by intros x ->%list_elem_of_singleton.
  - intros ty1 ty2 subs1 subs2 x Hl1 Hl2 Hx1 Hx2.
    assert (subscription x (view_subscribe ty k v) ty1) as H1 by (by exists subs1).
    assert (subscription x (view_subscribe ty k v) ty2) as H2 by (by exists subs2).
    apply subscribe_subscription in H1 as [H1|[E1 X1]], H2 as [H2|[E2 X2]].
    2: { subst. by destruct (Hnot ty1). }
    2: { subst. by destruct (Hnot ty2). }
    2: by subst.
    destruct H1 as (l1 & ? & ?), H2 as (l2 & ? & ?). by eapply (Hd ty1 ty2 l1 l2 x).
Qed.
Lemma view_subscribe_other k sub q ty k' v :
  k' ≠ k → unsubscribed k' v → watching k sub q v → watching k sub q (view_subscribe ty k' v).
Proof.
  intros Hne Hk' (Hok & Hsub & Hq). split_and!; [by apply view_subscribe_ok| |done].
  intros ty'. rewrite subscribe_subscription, Hsub. naive_solver.
Qed.
Lemma view_subscribe_self k q ty v : watching k None q v → watching k (Some ty) q (view_subscribe ty k v).
Proof.
  intros (Hok & Hsub & Hq). split_and!; [|intros ty'; rewrite subscribe_subscription, Hsub; naive_solver|done].
  apply view_subscribe_ok; [done|]. split; [by apply Hok; eexists|]. intros ty'. by rewrite Hsub.
Qed.

Lemma view_send_watching k sub q ty je v :
  watching k sub q v →
  watching k sub (q ++ if decide (sub = Some ty) then [WrapMessage je] else []) (view_send ty je v).
Proof.
  intros ((Hs & Hd & Ho) & Hsub & Hq). unfold view_send. destruct (v.1 !! ty) as [subs|] eqn:Hl.
  2: { rewrite decide_False, app_nil_r; [by split_and!; [split_and!|..]|].
       intros (subs & Hl' & _)%Hsub. congruence. }
  pose proof (retain_sending_spec je subs v.2 (proj1 (Hs _ _ Hl))) as Hspec.
  destruct (retain_sending je subs v.2) as [kept x]. destruct Hspec as (-> & Hnext & Hopen).
  assert (k ∈ subs ↔ sub = Some ty) as Hk.
  { rewrite <- Hsub. split; [by exists subs|]. intros (l & Hl' & ?). congruence. }
  split_and!; [split_and!| |]; cbn.
  - intros ty1 l [[<- <-]|[_ Hl1]]%lookup_insert_Some; rewrite Hnext; [|by apply (Hs _ _ Hl1)].
    destruct (Hs _ _ Hl) as [? Hlt]. split; [by apply NoDup_filter|]. intros y [_ Hy]%list_elem_of_filter. by apply Hlt.
  - intros ty1 ty2 l1 l2 y [[<- <-]|[_ Hl1]]%lookup_insert_Some [[<- <-]|[_ Hl2]]%lookup_insert_Some;
      rewrite ?list_elem_of_filter; naive_solver.
  - intros y. rewrite Hopen, Hnext. case_decide; rewrite ?fmap_is_Some; apply Ho.
  - intros ty'. rewrite <- Hsub. unfold subscription. cbn. destruct (decide (ty' = ty)) as [->|Hne].
    + rewrite lookup_insert_eq, Hl. split.
      * intros (l & [= <-] & [_ ?]%list_elem_of_filter). eauto.
      * intros (l & [= <-] & ?). eexists. split; [done|]. apply list_elem_of_filter. rewrite Hq. naive_solver.
    + by rewrite lookup_insert_ne by done.
  - rewrite Hopen, Hq. destruct (decide (k ∈ subs)), (decide (sub = Some ty)); try tauto. cbn. by rewrite app_nil_r.
Qed.
Lemma view_close_watching k sub q k' v : k' ≠ k → watching k sub q v → watching k sub q (view_close k' v).
Proof.
  intros Hne ((Hs & Hd & Ho) & Hsub & Hq). split_and!; [split_and!|exact Hsub|]; cbn; [done..| |].
  - intros x. rewrite lookup_delete_is_Some. intros [_ ?]. by apply Ho.
  - by rewrite lookup_delete_ne.
Qed.

(** ** What a websocket writes *)

Section frames.
Context {T : Type} `{!ToJson T}.

(** The text frames of events *)
Definition texts (l : list T) : list Frame := TextFrame <$> omap to_json l.

Lemma read_messages l (a : EventDealerWebSocket T) :
  ews_stopped a = false →
  foldl (λ a msg, if ews_stopped a then a else handle_wrapper msg a) a (WrapMessage <$> l) =
  mkEventDealerWebSocket (ews_stream a) (ews_reading a) (ews_frames a ++ texts l) false.
Proof.
  revert a. induction l as [|e l IH]; intros [st rd fr stopped]; cbn; intros ->.
  - by rewrite app_nil_r.
  - rewrite IH by (by cbn; destruct (to_json e)). unfold texts. cbn.
    destruct (to_json e) as [t|]; cbn; [|done]. by rewrite <- app_assoc.
Qed.
(** A websocket writes the events of its stream, in order. *)
Lemma websocket_writes l :
  ews_frames (read_stream (started (websocket_new (WrapMessage <$> l)))) = texts l.
Proof. unfold read_stream. cbn. by rewrite read_messages. Qed.
(** It closes once its sender is dropped, and writes nothing more. *)
Lemma websocket_closes l more :
  let a := read_stream (started (websocket_new ((WrapMessage <$> l) ++ WrapShutdown :: more))) in
  ews_frames a = texts l ++ [CloseFrame Away None] ∧ ews_stopped a = true.
Proof.
  unfold read_stream. cbn. rewrite foldl_app, read_messages by done. cbn.
  induction more as [|msg more IH]; cbn; [done|]. exact IH.
Qed.
End frames.

(** ** The routes *)

Section routes.
Context {D W : Type} `{!FileSystem D}.
Context `{!SystemClock W, !Websockets W, !WebsocketsLaws W}.

Abbreviation state := (AdminRest (D := D) (W := W)).

Definition view_of (s : state) : view := (event_subscribers (shared (rest_admin s)), streams (world (rest_admin s))).
(** Telling the time does not touch the websockets. *)
Class ClockApart : Prop := clock_apart w : streams (system_time w).2 = streams w.
Context {Hclock : ClockApart}.

Lemma broadcast_retains {E} subs e t w :
  broadcast_events (E := E) subs e t w =
    let '(kept, x) := retain_sending (mkJsonAdminEvent t e) subs (streams w) in (Ok kept, set_streams x w).
Proof.
  revert w. induction subs as [|k subs IH]; intros w; cbn; [by rewrite set_streams_same|].
  unfold handle_event, ws_subscribers, in_streams, emap_err, event_send, mbind, eff_bind, attempt. cbn.
  destruct (st_open (streams w) !! k) as [q|] eqn:Hq; cbn.
  - rewrite IH, streams_set. destruct (retain_sending _ _ _) as [kept x]. cbn. by rewrite set_streams_set.
  - rewrite set_streams_same, IH. unfold event_drop. rewrite Hq.
    by destruct (retain_sending _ _ _) as [kept x].
Qed.

Lemma send_event_view {E} ty e (s : state) :
  (in_admin (send_event (E := E) ty e) s).1 = Ok () ∧
  view_of (in_admin (send_event (E := E) ty e) s).2 =
    view_send ty (mkJsonAdminEvent (system_time (world (rest_admin s))).1 e) (view_of s).
Proof.
  unfold in_admin, send_event, view_of, view_send. pose proof (clock_apart (world (rest_admin s))) as Hc.
  destruct (system_time (world (rest_admin s))) as [now w]. cbn in *.
  destruct (event_subscribers (shared (rest_admin s)) !! ty) as [subs|] eqn:Hs; cbn.
  2: { by rewrite Hc. }
  unfold mbind, eff_bind, in_world. cbn. rewrite broadcast_retains, Hc.
  destruct (retain_sending _ _ _) as [kept x]. cbn. by rewrite streams_set.
Qed.

(** Opening a websocket: nothing changes, or one more is open. *)
Lemma open_websocket_view starts ty (s : state) :
  match open_websocket starts ty s with
  | (Ok (Ok k), s1) => k = st_next (view_of s).2 ∧ ∃ init, view_of s1 = ((view_of s).1, view_open init (view_of s).2)
  | (_, s1) => view_of s1 = view_of s
  end.
Proof.
  unfold open_websocket, commands_get_events_since, in_admin, get_events_since, mbind, eff_bind.
  pose proof (clock_apart (world (rest_admin s))) as Hc.
  destruct (system_time (world (rest_admin s))) as [now w]. cbn -[initial_events] in Hc |- *.
  destruct (mailbox_iter now _) as [it|p]; cbn -[initial_events]; [|by unfold view_of; cbn; rewrite Hc].
  destruct (initial_events (D := D) (W := W) _ _) as [init|]; cbn; [|by unfold view_of; cbn; rewrite Hc].
  unfold attempt, add_event_dealer, mbind, eff_bind, in_admin, in_world, in_streams, dealer_subscribe. destruct starts; cbn; unfold view_of; cbn;
    rewrite streams_set, Hc; eauto.
Qed.
Lemma subscribe_websocket_view ty (s : state) k :
  subscribe_websocket ty (Ok k) s = (Ok (finish 101), (subscribe_websocket ty (Ok k) s).2) ∧
  view_of (subscribe_websocket ty (Ok k) s).2 = view_subscribe ty k (view_of s).
Proof. done. Qed.

(** The events of a type of circuit that are in the mailbox *)
Definition mailbox_events (ty : string) (l : list EventEntry) : list JsonAdminEvent :=
  (λ e, mkJsonAdminEvent (timestamp e) (event e)) <$>
  filter (λ e, Msg.circuit_management_type (Msg.circuit (Msg.event_proposal (event e))) = ty) l.
(** The mailbox, at the time of a registration *)
Definition mailbox_ok (now : Z) (l : list EventEntry) : Prop :=
  ordered timestamp l ∧ length l ≤ DEFAULT_IN_MEMORY_EVENT_LIMIT ∧
  Forall (λ e, UNIX_EPOCH ≤ timestamp e < now)%Z l ∧ (UNIX_EPOCH ≤ now)%Z.

Lemma mailbox_all now l :
  mailbox_ok now l → ∃ it, mailbox_iter now l = Ok it ∧
    mailbox_collect (S DEFAULT_IN_MEMORY_EVENT_LIMIT) l it = Some ((λ e, (timestamp e, event e)) <$> l).
Proof.
  intros (Hl & Hlen & Ht & Hnow).
  destruct (load_page_unread (Included UNIX_EPOCH) now l) as (it & Hit & Hu & _); [done|cbn; lia|].
  exists it. split; [done|].
  assert (in_range (Included UNIX_EPOCH) now l = l) as Hr.
  { apply filter_all. eapply Forall_impl; [done|]. intros e [Hlo Hhi]. cbn -[UNIX_EPOCH].
    apply Is_true_true, andb_true_iff. rewrite Z.leb_le, Z.ltb_lt. done. }
  rewrite mailbox_collect_unread; rewrite ?Hu, ?Hr; [done..|]. lia.
Qed.
Lemma open_websocket_initial ty (s : state) :
  mailbox_ok (system_time (world (rest_admin s))).1 (event_mailbox (shared (rest_admin s))) →
  ∃ s1, open_websocket true ty s = (Ok (Ok (st_next (view_of s).2)), s1) ∧
    view_of s1 =
      ((view_of s).1, view_open (mailbox_events ty (event_mailbox (shared (rest_admin s)))) (view_of s).2).
Proof.
  intros Hm. unfold open_websocket, commands_get_events_since, in_admin, get_events_since, mbind, eff_bind.
  pose proof (clock_apart (world (rest_admin s))) as Hc.
  destruct (system_time (world (rest_admin s))) as [now w]. cbn -[initial_events mailbox_ok] in Hc, Hm |- *.
  destruct (mailbox_all _ _ Hm) as (it & Hit & Hcol). rewrite Hit. cbn -[initial_events].
  unfold initial_events. cbn [rest_admin shared fst snd]. rewrite Hcol. cbn [fmap option_fmap option_map ok_or].
  unfold attempt, add_event_dealer, mbind, eff_bind, in_admin, in_world, in_streams, dealer_subscribe. cbn.
  rewrite Hc. eexists. split; [reflexivity|]. unfold view_of. cbn. rewrite streams_set. unfold view_open. do 4 f_equal.
  unfold mailbox_events. clear. induction (event_mailbox (shared (rest_admin s))) as [|e l IH]; [done|].
  cbn [fmap list_fmap]. rewrite !filter_cons. cbn. repeat case_decide; cbn; rewrite ?IH; try done;
    by rewrite ?bool_decide_spec in *.
Qed.
(** ** Registered applications *)

(** What may happen while the websocket [k] of an application is open: an event, which is
    logged with its type, another application opens a websocket or subscribes with the one
    it opened, another websocket ends, or anything that neither touches the subscribers nor
    the websockets. *)
Inductive while_open (k : nat) : state → list (string * JsonAdminEvent) → state → Prop :=
  | wo_done s : while_open k s [] s
  | wo_event ty e s l s' :
      while_open k (in_admin (send_event (E := panic) ty e) s).2 l s' →
      while_open k s ((ty, mkJsonAdminEvent (system_time (world (rest_admin s))).1 e) :: l) s'
  | wo_open starts ty s l s' :
      while_open k (open_websocket starts ty s).2 l s' → while_open k s l s'
  | wo_subscribe k' ty s l s' :
      k' ≠ k → unsubscribed k' (view_of s) →
      while_open k (subscribe_websocket ty (Ok k') s).2 l s' → while_open k s l s'
  | wo_close k' s s1 l s' :
      k' ≠ k → view_of s1 = view_close k' (view_of s) → while_open k s1 l s' → while_open k s l s'
  | wo_other s s1 l s' : view_of s1 = view_of s → while_open k s1 l s' → while_open k s l s'.

(** The events of a type among those that were logged *)
Definition events_of (ty : string) (l : list (string * JsonAdminEvent)) : list JsonAdminEvent :=
  snd <$> filter (λ x, x.1 = ty) l.

Lemma while_open_stream k sub s l s' q :
  while_open k s l s' → watching k sub q (view_of s) →
  watching k sub (q ++ (WrapMessage <$> from_option (λ ty, events_of ty l) [] sub)) (view_of s').
Proof.
  intros Hrun. revert q.
  induction Hrun as [s|ty e s l s' _ IH|starts ty s l s' _ IH|k' ty s l s' Hne Hk' _ IH|k' s s1 l s' Hne Hv _ IH|s s1 l s' Hv _ IH];
    intros q Hq.
  - destruct sub; by rewrite app_nil_r.
  - destruct (send_event_view (E := panic) ty e s) as [_ Hv].
    apply (view_send_watching _ _ _ ty (mkJsonAdminEvent (system_time (world (rest_admin s))).1 e)) in Hq.
    rewrite <- Hv in Hq. apply IH in Hq. destruct sub as [ty'|]; cbn [from_option] in *.
    2: { rewrite decide_False in Hq by done. by rewrite app_nil_r in Hq. }
    unfold events_of in *. rewrite filter_cons. cbn [fst]. destruct (decide (Some ty' = Some ty)) as [[= <-]|Hne].
    + rewrite decide_True by done. rewrite <- app_assoc in Hq. exact Hq.
    + rewrite decide_False by congruence. rewrite app_nil_r in Hq. exact Hq.
  - apply IH. pose proof (open_websocket_view starts ty s) as Ho.
    destruct (open_websocket starts ty s) as [[[k'|e]|e] s1]; cbn; [|by rewrite Ho..].
    destruct Ho as [_ [init ->]]. by apply view_open_watching.
  - apply IH. rewrite (proj2 (subscribe_websocket_view ty s k')). by apply view_subscribe_other.
  - apply IH. rewrite Hv. by apply view_close_watching.
  - apply IH. by rewrite Hv.
Qed.

Context `{!ToJson JsonAdminEvent}.

(** C31: an application that registers for a type of circuit is answered with 101, and is told
    of every event of that type that the mailbox holds when its websocket is opened and of
    every one after its subscription, in order, each once, and of no event of another type,
    whatever other applications do meanwhile: before, between and after these two steps of
    the route, which is not one step for the other threads.  An event between the two
    ([l0]) is not told of.  The mailbox is as its timestamps have it: in their order, within
    its bound, and before the time at which the websocket is opened. *)
Theorem registered_application_sees_events ty (s s2 s4 : state) l0 l :
  subscribers_ok (view_of s) →
  mailbox_ok (system_time (world (rest_admin s))).1 (event_mailbox (shared (rest_admin s))) →
  let k := st_next (view_of s).2 in
  while_open k (open_websocket true ty s).2 l0 s2 →
  while_open k (subscribe_websocket ty (Ok k) s2).2 l s4 →
  (open_websocket true ty s).1 = Ok (Ok k) ∧
  (subscribe_websocket ty (Ok k) s2).1 = Ok (finish 101) ∧
  (∃ q, st_open (view_of s4).2 !! k = Some q ∧
    ews_frames (read_stream (started (websocket_new q))) =
      texts (mailbox_events ty (event_mailbox (shared (rest_admin s))) ++ events_of ty l)) ∧
  ∀ info p, info !! "type" = Some ty →
    register_handler true info p s = subscribe_websocket ty (Ok k) (open_websocket true ty s).2.
Proof.
  intros Hok Hm k Hgap Hrun. destruct (open_websocket_initial ty s Hm) as (s1 & Ho & Hv).
  assert (watching k None (WrapMessage <$> mailbox_events ty (event_mailbox (shared (rest_admin s)))) (view_of s1)) as Hw.
  { rewrite Hv. by apply view_open_new. }
  rewrite Ho in *. apply (while_open_stream _ _ _ _ _ _ Hgap) in Hw. cbn in Hw. rewrite app_nil_r in Hw.
  apply (view_subscribe_self _ _ ty) in Hw. rewrite <- (proj2 (subscribe_websocket_view ty s2 k)) in Hw.
  apply (while_open_stream _ _ _ _ _ _ Hrun) in Hw as (_ & _ & Hq). split_and!; [done..| |].
  - eexists. split; [done|]. by rewrite <- fmap_app, websocket_writes.
  - intros info p Hinfo. unfold register_handler. rewrite Hinfo. by apply eff_bind_ok.
Qed.
End routes.

(** ** Submitted changes *)

Section submits.
Context {D W : Type} `{!FileSystem D}.
Context `{!Serde ProposalRegistry, !Sha256, !Codec Proto.Circuit, !Codec Proto.CircuitProposal,
  !Codec Proto.Header, !Codec Proto.CircuitManagementPayload}.
Context `{!KeyRegistry W, !KeyPermissionManager W, !SignatureVerifier W, !PeerConnector W,
  !AuthorizationInquisitor W, !SystemClock W, !Websockets W}.

Abbreviation state := (AdminRest (D := D) (W := W)).

(** The payloads that wait for consensus, and those that wait for peers *)
Definition queues (a : AdminServiceShared nat) : list Proto.CircuitManagementPayload * list UnpeeredPendingPayload :=
  (pending_circuit_payloads a, unpeered_payloads a).
(** A payload is queued, behind those that were. *)
Definition queued (payload : Proto.CircuitManagementPayload) (a a' : AdminServiceShared nat) : Prop :=
  queues a' = (pending_circuit_payloads a ++ [payload], unpeered_payloads a) ∨
  ∃ peers, peers ≠ [] ∧ queues a' = (pending_circuit_payloads a, unpeered_payloads a ++ [(peers, payload)]).

Lemma connect_members_shared l unauthorized (s : Admin nat D W) :
  shared (connect_members l unauthorized s).2 = shared s ∧
  ((connect_members l unauthorized s).1 ≠ Err SvcPanic).
Proof.
  revert unauthorized s. induction l as [|n l IH]; intros u s; [done|].
  cbn [connect_members]. unfold mbind, eff_bind, get. cbn. case_bool_decide; [|by apply IH].
  destruct (peer_authorized _ _); [by apply IH|].
  unfold emap_err, in_world. destruct (connect_peer _ _ _) as [[]  w]; cbn; [|done]. apply (IH _ (mkAdmin _ _ _ _)).
Qed.
Lemma submit_queues payload (s : Admin nat D W) :
  match submit payload s with
  | (Ok _, s') => queued payload (shared s) (shared s') ∧
      ∃ header : Proto.Header, parse_from_bytes (Proto.header payload) = Some header ∧
        validate_circuit_management_payload payload header = Ok ()
  | (Err e, s') => shared s' = shared s ∧ e ≠ SvcPanic
  end.
Proof.
  unfold submit, mbind, eff_bind, get, lift. cbn.
  destruct (parse_from_bytes (Proto.header payload)) as [header|] eqn:Hh; cbn; [|done].
  destruct (validate_circuit_management_payload payload header) as [[]|e] eqn:Hv; cbn; [|done].
  unfold verify_signature. rewrite Hh. cbn. destruct (verify _ _ _ _); cbn; [|done].
  destruct (Proto.h_action header); cbn; [done| | |done].
  - split; [by left|eauto].
  - unfold propose_circuit, mbind, eff_bind.
    pose proof (connect_members_shared (Proto.members (Proto.ccr_circuit (Proto.circuit_create_request payload))) [] s) as [Hs Hp].
    destruct (connect_members _ _ _) as [[[|u us]|e] s1]; cbn in *.
    + split; [left; unfold queues; cbn; by rewrite Hs|eauto].
    + split; [right|by eauto]. exists (u :: us). unfold queues. cbn. by rewrite Hs.
    + split; [done|congruence].
Qed.

(** The route answers with 202 exactly when the change is one that the admin service takes
    up: it is queued, once and behind the others; an answer with another status leaves
    what is queued as it was. *)
Theorem submit_accepted_queued info p (s : state) :
  ∃ res, (submit_handler info p s).1 = Ok res ∧
  let a := shared (rest_admin s) in
  let a' := shared (rest_admin (submit_handler info p s).2) in
  if decide (status res = 202%Z) then
    ∃ payload, into_protobuf p = Ok payload ∧ queued payload a a' ∧
      ∃ header : Proto.Header, parse_from_bytes (Proto.header payload) = Some header ∧
        validate_circuit_management_payload payload header = Ok ()
  else (status res = 400%Z ∨ status res = 500%Z) ∧ a' = a.
Proof.
  unfold submit_handler. destruct (into_protobuf p) as [payload|res] eqn:Hp.
  - unfold submit_circuit_change, in_admin, emap_err. pose proof (submit_queues payload (rest_admin s)) as Hq.
    destruct (submit payload (rest_admin s)) as [[[]|e] s1]; cbn in *.
    + exists (finish 202). split; [done|]. rewrite decide_True by done. naive_solver.
    + destruct Hq as [Hs He]. destruct e; [..|done]; (eexists; split; [reflexivity|]); rewrite decide_False by done; cbn; auto.
  - exists res. split; [done|]. unfold into_protobuf in Hp.
    assert (status res = 400%Z) as Hs.
    { destruct (collect_body p "") as [b|r] eqn:Hb; cbn in Hp.
      - destruct (parse_from_bytes b); cbn in Hp; [done|]. by simplify_eq.
      - simplify_eq. clear -Hb. revert Hb. generalize "" as acc.
        induction p as [|[c|e] p IH]; intros acc; cbn; [done|by apply IH|by intros [= <-]]. }
    rewrite Hs, decide_False by done. by auto.
Qed.
End submits.

(** ** An application *)

Module AdminRestExample.
Abbreviation world := (Z * Streams JsonAdminEvent)%type.
#[export] Instance clock : SystemClock world := λ w, (w.1, ((w.1 + 1)%Z, w.2)).
#[export] Instance clock_ok : ClockApart (W := world).
Proof. done. Qed.
#[export] Instance json : ToJson JsonAdminEvent := λ e, Some (Msg.requester_node_id (Msg.event_proposal (je_event e))).

Definition proposal (ty node : string) : Msg.CircuitProposal :=
  Msg.mkCircuitProposal Msg.Create "c" "hash"
    (Msg.mkCreateCircuit "c" [] [] AuthTrust PersistenceAny NoDurability RouteAny ty "") [] "key" node.
Definition submitted (ty node : string) : Msg.AdminServiceEvent := Msg.ProposalSubmitted (proposal ty node).

Abbreviation example := (AdminRest (D := ()) (W := world)).
Definition admin0 : Admin nat () world :=
  mkAdmin (mkAdminServiceShared "n1" (mkOpenProposals "memory" ∅) ∅ ∅ true [] [] ∅ None [] ∅
      [mkEventEntry 1 (submitted "game" "n1"); mkEventEntry 2 (submitted "other" "n2")])
    (splinter_state_new "memory" Directory.new) () (5%Z, mkStreams ∅ 0).
Definition state0 : example := mkAdminRest ∅ admin0.

(** Another application registers before, between and after the two steps; the event that
    comes between them is missed. *)
Lemma registered_application_sees_events_witness :
  ∃ (s' : example) q, st_open (view_of s').2 !! 0 = Some q ∧
    ews_frames (read_stream (started (websocket_new q))) = [TextFrame "n1"; TextFrame "n5"].
Proof.
  set (s1 := (open_websocket true "game" state0).2 : example).
  set (s2 := (open_websocket true "other" s1).2 : example).
  set (s3 := (in_admin (send_event (E := panic) "game" (submitted "game" "n3")) s2).2 : example).
  set (s4 := (subscribe_websocket "game" (Ok 0) s3).2 : example).
  set (s5 := (subscribe_websocket "other" (Ok 1) s4).2 : example).
  set (s6 := (in_admin (send_event (E := panic) "other" (submitted "other" "n4")) s5).2 : example).
  set (s7 := (in_admin (send_event (E := panic) "game" (submitted "game" "n5")) s6).2 : example).
  exists s7.
  edestruct (registered_application_sees_events "game" state0 s3 s7) as (_ & _ & (q & Hq & Hf) & _).
  - split_and!; cbn; [intros ?? Hl; by rewrite lookup_empty in Hl|intros ????? Hl; by rewrite lookup_empty in Hl|].
    intros ? [? Hl]. by rewrite lookup_empty in Hl.
  - split_and!; [|cbn; unfold DEFAULT_IN_MEMORY_EVENT_LIMIT; lia| |done]; repeat constructor; done.
  - apply (wo_open 0 true "other" s1). apply (wo_event 0 "game" (submitted "game" "n3") s2). apply wo_done.
  - apply (wo_subscribe 0 1 "other" s4); [done| |].
    { split; [vm_compute; lia|]. intros ty (subs & Hl & Hin).
      assert ((view_of s4).1 = {["game" := [0]]}) as Hv by (by vm_compute). rewrite Hv in Hl.
      apply lookup_singleton_Some in Hl as [_ <-]. by apply list_elem_of_singleton in Hin. }
    apply (wo_event 0 "other" (submitted "other" "n4") s5). apply (wo_event 0 "game" (submitted "game" "n5") s6).
    apply wo_done.
  - exists q. split; [done|]. rewrite Hf. by vm_compute.
Defined.

(** An event between the two times the route locks the service is neither among the events
    that the websocket starts with nor sent to it. *)
Example event_between_missed :
  let s1 := (open_websocket true "game" state0).2 : example in
  let s2 := (in_admin (send_event (E := panic) "game" (submitted "game" "n3")) s1).2 : example in
  let s3 := (subscribe_websocket "game" (Ok 0) s2).2 : example in
  (texts <$> (omap (λ m, match m with WrapMessage e => Some e | WrapShutdown => None end) <$>
     st_open (view_of s3).2 !! 0)) = Some [TextFrame "n1"].
Proof. by vm_compute. Qed.

(** A ping of a client is answered with a ping, and not with a pong. *)
Example ping_answered_with_ping b (a : EventDealerWebSocket JsonAdminEvent) :
  ews_frames (handle_client (WsPing b) a) = ews_frames a ++ [PingFrame b].
Proof. done. Qed.
End AdminRestExample.
