(* ===== verification/DaemonStart.v ===== *)
(** * The start of the daemon

    Models [SplinterDaemon::start] of [splinterd/src/daemon.rs] as a whole, with what it
    starts: the orchestrator ([libsplinter/src/orchestrator/mod.rs]), the admin service
    ([libsplinter/src/admin/service/mod.rs]) in its service processor
    ([libsplinter/src/service/processor.rs]), and the REST API with all resources.  A
    thread is known by what it runs; its steps are those of its component. *)

From stdpp Require Import gmap.
From S2P Require Import Prelude BiMap Network Storage Circuit Dispatch CircuitHandlers Auth Reply Services DurableSets.
From S2P Require Import Keys AdminMessages OpenProposals Transport PeerConnector NodeRegistry Config Daemon.
From S2P Require Import ServiceProcessor AdminShared ServiceOrchestrator RestApi.

(** ** Threads *)

Inductive Thread :=
  | ListenForServices
  | NetworkMessageSender
  | CircuitDispatcher
  | AuthDispatcher
  | NetworkDispatcher
  | AcceptNodes
  | MainLoop
  | OrchestratorIncoming
  | OrchestratorInbound
  | OrchestratorOutgoing
  | ServiceThread (service_id : string)
  | ProcessorIncoming
  | ProcessorInbound
  | ProcessorOutgoing.

(** The threads that were started, the latest last, and whether the system gives the next
    ones; it does when nothing is said. *)
Record Threads := mkThreads { th_started : list Thread; th_outcomes : list (result string ()) }.

(** [thread::Builder::spawn] *)
Definition spawn (t : Thread) : eff Threads string () := λ s,
  let s' := λ outcomes, mkThreads (th_started s ++ [t]) outcomes in
  match th_outcomes s with
  | [] => (Ok (), s' [])
  | Ok _ :: outcomes => (Ok (), s' outcomes)
  | Err e :: outcomes => (Err e, mkThreads (th_started s) outcomes)
  end.

(** [JoinHandles::join_all], on the results of threads; [None] is one that panicked. *)
Fixpoint join_all {A} (handles : list (option A)) : option (list A) :=
  match handles with
  | [] => Some []
  | h :: handles => r ← h; res ← join_all handles; Some (r :: res)
  end.

Section internal.
Context {C V : Type} `{!Mesh V C}.
Context `{!Codec NetworkMessage, !Codec AuthorizationMessage, !Codec ConnectRequest}.

Abbreviation internal_eff := (eff (V * Threads)).
Definition in_mesh {E E' A} (f : E → E') (m : eff V E A) : internal_eff E' A := λ '(v, t),
  let '(r, v) := m v in (map_err f r, (v, t)).
Definition in_threads {E E' A} (f : E → E') (m : eff Threads E A) : internal_eff E' A := λ '(v, t),
  let '(r, t) := m t in (map_err f r, (v, t)).

(** ** The orchestrator *)

(** [ServiceOrchestrator::new]: the connection is added to a mesh of its own, the node is
    asked for authorization and answers, and three threads are started. *)
Definition orchestrator_start {S W} (service_factories : list (ServiceFactory S W)) (connection : C) :
    internal_eff () (ServiceOrchestrator S W) :=
  mesh_id ← in_mesh id (mesh_add connection);
  connect_request ← lift (ok_or () service_connect_request);
  in_mesh (λ _, ()) (mesh_send mesh_id connect_request);;
  in_mesh (λ _, ()) mesh_recv;;
  in_threads (λ _, ()) (spawn OrchestratorIncoming);;
  in_threads (λ _, ()) (spawn OrchestratorInbound);;
  in_threads (λ _, ()) (spawn OrchestratorOutgoing);;
  mret (orchestrator_new service_factories).

(** ** The service processor *)

Section processor.
Context {S W : Type} `{!Service S W}.

(** [ServiceProcessor::new], up to its channels *)
Definition processor_new (connection : C) : eff V ServiceProcessorError nat :=
  emap_err (λ _, ProcessError "unable to add connection to mesh") (mesh_add connection).

(** The threads of the services, of [ServiceProcessor::start] *)
Fixpoint start_services (services : list S) (shared_state : SharedState) :
    internal_eff ServiceProcessorError SharedState :=
  match services with
  | [] => mret shared_state
  | service :: services =>
      let id := service_id service in
      in_threads (λ _, ProcessorIoError) (spawn (ServiceThread id));;
      start_services services
        (mkSharedState ({[id]} ∪ ps_services shared_state) (<[id := []]> (ps_channels shared_state)))
  end.

(** [ServiceProcessor::start] *)
Definition processor_start (node_mesh_id : nat) (services : list S) : internal_eff ServiceProcessorError SharedState :=
  connect_request ← lift (ok_or (ProcessError "unable to create connect request") service_connect_request);
  in_mesh (λ _, ProcessError "unable to send connect request") (mesh_send node_mesh_id connect_request);;
  in_mesh (λ _, ProcessError "Unable to receive auth response") mesh_recv;;
  shared_state ← start_services services (mkSharedState ∅ ∅);
  in_threads (λ _, ProcessorIoError) (spawn ProcessorIncoming);;
  in_threads (λ _, ProcessorIoError) (spawn ProcessorInbound);;
  in_threads (λ _, ProcessorIoError) (spawn ProcessorOutgoing);;
  mret shared_state.

(** [start_admin_service] and [start_health_service]: a connection of the in-process
    transport, and a processor with one service on it.  [error] is the kind of error. *)
Definition start_internal_service {T L} (inproc : Transport T C L) (address what not_started : string)
    (error : string → DaemonStartError) (service : S) : eff (T * (V * Threads)) DaemonStartError SharedState := λ '(t, vt),
  match connect inproc address t with
  | (Err _, t) => (Err (error ("unable to initiate " +:+ what +:+ " connection")), (t, vt))
  | (Ok connection, t) =>
      let '(r, vt) :=
        (node_mesh_id ← emap_err (λ _, error ("unable to create " +:+ what +:+ " processor"))
           (in_mesh id (processor_new connection));
         services ← lift (map_err (λ _, error ("unable to add " +:+ what +:+ " to processor"))
           (processor_add_service service []));
         emap_err (λ _, error not_started) (processor_start node_mesh_id services)) vt in
      (r, (t, vt))
  end.
Definition start_admin_service {T L} (inproc : Transport T C L) (admin_service : S) :
    eff (T * (V * Threads)) DaemonStartError SharedState :=
  start_internal_service inproc ADMIN_SERVICE_ADDRESS "admin service" "unable to start service processor"
    StartAdminServiceError admin_service.
Definition start_health_service {T L} (inproc : Transport T C L) (health_service : S) :
    eff (T * (V * Threads)) DaemonStartError SharedState :=
  start_internal_service inproc "inproc://health-service" "health service" "unable to health service processor"
    StartHealthServiceError health_service.
End processor.
End internal.

(** ** The admin service *)

Inductive AdminCreateError := UnableToCreate (e : OpenProposalError) | UnsupportedStorage.

Section admin.
Context {Sub D : Type} `{!FileSystem D, !Serde ProposalRegistry}.

(** [AdminServiceShared::new]; [state_dir] is the variable SPLINTER_STATE_DIR. *)
Definition admin_shared_new (state_dir : option string) (node_id storage_type : string) :
    eff D AdminCreateError (AdminServiceShared Sub) :=
  let location := default Config.DEFAULT_STATE_DIR state_dir in
  storage_location ← lift (
    if decide (storage_type = "yaml") then Ok (location +:+ "/circuit_proposals.yaml")
    else if decide (storage_type = "memory") then Ok "memory"
    else Err UnsupportedStorage);
  open_proposals ← emap_err UnableToCreate (open_proposals_new storage_location);
  mret (mkAdminServiceShared node_id open_proposals ∅ ∅ false [] [] ∅ None [] ∅ []).
End admin.

(** ** The REST API *)

(** The resources of a component, on the state of the whole daemon *)
Definition zoom {S T} (view : S → T) (put : T → S → S) (r : Resource T) : Resource S :=
  mkResource (route r)
    ((λ mh : Method * HandlerFunction T,
       (mh.1, λ info p s, let '(res, t) := mh.2 info p (view s) in (res, put t s))) <$> methods r).

(** The handlers of the resources that the daemon makes itself *)
Record RestHandlers (S : Type) := mkRestHandlers {
  rh_get_openapi : HandlerFunction S;
  rh_get_status : HandlerFunction S;
  rh_fetch_node : HandlerFunction S;
  rh_update_node : HandlerFunction S;
  rh_delete_node : HandlerFunction S;
  rh_list_nodes : HandlerFunction S;
  rh_add_node : HandlerFunction S;
  rh_fetch_key : HandlerFunction S;
  rh_list_keys : HandlerFunction S;
  rh_fetch_circuit : HandlerFunction S;
  rh_list_circuits : HandlerFunction S;
}.
Arguments rh_get_openapi {S} _.
Arguments rh_get_status {S} _.
Arguments rh_fetch_node {S} _.
Arguments rh_update_node {S} _.
Arguments rh_delete_node {S} _.
Arguments rh_list_nodes {S} _.
Arguments rh_add_node {S} _.
Arguments rh_fetch_key {S} _.
Arguments rh_list_keys {S} _.
Arguments rh_fetch_circuit {S} _.
Arguments rh_list_circuits {S} _.

Section resources.
Context {S : Type} (h : RestHandlers S).

Definition make_nodes_identity_resource : Resource S :=
  add_method Delete (rh_delete_node h)
    (add_method Patch (rh_update_node h) (add_method Get (rh_fetch_node h) (resource_build "/nodes/{identity}"))).
Definition make_nodes_resource : Resource S :=
  add_method Post (rh_add_node h) (add_method Get (rh_list_nodes h) (resource_build "/nodes")).
Definition key_registry_resources : list (Resource S) :=
  [add_method Get (rh_list_keys h) (resource_build "/keys");
   add_method Get (rh_fetch_key h) (resource_build "/keys/{public_key}")].
Definition circuit_resources : list (Resource S) :=
  [add_method Get (rh_fetch_circuit h) (resource_build "/circuits/{circuit_id}");
   add_method Get (rh_list_circuits h) (resource_build "/circuits")].

(** The builder of [start]; [circuit_read] is the feature. *)
Definition daemon_rest_api (circuit_read : bool) (rest_api_endpoint : string) (admin orchestrator : list (Resource S)) :
    RestApiBuilder S :=
  let b :=
    add_resources orchestrator
      (add_resources admin
        (add_resources key_registry_resources
          (add_resource make_nodes_resource
            (add_resource make_nodes_identity_resource
              (add_resource (add_method Get (rh_get_status h) (resource_build "/status"))
                (add_resource (add_method Get (rh_get_openapi h) (resource_build "/openapi.yml"))
                  (with_bind rest_api_endpoint rest_api_builder_new))))))) in
  if circuit_read then add_resources circuit_resources b else b.
End resources.

(** ** [SplinterDaemon::start] *)

(** What the daemon acts on: its disk, its transports, its network, and for each of its
    internal services the mesh that is made for it *)
Record DaemonState (D T M V : Type) := mkDaemonState {
  ds_disk : D;
  ds_transport : T;
  ds_network : Network M;
  ds_orchestrator_mesh : V;
  ds_processor_mesh : V;
  ds_health_mesh : V;
  ds_threads : Threads;
}.
Arguments mkDaemonState {D T M V} _ _ _ _ _ _ _.
Arguments ds_disk {D T M V} _.
Arguments ds_transport {D T M V} _.
Arguments ds_network {D T M V} _.
Arguments ds_orchestrator_mesh {D T M V} _.
Arguments ds_processor_mesh {D T M V} _.
Arguments ds_health_mesh {D T M V} _.
Arguments ds_threads {D T M V} _.

(** What is running once the daemon is started *)
Record Running (Sub S W R : Type) := mkRunning {
  rn_state : SplinterState;
  rn_orchestrator : ServiceOrchestrator S W;
  rn_key_registry : StorageKeyRegistry;
  rn_admin : AdminServiceShared Sub;
  rn_node_registry : FileInternal + ();
  rn_rest_api : list (ActixResource R);
  rn_services : SharedState;
}.
Arguments mkRunning {Sub S W R} _ _ _ _ _ _ _.
Arguments rn_state {Sub S W R} _.
Arguments rn_orchestrator {Sub S W R} _.
Arguments rn_key_registry {Sub S W R} _.
Arguments rn_admin {Sub S W R} _.
Arguments rn_node_registry {Sub S W R} _.
Arguments rn_rest_api {Sub S W R} _.
Arguments rn_services {Sub S W R} _.

Section start.
Context {D T C L M V : Type} `{!FileSystem D, !Mesh M C, !Mesh V C}.
Context `{!Serde CircuitDirectory, !Serde PersistedKeyRegistry, !Serde ProposalRegistry, !Serde (list Node)}.
Context `{!Codec NetworkMessage, !Codec AuthorizationMessage, !Codec ConnectRequest}.
Context {Sub S W R : Type} `{!Service S W}.

Abbreviation start_eff := (eff (DaemonState D T M V) DaemonStartError).

Definition start_disk {E A} (f : E → DaemonStartError) (m : eff D E A) : start_eff A := λ s,
  let '(r, d) := m (ds_disk s) in
  (map_err f r, mkDaemonState d (ds_transport s) (ds_network s) (ds_orchestrator_mesh s) (ds_processor_mesh s)
    (ds_health_mesh s) (ds_threads s)).
Definition start_transport {E A} (f : E → DaemonStartError) (m : eff T E A) : start_eff A := λ s,
  let '(r, t) := m (ds_transport s) in
  (map_err f r, mkDaemonState (ds_disk s) t (ds_network s) (ds_orchestrator_mesh s) (ds_processor_mesh s)
    (ds_health_mesh s) (ds_threads s)).
Definition start_thread (f : string → DaemonStartError) (t : Thread) : start_eff () := λ s,
  let '(r, th) := spawn t (ds_threads s) in
  (map_err f r, mkDaemonState (ds_disk s) (ds_transport s) (ds_network s) (ds_orchestrator_mesh s)
    (ds_processor_mesh s) (ds_health_mesh s) th).
Definition start_peers (m : eff (Network M * T) DaemonStartError ()) : start_eff () := λ s,
  let '(r, (n, t)) := m (ds_network s, ds_transport s) in
  (r, mkDaemonState (ds_disk s) t n (ds_orchestrator_mesh s) (ds_processor_mesh s) (ds_health_mesh s) (ds_threads s)).
Definition start_orchestrator {A} (m : eff (V * Threads) () A) : start_eff A := λ s,
  let '(r, (v, th)) := m (ds_orchestrator_mesh s, ds_threads s) in
  (map_err (λ _, StartOrchestratorError) r,
   mkDaemonState (ds_disk s) (ds_transport s) (ds_network s) v (ds_processor_mesh s) (ds_health_mesh s) th).
Definition start_processor {A} (m : eff (T * (V * Threads)) DaemonStartError A) : start_eff A := λ s,
  let '(r, (t, (v, th))) := m (ds_transport s, (ds_processor_mesh s, ds_threads s)) in
  (r, mkDaemonState (ds_disk s) t (ds_network s) (ds_orchestrator_mesh s) v (ds_health_mesh s) th).
Definition start_health {A} (m : eff (T * (V * Threads)) DaemonStartError A) : start_eff A := λ s,
  let '(r, (t, (v, th))) := m (ds_transport s, (ds_health_mesh s, ds_threads s)) in
  (r, mkDaemonState (ds_disk s) t (ds_network s) (ds_orchestrator_mesh s) (ds_processor_mesh s) v th).

(** The features of the build, the transports, what comes from outside (the variable
    SPLINTER_STATE_DIR, the ids of [Uuid::new_v4], the address for the REST API), and the
    parts that are made by other components *)
Context (health circuit_read : bool) (given inproc health_inproc : Transport T C L).
Context (state_dir : option string) (uuid : nat → string) (server : ServerOutcome).
Context (factories : list (ServiceFactory S W)) (handlers : RestHandlers R).
Context (admin_resources : AdminServiceShared Sub → list (Resource R)).
Context (orchestrator_resources : ServiceOrchestrator S W → list (Resource R)).
Context (admin_service : AdminServiceShared Sub → S) (health_service : string → S).

Definition daemon_transport : Transport T C L :=
  multi_transport ([given; inproc] ++ if health then [health_inproc] else []).

Definition rest_api_error (e : RestApiServerError) : DaemonStartError :=
  StartRestApiError ("Rest Api Server Error: " +:+ rest_api_error_display e).

(** The internal services and the REST API, with the directory that was loaded *)
Definition daemon_services {N} (d : SplinterDaemon N) (state : SplinterState) : start_eff (Running Sub S W R) :=
  orchestrator_connection ←
    start_transport (λ _, StartTransportError "unable to initiate orchestrator connection")
      (connect inproc ADMIN_SERVICE_ADDRESS);
  orchestrator ← start_orchestrator (orchestrator_start factories orchestrator_connection);
  key_registry ← start_disk (λ e, match e with
      | KeyError msg => StartStorageError (UnknownStateLocation msg)
      | KeyPanic => StartPanic
      end) (key_registry_new (sd_key_registry_location d));
  admin ← start_disk (λ e, match e with
      | UnableToCreate _ => StartAdminServiceError "unable to create admin service"
      | UnsupportedStorage => StartPanic
      end) (admin_shared_new state_dir (sd_node_id d) (sd_storage_type d));
  s ← get;
  node_registry ← lift (create_node_registry (sd_registry_config d) (ds_disk s));
  rest_api ← lift (map_err rest_api_error
    (rest_api_build (daemon_rest_api handlers circuit_read (sd_rest_api_endpoint d) (admin_resources admin)
       (orchestrator_resources orchestrator)) ≫= rest_api_run server));
  services ← start_processor (start_admin_service inproc (admin_service admin));
  mret (mkRunning state orchestrator key_registry admin node_registry rest_api services).

(** [start] up to the point where it waits for the end of the main loop *)
Definition daemon_start {N} (d : SplinterDaemon N) : start_eff (Running Sub S W R) :=
  state ← start_disk id (load_state (sd_storage_location d));
  start_transport id (daemon_listeners daemon_transport (sd_network_endpoint d) (sd_service_endpoint d));;
  start_thread (λ _, StartPanic) ListenForServices;;
  start_thread (λ _, StartPanic) NetworkMessageSender;;
  start_thread (λ _, StartPanic) CircuitDispatcher;;
  start_thread (λ _, StartPanic) AuthDispatcher;;
  start_thread (λ _, StartPanic) NetworkDispatcher;;
  start_thread (λ _, StartPanic) AcceptNodes;;
  start_peers (connect_initial_peers daemon_transport (imap (λ i peer, (uuid i, peer)) (sd_initial_peers d)));;
  start_peers (connect_known_nodes daemon_transport (sd_node_id d) state);;
  start_thread (λ _, StartThreadError "Unable to spawn main loop") MainLoop;;
  daemon_services d state.

(** The rest of [start]: the main loop ended, or panicked. *)
Definition daemon_wait {N} (d : SplinterDaemon N) (main_loop_ended : bool) : start_eff () :=
  (if main_loop_ended then mret () else throw (StartThreadError "Unable to join main loop"));;
  if health then start_health (start_health_service health_inproc (health_service (sd_node_id d)));; mret ()
  else mret ().
End start.
