(* ===== verification/DaemonStartProps.v ===== *)
(** * What is started, and who is connected to whom

    Theorems on [DaemonStart]: the services of the daemon are known to its network by the
    right names, the resources of its REST API do not hide each other, and the health
    service does not start. *)

From stdpp Require Import gmap.
From S2P Require Import Prelude BiMap Network Storage Circuit Dispatch CircuitHandlers Auth Reply Services DurableSets.
From S2P Require Import Keys AdminMessages OpenProposals Transport PeerConnector NodeRegistry Config Daemon.
From S2P Require Import ServiceProcessor AdminShared ServiceOrchestrator RestApi AdminRest DaemonStart.

(** ** The transports of the daemon *)

(** The transport that is configured, and the in-process transports *)
Section transports.
Context {T0 C0 L0 : Type} (t0 : Transport T0 C0 L0).

Abbreviation transports := (T0 * Inproc * Inproc)%type.
Abbreviation connection := (C0 + InprocConnection)%type.
Abbreviation listener := (L0 + InprocListener)%type.

Definition in_given {E A B} (f : A → B) (m : eff T0 E A) : eff transports E B := λ '(t, ip, hp),
  let '(r, t) := m t in (match r with Ok a => Ok (f a) | Err e => Err e end, (t, ip, hp)).
Definition in_inproc {E A B} (f : A → B) (m : eff Inproc E A) : eff transports E B := λ '(t, ip, hp),
  let '(r, ip) := m ip in (match r with Ok a => Ok (f a) | Err e => Err e end, (t, ip, hp)).
Definition in_health {E A B} (f : A → B) (m : eff Inproc E A) : eff transports E B := λ '(t, ip, hp),
  let '(r, hp) := m hp in (match r with Ok a => Ok (f a) | Err e => Err e end, (t, ip, hp)).

Definition given : Transport transports connection listener :=
  mkTransport (accepts t0) (λ e, in_given inl (connect t0 e)) (λ e, in_given inl (listen t0 e)).
Definition inproc : Transport transports connection listener :=
  mkTransport (accepts_protocol INPROC_PREFIX) (λ e, in_inproc inr (inproc_connect e)) (λ e, in_inproc inr (inproc_listen e)).
Definition health_inproc : Transport transports connection listener :=
  mkTransport (accepts_protocol INPROC_PREFIX) (λ e, in_health inr (inproc_connect e)) (λ e, in_health inr (inproc_listen e)).

(** The configured transport does not take the addresses of the in-process one. *)
Definition apart : Prop := ∀ a, starts_with INPROC_PREFIX a = true → accepts t0 a = false.
(** It does take those without a protocol. *)
Definition takes_plain : Prop := ∀ a, contains "://" a = false → accepts t0 a = true.
(** An address outside of the process *)
Definition external (a : string) : Prop := starts_with INPROC_PREFIX a = false.

Variable health : bool.
Abbreviation all := (daemon_transport health given inproc health_inproc).

Lemma all_find a :
  takes_plain → find (λ t, accepts t a) ([given; inproc] ++ if health then [health_inproc] else []) =
    if accepts t0 a then Some given else if starts_with INPROC_PREFIX a then Some inproc else None.
Proof.
  intros Hp. cbn. destruct (accepts t0 a) eqn:Ha; [done|]. unfold accepts_protocol.
  destruct (contains "://" a) eqn:Hc; [|by rewrite Hp in Ha].
  rewrite orb_false_r. destruct (starts_with INPROC_PREFIX a) eqn:Hs; [done|].
  destruct health; [|done]. cbn. unfold accepts_protocol. by rewrite Hs, Hc.
Qed.

Lemma connect_external a t :
  takes_plain → external a → (connect all a t).2.1.2 = t.1.2.
Proof.
  intros Hp Ha. cbn. unfold multi_connect. rewrite all_find by done. rewrite Ha.
  destruct (accepts t0 a); [|done]. cbn. destruct t as [[t ip] hp]. cbn. by destruct (connect t0 a t).
Qed.
Lemma listen_external a t :
  takes_plain → external a → (listen all a t).2.1.2 = t.1.2.
Proof.
  intros Hp Ha. cbn. unfold multi_listen. rewrite all_find by done. rewrite Ha.
  destruct (accepts t0 a); [|done]. cbn. destruct t as [[t ip] hp]. cbn. by destruct (listen t0 a t).
Qed.
Lemma listen_inproc a t :
  takes_plain → apart → starts_with INPROC_PREFIX a = true → listen all a t = in_inproc inr (inproc_listen a) t.
Proof. intros Hp Ht Ha. cbn. unfold multi_listen. rewrite all_find by done. by rewrite Ha, Ht. Qed.

(** No address leads to the transport of the health service. *)
Lemma connect_health a t : takes_plain → (connect all a t).2.2 = t.2.
Proof.
  intros Hp. cbn. unfold multi_connect. rewrite all_find by done. destruct t as [[t ip] hp].
  destruct (accepts t0 a); [cbn; by destruct (connect t0 a t)|]. destruct (starts_with INPROC_PREFIX a); [|done].
  unfold inproc, in_inproc. cbn [connect]. by destruct (inproc_connect a ip).
Qed.
Lemma listen_health a t : takes_plain → (listen all a t).2.2 = t.2.
Proof.
  intros Hp. cbn. unfold multi_listen. rewrite all_find by done. destruct t as [[t ip] hp].
  destruct (accepts t0 a); [cbn; by destruct (listen t0 a t)|]. destruct (starts_with INPROC_PREFIX a); [|done].
  unfold inproc, in_inproc. cbn [listen]. by destruct (inproc_listen a ip).
Qed.
End transports.

(** ** Connecting to peers *)

Section peers.
Context {M T C L X : Type} `{!Mesh M C} (transport : Transport T C L) (part : T → X).
Context `{!Codec NetworkMessage, !Codec AuthorizationMessage, !Codec ConnectRequest}.

Abbreviation part_of := (λ s : Network M * T, part s.2).

Lemma preserves_on_network {E A} (f : E → PeerConnectorError) (m : eff (Network M) E A) :
  preserves part_of (on_network f m).
Proof. intros [n t]. unfold on_network. by destruct (m n). Qed.
Lemma preserves_on_transport {E A} (f : E → PeerConnectorError) (m : eff T E A) :
  preserves part m → preserves part_of (on_transport f m).
Proof. intros Hm [n t]. specialize (Hm t). unfold on_transport. by destruct (m t). Qed.
Lemma preserves_catch_log {S E E' Y} (view : S → Y) (m : eff S E ()) :
  preserves view m → preserves view (catch_log (E' := E') m).
Proof. intros Hm s. specialize (Hm s). unfold catch_log. by destruct (m s). Qed.

Lemma preserves_connect_peer node_id endpoint :
  preserves part (connect transport endpoint) → preserves part_of (PeerConnector.connect_peer transport node_id endpoint).
Proof.
  intros Hc. unfold PeerConnector.connect_peer. apply preserves_bind; [done|]. intros known. case_bool_decide; [done|].
  apply preserves_bind; [by apply preserves_on_transport|]. intros c.
  apply preserves_bind; [apply preserves_on_network|]. intros _.
  apply preserves_bind; [apply preserves_lift|]. intros r. apply preserves_on_network.
Qed.
Lemma preserves_connect_unidentified uuid endpoint :
  preserves part (connect transport endpoint) → preserves part_of (connect_unidentified_peer transport uuid endpoint).
Proof.
  intros Hc. unfold connect_unidentified_peer. apply preserves_bind; [done|]. intros known. case_bool_decide; [done|].
  apply preserves_bind; [by apply preserves_on_transport|]. intros c.
  apply preserves_bind; [apply preserves_on_network|]. intros p.
  apply preserves_bind; [apply preserves_lift|]. intros r. apply preserves_on_network.
Qed.
Lemma preserves_initial_peers peers :
  Forall (λ p, preserves part (connect transport p.2)) peers → preserves part_of (connect_initial_peers transport peers).
Proof.
  induction 1 as [|[u p] peers Hp _ IH]; [done|]. cbn. apply preserves_bind; [|done].
  by apply preserves_catch_log, preserves_connect_unidentified.
Qed.
(** The endpoint that is used of a node *)
Definition used_endpoint (n : SplinterNode) : option string := head (sn_endpoints n).
Lemma preserves_connect_nodes own nodes :
  Forall (λ n, n.1 ≠ own → ∀ e, used_endpoint n.2 = Some e → preserves part (connect transport e)) nodes →
  preserves part_of (connect_nodes transport own nodes).
Proof.
  induction 1 as [|[i n] nodes Hn _ IH]; [done|]. cbn. apply preserves_bind; [|done].
  destruct (decide (i ≠ own)) as [Hi|]; [|done]. cbn in Hn.
  unfold used_endpoint in Hn. destruct (sn_endpoints n) as [|e es]; [done|].
  by apply preserves_catch_log, preserves_connect_peer, Hn.
Qed.
End peers.

(** ** The steps of a start *)

Section steps.
Context {D T C L M V X : Type} `{!FileSystem D, !Mesh M C, !Mesh V C} (part : T → X).

Abbreviation part_of := (λ s : DaemonState D T M V, part (ds_transport s)).

Lemma preserves_start_disk {E A} (f : E → DaemonStartError) (m : eff D E A) : preserves part_of (start_disk f m).
Proof. intros s. unfold start_disk. by destruct (m (ds_disk s)). Qed.
Lemma preserves_start_thread f t : preserves part_of (start_thread f t).
Proof. intros s. unfold start_thread. by destruct (spawn t (ds_threads s)). Qed.
Lemma preserves_start_transport {E A} (f : E → DaemonStartError) (m : eff T E A) :
  preserves part m → preserves part_of (start_transport f m).
Proof. intros Hm s. specialize (Hm (ds_transport s)). unfold start_transport. by destruct (m (ds_transport s)). Qed.
Lemma preserves_start_peers (m : eff (Network M * T) DaemonStartError ()) :
  preserves (λ s : Network M * T, part s.2) m → preserves part_of (start_peers m).
Proof.
  intros Hm s. specialize (Hm (ds_network s, ds_transport s)). unfold start_peers.
  by destruct (m (ds_network s, ds_transport s)) as [r [n t]].
Qed.
Lemma preserves_start_orchestrator {A} (m : eff (V * Threads) () A) : preserves part_of (start_orchestrator m).
Proof. intros s. unfold start_orchestrator. by destruct (m _) as [r [v th]]. Qed.
Lemma preserves_start_processor {A} (m : eff (T * (V * Threads)) DaemonStartError A) :
  preserves (λ s : T * (V * Threads), part s.1) m → preserves part_of (start_processor m).
Proof.
  intros Hm s. specialize (Hm (ds_transport s, (ds_processor_mesh s, ds_threads s))). unfold start_processor.
  by destruct (m _) as [r [t [v th]]].
Qed.
End steps.

(** ** The start *)

(** A mesh knows the connections that were added to it. *)
Class MeshLog (V C : Type) `{!Mesh V C} := {
  mesh_added : V → list C;
  mesh_add_added c v : match mesh_add c v with
                       | (Ok _, v') => mesh_added v' = mesh_added v ++ [c]
                       | (Err _, v') => mesh_added v' = mesh_added v
                       end;
  mesh_send_added i b v : mesh_added (mesh_send i b v).2 = mesh_added v;
  mesh_recv_added v : mesh_added (mesh_recv v).2 = mesh_added v;
}.

Section internal_steps.
Context {C V : Type} `{!Mesh V C} {Hlog : MeshLog V C}.
Context `{!Codec NetworkMessage, !Codec AuthorizationMessage, !Codec ConnectRequest}.

Abbreviation added := (λ s : V * Threads, mesh_added (C := C) s.1).

Lemma preserves_in_mesh {E E' A} (f : E → E') (m : eff V E A) :
  preserves mesh_added m → preserves added (in_mesh f m).
Proof. intros Hm [v t]. specialize (Hm v). unfold in_mesh. by destruct (m v). Qed.
Lemma preserves_in_threads {E E' A} (f : E → E') (m : eff Threads E A) : preserves added (in_threads f m).
Proof. intros [v t]. unfold in_threads. by destruct (m t). Qed.

(** The one connection of the mesh of an orchestrator or of a processor *)
Lemma orchestrator_start_added {S W} (factories : list (ServiceFactory S W)) c s o s' :
  orchestrator_start factories c s = (Ok o, s') → added s' = added s ++ [c].
Proof.
  unfold orchestrator_start. intros Hr. bind_step Hr mesh_id. destruct s as [v t].
  unfold in_mesh in Hstep. pose proof (mesh_add_added c v) as Ha. destruct (mesh_add c v) as [[i|[]] v1]; [|done].
  injection Hstep as <- <-. cbn in Ha |- *. rewrite <- Ha.
  match type of Hr with ?m _ = _ => assert (Hp : preserves added m) end.
  { repeat first [apply preserves_bind; [|intros ?] | apply preserves_lift | apply preserves_in_threads | apply preserves_ret
      | apply preserves_in_mesh; intros ?; (apply mesh_send_added || apply mesh_recv_added)]. }
  specialize (Hp (v1, t)). by rewrite Hr in Hp.
Qed.
Lemma processor_start_added {S W} `{!Service S W} i (services : list S) :
  preserves added (processor_start i services).
Proof.
  assert (Hs : ∀ sh, preserves added (start_services services sh)).
  { induction services as [|x services IH]; intros sh; [done|]. cbn.
    apply preserves_bind; [apply preserves_in_threads|]. intros _. apply IH. }
  unfold processor_start.
  repeat first [apply preserves_bind; [|intros ?] | apply preserves_lift | apply preserves_in_threads | apply preserves_ret
    | apply Hs | apply preserves_in_mesh; intros ?; (apply mesh_send_added || apply mesh_recv_added)].
Qed.
End internal_steps.

Lemma preserves_ok {S T E A} (view : S → T) (m : eff S E A) s r s' : preserves view m → m s = (r, s') → view s' = view s.
Proof. intros Hp Hm. specialize (Hp s). by rewrite Hm in Hp. Qed.

(** A new in-process transport *)
Definition inproc_new : Inproc := mkInproc ∅ ∅ ∅ ∅ 0.
(** The states of the transport of the internal services: with its listener, and with one
    and two connections that wait *)
Definition listening : Inproc := mkInproc {["admin-service" := 0]} {[0 := []]} ∅ ∅ 1.
Definition one_waits : Inproc := (inproc_connect ADMIN_SERVICE_ADDRESS listening).2.
Definition two_wait : Inproc := (inproc_connect ADMIN_SERVICE_ADDRESS one_waits).2.
Lemma first_connects :
  inproc_connect ADMIN_SERVICE_ADDRESS listening = (Ok (mkInprocConnection "admin-service" 2 1), one_waits).
Proof. by vm_compute. Qed.
Lemma second_connects :
  inproc_connect ADMIN_SERVICE_ADDRESS one_waits = (Ok (mkInprocConnection "admin-service" 4 3), two_wait).
Proof. by vm_compute. Qed.
(** The two ends of a connection *)
Definition other_end (c c' : InprocConnection) : Prop :=
  ic_outgoing c = ic_incoming c' ∧ ic_incoming c = ic_outgoing c'.

Section daemon.
Context {D T0 C0 L0 M V : Type} (t0 : Transport T0 C0 L0).
Abbreviation transports := (T0 * Inproc * Inproc)%type.
Abbreviation connection := (C0 + InprocConnection)%type.
Context `{!FileSystem D, !Mesh M connection, !Mesh V connection} {Hlog : MeshLog V connection}.
Context `{!Serde CircuitDirectory, !Serde PersistedKeyRegistry, !Serde ProposalRegistry, !Serde (list Node)}.
Context `{!Codec NetworkMessage, !Codec AuthorizationMessage, !Codec ConnectRequest}.
Context {Sub S W R N : Type} `{!Service S W}.
Context (health circuit_read : bool) (state_dir : option string) (uuid : nat → string) (server : ServerOutcome).
Context (factories : list (ServiceFactory S W)) (handlers : RestHandlers R).
Context (admin_resources : AdminServiceShared Sub → list (Resource R)).
Context (orchestrator_resources : ServiceOrchestrator S W → list (Resource R)).
Context (admin_service : AdminServiceShared Sub → S) (health_service : string → S).

Abbreviation state := (DaemonState D transports M V).
Abbreviation start := (daemon_start (N := N) health circuit_read (given t0) inproc health_inproc state_dir uuid server
  factories handlers admin_resources orchestrator_resources admin_service).
Abbreviation wait := (daemon_wait (D := D) (M := M) (V := V) (N := N) health
  (health_inproc (T0 := T0) (C0 := C0) (L0 := L0)) health_service).

Context (Hplain : takes_plain t0).

(** *** The health service *)

Abbreviation health_part := (λ s : state, (ds_transport s).2).

Lemma start_keeps_health d : preserves health_part (start d).
Proof.
  assert (Hl : ∀ e, preserves snd (listen_on (daemon_transport health (given t0) inproc health_inproc) e)).
  { intros e t. unfold listen_on, emap_err. pose proof (listen_health t0 health e t Hplain) as Hl. by destruct (listen _ e t). }
  assert (Hc : ∀ e, preserves snd (connect (daemon_transport health (given t0) inproc health_inproc) e)).
  { intros e t. by apply connect_health. }
  assert (Hi : ∀ e, preserves snd (connect (W := transports) (C := connection) (L := L0 + InprocListener) inproc e)).
  { intros e [[t ip] hp]. cbn. by destruct (inproc_connect e ip). }
  unfold daemon_start, daemon_services. repeat (apply preserves_bind; [|intros ?]);
    first [apply preserves_start_disk | apply preserves_start_thread | apply preserves_start_orchestrator
      | apply preserves_get | apply preserves_lift | apply preserves_ret | idtac].
  - apply preserves_start_transport. unfold daemon_listeners. repeat (apply preserves_bind; [apply Hl|intros ?]). done.
  - apply (preserves_start_peers snd). apply preserves_initial_peers, Forall_forall. intros p _. apply Hc.
  - apply (preserves_start_peers snd). apply preserves_connect_nodes, Forall_forall. intros n _ _ e _. apply Hc.
  - apply preserves_start_transport, Hi.
  - apply (preserves_start_processor snd). intros [t vt]. unfold start_admin_service, start_internal_service.
    specialize (Hi ADMIN_SERVICE_ADDRESS t). destruct (connect inproc ADMIN_SERVICE_ADDRESS t) as [[c|e] t']; [|done].
    by match goal with |- context [let '(_, _) := ?m in _] => destruct m end.
Qed.

(** The service for health is started after the main loop has ended, over a transport that
    nobody listens on: it never starts, and the daemon ends with an error. *)
Theorem health_service_never_starts d s r s' :
  health = true → (ds_transport s).2 = inproc_new → start d s = (r, s') →
  (wait d true s').1 = Err (StartHealthServiceError "unable to initiate health service connection").
Proof.
  intros Hh Hs Hr. apply (preserves_ok health_part) in Hr; [|apply start_keeps_health]. cbn in Hr. rewrite Hs in Hr.
  unfold daemon_wait. rewrite Hh. destruct s' as [d' [[t ip] hp] n v1 v2 v3 th]. cbn in Hr. subst hp. done.
Qed.

(** *** The internal services *)

Abbreviation inproc_part := (λ t : transports, t.1.2).
(** The in-process transport, and the connections of the orchestrator and of the admin
    service *)
Definition internal (s : state) : Inproc * list connection * list connection :=
  ((ds_transport s).1.2, mesh_added (ds_orchestrator_mesh s), mesh_added (ds_processor_mesh s)).

Lemma internal_disk {E A} (f : E → DaemonStartError) (m : eff D E A) : preserves internal (start_disk f m).
Proof. intros s. unfold start_disk. by destruct (m (ds_disk s)). Qed.
Lemma internal_thread f t : preserves internal (start_thread f t).
Proof. intros s. unfold start_thread. by destruct (spawn t (ds_threads s)). Qed.
Lemma internal_transport {E A} (f : E → DaemonStartError) (m : eff transports E A) s :
  internal (start_transport f m s).2 =
    ((m (ds_transport s)).2.1.2, mesh_added (ds_orchestrator_mesh s), mesh_added (ds_processor_mesh s)) ∧
  (start_transport f m s).1 = map_err f (m (ds_transport s)).1.
Proof. unfold start_transport. by destruct (m (ds_transport s)). Qed.
Lemma internal_peers (m : eff (Network M * transports) DaemonStartError ()) :
  preserves (λ s : Network M * transports, s.2.1.2) m → preserves internal (start_peers m).
Proof.
  intros Hm s. specialize (Hm (ds_network s, ds_transport s)). unfold start_peers, internal.
  destruct (m (ds_network s, ds_transport s)) as [r [n t]]. cbn in *. by rewrite Hm.
Qed.

(** The nodes that the daemon knows of are outside of the process. *)
Definition nodes_external (node_id : string) (st : SplinterState) : Prop :=
  ∀ id n e, (id, n) ∈ btree_entries (cd_nodes (ss_circuit_directory st)) → id ≠ node_id → used_endpoint n = Some e → external e.

Lemma internal_listeners network_endpoint service_endpoint s l s' :
  apart t0 → external network_endpoint → external service_endpoint →
  start_transport id (daemon_listeners (daemon_transport health (given t0) inproc health_inproc)
    network_endpoint service_endpoint) s = (Ok l, s') →
  (internal s).1.1 = inproc_new →
  internal s' = (listening, (internal s).1.2, (internal s).2).
Proof.
  intros Hap Hn Hs Hr Hnew. set (tr := daemon_transport _ _ _ _) in *.
  destruct (internal_transport id (daemon_listeners tr network_endpoint service_endpoint) s) as [Hi Hres].
  rewrite Hr in Hi, Hres. cbn in Hi, Hres. rewrite Hi. do 2 f_equal. clear Hi Hr.
  unfold internal in Hnew. cbn in Hnew.
  destruct (daemon_listeners tr network_endpoint service_endpoint (ds_transport s)) as [r t3] eqn:Hd.
  cbn in Hres |- *. destruct r as [x|]; [|done]. clear Hres.
  unfold daemon_listeners in Hd. bind_step Hd l1. bind_step Hd l2. bind_step Hd l3. injection Hd as <- <-.
  assert (He : ∀ e t r t', external e → listen_on tr e t = (r, t') → t'.1.2 = t.1.2).
  { intros e t r t' Hex Hl. pose proof (listen_external t0 health e t Hplain Hex) as Hle. unfold listen_on, emap_err in Hl.
    fold tr in Hle. destruct (listen tr e t). injection Hl as <- <-. done. }
  apply He in Hstep; [|done]. apply He in Hstep0; [|done]. unfold listen_on, emap_err in Hstep1.
  unfold tr in Hstep1. rewrite listen_inproc in Hstep1 by done.
  destruct w0 as [[t ip] hp]. cbn in Hstep0. rewrite Hstep, Hnew in Hstep0. subst ip. cbn in Hstep1.
  by injection Hstep1 as _ <-.
Qed.

Lemma internal_connect_peers (d : SplinterDaemon N) st :
  Forall external (sd_initial_peers d) → nodes_external (sd_node_id d) st →
  let tr := daemon_transport health (given t0) inproc health_inproc in
  preserves internal (start_peers (D := D) (V := V) (connect_initial_peers tr (imap (λ i peer, (uuid i, peer)) (sd_initial_peers d)))) ∧
  preserves internal (start_peers (D := D) (V := V) (connect_known_nodes tr (sd_node_id d) st)).
Proof.
  intros Hp Hn tr.
  assert (Hc : ∀ e, external e → preserves inproc_part (connect tr e)) by (intros e He t; by apply connect_external).
  split; apply internal_peers.
  - apply (preserves_initial_peers tr inproc_part), Forall_forall. intros [u p] (i & q & [= -> ->] & Hi)%elem_of_lookup_imap.
    apply Hc. cbn. rewrite Forall_lookup in Hp. by eapply Hp.
  - apply (preserves_connect_nodes tr inproc_part), Forall_forall. intros [id n] Hin Hne e He. apply Hc. by eapply Hn.
Qed.

(** The connection of the admin service *)
Lemma internal_admin (svc : S) s r s' :
  start_processor (start_admin_service (V := V) (L := L0 + InprocListener) inproc svc) s = (Ok r, s') →
  ∃ c ip', inproc_connect ADMIN_SERVICE_ADDRESS (internal s).1.1 = (Ok c, ip') ∧
    internal s' = (ip', (internal s).1.2, (internal s).2 ++ [inr c]).
Proof.
  unfold start_processor, start_admin_service, start_internal_service, internal. cbn [fst snd].
  destruct s as [dk [[t ip] hp] n v1 v2 v3 th]. cbn [ds_transport ds_processor_mesh ds_threads fst snd connect inproc in_inproc].
  destruct (inproc_connect ADMIN_SERVICE_ADDRESS ip) as [[c|e] ip'] eqn:Hc; [|done].
  match goal with |- context [(?m ≫= ?k) (v2, th)] => destruct ((m ≫= k) (v2, th)) as [r1 [v' th']] eqn:Hm end.
  intros [= -> <-]. cbn. exists c, ip'. split; [done|]. f_equal.
  bind_step Hm i. bind_step Hm services. unfold emap_err, in_mesh, processor_new in Hstep.
  pose proof (mesh_add_added (inr c : connection) v2) as Ha.
  unfold emap_err in Hstep. destruct (mesh_add (inr c : connection) v2) as [[j|[]] v3']; [|done]. injection Hstep as <- <-.
  unfold emap_err in Hm. destruct (processor_start j services (v3', th)) as [r2 s2] eqn:Hp.
  apply (preserves_ok _ _ _ _ _ (processor_start_added j services)) in Hp. injection Hm as _ ->. cbn in Hp. by rewrite Hp, Ha.
Qed.

Lemma internal_connection (f : ConnectError → DaemonStartError) s c s' :
  start_transport f (connect (C := connection) (L := L0 + InprocListener) inproc ADMIN_SERVICE_ADDRESS) s = (Ok c, s') →
  ∃ ic ip', c = inr ic ∧ inproc_connect ADMIN_SERVICE_ADDRESS (internal s).1.1 = (Ok ic, ip') ∧
    internal s' = (ip', (internal s).1.2, (internal s).2).
Proof.
  unfold start_transport, internal. destruct s as [dk [[t ip] hp] n v1 v2 v3 th]. cbn -[inproc_connect].
  destruct (inproc_connect ADMIN_SERVICE_ADDRESS ip) as [[ic|e] ip']; [|done]. intros [= <- <-]. by exists ic, ip'.
Qed.
Lemma internal_orchestrator c s o s' :
  start_orchestrator (T := transports) (M := M) (D := D) (orchestrator_start factories c) s = (Ok o, s') →
  internal s' = ((internal s).1.1, (internal s).1.2 ++ [c], (internal s).2).
Proof.
  unfold start_orchestrator, internal. destruct (orchestrator_start factories c _) as [[x|x] [v th]] eqn:Ho; [|done].
  apply orchestrator_start_added in Ho. cbn in Ho. intros [= <- <-]. cbn. by rewrite Ho.
Qed.

(** A step that leaves the internal connections as they are *)
Local Ltac kept Hr Hi lem :=
  let x := fresh in
  bind_step Hr x;
  match goal with Hstep : _ = (Ok x, _) |- _ =>
    apply (preserves_ok internal) in Hstep; [|apply lem]; rewrite Hi in Hstep; clear Hi; rename Hstep into Hi end.

(** C29: when a daemon starts, the network knows its orchestrator and its admin service by
    their names: the thread that listens for them accepts the connection of the
    orchestrator first and the one of the admin service second, and there is no other; the
    ids are handed out in this order.  This needs that no address the daemon was configured
    or stored with is in-process: neither the endpoints it listens at nor its initial peers
    nor the other nodes of the stored directory. *)
Theorem internal_services_identified d s r s' :
  apart t0 → external (sd_network_endpoint d) → external (sd_service_endpoint d) →
  Forall external (sd_initial_peers d) →
  (∀ st, (load_state (sd_storage_location d) (ds_disk s)).1 = Ok st → nodes_external (sd_node_id d) st) →
  internal s = (inproc_new, [], []) → start d s = (Ok r, s') →
  ∃ l co ca c1 c2 ip1 ip2,
    mesh_added (ds_orchestrator_mesh s') = [inr co] ∧ mesh_added (ds_processor_mesh s') = [inr ca] ∧
    il_endpoint l = "admin-service" ∧ ip_incoming (ds_transport s').1.2 !! "admin-service" = Some (il_rx l) ∧
    inproc_accept l (ds_transport s').1.2 = (Ok (Some c1), ip1) ∧ other_end co c1 ∧
    inproc_accept l ip1 = (Ok (Some c2), ip2) ∧ other_end ca c2 ∧ inproc_accept l ip2 = (Ok None, ip2) ∧
    ∀ services, listen_for_services (internal_ids admin_service_id (sd_node_id d)) [Ok (inr c1); Ok (inr c2)] services =
      (catch_log (Net.add_peer (W := M) ("orchestator::" +:+ sd_node_id d) (inr c1));;
       catch_log (Net.add_peer ("admin::" +:+ sd_node_id d) (inr c2));; accept_services services).
Proof.
  intros Hap Hne Hse Hip Hnodes Hs Hr. unfold daemon_start, daemon_services in Hr.
  bind_step Hr st. pose proof (preserves_ok internal _ _ _ _ (internal_disk _ _) Hstep) as H1. rewrite Hs in H1.
  assert (Hst : nodes_external (sd_node_id d) st).
  { apply Hnodes. unfold start_disk in Hstep. destruct (load_state _ _) as [[x|x] ?]; [|done]. by injection Hstep as ->. }
  destruct (internal_connect_peers d st Hip Hst) as [Hp1 Hp2].
  clear Hstep Hs Hnodes. bind_step Hr l. apply internal_listeners in Hstep; [|done..|by rewrite H1].
  rewrite H1 in Hstep. cbn in Hstep. clear H1. rename Hstep into Hi.
  do 6 (kept Hr Hi internal_thread). kept Hr Hi Hp1. kept Hr Hi Hp2. kept Hr Hi internal_thread.
  bind_step Hr c. apply internal_connection in Hstep as (co & ip1 & -> & Hco & Hk). rewrite Hi in Hco, Hk.
  cbn [fst snd] in Hco, Hk. rewrite first_connects in Hco. injection Hco as <- <-. clear Hi.
  bind_step Hr o. apply internal_orchestrator in Hstep. rewrite Hk in Hstep. cbn [fst snd app] in Hstep. clear Hk. rename Hstep into Hi.
  do 2 (kept Hr Hi @internal_disk). bind_step Hr sg. bind_step Hr registry. bind_step Hr api.
  clear Hstep Hstep0 Hstep1.
  bind_step Hr services. apply internal_admin in Hstep as (ca & ip2 & Hca & Hk). rewrite Hi in Hca, Hk.
  cbn [fst snd app] in Hca, Hk. rewrite second_connects in Hca. injection Hca as <- <-. injection Hr as _ <-.
  unfold internal in Hk. injection Hk as Hip2 Ho Hpr.
  exists (mkInprocListener "admin-service" 0). do 2 eexists. do 4 eexists. rewrite Hip2.
  split_and!; [exact Ho|exact Hpr|by vm_compute..|done].
Qed.
End daemon.

(** ** The resources of the REST API *)

(** Whether two patterns can match one path *)
Fixpoint compatible (p q : list string) : bool :=
  match p, q with
  | [], [] => true
  | x :: p, y :: q =>
      match variable x, variable y with
      | None, None => bool_decide (x = y)
      | _, _ => true
      end && compatible p q
  | _, _ => false
  end.
Lemma match_compatible p q path i j :
  match_segments p path = Some i → match_segments q path = Some j → compatible p q = true.
Proof.
  revert q path i j. induction p as [|x p IH]; intros [|y q] [|z path] i j; cbn; try done.
  assert (Hm : ∀ a b (o : option MatchInfo), (if is_empty z then None else <[a := z]> <$> o) = Some b → ∃ c, o = Some c).
  { intros a b [c|]; [by eauto|]. by destruct (is_empty z). }
  destruct (variable x), (variable y); cbn; repeat case_bool_decide; intros; subst; try done;
    repeat match goal with H : _ = Some _ |- _ => apply Hm in H as [? H] end; by eapply IH.
Qed.
Lemma compatible_literals p q :
  Forall (λ x, no_brace x = true) p → Forall (λ x, no_brace x = true) q → compatible p q = true → p = q.
Proof.
  intros Hp. revert q. induction Hp as [|x p Hx Hp IH]; intros q [|y q' Hy Hq]; cbn; [done..|].
  rewrite !no_brace_literal by done. intros [->%bool_decide_eq_true Hc]%andb_true_iff. f_equal. by apply IH.
Qed.

Section routes.
Context `{!Actix} {Hpatterns : ActixPatterns}.
Context {Svc W R : Type} (h : RestHandlers R) (circuit_read : bool) (bind : string).
Context (admin orchestrator : list (Resource R)) (es : list (list (ServiceEndpoint Svc W))).

Definition daemon_resources : list (Resource R) := rb_resources (daemon_rest_api h circuit_read bind admin orchestrator).

(** The patterns besides those of endpoints *)
Definition fixed_patterns : list string :=
  ["/openapi.yml"; "/status"; "/nodes/{identity}"; "/nodes"; "/keys"; "/keys/{public_key}";
   "/ws/admin/register/{type}"; "/admin/submit"; "/circuits/{circuit_id}"; "/circuits"].
Definition fixed_compatible : bool :=
  forallb (λ p, forallb (λ q, implb (compatible (split_on "/" p) (split_on "/" q)) (bool_decide (p = q))) fixed_patterns)
    fixed_patterns.

Context (Hadmin : route <$> admin = ["/ws/admin/register/{type}"; "/admin/submit"]).
Context (Horchestrator : route <$> orchestrator = endpoint_route <$> mjoin es).
Context (Hplain : Forall plain_endpoint (mjoin es)) (Hws : Forall (λ e, se_service_type e ≠ "ws") (mjoin es)).
Context (Hdistinct : NoDup ((λ e, (se_service_type e, se_route e)) <$> mjoin es)).

Lemma daemon_routes :
  route <$> daemon_resources =
    take 6 fixed_patterns ++ take 2 (drop 6 fixed_patterns) ++ (endpoint_route <$> mjoin es) ++
    (if circuit_read then drop 8 fixed_patterns else []).
Proof.
  unfold daemon_resources, daemon_rest_api. rewrite <- Horchestrator. destruct circuit_read; cbn [rb_resources add_resources];
    rewrite !fmap_app, Hadmin; cbn; by rewrite ?app_nil_r.
Qed.
Lemma daemon_route_elem p :
  p ∈ route <$> daemon_resources → p ∈ fixed_patterns ∨ ∃ e, p = endpoint_route e ∧ e ∈ mjoin es.
Proof.
  rewrite daemon_routes, !elem_of_app. intros [Hp|[Hp|[Hp|Hp]]]; [left|left|right|left].
  - set_solver.
  - set_solver.
  - apply list_elem_of_fmap in Hp as (e & -> & He). eauto.
  - destruct circuit_read; set_solver.
Qed.

Lemma plain_elem e : e ∈ mjoin es → plain_endpoint e.
Proof. rewrite Forall_forall in Hplain. apply Hplain. Qed.

Lemma fixed_segments :
  split_on "/" <$> fixed_patterns =
    [["";"openapi.yml"]; ["";"status"]; ["";"nodes";"{identity}"]; ["";"nodes"]; ["";"keys"]; ["";"keys";"{public_key}"];
     ["";"ws";"admin";"register";"{type}"]; ["";"admin";"submit"]; ["";"circuits";"{circuit_id}"]; ["";"circuits"]].
Proof. by vm_compute. Qed.
Lemma endpoint_fixed_incompatible e p :
  e ∈ mjoin es → p ∈ fixed_patterns → compatible (split_on "/" (endpoint_route e)) (split_on "/" p) = false.
Proof.
  intros He Hp. rewrite endpoint_segments by (by apply plain_elem).
  assert (Hl : variable (se_service_type e) = None) by (apply no_brace_literal; by apply plain_elem in He as (_ & ? & _)).
  rewrite Forall_forall in Hws. specialize (Hws e He).
  apply (list_elem_of_fmap_2 (split_on "/")) in Hp. rewrite fixed_segments in Hp. generalize dependent (split_on "/" p).
  intros q Hp. repeat (apply elem_of_cons in Hp as [->|Hp];
    [cbn; rewrite Hl;
     first [by rewrite ?andb_false_r | by rewrite (bool_decide_eq_false_2 (se_service_type e = "ws"))]|]).
  by apply elem_of_nil in Hp.
Qed.
Lemma endpoints_compatible e e' :
  e ∈ mjoin es → e' ∈ mjoin es → compatible (split_on "/" (endpoint_route e)) (split_on "/" (endpoint_route e')) = true →
  (se_service_type e, se_route e) = (se_service_type e', se_route e').
Proof.
  intros He%plain_elem He'%plain_elem. rewrite !endpoint_segments by done.
  destruct He as (_ & Hb & Hr), He' as (_ & Hb' & Hr'). cbn [compatible].
  rewrite (no_brace_literal _ Hb), (no_brace_literal _ Hb'). cbn.
  intros [_ [->%bool_decide_eq_true Hc]%andb_true_iff]%andb_true_iff. f_equal. apply route_segments_inj; [done..|].
  apply compatible_literals; [by apply route_segments_literal..|done].
Qed.
Lemma daemon_routes_compatible p q :
  p ∈ route <$> daemon_resources → q ∈ route <$> daemon_resources →
  compatible (split_on "/" p) (split_on "/" q) = true → p = q.
Proof.
  assert (Hf : ∀ p q, p ∈ fixed_patterns → q ∈ fixed_patterns → compatible (split_on "/" p) (split_on "/" q) = true → p = q).
  { assert (Hall : fixed_compatible = true) by (by vm_compute). unfold fixed_compatible in Hall.
    intros p' q' Hp Hq Hc. rewrite forallb_forall in Hall. apply list_elem_of_In in Hp, Hq.
    specialize (Hall _ Hp). rewrite forallb_forall in Hall. specialize (Hall _ Hq). rewrite Hc in Hall. cbn in Hall.
    by apply bool_decide_eq_true in Hall. }
  assert (Hsym : ∀ l k, compatible l k = compatible k l).
  { induction l as [|x l IH]; intros [|y k]; cbn; [done..|]. rewrite IH. f_equal. destruct (variable x), (variable y); try done.
    apply bool_decide_ext. split; congruence. }
  intros [Hp|(e & -> & He)]%daemon_route_elem [Hq|(e' & -> & He')]%daemon_route_elem; [by apply Hf| | |].
  - by rewrite Hsym, endpoint_fixed_incompatible.
  - by rewrite endpoint_fixed_incompatible.
  - intros Hc. apply endpoints_compatible in Hc; [|done..]. unfold endpoint_route. injection Hc as -> ->. done.
Qed.
Lemma compatible_self p : compatible p p = true.
Proof.
  induction p as [|x p IH]; cbn; [done|]. rewrite IH. destruct (variable x); [done|]. by rewrite bool_decide_eq_true_2.
Qed.
Lemma daemon_routes_distinct : NoDup (route <$> daemon_resources).
Proof.
  assert (Hd : NoDup (endpoint_route <$> mjoin es)).
  { assert (Hg : ∀ l : list (ServiceEndpoint Svc W), l ⊆ mjoin es →
      NoDup ((λ e, (se_service_type e, se_route e)) <$> l) → NoDup (endpoint_route <$> l)).
    { induction l as [|e l IH]; intros Hl; [by constructor|]. rewrite !fmap_cons, !NoDup_cons. intros [Hn Hd]. split; [|apply IH; set_solver].
      intros (e' & Heq & He')%list_elem_of_fmap. apply Hn, list_elem_of_fmap. exists e'. split; [|done].
      apply endpoints_compatible; [set_solver..|]. rewrite Heq. apply compatible_self. }
    by apply Hg. }
  rewrite daemon_routes.
  set (c := if circuit_read then drop 8 fixed_patterns else []). set (e := endpoint_route <$> mjoin es).
  assert (take 6 fixed_patterns ++ take 2 (drop 6 fixed_patterns) ++ e ++ c ≡ₚ
    (take 6 fixed_patterns ++ take 2 (drop 6 fixed_patterns) ++ c) ++ e) as ->.
  { rewrite (Permutation_app_comm e c). by rewrite <- !app_assoc. }
  apply NoDup_app. split_and!; [| |done].
  - apply (bool_decide_unpack _). unfold c. destruct circuit_read; by vm_compute.
  - intros p Hp (x & -> & Hx)%list_elem_of_fmap.
    assert (Hin : endpoint_route x ∈ fixed_patterns).
    { rewrite !elem_of_app in Hp. unfold c in Hp. destruct circuit_read; set_solver. }
    pose proof (endpoint_fixed_incompatible _ _ Hx Hin) as Hc. by rewrite compatible_self in Hc.
Qed.

Lemma daemon_routes_simple p : p ∈ route <$> daemon_resources → simple_pattern p = true.
Proof.
  intros [Hp|(e & -> & He)]%daemon_route_elem; [|by apply endpoint_simple, plain_elem].
  assert (Hall : forallb simple_pattern fixed_patterns = true) by (by vm_compute).
  rewrite forallb_forall in Hall. by apply Hall, list_elem_of_In.
Qed.

(** No resource of the daemon hides another one: a request whose path matches the pattern of
    a resource is answered by that resource, whatever the service types that are installed,
    as long as their endpoints are distinct and none is called [ws]. *)
Theorem daemon_resource_reached r m path info p s :
  r ∈ daemon_resources → match_path (route r) path = Some info →
  serve (into_route <$> daemon_resources) m path p s = serve_resource (into_route r) m info p s.
Proof.
  intros Hr Hm.
  assert (Hone : ∀ r' i, r' ∈ daemon_resources → match_path (route r') path = Some i → r' = r).
  { intros r' i Hr' Hm'. assert (Hroute : route r' = route r).
    { apply daemon_routes_compatible; [by apply list_elem_of_fmap_2..|].
      rewrite match_pattern in Hm, Hm' by (by apply daemon_routes_simple, list_elem_of_fmap_2). by eapply match_compatible. }
    pose proof daemon_routes_distinct as Hd. apply list_elem_of_lookup in Hr as [i1 H1], Hr' as [i2 H2].
    assert (i2 = i1) as ->.
    { eapply (NoDup_lookup (route <$> daemon_resources)); [done|by rewrite list_lookup_fmap, H2|by rewrite list_lookup_fmap, H1, Hroute]. }
    congruence. }
  revert Hr Hone. generalize daemon_resources. induction l as [|x l IH]; intros Hr Hone; [by apply elem_of_nil in Hr|].
  cbn. rewrite into_route_spec. cbn [ar_pattern]. destruct (match_path (route x) path) as [i|] eqn:Hx.
  - pose proof (Hone x i (list_elem_of_here _ _) Hx) as ->. rewrite Hm in Hx. injection Hx as <-. by rewrite into_route_spec.
  - apply IH; [|intros r' i Hr'; apply Hone; by apply list_elem_of_further].
    apply elem_of_cons in Hr as [->|Hr]; [congruence|done].
Qed.
End routes.

(** The resources of the admin service and of an orchestrator have these routes. *)
Lemma admin_routes {D W R} `{!FileSystem D, !Serde ProposalRegistry, !Sha256, !Codec Proto.Circuit,
    !Codec Proto.CircuitProposal, !Codec Proto.Header, !Codec Proto.CircuitManagementPayload, !KeyRegistry W,
    !KeyPermissionManager W, !SignatureVerifier W, !AdminShared.PeerConnector W, !AuthorizationInquisitor W,
    !SystemClock W, !Websockets W} (view : R → AdminRest (D := D) (W := W)) put starts :
  route <$> (zoom view put <$> admin_resources starts) = ["/ws/admin/register/{type}"; "/admin/submit"].
Proof. done. Qed.
Lemma daemon_service_routes {Svc W R} (view : R → ServiceOrchestrator Svc W * W) put es :
  route <$> (zoom view put <$> orchestrator_resources es) = endpoint_route <$> mjoin es.
Proof. rewrite orchestrator_resources_concat, <- !list_fmap_compose. done. Qed.

(** ** A daemon *)

Module DaemonExample.
Import Files.
(** The stored directory is the one of the file system: here it is always the same. *)
Definition node_at (endpoint : string) : CircuitDirectory :=
  mkCircuitDirectory {["n2" := mkSplinterNode "n2" [endpoint]]} ∅ (cd_admin_circuit Directory.new).
Definition directory_serde (x : CircuitDirectory) : Serde CircuitDirectory := {| to_yaml _ := Some ""; from_yaml _ := Some x |}.
#[export] Instance keys_serde : Serde PersistedKeyRegistry := {| to_yaml _ := Some ""; from_yaml _ := Some ∅ |}.
#[export] Instance proposals_serde : Serde ProposalRegistry := {| to_yaml _ := Some ""; from_yaml _ := Some ∅ |}.
#[export] Instance nodes_serde : Serde (list Node) := {| to_yaml _ := Some ""; from_yaml _ := Some [] |}.
#[export] Instance network_codec : Codec NetworkMessage :=
  {| parse_from_bytes b := Some (mkNetworkMessage CIRCUIT b); write_to_bytes m := Some (nm_payload m) |}.
#[export] Instance authorization_codec : Codec AuthorizationMessage :=
  {| parse_from_bytes b := Some (mkAuthorizationMessage CONNECT_REQUEST b); write_to_bytes m := Some (am_payload m) |}.
#[export] Instance request_codec : Codec ConnectRequest :=
  {| parse_from_bytes _ := Some (mkConnectRequest BIDIRECTIONAL); write_to_bytes _ := Some "" |}.

(** Sockets are their addresses; a mesh is the list of its connections, and answers. *)
Definition tcp : Transport () string string :=
  mkTransport (accepts_protocol RAW_PREFIX) (λ a, mret a) (λ a, mret a).
Abbreviation conn := (string + InprocConnection)%type.
#[export] Instance list_mesh : Mesh (list conn) conn := {|
  remote_endpoint c := match c with inl a => a | inr c => inproc_endpoint (ic_endpoint c) end;
  mesh_add c v := (Ok (length v), v ++ [c]);
  mesh_remove _ := mret ();
  mesh_send _ _ := mret ();
  mesh_recv v := (Ok (0, ""), v);
|}.
#[export] Instance list_mesh_log : MeshLog (list conn) conn.
Proof. refine {| mesh_added v := v |}; done. Defined.
#[export] Instance named_service : Services.Service string () := {|
  service_id x := x;
  service_start _ := mret ();
  service_stop _ := mret ();
  service_destroy _ := mret ();
  service_handle_message _ _ := mret ();
|}.

Definition no_handler : HandlerFunction () := λ _ _, mret (finish 200).
Definition no_handlers : RestHandlers () :=
  mkRestHandlers () no_handler no_handler no_handler no_handler no_handler no_handler no_handler no_handler no_handler
    no_handler no_handler.
Definition daemon : SplinterDaemon () :=
  mkSplinterDaemon "s.yaml" "memory" "tcp://localhost:8043" "tcp://localhost:8044" ["tcp://peer"] () "n1" "localhost:8080"
    RegistryNoOp "memory".
Abbreviation example := (DaemonState (gmap string bytes) (() * Inproc * Inproc) (list conn) (list conn)).
Definition state0 : example :=
  mkDaemonState {["s.yaml" := ""]} ((), inproc_new, inproc_new) (Net.new []) [] [] [] (mkThreads [] []).
Definition start_with (directory : CircuitDirectory) (health : bool) : eff example DaemonStartError (Running nat string () ()) :=
  let _ := directory_serde directory in
  daemon_start health false (given tcp) inproc health_inproc None (λ i, "uuid") (mkServerOutcome (Ok ()) (λ _, Ok ()))
    [mkServiceFactory ["scabbard"] (λ id _ _ _, mret id)] no_handlers (λ _, []) (λ _, [])
    (λ a, admin_service_id (node_id a)) daemon.

Lemma contains_prefix p q a : starts_with (p +:+ q) a = true → contains q a = true.
Proof.
  unfold starts_with. revert a. induction p as [|c p IH]; intros a; cbn [String.append].
  - rewrite str_app_nil. intros Ha. destruct a; cbn [contains]; unfold starts_with; by rewrite Ha.
  - rewrite str_app_cons. destruct a as [|d a]; [done|]. change (String.prefix _ _) with (if ascii_dec c d then String.prefix (p +:+ q) a else false).
    destruct (ascii_dec c d); [|done]. intros Ha%IH. cbn [contains]. by rewrite Ha, orb_true_r.
Qed.
Lemma tcp_plain : takes_plain tcp.
Proof. intros a Ha. cbn. unfold accepts_protocol. by rewrite Ha, orb_true_r. Qed.
Lemma tcp_apart : apart tcp.
Proof.
  intros a Ha. cbn. unfold accepts_protocol. rewrite (contains_prefix "inproc" "://" a) by done. rewrite orb_false_r.
  destruct a as [|c a]; [done|]. revert Ha.
  change (starts_with INPROC_PREFIX (String c a)) with (if ascii_dec "i" c then String.prefix "nproc://" a else false).
  by destruct (ascii_dec "i" c) as [<-|].
Qed.

Lemma example_starts : ∃ r s', start_with (node_at "tcp://n2") true state0 = (Ok r, s').
Proof.
  destruct (start_with (node_at "tcp://n2") true state0) as [[r|e] s'] eqn:H; [by eauto|]. exfalso.
  assert (Hok : match (start_with (node_at "tcp://n2") true state0).1 with Ok _ => true | Err _ => false end = true)
    by (by vm_compute). by rewrite H in Hok.
Qed.

Lemma internal_services_identified_witness :
  ∃ s' l co ca c1 c2 ip1 ip2, s' = (start_with (node_at "tcp://n2") true state0).2 ∧
    mesh_added (ds_orchestrator_mesh s') = [inr co] ∧ mesh_added (ds_processor_mesh s') = [inr ca] ∧
    inproc_accept l (ds_transport s').1.2 = (Ok (Some c1), ip1) ∧ other_end co c1 ∧
    inproc_accept l ip1 = (Ok (Some c2), ip2) ∧ other_end ca c2.
Proof.
  destruct example_starts as (r & s' & Hs). exists s'. rewrite Hs. unfold start_with in Hs.
  eapply internal_services_identified in Hs as (l & co & ca & c1 & c2 & ip1 & ip2 & Ho & Ha & _ & _ & H1 & He1 & H2 & He2 & _);
    [by exists l, co, ca, c1, c2, ip1, ip2|apply tcp_plain|apply tcp_apart|done|done|by apply Forall_singleton| |done].
  intros st Hst i n e Hin Hne He. vm_compute in Hst. injection Hst as <-. vm_compute in Hin.
  apply list_elem_of_singleton in Hin. injection Hin as -> ->. vm_compute in He. by injection He as <-.
Defined.

Lemma health_service_never_starts_witness :
  (daemon_wait true (health_inproc (L0 := string)) (λ n, hs_service_id (health_service_new n)) daemon true
    (start_with (node_at "tcp://n2") true state0).2).1 =
  Err (StartHealthServiceError "unable to initiate health service connection").
Proof.
  destruct (start_with (node_at "tcp://n2") true state0) as [r s'] eqn:Hs. unfold start_with in Hs.
  by eapply health_service_never_starts in Hs; [exact Hs|apply tcp_plain|..].
Defined.

(** A node that announces the address of the internal services as its own is connected to
    them first: it is taken for the orchestrator, and the orchestrator for the admin
    service. *)
Example internal_address_taken :
  let s' := (start_with (node_at "inproc://admin-service") false state0).2 in
  let l := mkInprocListener "admin-service" 0 in
  ∃ c1 c2 ip1 ip2 co, inproc_accept l (ds_transport s').1.2 = (Ok (Some c1), ip1) ∧
    inproc_accept l ip1 = (Ok (Some c2), ip2) ∧ ds_orchestrator_mesh s' = [inr co] ∧ other_end co c2.
Proof. do 5 eexists. by vm_compute. Qed.

(** A request for a service, and one for a node *)
Import OrchestratorExample.
Abbreviation boxes_state := (ServiceOrchestrator (list Payload) () * ())%type.
Definition answer (t : string) : HandlerFunction boxes_state := λ info _, mret (mkResponse 200 (t +:+ default "" (info !! "identity"))).
Definition answers : RestHandlers boxes_state :=
  mkRestHandlers _ (answer "openapi") (answer "status") (answer "node ") (answer "updated") (answer "deleted") (answer "nodes")
    (answer "added") (answer "key") (answer "keys") (answer "circuit") (answer "circuits").
Definition admin_answers : list (Resource boxes_state) :=
  [add_method Get (answer "registered") (resource_build "/ws/admin/register/{type}");
   add_method Post (answer "submitted") (resource_build "/admin/submit")].

Lemma daemon_resource_reached_witness :
  (serve (into_route <$> daemon_resources answers true "localhost" admin_answers (orchestrator_resources [[listed; posted]]))
    Get "/nodes/n1" [] (boxes, ())).1 = Ok (mkResponse 200 "node n1").
Proof.
  rewrite (daemon_resource_reached answers true "localhost" admin_answers (orchestrator_resources [[listed; posted]])
    [[listed; posted]] eq_refl) with (r := make_nodes_identity_resource answers) (info := {["identity" := "n1"]}).
  - by vm_compute.
  - by rewrite orchestrator_resources_concat.
  - apply plain_examples.
  - change (Forall (λ e : ServiceEndpoint (list Payload) (), se_service_type e ≠ "ws") [listed; posted]).
    by repeat constructor.
  - apply (bool_decide_unpack _). by vm_compute.
  - apply list_elem_of_further, list_elem_of_further, list_elem_of_here.
  - by vm_compute.
Defined.
End DaemonExample.
