(* ===== verification/WebSocket.v ===== *)
(** * The websocket client

    Models [libsplinter/src/events]: a client that keeps a websocket to a server open
    ([ws.rs]), its errors ([error.rs]) and the reactor that runs it ([reactor.rs]).  The
    future that [WebSocketClient::listen] makes is a function of how the connection was
    set up and of what the stream then gives; hyper, tokio and the codec of websockets
    are the class [WsSink] and the channel to the reactor the class [IgniterChannel].
    The callbacks of the user act on the world. *)

From S2P Require Import Prelude AdminShared.
From Stdlib Require Import Lia ZArith.

(** ** Messages and errors *)

Inductive Frame :=
  | FrameText (msg : option bytes)
  | FrameBinary (msg : option bytes)
  | FramePing (msg : string)
  | FramePong (msg : string)
  | FrameClose.

Inductive CloseCode := CloseNormal | CloseProtocol.
Inductive WsMessage :=
  | MsgText (msg : string)
  | MsgBinary (b : bytes)
  | MsgPong (msg : string)
  | MsgClose (code : CloseCode).

(** What a callback answers *)
Inductive WsResponse :=
  | WsEmpty
  | WsClose
  | WsPong (msg : string)
  | WsText (msg : string)
  | WsBytes (b : bytes).

Inductive WsProtocolError := WsProtocolFailed.
Inductive ParseError := MalformedMessage.

(** The errors that the client makes; [ShutdownHandleError] is that of a channel whose
    sender is gone. *)
Inductive WebSocketError :=
  | ProtocolError (e : WsProtocolError)
  | ShutdownHandleError
  | RequestBuilderError
  | AbnormalShutdownError (protocol_error shutdown_error : WsProtocolError)
  | ParserError (parse_error : ParseError) (shutdown_error : option WsProtocolError)
  | ListenError (msg : string)
  | ConnectError (msg : string)
  | ReconnectError (msg : string).

Inductive ConnectionStatus :=
  | Open
  | UnexpectedClose (e : WebSocketError)
  | Close (r : result WebSocketError ()).

(** [ParseBytes] *)
Class ParseBytes (T : Type) := from_bytes : bytes → result ParseError T.
#[export] Instance parse_bytes_vec : ParseBytes bytes := λ b, Ok b.

(** The sink of a connection *)
Class WsSink (W : Type) := {
  sink_send : WsMessage → eff W WsProtocolError ();
  sink_flush : eff W WsProtocolError ();
  sink_close : eff W WsProtocolError ();
}.

(** ** The client *)

Definition DEFAULT_RECONNECT : bool := false.
Definition DEFAULT_RECONNECT_LIMIT : Z := 10.
Definition DEFAULT_TIMEOUT : Z := 300.

(** One second, in the unit of the clock *)
Definition SECOND : Z := 1000000000.

(** [Context], but for the igniter and the client, which never change.  The wait is a
    power of two of seconds, which the floating point numbers of the source represent. *)
Record Context := mkContext {
  ctx_reconnect_count : Z;
  ctx_last_reconnect : Z;
  ctx_wait : Z;
}.

Record WebSocketClient (T W : Type) := mkWebSocketClient {
  ws_url : string;
  ws_on_message : Context → T → W → WsResponse * W;
  ws_on_open : option (Context → W → WsResponse * W);
  ws_on_error : option (WebSocketError → Context → eff W WebSocketError ());
  ws_reconnect : bool;
  ws_reconnect_limit : Z;
  ws_timeout : Z;
}.
Arguments mkWebSocketClient {T W}.
Arguments ws_url {T W} w.
Arguments ws_on_message {T W} w.
Arguments ws_on_open {T W} w.
Arguments ws_on_error {T W} w.
Arguments ws_reconnect {T W} w.
Arguments ws_reconnect_limit {T W} w.
Arguments ws_timeout {T W} w.

Section builder.
Context {T W : Type}.

Definition websocket_client_new (url : string) (on_message : Context → T → W → WsResponse * W) : WebSocketClient T W :=
  mkWebSocketClient url on_message None None DEFAULT_RECONNECT DEFAULT_RECONNECT_LIMIT DEFAULT_TIMEOUT.
Definition set_reconnect (reconnect : bool) (c : WebSocketClient T W) : WebSocketClient T W :=
  mkWebSocketClient (ws_url c) (ws_on_message c) (ws_on_open c) (ws_on_error c) reconnect (ws_reconnect_limit c) (ws_timeout c).
Definition set_reconnect_limit (limit : Z) (c : WebSocketClient T W) : WebSocketClient T W :=
  mkWebSocketClient (ws_url c) (ws_on_message c) (ws_on_open c) (ws_on_error c) (ws_reconnect c) limit (ws_timeout c).
Definition set_timeout (timeout : Z) (c : WebSocketClient T W) : WebSocketClient T W :=
  mkWebSocketClient (ws_url c) (ws_on_message c) (ws_on_open c) (ws_on_error c) (ws_reconnect c) (ws_reconnect_limit c) timeout.
Definition set_on_open (on_open : Context → W → WsResponse * W) (c : WebSocketClient T W) : WebSocketClient T W :=
  mkWebSocketClient (ws_url c) (ws_on_message c) (Some on_open) (ws_on_error c) (ws_reconnect c) (ws_reconnect_limit c) (ws_timeout c).
Definition set_on_error (on_error : WebSocketError → Context → eff W WebSocketError ()) (c : WebSocketClient T W) :
    WebSocketClient T W :=
  mkWebSocketClient (ws_url c) (ws_on_message c) (ws_on_open c) (Some on_error) (ws_reconnect c) (ws_reconnect_limit c) (ws_timeout c).
End builder.

(** What the reactor is sent.  A [Listen] is the URL of its client and the context it was
    made with; a request is a future that is known by a number. *)
Inductive ReactorMessage := ReactorStop | StartWs (url : string) (c : Context) | HttpRequest (request : nat).

(** The channel to the reactor, whether it runs, and the end of its thread *)
Class IgniterChannel (W : Type) := {
  send_reactor : ReactorMessage → eff W SendError ();
  is_reactor_running : W → bool;
  join_reactor : eff W () ();
}.

(** The errors of an igniter and of the shutdown of a reactor *)
Inductive ReactorError :=
  | RequestSendError (msg : string)
  | ReactorShutdownError (msg : string).

(** [Igniter::send] and [Reactor::shutdown] *)
Definition igniter_send `{!IgniterChannel W} (request : nat) : eff W ReactorError () :=
  emap_err (λ _, RequestSendError "Failed to send request to reactor ") (send_reactor (HttpRequest request)).
Definition reactor_shutdown `{!IgniterChannel W} : eff W ReactorError () :=
  emap_err (λ _, ReactorShutdownError "Failed to send shutdown message") (send_reactor ReactorStop);;
  emap_err (λ _, ReactorShutdownError "Failed to join thread") join_reactor.

(** ** Reconnecting *)

Section context.
Context {T W : Type} `{!SystemClock W, !IgniterChannel W}.
Context (client : WebSocketClient T W).
(** Whether the request that opens the connection can be built from the URL *)
Context (request_builds : string → bool).

Definition now {E} : eff W E Z := λ w, let '(t, w) := system_time w in (Ok t, w).

Definition context_new {E} : eff W E Context :=
  t ← now;
  mret (mkContext 0 t SECOND).

Definition reset_wait (c : Context) : Context := mkContext (ctx_reconnect_count c) (ctx_last_reconnect c) SECOND.
Definition reset_reconnect_count (c : Context) : Context := mkContext 0 (ctx_last_reconnect c) (ctx_wait c).
Definition ws_connected (c : Context) : Context := reset_reconnect_count (reset_wait c).

(** [listen], as far as it can fail, and [start_ws] *)
Definition listen (c : Context) : result WebSocketError Context :=
  if request_builds (ws_url client) then Ok c else Err RequestBuilderError.
Definition start_ws_with_listen (c : Context) : eff W WebSocketError () :=
  emap_err (λ _, ListenError "Failed to start ws ") (send_reactor (StartWs (ws_url client) c)).
Definition start_ws (c : Context) : eff W WebSocketError () :=
  c ← lift (listen c);
  start_ws_with_listen c.

(** [Igniter::start_ws] *)
Definition igniter_start_ws : eff W WebSocketError () :=
  c ← context_new;
  c ← lift (listen c);
  emap_err (λ _, ListenError ("Failed to start ws " +:+ ws_url client +:+ ": ")) (send_reactor (StartWs (ws_url client) c)).

(** The loop that waits; it ends when the time has passed, or when the reactor no longer
    runs.  No result means that it still waits after that many looks at the clock. *)
Fixpoint reconnect_wait (fuel : nat) (c : Context) (w : W) : option bool * W :=
  match fuel with
  | 0 => (None, w)
  | S fuel =>
      let '(t, w) := system_time w in
      let elapsed := Z.max 0 (t - ctx_last_reconnect c) in
      if (ctx_wait c <=? elapsed)%Z then (Some true, w)
      else if negb (is_reactor_running w) then (Some false, w)
      else reconnect_wait fuel c w
  end.

(** What [reconnect] does after the wait *)
Definition reconnect_attempt (c : Context) : W → result WebSocketError () * Context * W := λ w,
  let '(t, w) := system_time w in
  let c := mkContext (ctx_reconnect_count c + 1) t (ctx_wait c * 2) in
  let '(r, w) := start_ws c w in
  (r, c, w).
(** No result: it still waits. *)
Definition reconnect (fuel : nat) (c : Context) (w : W) : option (result WebSocketError ()) * Context * W :=
  match reconnect_wait fuel c w with
  | (None, w) => (None, c, w)
  | (Some false, w) => (Some (Ok ()), c, w)
  | (Some true, w) => let '(r, c, w) := reconnect_attempt c w in (Some r, c, w)
  end.

Definition may_reconnect (c : Context) : bool :=
  ws_reconnect client && (ctx_reconnect_count c <? ws_reconnect_limit client)%Z.
Definition give_up_error : WebSocketError :=
  if ws_reconnect client then
    ReconnectError "Cannot connect to ws server. Reached maximum limit of reconnection attempts"
  else ConnectError "Cannot connect to ws server".
Definition try_reconnect (fuel : nat) (c : Context) (w : W) : option (result WebSocketError ()) * Context * W :=
  if may_reconnect c then reconnect fuel c w
  else
    let c := reset_reconnect_count (reset_wait c) in
    let '(r, w) := match ws_on_error client with
                   | Some on_error => on_error give_up_error c w
                   | None => (Ok (), w)
                   end in
    (Some r, c, w).
End context.

(** ** The future of a connection *)

(** [running] is shared with the shutdown handle, to which one result is sent; [ls_sent]
    is what was sent. *)
Record ListenState := mkListenState {
  ls_running : bool;
  ls_sent : list (result WebSocketError ());
}.
Definition listen_state_new : ListenState := mkListenState true [].

Section future.
Context {T W : Type} `{!ParseBytes T, !WsSink W, !SystemClock W, !IgniterChannel W}.
Context (client : WebSocketClient T W) (request_builds : string → bool).

Abbreviation conn_eff := (eff (ListenState * W)).

Definition on_sink {E A} (m : eff W E A) : conn_eff E A := λ '(s, w), let '(r, w) := m w in (r, (s, w)).
Definition set_running {E} (b : bool) : conn_eff E () := modify (λ '(s, w), (mkListenState b (ls_sent s), w)).
(** [sender.send(..)]; that the receiver is gone is logged. *)
Definition report {E} (r : result WebSocketError ()) : conn_eff E () :=
  modify (λ '(s, w), (mkListenState (ls_running s) (ls_sent s ++ [r]), w)).
Definition callback {E} (f : W → WsResponse * W) : conn_eff E WsResponse := λ '(s, w),
  let '(r, w) := f w in (Ok r, (s, w)).

Definition do_shutdown (close_code : CloseCode) : conn_eff WsProtocolError () :=
  set_running false;;
  r ← attempt (on_sink (sink_send (MsgClose close_code);; sink_flush;; sink_close));
  match r with
  | Ok _ => mret ()
  | Err _ => on_sink sink_close
  end.

(** A message that cannot be sent closes the connection. *)
Definition or_shutdown (m : eff W WsProtocolError ()) : conn_eff WebSocketError () :=
  r ← attempt (on_sink m);
  match r with
  | Ok _ => mret ()
  | Err protocol_error =>
      r ← attempt (do_shutdown CloseProtocol);
      match r with
      | Err shutdown_error => throw (AbnormalShutdownError protocol_error shutdown_error)
      | Ok _ => throw (ProtocolError protocol_error)
      end
  end.
Definition handle_response (res : WsResponse) : conn_eff WebSocketError () :=
  match res with
  | WsText msg => or_shutdown (sink_send (MsgText msg);; sink_flush)
  | WsBytes b => or_shutdown (sink_send (MsgBinary b);; sink_flush)
  | WsPong msg => or_shutdown (sink_send (MsgPong msg))
  | WsClose => emap_err ProtocolError (do_shutdown CloseNormal)
  | WsEmpty => mret ()
  end.

(** A frame, up to the status of the connection *)
Definition handle_message (c : Context) (b : bytes) : conn_eff WebSocketError () :=
  match from_bytes b with
  | Err parse_error =>
      r ← attempt (do_shutdown CloseProtocol);
      throw (ParserError parse_error (match r with Err e => Some e | Ok _ => None end))
  | Ok message =>
      response ← callback (ws_on_message client c message);
      handle_response response
  end.
Definition open_unless {E} (m : conn_eff WebSocketError ()) : conn_eff E ConnectionStatus :=
  r ← attempt m;
  mret (match r with Err e => UnexpectedClose e | Ok _ => Open end).
Definition frame_status {E} (c : Context) (f : Frame) : conn_eff E ConnectionStatus :=
  match f with
  | FrameText msg | FrameBinary msg => open_unless (handle_message c (default "" msg))
  | FramePing msg => open_unless (handle_response (WsPong msg))
  | FramePong _ => mret Open
  | FrameClose =>
      r ← attempt (emap_err ProtocolError (do_shutdown CloseNormal));
      mret (Close r)
  end.

(** [try_reconnect], whose errors are logged *)
Definition reconnects {E} (fuel : nat) (c : Context) : conn_eff E () := λ '(s, w),
  let '(_, _, w) := try_reconnect client request_builds fuel c w in (Ok (), (s, w)).

(** The condition of [take_while]: whether the stream goes on *)
Definition take_frame {E} (fuel : nat) (c : Context) (f : Frame) : conn_eff E bool :=
  status ← frame_status c f;
  s ← get;
  match ls_running s.1, status with
  | true, Open => mret true
  | false, Open =>
      r ← attempt (emap_err ProtocolError (do_shutdown CloseNormal));
      report r;;
      mret false
  | _, UnexpectedClose original_error =>
      report (Err original_error);;
      reconnects fuel c;;
      mret false
  | _, Close res =>
      report res;;
      reconnects fuel c;;
      mret false
  end.

(** What happens on a connection: a frame arrives, the stream fails or is silent for too
    long, or the shutdown handle clears [running]. *)
Inductive WsEvent :=
  | EvFrame (f : Frame)
  | EvStreamError
  | EvStop.

(** The end of the list is the end of the stream.  [c] is the context of the frames,
    [c_timeout] the one of the timeout, a copy made before the connection was set up. *)
Fixpoint run_stream (fuel : nat) (c c_timeout : Context) (events : list WsEvent) : conn_eff WebSocketError () :=
  match events with
  | [] => mret ()
  | EvStop :: events => set_running false;; run_stream fuel c c_timeout events
  | EvStreamError :: _ =>
      report (Err (ListenError "Connection timeout"));;
      reconnects fuel c_timeout;;
      set_running false;;
      throw (ListenError "Connection timeout")
  | EvFrame f :: events =>
      goes_on ← take_frame fuel c f;
      if (goes_on : bool) then run_stream fuel c c_timeout events else mret ()
  end.

(** The future: [connected] says whether the server could be connected to and upgraded
    in time. *)
Definition listen_future (fuel : nat) (c : Context) (connected : bool) (events : list WsEvent) :
    conn_eff WebSocketError () :=
  if connected then
    response ← callback (match ws_on_open client with Some on_open => on_open c | None => λ w, (WsEmpty, w) end);
    r ← attempt (handle_response response);
    match r with
    | Err e => report (Err e)
    | Ok _ => run_stream fuel (ws_connected c) c events
    end
  else
    report (Err (ConnectError "Failed to connect: "));;
    reconnects fuel c;;
    set_running false;;
    throw (ConnectError "Failed to connect: ").
End future.

(** [ShutdownHandle::shutdown], which then waits for what the future reports; no result
    when the future ended without a report and its sender is gone *)
Definition handle_shutdown (s : ListenState) : ListenState := mkListenState false (ls_sent s).
Definition handle_await (s : ListenState) : result WebSocketError () :=
  match ls_sent s with
  | r :: _ => r
  | [] => Err ShutdownHandleError
  end.

(** ** The reactor *)

(** The runtime spawns futures; a connection is known by the handle of its future. *)
Class Runtime (W : Type) := {
  spawn_listen : string → Context → W → nat * W;
  spawn_request : nat → W → W;
  conn_running : nat → W → bool;
  conn_shutdown : nat → eff W WebSocketError ();
}.

Section reactor.
Context {W : Type} `{!Runtime W}.

(** The handles are shut down one after the other; what fails is logged at first, and
    collected in the end. *)
Fixpoint shutdown_all (conns : list nat) (w : W) : list WebSocketError * W :=
  match conns with
  | [] => ([], w)
  | conn :: conns =>
      let '(r, w) := conn_shutdown conn w in
      let '(errors, w) := shutdown_all conns w in
      (match r with Err e => e :: errors | Ok _ => errors end, w)
  end.

(** An iteration of the loop, on what [try_recv] gives, an empty channel being
    [RecvTimeout]: whether the loop goes on, the connections, and those that were
    closed. *)
Definition reactor_iteration (m : recv ReactorMessage) (conns : list nat) (w : W) : option (list nat * list nat) * W :=
  let collect conns w :=
    let live := filter (λ conn, conn_running conn w = true) conns in
    let closed := filter (λ conn, ¬ conn_running conn w = true) conns in
    (Some (live, closed), (shutdown_all closed w).2) in
  match m with
  | Received (StartWs url c) => let '(conn, w) := spawn_listen url c w in collect (conns ++ [conn]) w
  | Received (HttpRequest request) => collect conns (spawn_request request w)
  | Received ReactorStop => (None, w)
  | Disconnected => (None, w)
  | RecvTimeout => collect conns w
  end.

(** The thread: the connections it was still running in the end, which it shuts down,
    and all those it has closed before *)
Fixpoint reactor_loop (messages : list (recv ReactorMessage)) (conns closed : list nat) (w : W) :
    list nat * list nat * W :=
  match messages with
  | [] => (conns, closed, w)
  | m :: messages =>
      match reactor_iteration m conns w with
      | (None, w) => (conns, closed, w)
      | (Some (live, done), w) => reactor_loop messages live (closed ++ done) w
      end
  end.
Definition reactor_thread (messages : list (recv ReactorMessage)) (w : W) : list nat * list WebSocketError * W :=
  let '(conns, closed, w) := reactor_loop messages [] [] w in
  let '(errors, w) := shutdown_all conns w in
  (closed ++ conns, errors, w).

(** The connections that a reactor is asked to start, in a run *)
Fixpoint spawned (messages : list (recv ReactorMessage)) (conns : list nat) (w : W) : list nat :=
  match messages with
  | [] => []
  | m :: messages =>
      match m with
      | Received (StartWs url c) => [(spawn_listen url c w).1]
      | _ => []
      end ++
      match reactor_iteration m conns w with
      | (None, _) => []
      | (Some (live, _), w) => spawned messages live w
      end
  end.

Lemma reactor_iteration_perm m conns w live done w' :
  reactor_iteration m conns w = (Some (live, done), w') →
  live ++ done ≡ₚ conns ++ match m with Received (StartWs url c) => [(spawn_listen url c w).1] | _ => [] end.
Proof.
  unfold reactor_iteration. destruct m as [[|url c|request]| |]; [done| |..]; try done.
  1: destruct (spawn_listen url c w) as [conn w1]. all: intros [= <- <- _]; rewrite ?app_nil_r; apply filter_app_complement.
Qed.

Lemma reactor_loop_perm messages conns closed w :
  let '(live, done, _) := reactor_loop messages conns closed w in
  live ++ done ≡ₚ conns ++ closed ++ spawned messages conns w.
Proof.
  revert conns closed w. induction messages as [|m messages IH]; intros conns closed w; cbn [reactor_loop spawned].
  - by rewrite app_nil_r.
  - destruct (reactor_iteration m conns w) as [[[live done]|] w1] eqn:Hi.
    + specialize (IH live (closed ++ done) w1). destruct (reactor_loop messages live (closed ++ done) w1) as [[l d] w2].
      rewrite IH. apply reactor_iteration_perm in Hi.
      trans ((live ++ done) ++ closed ++ spawned messages live w1); [solve_Permutation|].
      rewrite Hi. solve_Permutation.
    + unfold reactor_iteration in Hi. destruct m as [[|url c|request]| |]; try done.
      * by rewrite !app_nil_r.
      * by destruct (spawn_listen url c w).
      * by rewrite !app_nil_r.
Qed.

(** Every connection that was started is shut down once, when it stops or when the
    reactor does. *)
Theorem reactor_shuts_down messages w :
  (reactor_thread messages w).1.1 ≡ₚ spawned messages [] w.
Proof.
  unfold reactor_thread. pose proof (reactor_loop_perm messages [] [] w) as Hp.
  destruct (reactor_loop messages [] [] w) as [[conns closed] w1]. destruct (shutdown_all conns w1) as [errors w2].
  cbn in *. by rewrite <- Hp, Permutation_app_comm.
Qed.
End reactor.

(** ** What is reported of a connection *)

Section reports.
Context {T W : Type} `{!ParseBytes T, !WsSink W, !SystemClock W, !IgniterChannel W}.
Context (client : WebSocketClient T W) (request_builds : string → bool).
Implicit Types s : ListenState * W.

(** Nothing was reported, and the flag is not set again. *)
Definition quiet_to s s' : Prop :=
  ls_sent s'.1 = ls_sent s.1 ∧ (ls_running s.1 = false → ls_running s'.1 = false).
(** A report was added, and the connection does not run any more. *)
Definition reported_to s s' : Prop :=
  (∃ r, ls_sent s'.1 = ls_sent s.1 ++ [r]) ∧ ls_running s'.1 = false.

Lemma on_sink_spec {E A} (m : eff W E A) s (Q : result E A → _ → Prop) :
  (∀ r w, Q r (s.1, w)) → wp (on_sink m) Q s.
Proof. destruct s as [st w]. intros HQ. unfold wp, on_sink. destruct (m w). apply HQ. Qed.

Lemma do_shutdown_spec code s :
  wp (do_shutdown code) (λ _ s', ls_sent s'.1 = ls_sent s.1 ∧ ls_running s'.1 = false) s.
Proof.
  destruct s as [st w]. unfold do_shutdown, set_running. wp_go.
  apply on_sink_spec. intros [[]|e] w1; wp_go; [done|]. by apply on_sink_spec.
Qed.

Lemma or_shutdown_spec m s :
  wp (or_shutdown m) (λ r s', quiet_to s s' ∧ (is_ok r = false → ls_running s'.1 = false)) s.
Proof.
  unfold or_shutdown. wp_go. apply on_sink_spec. intros [[]|e] w1; wp_go; [done|]. eapply wp_mono; [apply do_shutdown_spec|]. intros r s' [Hs Hr]. by destruct r.
Qed.

Lemma handle_response_spec res s :
  wp (handle_response res) (λ r s', quiet_to s s' ∧ (is_ok r = false → ls_running s'.1 = false)) s.
Proof.
  destruct res; cbn [handle_response]; try apply or_shutdown_spec; [done|].
  wp_go. eapply wp_mono; [apply do_shutdown_spec|]. intros r s' [Hs Hr]. by split_and!.
Qed.

Lemma callback_spec {E} f s (Q : result E WsResponse → _ → Prop) :
  (∀ res w, Q (Ok res) (s.1, w)) → wp (callback f) Q s.
Proof. destruct s as [st w]. intros HQ. unfold wp, callback. destruct (f w). apply HQ. Qed.

Lemma handle_message_spec c b s :
  wp (handle_message client c b) (λ r s', quiet_to s s' ∧ (is_ok r = false → ls_running s'.1 = false)) s.
Proof.
  unfold handle_message. destruct (from_bytes b) as [m|e]; wp_go.
  - apply callback_spec. intros res w. eapply wp_mono; [apply handle_response_spec|]. done.
  - eapply wp_mono; [apply do_shutdown_spec|]. intros r s' [Hs Hr]. wp_go. by split_and!.
Qed.

(** The status of the connection after a frame *)
Lemma frame_status_spec {E} c f s :
  wp (frame_status (E := E) client c f) (λ r s', quiet_to s s' ∧
    ∃ status, r = Ok status ∧ (status ≠ Open → ls_running s'.1 = false) ∧ (f = FrameClose → status ≠ Open)) s.
Proof.
  assert (∀ m, wp m (λ r s', quiet_to s s' ∧ (is_ok r = false → ls_running s'.1 = false)) s → f ≠ FrameClose →
    wp (open_unless (E := E) m) (λ r s', quiet_to s s' ∧
      ∃ status, r = Ok status ∧ (status ≠ Open → ls_running s'.1 = false) ∧ (f = FrameClose → status ≠ Open)) s) as Hopen.
  { intros m Hm Hf. unfold open_unless. wp_go. eapply wp_mono; [exact Hm|]. intros r s' [Hq Hr]. wp_go.
    split; [done|]. eexists. split; [done|]. split; [|done]. destruct r as [[]|e]; [by intros []|]. intros _. by apply Hr. }
  destruct f; cbn [frame_status]; try (apply Hopen; [|done]).
  - apply handle_message_spec.
  - apply handle_message_spec.
  - apply handle_response_spec.
  - wp_go. split; [done|]. by eexists.
  - wp_go. eapply wp_mono; [apply do_shutdown_spec|]. intros r s' [Hs Hr]. wp_go. split; [done|]. by eexists.
Qed.

Lemma reconnects_spec {E} fuel c s : wp (reconnects (E := E) client request_builds fuel c) (λ r s', r = Ok () ∧ s'.1 = s.1) s.
Proof. destruct s as [st w]. unfold wp, reconnects. by destruct (try_reconnect _ _ _ _ _) as [[r c'] w']. Qed.

Lemma take_frame_spec {E} fuel c f s :
  wp (take_frame (E := E) client request_builds fuel c f) (λ r s', ∃ b, r = Ok b ∧
    if (b : bool) then ls_sent s'.1 = ls_sent s.1 ∧ ls_running s'.1 = true ∧ ls_running s.1 = true ∧ f ≠ FrameClose
    else reported_to s s') s.
Proof.
  unfold take_frame. wp_go. eapply wp_mono; [apply frame_status_spec|].
  intros r s1 [[Hs Hrun] (status & -> & Hst & Hf)]. wp_go.
  destruct status as [|e|res]; [destruct (ls_running s1.1) eqn:Hr| |].
  - wp_go. exists true. split_and!; [done..| |].
    + destruct (ls_running s.1); [done|]. by specialize (Hrun eq_refl).
    + intros ->. by apply Hf.
  - wp_go. eapply wp_mono; [apply do_shutdown_spec|]. intros r s2 [Hs2 Hr2]. unfold report. wp_go.
    exists false. split; [done|]. destruct s2 as [st2 w2]. split; [|done]. eexists. cbn in *. by rewrite Hs2, Hs.
  - assert (ls_running s1.1 = false) as Hr by by apply Hst. destruct s1 as [st1 w1]. cbn in Hs, Hr |- *. rewrite Hr.
    unfold report. wp_go. eapply wp_mono; [apply reconnects_spec|]. intros r s2 [-> Hs2]. wp_go.
    exists false. split; [done|]. unfold reported_to. rewrite Hs2. cbn. split; [|done]. eexists. by rewrite Hs.
  - assert (ls_running s1.1 = false) as Hr by by apply Hst. destruct s1 as [st1 w1]. cbn in Hs, Hr |- *. rewrite Hr.
    unfold report. wp_go. eapply wp_mono; [apply reconnects_spec|]. intros r s2 [-> Hs2]. wp_go.
    exists false. split; [done|]. unfold reported_to. rewrite Hs2. cbn. split; [|done]. eexists. by rewrite Hs.
Qed.

(** The events that end a connection: the stream fails, the server closes it, or a frame
    arrives after the handle was told to stop. *)
Fixpoint ends (running : bool) (events : list WsEvent) : bool :=
  match events with
  | [] => false
  | EvStreamError :: _ => true
  | EvStop :: events => ends false events
  | EvFrame FrameClose :: _ => true
  | EvFrame _ :: events => negb running || ends running events
  end.

Lemma run_stream_spec fuel c c_timeout events s :
  wp (run_stream client request_builds fuel c c_timeout events) (λ r s',
    reported_to s s' ∨ (r = Ok () ∧ ls_sent s'.1 = ls_sent s.1 ∧ ends (ls_running s.1) events = false)) s.
Proof.
  revert s. induction events as [|[f| |] events IH]; intros s; cbn [run_stream].
  - wp_go. by right.
  - wp_go. eapply wp_mono; [apply take_frame_spec|]. intros r s1 (b & -> & Hb). destruct b.
    + destruct Hb as (Hs & Hr & Hr0 & Hf). eapply wp_mono; [apply IH|].
      intros r s' [[[x Hx] Hrun]|(-> & Hs' & He)].
      * left. split; [|done]. exists x. by rewrite Hx, Hs.
      * right. split; [done|]. split; [congruence|]. rewrite Hr in He. rewrite Hr0. by destruct f.
    + wp_go. by left.
  - destruct s as [st w]. unfold report. wp_go. eapply wp_mono; [apply reconnects_spec|]. intros r s1 [-> Hs1].
    unfold set_running. wp_go. left. destruct s1 as [st1 w1]. cbn in *. subst st1. split; [by eexists|done].
  - destruct s as [st w]. unfold set_running. wp_go. eapply wp_mono; [apply IH|]. cbn. intros r s' [Hr|Hr]; [by left|by right].
Qed.

Lemma ends_stopped events : ends true events = true → ends false events = true.
Proof. induction events as [|[[]| |] events IH]; cbn; auto. Qed.

(** Whatever the server sends and the callbacks answer, the future of a connection
    reports to its shutdown handle at most once, so that the channel of one place never
    blocks it, and does not run any more then; it does report when the connection
    cannot be set up, fails, is closed by the server, or gets a frame after it was told
    to stop. *)
Theorem connection_reports_once fuel c connected events w :
  let '(r, (st, _)) := listen_future client request_builds fuel c connected events (listen_state_new, w) in
  (ls_sent st = [] ∨ ∃ x, st = mkListenState false [x]) ∧
  (connected = false ∨ ends true events = true → ∃ x, st = mkListenState false [x]).
Proof.
  cut (wp (listen_future client request_builds fuel c connected events) (λ _ s',
    (ls_sent s'.1 = [] ∨ ∃ x, s'.1 = mkListenState false [x]) ∧
    (connected = false ∨ ends true events = true → ∃ x, s'.1 = mkListenState false [x])) (listen_state_new, w)).
  { unfold wp. by destruct (listen_future _ _ _ _ _ _ _) as [r [st w']]. }
  assert (∀ s', reported_to (listen_state_new, w) s' → ∃ x, s'.1 = mkListenState false [x]) as Hrep.
  { intros [[running sent] w'] [[x Hx] Hr]. cbn in *. subst. by exists x. }
  unfold listen_future. destruct connected.
  - wp_go. apply callback_spec. intros res w1. wp_go. eapply wp_mono; [apply handle_response_spec|].
    intros r s1 [[Hs Hrun] Hr]. destruct r as [[]|e].
    + eapply wp_mono; [apply run_stream_spec|]. intros r s2 [Hx|(_ & Hs2 & He)].
      * destruct (Hrep s2) as [x Hx2]; [|by split; [right|]; exists x].
        destruct Hx as [[x Hx] Hx']. split; [|done]. exists x. by rewrite Hx, Hs.
      * split; [left; by rewrite Hs2, Hs|]. intros [Hc|Hc]; [done|].
        destruct (ls_running s1.1); [congruence|]. apply ends_stopped in Hc. congruence.
    + destruct s1 as [st1 w2]. unfold report. wp_go. destruct (Hrep (mkListenState (ls_running st1) (ls_sent st1 ++ [Err e]), w2)) as [x Hx].
      * split; [exists (Err e); cbn in *; by rewrite Hs|by apply Hr].
      * split; [right|]; by exists x.
  - unfold report. wp_go. eapply wp_mono; [apply reconnects_spec|]. intros r s1 [-> Hs1]. unfold set_running. wp_go.
    destruct s1 as [st1 w1]. cbn in *. subst st1. cbn. split; [right|]; by eexists.
Qed.
End reports.

(** ** Reconnecting ends *)

(** Time passes between two looks at the clock. *)
Class AdvancingClock (W : Type) `{!SystemClock W} : Prop :=
  clock_advances w : ((system_time w).1 < (system_time (system_time w).2).1)%Z.

Section backoff.
Context {T W : Type} `{!SystemClock W, !AdvancingClock W, !IgniterChannel W}.
Context (client : WebSocketClient T W) (request_builds : string → bool).

Lemma reconnect_wait_ends c w : ∃ fuel b w', reconnect_wait fuel c w = (Some b, w').
Proof.
  cut (∀ n w, (ctx_wait c + ctx_last_reconnect c - (system_time w).1 < Z.of_nat n)%Z →
    ∃ b w', reconnect_wait (S n) c w = (Some b, w')).
  { intros Hn. exists (S (Z.to_nat (1 + (ctx_wait c + ctx_last_reconnect c - (system_time w).1)))). apply Hn. lia. }
  clear w. induction n as [|n IH]; intros w Hw; cbn [reconnect_wait]; destruct (system_time w) as [t w1] eqn:Ht; cbn [fst] in Hw.
  - rewrite (proj2 (Z.leb_le _ _)) by lia. by eexists _, _.
  - destruct (ctx_wait c <=? Z.max 0 (t - ctx_last_reconnect c))%Z; [by eexists _, _|].
    destruct (is_reactor_running w1); [|by eexists _, _]. apply IH.
    pose proof (clock_advances w) as Ha. rewrite Ht in Ha. cbn [fst snd] in Ha. lia.
Qed.

(** The contexts with which a connection is tried, when none of the tries before was
    set up: the first, and the one after each wait *)
Inductive tried : nat → Context → Prop :=
  | tried_first t : tried 0 (mkContext 0 t SECOND)
  | tried_next k c fuel w w1 r c' w' :
      tried k c → may_reconnect client c = true →
      reconnect_wait fuel c w = (Some true, w1) →
      reconnect_attempt client request_builds c w1 = (r, c', w') →
      tried (S k) c'.

(** A client whose connections cannot be set up tries no more often again than its
    limit says, and waits twice as long before every try; each wait ends.  After the
    last try the callback for errors is called, with the context as it was at first. *)
Theorem reconnect_backoff k c w :
  tried k c →
  ctx_reconnect_count c = Z.of_nat k ∧ ctx_wait c = (2 ^ Z.of_nat k * SECOND)%Z ∧
  (Z.of_nat k ≤ Z.max 0 (ws_reconnect_limit client))%Z ∧
  (∃ fuel r c' w', try_reconnect client request_builds fuel c w = (Some r, c', w')) ∧
  (may_reconnect client c = false → ∀ fuel on_error, ws_on_error client = Some on_error →
    let c0 := mkContext 0 (ctx_last_reconnect c) SECOND in
    try_reconnect client request_builds fuel c w =
      (Some (on_error (give_up_error client) c0 w).1, c0, (on_error (give_up_error client) c0 w).2)).
Proof.
  intros Ha. assert (ctx_reconnect_count c = Z.of_nat k ∧ ctx_wait c = (2 ^ Z.of_nat k * SECOND)%Z ∧
    (Z.of_nat k ≤ Z.max 0 (ws_reconnect_limit client))%Z) as (Hc & Hw & Hl).
  { induction Ha as [t|k c fuel w0 w1 r c' w' _ (IHc & IHw & _) Hm _ Hr]; [cbn; lia|].
    apply andb_true_iff in Hm as [_ Hm%Z.ltb_lt]. unfold reconnect_attempt in Hr.
    destruct (system_time w1) as [t w2]. destruct (start_ws _ _ _ _) as [x w3]. simplify_eq. cbn.
    rewrite Nat2Z.inj_succ, Z.pow_succ_r by lia. split_and!; lia. }
  split_and!; [done..| |].
  - unfold try_reconnect. destruct (may_reconnect client c).
    + destruct (reconnect_wait_ends c w) as (fuel & b & w' & Hwait). exists fuel. unfold reconnect. rewrite Hwait.
      destruct b; [|by do 3 eexists]. destruct (reconnect_attempt _ _ _ _) as [[r c'] w2]. by do 3 eexists.
    + exists 0. destruct (match ws_on_error client with Some _ => _ | None => _ end) as [r w']. by do 3 eexists.
  - intros Hm fuel on_error He. unfold try_reconnect. rewrite Hm, He. cbn.
    change (reset_reconnect_count (reset_wait c)) with (mkContext 0 (ctx_last_reconnect c) SECOND).
    by destruct (on_error _ _ w).
Qed.
End backoff.

Section stale.
Context {T W : Type} `{!ParseBytes T, !WsSink W, !SystemClock W, !IgniterChannel W}.
Context (client : WebSocketClient T W) (request_builds : string → bool).

(** A connection that was set up and times out is counted as one that could not be set
    up: the context of the timeout is a copy that [ws_connected] does not reset. *)
Lemma timeout_counts_as_failure fuel c (w : W) :
  ws_on_open client = None →
  (listen_future client request_builds fuel c true [EvStreamError] (listen_state_new, w)).2.2 =
  (listen_future client request_builds fuel c false [] (listen_state_new, w)).2.2.
Proof.
  intros Ho. unfold listen_future, mbind, eff_bind, callback, report, modify, reconnects. rewrite Ho.
  unfold attempt, run_stream. cbn. unfold mbind, eff_bind, report, modify, reconnects, set_running.
  destruct (try_reconnect _ _ _ _ _) as [[r c'] w']. done.
Qed.

(** A stream that ends without a close frame goes unnoticed: nothing is reported, nothing
    is reconnected, and the connection is taken to be running. *)
Lemma stream_end_unnoticed fuel c (w : W) :
  ws_on_open client = None →
  listen_future client request_builds fuel c true [] (listen_state_new, w) = (Ok (), (listen_state_new, w)).
Proof. intros Ho. unfold listen_future, mbind, eff_bind, callback. by rewrite Ho. Qed.
End stale.

(** ** A concrete client *)

Module WebSocketMock.
(** The time, the contexts that were started and the messages that were sent *)
Record world := mkWorld { wd_time : Z; wd_started : list Context; wd_out : list WsMessage }.
#[export] Instance mock_clock : SystemClock world := λ w,
  (wd_time w, mkWorld (wd_time w + SECOND) (wd_started w) (wd_out w)).
#[export] Instance mock_clock_advances : AdvancingClock world.
Proof. intros w. cbn. unfold SECOND. lia. Qed.
#[export] Instance mock_igniter : IgniterChannel world := {|
  send_reactor m w := (Ok (), mkWorld (wd_time w)
    (wd_started w ++ match m with StartWs _ c => [c] | _ => [] end) (wd_out w));
  is_reactor_running _ := true;
  join_reactor := mret ();
|}.
#[export] Instance mock_sink : WsSink world := {|
  sink_send m w := (Ok (), mkWorld (wd_time w) (wd_started w) (wd_out w ++ [m]));
  sink_flush := mret ();
  sink_close := mret ();
|}.

(** A client that closes the connection on the first message *)
Definition closing : WebSocketClient bytes world :=
  set_reconnect_limit 1 (set_reconnect true (websocket_client_new "ws://a" (λ _ _ w, (WsClose, w)))).
Definition world0 : world := mkWorld 0 [] [].
Definition first_context : Context := mkContext 0 0 SECOND.
Definition second : Context * world :=
  let '(_, c, w) := reconnect_attempt closing (λ _, true) first_context (reconnect_wait 5 first_context world0).2 in (c, w).
End WebSocketMock.

Section websocket_witness.
Import WebSocketMock.

(** After one retry the limit is reached. *)
Lemma reconnect_backoff_witness :
  tried closing (λ _, true) 1 second.1 ∧ ctx_wait second.1 = (2 * SECOND)%Z ∧ may_reconnect closing second.1 = false ∧
  ∃ fuel r c' w', try_reconnect closing (λ _, true) fuel second.1 second.2 = (Some r, c', w').
Proof.
  assert (tried closing (λ _, true) 1 second.1) as Ha.
  { eapply (tried_next _ _ 0 first_context 5 world0); [apply tried_first|by vm_compute..]. }
  split; [exact Ha|].
  destruct (reconnect_backoff closing (λ _, true) 1 second.1 second.2 Ha) as (_ & Hw & _ & Hf & _).
  split; [exact Hw|]. split; [by vm_compute|exact Hf].
Defined.

(** The close frame of a callback that closes the connection is sent twice. *)
Lemma close_sent_twice :
  wd_out (listen_future closing (λ _, true) 5 first_context true [EvFrame (FrameText None)] (listen_state_new, world0)).2.2
    = [MsgClose CloseNormal; MsgClose CloseNormal].
Proof. by vm_compute. Qed.
End websocket_witness.
