(* ===== verification/ExampleService.v ===== *)
(** * The services of the examples

    Models what the services of [examples/private_counter] and [examples/private_xo]
    share, each program having its own copy: the envelopes of their messages, the
    handshake with a node, and the loop that receives from the network
    ([private_counter/service/src/main.rs], [private_xo/src/service/mod.rs]).  What a
    service does with a message of another service is a parameter of the loop. *)

From S2P Require Import Prelude BiMap Network Dispatch CircuitHandlers CircuitRouting Auth AuthProps.
From stdpp Require Import finite.

(** [ServiceError] is a text; those of other libraries are dropped. *)
Inductive ServiceError :=
  | ProtocolBufferError
  | UnableToSend
  | ServiceErrorText (msg : string).
#[global] Instance ServiceError_eq_dec : EqDecision ServiceError.
Proof. solve_decision. Defined.

Definition of_send {S A} (m : eff S SendError A) : eff S ServiceError A := emap_err (λ _, UnableToSend) m.

(** [Uuid::new_v4] *)
Class UuidSource (W : Type) := new_v4 : W → string * W.

(** ** Envelopes *)

Section envelopes.
Context `{!Codec NetworkMessage, !Codec CircuitMessage, !Codec AuthorizationMessage, !Codec ConnectRequest,
  !Codec TrustRequest, !Codec ServiceConnectRequest, !Codec ServiceDisconnectRequest,
  !Codec CircuitDirectMessage}.

Abbreviation created := (result ServiceError bytes).

Definition written {M} `{!Codec M} (m : M) : created := ok_or ProtocolBufferError (write_to_bytes m).

Definition wrap_in_network_msg {M} `{!Codec M} (msg_type : NetworkMessageType) (msg : M) : created :=
  payload ← written msg;
  written (mkNetworkMessage msg_type payload).

Definition wrap_in_auth_envelopes {M} `{!Codec M} (msg_type : AuthorizationMessageType) (auth_msg : M) : created :=
  payload ← written auth_msg;
  wrap_in_network_msg AUTHORIZATION (mkAuthorizationMessage msg_type payload).

Definition wrap_in_circuit_envelopes {M} `{!Codec M} (msg_type : CircuitMessageType) (msg : M) : created :=
  payload ← written msg;
  wrap_in_network_msg CIRCUIT (mkCircuitMessage msg_type payload).

Definition create_connect_request : created :=
  wrap_in_auth_envelopes CONNECT_REQUEST (mkConnectRequest UNIDIRECTIONAL).

Definition create_circuit_service_connect_request (circuit service_id : string) : created :=
  wrap_in_circuit_envelopes SERVICE_CONNECT_REQUEST (mkServiceConnectRequest circuit service_id "").

Definition create_circuit_service_disconnect_request (circuit service_id : string) : created :=
  wrap_in_circuit_envelopes SERVICE_DISCONNECT_REQUEST (mkServiceDisconnectRequest circuit service_id "").

Definition create_circuit_direct_msg (circuit sender recipient : string) (payload : bytes)
    (correlation_id : string) : created :=
  wrap_in_circuit_envelopes CIRCUIT_DIRECT_MESSAGE
    (mkCircuitDirectMessage circuit sender recipient payload correlation_id).
End envelopes.

(** ** Handling messages *)

Section handlers.
Context {W : Type} `{!Sender W SendRequest}.
Context `{!Codec NetworkMessage, !Codec CircuitMessage, !Codec AuthorizationMessage, !Codec ConnectResponse,
  !Codec TrustRequest, !Codec ServiceConnectResponse, !Codec CircuitDirectMessage}.

(** [protobuf::parse_from_bytes(..)?] *)
Definition parsed_as M `{!Codec M} (b : bytes) : eff W ServiceError M :=
  lift (ok_or ProtocolBufferError (parse_from_bytes b)).

(** The result says whether the node has authorized the service. *)
Definition handle_authorized_msg (auth_msg : AuthorizationMessage) (source_peer_id auth_identity : string) :
    eff W ServiceError bool :=
  match am_message_type auth_msg with
  | CONNECT_RESPONSE =>
      msg ← parsed_as ConnectResponse (am_payload auth_msg);
      (if existsb (λ t, bool_decide (t = TRUST)) (accepted_authorization_types msg) then
         b ← lift (wrap_in_auth_envelopes TRUST_REQUEST (mkTrustRequest auth_identity));
         of_send (send (mkSendRequest source_peer_id b))
       else mret ());;
      mret false
  | AUTHORIZE => mret true
  | _ => mret false
  end.

Definition handle_circuit_msg (handle_direct_msg : string → CircuitDirectMessage → eff W ServiceError ())
    (source_peer_id : string) (circuit_msg : CircuitMessage) : eff W ServiceError () :=
  match cm_message_type circuit_msg with
  | SERVICE_CONNECT_RESPONSE =>
      msg ← parsed_as ServiceConnectResponse (cm_payload circuit_msg);
      match scp_status msg with
      | CONNECT_OK | CONNECT_ERROR_QUEUE_FULL => mret ()
      | _ => throw (ServiceErrorText ("Unable to connect service " +:+ scp_service_id msg +:+ " to circuit "
               +:+ scp_circuit msg +:+ ": " +:+ scp_error_message msg))
      end
  | CIRCUIT_DIRECT_MESSAGE =>
      msg ← parsed_as CircuitDirectMessage (cm_payload circuit_msg);
      handle_direct_msg source_peer_id msg
  | _ => mret ()
  end.
End handlers.

(** ** The receiving thread *)

Section service_loop.
Context {M C W : Type} `{!Mesh M C, !Sender W SendRequest}.
Context `{!Codec NetworkMessage, !Codec CircuitMessage, !Codec AuthorizationMessage, !Codec ConnectRequest,
  !Codec ConnectResponse, !Codec TrustRequest, !Codec ServiceConnectRequest, !Codec ServiceConnectResponse,
  !Codec ServiceDisconnectRequest, !Codec CircuitDirectMessage}.
(** What the service does with a message of another service; the identity it gives to
    the node; its circuit and its id, which are part of its state. *)
Context (handle_direct_msg : string → CircuitDirectMessage → eff W ServiceError ()).
Context (auth_identity : string) (service_of : W → string * string).

Abbreviation loop_eff := (eff (Network M * W) ServiceError).

Definition net_send_or {A} (e : ServiceError) (m : eff (Network M) NetSendError A) : loop_eff A :=
  emap_err (λ _, e) (on_net m).

(** What [start_service_loop] sends before it returns: the connect request, to every
    peer *)
Fixpoint send_connect_requests (peer_ids : list string) (b : bytes) : loop_eff () :=
  match peer_ids with
  | [] => mret ()
  | peer_id :: peer_ids =>
      net_send_or (ServiceErrorText "Unable to send connect request") (Net.send peer_id b);;
      send_connect_requests peer_ids b
  end.
Definition start_service_loop : loop_eff () :=
  b ← lift (map_err (λ _, ServiceErrorText "Unable to create connect request") create_connect_request);
  s ← get;
  send_connect_requests (Peers.peer_ids (net_peers s.1)) b.

(** A message of the network.  Any error makes the loop break. *)
Definition service_loop_message (message : string * bytes) : loop_eff () :=
  let '(peer_id, payload) := message in
  msg ← on_channel (parsed_as NetworkMessage payload);
  match nm_message_type msg with
  | AUTHORIZATION =>
      auth_msg ← on_channel (parsed_as AuthorizationMessage (nm_payload msg));
      authorized ← on_channel (handle_authorized_msg auth_msg peer_id auth_identity);
      if (authorized : bool) then
        s ← get;
        let '(circuit, service_id) := service_of s.2 in
        b ← lift (create_circuit_service_connect_request circuit service_id);
        net_send_or UnableToSend (Net.send peer_id b)
      else mret ()
  | CIRCUIT =>
      circuit_msg ← on_channel (parsed_as CircuitMessage (nm_payload msg));
      on_channel (handle_circuit_msg handle_direct_msg peer_id circuit_msg)
  | _ => mret ()
  end.

(** [stop_service_loop]: a peer that cannot be reached is logged; it panics when the
    message cannot be written. *)
Fixpoint send_disconnects {E} (peer_ids : list string) (b : bytes) : eff (Network M * W) E () :=
  match peer_ids with
  | [] => mret ()
  | peer_id :: peer_ids => catch_log (on_net (Net.send peer_id b));; send_disconnects peer_ids b
  end.
Inductive ServiceLoopPanic := UnableToCreateDisconnect.
Definition stop_service_loop : eff (Network M * W) ServiceLoopPanic () :=
  s ← get;
  let '(circuit, service_id) := service_of s.2 in
  b ← lift (map_err (λ _, UnableToCreateDisconnect) (create_circuit_service_disconnect_request circuit service_id));
  send_disconnects (Peers.peer_ids (net_peers s.1)) b.

(** The iterations of the loop, after which [running] is no longer set *)
Fixpoint service_iterations {E} (iterations : nat) : eff (Network M * W) E () :=
  match iterations with
  | 0 => mret ()
  | S iterations =>
      r ← attempt (on_net Net.recv);
      match r with
      | Ok message =>
          r ← attempt (service_loop_message message);
          match r with
          | Ok _ => service_iterations iterations
          | Err _ => mret ()
          end
      | Err (MeshRecvFailed MeshRecvDisconnected) => mret ()
      | Err _ => service_iterations iterations
      end
  end.
Definition run_service_loop (iterations : nat) : eff (Network M * W) ServiceLoopPanic () :=
  service_iterations iterations;; stop_service_loop.
End service_loop.

(** ** The handshake with a node *)

Section handshake.
Context `{!Codec NetworkMessage, !Codec CircuitMessage, !Codec AuthorizationMessage, !Codec ConnectRequest,
  !Codec ConnectResponse, !Codec TrustRequest, !Codec AuthorizedMessage, !Codec AuthorizationError,
  !Codec NetworkEcho, !Codec NetworkHeartbeat, !Codec ServiceConnectRequest, !Codec ServiceConnectResponse,
  !Codec CircuitDirectMessage}.
Context `{!CodecLaws NetworkMessage, !CodecLaws CircuitMessage, !CodecLaws AuthorizationMessage,
  !CodecLaws ConnectRequest, !CodecLaws ConnectResponse, !CodecLaws TrustRequest, !CodecLaws AuthorizedMessage,
  !CodecLaws ServiceConnectRequest}.
Context `{!CodecTotal NetworkMessage, !CodecTotal CircuitMessage, !CodecTotal AuthorizationMessage,
  !CodecTotal ConnectRequest, !CodecTotal ConnectResponse, !CodecTotal TrustRequest,
  !CodecTotal AuthorizedMessage, !CodecTotal ServiceConnectRequest}.
Context {N : Type} `{!AuthNetwork N}.

(** The node: its authorizations and network, what it sends and what it has queued for
    the authorization dispatcher *)
Abbreviation channels := (list SendRequest * list (DispatchMessage AuthorizationMessageType))%type.
Abbreviation node := ((ManagedAuthorizations * N) * channels)%type.
#[local] Instance node_requests : Sender channels SendRequest := λ m w, (Ok (), (w.1 ++ [m], w.2)).
#[local] Instance node_dispatches : Sender channels (DispatchMessage AuthorizationMessageType) :=
  λ m w, (Ok (), (w.1, w.2 ++ [m])).

Context (node_id : string) (circuit_handler : Handler node NetworkMessageType CircuitMessage).

(** The node gets a message of a peer: the main loop hands it to the dispatcher of
    network messages, then the dispatcher of authorization messages runs. *)
Definition node_dispatch (peer_id : string) (b : bytes) : eff node DispatchError () :=
  msg ← lift (from_message_bytes b);
  dispatch (network_dispatcher node_id circuit_handler) peer_id (nm_message_type msg) (nm_payload msg).
Definition node_receives (peer_id : string) (b : bytes) (s : node) : node :=
  let s := (node_dispatch peer_id b s).2 in
  (drain_messages (create_authorization_dispatcher node_id) s.2.2 (s.1, (s.2.1, []))).2.

Lemma written_total {M} `{!Codec M, !CodecTotal M} (m : M) : ∃ b, write_to_bytes m = Some b ∧ written m = Ok b.
Proof. destruct (write_total m) as [b Hb]. exists b. split; [done|]. unfold written. by rewrite Hb. Qed.

(** An envelope is written, and is an envelope. *)
Lemma auth_envelope {M} `{!Codec M, !CodecTotal M} ty (m : M) :
  ∃ b b1 b2, wrap_in_auth_envelopes ty m = Ok b ∧ write_to_bytes m = Some b2 ∧
    write_to_bytes (mkAuthorizationMessage ty b2) = Some b1 ∧
    write_to_bytes (mkNetworkMessage AUTHORIZATION b1) = Some b.
Proof.
  destruct (written_total m) as (b2 & Hb2 & Hw2).
  destruct (written_total (mkAuthorizationMessage ty b2)) as (b1 & Hb1 & Hw1).
  destruct (written_total (mkNetworkMessage AUTHORIZATION b1)) as (b & Hb & Hw).
  exists b, b1, b2. split_and!; [|done..]. unfold wrap_in_auth_envelopes, wrap_in_network_msg.
  rewrite Hw2. cbn. rewrite Hw1. cbn. by rewrite Hw.
Qed.

(** The envelopes of the node are those of the service. *)
Lemma node_auth_envelope {M} `{!Codec M} ty (m : M) b :
  wrap_in_auth_envelopes ty m = Ok b → ∀ s : node, wrap_in_network_auth_envelopes ty m s = (Ok b, s).
Proof.
  unfold wrap_in_auth_envelopes, wrap_in_network_msg, written, wrap_in_network_auth_envelopes, auth_serialize.
  intros Hb s. unfold mbind, eff_bind, lift.
  destruct (write_to_bytes m) as [b2|]; [cbn in *|discriminate Hb].
  destruct (write_to_bytes (mkAuthorizationMessage ty b2)) as [b1|]; [cbn in *|discriminate Hb].
  destruct (write_to_bytes (mkNetworkMessage AUTHORIZATION b1)); [|discriminate Hb]. by simplify_eq/=.
Qed.

(** An authorization message reaches its handler. *)
Lemma node_receives_auth {M} `{!Codec M, !CodecLaws M, !CodecTotal M} ty (m : M) b peer_id a out :
  wrap_in_auth_envelopes ty m = Ok b →
  ∃ b2, write_to_bytes m = Some b2 ∧
    node_receives peer_id b (a, (out, [])) =
      (dispatch (create_authorization_dispatcher node_id) peer_id ty b2 (a, (out, []))).2.
Proof.
  intros Hb. destruct (auth_envelope ty m) as (b' & b1 & b2 & Hb' & Hw2 & Hw1 & Hw).
  rewrite Hb in Hb'. injection Hb' as <-. exists b2. split; [done|].
  unfold node_receives, node_dispatch, from_message_bytes. rewrite (parse_write _ _ Hw).
  unfold mbind, eff_bind, lift. cbn [ok_or nm_message_type nm_payload]. unfold network_dispatcher.
  rewrite dispatch_set_handler, decide_True by done. rewrite (parse_write _ _ Hw1).
  unfold authorization_message_handle, send, node_dispatches. cbn [fst snd app].
  by rewrite drain_messages_run.
Qed.

#[local] Arguments wrap_in_network_auth_envelopes : simpl never.

(** The handler that a dispatcher has for a type of message *)
Ltac find_handler :=
  repeat (rewrite dispatch_set_handler; first [rewrite decide_True by done|rewrite decide_False by done]).

Section quiet.
(** No peer disconnects meanwhile, and the connection is not one of the daemon's own. *)
Context (peer_id auth_identity : string) (n n' : N).
Hypothesis Hn : take_disconnects n = ([], n).
Hypothesis Hn' : take_disconnects n' = ([], n').
Hypothesis Hend : ∀ endpoint, peer_endpoint peer_id n = Some endpoint → contains "inproc" endpoint = false.
Hypothesis Hren : rename_peer peer_id auth_identity n = (Ok (), n').

(** The node answers a connect request with the way it authorizes peers, *)
Lemma node_connects b states notified out :
  create_connect_request = Ok b → states !! peer_id = None →
  ∃ b1, wrap_in_auth_envelopes CONNECT_RESPONSE (mkConnectResponse [TRUST]) = Ok b1 ∧
    node_receives peer_id b ((mkManagedAuthorizations states notified, n), (out, [])) =
      ((mkManagedAuthorizations (<[peer_id := Connecting]> states) notified, n),
       (out ++ [mkSendRequest peer_id b1], [])).
Proof.
  intros Hb Hs. destruct (node_receives_auth _ _ b peer_id (mkManagedAuthorizations states notified, n) out Hb)
    as (b2 & Hb2 & ->).
  destruct (auth_envelope CONNECT_RESPONSE (mkConnectResponse [TRUST])) as (b1 & _ & _ & Hb1 & _).
  exists b1. split; [done|]. unfold create_authorization_dispatcher.
  find_handler. rewrite (parse_write _ _ Hb2).
  unfold connect_request_handle, on_manager, next_state, drain_removals, set_state, modify, get.
  rewrite bool_decide_eq_false_2 by done. unfold mbind, eff_bind. cbn. rewrite Hn. cbn. rewrite Hs. cbn.
  destruct (peer_endpoint peer_id n) as [e|] eqn:He; cbn; [rewrite (Hend e eq_refl)|]; cbn;
    by rewrite (node_auth_envelope _ _ _ Hb1).
Qed.

(** and a trust request, with the authorization of the identity it gives. *)
Lemma node_trusts b states notified out :
  wrap_in_auth_envelopes TRUST_REQUEST (mkTrustRequest auth_identity) = Ok b →
  states !! peer_id = Some Connecting →
  ∃ b1, wrap_in_auth_envelopes AUTHORIZE mkAuthorizedMessage = Ok b1 ∧
    node_receives peer_id b ((mkManagedAuthorizations states notified, n), (out, [])) =
      ((mkManagedAuthorizations (<[auth_identity := Authorized]> (delete peer_id states))
          ((auth_identity, PeerAuthorized) :: notified), n'),
       (out ++ [mkSendRequest auth_identity b1], [])).
Proof.
  intros Hb Hs. destruct (node_receives_auth _ _ b peer_id (mkManagedAuthorizations states notified, n) out Hb)
    as (b2 & Hb2 & ->).
  destruct (auth_envelope AUTHORIZE mkAuthorizedMessage) as (b1 & _ & _ & Hb1 & _).
  exists b1. split; [done|]. unfold create_authorization_dispatcher.
  find_handler. rewrite (parse_write _ _ Hb2).
  unfold trust_request_handle, on_manager, next_state, drain_removals, remove_state, set_state,
    notify_callbacks, on_network, modify, get.
  unfold mbind, eff_bind. cbn. rewrite Hn. cbn. rewrite Hs. cbn. rewrite Hren. cbn.
  by rewrite (node_auth_envelope _ _ _ Hb1).
Qed.

(** From then on its circuit messages reach the handler of circuit messages. *)
Lemma node_takes_circuit {M} `{!Codec M, !CodecTotal M} ty (m : M) states notified out :
  states !! auth_identity = Some Authorized →
  ∃ b b1 b2, wrap_in_circuit_envelopes ty m = Ok b ∧ write_to_bytes m = Some b2 ∧
    let s := ((mkManagedAuthorizations states notified, n'), (out, [])) in
    node_dispatch auth_identity b s =
      circuit_handler (mkCircuitMessage ty b2) (mkMessageContext auth_identity CIRCUIT b1) s.
Proof.
  intros Hs. destruct (written_total m) as (b2 & Hb2 & Hw2).
  destruct (written_total (mkCircuitMessage ty b2)) as (b1 & Hb1 & Hw1).
  destruct (written_total (mkNetworkMessage CIRCUIT b1)) as (b & Hb & Hw).
  exists b, b1, b2. split; [|split; [done|]].
  - unfold wrap_in_circuit_envelopes, wrap_in_network_msg. rewrite Hw2. cbn. rewrite Hw1. cbn. by rewrite Hw.
  - unfold node_dispatch, from_message_bytes. rewrite (parse_write _ _ Hb).
    unfold mbind, eff_bind, lift. cbn [ok_or nm_message_type nm_payload]. unfold network_dispatcher.
    find_handler. rewrite (parse_write _ _ Hb1).
    unfold network_auth_guard, on_manager, is_authorized, drain_removals, modify, get.
    unfold mbind, eff_bind. cbn. rewrite Hn'. cbn. by rewrite Hs.
Qed.
End quiet.

(** The service *)
Section service.
Context {M C W : Type} `{!Mesh M C, !Sender W SendRequest}.
Context (handle_direct_msg : string → CircuitDirectMessage → eff W ServiceError ()).
Context (auth_identity : string) (service_of : W → string * string).

Abbreviation service_gets := (service_loop_message (M := M) handle_direct_msg auth_identity service_of).

(** It answers the connect response with its identity, *)
Lemma service_identifies node_peer b :
  wrap_in_auth_envelopes CONNECT_RESPONSE (mkConnectResponse [TRUST]) = Ok b →
  ∃ b1, wrap_in_auth_envelopes TRUST_REQUEST (mkTrustRequest auth_identity) = Ok b1 ∧
    ∀ s, service_gets (node_peer, b) s = on_channel (of_send (send (mkSendRequest node_peer b1))) s.
Proof.
  intros Hb. destruct (auth_envelope CONNECT_RESPONSE (mkConnectResponse [TRUST])) as (b' & b3 & b2 & Hb' & Hw2 & Hw1 & Hw).
  rewrite Hb in Hb'. injection Hb' as <-.
  destruct (auth_envelope TRUST_REQUEST (mkTrustRequest auth_identity)) as (b1 & _ & _ & Hb1 & _).
  exists b1. split; [done|]. intros [nw w].
  unfold service_loop_message, handle_authorized_msg, parsed_as, on_channel, mbind, eff_bind, lift.
  rewrite (parse_write _ _ Hw). cbn [ok_or nm_message_type nm_payload].
  rewrite (parse_write _ _ Hw1). cbn [ok_or am_message_type am_payload].
  rewrite (parse_write _ _ Hw2). cbn [ok_or accepted_authorization_types existsb].
  rewrite bool_decide_eq_true_2 by done. cbn [orb]. rewrite Hb1. unfold of_send, emap_err.
  by destruct (send (mkSendRequest node_peer b1) w) as [[[]|] w'].
Qed.

(** and the authorization with a request to connect to its circuit. *)
Lemma service_connects node_peer b nw w circuit service_id :
  wrap_in_auth_envelopes AUTHORIZE mkAuthorizedMessage = Ok b → service_of w = (circuit, service_id) →
  ∃ b1, create_circuit_service_connect_request circuit service_id = Ok b1 ∧
    service_gets (node_peer, b) (nw, w) = net_send_or UnableToSend (Net.send node_peer b1) (nw, w).
Proof.
  intros Hb Hof. destruct (auth_envelope AUTHORIZE mkAuthorizedMessage) as (b' & b3 & b2 & Hb' & Hw2 & Hw1 & Hw).
  rewrite Hb in Hb'. injection Hb' as <-.
  destruct (written_total (mkServiceConnectRequest circuit service_id "")) as (b4 & Hb4 & Hw4).
  destruct (written_total (mkCircuitMessage SERVICE_CONNECT_REQUEST b4)) as (b5 & Hb5 & Hw5).
  destruct (written_total (mkNetworkMessage CIRCUIT b5)) as (b1 & Hb1 & Hw6).
  assert (create_circuit_service_connect_request circuit service_id = Ok b1) as Hc.
  { unfold create_circuit_service_connect_request, wrap_in_circuit_envelopes, wrap_in_network_msg.
    rewrite Hw4. cbn. rewrite Hw5. cbn. by rewrite Hw6. }
  exists b1. split; [done|].
  unfold service_loop_message, handle_authorized_msg, parsed_as, on_channel, mbind, eff_bind, lift, get.
  rewrite (parse_write _ _ Hw). cbn [ok_or nm_message_type nm_payload].
  rewrite (parse_write _ _ Hw1). cbn [ok_or am_message_type am_payload mret eff_ret snd].
  rewrite Hof. by rewrite Hc.
Qed.

(** C17: The handshake of an example's service with a node succeeds: the node answers the
    connect request of the service; the service answers with its identity; the node
    renames the connection, authorizes the identity and says so to it; the service then
    sends the request to connect to its circuit, which passes the node's guard and
    reaches the handler of circuit messages from the identity that was authorized. *)
Theorem service_handshake peer_id node_peer states notified out n n' nw w circuit service_id :
  take_disconnects n = ([], n) → take_disconnects n' = ([], n') →
  (∀ endpoint, peer_endpoint peer_id n = Some endpoint → contains "inproc" endpoint = false) →
  rename_peer peer_id auth_identity n = (Ok (), n') →
  states !! peer_id = None → service_of w = (circuit, service_id) →
  ∃ b0 b1 b2 b3 b4 b5 bm,
    let s0 := ((mkManagedAuthorizations states notified, n), (out, [])) in
    let s1 := node_receives peer_id b0 s0 in
    let s2 := node_receives peer_id b2 s1 in
    create_connect_request = Ok b0 ∧
    s1.2.1 = out ++ [mkSendRequest peer_id b1] ∧
    service_gets (node_peer, b1) (nw, w) = on_channel (of_send (send (mkSendRequest node_peer b2))) (nw, w) ∧
    s2.2.1 = s1.2.1 ++ [mkSendRequest auth_identity b3] ∧
    ma_states s2.1.1 !! auth_identity = Some Authorized ∧
    service_gets (node_peer, b3) (nw, w) = net_send_or UnableToSend (Net.send node_peer b4) (nw, w) ∧
    write_to_bytes (mkServiceConnectRequest circuit service_id "") = Some b5 ∧
    node_dispatch auth_identity b4 s2 =
      circuit_handler (mkCircuitMessage SERVICE_CONNECT_REQUEST b5) (mkMessageContext auth_identity CIRCUIT bm) s2.
Proof.
  intros Hn Hn' Hend Hren Hs Hof.
  destruct (auth_envelope CONNECT_REQUEST (mkConnectRequest UNIDIRECTIONAL)) as (b0 & _ & _ & Hb0 & _).
  destruct (node_connects peer_id n Hn Hend b0 states notified out Hb0 Hs) as (b1 & Hb1 & Hs1).
  destruct (service_identifies node_peer b1 Hb1) as (b2 & Hb2 & Hg2).
  destruct (node_trusts peer_id auth_identity n n' Hn Hren b2 (<[peer_id:=Connecting]> states) notified
    (out ++ [mkSendRequest peer_id b1]) Hb2 (lookup_insert_eq _ _ _)) as (b3 & Hb3 & Hs2).
  destruct (service_connects node_peer b3 nw w circuit service_id Hb3 Hof) as (b4 & Hb4 & Hg4).
  destruct (node_takes_circuit auth_identity n' Hn' SERVICE_CONNECT_REQUEST (mkServiceConnectRequest circuit service_id "")
    (<[auth_identity := Authorized]> (delete peer_id (<[peer_id := Connecting]> states)))
    ((auth_identity, PeerAuthorized) :: notified)
    ((out ++ [mkSendRequest peer_id b1]) ++ [mkSendRequest auth_identity b3]) (lookup_insert_eq _ _ _))
    as (b4' & bm & b5 & Hb4' & Hb5 & Hd).
  assert (b4' = b4) as -> by (unfold create_circuit_service_connect_request in Hb4; congruence).
  exists b0, b1, b2, b3, b4, b5, bm. cbn zeta. rewrite Hs1, Hs2. cbn [fst snd ma_states].
  rewrite lookup_insert_eq. by split_and!.
Qed.
End service.
End handshake.

(** ** A concrete handshake *)

Module HandshakeMock.
Export HandlersMock NetworkMock CountableCodec.

#[export] Instance AuthorizationMessageType_finite : Finite AuthorizationMessageType.
Proof.
  refine {| enum := [UNSET_AUTHORIZATION_MESSAGE_TYPE; CONNECT_REQUEST; CONNECT_RESPONSE; AUTHORIZE;
    AUTHORIZATION_ERROR; TRUST_REQUEST] |}; solve_finite.
Defined.
#[export] Instance HandshakeMode_finite : Finite HandshakeMode.
Proof. refine {| enum := [UNSET_HANDSHAKE_MODE; UNIDIRECTIONAL; BIDIRECTIONAL] |}; solve_finite. Defined.
#[export] Instance ConnectAuthorizationType_finite : Finite ConnectAuthorizationType.
Proof. refine {| enum := [UNSET_AUTHORIZATION_TYPE; TRUST] |}; solve_finite. Defined.

#[export] Instance AuthorizationMessage_eq_dec : EqDecision AuthorizationMessage.
Proof. solve_decision. Defined.
#[export] Instance AuthorizationMessage_countable : Countable AuthorizationMessage.
Proof.
  refine (inj_countable' (λ m, (am_message_type m, am_payload m)) (λ '(t, p), mkAuthorizationMessage t p) _).
  by intros [].
Defined.
#[export] Instance ConnectRequest_eq_dec : EqDecision ConnectRequest.
Proof. solve_decision. Defined.
#[export] Instance ConnectRequest_countable : Countable ConnectRequest.
Proof. refine (inj_countable' handshake_mode mkConnectRequest _). by intros []. Defined.
#[export] Instance ConnectResponse_eq_dec : EqDecision ConnectResponse.
Proof. solve_decision. Defined.
#[export] Instance ConnectResponse_countable : Countable ConnectResponse.
Proof. refine (inj_countable' accepted_authorization_types mkConnectResponse _). by intros []. Defined.
#[export] Instance TrustRequest_eq_dec : EqDecision TrustRequest.
Proof. solve_decision. Defined.
#[export] Instance TrustRequest_countable : Countable TrustRequest.
Proof. refine (inj_countable' tr_identity mkTrustRequest _). by intros []. Defined.
#[export] Instance AuthorizedMessage_eq_dec : EqDecision AuthorizedMessage.
Proof. solve_decision. Defined.
#[export] Instance AuthorizedMessage_countable : Countable AuthorizedMessage.
Proof. refine (inj_countable' (λ _, ()) (λ _, mkAuthorizedMessage) _). by intros []. Defined.

(** Messages the handshake does not use *)
#[export] Instance AuthorizationError_codec : Codec AuthorizationError := {|
  parse_from_bytes _ := None; write_to_bytes _ := None |}.
#[export] Instance NetworkEcho_codec : Codec NetworkEcho := {|
  parse_from_bytes _ := None; write_to_bytes _ := None |}.
#[export] Instance NetworkHeartbeat_codec : Codec NetworkHeartbeat := {|
  parse_from_bytes _ := None; write_to_bytes _ := None |}.

(** The node has the connection [temp-1]. *)
Definition net0 : Network () := mkNetwork peers1 () [].
Definition net1 : Network () := (rename_peer "temp-1" "private-counter-1" net0).2.
End HandshakeMock.

Section handshake_witness.
Import HandshakeMock.

(** A handler that shows whom a message is from *)
Definition refuse {S} : Handler S NetworkMessageType CircuitMessage :=
  λ _ ctx, throw (HandleError (source_peer_id ctx)).

Lemma service_handshake_witness :
  ∃ b4 s2, ma_states s2.1.1 !! "private-counter-1" = Some Authorized ∧
    node_dispatch "n1" refuse "private-counter-1" b4 s2 = (Err (HandleError "private-counter-1"), s2).
Proof.
  destruct (service_handshake (AuthNetwork0 := network_auth (W := ()) (C := string)) "n1" refuse
    (M := ()) (W := list SendRequest) (λ _ _, mret ()) "private-counter-1" (λ _, ("alpha", "abc"))
    "temp-1" "node" ∅ [] [] net0 net1 (Net.new ()) [] "alpha" "abc" ltac:(reflexivity) ltac:(reflexivity)
    ltac:(by intros e [= <-]) ltac:(reflexivity) eq_refl eq_refl)
    as (b0 & b1 & b2 & b3 & b4 & b5 & bm & H). cbn zeta in H.
  destruct H as (H0 & H1 & H2 & H3 & H4 & H5 & H6 & H7).
  exists b4. eexists. split; [exact H4|exact H7].
Defined.
End handshake_witness.
