(* ===== verification/PrivateCounter.v ===== *)
(** * The private counter

    Models the example [examples/private_counter/service]: a counter that the services
    of a circuit increment together.  An increment that is asked for over HTTP is kept
    under the hash of the count it leads to, proposed to the other services, checked by
    each of them and applied when two-phase consensus accepts it ([src/main.rs],
    [src/consensus.rs], [src/error.rs], [protos/private_counter.proto]).  The counter is
    a [u32]; its arithmetic wraps around, as in a release build. *)

From stdpp Require Import pretty finite.
From S2P Require Import Prelude Hex Consensus Dispatch Network CircuitHandlers Auth ExampleService.
From Stdlib Require Import Lia ZArith.

(** ** Messages *)

Inductive PrivateCounterMessage_Type := COUNTER_UNSET | COUNTER_CONSENSUS_MESSAGE | PROPOSED_INCREMENT.

Record ProposedIncrement := mkProposedIncrement {
  pi_increment : Z;
  pi_expected_hash : bytes;
}.
(** A message that was not set is the default one. *)
Definition no_proposed_increment : ProposedIncrement := mkProposedIncrement 0 "".

Record PrivateCounterMessage := mkPrivateCounterMessage {
  pcm_message_type : PrivateCounterMessage_Type;
  pcm_consensus_message : bytes;
  pcm_proposed_increment : ProposedIncrement;
}.

(** ** The state *)

Record ServiceState := mkServiceState {
  sst_peer_id : string;
  sst_service_id : string;
  sst_circuit : string;
  sst_verifiers : list string;
  sst_counter : Z;
  sst_proposed_increments : gmap bytes Z;
}.

Definition service_state_new (peer_id service_id circuit : string) (verifiers : list string) : ServiceState :=
  mkServiceState peer_id service_id circuit verifiers 0 ∅.

Definition set_counter (counter : Z) (s : ServiceState) : ServiceState :=
  mkServiceState (sst_peer_id s) (sst_service_id s) (sst_circuit s) (sst_verifiers s) counter
    (sst_proposed_increments s).
Definition set_increments (f : gmap bytes Z → gmap bytes Z) (s : ServiceState) : ServiceState :=
  mkServiceState (sst_peer_id s) (sst_service_id s) (sst_circuit s) (sst_verifiers s) (sst_counter s)
    (f (sst_proposed_increments s)).

(** [StartupState] of the engine *)
Definition startup_state (s : ServiceState) : StartupState :=
  mkStartupState (sst_service_id s) (sst_verifiers s) None.

(** ** Hashes

    The encoding of protobuf and the hash of the sha2 crate *)
Class CounterCrypto := {
  write_raw_varint32 : Z → option bytes;
  sha256 : bytes → bytes;
}.

Section hashes.
Context `{!CounterCrypto}.

Definition write_u32 (value : Z) : result ServiceError bytes := ok_or ProtocolBufferError (write_raw_varint32 value).
Definition hash (b : bytes) : bytes := sha256 b.
(** [hash(&write_u32(value)?)] *)
Definition count_hash (value : Z) : result ServiceError bytes := b ← write_u32 value; mret (hash b).
End hashes.

(** [to_hex] of the logs, with the format [{:0x}] *)
Fixpoint log_hex (b : bytes) : string :=
  match b with
  | "" => ""
  | String c b =>
      let n := nat_of_ascii c in
      (if (n <? 16)%nat then String (hex_digit n) ""
       else String (hex_digit (n / 16)) (String (hex_digit (n mod 16)) "")) +:+ log_hex b
  end.

(** ** Endpoints *)

Definition valid_endpoint (s : string) : result string () :=
  if is_empty s then Err "Bind string must not be empty" else
  match tail (split_on ":" s) with
  | port_str :: _ =>
      match parse_unsigned (2 ^ 16) port_str with
      | Some port =>
          if (port >? 0)%Z then Ok ()
          else Err (s +:+ " does not specify a valid port: must be an int between 0 < port < 65535")
      | None => Err (s +:+ " does not specify a valid port: must be an int between 0 < port < 65535")
      end
  | [] => Err (s +:+ " must specify a port")
  end.

(** ** HTTP *)

Definition CRLF : string := String "013" (String "010" "").
Definition respond (status_code : Z) (status_msg : string) (content : option string) : string :=
  "HTTP/1.1 " +:+ pretty status_code +:+ " " +:+ status_msg +:+ CRLF +:+ CRLF +:+ default "" content.

(** What is before the first space, if there is one *)
Definition before_space (s : string) : option string :=
  match split_on " " s with
  | part :: _ :: _ => Some part
  | _ => None
  end.

(** A buffer of 512 zeros into which the request was read *)
Fixpoint zeros (n : nat) : string := match n with 0 => "" | S n => String "000" (zeros n) end.
Definition http_buffer (b : bytes) : bytes := b +:+ zeros (512 - String.length b).

Inductive CounterHandleError :=
  | CounterIoError
  | CounterServiceError (e : ServiceError).

(** A [TcpStream]; at most 512 bytes are read. *)
Class TcpStream (W : Type) := {
  stream_read : eff W () bytes;
  stream_write_all : bytes → eff W () ();
  stream_flush : eff W () ();
}.

Section connections.
Context {W : Type} `{!CounterCrypto, !TcpStream W}.

Abbreviation counter_eff := (eff (ServiceState * W)).

Definition with_stream {A} (m : eff W () A) : counter_eff CounterHandleError A := λ '(s, w),
  let '(r, w) := m w in (map_err (λ _, CounterIoError) r, (s, w)).

(** The response to a request *)
Definition handle_request (request : string) : eff ServiceState ServiceError string :=
  if starts_with "GET / " request then mret (respond 200 "OK" (Some "Private Counter Server"))
  else if starts_with "GET /add/" request then
    match before_space (slice_from (String.length "GET /add/") request) with
    | Some addition =>
        match parse_unsigned (2 ^ 32) addition with
        | Some increment =>
            s ← get;
            h ← lift (count_hash (wrap_u32 (sst_counter s + increment)));
            modify (set_increments (<[h := increment]>));;
            mret (respond 204 "NO CONTENT" None)
        | None => mret (respond 400 "BAD REQUEST" None)
        end
    | None => mret (respond 400 "BAD REQUEST" None)
    end
  else if starts_with "GET /show" request then
    s ← get; mret (respond 200 "OK" (Some (pretty (sst_counter s))))
  else mret (respond 404 "NOT FOUND" None).

Definition handle_connection : counter_eff CounterHandleError () :=
  b ← with_stream stream_read;
  response ← (λ '(s, w), let '(r, s) := handle_request (from_utf8_lossy (http_buffer b)) s in
                         (map_err CounterServiceError r, (s, w)));
  with_stream (stream_write_all response);;
  with_stream stream_flush.
End connections.

(** ** Messages of other services *)

Section service.
Context {W : Type} `{!CounterCrypto, !UuidSource W, !Sender W SendRequest, !Sender W ProposalUpdate,
  !Sender W ConsensusMessage}.
Context `{!Codec NetworkMessage, !Codec CircuitMessage, !Codec CircuitDirectMessage,
  !Codec ConsensusMessageProto, !Codec PrivateCounterMessage}.

Abbreviation counter_eff := (eff (ServiceState * W)).

Definition on_w {E E' A} (f : E → E') (m : eff W E A) : counter_eff E' A := λ '(s, w),
  let '(r, w) := m w in (map_err f r, (s, w)).
Definition on_state {E} (f : ServiceState → ServiceState) : counter_eff E () := modify (λ '(s, w), (f s, w)).

Definition handle_direct_msg (source_peer_id : string) (circuit_msg : CircuitDirectMessage) :
    counter_eff ServiceError () :=
  msg ← parsed_as PrivateCounterMessage (cdm_payload circuit_msg);
  match pcm_message_type msg with
  | COUNTER_CONSENSUS_MESSAGE =>
      m ← lift (ok_or ProtocolBufferError (consensus_message_try_from (pcm_consensus_message msg)));
      on_w (λ _, UnableToSend) (send m)
  | PROPOSED_INCREMENT =>
      let proposed_increment := pcm_proposed_increment msg in
      on_state (set_increments (<[pi_expected_hash proposed_increment := pi_increment proposed_increment]>));;
      let proposal := mkProposal (pi_expected_hash proposed_increment) "" 0 "" "" in
      on_w (λ _, UnableToSend) (send (ProposalReceived proposal (cdm_sender circuit_msg)))
  | COUNTER_UNSET => mret ()
  end.

(** ** [PrivateCounterProposalManager] *)

Definition update_send (u : ProposalUpdate) : counter_eff ProposalManagerError () :=
  on_w (λ _, UpdateSendFailed) (send u).

(** A message for a service of the circuit is queued for the node, to which the
    service has its only connection. *)
Definition send_direct {E} (e : E) (msg : PrivateCounterMessage) (recipient : string) : counter_eff E () :=
  s ← get;
  payload ← lift (ok_or e (write_to_bytes msg));
  uuid ← on_w id (λ w, let '(uuid, w) := new_v4 w in (Ok uuid, w));
  b ← lift (map_err (λ _, e)
        (create_circuit_direct_msg (sst_circuit s.1) (sst_service_id s.1) recipient payload uuid));
  on_w (λ _, e) (send (mkSendRequest (sst_peer_id s.1) b)).
Fixpoint send_direct_all {E} (e : E) (msg : PrivateCounterMessage) (verifiers : list string) : counter_eff E () :=
  match verifiers with
  | [] => mret ()
  | verifier :: verifiers => send_direct e msg verifier;; send_direct_all e msg verifiers
  end.

(** The increment that is proposed is the first one in the unspecified order of the
    hash map. *)
Definition counter_create_proposal (_previous : option ProposalId) (consensus_data : bytes) :
    counter_eff ProposalManagerError () :=
  s ← get;
  match map_to_list (sst_proposed_increments s.1) with
  | (expected_hash, increment) :: _ =>
      let proposal := mkProposal expected_hash "" 0 expected_hash consensus_data in
      let msg := mkPrivateCounterMessage PROPOSED_INCREMENT "" (mkProposedIncrement increment expected_hash) in
      send_direct_all PMInternal msg (sst_verifiers s.1);;
      update_send (ProposalCreated (Some proposal))
  | [] => update_send (ProposalCreated None)
  end.

Definition counter_check_proposal (id : ProposalId) : counter_eff ProposalManagerError () :=
  s ← get;
  match sst_proposed_increments s.1 !! id with
  | Some increment =>
      check_result ← lift (map_err (λ _, PMInternal) (count_hash (wrap_u32 (sst_counter s.1 + increment))));
      if bool_decide (check_result ≠ id) then update_send (ProposalInvalid id)
      else update_send (ProposalValid id)
  | None => update_send (ProposalInvalid id)
  end.

Definition counter_accept_proposal (id : ProposalId) (_consensus_data : option bytes) :
    counter_eff ProposalManagerError () :=
  s ← get;
  on_state (set_increments (delete id));;
  match sst_proposed_increments s.1 !! id with
  | Some increment =>
      on_state (set_counter (wrap_u32 (sst_counter s.1 + increment)));;
      update_send (ProposalAccepted id)
  | None => update_send (ProposalAcceptFailed id "unknown proposal")
  end.

Definition counter_reject_proposal (id : ProposalId) : counter_eff ProposalManagerError () :=
  on_state (set_increments (delete id)).

#[export] Instance counter_proposal_manager : ProposalManager (ServiceState * W) := {|
  create_proposal := counter_create_proposal;
  check_proposal := counter_check_proposal;
  accept_proposal := counter_accept_proposal;
  reject_proposal := counter_reject_proposal;
|}.

(** ** [PrivateCounterNetworkSender] *)

Definition consensus_envelope (message : bytes) : counter_eff ConsensusSendError PrivateCounterMessage :=
  s ← get;
  m ← lift (ok_or CSInternal (consensus_message_try_into (mkConsensusMessage message (sst_service_id s.1))));
  mret (mkPrivateCounterMessage COUNTER_CONSENSUS_MESSAGE m no_proposed_increment).

Definition counter_send_to (peer_id : PeerId) (message : bytes) : counter_eff ConsensusSendError () :=
  msg ← consensus_envelope message;
  recipient ← lift (ok_or CSInternal (from_utf8 peer_id));
  send_direct CSInternal msg recipient.

Definition counter_broadcast (message : bytes) : counter_eff ConsensusSendError () :=
  msg ← consensus_envelope message;
  s ← get;
  send_direct_all CSInternal msg (sst_verifiers s.1).

#[export] Instance counter_network_sender : ConsensusNetworkSender (ServiceState * W) := {|
  send_to := counter_send_to;
  broadcast := counter_broadcast;
|}.

(** ** The loop of the service, with the identity that [main] makes up *)
#[local] Instance counter_request_sender : Sender (ServiceState * W) SendRequest := λ m, on_w (λ e, e) (send m).
Definition counter_service_loop {M C} `{!Mesh M C, !Codec AuthorizationMessage, !Codec ConnectResponse,
    !Codec TrustRequest, !Codec ServiceConnectRequest, !Codec ServiceConnectResponse,
    !Codec ServiceDisconnectRequest} (uuid : string) (iterations : nat) :
    eff (Network M * (ServiceState * W)) ServiceLoopPanic () :=
  run_service_loop handle_direct_msg ("private-counter-" +:+ uuid)
    (λ s, (sst_circuit s.1, sst_service_id s.1)) iterations.
End service.

(** ** Agreement *)

(** Counts are encoded, and no two of them have the same hash. *)
Class CounterCryptoLaws `{!CounterCrypto} : Prop := {
  count_hash_total c : (0 ≤ c < 2 ^ 32)%Z → ∃ h, count_hash c = Ok h;
  count_hash_inj c d h :
    (0 ≤ c < 2 ^ 32)%Z → (0 ≤ d < 2 ^ 32)%Z → count_hash c = Ok h → count_hash d = Ok h → c = d;
}.

Section requests.
Context `{!CounterCrypto}.

Lemma wrap_u32_bounds z : (0 ≤ wrap_u32 z < 2 ^ 32)%Z.
Proof. by apply Z.mod_pos_bound. Qed.

(** What a request for an increment does, and no other request does anything. *)
Lemma handle_request_inv request s r s' :
  handle_request request s = (r, s') →
  s' = s ∨ ∃ increment h, count_hash (wrap_u32 (sst_counter s + increment)) = Ok h ∧
    s' = set_increments (<[h := increment]>) s.
Proof.
  unfold handle_request. destruct (starts_with "GET / " request); [intros [= _ <-]; by left|].
  destruct (starts_with "GET /add/" request).
  - destruct (before_space _) as [a|]; [|intros [= _ <-]; by left].
    destruct (parse_unsigned _ a) as [increment|]; [|intros [= _ <-]; by left].
    unfold mbind, eff_bind, get, lift, modify. destruct (count_hash _) as [h|] eqn:Hh; intros [= _ <-]; [|by left].
    right. by exists increment, h.
  - destruct (starts_with "GET /show" request); intros [= _ <-]; by left.
Qed.

(** An increment that is asked for again before it was applied is answered in the same
    way, and is not counted twice. *)
Lemma requests_idempotent request s r s' :
  handle_request request s = (Ok r, s') → handle_request request s' = (Ok r, s').
Proof.
  unfold handle_request. destruct (starts_with "GET / " request); [by intros [= <- <-]|].
  destruct (starts_with "GET /add/" request).
  - destruct (before_space _) as [a|]; [|by intros [= <- <-]].
    destruct (parse_unsigned _ a) as [increment|]; [|by intros [= <- <-]].
    unfold mbind, eff_bind, get, lift, modify. destruct (count_hash _) as [h|] eqn:Hh; intros [= <- <-].
    cbn. rewrite Hh. unfold set_increments. cbn. by rewrite insert_insert_eq.
  - by destruct (starts_with "GET /show" request); intros [= <- <-].
Qed.
End requests.

Create HintDb counter.

Section agreement.
Context {W : Type} {crypto : CounterCrypto} `{!CounterCryptoLaws, !UuidSource W, !Sender W SendRequest,
  !Sender W ProposalUpdate, !Sender W ConsensusMessage}.
Context `{!Codec NetworkMessage, !Codec CircuitMessage, !Codec CircuitDirectMessage,
  !Codec ConsensusMessageProto, !Codec PrivateCounterMessage}.
Implicit Types s : ServiceState * W.

(** The increment kept under [id] leads to the count with that hash. *)
Definition checked (id : ProposalId) (s : ServiceState) : Prop :=
  ∃ increment, sst_proposed_increments s !! id = Some increment ∧
    count_hash (wrap_u32 (sst_counter s + increment)) = Ok id.
#[export] Instance checked_dec id (s : ServiceState) : Decision (checked id s).
Proof.
  destruct (sst_proposed_increments s !! id) as [i|] eqn:Hi.
  - destruct (decide (count_hash (wrap_u32 (sst_counter s + i)) = Ok id)) as [Hh|Hh].
    + left. by exists i.
    + right. intros (j & Hj & Hc). rewrite Hi in Hj. by simplify_eq.
  - right. intros (j & Hj & _). by rewrite Hi in Hj.
Defined.

Lemma counter_check_spec id s :
  counter_check_proposal id s =
    update_send (if decide (checked id s.1) then ProposalValid id else ProposalInvalid id) s.
Proof.
  unfold counter_check_proposal, mbind, eff_bind, get.
  destruct (sst_proposed_increments s.1 !! id) as [i|] eqn:Hi.
  - destruct (count_hash_total _ (wrap_u32_bounds (sst_counter s.1 + i))) as [h Hh]. unfold lift. rewrite Hh. cbn [map_err].
    destruct (decide (h = id)) as [->|Hne].
    + rewrite bool_decide_eq_false_2, decide_True; [done|by exists i|tauto].
    + rewrite bool_decide_eq_true_2, decide_False; [done| |done].
      intros (j & Hj & Hc). rewrite Hi in Hj. injection Hj as <-. congruence.
  - rewrite decide_False; [done|]. intros (j & Hj & _). by rewrite Hi in Hj.
Qed.

(** What is sent leaves the state as it is. *)
Abbreviation keeps m := (preserves (S := ServiceState * W) fst m).

Lemma counter_on_w_keeps {E E' A} (f : E → E') (m : eff W E A) : keeps (on_w f m).
Proof. intros [s w]. cbn. by destruct (m w). Qed.
#[local] Hint Resolve preserves_bind preserves_ret preserves_get preserves_lift counter_on_w_keeps : counter.

Lemma send_direct_keeps {E} (e : E) msg recipient : keeps (send_direct e msg recipient).
Proof. unfold send_direct. eauto 12 with counter. Qed.
#[local] Hint Resolve send_direct_keeps : counter.
Lemma send_direct_all_keeps {E} (e : E) msg verifiers : keeps (send_direct_all e msg verifiers).
Proof. induction verifiers; cbn [send_direct_all]; eauto with counter. Qed.
#[local] Hint Resolve send_direct_all_keeps : counter.
Lemma update_send_keeps u : keeps (update_send u).
Proof. apply counter_on_w_keeps. Qed.
#[local] Hint Resolve update_send_keeps : counter.

Lemma create_keeps previous data : keeps (counter_create_proposal previous data).
Proof.
  unfold counter_create_proposal. apply preserves_bind; [apply preserves_get|]. intros s.
  destruct (map_to_list _) as [|[h i] l]; eauto with counter.
Qed.
Lemma check_keeps id : keeps (counter_check_proposal id).
Proof. intros s. rewrite counter_check_spec. apply update_send_keeps. Qed.
Lemma consensus_envelope_keeps m : keeps (consensus_envelope m).
Proof. unfold consensus_envelope. eauto 8 with counter. Qed.
#[local] Hint Resolve consensus_envelope_keeps : counter.
Lemma send_to_keeps peer m : keeps (counter_send_to peer m).
Proof. unfold counter_send_to. eauto 8 with counter. Qed.
Lemma broadcast_keeps m : keeps (counter_broadcast m).
Proof. unfold counter_broadcast. eauto 8 with counter. Qed.

(** *** Runs of a service *)

Inductive counter_op :=
  | OpRequest (request : string)
  | OpDirect (peer_id : string) (msg : CircuitDirectMessage)
  | OpCreate
  | OpCheck (id : ProposalId)
  | OpAccept (id : ProposalId)
  | OpReject (id : ProposalId)
  | OpSendTo (peer_id : PeerId) (message : bytes)
  | OpBroadcast (message : bytes).

Definition counter_step (s : ServiceState * W) (op : counter_op) : ServiceState * W :=
  match op with
  | OpRequest request => ((handle_request request s.1).2, s.2)
  | OpDirect peer_id msg => (handle_direct_msg peer_id msg s).2
  | OpCreate => (counter_create_proposal None "" s).2
  | OpCheck id => (counter_check_proposal id s).2
  | OpAccept id => (counter_accept_proposal id None s).2
  | OpReject id => (counter_reject_proposal id s).2
  | OpSendTo peer_id message => (counter_send_to peer_id message s).2
  | OpBroadcast message => (counter_broadcast message s).2
  end.
Definition counter_run (ops : list counter_op) (s : ServiceState * W) : ServiceState * W := foldl counter_step s ops.

(** Operations that may come between the check of [id], at the count [c], and its
    acceptance: nothing is accepted, [id] is not rejected, and no message replaces its
    increment by one that does not lead to the hash. *)
Definition undisturbed (id : ProposalId) (c : Z) (op : counter_op) : Prop :=
  match op with
  | OpAccept _ => False
  | OpReject id' => id' ≠ id
  | OpDirect _ msg =>
      ∀ m, parse_from_bytes (cdm_payload msg) = Some m → pcm_message_type m = PROPOSED_INCREMENT →
        pi_expected_hash (pcm_proposed_increment m) = id →
        count_hash (wrap_u32 (c + pi_increment (pcm_proposed_increment m))) = Ok id
  | _ => True
  end.

Definition stays (id : ProposalId) (c : Z) (s : ServiceState) : Prop := sst_counter s = c ∧ checked id s.

Lemma stays_insert id c h i (s : ServiceState) :
  (h = id → count_hash (wrap_u32 (c + i)) = Ok id) → stays id c s → stays id c (set_increments (<[h := i]>) s).
Proof.
  intros Hh [<- (j & Hj & Hc)]. split; [done|]. destruct (decide (h = id)) as [->|Hne].
  - exists i. split; [apply lookup_insert_eq|by apply Hh].
  - exists j. split; [|done]. cbn. by rewrite lookup_insert_ne.
Qed.

Lemma handle_direct_msg_stays id c peer msg s :
  undisturbed id c (OpDirect peer msg) → stays id c s.1 → stays id c (handle_direct_msg peer msg s).2.1.
Proof.
  intros Hu Hs. unfold handle_direct_msg, parsed_as. cbn in Hu. destruct (parse_from_bytes _) as [m|]; [|done].
  rewrite (eff_bind_ok _ _ s m s) by done.
  destruct (pcm_message_type m) eqn:Hm; [done| |].
  - rewrite preserves_bind; [done|apply preserves_lift|intros; apply counter_on_w_keeps].
  - unfold mbind, eff_bind, on_state, modify. destruct s as [s w]. rewrite counter_on_w_keeps.
    apply stays_insert; [|done]. by apply Hu.
Qed.

Lemma counter_step_stays id c op s :
  undisturbed id c op → stays id c s.1 → stays id c (counter_step s op).1.
Proof.
  intros Hu Hs. destruct op; cbn [counter_step].
  - cbn [fst]. destruct (handle_request request s.1) as [r s'] eqn:Hr.
    apply handle_request_inv in Hr as [->|(i & h & Hh & ->)]; [done|].
    destruct Hs as [<- Hs]. apply stays_insert; [by intros <-|by split].
  - by apply handle_direct_msg_stays.
  - by rewrite create_keeps.
  - by rewrite check_keeps.
  - done.
  - destruct s as [s w], Hs as [Hc (i & Hi & Hh)]. split; [done|]. exists i. split; [|done]. cbn.
    by rewrite lookup_delete_ne by (intros ->; by apply Hu).
  - by rewrite send_to_keeps.
  - by rewrite broadcast_keeps.
Qed.

Lemma counter_run_stays id c ops s :
  Forall (undisturbed id c) ops → stays id c s.1 → stays id c (counter_run ops s).1.
Proof.
  intros Hops. revert s. induction Hops as [|op ops Hop _ IH]; intros s Hs; [done|].
  by apply IH, counter_step_stays.
Qed.

Lemma accept_count id s :
  checked id s.1 → count_hash (sst_counter (counter_accept_proposal id None s).2.1) = Ok id ∧
    (0 ≤ sst_counter (counter_accept_proposal id None s).2.1 < 2 ^ 32)%Z.
Proof.
  intros (i & Hi & Hh). destruct s as [s w]. unfold counter_accept_proposal, mbind, eff_bind, get, on_state, modify.
  cbn [fst] in *. rewrite Hi. rewrite update_send_keeps. cbn. split; [done|apply wrap_u32_bounds].
Qed.

(** C20: Services that agreed agree on the count: when two services hold an increment that
    checks for the proposal [id], each whatever its own count and increment are, and
    accept [id] after any operations that do not disturb it, then their counters are
    equal, and are the count whose hash is [id]. *)
Theorem counters_agree id s1 s2 ops1 ops2 :
  checked id s1.1 → checked id s2.1 →
  Forall (undisturbed id (sst_counter s1.1)) ops1 → Forall (undisturbed id (sst_counter s2.1)) ops2 →
  let c1 := sst_counter (counter_step (counter_run ops1 s1) (OpAccept id)).1 in
  let c2 := sst_counter (counter_step (counter_run ops2 s2) (OpAccept id)).1 in
  c1 = c2 ∧ count_hash c1 = Ok id.
Proof.
  intros H1 H2 Ho1 Ho2.
  destruct (counter_run_stays id _ ops1 s1 Ho1 (conj eq_refl H1)) as [_ Hc1].
  destruct (counter_run_stays id _ ops2 s2 Ho2 (conj eq_refl H2)) as [_ Hc2].
  apply accept_count in Hc1 as [Hh1 Hr1], Hc2 as [Hh2 Hr2].
  split; [|exact Hh1]. exact (count_hash_inj _ _ id Hr1 Hr2 Hh1 Hh2).
Qed.

(** Increments that wait for one another are lost: when one that changes the count is
    accepted, another that was asked for at the old count no longer checks. *)
Theorem waiting_increments_fail id id' i s :
  sst_proposed_increments s.1 !! id = Some i → wrap_u32 i ≠ 0%Z →
  checked id' s.1 → ¬ checked id' (counter_step s (OpAccept id)).1.
Proof.
  intros Hi Hw (j & Hj & Hh) (k & Hk & Hh'). destruct s as [s w]. cbn [counter_step fst] in *.
  unfold counter_accept_proposal, mbind, eff_bind, get, on_state, modify in Hk, Hh'. cbn [fst] in Hk, Hh'.
  rewrite Hi in Hk, Hh'. rewrite update_send_keeps in Hk, Hh'. cbn in Hk, Hh'.
  apply lookup_delete_Some in Hk as [_ Hk]. rewrite Hj in Hk. injection Hk as <-.
  pose proof (count_hash_inj _ _ id' (wrap_u32_bounds _) (wrap_u32_bounds _) Hh' Hh) as Heq.
  unfold wrap_u32 in *. apply Hw. rewrite Zplus_mod_idemp_l in Heq.
  replace i with ((sst_counter s + i + j) - (sst_counter s + j))%Z by lia.
  rewrite Zminus_mod, Heq, Z.sub_diag. done.
Qed.
End agreement.

(** ** A concrete run *)

Module CounterMock.
Export HandshakeMock.

#[export] Instance crypto : CounterCrypto := {|
  write_raw_varint32 v := Some (pretty v);
  sha256 b := b;
|}.
#[export] Instance crypto_laws : CounterCryptoLaws.
Proof.
  split.
  - intros c _. by eexists.
  - intros c d h Hc Hd [= <-] [= H]. by apply (inj pretty) in H.
Qed.

#[export] Instance Type_eq_dec : EqDecision PrivateCounterMessage_Type.
Proof. solve_decision. Defined.
#[export] Instance Type_finite : Finite PrivateCounterMessage_Type.
Proof.
  refine {| enum := [COUNTER_UNSET; COUNTER_CONSENSUS_MESSAGE; PROPOSED_INCREMENT] |}; solve_finite.
Defined.
#[export] Instance ProposedIncrement_eq_dec : EqDecision ProposedIncrement.
Proof. solve_decision. Defined.
#[export] Instance ProposedIncrement_countable : Countable ProposedIncrement.
Proof.
  refine (inj_countable' (λ m, (pi_increment m, pi_expected_hash m)) (λ '(a, b), mkProposedIncrement a b) _).
  by intros [].
Defined.
#[export] Instance PrivateCounterMessage_eq_dec : EqDecision PrivateCounterMessage.
Proof. solve_decision. Defined.
#[export] Instance PrivateCounterMessage_countable : Countable PrivateCounterMessage.
Proof.
  refine (inj_countable' (λ m, (pcm_message_type m, pcm_consensus_message m, pcm_proposed_increment m))
    (λ '(a, b, c), mkPrivateCounterMessage a b c) _). by intros [].
Defined.
#[export] Instance ConsensusMessageProto_eq_dec : EqDecision ConsensusMessageProto.
Proof. solve_decision. Defined.
#[export] Instance ConsensusMessageProto_countable : Countable ConsensusMessageProto.
Proof.
  refine (inj_countable' (λ m, (cmp_message m, cmp_origin_id m)) (λ '(a, b), mkConsensusMessageProto a b) _).
  by intros [].
Defined.

(** The channels keep what is sent. *)
Record Channels := mkChannels { requests : list SendRequest; updates : list ProposalUpdate }.
#[export] Instance uuids : UuidSource Channels := λ w, ("uuid", w).
#[export] Instance request_sender : Sender Channels SendRequest :=
  λ m w, (Ok (), mkChannels (requests w ++ [m]) (updates w)).
#[export] Instance update_sender : Sender Channels ProposalUpdate :=
  λ u w, (Ok (), mkChannels (requests w) (updates w ++ [u])).
#[export] Instance message_sender : Sender Channels ConsensusMessage := λ _ w, (Ok (), w).

Definition started (service_id other : string) : ServiceState * Channels :=
  (service_state_new "node" service_id "alpha" [other], mkChannels [] []).
(** The proposal of [a], as it reaches [b] *)
Definition proposed : CircuitDirectMessage :=
  mkCircuitDirectMessage "alpha" "a" "b"
    (default "" (write_to_bytes (mkPrivateCounterMessage PROPOSED_INCREMENT "" (mkProposedIncrement 5 "5")))) "uuid".
Definition a1 : ServiceState * Channels := counter_step (started "a" "b") (OpRequest "GET /add/5 HTTP/1.1").
Definition b1 : ServiceState * Channels := counter_step (started "b" "a") (OpDirect "node" proposed).
End CounterMock.

Section counter_witness.
Import CounterMock.

(** Service [a] proposes an increment; [b] is asked for the same one meanwhile. *)
Lemma counters_agree_witness :
  sst_counter (counter_step (counter_run [OpCreate; OpCheck "5"] a1) (OpAccept "5")).1 = 5%Z ∧
  sst_counter (counter_step (counter_run [OpRequest "GET /add/5 HTTP/1.1"] b1) (OpAccept "5")).1 = 5%Z.
Proof.
  destruct (counters_agree "5" a1 b1 [OpCreate; OpCheck "5"] [OpRequest "GET /add/5 HTTP/1.1"]) as [H Hh].
  - exists 5%Z. by vm_compute.
  - exists 5%Z. by vm_compute.
  - by repeat constructor.
  - by repeat constructor.
  - cbn zeta in H, Hh. rewrite <- H. cut (∀ c, count_hash c = Ok "5" → c = 5%Z).
    + intros Hc. by split; apply Hc.
    + intros c [= Hc]. by apply (inj pretty c 5%Z).
Defined.

(** The leading zeros of bytes are lost in the logs. *)
Lemma log_hex_ambiguous :
  log_hex (String "001" (String "017" "")) = log_hex (String "017" (String "001" "")).
Proof. by vm_compute. Qed.

(** The port 65535 is accepted, contrary to what the message of a refusal says. *)
Lemma valid_endpoint_65535 : valid_endpoint "localhost:65535" = Ok () ∧ is_ok (valid_endpoint "localhost:65536") = false.
Proof. by vm_compute. Qed.
End counter_witness.
