(* ===== verification/PrivateXo.v ===== *)
(** * The private XO game

    Models the example [examples/private_xo]: services that run batches of XO
    transactions with [transact] and agree on the state that results
    ([src/transaction/mod.rs], [src/service], [src/routes], [split_endpoint] of
    [src/main.rs], [protos/private_xo.proto]).  The loop of the service and its envelopes
    are those of [ExampleService]; transact is the class [Transact], and the type of its
    protobuf batches a parameter. *)

From stdpp Require Import pretty.
From S2P Require Import Prelude Consensus Network Dispatch CircuitHandlers Auth ExampleService.
From S2P Require Import CircuitRouting ScabbardState ScabbardExample.
From Stdlib Require Import Lia ZArith.

(** ** [XoState] *)

Record XoShared := mkXoShared {
  xo_current_state_root : option string;
  xo_pending_changes : option (list StateChange);
}.

Inductive XoStateError := XoError (msg : string) | XoPanic.

(** What is read of the merkle tree at a state root: a value, and the leaves under an
    address; the latter may not be there. *)
Inductive LeavesError := LeavesNotFound | LeavesFailed.
Class MerkleRead (D : Type) := {
  merkle_get : string → string → D → result () (option bytes);
  merkle_leaves : string → option string → D → result () (result LeavesError (list (result () (string * bytes))));
}.

Definition xo_shared_new : XoShared := mkXoShared None None.

(** A batch of the protobuf, which has an id and becomes a pair when its header can be
    read *)
Class XoBatch (B : Type) := {
  xb_header_signature : B → string;
  xb_into_pair : B → option BatchPair;
}.

Section state.
Context {D B : Type} `{!Transact D, !MerkleRead D, !XoBatch B}.

Abbreviation xo_eff := (eff (XoShared * D) XoStateError).

Definition on_db {A} (msg : string) (m : eff D () A) : xo_eff A := λ '(s, d),
  let '(r, d) := m d in (map_err (λ _, XoError msg) r, (s, d)).
Definition set_pending (p : option (list StateChange)) : xo_eff () :=
  modify (λ '(s, d), (mkXoShared (xo_current_state_root s) p, d)).
Definition set_root (root : string) : xo_eff () :=
  modify (λ '(s, d), (mkXoShared (Some root) (xo_pending_changes s), d)).

(** [unlocked_current_state_root]: the root is that of an empty tree at first; it
    panics when there can be none. *)
Definition unlocked_current_state_root : xo_eff string :=
  s ← get;
  match xo_current_state_root s.1 with
  | Some root => mret root
  | None =>
      root ← emap_err (λ _, XoPanic) (on_db "" initial_state_root);
      set_root root;;
      mret root
  end.

Fixpoint valid_receipts (l : list TransactionExecutionResult) : result XoStateError (list TransactionReceipt) :=
  match l with
  | [] => Ok []
  | ResultValid receipt :: l => rs ← valid_receipts l; mret (receipt :: rs)
  | ResultInvalid _ :: _ => Err (XoError "Transaction failed: ")
  end.

Definition propose_change (batch : B) : xo_eff string :=
  state_root ← unlocked_current_state_root;
  batch_pair ← lift (ok_or (XoError "Unable to create batch pair: ") (xb_into_pair batch));
  results ← on_db "No result returned from executor" (execute_batch state_root batch_pair);
  txn_results ← lift (valid_receipts results);
  let state_changes := txn_results ≫= receipt_state_changes in
  set_pending (Some state_changes);;
  s ← get;
  lift (ok_or (XoError "unable to compute next state root: ") (compute_state_id state_root state_changes s.2)).

Definition xo_get_state (state_root address : string) (d : D) : result XoStateError (option bytes) :=
  map_err (λ _, XoError "") (merkle_get state_root address d).

Definition xo_list_state (state_root : string) (prefix : option string) (d : D) :
    result XoStateError (list (result XoStateError (string * bytes))) :=
  leaves ← map_err (λ _, XoError "") (merkle_leaves state_root prefix d);
  match leaves with
  | Ok iter => mret (map_err (λ _, XoError "") <$> iter)
  | Err LeavesNotFound => mret []
  | Err LeavesFailed => Err (XoError "")
  end.

Definition xo_commit : xo_eff () :=
  state_root ← unlocked_current_state_root;
  s ← get;
  set_pending None;;
  match xo_pending_changes s.1 with
  | Some state_changes =>
      root ← on_db "Unable to commit changes: " (merkle_commit state_root state_changes);
      set_root root
  | None => throw (XoError "No pending changes to commit")
  end.

Definition xo_rollback : xo_eff () := set_pending None.
End state.

(** ** The service *)

Record ServiceConfig := mkServiceConfig {
  cfg_peer_id : string;
  cfg_circuit : string;
  cfg_service_id : string;
  cfg_verifiers : list string;
}.

Inductive PrivateXoMessage_Type := XO_UNSET | XO_CONSENSUS_MESSAGE | XO_PROPOSED_BATCH.
Record XoProposedBatch := mkXoProposedBatch {
  xpb_batch : bytes;
  xpb_expected_hash : bytes;
}.
Definition no_xo_batch : XoProposedBatch := mkXoProposedBatch "" "".
Record PrivateXoMessage := mkPrivateXoMessage {
  pxm_message_type : PrivateXoMessage_Type;
  pxm_consensus_message : bytes;
  pxm_proposed_batch : XoProposedBatch;
}.

(** What the threads share *)
Record Xo (B : Type) := mkXo {
  xo_config : ServiceConfig;
  xo_state : XoShared;
  xo_pending_batches : list B;
  xo_pending_proposal : option (Proposal * B);
}.
Arguments mkXo {B} xo_config xo_state xo_pending_batches xo_pending_proposal.
Arguments xo_config {B} x.
Arguments xo_state {B} x.
Arguments xo_pending_batches {B} x.
Arguments xo_pending_proposal {B} x.

Definition xo_startup_state (c : ServiceConfig) : StartupState :=
  mkStartupState (cfg_service_id c) (cfg_verifiers c) None.

Section service.
Context {W B : Type} `{!Transact W, !MerkleRead W, !XoBatch B, !UuidSource W, !Sender W SendRequest,
  !Sender W ProposalUpdate, !Sender W ConsensusMessage}.
Context `{!Codec NetworkMessage, !Codec CircuitMessage, !Codec CircuitDirectMessage,
  !Codec ConsensusMessageProto, !Codec PrivateXoMessage, !Codec B}.

Abbreviation service_eff := (eff (Xo B * W)).

Definition on_w {E E' A} (f : E → E') (m : eff W E A) : service_eff E' A := λ '(s, w),
  let '(r, w) := m w in (map_err f r, (s, w)).
Definition in_state {E A} (f : XoStateError → E) (m : eff (XoShared * W) XoStateError A) : service_eff E A :=
  λ '(s, w), let '(r, (st, w)) := m (xo_state s, w) in
             (map_err f r, (mkXo (xo_config s) st (xo_pending_batches s) (xo_pending_proposal s), w)).
Definition set_batches {E} (l : list B) : service_eff E () :=
  modify (λ '(s, w), (mkXo (xo_config s) (xo_state s) l (xo_pending_proposal s), w)).
Definition set_proposal {E} (p : option (Proposal * B)) : service_eff E () :=
  modify (λ '(s, w), (mkXo (xo_config s) (xo_state s) (xo_pending_batches s) p, w)).

Definition xo_handle_direct_msg (source_peer_id : string) (circuit_msg : CircuitDirectMessage) :
    service_eff ServiceError () :=
  msg ← parsed_as PrivateXoMessage (cdm_payload circuit_msg);
  match pxm_message_type msg with
  | XO_CONSENSUS_MESSAGE =>
      m ← lift (ok_or ProtocolBufferError (consensus_message_try_from (pxm_consensus_message msg)));
      on_w (λ _, UnableToSend) (send m)
  | XO_PROPOSED_BATCH =>
      let proposed_batch := pxm_proposed_batch msg in
      batch ← parsed_as B (xpb_batch proposed_batch);
      let proposal := mkProposal (xpb_expected_hash proposed_batch) "" 0 "" "" in
      set_proposal (Some (proposal, batch));;
      on_w (λ _, UnableToSend) (send (ProposalReceived proposal (cdm_sender circuit_msg)))
  | XO_UNSET => mret ()
  end.

(** ** [PrivateXoProposalManager] *)

Definition xo_update_send (u : ProposalUpdate) : service_eff ProposalManagerError () :=
  on_w (λ _, UpdateSendFailed) (send u).
Definition xo_pm_error (e : XoStateError) : ProposalManagerError :=
  match e with XoPanic => PMPanic | XoError _ => PMInternal end.

Definition xo_send_direct {E} (e : E) (msg : PrivateXoMessage) (recipient : string) : service_eff E () :=
  s ← get;
  let config := xo_config s.1 in
  uuid ← on_w id (λ w, let '(uuid, w) := new_v4 w in (Ok uuid, w));
  payload ← lift (ok_or e (write_to_bytes msg));
  b ← lift (map_err (λ _, e)
        (create_circuit_direct_msg (cfg_circuit config) (cfg_service_id config) recipient payload uuid));
  on_w (λ _, e) (send (mkSendRequest (cfg_peer_id config) b)).
Fixpoint xo_send_direct_all {E} (e : E) (msg : PrivateXoMessage) (verifiers : list string) : service_eff E () :=
  match verifiers with
  | [] => mret ()
  | verifier :: verifiers => xo_send_direct e msg verifier;; xo_send_direct_all e msg verifiers
  end.

Definition xo_create_proposal (_previous : option ProposalId) (_consensus_data : bytes) :
    service_eff ProposalManagerError () :=
  s ← get;
  match xo_pending_batches s.1 with
  | batch :: batches =>
      set_batches batches;;
      expected_hash ← in_state xo_pm_error (propose_change batch);
      let proposal := mkProposal expected_hash "" 0 "" "" in
      set_proposal (Some (proposal, batch));;
      batch_bytes ← lift (ok_or PMInternal (write_to_bytes batch));
      let msg := mkPrivateXoMessage XO_PROPOSED_BATCH "" (mkXoProposedBatch batch_bytes expected_hash) in
      xo_send_direct_all PMInternal msg (cfg_verifiers (xo_config s.1));;
      xo_update_send (ProposalCreated (Some proposal))
  | [] => xo_update_send (ProposalCreated None)
  end.

(** The pending proposal, if it is the one with that id *)
Definition pending_with (id : ProposalId) (s : Xo B) : option (Proposal * B) :=
  p ← xo_pending_proposal s; if decide (proposal_id p.1 = id) then Some p else None.

Definition xo_check_proposal (id : ProposalId) : service_eff ProposalManagerError () :=
  s ← get;
  match pending_with id s.1 with
  | Some (_, batch) =>
      hash ← in_state xo_pm_error (propose_change batch);
      if bool_decide (hash ≠ id) then xo_update_send (ProposalInvalid id)
      else xo_update_send (ProposalValid id)
  | None => xo_update_send (ProposalInvalid id)
  end.

Definition xo_error_text (e : XoStateError) : string :=
  match e with XoError msg => "State Error: " +:+ msg | XoPanic => "" end.
Definition xo_accept_proposal (id : ProposalId) (_consensus_data : option bytes) :
    service_eff ProposalManagerError () :=
  s ← get;
  match pending_with id s.1 with
  | Some _ =>
      r ← attempt (in_state (λ e, e) xo_commit);
      match r with
      | Ok _ => set_proposal None
      | Err XoPanic => throw PMPanic
      | Err e => xo_update_send (ProposalAcceptFailed id ("failed to commit proposal: " +:+ xo_error_text e))
      end
  | None => xo_update_send (ProposalAcceptFailed id "not pending proposal")
  end.

Definition xo_reject_proposal (id : ProposalId) : service_eff ProposalManagerError () :=
  s ← get;
  match pending_with id s.1 with
  | Some _ =>
      r ← attempt (in_state (λ e, e) xo_rollback);
      match r with
      | Ok _ => set_proposal None
      | Err _ => mret ()
      end
  | None => mret ()
  end.

#[export] Instance xo_proposal_manager : ProposalManager (Xo B * W) := {|
  create_proposal := xo_create_proposal;
  check_proposal := xo_check_proposal;
  accept_proposal := xo_accept_proposal;
  reject_proposal := xo_reject_proposal;
|}.

(** ** [PrivateXoNetworkSender] *)

Definition xo_consensus_envelope (message : bytes) : service_eff ConsensusSendError PrivateXoMessage :=
  s ← get;
  m ← lift (ok_or CSInternal
        (consensus_message_try_into (mkConsensusMessage message (cfg_service_id (xo_config s.1)))));
  mret (mkPrivateXoMessage XO_CONSENSUS_MESSAGE m no_xo_batch).

Definition xo_send_to (peer_id : PeerId) (message : bytes) : service_eff ConsensusSendError () :=
  msg ← xo_consensus_envelope message;
  recipient ← lift (ok_or CSInternal (from_utf8 peer_id));
  xo_send_direct CSInternal msg recipient.

Definition xo_broadcast (message : bytes) : service_eff ConsensusSendError () :=
  msg ← xo_consensus_envelope message;
  s ← get;
  xo_send_direct_all CSInternal msg (cfg_verifiers (xo_config s.1)).

#[export] Instance xo_network_sender : ConsensusNetworkSender (Xo B * W) := {|
  send_to := xo_send_to;
  broadcast := xo_broadcast;
|}.

(** ** The loop of the service

    It identifies itself to the node with its id; after it, the process exits. *)
#[local] Instance xo_request_sender : Sender (Xo B * W) SendRequest := λ m, on_w (λ e, e) (send m).
Definition xo_service_loop {M C} `{!Mesh M C, !Codec AuthorizationMessage, !Codec ConnectResponse, !Codec TrustRequest,
    !Codec ServiceConnectRequest, !Codec ServiceConnectResponse, !Codec ServiceDisconnectRequest}
    (config : ServiceConfig) (iterations : nat) : eff (Network M * (Xo B * W)) ServiceLoopPanic () :=
  run_service_loop xo_handle_direct_msg (cfg_service_id config) (λ _, (cfg_circuit config, cfg_service_id config))
    iterations.
End service.

(** ** Routes *)

(** A response of iron: the status, and the content or the text of an error *)
Record IronResponse (A : Type) := mkIronResponse {
  ir_status : Z;
  ir_body : A + string;
}.
Arguments mkIronResponse {A} ir_status ir_body.
Arguments ir_status {A} i.
Arguments ir_body {A} i.

Definition iron_ok {A} (status : Z) (a : A) : IronResponse A := mkIronResponse status (inl a).
Definition bad_request {A} (msg : string) : IronResponse A := mkIronResponse 400 (inr msg).
Definition not_found {A} (msg : string) : IronResponse A := mkIronResponse 404 (inr ("Not Found: " +:+ msg)).
Definition internal_error {A} (e : XoStateError) : IronResponse A :=
  mkIronResponse 500 (inr ("Internal Server Error: " +:+ xo_error_text e)).

Definition quoted (s : string) : string := String "034" s +:+ String "034" "".

Record DataEnvelope (A : Type) := mkDataEnvelope {
  env_data : A;
  env_head : string;
  env_link : string;
}.
Arguments mkDataEnvelope {A} env_data env_head env_link.
Arguments env_data {A} d.
Arguments env_head {A} d.
Arguments env_link {A} d.

(** The query of a request, when it can be decoded *)
Abbreviation Query := (option (gmap string (list string))).

Section query.
Context {T : Type} (parse : string → option T).

Definition query_params (query : Query) (key : string) : result () (option (list T)) :=
  match query with
  | Some params =>
      match params !! key with
      | Some values => v ← ok_or () (mapM parse values); mret (Some v)
      | None => mret None
      end
  | None => mret None
  end.
Definition query_param (query : Query) (key : string) : result () (option T) :=
  params ← query_params query key;
  mret (params ≫= last).
End query.

Record ListStateRequest := mkListStateRequest {
  lsr_address : option string;
  lsr_head : option string;
  lsr_start : option Z;
  lsr_limit : option Z;
}.

(** The parameters of a list; those that are strings always parse. *)
Definition get_list_params (query : Query) : result string ListStateRequest :=
  address ← map_err (λ _, "") (query_param Some query "address");
  head ← map_err (λ _, "") (query_param Some query "head");
  start ← map_err (λ _, "Invalid input: start must be an integer: ") (query_param parse_usize query "start");
  limit ← map_err (λ _, "Invalid input: limit must be an integer: ") (query_param parse_usize query "limit");
  mret (mkListStateRequest address head start limit).

Definition insert_some {A} (f : A → string) (key : string) (o : option A) (m : gmap string string) : gmap string string :=
  match o with Some a => <[key := f a]> m | None => m end.
Definition into_map (r : ListStateRequest) : gmap string string :=
  insert_some pretty "limit" (lsr_limit r)
    (insert_some pretty "start" (lsr_start r)
      (insert_some (λ s, s) "head" (lsr_head r)
        (insert_some (λ s, s) "address" (lsr_address r) ∅))).

(** [collect::<Result<Vec<_>, _>>] *)
Fixpoint collect {E A} (l : list (result E A)) : result E (list A) :=
  match l with
  | [] => Ok []
  | r :: l => a ← r; l ← collect l; mret (a :: l)
  end.

Section routes.
Context {W B : Type} `{!Transact W, !MerkleRead W, !XoBatch B, !Codec (list B)}.
(** [url_for] of the router, and the decoding of base64 *)
Context (url_for : string → gmap string string → string) (base64_encode : bytes → string).

Definition join_comma (l : list string) : string :=
  match l with
  | [] => ""
  | x :: l => foldl (λ acc y, acc +:+ "," +:+ y) x l
  end.

(** [POST /batches]: the first batch of the list is queued. *)
Definition batches_route (body : bytes) (s : Xo B) : IronResponse string * Xo B :=
  match parse_from_bytes body with
  | Some batch_list =>
      let batch_ids := join_comma (xb_header_signature <$> (batch_list : list B)) in
      match batch_list with
      | batch :: _ =>
          (iron_ok 202 (url_for "batch_statuses" {[ "id" := batch_ids ]}),
           mkXo (xo_config s) (xo_state s) (xo_pending_batches s ++ [batch]) (xo_pending_proposal s))
      | [] => (bad_request "Invalid BatchList Format: No batches provided", s)
      end
  | None => (bad_request "Invalid BatchList Format: ", s)
  end.

(** [GET /batch_statuses]: every batch is pending. *)
Definition batch_statuses_route (query : Query) : IronResponse (list string * string) :=
  match query_param Some query "id" with
  | Ok (Some id) =>
      match query_param (parse_unsigned (2 ^ 32)) query "wait" with
      | Ok wait =>
          iron_ok 200 (split_on "," id, url_for "batch_statuses" {[ "id" := id; "wait" := pretty (default 0%Z wait) ]})
      | Err _ => bad_request "Invalid parameter: wait must be an integer: "
      end
  | _ => bad_request "Missing paramter: id"
  end.

(** [GET /state/:address] *)
Definition get_state_by_address (address : option string) : eff (XoShared * W) XoStateError (IronResponse (DataEnvelope string)) :=
  match address with
  | None => mret (bad_request "Invalid input: Missing state address")
  | Some address =>
      if negb (String.length address =? 70)%nat then
        mret (bad_request ("Invalid input: " +:+ quoted address +:+ " is not a valid address"))
      else
        state_root ← unlocked_current_state_root;
        s ← get;
        mret (match xo_get_state state_root address s.2 with
              | Ok (Some data) =>
                  iron_ok 200 (mkDataEnvelope (base64_encode data) state_root
                                 (url_for "get_state" {[ "address" := address ]}))
              | Ok None => not_found (quoted address +:+ " could not be found")
              | Err e => internal_error e
              end)
  end.

(** [GET /state]: the content of each entry is encoded when it is written out. *)
Definition list_state_with_params (query : Query) :
    eff (XoShared * W) XoStateError (IronResponse (DataEnvelope (list (string * bytes)))) :=
  match get_list_params query with
  | Err msg => mret (bad_request msg)
  | Ok request =>
      state_root ← match lsr_head request with Some head => mret head | None => unlocked_current_state_root end;
      s ← get;
      mret (match xo_list_state state_root (lsr_address request) s.2 with
            | Err e => internal_error e
            | Ok entries =>
                match collect (take (Z.to_nat (default 100%Z (lsr_limit request)))
                                 (drop (Z.to_nat (default 0%Z (lsr_start request))) entries)) with
                | Ok results => iron_ok 200 (mkDataEnvelope results state_root (url_for "list_state" (into_map request)))
                | Err e => internal_error e
                end
            end)
  end.

(** The ids of all the batches of a list are given back, but only the first batch is
    queued. *)
Lemma batches_route_first body s b l :
  parse_from_bytes body = Some (b :: l) →
  let '(r, s') := batches_route body s in
  ir_body r = inl (url_for "batch_statuses" {[ "id" := join_comma (xb_header_signature <$> b :: l) ]}) ∧
  xo_pending_batches s' = xo_pending_batches s ++ [b].
Proof. intros Hb. unfold batches_route. by rewrite Hb. Qed.
End routes.

(** [split_endpoint] of [main.rs] *)
Definition split_endpoint (s : string) : result string (string * Z) :=
  if is_empty s then Err "Bind string must not be empty" else
  match split_on ":" s with
  | address :: port_str :: _ =>
      match parse_unsigned (2 ^ 16) port_str with
      | Some port =>
          if (port >? 0)%Z then Ok (address, port)
          else Err (s +:+ " does not specify a valid port: must be an integer in the range 0 < port < 65535")
      | None => Err (s +:+ " does not specify a valid port: must be an integer in the range 0 < port < 65535")
      end
  | _ => Err (s +:+ " must specify a port")
  end.

(** ** What an accepted proposal does *)

Section accept.
Context {W B : Type} `{!Transact W, !TransactLaws W, !XoBatch B, !UuidSource W, !Sender W SendRequest,
  !Sender W ProposalUpdate, !Sender W ConsensusMessage}.
Context `{!Codec NetworkMessage, !Codec CircuitMessage, !Codec CircuitDirectMessage,
  !Codec ConsensusMessageProto, !Codec PrivateXoMessage, !Codec B, !Codec (list B)}.
Context (url_for : string → gmap string string → string).
Implicit Types s : Xo B * W.

(** The changes that are pending lead from the current root to the root [id]. *)
Definition leads_to (id : string) (st : XoShared) : Prop :=
  ∃ root changes d, xo_current_state_root st = Some root ∧ xo_pending_changes st = Some changes ∧
    compute_state_id (D := W) root changes d = Some id.

Lemma unlocked_root_inv (st st' : XoShared) (w w' : W) root :
  unlocked_current_state_root (st, w) = (Ok root, (st', w')) →
  xo_current_state_root st' = Some root ∧ xo_pending_changes st' = xo_pending_changes st.
Proof.
  unfold unlocked_current_state_root, mbind, eff_bind, get. cbn [fst].
  destruct (xo_current_state_root st) as [r|] eqn:Hr; [by intros [= -> <- <-]|].
  unfold emap_err, on_db. destruct (initial_state_root w) as [[r|] w1]; intros [= <- <- <-]. done.
Qed.

Lemma unlocked_root_known (st : XoShared) (w : W) root :
  xo_current_state_root st = Some root → unlocked_current_state_root (st, w) = (Ok root, (st, w)).
Proof. unfold unlocked_current_state_root, mbind, eff_bind, get. cbn. by intros ->. Qed.

(** Executing a batch leaves its changes pending. *)
Lemma propose_change_leads (batch : B) (st st' : XoShared) (w w' : W) id :
  propose_change batch (st, w) = (Ok id, (st', w')) → leads_to id st'.
Proof.
  unfold propose_change. intros (root & [st1 w1] & Hroot & H)%eff_bind_inv.
  apply unlocked_root_inv in Hroot as [Hroot _].
  apply eff_bind_inv in H as (pair & s2 & Hp & H). unfold lift in Hp. injection Hp as _ <-.
  apply eff_bind_inv in H as (results & [st3 w3] & Hx & H). unfold on_db in Hx.
  destruct (execute_batch root pair w1) as [[rs|] w2]; cbn in Hx; simplify_eq.
  apply eff_bind_inv in H as (receipts & s4 & Hr & H). unfold lift in Hr. injection Hr as _ <-.
  apply eff_bind_inv in H as ([] & s5 & [= <-] & H).
  apply eff_bind_inv in H as (s6 & s7 & [= <- <-] & H). unfold lift in H.
  destruct (compute_state_id _ _ _) as [id'|] eqn:Hid; cbn in H; simplify_eq.
  by exists root, (receipts ≫= receipt_state_changes), w'.
Qed.

Lemma xo_commit_spec id (st : XoShared) (w : W) :
  leads_to id st →
  match xo_commit (st, w) with
  | (Ok _, (st', _)) => xo_current_state_root st' = Some id
  | (Err e, (st', _)) => xo_current_state_root st' = xo_current_state_root st ∧ e ≠ XoPanic ∧
      ∃ root changes, (merkle_commit root changes w).1 = Err ()
  end.
Proof.
  intros (root & changes & d & Hr & Hc & Hid). unfold xo_commit, mbind, eff_bind.
  rewrite (unlocked_root_known st w root Hr). unfold get, set_pending, modify. cbn [fst]. rewrite Hc. unfold on_db.
  destruct (merkle_commit root changes w) as [[root'|[]] w1] eqn:Hm; cbn.
  2: { split_and!; [done..|]. exists root, changes. by rewrite Hm. }
  by rewrite (merkle_commit_id _ _ _ _ _ _ _ Hm Hid).
Qed.

(** *** What may happen between the check of a proposal and its acceptance *)

Inductive xo_op :=
  | XoPost (body : bytes)
  | XoDirect (peer_id : string) (msg : CircuitDirectMessage)
  | XoRead
  | XoSendTo (peer_id : PeerId) (message : bytes)
  | XoBroadcast (message : bytes).

Definition xo_step (s : Xo B * W) (op : xo_op) : Xo B * W :=
  match op with
  | XoPost body => ((batches_route url_for body s.1).2, s.2)
  | XoDirect peer_id msg => (xo_handle_direct_msg peer_id msg s).2
  | XoRead => (in_state (λ e, e) unlocked_current_state_root s).2
  | XoSendTo peer_id message => (xo_send_to peer_id message s).2
  | XoBroadcast message => (xo_broadcast message s).2
  end.

(** The proposal that a message of another service brings *)
Definition received (op : xo_op) : option ProposalId :=
  match op with
  | XoDirect _ msg =>
      m ← parse_from_bytes (cdm_payload msg);
      match pxm_message_type m with
      | XO_PROPOSED_BATCH =>
          (parse_from_bytes (xpb_batch (pxm_proposed_batch m)) : option B);;
          Some (xpb_expected_hash (pxm_proposed_batch m))
      | _ => None
      end
  | _ => None
  end.
(** The proposal that is pending after operations *)
Definition pending_after (id : ProposalId) (ops : list xo_op) : ProposalId :=
  foldl (λ id op, default id (received op)) id ops.

Abbreviation keeps m := (preserves (S := Xo B * W) fst m).
Lemma xo_on_w_keeps {E E' A} (f : E → E') (m : eff W E A) : keeps (on_w f m).
Proof. intros [s w]. cbn. by destruct (m w). Qed.
#[local] Hint Resolve preserves_bind xo_on_w_keeps preserves_get preserves_lift : core.
Lemma xo_send_direct_keeps {E} (e : E) msg recipient : keeps (xo_send_direct e msg recipient).
Proof. unfold xo_send_direct. eauto 12. Qed.
Lemma xo_send_direct_all_keeps {E} (e : E) msg l : keeps (xo_send_direct_all e msg l).
Proof.
  induction l as [|x l IH]; cbn [xo_send_direct_all]; [apply preserves_pure|].
  apply preserves_bind; [apply xo_send_direct_keeps|done].
Qed.
Lemma xo_consensus_envelope_keeps m : keeps (xo_consensus_envelope m).
Proof. unfold xo_consensus_envelope. repeat (apply preserves_bind; [eauto|intros ?]). apply preserves_pure. Qed.
Lemma xo_send_to_keeps peer m : keeps (xo_send_to peer m).
Proof. unfold xo_send_to. eauto using xo_consensus_envelope_keeps, xo_send_direct_keeps. Qed.
Lemma xo_broadcast_keeps m : keeps (xo_broadcast m).
Proof. unfold xo_broadcast. eauto 8 using xo_consensus_envelope_keeps, xo_send_direct_all_keeps. Qed.

(** The changes of [id] are pending, and the proposal that is pending is [p]. *)
Definition prepared (id : string) (root : option string) (p : ProposalId) (s : Xo B) : Prop :=
  leads_to id (xo_state s) ∧ xo_current_state_root (xo_state s) = root ∧
  ∃ proposal batch, xo_pending_proposal s = Some (proposal, batch) ∧ proposal_id proposal = p.

Lemma xo_handle_direct_msg_prepared id root p peer msg s :
  prepared id root p s.1 →
  prepared id root (default p (received (XoDirect peer msg))) (xo_handle_direct_msg peer msg s).2.1.
Proof.
  intros Hs. unfold xo_handle_direct_msg, parsed_as. cbn [received].
  destruct (parse_from_bytes (cdm_payload msg)) as [m|]; [|done]. cbn [mbind option_bind].
  rewrite (eff_bind_ok _ _ s m s) by done. destruct (pxm_message_type m); [done| |].
  - rewrite preserves_bind; [done|eauto..].
  - destruct (parse_from_bytes (xpb_batch (pxm_proposed_batch m))) as [b|]; [|done]. cbn [mbind option_bind from_option].
    rewrite (eff_bind_ok _ _ s b s) by done. destruct s as [s w].
    unfold mbind, eff_bind, set_proposal, modify. rewrite xo_on_w_keeps.
    destruct Hs as (Hl & Hr & _). split; [done|]. split; [done|]. by eexists _, b.
Qed.

Lemma xo_step_prepared id root p op s :
  prepared id root p s.1 → prepared id root (default p (received op)) (xo_step s op).1.
Proof.
  intros Hs. destruct op; cbn [xo_step].
  - cbn. unfold batches_route. destruct (parse_from_bytes body) as [[|b l]|]; done.
  - by apply xo_handle_direct_msg_prepared.
  - destruct s as [s w]. unfold in_state. cbn [fst] in Hs. destruct Hs as ((r & Hs') & Hr & Hp).
    destruct Hs' as (ch & d & Hroot & Hrest). rewrite (unlocked_root_known _ w r Hroot).
    split; [by exists r, ch, d|]. done.
  - by rewrite xo_send_to_keeps.
  - by rewrite xo_broadcast_keeps.
Qed.

Lemma xo_run_prepared id root p ops s :
  prepared id root p s.1 → prepared id root (pending_after p ops) (foldl xo_step s ops).1.
Proof.
  revert p s. induction ops as [|op ops IH]; intros p s Hs; [done|]. cbn. by apply IH, xo_step_prepared.
Qed.

(** When a service has checked a proposal [id] to be valid, and then takes requests,
    messages of other services and sends until the proposal is accepted, then accepting
    it makes [id] the state root, or leaves the root as it is when the merkle tree fails;
    but when the last proposal that came from another service meanwhile is another one,
    the accepted proposal is not pending any more: nothing is committed, and consensus
    is told so. *)
Theorem xo_accept_commits id batch (s s1 : Xo B * W) ops :
  pending_with id s.1 = Some batch →
  in_state xo_pm_error (propose_change batch.2) s = (Ok id, s1) →
  let s2 := foldl xo_step s1 ops in
  let root := xo_current_state_root (xo_state s1.1) in
  let '(_, s3) := xo_accept_proposal id None s2 in
  if decide (pending_after id ops = id) then
    xo_current_state_root (xo_state s3.1) = Some id ∧ xo_pending_proposal s3.1 = None ∨
    xo_current_state_root (xo_state s3.1) = root ∧ (∃ r changes, (merkle_commit r changes s2.2).1 = Err ())
  else xo_accept_proposal id None s2 = xo_update_send (ProposalAcceptFailed id "not pending proposal") s2 ∧
       xo_current_state_root (xo_state s3.1) = root.
Proof.
  intros Hp Hc. cbn zeta.
  assert (prepared id (xo_current_state_root (xo_state s1.1)) id s1.1) as H1.
  { destruct s as [s w]. unfold in_state in Hc. destruct (propose_change batch.2 (xo_state s, w)) as [[h|] [st w']] eqn:Hx;
      cbn in Hc; [|discriminate Hc]. injection Hc as -> <-. cbn. split; [exact (propose_change_leads _ _ _ _ _ _ Hx)|].
    split; [done|]. unfold pending_with in Hp. cbn in Hp. destruct (xo_pending_proposal s) as [[q b]|]; [|done].
    cbn in Hp. destruct (decide (proposal_id q = id)); [|done]. by exists q, b. }
  pose proof (xo_run_prepared _ _ _ ops s1 H1) as (Hl & Hr & q & b & Hq & Hid).
  destruct (foldl xo_step s1 ops) as [s2 w2]. cbn [fst] in *. clear H1 Hc Hp. rewrite <- Hr. clear Hr.
  unfold xo_accept_proposal. rewrite (eff_bind_ok get _ (s2, w2) (s2, w2) (s2, w2)) by done.
  unfold pending_with. cbn [fst]. rewrite Hq. cbn [mbind option_bind fst]. rewrite Hid.
  destruct (decide (pending_after id ops = id)) as [Hpa|Hpa].
  - pose proof (xo_commit_spec id (xo_state s2) w2 Hl) as Hx. unfold mbind, eff_bind, attempt, in_state.
    destruct (xo_commit (xo_state s2, w2)) as [[[]|e] [st w3]]; cbn.
    + by left.
    + destruct Hx as (Hx & He & Hm). destruct e as [msg|]; [|done]. unfold xo_update_send, on_w.
      destruct (send _ w3) as [r w4]. by right.
  - pose proof (xo_on_w_keeps (λ _ : SendError, UpdateSendFailed)
      (send (ProposalAcceptFailed id "not pending proposal")) (s2, w2)) as Hk.
    unfold xo_update_send. destruct (on_w _ _ (s2, w2)) as [r s3]. cbn in Hk. by rewrite Hk.
Qed.
End accept.

(** ** A concrete service *)

Module XoMock.
Export HandlersMock CountableCodec.
Import ScabbardMock.

#[export] Instance xo_batches : XoBatch BatchPair := {|
  xb_header_signature := batch_header_signature;
  xb_into_pair := Some;
|}.
#[export] Instance xo_uuids : UuidSource world := λ w, ("uuid", w).
#[export] Instance xo_requests : Sender world SendRequest := λ _, mret ().
#[export] Instance xo_batch_codec : Codec BatchPair := {|
  parse_from_bytes _ := Some batch; write_to_bytes _ := Some "" |}.
#[export] Instance xo_batch_list_codec : Codec (list BatchPair) := {|
  parse_from_bytes _ := Some [batch]; write_to_bytes _ := Some "" |}.
(** Every message is a proposal with the payload as its id. *)
#[export] Instance xo_message_codec : Codec PrivateXoMessage := {|
  parse_from_bytes b := Some (mkPrivateXoMessage XO_PROPOSED_BATCH "" (mkXoProposedBatch "" b));
  write_to_bytes _ := Some "" |}.

Definition config : ServiceConfig := mkServiceConfig "node" "alpha" "a" ["b"].
Definition service : Xo BatchPair * world :=
  (mkXo config xo_shared_new [] (Some (mkProposal root1 "" 0 "" "", batch)), world0).
Definition checked : Xo BatchPair * world := (in_state xo_pm_error (propose_change batch) service).2.
Definition other : CircuitDirectMessage := mkCircuitDirectMessage "alpha" "b" "a" "other" "uuid".
Definition urls (_ : string) (_ : gmap string string) : string := "".
End XoMock.

Section xo_witness.
Import ScabbardMock XoMock.

(** The same proposal is committed when a request is taken meanwhile, and is lost when
    another service proposes meanwhile. *)
Lemma xo_accept_commits_witness :
  xo_current_state_root (xo_state (xo_accept_proposal root1 None
    (foldl (xo_step urls) checked [XoPost ""; XoRead])).2.1) = Some root1 ∧
  xo_current_state_root (xo_state (xo_accept_proposal root1 None
    (foldl (xo_step urls) checked [XoDirect "node" other])).2.1) = Some "00".
Proof.
  pose proof (xo_accept_commits urls root1 (mkProposal root1 "" 0 "" "", batch) service checked [XoPost ""; XoRead]
    ltac:(by vm_compute) ltac:(by vm_compute)) as H1.
  pose proof (xo_accept_commits urls root1 (mkProposal root1 "" 0 "" "", batch) service checked [XoDirect "node" other]
    ltac:(by vm_compute) ltac:(by vm_compute)) as H2.
  cbn zeta in H1, H2. split.
  - destruct (xo_accept_proposal _ _ _) as [r s3] eqn:He in H1. rewrite He. rewrite decide_True in H1 by (by vm_compute).
    destruct H1 as [[H1 _]|(_ & root & changes & H1)]; [exact H1|]. by vm_compute in H1.
  - destruct (xo_accept_proposal _ _ _) as [r s3] eqn:He in H2. rewrite He. rewrite decide_False in H2 by (by vm_compute).
    destruct H2 as [_ H2]. etrans; [exact H2|]. by vm_compute.
Defined.
End xo_witness.
