(* ===== verification/Clients.v ===== *)
(** * The command line, the client library and the transports of the examples

    Models [cli/src/main.rs] and [cli/src/action/health.rs], which run the actions of
    [Cli] and [CliCerts]; [client/src/splinter_client.rs]; the branch of [get_transport] in
    [splinterd/src/main.rs] that makes its own certificates, with [splinterd/src/certs.rs];
    and how the services of the examples reach a node
    ([examples/private_xo/src/main.rs], [examples/private_counter/service/src/main.rs]). *)

From stdpp Require Import gmap pretty.
From Stdlib Require Import ZArith.
From S2P Require Import Prelude Consensus Framing Storage Hex Keys FileTree BiMap Network Transport Tls Cli CliProps CliCerts CliCertsProps.
From S2P Require Import RestApi Config.
From S2P Require Import PrivateXo PrivateCounter.

Lemma map_err_ok {E E' A} (f : E → E') (r : result E A) a : map_err f r = Ok a → r = Ok a.
Proof. by destruct r; intros [= ->]. Qed.
Lemma emap_err_ok {S E E' A} (f : E → E') (m : eff S E A) s a s' : emap_err f m s = (Ok a, s') → m s = (Ok a, s').
Proof. unfold emap_err. destruct (m s) as [r s1]. intros [= H%map_err_ok ->]. by subst. Qed.

(** ** The command line *)

(** [reqwest::get], the JSON of the answer, and what is printed *)
Class Http (W Json : Type) := {
  http_get : string → eff W string Response;
  json_parse : string → result string Json;
  to_string_pretty : Json → option string;
  println : string → W → W;
}.

Section cli.
Context {W Json : Type} {Hhttp : Http W Json}.

(** [StatusAction] *)
Definition status_action : Action (Fs * W) := λ arg_matches,
  let url := default "http://localhost:8085" (arg_matches ≫= value_of "url") in
  res ← in_lib ActionError (http_get (url +:+ "/health/status"));
  status ← lift (map_err ActionError (json_parse (body res)));
  text ← lift (ok_or (ActionError "Failed to serialize response") (to_string_pretty status));
  modify (λ '(d, w), (d, println text w)).

Context {PKey PubKey Sig : Type} `{!KeyMaker W, !SpecYaml, !OpenSsl W PKey PubKey Sig, !FileSystem Fs, !Serde PersistedKeyRegistry}.

(** [SubcommandActions::new] *)
Definition no_actions : SubcommandActions (Fs * W) := (∅ : gmap string (Action (Fs * W))).

(** The subcommands of [run]; [health] is the feature, [state_dir] and [cert_dir] are the
    variables of the environment. *)
Definition splinter_actions (health : bool) (state_dir cert_dir : option string) : SubcommandActions (Fs * W) :=
  let subcommands :=
    with_command "cert" (run_subcommand (with_command "generate" (Certs.cert_gen_action (PKey := PKey) (PubKey := PubKey) (Sig := Sig) cert_dir) no_actions))
      (with_command "admin"
        (run_subcommand (with_command "keyregistry" (key_registry_action state_dir) (with_command "keygen" keygen_action no_actions)))
        no_actions) in
  if health then with_command "health" (run_subcommand (with_command "status" status_action no_actions)) subcommands
  else subcommands.
Definition splinter_run (health : bool) (state_dir cert_dir : option string) (matches : ArgMatches) :
    eff (Fs * W) CliError () :=
  run_subcommand (splinter_actions health state_dir cert_dir) (Some matches).

(** [main]: the code the process exits with *)
Definition splinter_main (health : bool) (state_dir cert_dir : option string) (matches : ArgMatches) (s : Fs * W) :
    Z * (Fs * W) :=
  let '(r, s) := splinter_run health state_dir cert_dir matches s in
  (match r with Ok _ => 0 | Err _ => 1 end, s)%Z.

(** The subcommand and its own subcommand, as [clap] finds them *)
Definition two_words (a b : string) (args : ArgMatches) : ArgMatches :=
  mkArgMatches ∅ ∅ a (Some (mkArgMatches ∅ ∅ b (Some args))).

(** Each pair of words runs its action, and any other pair none. *)
Lemma splinter_run_actions health state_dir cert_dir a b args s :
  splinter_run health state_dir cert_dir (two_words a b args) s =
    (if decide (a = "admin" ∧ b = "keygen") then keygen_action (Some args)
     else if decide (a = "admin" ∧ b = "keyregistry") then key_registry_action state_dir (Some args)
     else if decide (a = "cert" ∧ b = "generate") then Certs.cert_gen_action (PKey := PKey) (PubKey := PubKey) (Sig := Sig) cert_dir (Some args)
     else if decide (health = true ∧ a = "health" ∧ b = "status") then status_action (Some args)
     else throw InvalidSubcommand) s.
Proof.
  unfold splinter_run, two_words, run_subcommand at 1.
  rewrite (eff_bind_ok _ _ _ (mkArgMatches ∅ ∅ a (Some (mkArgMatches ∅ ∅ b (Some args)))) s) by done. cbn [subcommand].
  unfold splinter_actions, no_actions, with_command, SubcommandActions in *.
  assert (Hrun : ∀ acts : gmap string (Action (Fs * W)), run_subcommand acts (Some (mkArgMatches ∅ ∅ b (Some args))) s =
    match acts !! b with Some action => action (Some args) | None => throw InvalidSubcommand end s).
  { intros acts. unfold run_subcommand. by rewrite (eff_bind_ok _ _ _ (mkArgMatches ∅ ∅ b (Some args)) s). }
  destruct (decide (a = "admin")) as [->|Ha].
  { assert (Hl : ∀ f g h : Action (Fs * W), (if health then <["health":=f]> (<["cert":=g]> (<["admin":=h]> ∅))
      else <["cert":=g]> (<["admin":=h]> (∅ : gmap string (Action (Fs * W))))) !! "admin" = Some h) by (intros; by destruct health; simplify_map_eq).
    rewrite Hl, Hrun. destruct (decide (b = "keygen")) as [->|Hk]; [by simplify_map_eq|].
    rewrite (decide_False (P := _ ∧ _)) by naive_solver.
    destruct (decide (b = "keyregistry")) as [->|Hr]; [by simplify_map_eq|].
    rewrite !(decide_False (P := _ ∧ _)) by naive_solver. by rewrite !lookup_insert_ne, lookup_empty. }
  rewrite !(decide_False (P := a = "admin" ∧ _)) by naive_solver.
  destruct (decide (a = "cert")) as [->|Hc].
  { assert (Hl : ∀ f g h : Action (Fs * W), (if health then <["health":=f]> (<["cert":=g]> (<["admin":=h]> ∅))
      else <["cert":=g]> (<["admin":=h]> (∅ : gmap string (Action (Fs * W))))) !! "cert" = Some g) by (intros; by destruct health; simplify_map_eq).
    rewrite Hl, Hrun. destruct (decide (b = "generate")) as [->|Hk]; [by simplify_map_eq|].
    rewrite !(decide_False (P := _ ∧ _)) by naive_solver. by rewrite !lookup_insert_ne, lookup_empty. }
  rewrite !(decide_False (P := a = "cert" ∧ _)) by naive_solver.
  destruct health.
  - destruct (decide (a = "health")) as [->|Hh].
    + rewrite lookup_insert_eq, Hrun. destruct (decide (b = "status")) as [->|Hk]; [by simplify_map_eq|].
      rewrite !(decide_False (P := _ ∧ _)) by naive_solver. by rewrite !lookup_insert_ne, lookup_empty.
    + rewrite !(decide_False (P := _ ∧ _)) by naive_solver. by rewrite !lookup_insert_ne, lookup_empty.
  - rewrite !(decide_False (P := _ ∧ _)) by naive_solver. by rewrite !lookup_insert_ne, lookup_empty.
Qed.

(** What the health service answers has no body: where the empty text is no JSON, the
    action fails on the answer of any node. *)
Lemma health_status_unreadable `{!Actix, !ActixPatterns} {S} (st : S) args d w w' e :
  json_parse "" = Err e →
  (let url := default "http://localhost:8085" (args ≫= value_of "url") in
   ∃ res, serve (into_route <$> health_resources) Get "/health/status" [] st = (Ok res, st) ∧
     http_get (url +:+ "/health/status") w = (Ok res, w')) →
  status_action args (d, w) = (Err (ActionError e), (d, w')).
Proof.
  intros He (res & Hs & Hg). unfold health_resources in Hs. cbn [fmap list_fmap serve] in Hs.
  rewrite into_route_spec in Hs. cbn [ar_pattern route make_status_resource add_method resource_build] in Hs.
  rewrite match_pattern in Hs by done. cbn in Hs. injection Hs as <-.
  unfold status_action. rewrite (eff_bind_ok _ _ _ (finish 200) (d, w')); [|by unfold in_lib; rewrite Hg].
  cbn [body finish]. by rewrite He.
Qed.
End cli.

(** ** The client library *)

Module Client.

Inductive SplinterError :=
  | CertUtf8Error (msg : string)
  | CertificateCreationError
  | CouldNotResolveHostName
  | HostNameNotFound
  | PrivateKeyNotFound
  | ProtobufError
  | IoError (k : ErrorKind)
  | TLSError (msg : string)
  | TransportSendError (e : Framing.TransportSendError)
  | ParseError (msg : string).

Record Certs := mkCerts { ca_cert : string; client_cert : string; client_priv : string }.

(** [SocketAddr]: its version, and [ip:port] as it is printed *)
Inductive SocketAddr := V4 (a : string) | V6 (a : string).
Definition socket_is_ipv4 (a : SocketAddr) : bool := match a with V4 _ => true | V6 _ => false end.
Definition addr_text (a : SocketAddr) : string := match a with V4 a | V6 a => a end.

(** [Url::parse], with [host_str] and [port], and [to_socket_addrs] *)
Class Resolver (W : Type) := {
  url_parse : string → result string (option string * option Z);
  to_socket_addrs : string → eff W ErrorKind (list SocketAddr);
}.

Section client.
Context {W Ctx TcpStream SslStream L : Type} {Hssl : Ssl W Ctx TcpStream SslStream}
  {Htcp : Tcp W TcpStream L} {Hres : Resolver W}.

Definition tls_error (e : string) : SplinterError := TLSError ("TLSError: " +:+ e).

Definition resolve_hostname (hostname : string) : eff W SplinterError SocketAddr :=
  addrs ← emap_err IoError (to_socket_addrs hostname);
  lift (ok_or CouldNotResolveHostName (find socket_is_ipv4 addrs)).

Definition client_connect (url : string) (certs : Certs) : eff W SplinterError SslStream :=
  parsed ← lift (map_err ParseError (url_parse url));
  hostname ← lift (ok_or HostNameNotFound parsed.1);
  port ← lift (ok_or HostNameNotFound parsed.2);
  addr ← resolve_hostname (hostname +:+ ":" +:+ pretty port);
  connector ← emap_err tls_error (ssl_context Connector (client_priv certs) (client_cert certs));
  connector ← emap_err tls_error (set_ca_file (ca_cert certs) connector);
  stream ← emap_err IoError (tcp_connect (addr_text addr));
  emap_err tls_error (ssl_connect connector "localhost" stream).

(** [send], with the connection of the client *)
Definition client_send {C Msg} `{!Connection C, !Codec Msg} (req : Msg) : eff C SplinterError () :=
  raw_msg ← lift (ok_or ProtobufError (write_to_bytes req));
  emap_err TransportSendError (connection_send raw_msg).

(** A URL without a port, or without a host, reaches nothing. *)
Lemma client_needs_port url certs host port w :
  url_parse url = Ok (host, port) → host = None ∨ port = None →
  client_connect url certs w = (Err HostNameNotFound, w).
Proof. intros Hu [-> | ->]; unfold client_connect; unfold mbind, eff_bind; cbn; rewrite Hu; cbn; [done|]. by destruct host. Qed.

(** A connection is made with a first IPv4 address of the host, and the certificate of the
    server is checked against the name [localhost], whatever the URL says. *)
Lemma client_expects_localhost url certs w s w' :
  client_connect url certs w = (Ok s, w') →
  ∃ host port addrs addr ctx stream w1 w2 w3,
    url_parse url = Ok (Some host, Some port) ∧
    to_socket_addrs (host +:+ ":" +:+ pretty port) w = (Ok addrs, w1) ∧ find socket_is_ipv4 addrs = Some addr ∧
    tcp_connect (addr_text addr) w2 = (Ok stream, w3) ∧
    ssl_connect ctx "localhost" stream w3 = (Ok s, w').
Proof.
  unfold client_connect, resolve_hostname. intros H.
  bind_step H p. apply map_err_ok in Hstep. bind_step H host. bind_step H port. bind_step H addr.
  bind_step Hstep2 addrs. apply emap_err_ok in Hstep3. apply lift_inv in Hstep2 as [Hstep2 ->]. apply ok_or_inv in Hstep2.
  bind_step H c1. bind_step H c2. bind_step H stream. apply emap_err_ok in Hstep6, H.
  destruct p as [h pt]. simplify_eq/=. do 9 eexists. eauto.
Qed.
End client.
End Client.

(** ** Certificates that the daemon makes *)

Module Generated.

Inductive CertError := CertIoError (err : string) | CertPathError (msg : string) | CertOpensslError (err : string).
Inductive GetTransportError :=
  | GTCertError (e : CertError)
  | GTNotSupportedError (msg : string)
  | GTTlsTransportError (e : TlsInitError)
  | GTOpensslError (err : string)
  | GTIoError (err : string).

Section generated.
Context {W PKey PubKey Sig Ctx TcpStream SslStream : Type} {Hopen : OpenSsl W PKey PubKey Sig}
  {Hssl : Ssl (Fs * W) Ctx TcpStream SslStream}.
(** [TempDir::new], and the end of the directory with its owner *)
Context (temp_dir_new : string → eff (Fs * W) string string) (temp_dir_drop : string → Fs * W → Fs * W).

Definition on_files {E A} (f : string → E) (m : eff Fs string A) : eff (Fs * W) E A := λ '(d, w),
  let '(r, d') := m d in (map_err f r, (d', w)).
Definition in_openssl {E A} (f : string → E) (m : eff W string A) : eff (Fs * W) E A := λ '(d, w),
  let '(r, w') := m w in (map_err f r, (d, w')).

Definition write_file (temp_dir file_name : string) (b : bytes) : eff (Fs * W) CertError string :=
  path ← lift (ok_or (CertPathError "Path is not valid unicode") (to_str (join temp_dir file_name)));
  file ← on_files CertIoError (open_write true 438 path);
  _ ← on_files CertIoError (write_all file b);
  mret path.

(** A certificate of the authority and its key, in files of the directory *)
Definition write_cert (dir name : string) (c : CertBody PubKey * Sig) : eff (Fs * W) GetTransportError string :=
  pem ← lift (map_err GTOpensslError (cert_to_pem c));
  emap_err GTCertError (write_file dir name pem).
Definition write_key (dir name : string) (k : PKey) : eff (Fs * W) GetTransportError string :=
  pem ← lift (map_err GTOpensslError (key_to_pem k));
  emap_err GTCertError (write_file dir name pem).

Definition generated_files (common_name dir : string) (ca : PKey * (CertBody PubKey * Sig)) :
    eff (Fs * W) GetTransportError (TlsTransport Ctx) :=
  client ← in_openssl (λ e, GTCertError (CertOpensslError e)) (Certs.make_ca_signed_cert ca.2 ca.1 common_name);
  server ← in_openssl (λ e, GTCertError (CertOpensslError e)) (Certs.make_ca_signed_cert ca.2 ca.1 common_name);
  client_cert ← write_cert dir "client.cert" client.2;
  client_key_file ← write_key dir "client.key" client.1;
  server_cert ← write_cert dir "server.cert" server.2;
  server_key_file ← write_key dir "server.key" server.1;
  emap_err GTTlsTransportError
    (tls_transport_new None client_key_file client_cert server_key_file server_cert).

(** The branch of [get_transport] for [--generate-certs].  The directory is removed when
    the branch is left, by whichever way. *)
Definition generated_transport (args : ArgMatches) : eff (Fs * W) GetTransportError (TlsTransport Ctx) :=
  let common_name := default "localhost" (value_of "common_name" args) in
  ca ← in_openssl (λ e, GTCertError (CertOpensslError e)) Certs.make_ca_cert;
  dir ← emap_err GTIoError (temp_dir_new "tls-transport");
  r ← attempt (generated_files common_name dir ca);
  modify (temp_dir_drop dir);;
  lift r.

(** [get_transport] with the feature [generate-certs]: the branch comes first for TLS, and
    otherwise the settings are those of [Config.get_transport]. *)
Definition get_transport_generating (is_file can_canonicalize : string → Fs * W → bool)
    (tls_new : TransportSettings → Fs * W → bool) (matches : ArgMatches) (transport_type : string) (a : Args) (c : Config)
    (env : Env) : eff (Fs * W) (GetTransportError + MainError) (TlsTransport Ctx + TransportSettings) :=
  if bool_decide (transport_type = "tls") && is_present "generate_certs" matches then
    t ← emap_err inl (generated_transport matches);
    mret (inl t)
  else
    s ← get;
    settings ← lift (map_err inr (get_transport is_file can_canonicalize tls_new transport_type a c env s));
    mret (inr settings).

(** The transport that is made verifies no certificate, neither of the servers it connects
    to nor of the clients it accepts. *)
Lemma generated_transport_insecure {Hmodes : SslModes} args s t s' :
  generated_transport args s = (Ok t, s') →
  verify_mode (tt_connector t) = SslVerifyNone ∧ verify_mode (tt_acceptor t) = SslVerifyNone.
Proof.
  unfold generated_transport. intros H. bind_step H ca. bind_step H dir. bind_step H r. bind_step H u.
  apply lift_inv in H as [-> ->].
  assert (∃ s2, generated_files (default "localhost" (value_of "common_name" args)) dir ca w0 = (Ok t, s2)) as [s2 H].
  { unfold attempt in Hstep1. destruct (generated_files _ _ _ w0) as [r s2]. simplify_eq. eauto. }
  unfold generated_files in H. bind_step H client. bind_step H server. bind_step H f1. bind_step H f2.
  bind_step H f3. bind_step H f4. apply emap_err_ok in H. unfold tls_transport_new in H.
  bind_step H c. bind_step H a. injection H as <- <-. cbn. by rewrite !mode_set.
Qed.
End generated.
End Generated.

(** ** How the examples reach a node *)

Module ExampleStart.

(** The value of an error, or a panic *)
Inductive StartError := StartMsg (msg : string) | StartPanics (msg : string).

Section start.
(** The values that [clap] found for an argument *)
Context (values_of : string → option (list string)).
Definition arg (name : string) : option string := values_of name ≫= head.
Definition expect_arg (msg name : string) : result StartError string := ok_or (StartPanics msg) (arg name).

Context {W Ctx TcpStream SslStream L M : Type} {Hssl : Ssl W Ctx TcpStream SslStream}
  {Htcp : Tcp W TcpStream L} {Hurl : UrlDomain} (show_tls_error : TlsInitError → string)
  (show_connect_error : ConnectError → string).

(** The connections of either transport *)
Definition either_transport (t : TlsTransport Ctx + ()) : Transport W (SslStream + TcpStream) ((L * Ctx) + L) :=
  match t with
  | inl t => mkTransport (accepts_protocol TLS_PREFIX)
               (λ e, s ← tls_connect t e; mret (inl s)) (λ b, l ← tls_listen t b; mret (inl l))
  | inr _ => mkTransport (accepts_protocol RAW_PREFIX)
               (λ e, s ← raw_connect e; mret (inr s)) (λ b, l ← raw_listen b; mret (inr l))
  end.

Definition client_tls (ca_file : option string) (client_cert client_key_file : string) :
    eff W StartError (TlsTransport Ctx + ()) :=
  t ← emap_err (λ e, StartMsg ("An error occurred while creating tls transport: " +:+ show_tls_error e))
    (tls_transport_new ca_file client_key_file client_cert client_key_file client_cert);
  mret (inl t).

(** [get_transport] of the counter, which wants a CA, and of XO, which does without *)
Definition counter_get_transport : eff W StartError (TlsTransport Ctx + ()) :=
  match arg "transport" with
  | Some "tls" =>
      ca_file ← lift (ok_or (StartMsg "Must provide a valid file containing ca certs") (arg "ca_file"));
      client_cert ← lift (ok_or (StartMsg "Must provide a valid client certificate") (arg "client_cert"));
      client_key_file ← lift (ok_or (StartMsg "Must provide a valid key path") (arg "client_key"));
      client_tls (Some ca_file) client_cert client_key_file
  | Some "raw" => mret (inr ())
  | _ => throw (StartPanics "Transport type is not supported")
  end.
Definition xo_get_transport : eff W StartError (TlsTransport Ctx + ()) :=
  match arg "transport" with
  | Some "tls" =>
      client_cert ← lift (ok_or (StartMsg "Must provide a valid client certificate") (arg "client_cert"));
      client_key_file ← lift (ok_or (StartMsg "Must provide a valid key path") (arg "client_key"));
      client_tls (arg "ca_file") client_cert client_key_file
  | Some "raw" => mret (inr ())
  | _ => throw (StartPanics "Transport type is not supported")
  end.

Context {Hmesh : Mesh M (SslStream + TcpStream)} (mesh_new : W → option M).

(** [create_network_and_connect]; [uuid] is what names the connection, [mesh_new] makes the
    mesh of the network and starts its threads. *)
Definition create_network_and_connect (uuid connect_endpoint : string) (t : TlsTransport Ctx + ()) :
    eff W StartError (Network M) :=
  w ← get;
  m ← lift (ok_or (StartMsg "Unable to start network") (mesh_new w));
  connection ← emap_err (λ e, StartMsg ("Unable to connect to " +:+ connect_endpoint +:+ ": " +:+ show_connect_error e))
    (connect (either_transport t) connect_endpoint);
  let '(r, n) := Net.add_connection uuid connection (Net.new m) in
  _ ← lift (map_err (λ _, StartMsg "Unable to add connection to network") r);
  mret n.

Definition get_service_config (peer_id : string) : result StartError ServiceConfig :=
  circuit ← expect_arg "Circuit was not marked as a required attribute" "circuit";
  service_id ← expect_arg "Service id was not marked as a required attribute" "service_id";
  verifiers ← ok_or (StartPanics "unwrap") (values_of "verifier");
  mret (mkServiceConfig peer_id circuit service_id verifiers).

(** [main] of XO up to its configuration, and of the counter up to its state *)
Definition xo_start (uuid : string) : eff W StartError (Network M * ServiceConfig) :=
  t ← xo_get_transport;
  endpoint ← lift (expect_arg "Connect was not marked as a required attribute" "connect");
  n ← create_network_and_connect uuid endpoint t;
  peer_id ← lift (ok_or (StartMsg "Unable to connect to Splinter Node") (head (Peers.peer_ids (net_peers n))));
  config ← lift (get_service_config peer_id);
  mret (n, config).
Definition counter_start (uuid : string) : eff W StartError (Network M * ServiceState) :=
  t ← counter_get_transport;
  endpoint ← lift (expect_arg "unwrap" "connect");
  n ← create_network_and_connect uuid endpoint t;
  peer_id ← lift (ok_or (StartPanics "index out of bounds") (head (Peers.peer_ids (net_peers n))));
  service_id ← lift (expect_arg "unwrap" "service_id");
  circuit ← lift (expect_arg "unwrap" "circuit");
  verifiers ← lift (ok_or (StartPanics "unwrap") (values_of "verifier"));
  mret (n, service_state_new peer_id service_id circuit verifiers).

(** What [clap] promises of the arguments: those that are required or have a default are
    there, and the transport is one of the two that are possible. *)
Definition args_ok : Prop :=
  is_Some (arg "connect") ∧ is_Some (arg "service_id") ∧ is_Some (arg "circuit") ∧ is_Some (values_of "verifier") ∧
  (arg "transport" = Some "tls" ∨ arg "transport" = Some "raw").

Definition no_panic {A} (r : result StartError A) : Prop := ∀ msg, r ≠ Err (StartPanics msg).

Lemma no_panic_err {A B} e : no_panic (A := A) (Err e) → no_panic (A := B) (Err e).
Proof. intros H msg [= ->]. by eapply H. Qed.
Lemma client_tls_no_panic ca cert key w : wp (client_tls ca cert key) (λ r _, no_panic r) w.
Proof. unfold client_tls. wp_go. unfold wp. by destruct (tls_transport_new _ _ _ _ _ w) as [[|]]. Qed.
Lemma get_transport_no_panic w : args_ok →
  wp counter_get_transport (λ r _, no_panic r) w ∧ wp xo_get_transport (λ r _, no_panic r) w.
Proof.
  intros (_&_&_&_&[Ht|Ht]); unfold counter_get_transport, xo_get_transport; rewrite Ht; [|by split; wp_go].
  destruct (arg "ca_file"), (arg "client_cert"), (arg "client_key"); split; wp_go; cbn; try wp_go; try done;
    apply client_tls_no_panic.
Qed.

(** A network that is made has the connection as its only peer. *)
Lemma network_has_peer uuid endpoint t w :
  wp (create_network_and_connect uuid endpoint t) (λ r _, no_panic r ∧
    match r with
    | Ok n => Peers.peer_ids (net_peers n) = ["temp-" +:+ uuid] ∧ is_Some (Peers.get_mesh_id ("temp-" +:+ uuid) (net_peers n))
    | Err _ => True
    end) w.
Proof.
  unfold create_network_and_connect. wp_go. destruct (mesh_new w) as [m|]; cbn [ok_or]; [|done]. wp_go.
  unfold wp. destruct (connect _ _ w) as [[c|e] w']; cbn [map_err]; [|done].
  unfold Net.add_connection, Net.on_mesh, mbind, eff_bind. cbn. destruct (mesh_add c m) as [[id|] m']; cbn; [|done].
  split; [done|]. split; [unfold Peers.peer_ids, BiMap.keys; cbn; by rewrite insert_empty, map_to_list_singleton|]. unfold Peers.get_mesh_id, Peers.redirected. cbn. rewrite lookup_empty. cbn.
  unfold BiMap.get_by_key. cbn. rewrite lookup_insert_eq. eauto.
Qed.

(** With such arguments a service that starts does not panic; its state names the one peer
    of its network, and its engine has the verifiers of the command line as peers. *)
Theorem examples_start uuid w : args_ok →
  wp (xo_start uuid) (λ r _, no_panic r ∧ match r with
    | Ok (n, c) => Peers.peer_ids (net_peers n) = [cfg_peer_id c] ∧ is_Some (Peers.get_mesh_id (cfg_peer_id c) (net_peers n)) ∧
        arg "service_id" = Some (cfg_service_id c) ∧ values_of "verifier" = Some (ss_peer_ids (xo_startup_state c))
    | Err _ => True end) w ∧
  wp (counter_start uuid) (λ r _, no_panic r ∧ match r with
    | Ok (n, s) => Peers.peer_ids (net_peers n) = [sst_peer_id s] ∧ is_Some (Peers.get_mesh_id (sst_peer_id s) (net_peers n)) ∧
        arg "service_id" = Some (sst_service_id s) ∧ values_of "verifier" = Some (ss_peer_ids (startup_state s))
    | Err _ => True end) w.
Proof.
  intros Hargs. destruct (get_transport_no_panic w Hargs) as [Hc Hx]. destruct Hargs as ([ep He]&[sid Hs]&[ci Hci]&[vs Hv]&_).
  unfold xo_start, counter_start, get_service_config, expect_arg. rewrite He, Hs, Hci, Hv. split.
  - wp_go. eapply wp_mono; [exact Hx|]. intros [t|e] w1 Hr; cbn; [|by split; [eapply no_panic_err|]]. wp_go.
    eapply wp_mono; [apply network_has_peer|]. intros [n|e] w2 [Hn Hp]; cbn; [|by split; [eapply no_panic_err|]]. destruct Hp as [Hp Hm].
    rewrite Hp. cbn [head ok_or]. wp_go. split; [done|]. by split_and!.
  - wp_go. eapply wp_mono; [exact Hc|]. intros [t|e] w1 Hr; cbn; [|by split; [eapply no_panic_err|]]. wp_go.
    eapply wp_mono; [apply network_has_peer|]. intros [n|e] w2 [Hn Hp]; cbn; [|by split; [eapply no_panic_err|]]. destruct Hp as [Hp Hm].
    rewrite Hp. cbn [head ok_or]. wp_go. split; [done|]. by split_and!.
Qed.
End start.
End ExampleStart.

(** ** Starting the daemon with certificates of the command line

    Composes [splinter cert generate] ([cli/src/action/certs.rs]) with the choice of
    the transport by the daemon ([splinterd/src/main.rs]): which of the files that the
    command line makes the daemon finds. *)

Section startup.
Context {W PKey PubKey Sig : Type} {Hssl : OpenSsl W PKey PubKey Sig} {Hlaws : OpenSslLaws W PKey PubKey Sig}.
Context (tls_new : TransportSettings → Fs → bool).

(** Arguments of the daemon that name no file of certificates. *)
Definition no_cert_files (a : Args) (c : Config) : Prop :=
  arg_client_cert a = None ∧ arg_server_cert a = None ∧ arg_client_key a = None ∧ arg_server_key a = None ∧
  arg_ca_file a = None ∧ cfg_client_cert c = None ∧ cfg_server_cert c = None ∧ cfg_client_key c = None ∧
  cfg_server_key c = None ∧ cfg_ca_certs c = None.

Lemma daemon_cert_path dir name :
  name ∈ certs → components (path_join dir name) = place dir [name].
Proof.
  intros Hn. destruct (name_facts name) as (H1&H2&H3&_); [set_solver|].
  rewrite <- components_cert by done. unfold join. destruct (starts_with "/" name) eqn:Hs; [|done].
  destruct name as [|c name]; [done|]. apply no_sep_cons in H1 as [Hc _]. unfold starts_with in Hs.
  cbn [String.prefix] in Hs. by destruct (ascii_dec _ _).
Qed.
Lemma daemon_key_path dir name :
  name ∈ keys → components (path_join dir ("private/" +:+ name)) = place dir ["private"; name].
Proof.
  intros Hn. destruct (name_facts name) as (H1&H2&H3&_); [set_solver|].
  change ("private/" +:+ name) with ("private" +:+ "/" +:+ name). apply components_below; try done.
  by intros [|[|[|[|[|[|[|n]]]]]]].
Qed.

Lemma ca_pem_path dir : components (path_join dir CA_PEM) = place dir [CA_PEM].
Proof.
  unfold place. rewrite <- components_join; [done| |done..]. by intros [|[|[|[|[|[|n]]]]]].
Qed.

(** The files that hold a key and a certificate for it. *)
Definition tls_pair (cert key : string) (d : Fs) : Prop :=
  ∃ a b c a' b' k, at_path cert d = Some (File a b) ∧ cert_from_pem b = Ok c ∧
    at_path key d = Some (File a' b') ∧ key_from_pem b' = Ok k ∧ cb_pubkey c.1 = Some (public_part k).

Lemma issued_tls_pair dir common_name cert key d :
  cert ∈ certs → key ∈ keys → issued dir common_name cert key d →
  tls_pair (path_join dir cert) (path_join dir ("private/" +:+ key)) d.
Proof.
  intros Hc Hk (ca & cp & _ & (a & b & Ha & Hb) & (a' & b' & Ha' & Hb') & (_ & _ & Hpub & _)).
  exists a, b, cp.2, a', b', cp.1. unfold at_path. by rewrite daemon_cert_path, daemon_key_path.
Qed.
Lemma tls_pair_files cert key d :
  tls_pair cert key d → is_file cert d = true ∧ is_file key d = true ∧
    path_exists cert d = true ∧ path_exists key d = true.
Proof. unfold is_file, path_exists. by intros (a & b & c & a' & b' & k & -> & _ & -> & _). Qed.

(** C38: a daemon that is pointed to the directory of new certificates.  With [--insecure] it
    starts TLS on the certificates and keys of the client and the server, each of which
    belong together.  Without, and with no other CA given, it ends: the CA that was
    made is not under the name that the daemon looks for. *)
Theorem generated_certs_found env args d (w : W) d' w' (a : Args) (c : Config) e :
  let cert_dir := match value_of "cert_dir" args with Some x => x | None => default Certs.DEFAULT_CERT_DIR env end in
  let client_cert := path_join cert_dir CLIENT_CERT in
  let client_key := path_join cert_dir CLIENT_KEY in
  let server_cert := path_join cert_dir SERVER_CERT in
  let server_key := path_join cert_dir SERVER_KEY in
  is_present "force" args = true → is_present "skip" args = false → parents_ok cert_dir d →
  fs_nodes d !! place cert_dir [CA_PEM] = None →
  Certs.cert_gen_action env (Some args) (d, w) = (Ok (), (d', w')) →
  arg_cert_dir a = Some cert_dir → no_cert_files a c →
  tls_new (TlsSettings None client_key client_cert server_key server_cert) d' = true →
  tls_pair client_cert client_key d' ∧ tls_pair server_cert server_key d' ∧
  get_transport is_file (λ p, path_exists p) tls_new "tls" a c e d' =
    if arg_insecure a then Ok (TlsSettings None client_key client_cert server_key server_cert)
    else Err (MainPanic "Must provide a valid file containing ca certs").
Proof.
  intros cert_dir client_cert client_key server_cert server_key Hforce Hskip Hp Hca Hgen Ha
    (Hn1&Hn2&Hn3&Hn4&Hn5&Hn6&Hn7&Hn8&Hn9&Hn10) Htls.
  pose proof (generated_all env args d w Hforce Hskip Hp) as H. rewrite Hgen in H. fold cert_dir in H.
  destruct H as (Hi & Hcl & Hse).
  apply issued_tls_pair in Hcl, Hse; [|set_solver..].
  split; [exact Hcl|]. split; [exact Hse|].
  apply tls_pair_files in Hcl as (H1 & H2 & H3 & H4), Hse as (H5 & H6 & H7 & H8).
  change (path_join cert_dir ("private/" +:+ Certs.CLIENT_KEY)) with client_key in *.
  change (path_join cert_dir Certs.CLIENT_CERT) with client_cert in *.
  change (path_join cert_dir ("private/" +:+ Certs.SERVER_KEY)) with server_key in *.
  change (path_join cert_dir Certs.SERVER_CERT) with server_cert in *.
  assert (Hpem : is_file (path_join cert_dir CA_PEM) d' = false).
  { unfold is_file, at_path. rewrite ca_pem_path.
    rewrite (installs_other _ _ _ _ _ Hi); [by rewrite Hca|by apply (bool_decide_unpack _)|].
    unfold finals. rewrite place_in. by apply (bool_decide_unpack _). }
  unfold get_transport, file_setting, canonical. rewrite decide_True by done.
  rewrite Ha, Hn1, Hn2, Hn3, Hn4, Hn5, Hn6, Hn7, Hn8, Hn9, Hn10. cbn [or_else expect ok_or mbind result_bind].
  fold client_cert client_key server_cert server_key. rewrite H1, H2, H5, H6, Hpem. cbn [ok_or mbind result_bind].
  destruct (arg_insecure a); [|done]. cbn. by rewrite H3, H4, H7, H8, Htls.
Qed.
End startup.

Section startup_witness.
Import CertExample.

Definition bare_args (insecure : bool) : Args :=
  mkArgs None None None None None None None None (Some "/certs") None None None None insecure None None None None.

Lemma generated_certs_found_witness :
  get_transport is_file (λ p, path_exists p) (λ _ _, true) "tls" (bare_args false) config_builder_new (mkEnv None None)
    (Certs.cert_gen_action None (Some (cert_args {["force"]})) (cert_tree [] [], 0)).2.1 =
  Err (MainPanic "Must provide a valid file containing ca certs").
Proof.
  destruct (Certs.cert_gen_action None (Some (cert_args {["force"]})) (cert_tree [] [], 0)) as [r [d' w']] eqn:E.
  assert (r = Ok ()) as -> by (change r with (r, (d', w')).1; rewrite <- E; by vm_compute).
  apply (generated_certs_found (λ _ _, true) None (cert_args {["force"]}) (cert_tree [] []) 0 d' w'
    (bare_args false) config_builder_new (mkEnv None None)); try reflexivity; [|exact E|by split_and!].
  apply cert_tree_parents. by vm_compute.
Defined.
End startup_witness.
