(* ===== verification/CounterCli.v ===== *)
(** * The command line of the private counter

    Models [examples/private_counter/cli/src]: the requests that the command line makes
    and what it prints of the answers, over any stream and, composed with
    [PrivateCounter], over a connection to the service. *)

From stdpp Require Import gmap pretty.
From Stdlib Require Import ZArith Lia.
From S2P Require Import Prelude Framing Routes ExampleService PrivateCounter.

Module CounterCli.

Inductive CliError := UserError (msg : string) | IoError (msg : string) | InvalidSubcommand.

(** [Display for CliError], and [description] *)
Definition cli_error_display (e : CliError) : string :=
  match e with
  | UserError msg => "UserError: " +:+ msg
  | InvalidSubcommand => "Subcommand is not supported"
  | IoError msg => "IoError: " +:+ msg
  end.
Definition cli_error_description (e : CliError) : string :=
  match e with
  | UserError _ => "User provided invalid input"
  | InvalidSubcommand => "Subcommand is not supported"
  | IoError _ => "Received IO Error"
  end.

(** The socket, which is connected, written and read once, and the terminal; [cli_read]
    gives at most 512 bytes. *)
Class CliWorld (W : Type) := {
  cli_connect : string → eff W string ();
  cli_write : bytes → eff W string nat;
  cli_flush : eff W string ();
  cli_read : eff W string bytes;
  cli_println : string → W → W;
}.

Section cli.
Context {W : Type} {Hworld : CliWorld W}.

Definition io {A} (m : eff W string A) : eff W CliError A := emap_err IoError m.

(** The request is written, whether it is taken whole or not, and the buffer is read. *)
Definition exchange (request : bytes) : eff W CliError string :=
  _ ← io (cli_write request);
  _ ← io cli_flush;
  b ← io cli_read;
  mret (from_utf8_lossy (http_buffer b)).

Definition OK_HEADER : string := "HTTP/1.1 200 OK" +:+ CRLF +:+ CRLF.

Definition do_show (url : string) : eff W CliError () :=
  _ ← io (cli_connect url);
  response ← exchange "GET /show HTTP/1.1";
  if starts_with OK_HEADER response then
    modify (cli_println ("Value = " +:+ slice_from (String.length OK_HEADER) response))
  else modify (cli_println response).

Definition do_add (url value : string) : eff W CliError () :=
  _ ← io (cli_connect url);
  match parse_unsigned (2 ^ 32) value with
  | None => throw (UserError ("Value " +:+ value +:+ " cannot be parsed to u32"))
  | Some _ =>
      response ← exchange ("GET /add/" +:+ value +:+ " HTTP/1.1");
      if starts_with "HTTP/1.1 204 NO CONTENT" response then mret () else modify (cli_println response)
  end.

(** What [clap] found: the subcommand with the argument [value] *)
Inductive Subcommand := ShowCommand | AddCommand (value : option string) | OtherCommand.

Inductive RunError := RunError_ (e : CliError) | RunPanic.

(** [run]; [m.value_of("value").unwrap()] panics when [add] is given no value. *)
Definition run (url : option string) (sub : Subcommand) : eff W RunError () :=
  let url := default "localhost:8000" url in
  match sub with
  | ShowCommand => emap_err RunError_ (do_show url)
  | AddCommand (Some value) => emap_err RunError_ (do_add url value)
  | AddCommand None => throw RunPanic
  | OtherCommand => throw (RunError_ InvalidSubcommand)
  end.
End cli.

(** ** A connection to the service

    What was written is read by the service in one piece, and so is its answer; a service
    that fails ends the connection without one. *)
Record Loop := mkLoop { lp_server : ServiceState; lp_request : bytes; lp_printed : list string }.

#[export] Instance loop_world `{!CounterCrypto} : CliWorld Loop := {|
  cli_connect _ := mret ();
  cli_write b := λ w, (Ok (String.length b), mkLoop (lp_server w) b (lp_printed w));
  cli_flush := mret ();
  cli_read := λ w,
    let '(r, s) := handle_request (from_utf8_lossy (http_buffer (str_take 512 (lp_request w)))) (lp_server w) in
    (Ok (match r with Ok response => str_take 512 response | Err _ => "" end), mkLoop s (lp_request w) (lp_printed w));
  cli_println text := λ w, mkLoop (lp_server w) (lp_request w) (lp_printed w ++ [text]);
|}.

(** ** Texts *)

Definition is_ascii (s : string) : bool := forallb (in_range 0 127) (String.list_ascii_of_string s).

Lemma is_ascii_cons c s : is_ascii (String c s) = in_range 0 127 c && is_ascii s.
Proof. done. Qed.
Lemma is_ascii_app s t : is_ascii (s +:+ t) = is_ascii s && is_ascii t.
Proof. induction s as [|c s IH]; [done|]. change (String c s +:+ t) with (String c (s +:+ t)). by rewrite !is_ascii_cons, IH, andb_assoc. Qed.
Lemma is_ascii_zeros n : is_ascii (zeros n) = true.
Proof. by induction n. Qed.
Lemma lossy_ascii s : is_ascii s = true → from_utf8_lossy s = s.
Proof.
  induction s as [|c s IH]; [done|]. rewrite is_ascii_cons, andb_true_iff. intros [Hc Hs].
  cbn [from_utf8_lossy]. by rewrite Hc, IH.
Qed.

Lemma starts_with_app p s : starts_with p (p +:+ s) = true.
Proof. unfold starts_with. induction p as [|c p IH]; [by destruct s|]. rewrite str_app_cons.
  change (String.prefix _ _) with (if ascii_dec c c then String.prefix p (p +:+ s) else false).
  by destruct (ascii_dec c c).
Qed.
Lemma substring_app p s m : String.substring (String.length p) m (p +:+ s) = String.substring 0 m s.
Proof. by induction p. Qed.
Lemma substring_all s : String.substring 0 (String.length s) s = s.
Proof. induction s as [|c s IH]; [done|]. cbn. by rewrite IH. Qed.
Lemma slice_from_app p s : slice_from (String.length p) (p +:+ s) = s.
Proof.
  unfold slice_from. rewrite substring_app, str_length_app.
  replace (String.length p + String.length s - String.length p) with (String.length s) by lia. apply substring_all.
Qed.

Lemma plain_ascii s : plain s = true → is_ascii s = true.
Proof.
  induction s as [|c s IH]; [done|]. cbn [plain]. rewrite is_ascii_cons, !andb_true_iff. intros [Hc Hs].
  split; [|by apply IH]. unfold plain_char in Hc. unfold in_range. apply andb_true_iff. split; apply Nat.leb_le; [lia|].
  revert Hc. rewrite !orb_true_iff, !andb_true_iff, !Nat.leb_le. lia.
Qed.

(** The characters of a number that can be parsed *)
Definition number_char (c : ascii) : bool := in_range 48 57 c || bool_decide (c = "+"%char).
Lemma digits_chars m s acc v :
  parse_digits m s acc = Some v → forallb number_char (String.list_ascii_of_string s) = true.
Proof.
  revert acc. induction s as [|c s IH]; intros acc; [done|]. cbn [parse_digits]. unfold digit_of at 1.
  destruct (_ && _) eqn:Hc; cbn [mbind option_bind]; [|done]. destruct (_ <? _)%Z; [|done]. intros H.
  cbn. rewrite (IH _ H), andb_true_r. unfold number_char, in_range. apply orb_true_iff. left.
  revert Hc. rewrite !andb_true_iff, !Z.leb_le, !Nat.leb_le. lia.
Qed.
Lemma parse_chars m s v :
  parse_unsigned m s = Some v → forallb number_char (String.list_ascii_of_string s) = true.
Proof.
  unfold parse_unsigned. destruct s as [|c s]; [done|]. case_bool_decide as Hc; case_bool_decide; try done; intros Hp.
  - subst c. cbn. by eapply digits_chars.
  - by eapply digits_chars.
Qed.
Lemma number_no_space s n : forallb number_char (String.list_ascii_of_string s) = true → String.get n s ≠ Some " "%char.
Proof.
  revert n. induction s as [|c s IH]; intros n; [by destruct n|]. cbn [String.list_ascii_of_string forallb].
  rewrite andb_true_iff. intros [Hc Hs]. destruct n as [|n]; cbn; [|by apply IH]. by intros [= ->].
Qed.
Lemma number_ascii s : forallb number_char (String.list_ascii_of_string s) = true → is_ascii s = true.
Proof.
  unfold is_ascii. rewrite !forallb_forall. intros Hs c Hc. specialize (Hs c Hc). revert Hs. unfold number_char, in_range.
  rewrite !orb_true_iff, !andb_true_iff, !Nat.leb_le, bool_decide_eq_true. intros [Hn| ->]; [lia|]. change (nat_of_ascii "+") with 43. lia.
Qed.

Lemma before_space_number s t :
  forallb number_char (String.list_ascii_of_string s) = true → before_space (s +:+ String " " t) = Some s.
Proof.
  intros Hs. unfold before_space. rewrite split_on_app by (intros n; by apply number_no_space).
  destruct (split_on " " t) eqn:Ht; [|done]. by destruct t; cbn in Ht; repeat case_match.
Qed.

Lemma pretty_go_length k n s : (n < 10 ^ N.of_nat k)%N → String.length (pretty_N_go n s) ≤ k + String.length s.
Proof.
  revert n s. induction k as [|k IH]; intros n s Hn.
  - assert (n = 0%N) as -> by (cbn in Hn; lia). by rewrite pretty_N_go_0.
  - destruct (decide (n = 0)%N) as [->|Hpos]; [rewrite pretty_N_go_0; lia|]. rewrite pretty_N_go_step by lia.
    etrans; [apply IH|cbn; lia]. apply N.Div0.div_lt_upper_bound. rewrite Nat2N.inj_succ, N.pow_succ_r' in Hn. lia.
Qed.
Lemma pretty_length k z : (0 ≤ z < 10 ^ Z.of_nat (S k))%Z → String.length (pretty z) ≤ S k.
Proof.
  intros [H1 H2]. destruct z as [|p|p]; [cbn; lia| |lia]. change (pretty (Z.pos p)) with (pretty (N.pos p)).
  unfold pretty, pretty_N. rewrite decide_False by done.
  rewrite (pretty_go_length (S k)); [cbn; lia|]. apply N2Z.inj_lt. rewrite N2Z.inj_pow. by rewrite nat_N_Z.
Qed.

(** ** Requests *)

Section requests.
Context {Hcrypto : CounterCrypto}.
Implicit Types w : Loop.

Lemma http_buffer_length b : String.length b ≤ 512 → String.length (http_buffer b) = 512.
Proof. intros Hb. unfold http_buffer. rewrite str_length_app. assert (∀ n, String.length (zeros n) = n) as -> by (induction n; cbn; congruence). lia. Qed.

(** A request that fits in the buffer and is ASCII, and such an answer *)
Lemma exchange_loop request w :
  is_ascii request = true → String.length request ≤ 512 →
  exchange request w =
    let '(r, s) := handle_request (http_buffer request) (lp_server w) in
    (Ok (from_utf8_lossy (http_buffer (match r with Ok response => str_take 512 response | Err _ => "" end))),
     mkLoop s request (lp_printed w)).
Proof.
  intros Hr Hl. unfold exchange, io, emap_err, mbind, eff_bind.
  cbn [cli_write cli_flush cli_read loop_world mret eff_ret map_err lp_request lp_server lp_printed].
  rewrite (str_take_ge 512 request), (lossy_ascii (http_buffer request)) by
    (try done; unfold http_buffer; by rewrite is_ascii_app, Hr, is_ascii_zeros).
  by destruct (handle_request _ _) as [[r|e] s].
Qed.
Lemma response_read response :
  is_ascii response = true → String.length response ≤ 512 →
  from_utf8_lossy (http_buffer (str_take 512 response)) = http_buffer response.
Proof.
  intros Ha Hl. rewrite str_take_ge by done. unfold http_buffer. by rewrite lossy_ascii by (by rewrite is_ascii_app, Ha, is_ascii_zeros).
Qed.

(** [show] prints the count of the service, and after it what was left of the buffer. *)
Theorem show_prints_count url w :
  (0 ≤ sst_counter (lp_server w) < 2 ^ 32)%Z →
  ∃ n, do_show url w =
    (Ok (), mkLoop (lp_server w) "GET /show HTTP/1.1"
      (lp_printed w ++ ["Value = " +:+ pretty (sst_counter (lp_server w)) +:+ zeros n])).
Proof.
  intros Hc. set (response := respond 200 "OK" (Some (pretty (sst_counter (lp_server w))))).
  assert (Hresp : response = OK_HEADER +:+ pretty (sst_counter (lp_server w))) by done.
  exists (512 - String.length response). unfold do_show.
  rewrite (eff_bind_ok _ _ _ () w) by done.
  rewrite (eff_bind_ok _ _ _ (http_buffer response) (mkLoop (lp_server w) "GET /show HTTP/1.1" (lp_printed w))).
  - rewrite Hresp. unfold http_buffer. rewrite str_app_assoc, starts_with_app, slice_from_app. done.
  - rewrite exchange_loop by (done || (cbn; lia)).
    change (handle_request _ _) with (@Ok ExampleService.ServiceError _ response, lp_server w). cbn beta iota. rewrite response_read; [done|rewrite Hresp..].
    + rewrite is_ascii_app. apply andb_true_iff. split; [done|]. apply plain_ascii, plain_pretty. lia.
    + rewrite str_length_app. pose proof (pretty_length 9 (sst_counter (lp_server w))). change (String.length OK_HEADER) with 19. lia.
Qed.

(** The request for an increment, as the service reads it *)
Lemma add_request value v :
  parse_unsigned (2 ^ 32) value = Some v →
  starts_with "GET / " (http_buffer ("GET /add/" +:+ value +:+ " HTTP/1.1")) = false ∧
  starts_with "GET /add/" (http_buffer ("GET /add/" +:+ value +:+ " HTTP/1.1")) = true ∧
  before_space (slice_from (String.length "GET /add/") (http_buffer ("GET /add/" +:+ value +:+ " HTTP/1.1"))) = Some value.
Proof.
  intros Hv. unfold http_buffer. rewrite !str_app_assoc. split; [done|]. split; [apply starts_with_app|].
  rewrite slice_from_app. by apply before_space_number, (parse_chars (2 ^ 32) _ v).
Qed.

(** [add] of a number proposes that increment to the service and prints nothing; of
    anything else, it tells the service nothing. *)
Theorem add_proposes_increment url value w :
  String.length value ≤ 494 →
  do_add url value w =
    match parse_unsigned (2 ^ 32) value with
    | None => (Err (UserError ("Value " +:+ value +:+ " cannot be parsed to u32")), w)
    | Some v =>
        let request := "GET /add/" +:+ value +:+ " HTTP/1.1" in
        match count_hash (wrap_u32 (sst_counter (lp_server w) + v)) with
        | Ok h => (Ok (), mkLoop (set_increments (<[h := v]>) (lp_server w)) request (lp_printed w))
        | Err _ => (Ok (), mkLoop (lp_server w) request (lp_printed w ++ [zeros 512]))
        end
    end.
Proof.
  intros Hl. unfold do_add. rewrite (eff_bind_ok _ _ _ () w) by done.
  destruct (parse_unsigned (2 ^ 32) value) as [v|] eqn:Hv; [|done].
  destruct (add_request value v Hv) as (H1&H2&H3).
  set (request := "GET /add/" +:+ value +:+ " HTTP/1.1") in *.
  assert (Ha : is_ascii request = true).
  { unfold request. rewrite !is_ascii_app, (number_ascii value) by (by eapply parse_chars). done. }
  assert (Hlen : String.length request ≤ 512) by (unfold request; rewrite !str_length_app; cbn; lia).
  cbn zeta. destruct (count_hash _) as [h|e] eqn:Hh.
  - rewrite (eff_bind_ok _ _ _ (http_buffer (respond 204 "NO CONTENT" None))
      (mkLoop (set_increments (<[h := v]>) (lp_server w)) request (lp_printed w))); [done|].
    assert (handle_request (http_buffer request) (lp_server w) =
      (Ok (respond 204 "NO CONTENT" None), set_increments (<[h := v]>) (lp_server w))) as Hr.
    { unfold handle_request. rewrite H1, H2, H3, Hv. unfold mbind, eff_bind, get, lift. by rewrite Hh. }
    rewrite exchange_loop, Hr by done. by rewrite response_read by (try done; apply Nat.leb_le; by vm_compute).
  - rewrite (eff_bind_ok _ _ _ (zeros 512) (mkLoop (lp_server w) request (lp_printed w))); [done|].
    rewrite exchange_loop by done.
    unfold handle_request. rewrite H1, H2, H3, Hv. unfold mbind, eff_bind, get, lift. by rewrite Hh.
Qed.
End requests.
End CounterCli.
