(* ===== verification/GameroomDatabase.v ===== *)
(** * The database of the gameroom example

    Models [examples/gameroom/database]: the tables ([tables/gameroom_tables.sql],
    [src/models.rs]) and the queries on them ([src/helpers]).  A table is the list of its
    rows, in the order of their insertion, with the sequence that numbers them; a query
    is what its SQL statement means: an insertion checks the primary and the foreign
    keys, and inserts all of its rows or none.  No query asks for an order: the rows come
    in the order of their insertion, which is one of those the database may give.  Times
    are kept as they are, while the database rounds them to microseconds. *)

From S2P Require Import Prelude.
From Stdlib Require Import Lia ZArith.

(** ** Rows ([models.rs]) *)

Record GameroomUser := mkGameroomUser {
  gu_email : string;
  gu_public_key : string;
  gu_encrypted_private_key : string;
  gu_hashed_password : string;
}.

Record Gameroom := mkGameroom {
  g_circuit_id : string;
  g_authorization_type : string;
  g_persistence : string;
  g_durability : string;
  g_routes : string;
  g_circuit_management_type : string;
  g_alias : string;
  g_status : string;
  g_created_time : Z;
  g_updated_time : Z;
}.

Record NewGameroomProposal := mkNewGameroomProposal {
  ngp_proposal_type : string;
  ngp_circuit_id : string;
  ngp_circuit_hash : string;
  ngp_requester : string;
  ngp_requester_node_id : string;
  ngp_status : string;
  ngp_created_time : Z;
  ngp_updated_time : Z;
}.
(** A row with a number is that number and the row that was inserted. *)
Record Numbered (A : Type) := mkNumbered { row_id : Z; row_data : A }.
Arguments mkNumbered {A} row_id row_data.
Arguments row_id {A} n.
Arguments row_data {A} n.
Definition GameroomProposal : Type := Numbered NewGameroomProposal.

Record NewProposalVoteRecord := mkNewProposalVoteRecord {
  nvr_proposal_id : Z;
  nvr_voter_public_key : string;
  nvr_voter_node_id : string;
  nvr_vote : string;
  nvr_created_time : Z;
}.
Definition ProposalVoteRecord : Type := Numbered NewProposalVoteRecord.

Record NewGameroomMember := mkNewGameroomMember {
  ngm_circuit_id : string;
  ngm_node_id : string;
  ngm_endpoint : string;
  ngm_status : string;
  ngm_created_time : Z;
  ngm_updated_time : Z;
}.
Definition GameroomMember : Type := Numbered NewGameroomMember.

(** An argument is the JSON object of a key and a value. *)
Record NewGameroomService := mkNewGameroomService {
  ngs_circuit_id : string;
  ngs_service_id : string;
  ngs_service_type : string;
  ngs_allowed_nodes : list string;
  ngs_arguments : list (string * string);
  ngs_status : string;
  ngs_created_time : Z;
  ngs_updated_time : Z;
}.
Definition GameroomService : Type := Numbered NewGameroomService.

Record NewGameroomNotification := mkNewGameroomNotification {
  ngn_notification_type : string;
  ngn_requester : string;
  ngn_requester_node_id : string;
  ngn_target : string;
  ngn_created_time : Z;
  ngn_read : bool;
}.
Definition GameroomNotification : Type := Numbered NewGameroomNotification.

Record NewXoGame := mkNewXoGame {
  nxg_circuit_id : string;
  nxg_game_name : string;
  nxg_player_1 : string;
  nxg_player_2 : string;
  nxg_game_status : string;
  nxg_game_board : string;
  nxg_created_time : Z;
  nxg_updated_time : Z;
}.
Definition XoGame : Type := Numbered NewXoGame.

Record ActiveGameroom := mkActiveGameroom {
  ag_circuit_id : string;
  ag_service_id : string;
  ag_status : string;
  ag_requester : string;
  ag_requester_node_id : string;
}.

(** ** Tables *)

(** A table with the column [id BIGSERIAL PRIMARY KEY] *)
Record Table (A : Type) := mkTable { tb_rows : list (Numbered A); tb_next : Z }.
Arguments mkTable {A} tb_rows tb_next.
Arguments tb_rows {A} t.
Arguments tb_next {A} t.

(** [INSERT] of several rows *)
Fixpoint insert_rows {A} (rows : list A) (t : Table A) : Table A :=
  match rows with
  | [] => t
  | row :: rows => insert_rows rows (mkTable (tb_rows t ++ [mkNumbered (tb_next t) row]) (tb_next t + 1))
  end.
(** [UPDATE .. SET .. WHERE ..] *)
Definition update_rows {A} (where_ : Numbered A → bool) (set : A → A) (t : Table A) : Table A :=
  mkTable ((λ r, if where_ r then mkNumbered (row_id r) (set (row_data r)) else r) <$> tb_rows t) (tb_next t).
(** [SELECT .. WHERE ..] *)
Definition select_rows {A} (where_ : A → bool) (rows : list A) : list A := base.filter (λ r, where_ r = true) rows.
(** [first], with [NotFound] turned into [None] *)
Definition first_row {A} (where_ : A → bool) (rows : list A) : option A := head (select_rows where_ rows).

Record Database := mkDatabase {
  db_user : list GameroomUser;
  db_gameroom : list Gameroom;
  db_proposal : Table NewGameroomProposal;
  db_vote_record : Table NewProposalVoteRecord;
  db_member : Table NewGameroomMember;
  db_service : Table NewGameroomService;
  db_notification : Table NewGameroomNotification;
  db_xo_game : Table NewXoGame;
}.
Definition empty_table {A} : Table A := mkTable [] 1.
Definition database_new : Database :=
  mkDatabase [] [] empty_table empty_table empty_table empty_table empty_table empty_table.

Definition set_user l d := mkDatabase l (db_gameroom d) (db_proposal d) (db_vote_record d) (db_member d) (db_service d) (db_notification d) (db_xo_game d).
Definition set_gameroom l d := mkDatabase (db_user d) l (db_proposal d) (db_vote_record d) (db_member d) (db_service d) (db_notification d) (db_xo_game d).
Definition set_proposal t d := mkDatabase (db_user d) (db_gameroom d) t (db_vote_record d) (db_member d) (db_service d) (db_notification d) (db_xo_game d).
Definition set_vote_record t d := mkDatabase (db_user d) (db_gameroom d) (db_proposal d) t (db_member d) (db_service d) (db_notification d) (db_xo_game d).
Definition set_member t d := mkDatabase (db_user d) (db_gameroom d) (db_proposal d) (db_vote_record d) t (db_service d) (db_notification d) (db_xo_game d).
Definition set_service t d := mkDatabase (db_user d) (db_gameroom d) (db_proposal d) (db_vote_record d) (db_member d) t (db_notification d) (db_xo_game d).
Definition set_notification t d := mkDatabase (db_user d) (db_gameroom d) (db_proposal d) (db_vote_record d) (db_member d) (db_service d) t (db_xo_game d).
Definition set_xo_game t d := mkDatabase (db_user d) (db_gameroom d) (db_proposal d) (db_vote_record d) (db_member d) (db_service d) (db_notification d) t.

(** A violated constraint; a connection that cannot be had *)
Inductive DatabaseError := DbConnectionError | DbQueryError.

Abbreviation query A := (eff Database DatabaseError A).

(** [LIMIT .. OFFSET ..]: a negative number is an error. *)
Definition page {A} (limit offset : Z) (rows : list A) : result DatabaseError (list A) :=
  if ((limit <? 0) || (offset <? 0))%Z then Err DbQueryError
  else Ok (take (Z.to_nat limit) (drop (Z.to_nat offset) rows)).

Definition require (b : bool) : query () := if b then mret () else throw DbQueryError.
Definition has_gameroom (circuit_id : string) (d : Database) : bool :=
  existsb (λ g, bool_decide (g_circuit_id g = circuit_id)) (db_gameroom d).

(** [INSERT] into a table with a foreign key, which is checked when the rows have their
    numbers: the rows of a statement that fails are gone, their numbers are used. *)
Definition rollback_table {A} (before after : Table A) : Table A := mkTable (tb_rows before) (tb_next after).
Definition insert_checked {A} (table : Database → Table A) (set : Table A → Database → Database)
    (key_exists : A → Database → bool) (rows : list A) : query () := λ d,
  let t := insert_rows rows (table d) in
  if forallb (λ row, key_exists row d) rows then (Ok (), set t d)
  else (Err DbQueryError, set (rollback_table (table d) t) d).

(** [Connection::transaction]: an error rolls all tables back, but not their sequences. *)
Definition rollback (before after : Database) : Database :=
  mkDatabase (db_user before) (db_gameroom before) (rollback_table (db_proposal before) (db_proposal after))
    (rollback_table (db_vote_record before) (db_vote_record after)) (rollback_table (db_member before) (db_member after))
    (rollback_table (db_service before) (db_service after)) (rollback_table (db_notification before) (db_notification after))
    (rollback_table (db_xo_game before) (db_xo_game after)).
Definition transaction {W E A} (m : eff (Database * W) E A) : eff (Database * W) E A := λ s,
  match m s with
  | (Ok a, s') => (Ok a, s')
  | (Err e, (d', w')) => (Err e, (rollback s.1 d', w'))
  end.

(** ** [helpers/gameroom.rs] *)

Definition fetch_proposal_by_id (id : Z) (d : Database) : option GameroomProposal :=
  first_row (λ r, bool_decide (row_id r = id)) (tb_rows (db_proposal d)).

Definition fetch_gameroom_members_by_circuit_id_and_status (circuit_id status : string) (d : Database) :
    list GameroomMember :=
  select_rows (λ r, bool_decide (ngm_circuit_id (row_data r) = circuit_id) && bool_decide (ngm_status (row_data r) = status))
    (tb_rows (db_member d)).

Definition list_proposals_with_paging (limit offset : Z) (d : Database) :
    result DatabaseError (list GameroomProposal) :=
  page limit offset (tb_rows (db_proposal d)).
Definition get_proposal_count (d : Database) : Z := Z.of_nat (length (tb_rows (db_proposal d))).

Definition list_gameroom_members_with_status (status : string) (d : Database) : list GameroomMember :=
  select_rows (λ r, bool_decide (ngm_status (row_data r) = status)) (tb_rows (db_member d)).

Definition insert_gameroom_proposal (proposal : NewGameroomProposal) : query () :=
  insert_checked db_proposal set_proposal (λ p, has_gameroom (ngp_circuit_id p)) [proposal].

Definition insert_gameroom (gameroom : Gameroom) : query () :=
  d ← get;
  require (negb (has_gameroom (g_circuit_id gameroom) d));;
  modify (set_gameroom (db_gameroom d ++ [gameroom])).

Definition with_proposal_status (status : string) (time : Z) (p : NewGameroomProposal) : NewGameroomProposal :=
  mkNewGameroomProposal (ngp_proposal_type p) (ngp_circuit_id p) (ngp_circuit_hash p) (ngp_requester p)
    (ngp_requester_node_id p) status (ngp_created_time p) time.
Definition update_gameroom_proposal_status (proposal_id : Z) (updated_time : Z) (status : string) : query () :=
  modify (λ d, set_proposal (update_rows (λ r, bool_decide (row_id r = proposal_id))
    (with_proposal_status status updated_time) (db_proposal d)) d).

Definition gameroom_service_is_active (circuit_id : string) (d : Database) : bool :=
  match first_row (λ r, bool_decide (ngs_circuit_id (row_data r) = circuit_id) && bool_decide (ngs_status (row_data r) = "Active"))
    (tb_rows (db_service d)) with
  | Some _ => true
  | None => false
  end.

(** The join of services and proposals on the circuit *)
Definition fetch_active_gamerooms (node_id : string) (d : Database) : list ActiveGameroom :=
  s ← tb_rows (db_service d);
  p ← tb_rows (db_proposal d);
  if bool_decide (ngs_circuit_id (row_data s) = ngp_circuit_id (row_data p)) &&
     bool_decide (ngs_status (row_data s) = "Active") && bool_decide (node_id ∈ ngs_allowed_nodes (row_data s))
  then [mkActiveGameroom (ngs_circuit_id (row_data s)) (ngs_service_id (row_data s)) (ngs_status (row_data s))
          (ngp_requester (row_data p)) (ngp_requester_node_id (row_data p))]
  else [].

Definition with_gameroom_status (status : string) (time : Z) (g : Gameroom) : Gameroom :=
  mkGameroom (g_circuit_id g) (g_authorization_type g) (g_persistence g) (g_durability g) (g_routes g)
    (g_circuit_management_type g) (g_alias g) status (g_created_time g) time.
Definition update_gameroom_status (circuit_id : string) (updated_time : Z) (status : string) : query () :=
  modify (λ d, set_gameroom ((λ g, if bool_decide (g_circuit_id g = circuit_id)
    then with_gameroom_status status updated_time g else g) <$> db_gameroom d) d).

Definition with_member_status (status : string) (time : Z) (m : NewGameroomMember) : NewGameroomMember :=
  mkNewGameroomMember (ngm_circuit_id m) (ngm_node_id m) (ngm_endpoint m) status (ngm_created_time m) time.
Definition update_gameroom_member_status (circuit_id : string) (updated_time : Z) (old_status new_status : string) : query () :=
  modify (λ d, set_member (update_rows
    (λ r, bool_decide (ngm_circuit_id (row_data r) = circuit_id) && bool_decide (ngm_status (row_data r) = old_status))
    (with_member_status new_status updated_time) (db_member d)) d).

Definition with_service_status (status : string) (time : Z) (s : NewGameroomService) : NewGameroomService :=
  mkNewGameroomService (ngs_circuit_id s) (ngs_service_id s) (ngs_service_type s) (ngs_allowed_nodes s)
    (ngs_arguments s) status (ngs_created_time s) time.
Definition update_gameroom_service_status (circuit_id : string) (updated_time : Z) (old_status new_status : string) : query () :=
  modify (λ d, set_service (update_rows
    (λ r, bool_decide (ngs_circuit_id (row_data r) = circuit_id) && bool_decide (ngs_status (row_data r) = old_status))
    (with_service_status new_status updated_time) (db_service d)) d).

Definition insert_proposal_vote_record (vote_records : list NewProposalVoteRecord) : query () :=
  insert_checked db_vote_record set_vote_record
    (λ v d, existsb (λ r, bool_decide (row_id r = nvr_proposal_id v)) (tb_rows (db_proposal d))) vote_records.

Definition insert_gameroom_services (gameroom_services : list NewGameroomService) : query () :=
  insert_checked db_service set_service (λ s, has_gameroom (ngs_circuit_id s)) gameroom_services.

Definition insert_gameroom_members (gameroom_members : list NewGameroomMember) : query () :=
  insert_checked db_member set_member (λ m, has_gameroom (ngm_circuit_id m)) gameroom_members.

Definition fetch_gameroom_proposal_with_status (circuit_id status : string) (d : Database) : option GameroomProposal :=
  first_row (λ r, bool_decide (ngp_circuit_id (row_data r) = circuit_id) && bool_decide (ngp_status (row_data r) = status))
    (tb_rows (db_proposal d)).

Definition list_gamerooms_with_paging_and_status (status : string) (limit offset : Z) (d : Database) :
    result DatabaseError (list Gameroom) :=
  page limit offset (select_rows (λ g, bool_decide (g_status g = status)) (db_gameroom d)).
Definition get_gameroom_count (d : Database) : Z := Z.of_nat (length (db_gameroom d)).
Definition list_gamerooms_with_paging (limit offset : Z) (d : Database) :
    result DatabaseError (list Gameroom) :=
  page limit offset (db_gameroom d).
Definition fetch_gameroom (circuit_id : string) (d : Database) : option Gameroom :=
  first_row (λ g, bool_decide (g_circuit_id g = circuit_id)) (db_gameroom d).
Definition fetch_gameroom_by_alias (alias : string) (d : Database) : option Gameroom :=
  first_row (λ g, bool_decide (g_alias g = alias)) (db_gameroom d).

(** ** [helpers/notification.rs] *)

Definition fetch_notification (notification_id : Z) (d : Database) : option GameroomNotification :=
  first_row (λ r, bool_decide (row_id r = notification_id)) (tb_rows (db_notification d)).

Definition list_unread_notifications_with_paging (limit offset : Z) (d : Database) :
    result DatabaseError (list GameroomNotification) :=
  page limit offset (select_rows (λ r, negb (ngn_read (row_data r))) (tb_rows (db_notification d))).

Definition as_read (n : NewGameroomNotification) : NewGameroomNotification :=
  mkNewGameroomNotification (ngn_notification_type n) (ngn_requester n) (ngn_requester_node_id n) (ngn_target n)
    (ngn_created_time n) true.
Definition update_gameroom_notification (notification_id : Z) : query (option GameroomNotification) :=
  modify (λ d, set_notification (update_rows (λ r, bool_decide (row_id r = notification_id)) as_read (db_notification d)) d);;
  d ← get;
  mret (fetch_notification notification_id d).

Definition insert_gameroom_notification (notifications : list NewGameroomNotification) : query () :=
  modify (λ d, set_notification (insert_rows notifications (db_notification d)) d).

(** [now] is the time at which it is created. *)
Definition create_new_notification (notification_type requester requester_node_id target : string) (now : Z) :
    NewGameroomNotification :=
  mkNewGameroomNotification notification_type requester requester_node_id target now false.

Definition get_unread_notification_count (d : Database) : Z :=
  Z.of_nat (length (select_rows (λ r, negb (ngn_read (row_data r))) (tb_rows (db_notification d)))).

Definition fetch_notifications_by_time (current_check_time previous_check_time : Z) (d : Database) :
    list GameroomNotification :=
  select_rows (λ r, (previous_check_time <=? ngn_created_time (row_data r))%Z &&
                    (ngn_created_time (row_data r) <=? current_check_time)%Z)
    (tb_rows (db_notification d)).

(** ** [helpers/xo_games.rs] *)

Definition list_xo_games (circuit_id : string) (limit offset : Z) (d : Database) :
    result DatabaseError (list XoGame) :=
  page limit offset (select_rows (λ r, bool_decide (nxg_circuit_id (row_data r) = circuit_id)) (tb_rows (db_xo_game d))).

Definition is_game (circuit_id name : string) (r : XoGame) : bool :=
  bool_decide (nxg_game_name (row_data r) = name) && bool_decide (nxg_circuit_id (row_data r) = circuit_id).
Definition fetch_xo_game (circuit_id name : string) (d : Database) : option XoGame :=
  first_row (is_game circuit_id name) (tb_rows (db_xo_game d)).

Definition insert_xo_game (game : NewXoGame) : query () :=
  insert_checked db_xo_game set_xo_game (λ g, has_gameroom (nxg_circuit_id g)) [game].

(** All columns but the number are set. *)
Definition update_xo_game (updated_game : XoGame) : query () :=
  modify (λ d, set_xo_game (update_rows
    (is_game (nxg_circuit_id (row_data updated_game)) (nxg_game_name (row_data updated_game)))
    (λ _, row_data updated_game) (db_xo_game d)) d).

Definition get_xo_game_count (d : Database) : Z := Z.of_nat (length (tb_rows (db_xo_game d))).

(** ** [helpers/gameroom_user.rs] *)

Definition fetch_user_by_email (email : string) (d : Database) : option GameroomUser :=
  first_row (λ u, bool_decide (gu_email u = email)) (db_user d).

Definition insert_user (user : GameroomUser) : query () :=
  d ← get;
  require (negb (existsb (λ u, bool_decide (gu_email u = gu_email user)) (db_user d)));;
  modify (set_user (db_user d ++ [user])).
