(* ===== verification/GameroomSabre.v ===== *)
(** * The transactions of the gameroom daemon

    Models [examples/gameroom/daemon/src/application_metadata] and
    [authorization_handler/sabre.rs]: the batch that sets up the XO contract of a new
    gameroom.  The Sabre and Sawtooth libraries (payloads, protobuf messages, keys and
    signatures), the file of the contract and the clock are the class [Sabre]. *)

From stdpp Require Import pretty.
From S2P Require Import Prelude Hex WebSocket.
From Stdlib Require Import Lia ZArith.

(** ** Application metadata *)

Record ApplicationMetadata := mkApplicationMetadata {
  md_alias : string;
  md_scabbard_admin_keys : list string;
}.
Inductive ApplicationMetadataError := SerializationError | DeserializationError.

(** [serde_json] *)
Class MetadataJson := {
  metadata_from_slice : bytes → option ApplicationMetadata;
  metadata_to_vec : ApplicationMetadata → option bytes;
}.
Definition metadata_new (alias : string) (scabbard_admin_keys : list string) : ApplicationMetadata :=
  mkApplicationMetadata alias scabbard_admin_keys.
Definition metadata_from_bytes `{!MetadataJson} (b : bytes) : result ApplicationMetadataError ApplicationMetadata :=
  ok_or DeserializationError (metadata_from_slice b).
Definition metadata_to_bytes `{!MetadataJson} (m : ApplicationMetadata) : result ApplicationMetadataError bytes :=
  ok_or SerializationError (metadata_to_vec m).

(** ** Errors.  The text of an error of a library is left out. *)

Inductive AppAuthHandlerError :=
  | IOError
  | InvalidMessageError (msg : string)
  | AppDatabaseError (msg : string)
  | AppReactorError (e : ReactorError)
  | AppWebSocketError (e : WebSocketError)
  | SabreError (msg : string)
  | SawtoothError (msg : string)
  | SigningError
  | BatchSubmitError.

Definition metadata_error (e : ApplicationMetadataError) : AppAuthHandlerError :=
  InvalidMessageError (match e with
                       | SerializationError => "Failed to serialize ApplicationMetadata: "
                       | DeserializationError => "Failed to deserialize ApplicationMetadata: "
                       end).

(** ** Constants *)

Definition SABRE_FAMILY_NAME : string := "sabre".
Definition SABRE_FAMILY_VERSION : string := "0.4".
Definition NAMESPACE_REGISTRY_PREFIX : string := "00ec00".
Definition CONTRACT_REGISTRY_PREFIX : string := "00ec01".
Definition CONTRACT_PREFIX : string := "00ec02".
Definition SMART_PERMISSION_PREFIX : string := "00ec03".
Definition PIKE_PREFIX : string := "cad11d".
Definition XO_NAME : string := "xo".
Definition XO_VERSION : string := "0.3.3".
Definition XO_PREFIX : string := "5b7349".
Definition XO_CONTRACT_PATH : string := "/var/lib/gameroomd/xo-tp-rust.wasm".

(** ** Actions, transactions and batches *)

Inductive SabreAction :=
  | CreateContractRegistry (name : string) (owners : list string)
  | CreateContract (name version : string) (inputs outputs : list string) (contract : bytes)
  | CreateNamespaceRegistry (namespace : string) (owners : list string)
  | CreateNamespaceRegistryPermission (namespace contract_name : string) (read write : bool).

Record TransactionHeader := mkTransactionHeader {
  th_family_name : string;
  th_family_version : string;
  th_nonce : string;
  th_signer_public_key : string;
  th_batcher_public_key : string;
  th_inputs : list string;
  th_outputs : list string;
  th_payload_sha512 : string;
}.
Record SawtoothTransaction := mkSawtoothTransaction {
  txn_header : bytes;
  txn_header_signature : string;
  txn_payload : bytes;
}.
Record BatchHeader := mkBatchHeader {
  bh_signer_public_key : string;
  bh_transaction_ids : list string;
}.
Record SawtoothBatch := mkSawtoothBatch {
  sb_header : bytes;
  sb_header_signature : string;
  sb_transactions : list SawtoothTransaction;
}.

(** What the code uses of the libraries: the bytes of a payload, when its action is
    complete; the bytes of the messages; the signer of a private key in hexadecimal form,
    its public key and its signatures; a request to the URL, and the future that is done;
    the time that passed since the start of the measurement, and the file of the contract *)
Class Sabre (W Signer : Type) := {
  sabre_sha512 : bytes → bytes;
  administrators_setting_address : string;
  sabre_payload : SabreAction → option bytes;
  write_transaction_header : TransactionHeader → option bytes;
  write_batch_header : BatchHeader → option bytes;
  write_batch_list : list SawtoothBatch → option bytes;
  signer_of : string → option Signer;
  signer_public_key : Signer → option string;
  signer_sign : Signer → bytes → option string;
  post_request : string → bytes → option nat;
  future_ok : nat;
  instant_elapsed : W → (Z * Z) * W;
  open_file : string → eff W () ();
  read_to_end : eff W () bytes;
}.

Section sabre.
Context {W Signer : Type} `{HS : !Sabre W Signer}.

Abbreviation sabre_eff := (eff W AppAuthHandlerError).

Definition bytes_to_hex_str (b : bytes) : string := to_hex b.

(** [s.get(..6)], and [s[..6]] where the character after it panics *)
Definition first_six (s : string) : option string :=
  if (6 <=? String.length s)%nat && at_boundary (slice_from 6 s) then Some (String.substring 0 6 s) else None.

(** The address of 70 characters in a namespace *)
Definition hash_address (prefix : string) (b : bytes) : string :=
  prefix +:+ String.substring 0 64 (bytes_to_hex_str (sabre_sha512 b)).
Definition compute_namespace_registry_address (namespace : string) : result AppAuthHandlerError string :=
  prefix ← ok_or (SabreError ("Namespace must be at least 6 characters long: " +:+ namespace)) (first_six namespace);
  mret (hash_address NAMESPACE_REGISTRY_PREFIX prefix).
Definition compute_contract_registry_address (name : string) : string := hash_address CONTRACT_REGISTRY_PREFIX name.
Definition compute_contract_address (name version : string) : string :=
  hash_address CONTRACT_PREFIX (name +:+ "," +:+ version).
Definition get_xo_contract_address : string := compute_contract_address XO_NAME XO_VERSION.

Definition create_nonce : sabre_eff string := λ w,
  let '((secs, subsec_nanos), w) := instant_elapsed w in (Ok (pretty secs +:+ pretty subsec_nanos), w).

Definition create_txn (addresses : list string) (payload : bytes) (signer : Signer) : sabre_eff SawtoothTransaction :=
  public_key ← lift (ok_or SigningError (signer_public_key signer));
  nonce ← create_nonce;
  let header := mkTransactionHeader SABRE_FAMILY_NAME SABRE_FAMILY_VERSION nonce public_key public_key
    addresses addresses (bytes_to_hex_str (sabre_sha512 payload)) in
  header_bytes ← lift (ok_or (SawtoothError "failed to serialize transaction header to bytes: ")
                         (write_transaction_header header));
  signature ← lift (ok_or SigningError (signer_sign signer header_bytes));
  mret (mkSawtoothTransaction header_bytes signature payload).

Definition payload_of (action : SabreAction) : result AppAuthHandlerError bytes :=
  ok_or (SabreError "") (sabre_payload action).

Definition create_contract_registry_txn (owners : list string) (signer : Signer) : sabre_eff SawtoothTransaction :=
  payload ← lift (payload_of (CreateContractRegistry XO_NAME owners));
  create_txn [compute_contract_registry_address XO_NAME; administrators_setting_address] payload signer.

Definition upload_contract_txn (signer : Signer) : sabre_eff SawtoothTransaction :=
  emap_err (λ _, SabreError "Failed to load contract: ") (open_file XO_CONTRACT_PATH);;
  contract ← emap_err (λ _, SabreError "IoError while reading contract: ") read_to_end;
  let action_addresses := [SMART_PERMISSION_PREFIX; PIKE_PREFIX; XO_PREFIX] in
  payload ← lift (payload_of (CreateContract XO_NAME XO_VERSION action_addresses action_addresses contract));
  create_txn [compute_contract_registry_address XO_NAME; compute_contract_address XO_NAME XO_VERSION] payload signer.

(** The transactions of the namespaces *)
Definition create_namespace_registry_txn (namespace : string) (owners : list string) (signer : Signer) :
    sabre_eff SawtoothTransaction :=
  payload ← lift (payload_of (CreateNamespaceRegistry namespace owners));
  address ← lift (compute_namespace_registry_address namespace);
  create_txn [address; administrators_setting_address] payload signer.
Definition namespace_permissions_txn (namespace : string) (write : bool) (signer : Signer) :
    sabre_eff SawtoothTransaction :=
  payload ← lift (payload_of (CreateNamespaceRegistryPermission namespace XO_NAME true write));
  address ← lift (compute_namespace_registry_address namespace);
  create_txn [address; administrators_setting_address] payload signer.
Definition create_xo_namespace_registry_txn : list string → Signer → sabre_eff SawtoothTransaction :=
  create_namespace_registry_txn XO_PREFIX.
Definition xo_namespace_permissions_txn : Signer → sabre_eff SawtoothTransaction :=
  namespace_permissions_txn XO_PREFIX true.
Definition create_pike_namespace_registry_txn : list string → Signer → sabre_eff SawtoothTransaction :=
  create_namespace_registry_txn PIKE_PREFIX.
Definition pike_namespace_permissions_txn : Signer → sabre_eff SawtoothTransaction :=
  namespace_permissions_txn PIKE_PREFIX false.

Definition create_batch (txns : list SawtoothTransaction) (signer : Signer) : result AppAuthHandlerError SawtoothBatch :=
  public_key ← ok_or SigningError (signer_public_key signer);
  header_bytes ← ok_or (SawtoothError "failed to serialize batch header to bytes: ")
    (write_batch_header (mkBatchHeader public_key (txn_header_signature <$> txns)));
  signature ← ok_or SigningError (signer_sign signer header_bytes);
  mret (mkSawtoothBatch header_bytes signature txns).
Definition create_batch_list_from_one (batch : SawtoothBatch) : list SawtoothBatch := [batch].

(** The six transactions, in their order *)
Definition xo_txns (scabbard_admin_keys : list string) (signer : Signer) : sabre_eff (list SawtoothTransaction) :=
  t1 ← create_contract_registry_txn scabbard_admin_keys signer;
  t2 ← upload_contract_txn signer;
  t3 ← create_xo_namespace_registry_txn scabbard_admin_keys signer;
  t4 ← xo_namespace_permissions_txn signer;
  t5 ← create_pike_namespace_registry_txn scabbard_admin_keys signer;
  t6 ← pike_namespace_permissions_txn signer;
  mret [t1; t2; t3; t4; t5; t6].

(** The future that submits the batch, or one that is done when another node does *)
Definition setup_xo (private_key : string) (scabbard_admin_keys : list string)
    (splinterd_url circuit_id service_id : string) : sabre_eff nat :=
  signer ← lift (ok_or SigningError (signer_of private_key));
  public_key ← lift (ok_or SigningError (signer_public_key signer));
  let is_submitter := match scabbard_admin_keys with
                      | submitting_key :: _ => bool_decide (public_key = submitting_key)
                      | [] => false
                      end in
  if negb is_submitter then mret future_ok
  else
    txns ← xo_txns scabbard_admin_keys signer;
    batch ← lift (create_batch txns signer);
    payload ← lift (ok_or (SawtoothError "failed to serialize batch list: ")
                      (write_batch_list (create_batch_list_from_one batch)));
    lift (ok_or BatchSubmitError
      (post_request (splinterd_url +:+ "/scabbard/" +:+ circuit_id +:+ "/" +:+ service_id +:+ "/batches") payload)).
(** ** What is submitted *)

(** A transaction of the action, signed by the signer, that may touch the addresses *)
Definition signed_txn (signer : Signer) (action : SabreAction) (addresses : list string) (t : SawtoothTransaction) : Prop :=
  ∃ public_key nonce, signer_public_key signer = Some public_key ∧
    sabre_payload action = Some (txn_payload t) ∧
    write_transaction_header (mkTransactionHeader SABRE_FAMILY_NAME SABRE_FAMILY_VERSION nonce public_key public_key
      addresses addresses (to_hex (sabre_sha512 (txn_payload t)))) = Some (txn_header t) ∧
    signer_sign signer (txn_header t) = Some (txn_header_signature t).

Lemma action_txn_ok action addresses signer payload w t w' :
  payload_of action = Ok payload → create_txn addresses payload signer w = (Ok t, w') →
  signed_txn signer action addresses t.
Proof.
  intros Hp%ok_or_inv H. unfold create_txn in H.
  bind_step H public_key. bind_step H nonce. bind_step H header_bytes. bind_step H signature.
  injection H as <- _. by exists public_key, nonce.
Qed.

Lemma upload_contract_ok signer w t w' :
  upload_contract_txn signer w = (Ok t, w') →
  ∃ contract, signed_txn signer
    (CreateContract XO_NAME XO_VERSION [SMART_PERMISSION_PREFIX; PIKE_PREFIX; XO_PREFIX]
       [SMART_PERMISSION_PREFIX; PIKE_PREFIX; XO_PREFIX] contract)
    [compute_contract_registry_address XO_NAME; get_xo_contract_address] t.
Proof.
  unfold upload_contract_txn. intros H. bind_step H u. bind_step H contract.
  apply eff_bind_inv in H as (payload & w2 & [Hp ->]%lift_inv & H). exists contract. by eapply action_txn_ok.
Qed.

Lemma namespace_txn_ok action namespace signer w t w' :
  (payload ← lift (payload_of action); address ← lift (compute_namespace_registry_address namespace);
   create_txn [address; administrators_setting_address] payload signer) w = (Ok t, w') →
  ∃ address, compute_namespace_registry_address namespace = Ok address ∧
    signed_txn signer action [address; administrators_setting_address] t.
Proof.
  intros H. apply eff_bind_inv in H as (payload & w1 & [Hp ->]%lift_inv & H).
  apply eff_bind_inv in H as (address & w2 & [Ha ->]%lift_inv & H).
  exists address. split; [done|]. by eapply action_txn_ok.
Qed.

(** The transactions that set up the contract: each is signed by the signer and does one
    of the six actions; that of the contract writes the address that the processors of
    state changes wait for. *)
Lemma xo_txns_signed keys signer w l w' :
  xo_txns keys signer w = (Ok l, w') →
  ∃ contract xo pike, compute_namespace_registry_address XO_PREFIX = Ok xo ∧
    compute_namespace_registry_address PIKE_PREFIX = Ok pike ∧
    Forall2 (λ t a, signed_txn signer a.1 a.2 t) l
      [ (CreateContractRegistry XO_NAME keys, [compute_contract_registry_address XO_NAME; administrators_setting_address]);
        (CreateContract XO_NAME XO_VERSION [SMART_PERMISSION_PREFIX; PIKE_PREFIX; XO_PREFIX]
           [SMART_PERMISSION_PREFIX; PIKE_PREFIX; XO_PREFIX] contract,
         [compute_contract_registry_address XO_NAME; get_xo_contract_address]);
        (CreateNamespaceRegistry XO_PREFIX keys, [xo; administrators_setting_address]);
        (CreateNamespaceRegistryPermission XO_PREFIX XO_NAME true true, [xo; administrators_setting_address]);
        (CreateNamespaceRegistry PIKE_PREFIX keys, [pike; administrators_setting_address]);
        (CreateNamespaceRegistryPermission PIKE_PREFIX XO_NAME true false, [pike; administrators_setting_address]) ].
Proof.
  unfold xo_txns. intros H. do 6 (let t := fresh "t" in bind_step H t). injection H as <- _.
  apply eff_bind_inv in Hstep as (payload & w7 & [Hp ->]%lift_inv & Hstep).
  apply upload_contract_ok in Hstep0 as [contract H2].
  apply namespace_txn_ok in Hstep1 as (xo & Hxo & H3), Hstep2 as (xo' & Hxo' & H4),
    Hstep3 as (pike & Hpike & H5), Hstep4 as (pike' & Hpike' & H6).
  rewrite Hxo in Hxo'. rewrite Hpike in Hpike'. simplify_eq.
  exists contract, xo', pike'. split_and!; [done|done|].
  repeat constructor; try done. by eapply action_txn_ok.
Qed.

(** Only the node whose key is the first admin key makes the transactions. *)
Lemma setup_xo_submitter private_key keys url circuit_id service_id w f w' signer public_key :
  setup_xo private_key keys url circuit_id service_id w = (Ok f, w') →
  signer_of private_key = Some signer → signer_public_key signer = Some public_key →
  head keys ≠ Some public_key → f = future_ok ∧ w' = w.
Proof.
  intros H Hs Hp Hk. unfold setup_xo in H. bind_step H signer'. bind_step H public_key'. simplify_eq.
  assert (Hsub : match keys with k :: _ => bool_decide (public_key' = k) | [] => false end = false).
  { destruct keys as [|k keys]; [done|]. apply bool_decide_eq_false. cbn in Hk. congruence. }
  rewrite Hsub in H. by injection H as <- <-.
Qed.
End sabre.
