(* ===== verification/GameroomEvents.v ===== *)
(** * What the gameroom daemon does with events

    Models [examples/gameroom/daemon/src/authorization_handler]: the events of the admin
    service and the state changes of the XO services are recorded in the database
    ([mod.rs], [state_delta.rs]), over websockets ([WebSocket]), in one transaction of
    the database ([GameroomDatabase]) each.  A query can fail for want of a connection
    only when it is taken from the pool. *)

From S2P Require Import Prelude Hex Circuit AdminMessages AdminShared ScabbardState WebSocket GameroomDatabase GameroomSabre.
From Stdlib Require Import Lia ZArith.

(** ** Errors *)

Inductive StateDeltaError :=
  | XoPayloadParseError
  | DeltaDatabaseError (e : DatabaseError)
  | DeltaPanic.

(** ** Parsing of proposals *)

(** The format [{:?}] *)
Definition debug_proposal_type (t : Msg.ProposalType) : string :=
  match t with
  | Msg.Create => "Create" | Msg.UpdateRoster => "UpdateRoster" | Msg.AddNode => "AddNode"
  | Msg.RemoveNode => "RemoveNode" | Msg.Destroy => "Destroy"
  end.

Definition parse_proposal (proposal : Msg.CircuitProposal) (timestamp : Z) (requester_public_key : string) :
    NewGameroomProposal :=
  mkNewGameroomProposal (debug_proposal_type (Msg.proposal_type proposal)) (Msg.cp_circuit_id proposal)
    (Msg.circuit_hash proposal) requester_public_key (Msg.requester_node_id proposal) "Pending" timestamp timestamp.

Definition parse_gameroom `{!MetadataJson} (circuit : Msg.CreateCircuit) (timestamp : Z) :
    result AppAuthHandlerError Gameroom :=
  application_metadata ← map_err metadata_error (metadata_from_bytes (Msg.application_metadata circuit));
  mret (mkGameroom (Msg.circuit_id circuit)
    (match Msg.authorization_type circuit with AuthTrust => "Trust" end)
    (match Msg.persistence circuit with PersistenceAny => "Any" end)
    (match Msg.durability circuit with NoDurability => "NoDurability" end)
    (match Msg.routes circuit with RouteAny => "Any" end)
    (Msg.circuit_management_type circuit) (md_alias application_metadata) "Pending" timestamp timestamp).

Definition parse_splinter_services (circuit_id : string) (splinter_services : list Msg.SplinterService) (timestamp : Z) :
    list NewGameroomService :=
  (λ s, mkNewGameroomService circuit_id (Msg.service_id s) (Msg.service_type s) (Msg.allowed_nodes s)
          (Msg.arguments s) "Pending" timestamp timestamp) <$> splinter_services.

Definition parse_splinter_nodes (circuit_id : string) (splinter_nodes : list Msg.SplinterNode) (timestamp : Z) :
    list NewGameroomMember :=
  (λ n, mkNewGameroomMember circuit_id (Msg.node_id n) (Msg.endpoint n) "Pending" timestamp timestamp) <$> splinter_nodes.

(** ** The handlers *)

(** [pool.get()] *)
Class ConnectionPool (W : Type) := pool_get : eff W () ().

Section handlers.
Context {W Signer : Type} `{!SystemClock W, !ConnectionPool W, !IgniterChannel W, !Sabre W Signer, !MetadataJson}.

Abbreviation world := (Database * W)%type.
Abbreviation app_eff := (eff world AppAuthHandlerError).

Definition on_world {E E' A} (f : E → E') (m : eff W E A) : eff world E' A := λ '(d, w),
  let '(r, w) := m w in (map_err f r, (d, w)).
Definition on_db {E A} (f : DatabaseError → E) (m : query A) : eff world E A := λ '(d, w),
  let '(r, d) := m d in (map_err f r, (d, w)).
Definition get_db {E} : eff world E Database := λ s, (Ok s.1, s).
Definition system_now {E} : eff world E Z := λ '(d, w), let '(t, w) := system_time w in (Ok t, (d, w)).

Definition db_failed (e : DatabaseError) : AppAuthHandlerError := AppDatabaseError "".
Definition get_conn : app_eff () := on_world (λ _, AppDatabaseError "") pool_get.

(** A notification is created, at its own time, and inserted. *)
Definition notify {E} (f : DatabaseError → E) (notification_type requester requester_node_id target : string) : eff world E () :=
  t ← system_now;
  on_db f (insert_gameroom_notification [create_new_notification notification_type requester requester_node_id target t]).

Definition get_pending_proposal_with_circuit_id (circuit_id : string) : app_eff GameroomProposal :=
  get_conn;;
  d ← get_db;
  lift (ok_or (AppDatabaseError ("Could not find open proposal for circuit: " +:+ circuit_id))
    (fetch_gameroom_proposal_with_status circuit_id "Pending" d)).

(** The vote of the signer among those of the proposal *)
Definition signer_vote (p : Msg.CircuitProposal) (signer : bytes) : result AppAuthHandlerError Msg.VoteRecord :=
  ok_or (InvalidMessageError "Missing vote from signer")
    (head (base.filter (λ v, Msg.public_key v = signer) (Msg.votes p))).

(** The statuses of a gameroom, and of its members and services that have the old one *)
Definition update_statuses {E} (f : DatabaseError → E) (circuit_id : string) (time : Z) (old_status new_status : string) :
    eff world E () :=
  on_db f (update_gameroom_status circuit_id time new_status);;
  on_db f (update_gameroom_member_status circuit_id time old_status new_status);;
  on_db f (update_gameroom_service_status circuit_id time old_status new_status).

Definition process_submitted (msg_proposal : Msg.CircuitProposal) : app_eff () :=
  time ← system_now;
  let requester := to_hex (Msg.requester msg_proposal) in
  let proposal := parse_proposal msg_proposal time requester in
  gameroom ← lift (parse_gameroom (Msg.circuit msg_proposal) time);
  let services := parse_splinter_services (Msg.cp_circuit_id msg_proposal) (Msg.roster (Msg.circuit msg_proposal)) time in
  let nodes := parse_splinter_nodes (Msg.cp_circuit_id msg_proposal) (Msg.members (Msg.circuit msg_proposal)) time in
  get_conn;;
  transaction (
    notify db_failed "gameroom_proposal" (ngp_requester proposal) (ngp_requester_node_id proposal) (ngp_circuit_id proposal);;
    on_db db_failed (insert_gameroom gameroom);;
    on_db db_failed (insert_gameroom_proposal proposal);;
    on_db db_failed (insert_gameroom_services services);;
    on_db db_failed (insert_gameroom_members nodes)).

Definition vote_record (proposal : GameroomProposal) (signer : bytes) (v : Msg.VoteRecord) (vote : string) (time : Z) :
    NewProposalVoteRecord :=
  mkNewProposalVoteRecord (row_id proposal) (to_hex signer) (Msg.voter_node_id v) vote time.

Definition process_vote (msg_proposal : Msg.CircuitProposal) (signer : bytes) : app_eff () :=
  proposal ← get_pending_proposal_with_circuit_id (Msg.cp_circuit_id msg_proposal);
  v ← lift (signer_vote msg_proposal signer);
  time ← system_now;
  let vote := vote_record proposal signer v "Accept" time in
  get_conn;;
  transaction (
    notify db_failed "proposal_vote_record" (nvr_voter_public_key vote) (nvr_voter_node_id vote) (Msg.cp_circuit_id msg_proposal);;
    on_db db_failed (update_gameroom_proposal_status (row_id proposal) time "Pending");;
    on_db db_failed (insert_proposal_vote_record [vote])).

(** [ProposalAccepted] and [ProposalRejected] do the same with other texts. *)
Definition process_decided (notification vote_text status : string) (msg_proposal : Msg.CircuitProposal) (signer : bytes) :
    app_eff () :=
  proposal ← get_pending_proposal_with_circuit_id (Msg.cp_circuit_id msg_proposal);
  time ← system_now;
  v ← lift (signer_vote msg_proposal signer);
  let vote := vote_record proposal signer v vote_text time in
  get_conn;;
  transaction (
    notify db_failed notification (nvr_voter_public_key vote) (nvr_voter_node_id vote) (Msg.cp_circuit_id msg_proposal);;
    on_db db_failed (update_gameroom_proposal_status (row_id proposal) time status);;
    update_statuses db_failed (Msg.cp_circuit_id msg_proposal) time "Pending" status;;
    on_db db_failed (insert_proposal_vote_record [vote])).
Definition process_accepted : Msg.CircuitProposal → bytes → app_eff () :=
  process_decided "proposal_accepted" "Accept" "Accepted".
Definition process_rejected : Msg.CircuitProposal → bytes → app_eff () :=
  process_decided "proposal_rejected" "Reject" "Rejected".

(** *** [XoStateDeltaProcessor] *)

Record XoStateDeltaProcessor := mkXoStateDeltaProcessor {
  xp_circuit_id : string;
  xp_node_id : string;
  xp_requester : string;
  xp_contract_address : string;
}.
Definition processor_new (circuit_id node_id requester : string) : XoStateDeltaProcessor :=
  mkXoStateDeltaProcessor circuit_id node_id requester (get_xo_contract_address (W := W) (Signer := Signer)).

Abbreviation delta_eff := (eff world StateDeltaError).
Definition delta_conn : delta_eff () := on_world (λ _, DeltaDatabaseError DbConnectionError) pool_get.

(** The five fields of a game; an index out of bounds panics. *)
Definition game_fields (game_state : list string) : option (string * string * string * string * string) :=
  match game_state with
  | name :: board :: status :: player_1 :: player_2 :: _ => Some (name, board, status, player_1, player_2)
  | _ => None
  end.

Definition contract_created (p : XoStateDeltaProcessor) : delta_eff () :=
  time ← system_now;
  delta_conn;;
  transaction (
    notify DeltaDatabaseError "circuit_active" (xp_requester p) (xp_node_id p) (xp_circuit_id p);;
    update_statuses DeltaDatabaseError (xp_circuit_id p) time "Ready" "Active").

Definition game_changed (p : XoStateDeltaProcessor) (value : bytes) : delta_eff () :=
  time ← system_now;
  s ← lift (ok_or XoPayloadParseError (from_utf8 value));
  let game_state := split_on "," s in
  delta_conn;;
  transaction (
    d ← get_db;
    let name := default "" (head game_state) in
    match fetch_xo_game (xp_circuit_id p) name d with
    | Some game =>
        f ← lift (ok_or DeltaPanic (game_fields game_state));
        let '(_, board, status, player_1, player_2) := f in
        let g := row_data game in
        on_db DeltaDatabaseError (update_xo_game (mkNumbered (row_id game)
          (mkNewXoGame (nxg_circuit_id g) (nxg_game_name g) player_1 player_2 status board (nxg_created_time g) time)));;
        notify DeltaDatabaseError ("game_updated:" +:+ name) (xp_requester p) (xp_node_id p) (xp_circuit_id p)
    | None =>
        f ← lift (ok_or DeltaPanic (game_fields game_state));
        let '(_, board, status, player_1, player_2) := f in
        on_db DeltaDatabaseError (insert_xo_game
          (mkNewXoGame (xp_circuit_id p) name player_1 player_2 status board time time));;
        notify DeltaDatabaseError ("new_game_created:" +:+ name) (xp_requester p) (xp_node_id p) (xp_circuit_id p)
    end).

Definition handle_state_change (p : XoStateDeltaProcessor) (change : StateChangeEvent) : delta_eff () :=
  match change with
  | ChangeSet key value =>
      if bool_decide (key = xp_contract_address p) then contract_created p
      else
        prefix ← lift (ok_or DeltaPanic (first_six key));
        if bool_decide (prefix = XO_PREFIX) then game_changed p value else mret ()
  | ChangeDelete _ => mret ()
  end.

Fixpoint handle_state_changes (p : XoStateDeltaProcessor) (changes : list StateChangeEvent) : delta_eff () :=
  match changes with
  | [] => mret ()
  | change :: changes => handle_state_change p change;; handle_state_changes p changes
  end.

(** *** Websockets *)

Definition RECONNECT : bool := true.
Definition RECONNECT_LIMIT : Z := 10.
Definition CONNECTION_TIMEOUT : Z := 60.

(** The clock and the channel of the world, for the websocket client *)
#[local] Instance world_clock : SystemClock world := λ '(d, w), let '(t, w) := system_time w in (t, (d, w)).
#[local] Instance world_igniter : IgniterChannel world := {|
  send_reactor m := on_world (λ e, e) (send_reactor m);
  is_reactor_running s := is_reactor_running s.2;
  join_reactor := on_world (λ e, e) join_reactor;
|}.
Context (request_builds : string → bool).

(** The callback for state changes logs an error; what is answered for it when it panics,
    by the runtime of the futures, is a parameter. *)
Context (panicked : WsResponse).
Definition on_changes (p : XoStateDeltaProcessor) (changes : list StateChangeEvent) : world → WsResponse * world := λ s,
  match handle_state_changes p changes s with
  | (Err DeltaPanic, s) => (panicked, s)
  | (_, s) => (WsEmpty, s)
  end.

Definition subscribe_url (url circuit_id service_id : string) : string :=
  url +:+ "/scabbard/" +:+ circuit_id +:+ "/" +:+ service_id +:+ "/ws/subscribe".

(** What is done on an error: the connection is restarted, except after a message that
    cannot be parsed and after too many attempts *)
Definition restart_on_error {T} (client : WebSocketClient T world) (e : WebSocketError) (ctx : WebSocket.Context) :
    eff world WebSocketError () :=
  match e with
  | ParserError _ _ => mret ()
  | ReconnectError _ => mret ()
  | _ => start_ws client request_builds ctx
  end.

(** The client of a circuit that is ready: it sets up the contract when it is connected.
    The callback for errors starts the client that has it, of which [start_ws] uses the
    URL only. *)
Definition xo_client (url private_key : string) (p : XoStateDeltaProcessor) (service_id : string)
    (scabbard_admin_keys : list string) : WebSocketClient (list StateChangeEvent) world :=
  let client := websocket_client_new (subscribe_url url (xp_circuit_id p) service_id)
    (λ _, on_changes p) in
  let client := set_on_open (λ _ s,
    match on_world (λ e, e) (setup_xo private_key scabbard_admin_keys url (xp_circuit_id p) service_id) s with
    | (Err _, s) => (WsClose, s)
    | (Ok future, s) =>
        match igniter_send future s with
        | (Err _, s) => (WsClose, s)
        | (Ok _, s) => (WsEmpty, s)
        end
    end) client in
  let client := set_timeout CONNECTION_TIMEOUT (set_reconnect_limit RECONNECT_LIMIT (set_reconnect RECONNECT client)) in
  set_on_error (restart_on_error client) client.

(** [resubscribe], for a gameroom that was active before the daemon started: it is not
    set to reconnect by itself. *)
Definition resubscribe (url : string) (gameroom : ActiveGameroom) : WebSocketClient (list StateChangeEvent) world :=
  let p := processor_new (ag_circuit_id gameroom) (ag_requester_node_id gameroom) (ag_requester gameroom) in
  let client := websocket_client_new (subscribe_url url (ag_circuit_id gameroom) (ag_service_id gameroom))
    (λ _, on_changes p) in
  set_on_error (λ e ctx, match e with
                         | ParserError _ _ => mret ()
                         | _ => start_ws client request_builds ctx
                         end) client.

(** The service of the circuit that runs on the node *)
Definition service_of_node (node_id : string) (roster : list Msg.SplinterService) : option string :=
  Msg.service_id <$> head (base.filter (λ s, node_id ∈ Msg.allowed_nodes s) roster).

Definition process_ready (node_id private_key url : string) (msg_proposal : Msg.CircuitProposal) : app_eff () :=
  get_conn;;
  d ← get_db;
  if gameroom_service_is_active (Msg.cp_circuit_id msg_proposal) d then mret () else
  match service_of_node node_id (Msg.roster (Msg.circuit msg_proposal)) with
  | None => mret ()
  | Some service_id =>
      metadata ← lift (ok_or (InvalidMessageError "unable to parse application metadata: ")
                         (metadata_from_slice (Msg.application_metadata (Msg.circuit msg_proposal))));
      time ← system_now;
      let requester := to_hex (Msg.requester msg_proposal) in
      let proposal := parse_proposal msg_proposal time requester in
      transaction (
        notify db_failed "circuit_ready" (ngp_requester proposal) (ngp_requester_node_id proposal) (ngp_circuit_id proposal);;
        update_statuses db_failed (Msg.cp_circuit_id msg_proposal) time "Accepted" "Ready");;
      let p := processor_new (Msg.cp_circuit_id msg_proposal) (ngp_requester_node_id proposal) (ngp_requester proposal) in
      emap_err AppWebSocketError
        (igniter_start_ws (xo_client url private_key p service_id (md_scabbard_admin_keys metadata)) request_builds)
  end.

Definition process_admin_event (node_id private_key url : string) (admin_event : Msg.AdminServiceEvent) : app_eff () :=
  match admin_event with
  | Msg.ProposalSubmitted msg_proposal => process_submitted msg_proposal
  | Msg.ProposalVote msg_proposal signer => process_vote msg_proposal signer
  | Msg.ProposalAccepted msg_proposal signer => process_accepted msg_proposal signer
  | Msg.ProposalRejected msg_proposal signer => process_rejected msg_proposal signer
  | Msg.CircuitReady msg_proposal => process_ready node_id private_key url msg_proposal
  end.

(** [run]: the gamerooms that are active are subscribed to again, then the events of the
    admin service are listened to. *)
Fixpoint start_all (clients : list (WebSocketClient (list StateChangeEvent) world)) : app_eff () :=
  match clients with
  | [] => mret ()
  | c :: clients => emap_err AppWebSocketError (igniter_start_ws c request_builds);; start_all clients
  end.
Definition admin_client (splinterd_url node_id private_key : string) : WebSocketClient Msg.AdminServiceEvent world :=
  let client := websocket_client_new (splinterd_url +:+ "/ws/admin/register/gameroom")
    (λ _ event s, (WsEmpty, (process_admin_event node_id private_key splinterd_url event s).2)) in
  let client := set_timeout CONNECTION_TIMEOUT (set_reconnect_limit RECONNECT_LIMIT (set_reconnect RECONNECT client)) in
  set_on_error (restart_on_error client) client.
Definition gameroom_run (splinterd_url node_id private_key : string) : app_eff () :=
  get_conn;;
  d ← get_db;
  start_all (resubscribe splinterd_url <$> fetch_active_gamerooms node_id d);;
  emap_err AppWebSocketError (igniter_start_ws (admin_client splinterd_url node_id private_key) request_builds).
End handlers.
