(* ===== verification/GameroomProps.v ===== *)
(** * The tables of the gameroom daemon agree

    What the handlers of [GameroomEvents] keep of the database: the status of a gameroom
    is that of its members and services and fits that of its proposal, and moves forward
    only. *)

From S2P Require Import Prelude Hex Circuit AdminMessages AdminShared ScabbardState WebSocket.
From S2P Require Import GameroomDatabase GameroomSabre GameroomEvents.
From Stdlib Require Import Lia ZArith.

(** ** Tables *)

Lemma insert_rows_next {A} (rows : list A) t : tb_next (insert_rows rows t) = (tb_next t + Z.of_nat (length rows))%Z.
Proof. revert t. induction rows as [|a rows IH]; intros t; cbn; [lia|]. rewrite IH. cbn. lia. Qed.

Lemma insert_rows_elem {A} (rows : list A) t r :
  r ∈ tb_rows (insert_rows rows t) → r ∈ tb_rows t ∨ row_data r ∈ rows.
Proof.
  revert t. induction rows as [|a rows IH]; intros t; cbn; [by left|]. intros [H|H]%IH; [|set_solver]. cbn in H.
  apply elem_of_app in H as [H|H%list_elem_of_singleton]; [by left|]. subst r. set_solver.
Qed.

Lemma insert_rows_fmap {A B} (f : Numbered A → B) (g : A → B) rows (t : Table A) :
  (∀ r, f r = g (row_data r)) → f <$> tb_rows (insert_rows rows t) = (f <$> tb_rows t) ++ (g <$> rows).
Proof.
  intros Hf. revert t. induction rows as [|a rows IH]; intros t; cbn; [by rewrite app_nil_r|].
  rewrite IH. cbn. rewrite fmap_app, <- app_assoc. cbn. by rewrite Hf.
Qed.

Lemma update_rows_elem {A} (where_ : Numbered A → bool) set t r :
  r ∈ tb_rows (update_rows where_ set t) →
  ∃ r0, r0 ∈ tb_rows t ∧ r = (if where_ r0 then mkNumbered (row_id r0) (set (row_data r0)) else r0).
Proof. unfold update_rows. cbn. intros (r0 & -> & H)%list_elem_of_fmap. eauto. Qed.

Lemma update_rows_proj {A B} (f : Numbered A → B) where_ set t :
  (∀ r, f (mkNumbered (row_id r) (set (row_data r))) = f r) →
  f <$> tb_rows (update_rows where_ set t) = f <$> tb_rows t.
Proof.
  intros Hf. unfold update_rows. cbn. rewrite <- list_fmap_compose. apply list_fmap_ext. intros i r _. cbn.
  destruct (where_ r); [apply Hf|done].
Qed.

Lemma first_row_elem {A} (where_ : A → bool) rows r :
  first_row where_ rows = Some r → r ∈ rows ∧ where_ r = true.
Proof.
  unfold first_row, select_rows. intros H%head_Some_elem_of. apply list_elem_of_filter in H. naive_solver.
Qed.

Lemma first_row_cons {A} (where_ : A → bool) r rows :
  first_row where_ (r :: rows) = if where_ r then Some r else first_row where_ rows.
Proof.
  unfold first_row, select_rows. rewrite filter_cons. destruct (where_ r) eqn:H; [|by rewrite decide_False].
  by rewrite decide_True.
Qed.

Lemma first_row_app {A} (where_ : A → bool) rows rows' :
  first_row where_ (rows ++ rows') = (match first_row where_ rows with Some r => Some r | None => first_row where_ rows' end).
Proof.
  unfold first_row, select_rows. rewrite filter_app. by destruct (base.filter _ rows).
Qed.

(** ** The status of a gameroom *)

Definition status_of (d : Database) (circuit_id : string) : option string := g_status <$> fetch_gameroom circuit_id d.

Lemma has_gameroom_status d c : has_gameroom c d = bool_decide (is_Some (status_of d c)).
Proof.
  unfold has_gameroom, status_of, fetch_gameroom. induction (db_gameroom d) as [|g gs IH]; [done|].
  rewrite first_row_cons. cbn [existsb]. destruct (bool_decide (g_circuit_id g = c)); [done|]. exact IH.
Qed.

(** What the status of a proposal is when the gameroom has the status *)
Definition proposal_status (s : string) : string :=
  if decide (s = "Pending") then "Pending" else if decide (s = "Rejected") then "Rejected" else "Accepted".

Inductive next_status : string → string → Prop :=
  | next_accept : next_status "Pending" "Accepted"
  | next_reject : next_status "Pending" "Rejected"
  | next_ready : next_status "Accepted" "Ready"
  | next_active : next_status "Ready" "Active".
Definition advances : string → string → Prop := rtc next_status.

Definition all_advance (d d' : Database) : Prop :=
  ∀ c s, status_of d c = Some s → ∃ s', status_of d' c = Some s' ∧ advances s s'.

(** ** The invariant *)

Record rows_agree (d : Database) : Prop := {
  ra_member r : r ∈ tb_rows (db_member d) → status_of d (ngm_circuit_id (row_data r)) = Some (ngm_status (row_data r));
  ra_service r : r ∈ tb_rows (db_service d) → status_of d (ngs_circuit_id (row_data r)) = Some (ngs_status (row_data r));
}.
Definition proposals_agree (d : Database) : Prop :=
  ∀ r, r ∈ tb_rows (db_proposal d) →
  ∃ s, status_of d (ngp_circuit_id (row_data r)) = Some s ∧ ngp_status (row_data r) = proposal_status s.
Record numbers_agree (d : Database) : Prop := {
  na_circuits : NoDup ((λ r, ngp_circuit_id (row_data r)) <$> tb_rows (db_proposal d));
  na_numbers : NoDup (row_id <$> tb_rows (db_proposal d));
  na_next : Forall (λ i, i < tb_next (db_proposal d))%Z (row_id <$> tb_rows (db_proposal d));
  na_votes v : v ∈ tb_rows (db_vote_record d) → nvr_proposal_id (row_data v) ∈ row_id <$> tb_rows (db_proposal d);
}.
Definition coherent (d : Database) : Prop := rows_agree d ∧ proposals_agree d ∧ numbers_agree d.

(** The circuits that are proposed: a gameroom has rows for the services of its circuit, and
    they stay. *)
Section circuits.
Context (circuit_of : string → Msg.CreateCircuit).

Definition service_ids (d : Database) : list string := (λ r, ngs_circuit_id (row_data r)) <$> tb_rows (db_service d).
Definition serviced (d d' : Database) : Prop :=
  (∀ c, c ∈ service_ids d → c ∈ service_ids d') ∧
  ∀ c, is_Some (status_of d' c) →
    is_Some (status_of d c) ∨ Msg.roster (circuit_of c) = [] ∨ c ∈ service_ids d'.
Definition step_ok (d d' : Database) : Prop := coherent d' ∧ all_advance d d' ∧ serviced d d'.

Lemma serviced_same d d' :
  db_gameroom d' = db_gameroom d → tb_rows (db_service d') = tb_rows (db_service d) → serviced d d'.
Proof. intros Hg Hs. unfold serviced, service_ids, status_of, fetch_gameroom. rewrite Hg, Hs. auto. Qed.
Lemma serviced_trans d1 d2 d3 : serviced d1 d2 → serviced d2 d3 → serviced d1 d3.
Proof. intros [H1 H1'] [H2 H2']. split; [auto|]. intros c Hc. destruct (H2' c Hc) as [H|[?|?]]; auto. destruct (H1' c H); naive_solver. Qed.

Lemma all_advance_same d d' : db_gameroom d' = db_gameroom d → all_advance d d'.
Proof.
  intros He c s H. exists s. split; [|apply rtc_refl]. unfold status_of, fetch_gameroom in *. by rewrite He.
Qed.

(** The parts of the database that the invariant is about *)
Definition same_gamerooms (d d' : Database) : Prop :=
  db_gameroom d' = db_gameroom d ∧ db_member d' = db_member d ∧ db_service d' = db_service d ∧
  db_proposal d' = db_proposal d ∧ db_vote_record d' = db_vote_record d.
Lemma same_gamerooms_ok d d' : same_gamerooms d d' → coherent d → step_ok d d'.
Proof.
  destruct d, d'. unfold same_gamerooms. cbn. intros (-> & -> & -> & -> & ->) Hd. split; [|by split; [apply all_advance_same|apply serviced_same]].
  destruct Hd as ([? ?] & ? & [? ? ? ?]). by split_and!.
Qed.

(** A transaction that fails leaves the invariant, since no number is used twice. *)
Lemma rollback_ok d d' :
  (tb_next (db_proposal d) ≤ tb_next (db_proposal d'))%Z → coherent d → step_ok d (rollback d d').
Proof.
  intros Hn ([Hm Hs] & Hp & [Hc Hi Hx Hv]). split; [|by split; [apply all_advance_same|apply serviced_same]].
  split_and!; [by split|exact Hp|]. split; try done. cbn. eapply Forall_impl; [exact Hx|]. cbn. lia.
Qed.

(** ** Updates of statuses *)

Definition update_all (c : string) (t : Z) (old new : string) (d : Database) : Database :=
  set_service (update_rows (λ r, bool_decide (ngs_circuit_id (row_data r) = c) && bool_decide (ngs_status (row_data r) = old))
    (with_service_status new t) (db_service d))
  (set_member (update_rows (λ r, bool_decide (ngm_circuit_id (row_data r) = c) && bool_decide (ngm_status (row_data r) = old))
    (with_member_status new t) (db_member d))
  (set_gameroom ((λ g, if bool_decide (g_circuit_id g = c) then with_gameroom_status new t g else g) <$> db_gameroom d) d)).

Lemma update_all_status c t old new d c' :
  status_of (update_all c t old new d) c' = (if decide (c' = c) then (λ _, new) <$> status_of d c' else status_of d c').
Proof.
  unfold status_of, fetch_gameroom. cbn [db_gameroom update_all set_service set_member set_gameroom].
  induction (db_gameroom d) as [|g gs IH]; [by case_decide|]. rewrite fmap_cons, !first_row_cons.
  destruct (bool_decide_reflect (g_circuit_id g = c)) as [<-|Hc]; cbn [g_circuit_id with_gameroom_status];
    destruct (bool_decide_reflect (g_circuit_id g = c')) as [<-|Hg]; try exact IH.
  - by rewrite decide_True.
  - by rewrite decide_False.
Qed.

Section update.
Context (c : string) (t : Z) (old new : string) (d : Database).
Context (Hold : ∀ s, status_of d c = Some s → s = old ∨ s = new).

(** A row that agreed and is updated when it has the old status agrees afterwards. *)
Lemma update_agrees c' s :
  status_of d c' = Some s →
  status_of (update_all c t old new d) c' = Some (if bool_decide (c' = c) && bool_decide (s = old) then new else s).
Proof.
  intros H. rewrite update_all_status, H. destruct (decide (c' = c)) as [->|Hc].
  - rewrite (bool_decide_eq_true_2 (c = c)) by done. cbn. case_bool_decide; [done|]. destruct (Hold s H); congruence.
  - by rewrite (bool_decide_eq_false_2 (c' = c)) by done.
Qed.

Lemma update_all_rows : rows_agree d → rows_agree (update_all c t old new d).
Proof.
  intros [Hm Hs]. split.
  - intros r (r0 & Hr & ->)%update_rows_elem. specialize (update_agrees _ _ (Hm r0 Hr)). by destruct (_ && _).
  - intros r (r0 & Hr & ->)%update_rows_elem. specialize (update_agrees _ _ (Hs r0 Hr)). by destruct (_ && _).
Qed.

Lemma update_all_proposals d0 :
  (∀ r, r ∈ tb_rows (db_proposal d) → ngp_circuit_id (row_data r) = c → ngp_status (row_data r) = proposal_status new) →
  (∀ r, r ∈ tb_rows (db_proposal d) → ngp_circuit_id (row_data r) ≠ c → r ∈ tb_rows (db_proposal d0)) →
  (∀ r, r ∈ tb_rows (db_proposal d) → is_Some (status_of d (ngp_circuit_id (row_data r)))) →
  (∀ c, status_of d c = status_of d0 c) → proposals_agree d0 →
  proposals_agree (update_all c t old new d).
Proof.
  intros Hnew Hother Hsome Hsame Hp r Hr. change (r ∈ tb_rows (db_proposal d)) in Hr. rewrite update_all_status.
  destruct (decide (ngp_circuit_id (row_data r) = c)) as [Hc|Hc].
  - destruct (Hsome r Hr) as [s ->]. exists new. split; [done|]. by apply Hnew.
  - rewrite Hsame. apply Hp. by apply Hother.
Qed.

Lemma update_all_advance d0 :
  (∀ c, status_of d c = status_of d0 c) → advances old new → all_advance d0 (update_all c t old new d).
Proof.
  intros Hsame Ha c' s H. rewrite update_all_status, Hsame. destruct (decide (c' = c)) as [->|]; rewrite H.
  - exists new. split; [done|]. rewrite <- Hsame in H. destruct (Hold s H) as [->| ->]; [done|apply rtc_refl].
  - exists s. split; [done|apply rtc_refl].
Qed.
End update.

Lemma update_all_serviced c t old new d d0 :
  (∀ c, status_of d c = status_of d0 c) → service_ids d = service_ids d0 → serviced d0 (update_all c t old new d).
Proof.
  intros Hsame Hids. assert (service_ids (update_all c t old new d) = service_ids d0) as Heq.
  { rewrite <- Hids. unfold service_ids. by apply (update_rows_proj (λ r, ngs_circuit_id (row_data r))). }
  unfold serviced. rewrite Heq. split; [auto|]. intros c'.
  rewrite update_all_status, <- Hsame. case_decide; [|auto]. rewrite fmap_is_Some. auto.
Qed.

(** A gameroom becomes ready or active. *)
Lemma update_all_ok c t old new d :
  (∀ s, status_of d c = Some s → s = old ∨ s = new) → advances old new → proposal_status old = proposal_status new →
  coherent d → step_ok d (update_all c t old new d).
Proof.
  intros Hold Ha Hps (Hr & Hp & [Hc Hi Hx Hv]). split; [split_and!|].
  - by apply update_all_rows.
  - apply (update_all_proposals c t old new d d); [|done| |done|done].
    + intros r Hr' Hrc. destruct (Hp r Hr') as (s & Hs & ->). rewrite Hrc in Hs. by destruct (Hold s Hs) as [->| ->].
    + intros r Hr'. destruct (Hp r Hr') as (s & -> & _). done.
  - by split.
  - split; [by apply update_all_advance|by apply update_all_serviced].
Qed.

(** ** The handlers *)

Section handlers.
Context {W Signer : Type} `{Hclock : !SystemClock W, Hpool : !ConnectionPool W, Higniter : !IgniterChannel W,
  Hsabre : !Sabre W Signer, Hjson : !MetadataJson}.

Abbreviation world := (Database * W)%type.

Section rules.
Context {E : Type}.

Lemma wp_on_db {A} (f : DatabaseError → E) (m : query A) Q d (w : W) :
  wp m (λ r d', Q (map_err f r) (d', w)) d → wp (on_db f m) Q (d, w).
Proof. unfold wp, on_db. by destruct (m d). Qed.

Lemma wp_on_world {E' A} (f : E' → E) (m : eff W E' A) Q (d : Database) (w : W) :
  (∀ r w', Q (map_err f r) (d, w')) → wp (on_world f m) Q (d, w).
Proof. unfold wp, on_world. intros H. destruct (m w). apply H. Qed.

Lemma wp_system_now Q (d : Database) (w : W) : (∀ t w', Q (Ok t) (d, w')) → wp (system_now (E := E)) Q (d, w).
Proof. unfold wp, system_now. intros H. destruct (system_time w). apply H. Qed.

Lemma wp_notify (f : DatabaseError → E) a b c e Q d (w : W) :
  (∀ t w', Q (Ok ()) (set_notification t d, w')) → wp (notify f a b c e) Q (d, w).
Proof.
  intros H. unfold notify. apply wp_bind, wp_system_now. intros t w'. apply wp_on_db, wp_modify. apply H.
Qed.

Lemma wp_get_db Q (d : Database) (w : W) : Q (Ok d) (d, w) → wp (get_db (E := E)) Q (d, w).
Proof. done. Qed.

Lemma wp_transaction {A} (m : eff world E A) Q d w :
  wp m (λ r s', match r with Ok a => Q (Ok a) s' | Err e => Q (Err e) (rollback d s'.1, s'.2) end) (d, w) →
  wp (transaction m) Q (d, w).
Proof. unfold wp, transaction. by destruct (m (d, w)) as [[a|e] [d' w']]. Qed.

Lemma wp_insert_checked {A} (table : Database → Table A) set (key_exists : A → Database → bool) rows Q d :
  (forallb (λ row, key_exists row d) rows = true → Q (Ok ()) (set (insert_rows rows (table d)) d)) →
  Q (Err DbQueryError) (set (rollback_table (table d) (insert_rows rows (table d))) d) →
  wp (insert_checked table set key_exists rows) Q d.
Proof. unfold wp, insert_checked. destruct (forallb _ rows); auto. Qed.

Lemma wp_update_statuses (f : DatabaseError → E) c t old new Q d (w : W) :
  Q (Ok ()) (update_all c t old new d, w) → wp (update_statuses f c t old new) Q (d, w).
Proof.
  intros H. unfold update_statuses. repeat first [apply wp_bind | apply wp_on_db, wp_modify]. exact H.
Qed.
End rules.

Ltac db_go :=
  repeat (cbn [map_err ok_or]; match goal with
  | |- wp (transaction _) _ _ => apply wp_transaction
  | |- wp (notify _ _ _ _ _) _ _ => apply wp_notify; intros ? ?
  | |- wp system_now _ _ => apply wp_system_now; intros ? ?
  | |- wp get_db _ _ => apply wp_get_db
  | |- wp (update_statuses _ _ _ _ _) _ _ => apply wp_update_statuses
  | |- wp (on_db _ (modify _)) _ _ => apply wp_on_db, wp_modify
  | |- wp (on_db _ (update_gameroom_proposal_status _ _ _)) _ _ => apply wp_on_db, wp_modify
  | |- wp (on_db _ (insert_gameroom_notification _)) _ _ => apply wp_on_db, wp_modify
  | |- wp (on_db _ (insert_proposal_vote_record _)) _ _ => apply wp_on_db, wp_insert_checked; [intros ?|]
  | |- wp (on_db _ (insert_gameroom_proposal _)) _ _ => apply wp_on_db, wp_insert_checked; [intros ?|]
  | |- wp (on_db _ (insert_gameroom_services _)) _ _ => apply wp_on_db, wp_insert_checked; [intros ?|]
  | |- wp (on_db _ (insert_gameroom_members _)) _ _ => apply wp_on_db, wp_insert_checked; [intros ?|]
  | |- wp (on_db _ (insert_xo_game _)) _ _ => apply wp_on_db, wp_insert_checked; [intros ?|]
  | |- wp (on_db _ (update_xo_game _)) _ _ => apply wp_on_db, wp_modify
  | |- wp get_conn _ _ => apply wp_on_world; intros [[]|[]] ?
  | |- wp delta_conn _ _ => apply wp_on_world; intros [[]|[]] ?
  | |- wp (_ ≫= _) _ _ => apply wp_bind
  | |- wp (mret _) _ _ => apply wp_ret
  | |- wp (lift _) _ _ => apply wp_lift
  end).

(** The end of a handler *)
Definition ends_ok {E} (d : Database) (r : result E ()) (s : world) : Prop := step_ok d s.1.

(** *** A vote *)

Lemma pending_proposal d c p :
  coherent d → fetch_gameroom_proposal_with_status c "Pending" d = Some p →
  p ∈ tb_rows (db_proposal d) ∧ ngp_circuit_id (row_data p) = c ∧ ngp_status (row_data p) = "Pending" ∧
  status_of d c = Some "Pending".
Proof.
  intros (_ & Hp & _) [Hin Hw]%first_row_elem. apply andb_prop in Hw as [Hc Hs].
  apply bool_decide_eq_true in Hc, Hs. split_and!; try done. destruct (Hp p Hin) as (s & Hst & He).
  rewrite <- Hc, Hst. rewrite Hs in He. unfold proposal_status in He. repeat case_decide; congruence.
Qed.

(** The proposals after the status of one was set *)
Definition decided_proposals (p : GameroomProposal) (t : Z) (status : string) (d : Database) : Table NewGameroomProposal :=
  update_rows (λ r, bool_decide (row_id r = row_id p)) (with_proposal_status status t) (db_proposal d).

Lemma decided_elem (p : Numbered NewGameroomProposal) t status d r :
  coherent d → p ∈ tb_rows (db_proposal d) → r ∈ tb_rows (decided_proposals p t status d) →
  ∃ r0, r0 ∈ tb_rows (db_proposal d) ∧ ngp_circuit_id (row_data r) = ngp_circuit_id (row_data r0) ∧
    ((ngp_circuit_id (row_data r0) = ngp_circuit_id (row_data p) ∧ ngp_status (row_data r) = status) ∨
     (ngp_circuit_id (row_data r0) ≠ ngp_circuit_id (row_data p) ∧ r = r0)).
Proof.
  intros (_ & _ & [Hc Hi _ _]) Hp (r0 & Hr & ->)%update_rows_elem. exists r0. split; [done|].
  apply list_elem_of_lookup in Hp as [i Hp], Hr as [j Hr].
  case_bool_decide as Hid; cbn; (split; [done|]).
  - left. split; [|done]. assert (i = j) as <-; [|congruence].
    eapply (NoDup_lookup _ i j (row_id p) Hi); rewrite list_lookup_fmap; [by rewrite Hp|by rewrite Hr, <- Hid].
  - right. split; [|done]. intros He. apply Hid. assert (i = j) as <-; [|congruence].
    eapply (NoDup_lookup _ i j (ngp_circuit_id (row_data p)) Hc); rewrite list_lookup_fmap; [by rewrite Hp|].
    rewrite Hr. cbn. by rewrite He.
Qed.

Lemma numbers_decided (p : Numbered NewGameroomProposal) t status v d d' :
  numbers_agree d → db_proposal d' = decided_proposals p t status d → db_vote_record d' = insert_rows [v] (db_vote_record d) →
  nvr_proposal_id v = row_id p → p ∈ tb_rows (db_proposal d) → numbers_agree d'.
Proof.
  intros [Hc Hi Hx Hv] Hp Ht Hvid Hin. split; rewrite Hp; unfold decided_proposals.
  - rewrite (update_rows_proj (λ r, ngp_circuit_id (row_data r))) by done. exact Hc.
  - rewrite (update_rows_proj row_id) by done. exact Hi.
  - rewrite (update_rows_proj row_id) by done. exact Hx.
  - rewrite (update_rows_proj row_id) by done. rewrite Ht. intros r [Hr|Hr]%insert_rows_elem; [by apply Hv|].
    apply list_elem_of_singleton in Hr. rewrite Hr, Hvid. apply list_elem_of_fmap. eauto.
Qed.
Lemma wp_pending c Q d (w : W) :
  coherent d →
  (∀ p w', p ∈ tb_rows (db_proposal d) → ngp_circuit_id (row_data p) = c → ngp_status (row_data p) = "Pending" →
     status_of d c = Some "Pending" → Q (Ok p) (d, w')) →
  (∀ e w', Q (Err e) (d, w')) → wp (get_pending_proposal_with_circuit_id c) Q (d, w).
Proof.
  intros Hd Hok Herr. unfold get_pending_proposal_with_circuit_id. db_go; [|apply Herr].
  destruct (fetch_gameroom_proposal_with_status c "Pending" d) as [p|] eqn:Hp; [|apply Herr].
  destruct (pending_proposal d c p Hd Hp) as (? & ? & ? & ?). by apply Hok.
Qed.

Lemma unchanged_ok d : coherent d → step_ok d d.
Proof. by apply same_gamerooms_ok. Qed.

Lemma process_vote_ok msg_proposal signer d (w : W) :
  coherent d → wp (process_vote msg_proposal signer) (ends_ok d) (d, w).
Proof.
  intros Hd. unfold process_vote. apply wp_bind, wp_pending; [done| |by intros; apply unchanged_ok].
  intros p w' Hin Hc Hs Hst. db_go. destruct (signer_vote _ _) as [v|]; [|by apply unchanged_ok]. db_go;
    [| |by apply unchanged_ok].
  - pose proof Hd as (Hr & Hp & Hn). split; [split_and!|by split; [apply all_advance_same|apply serviced_same]].
    + by destruct Hr; split.
    + intros r Hr'. apply (decided_elem p t _ d) in Hr' as (r0 & Hr0 & He & [[Hc0 Hs0]|[_ ->]]); [|by apply Hp|done|done].
      exists "Pending". split; [|done]. rewrite He, Hc0, Hc. exact Hst.
    + by eapply numbers_decided.
  - by apply rollback_ok.
Qed.

Lemma process_decided_ok notification vote_text status msg_proposal signer d (w : W) :
  advances "Pending" status → proposal_status status = status → coherent d →
  wp (process_decided notification vote_text status msg_proposal signer)
    (λ r s, step_ok d s.1 ∧ (is_ok r = true → status_of s.1 (Msg.cp_circuit_id msg_proposal) = Some status)) (d, w).
Proof.
  assert (∀ e, is_ok (Err e : result AppAuthHandlerError ()) ≠ true) as Herr by done.
  intros Ha Hps Hd. pose proof (unchanged_ok d Hd) as Hsame. unfold process_decided.
  apply wp_bind, wp_pending; [done| |by intros; split].
  intros p w' Hin Hc Hs Hst. db_go. destruct (signer_vote _ _) as [v|]; [|by split]. db_go; [| |by split].
  - assert (Hold : ∀ s, status_of d (Msg.cp_circuit_id msg_proposal) = Some s → s = "Pending" ∨ s = status).
    { rewrite Hst. intros s [= <-]. by left. }
    set (d1 := set_proposal (decided_proposals p t status d) d).
    pose proof Hd as (Hr & Hp & Hn). split.
    2: { intros _. change (status_of (update_all (Msg.cp_circuit_id msg_proposal) t "Pending" status d1) (Msg.cp_circuit_id msg_proposal) = Some status).
         rewrite update_all_status, decide_True by done. change (status_of d1) with (status_of d). by rewrite Hst. }
    split; [split_and!|].
    + destruct (update_all_rows (Msg.cp_circuit_id msg_proposal) t "Pending" status d1 Hold); [by destruct Hr; split|].
      by split.
    + apply (update_all_proposals (Msg.cp_circuit_id msg_proposal) t "Pending" status d1 d); [| | |done|done].
      * intros r Hr' Hrc. apply (decided_elem p t _ d) in Hr' as (r0 & Hr0 & He & [[Hc0 Hs0]|[Hne _]]); [|congruence|done|done].
        congruence.
      * intros r Hr' Hrc. apply (decided_elem p t _ d) in Hr' as (r0 & Hr0 & He & [[Hc0 _]|[_ ->]]); [congruence|done|done|done].
      * intros r Hr'. apply (decided_elem p t _ d) in Hr' as (r0 & Hr0 & -> & _); [|done|done].
        destruct (Hp r0 Hr0) as (s & Hs' & _). by exists s.
    + by eapply numbers_decided.
    + split; [by apply (update_all_advance (Msg.cp_circuit_id msg_proposal) t "Pending" status d1)|].
      by apply (update_all_serviced (Msg.cp_circuit_id msg_proposal) t "Pending" status d1).
  - split; [by apply rollback_ok|done].
Qed.
(** *** A new proposal *)

Definition with_gameroom (g : Gameroom) (d : Database) : Database := set_gameroom (db_gameroom d ++ [g]) d.

Lemma status_with_gameroom g d c :
  status_of (with_gameroom g d) c =
  match status_of d c with
  | Some s => Some s
  | None => if decide (g_circuit_id g = c) then Some (g_status g) else None
  end.
Proof.
  unfold status_of, fetch_gameroom. cbn [db_gameroom with_gameroom set_gameroom]. rewrite first_row_app.
  destruct (first_row _ (db_gameroom d)); [done|]. rewrite first_row_cons.
  destruct (decide (g_circuit_id g = c)); [by rewrite bool_decide_eq_true_2|by rewrite bool_decide_eq_false_2].
Qed.

Lemma status_with_gameroom_old g d c s : status_of d c = Some s → status_of (with_gameroom g d) c = Some s.
Proof. intros H. by rewrite status_with_gameroom, H. Qed.
Lemma status_with_gameroom_new g d c :
  g_circuit_id g = c → status_of d c = None → status_of (with_gameroom g d) c = Some (g_status g).
Proof. intros Hg H. by rewrite status_with_gameroom, H, decide_True. Qed.

Lemma wp_insert_gameroom {E} (f : DatabaseError → E) g Q d (w : W) :
  (status_of d (g_circuit_id g) = None → Q (Ok ()) (with_gameroom g d, w)) → (∀ e, Q (Err e) (d, w)) →
  wp (on_db f (insert_gameroom g)) Q (d, w).
Proof.
  intros Hok Herr. apply wp_on_db. unfold insert_gameroom. wp_go. unfold require. rewrite has_gameroom_status.
  case_bool_decide as Hs; cbn [negb]; wp_go; [apply Herr|]. apply Hok. by apply eq_None_not_Some.
Qed.

Section submitted.
Context (p : NewGameroomProposal) (g : Gameroom) (services : list NewGameroomService) (nodes : list NewGameroomMember).
Context (d d' : Database).
Context (Hgs : db_gameroom d' = db_gameroom d ++ [g]) (Hps : db_proposal d' = insert_rows [p] (db_proposal d))
  (Hss : db_service d' = insert_rows services (db_service d)) (Hms : db_member d' = insert_rows nodes (db_member d))
  (Hvs : db_vote_record d' = db_vote_record d).
Context (Hnew : status_of d (g_circuit_id g) = None) (Hg : g_status g = "Pending")
  (Hp : ngp_circuit_id p = g_circuit_id g ∧ ngp_status p = "Pending")
  (Hservices : Forall (λ s, ngs_circuit_id s = g_circuit_id g ∧ ngs_status s = "Pending") services)
  (Hnodes : Forall (λ m, ngm_circuit_id m = g_circuit_id g ∧ ngm_status m = "Pending") nodes).

Lemma submitted_status c : status_of d' c = status_of (with_gameroom g d) c.
Proof. unfold status_of, fetch_gameroom. by rewrite Hgs. Qed.

Lemma submitted_new c : c = g_circuit_id g → status_of d' c = Some "Pending".
Proof. intros ->. rewrite submitted_status, (status_with_gameroom_new g d) by done. by rewrite Hg. Qed.

Lemma submitted_rows : rows_agree d → rows_agree d'.
Proof.
  intros [Hm Hs]. split.
  - rewrite Hms. intros r [Hr|Hr]%insert_rows_elem; [by rewrite submitted_status; apply status_with_gameroom_old, Hm|].
    rewrite Forall_forall in Hnodes. destruct (Hnodes _ Hr) as [Hc ->]. by apply submitted_new.
  - rewrite Hss. intros r [Hr|Hr]%insert_rows_elem; [by rewrite submitted_status; apply status_with_gameroom_old, Hs|].
    rewrite Forall_forall in Hservices. destruct (Hservices _ Hr) as [Hc ->]. by apply submitted_new.
Qed.

Lemma submitted_proposals : proposals_agree d → proposals_agree d'.
Proof.
  intros Ha r. rewrite Hps. intros [Hr|Hr]%insert_rows_elem.
  - destruct (Ha r Hr) as (s & Hs & He). exists s. split; [|done].
    rewrite submitted_status. by apply status_with_gameroom_old.
  - apply list_elem_of_singleton in Hr. rewrite Hr. destruct Hp as [Hc ->]. exists "Pending". split; [|done].
    by apply submitted_new.
Qed.

Lemma submitted_numbers : proposals_agree d → numbers_agree d → numbers_agree d'.
Proof.
  intros Ha [Hc Hi Hx Hv].
  assert (Hlt : ∀ r, r ∈ tb_rows (db_proposal d) → (row_id r < tb_next (db_proposal d))%Z).
  { intros r Hr. rewrite Forall_forall in Hx. apply Hx, list_elem_of_fmap. eauto. }
  split; rewrite ?Hvs, Hps; cbn; rewrite ?fmap_app; cbn.
  - apply NoDup_app. split_and!; [done| |apply NoDup_singleton]. intros c (r & -> & Hr)%list_elem_of_fmap Hin.
    apply list_elem_of_singleton in Hin. destruct (Ha r Hr) as (s & Hs & _). destruct Hp as [Hpc _]. congruence.
  - apply NoDup_app. split_and!; [done| |apply NoDup_singleton]. intros i (r & -> & Hr)%list_elem_of_fmap Hin.
    apply list_elem_of_singleton in Hin. specialize (Hlt r Hr). lia.
  - apply Forall_app. split; [|repeat constructor; lia]. eapply Forall_impl; [exact Hx|]. cbn. lia.
  - intros v H. apply elem_of_app. left. by apply Hv.
Qed.

Lemma submitted_serviced :
  Msg.roster (circuit_of (g_circuit_id g)) = [] ∨ services ≠ [] → serviced d d'.
Proof.
  intros Hroster. assert (service_ids d' = service_ids d ++ (ngs_circuit_id <$> services)) as Hids.
  { unfold service_ids. rewrite Hss. by apply insert_rows_fmap. }
  split; [rewrite Hids; set_solver|]. intros c. rewrite submitted_status, status_with_gameroom.
  destruct (status_of d c); [by left; eexists|]. case_decide as Hc; [|by intros []]. intros _. right.
  rewrite Hids, <- Hc. destruct Hroster as [?|Hne]; [by left|]. right. apply elem_of_app. right.
  destruct services as [|sv l]; [done|]. apply Forall_cons in Hservices as [[Hsv _] _]. cbn. rewrite Hsv. left.
Qed.

Lemma submitted_ok :
  Msg.roster (circuit_of (g_circuit_id g)) = [] ∨ services ≠ [] → coherent d → step_ok d d'.
Proof.
  intros Hroster (Hr & Ha & Hn). split; [|split; [|by apply submitted_serviced]].
  - split_and!; [by apply submitted_rows|by apply submitted_proposals|by apply submitted_numbers].
  - intros c s H. exists s. split; [|apply rtc_refl]. rewrite submitted_status. by apply status_with_gameroom_old.
Qed.
End submitted.

Lemma process_submitted_ok msg_proposal d (w : W) :
  Msg.cp_circuit_id msg_proposal = Msg.circuit_id (Msg.circuit msg_proposal) →
  Msg.circuit msg_proposal = circuit_of (Msg.cp_circuit_id msg_proposal) → coherent d →
  wp (process_submitted msg_proposal) (ends_ok d) (d, w).
Proof.
  intros Hc Hcirc Hd. unfold process_submitted. db_go.
  destruct (parse_gameroom _ _) as [g|] eqn:Hg; [|by apply unchanged_ok].
  assert (Hgc : g_circuit_id g = Msg.cp_circuit_id msg_proposal ∧ g_status g = "Pending").
  { unfold parse_gameroom in Hg. apply result_bind_inv in Hg as (m & _ & [= <-]). by rewrite Hc. }
  destruct Hgc as [Hgc Hgs]. db_go; [|by apply unchanged_ok].
  apply wp_insert_gameroom; [intros Hnew|intros; by apply rollback_ok]. rewrite Hgc in Hnew.
  db_go; try (apply rollback_ok; [|done]; cbn; lia).
  eapply submitted_ok with (g := g); try reflexivity; try done.
  - by rewrite Hgc.
  - rewrite Hgc. apply Forall_fmap, Forall_forall. done.
  - rewrite Hgc. apply Forall_fmap, Forall_forall. done.
  - rewrite Hgc, <- Hcirc. unfold parse_splinter_services.
    destruct (Msg.roster (Msg.circuit msg_proposal)); [by left|right].
    by rewrite fmap_cons.
Qed.

(** *** Gamerooms that are ready and active *)

Lemma update_notified_ok c t old new n d :
  (∀ s, status_of d c = Some s → s = old ∨ s = new) → advances old new → proposal_status old = proposal_status new →
  coherent d → step_ok d (update_all c t old new (set_notification n d)).
Proof.
  intros Hold Ha Hps Hd. apply (update_all_ok c t old new (set_notification n d)); try done.
  by eapply (same_gamerooms_ok d).
Qed.

#[local] Existing Instance world_clock.
#[local] Existing Instance world_igniter.
Lemma start_ws_keeps {T} (client : WebSocketClient T world) request_builds (P : Database → Prop) d (w : W) :
  P d → wp (emap_err AppWebSocketError (igniter_start_ws client request_builds)) (λ _ s, P s.1) (d, w).
Proof.
  intros HP. assert (Hnow : ∀ E (Q : result E Z → world → Prop), (∀ t w', Q (Ok t) (d, w')) → wp now Q (d, w)).
  { intros E Q HQ. unfold wp, now. cbn. destruct (system_time w). apply HQ. }
  apply wp_emap_err. unfold igniter_start_ws, context_new. wp_go. apply Hnow. intros t w'. unfold listen.
  destruct (request_builds _); wp_go; [|exact HP]. by apply wp_on_world.
Qed.

(** The services of a gameroom that is active are, and only those. *)
Lemma service_active d c :
  coherent d → gameroom_service_is_active c d = true → status_of d c = Some "Active".
Proof.
  intros ([_ Hs] & _) Ha. unfold gameroom_service_is_active in Ha.
  destruct (first_row _ _) as [r|] eqn:Hr; [|done]. apply first_row_elem in Hr as [Hin Hw].
  apply andb_prop in Hw as [Hc%bool_decide_eq_true He%bool_decide_eq_true].
  specialize (Hs r Hin). congruence.
Qed.
Lemma active_service d c :
  coherent d → status_of d c = Some "Active" → c ∈ service_ids d → gameroom_service_is_active c d = true.
Proof.
  intros ([_ Hs] & _) Ha (r & -> & Hr)%list_elem_of_fmap. unfold gameroom_service_is_active, first_row, select_rows.
  specialize (Hs r Hr). rewrite Ha in Hs. injection Hs as Hs.
  destruct (base.filter _ (tb_rows (db_service d))) as [|x l] eqn:Hf; [|done].
  assert (r ∈ ([] : list (Numbered NewGameroomService))) as Hin; [|by apply elem_of_nil in Hin].
  rewrite <- Hf. apply list_elem_of_filter. split; [|done].
  by rewrite !bool_decide_eq_true_2.
Qed.

(** A gameroom whose proposal was accepted; whose contract is set up or being set up *)
Definition is_ready (d : Database) (c : string) : Prop := status_of d c = Some "Ready" ∨ status_of d c = Some "Active".
Definition is_accepted (d : Database) (c : string) : Prop := status_of d c = Some "Accepted" ∨ is_ready d c.

(** The rows of the services of a gameroom are there. *)
Definition has_services (d : Database) : Prop :=
  ∀ c, is_Some (status_of d c) → Msg.roster (circuit_of c) = [] ∨ c ∈ service_ids d.

Lemma process_ready_ok request_builds panicked node_id private_key url msg_proposal d (w : W) :
  let c := Msg.cp_circuit_id msg_proposal in
  is_accepted d c → has_services d → Msg.circuit msg_proposal = circuit_of c → coherent d →
  wp (process_ready (Signer := Signer) request_builds panicked node_id private_key url msg_proposal)
    (λ r s, step_ok d s.1 ∧
       (is_ok r = true → is_Some (service_of_node node_id (Msg.roster (Msg.circuit msg_proposal))) → is_ready s.1 c))
    (d, w).
Proof.
  intros c Hacc Hserv Hcirc Hd. pose proof (unchanged_ok d Hd) as Hsame. unfold process_ready. db_go; [|by split].
  destruct (gameroom_service_is_active _ d) eqn:Hact.
  { split; [done|]. intros _ _. right. by apply service_active. }
  destruct (service_of_node _ _) as [service_id|] eqn:Hsv; [|by split; [|intros _ []]]. db_go.
  destruct (metadata_from_slice _) as [metadata|]; [|by split]. db_go.
  assert (Hold : status_of d c = Some "Accepted" ∨ status_of d c = Some "Ready").
  { destruct Hacc as [?|[?|Hact']]; [by left|by right|]. exfalso. destruct (Hserv c) as [Hnil|Hin]; [by eexists|..].
    - by rewrite Hcirc, Hnil in Hsv.
    - fold c in Hact. by rewrite active_service in Hact. }
  eapply wp_mono; [apply (start_ws_keeps _ _ (λ d', step_ok d d' ∧ is_ready d' c)); split|].
  - apply update_notified_ok; try done; [|apply rtc_once; constructor].
    intros s Hst. fold c in Hst. destruct Hold; [left|right]; congruence.
  - left. rewrite update_all_status, decide_True by done. change (status_of (set_notification _ d)) with (status_of d).
    by destruct Hold as [-> | ->].
  - cbn. intros r s [? ?]. auto.
Qed.

Lemma contract_created_ok p d (w : W) :
  (∀ s, status_of d (xp_circuit_id p) = Some s → s = "Ready" ∨ s = "Active") → coherent d →
  wp (contract_created p) (ends_ok d) (d, w).
Proof.
  intros Hs Hd. unfold contract_created. db_go; [|by apply unchanged_ok].
  apply update_notified_ok; try done. apply rtc_once. constructor.
Qed.

Lemma game_changed_ok p value d (w : W) : coherent d → wp (game_changed p value) (ends_ok d) (d, w).
Proof.
  intros Hd. unfold game_changed. db_go. destruct (from_utf8 value) as [s|]; [|by apply unchanged_ok].
  db_go; [|by apply unchanged_ok]. destruct (fetch_xo_game _ _ d) as [game|]; db_go;
    (destruct (game_fields _) as [[[[[? board] status] player_1] player_2]|]; [|by apply rollback_ok]); db_go;
    first [by apply rollback_ok | by apply same_gamerooms_ok].
Qed.
(** ** The states of the database *)

Lemma all_advance_trans d1 d2 d3 : all_advance d1 d2 → all_advance d2 d3 → all_advance d1 d3.
Proof.
  intros H1 H2 c s Hs. destruct (H1 c s Hs) as (s2 & Hs2 & Ha).
  destruct (H2 c s2 Hs2) as (s3 & Hs3 & Ha'). exists s3. split; [done|]. by etrans.
Qed.

Lemma step_ok_trans d1 d2 d3 : step_ok d1 d2 → step_ok d2 d3 → step_ok d1 d3.
Proof.
  intros (_ & H1 & Hv1) (Hd & H2 & Hv2). split; [done|].
  split; [by eapply all_advance_trans|by eapply serviced_trans].
Qed.

Lemma advances_active s : advances "Active" s → s = "Active".
Proof. intros H. inversion H as [|? ? ? Hn]; [done|inversion Hn]. Qed.
Lemma advances_ready s : advances "Ready" s → s = "Ready" ∨ s = "Active".
Proof.
  intros H. inversion H as [|? ? ? Hn H']; [by left|]. inversion Hn; subst. right. by apply advances_active.
Qed.
Lemma advances_accepted s : advances "Accepted" s → s = "Accepted" ∨ s = "Ready" ∨ s = "Active".
Proof.
  intros H. inversion H as [|? ? ? Hn H']; [by left|]. inversion Hn; subst. right. by apply advances_ready.
Qed.
Lemma is_ready_advance d d' c : is_ready d c → all_advance d d' → is_ready d' c.
Proof.
  intros [H|H] Ha; destruct (Ha c _ H) as (s & Hs & Hadv); unfold is_ready; rewrite Hs.
  - destruct (advances_ready s Hadv) as [-> | ->]; auto.
  - rewrite (advances_active s Hadv). by right.
Qed.
Lemma is_accepted_advance d d' c : is_accepted d c → all_advance d d' → is_accepted d' c.
Proof.
  intros [Hs|Hr] Ha; [|right; by eapply is_ready_advance]. destruct (Ha c _ Hs) as (s & Hs' & Hadv).
  unfold is_accepted, is_ready. rewrite Hs'. destruct (advances_accepted s Hadv) as [-> |[-> | ->]]; auto.
Qed.

Lemma handle_state_change_ok p change d (w : W) :
  is_ready d (xp_circuit_id p) → coherent d → wp (handle_state_change p change) (ends_ok d) (d, w).
Proof.
  intros Hr Hd. destruct change as [key value|key]; [|by apply unchanged_ok]. cbn.
  case_bool_decide.
  - apply contract_created_ok; [|done]. intros s. destruct Hr as [-> | ->]; intros [= <-]; auto.
  - apply wp_bind, wp_lift. destruct (first_six key) as [prefix|]; [|by apply unchanged_ok]. cbn [ok_or].
    case_bool_decide; [by apply game_changed_ok|by apply unchanged_ok].
Qed.

Lemma handle_state_changes_ok p changes d (w : W) :
  is_ready d (xp_circuit_id p) → coherent d → wp (handle_state_changes p changes) (ends_ok d) (d, w).
Proof.
  revert d w. induction changes as [|change changes IH]; intros d w Hr Hd; [by apply unchanged_ok|].
  cbn [handle_state_changes]. apply wp_bind. eapply wp_mono; [by apply handle_state_change_ok|].
  intros [[]|e] [d1 w1] Hok; [|exact Hok]. pose proof Hok as (Hd1 & Ha1 & _).
  eapply wp_mono; [apply IH; [by eapply is_ready_advance|done]|].
  intros r [d2 w2] Hok2. by eapply step_ok_trans.
Qed.

Context (request_builds : string → bool) (panicked : WsResponse).

(** What the daemon is given: an event of the admin service, for the node and with the key
    and the URL it was started with, and changes of the state of an XO service; each with
    the world as it then is. *)
Inductive gameroom_input :=
  | InEvent (node_id private_key url : string) (e : Msg.AdminServiceEvent) (w : W)
  | InChanges (p : XoStateDeltaProcessor) (changes : list StateChangeEvent) (w : W).

(** The database, and the circuits for which an accepted proposal, and a ready circuit with
    a service for the node, were handled without an error. *)
Record gameroom_log := mkGameroomLog {
  lg_db : Database;
  lg_accepted : gset string;
  lg_ready : gset string;
}.
Definition log_new : gameroom_log := mkGameroomLog database_new ∅ ∅.

Definition handle_input (i : gameroom_input) (l : gameroom_log) : gameroom_log :=
  match i with
  | InEvent node_id private_key url e w =>
      let '(r, s) := process_admin_event (Signer := Signer) request_builds panicked node_id private_key url e (lg_db l, w) in
      match r, e with
      | Ok _, Msg.ProposalAccepted p _ => mkGameroomLog s.1 ({[Msg.cp_circuit_id p]} ∪ lg_accepted l) (lg_ready l)
      | Ok _, Msg.CircuitReady p =>
          match service_of_node node_id (Msg.roster (Msg.circuit p)) with
          | Some _ => mkGameroomLog s.1 (lg_accepted l) ({[Msg.cp_circuit_id p]} ∪ lg_ready l)
          | None => mkGameroomLog s.1 (lg_accepted l) (lg_ready l)
          end
      | _, _ => mkGameroomLog s.1 (lg_accepted l) (lg_ready l)
      end
  | InChanges p changes w => mkGameroomLog (handle_state_changes p changes (lg_db l, w)).2.1 (lg_accepted l) (lg_ready l)
  end.
Definition handle_inputs (ins : list gameroom_input) (l : gameroom_log) : gameroom_log :=
  foldl (λ l i, handle_input i l) l ins.

(** What is relied on: a proposal is for its circuit, and a circuit that is ready is the one
    that was submitted under its id; a circuit is ready only after the event that its
    proposal was accepted was handled without an error; and the state of a service
    changes only after the event that its circuit is ready was, which subscribes to it.
    All of them may come again and again. *)
Definition in_order (l : gameroom_log) (i : gameroom_input) : Prop :=
  match i with
  | InEvent _ _ _ (Msg.ProposalSubmitted p) _ =>
      Msg.cp_circuit_id p = Msg.circuit_id (Msg.circuit p) ∧ Msg.circuit p = circuit_of (Msg.cp_circuit_id p)
  | InEvent _ _ _ (Msg.CircuitReady p) _ =>
      Msg.circuit p = circuit_of (Msg.cp_circuit_id p) ∧ Msg.cp_circuit_id p ∈ lg_accepted l
  | InEvent _ _ _ _ _ => True
  | InChanges p _ _ => xp_circuit_id p ∈ lg_ready l
  end.
Fixpoint all_in_order (ins : list gameroom_input) (l : gameroom_log) : Prop :=
  match ins with
  | [] => True
  | i :: ins => in_order l i ∧ all_in_order ins (handle_input i l)
  end.

Definition log_ok (l : gameroom_log) : Prop :=
  coherent (lg_db l) ∧ has_services (lg_db l) ∧
  (∀ c, c ∈ lg_accepted l → is_accepted (lg_db l) c) ∧ (∀ c, c ∈ lg_ready l → is_ready (lg_db l) c).

Lemma log_step d' l accepted ready :
  log_ok l → step_ok (lg_db l) d' →
  (∀ c, c ∈ accepted → is_accepted d' c ∨ c ∈ lg_accepted l) → (∀ c, c ∈ ready → is_ready d' c ∨ c ∈ lg_ready l) →
  log_ok (mkGameroomLog d' accepted ready) ∧ all_advance (lg_db l) d'.
Proof.
  intros (_ & Hs & Ha & Hr) (Hd' & Hadv & [Hids Hserv]) Ha' Hr'. split; [|done]. split_and!; [done|..]; cbn.
  - intros c Hc. destruct (Hserv c Hc) as [Hold|?]; [|done]. destruct (Hs c Hold); auto.
  - intros c Hc. destruct (Ha' c Hc) as [?|Hold]; [done|]. eapply is_accepted_advance; [by apply Ha|done].
  - intros c Hc. destruct (Hr' c Hc) as [?|Hold]; [done|]. eapply is_ready_advance; [by apply Hr|done].
Qed.

Lemma handle_input_ok i l :
  log_ok l → in_order l i → log_ok (handle_input i l) ∧ all_advance (lg_db l) (lg_db (handle_input i l)).
Proof.
  intros Hl Ho. pose proof Hl as (Hd & Hs & Ha & Hr).
  assert (∀ E (m : eff world E ()) w, wp m (ends_ok (lg_db l)) (lg_db l, w) → step_ok (lg_db l) (m (lg_db l, w)).2.1) as Hwp.
  { intros E m w Hm. exact (wp_state (λ s, step_ok (lg_db l) s.1) m (lg_db l, w) Hm). }
  destruct i as [node_id private_key url e w|p changes w]; cbn [handle_input].
  2: { apply log_step; auto. apply Hwp. apply handle_state_changes_ok; [by apply Hr|done]. }
  destruct e as [q|q signer|q signer|q signer|q]; cbn [process_admin_event in_order] in *.
  - destruct Ho as [Ho1 Ho2]. pose proof (Hwp _ _ w (process_submitted_ok q _ w Ho1 Ho2 Hd)) as Hstep.
    destruct (process_submitted q (lg_db l, w)) as [[] s]; apply log_step; auto.
  - pose proof (Hwp _ _ w (process_vote_ok q signer _ w Hd)) as Hstep.
    destruct (process_vote q signer (lg_db l, w)) as [[] s]; apply log_step; auto.
  - pose proof (process_decided_ok "proposal_accepted" "Accept" "Accepted" q signer (lg_db l) w
      (rtc_once _ _ next_accept) eq_refl Hd) as Hstep. unfold wp in Hstep. unfold process_accepted.
    destruct (process_decided _ _ _ q signer (lg_db l, w)) as [[] s]; destruct Hstep as [Hstep Hst]; apply log_step; auto.
    intros c [->%elem_of_singleton|?]%elem_of_union; [|by right]. left. left. by apply Hst.
  - pose proof (process_decided_ok "proposal_rejected" "Reject" "Rejected" q signer (lg_db l) w
      (rtc_once _ _ next_reject) eq_refl Hd) as Hstep. unfold wp in Hstep. unfold process_rejected.
    destruct (process_decided _ _ _ q signer (lg_db l, w)) as [[] s]; destruct Hstep as [Hstep _]; apply log_step; auto.
  - destruct Ho as [Ho1 Ho2].
    pose proof (process_ready_ok request_builds panicked node_id private_key url q (lg_db l) w (Ha _ Ho2) Hs Ho1 Hd) as Hstep.
    unfold wp in Hstep. destruct (process_ready _ _ _ _ _ q (lg_db l, w)) as [[] s]; destruct Hstep as [Hstep Hst];
      [|apply log_step; auto]. destruct (service_of_node _ _); apply log_step; auto.
    intros c [->%elem_of_singleton|?]%elem_of_union; [|by right]. left. apply Hst; [done|by eexists].
Qed.

Lemma handle_inputs_ok ins l :
  log_ok l → all_in_order ins l → log_ok (handle_inputs ins l) ∧ all_advance (lg_db l) (lg_db (handle_inputs ins l)).
Proof.
  revert l. induction ins as [|i ins IH]; intros l Hl Ho; [by split; [|apply all_advance_same]|].
  destruct Ho as [Ho1 Ho2]. destruct (handle_input_ok i l Hl Ho1) as [Hl1 Ha1].
  destruct (IH _ Hl1 Ho2) as [Hl2 Ha2]. split; [done|]. by eapply all_advance_trans.
Qed.

Lemma all_in_order_app ins1 ins2 l :
  all_in_order (ins1 ++ ins2) l ↔ all_in_order ins1 l ∧ all_in_order ins2 (handle_inputs ins1 l).
Proof. revert l. induction ins1 as [|i ins1 IH]; intros l; cbn; [tauto|]. rewrite IH. tauto. Qed.

Lemma database_new_coherent : coherent database_new.
Proof.
  split_and!; [split|..]; cbn; try (by intros ? ?%not_elem_of_nil).
  split; cbn; try constructor. by intros ? ?%not_elem_of_nil.
Qed.

Lemma log_new_ok : log_ok log_new.
Proof.
  split_and!; [exact database_new_coherent|..]; cbn; try set_solver. intros c []. done.
Qed.

(** C26: whatever events of the admin service and changes of the state of the XO services
    the daemon handles, and whether it can or fails to: the members and the services of a
    gameroom have its status, the proposal has the status that belongs to it, no two
    proposals are for one circuit or share a number, every vote is for a proposal that
    exists; and the status of a gameroom only moves from pending to rejected, or by
    accepted and ready to active.  This needs of the events that a proposal is submitted
    for its own circuit, that a circuit is announced as ready only after its acceptance was
    handled without an error and with the circuit that was submitted, and that the state
    of a service changes only after the circuit was handled as ready: the daemon checks
    none of it. *)
Theorem gamerooms_coherent ins1 ins2 :
  all_in_order (ins1 ++ ins2) log_new →
  let d := lg_db (handle_inputs ins1 log_new) in
  let d' := lg_db (handle_inputs (ins1 ++ ins2) log_new) in
  coherent d' ∧ ∀ c s, status_of d c = Some s → ∃ s', status_of d' c = Some s' ∧ advances s s'.
Proof.
  intros [H1 H2]%all_in_order_app d d'. destruct (handle_inputs_ok _ _ log_new_ok H1) as [Hl _].
  destruct (handle_inputs_ok _ _ Hl H2) as [[Hd _] Ha].
  unfold d', handle_inputs in *. rewrite foldl_app. by split.
Qed.
End handlers.
End circuits.

(** ** An instance *)

Module GameroomMock.

(** The world is a clock. *)
#[local] Instance mock_clock : SystemClock Z := λ w, (w, (w + 1)%Z).
#[local] Instance mock_pool : ConnectionPool Z := mret ().
#[local] Instance mock_igniter : IgniterChannel Z := {|
  send_reactor _ := mret ();
  is_reactor_running _ := true;
  join_reactor := mret ();
|}.
#[local] Instance mock_sabre : Sabre Z string := {|
  sabre_sha512 b := b;
  administrators_setting_address := "admin";
  sabre_payload _ := Some "payload";
  write_transaction_header _ := Some "header";
  write_batch_header _ := Some "header";
  write_batch_list _ := Some "batches";
  signer_of k := Some k;
  signer_public_key k := Some k;
  signer_sign _ _ := Some "signature";
  post_request _ _ := Some 1;
  future_ok := 0;
  instant_elapsed w := ((0, 0)%Z, w);
  open_file _ := mret ();
  read_to_end := mret "wasm";
|}.
#[local] Instance mock_json : MetadataJson := {|
  metadata_from_slice _ := Some (mkApplicationMetadata "room" ["key"]);
  metadata_to_vec _ := Some "";
|}.

Definition circuit : Msg.CreateCircuit :=
  Msg.mkCreateCircuit "c" [Msg.mkSplinterService "a" "scabbard" ["A"] []]
    [Msg.mkSplinterNode "A" "tcp://a"; Msg.mkSplinterNode "B" "tcp://b"]
    AuthTrust PersistenceAny NoDurability RouteAny "gameroom" "".
Definition proposal (votes : list Msg.VoteRecord) : Msg.CircuitProposal :=
  Msg.mkCircuitProposal Msg.Create "c" "hash" circuit votes "r" "A".
Definition vote (v : Msg.Vote) : Msg.VoteRecord := Msg.mkVoteRecord "b" v "B".

Definition run (e : Msg.AdminServiceEvent) (d : Database) : Database :=
  (process_admin_event (Signer := string) (λ _, true) WsEmpty "A" "key" "url" e (d, 0%Z)).2.1.
Definition pending : Database := run (Msg.ProposalSubmitted (proposal [])) database_new.
Definition accepted : Database := run (Msg.ProposalAccepted (proposal [vote Msg.Accept]) "b") pending.
Definition ready : Database := run (Msg.CircuitReady (proposal [])) accepted.

(** A gameroom up to its first game; the events are sent again when it is ready and when
    it is active. *)
Definition xo_changes : list StateChangeEvent :=
  [ChangeSet (get_xo_contract_address (W := Z) (Signer := string)) ""; ChangeSet "5b7349aa" "game,---------,P1-NEXT,,"].
Definition event (e : Msg.AdminServiceEvent) : gameroom_input (W := Z) := InEvent "A" "key" "url" e 0%Z.
Definition first_events : list (gameroom_input (W := Z)) :=
  [event (Msg.ProposalSubmitted (proposal [])); event (Msg.ProposalVote (proposal [vote Msg.Accept]) "b")].
Definition later_events : list (gameroom_input (W := Z)) :=
  [event (Msg.ProposalAccepted (proposal [vote Msg.Accept]) "b"); event (Msg.CircuitReady (proposal []));
   event (Msg.ProposalAccepted (proposal [vote Msg.Accept]) "b"); event (Msg.CircuitReady (proposal []));
   InChanges (processor_new (W := Z) (Signer := string) "c" "A" "r") xo_changes 0%Z;
   event (Msg.CircuitReady (proposal []))].

Lemma gamerooms_coherent_witness :
  let d' := lg_db (handle_inputs (Signer := string) (λ _, true) WsEmpty (first_events ++ later_events) log_new) in
  status_of d' "c" = Some "Active" ∧ length (tb_rows (db_xo_game d')) = 1 ∧
  coherent d' ∧ ∃ s, status_of d' "c" = Some s ∧ advances "Pending" s.
Proof.
  intros d'. split; [vm_compute; reflexivity|]. split; [vm_compute; reflexivity|].
  destruct (gamerooms_coherent (W := Z) (Signer := string) (λ _, circuit) (λ _, true) WsEmpty first_events later_events)
    as [Hc Ha].
  - repeat apply conj; try exact I; try reflexivity; apply (bool_decide_unpack _); vm_compute; exact I.
  - split; [exact Hc|]. apply Ha. vm_compute. reflexivity.
Defined.

(** A vote that is sent again, as all events are when the connection is made again, is
    recorded again while the proposal is pending. *)
Lemma vote_recorded_again :
  let e := Msg.ProposalVote (proposal [vote Msg.Accept]) "b" in
  (λ r, nvr_voter_node_id (row_data r)) <$> tb_rows (db_vote_record (run e (run e pending))) = ["B"; "B"].
Proof. vm_compute. reflexivity. Qed.

(** The status of a gameroom is not looked at when its circuit is ready: had it been
    rejected, its members would stay so. *)
Lemma ready_unchecked :
  let d := run (Msg.CircuitReady (proposal [])) (run (Msg.ProposalRejected (proposal [vote Msg.Reject]) "b") pending) in
  status_of d "c" = Some "Ready" ∧ (λ r, ngm_status (row_data r)) <$> tb_rows (db_member d) = ["Rejected"; "Rejected"].
Proof. vm_compute. split; reflexivity. Qed.

(** A circuit whose proposal was rejected cannot be proposed again. *)
Lemma rejected_stays :
  let d := run (Msg.ProposalRejected (proposal [vote Msg.Reject]) "b") pending in
  status_of (run (Msg.ProposalSubmitted (proposal [])) d) "c" = Some "Rejected".
Proof. vm_compute. reflexivity. Qed.

(** A key that is shorter than a prefix makes the processor panic. *)
Lemma short_key_panics :
  (handle_state_change (processor_new (W := Z) (Signer := string) "c" "A" "r") (ChangeSet "5b73" "") (ready, 0%Z)).1
  = Err DeltaPanic.
Proof. vm_compute. reflexivity. Qed.
End GameroomMock.
