(* ===== verification/GameroomRoutes.v ===== *)
(** * The REST routes of the gameroom daemon

    Models [examples/gameroom/daemon/src/rest_api]: the routes that read and write the
    database, those that prepare payloads and those that pass requests on to splinterd.
    Actix takes requests apart and a route is given the parts; splinterd is reached over
    the class [SplinterdClient]; JSON, bcrypt and uuids are the class [ApiLibraries].
    The closures given to [web::block] do not panic, so that it is never cancelled. *)

From stdpp Require Import pretty.
From S2P Require Import Prelude Hex Circuit NodeRegistry Routes AdminMessages AdminShared.
From S2P Require Import ScabbardState WebSocket GameroomDatabase GameroomSabre GameroomEvents.
From Stdlib Require Import Lia ZArith.

(** ** Responses ([routes/mod.rs], [error.rs]) *)

Inductive RestApiResponseError :=
  | ApiDatabaseError (msg : string)
  | ApiInternalError (msg : string)
  | ApiUnauthorizedError
  | ApiBadRequestError (msg : string)
  | ApiNotFoundError (msg : string).
Definition api_error_display (e : RestApiResponseError) : string :=
  match e with
  | ApiDatabaseError e => "Database error: " +:+ e
  | ApiInternalError e => "Internal error occurred: " +:+ e
  | ApiUnauthorizedError => "Unauthorized"
  | ApiBadRequestError e => "Bad Request: " +:+ e
  | ApiNotFoundError e => "Not Found: " +:+ e
  end.

Record SuccessResponse (A : Type) := mkSuccessResponse { sr_data : A; sr_paging : option Paging }.
Arguments mkSuccessResponse {A} sr_data sr_paging.
Arguments sr_data {A} s.
Arguments sr_paging {A} s.
Definition success_new {A} (data : A) : SuccessResponse A := mkSuccessResponse data None.
Definition success_list {A} (data : A) (paging : Paging) : SuccessResponse A := mkSuccessResponse data (Some paging).

(** The status of an answer with its body.  [ApiActixError] is an error that actix makes
    an answer of, [ApiPanic] a panic outside of [web::block]. *)
Inductive ApiResponse (A : Type) :=
  | ApiOk (body : A)
  | ApiAccepted (body : A)
  | ApiBadRequest (msg : string)
  | ApiBadRequestWithData (msg : string) (data : A)
  | ApiUnauthorized (msg : string)
  | ApiNotFound (msg : string)
  | ApiInternalServerError
  | ApiActixError
  | ApiPanic.
Arguments ApiOk {A} body.
Arguments ApiAccepted {A} body.
Arguments ApiBadRequest {A} msg.
Arguments ApiBadRequestWithData {A} msg data.
Arguments ApiUnauthorized {A} msg.
Arguments ApiNotFound {A} msg.
Arguments ApiInternalServerError {A}.
Arguments ApiActixError {A}.
Arguments ApiPanic {A}.

(** An answer that has no body *)
Definition without_body {A} (r : ApiResponse Empty_set) : ApiResponse A :=
  match r with
  | ApiOk body | ApiAccepted body | ApiBadRequestWithData _ body => match body with end
  | ApiBadRequest msg => ApiBadRequest msg
  | ApiUnauthorized msg => ApiUnauthorized msg
  | ApiNotFound msg => ApiNotFound msg
  | ApiInternalServerError => ApiInternalServerError
  | ApiActixError => ApiActixError
  | ApiPanic => ApiPanic
  end.

(** ** Paging *)

Definition MAX_LIMIT : Z := 1000.
Definition i64_modulus : Z := 2 ^ 64.
(** [as i64] of a [usize], the addition of [i64] and [as usize] of an [i64] *)
Definition as_i64 (z : Z) : Z := if (z mod i64_modulus <? 2 ^ 63)%Z then z mod i64_modulus else z mod i64_modulus - i64_modulus.
Definition i64_add (a b : Z) : Z := as_i64 (a + b).
Definition as_usize (z : Z) : Z := z mod i64_modulus.

Definition validate_limit (limit : Z) : Z := if (limit >? MAX_LIMIT)%Z then DEFAULT_LIMIT else limit.

(** No result is the panic of the division by zero. *)
Definition gameroom_paging_info (limit offset : Z) (link : string) (query_count : Z) : option Paging :=
  let limit := validate_limit limit in
  let offset := as_i64 offset in
  let query_count := as_i64 query_count in
  let base_link := link +:+ "limit=" +:+ pretty limit +:+ "&" in
  let link_to o := base_link +:+ "offset=" +:+ pretty o in
  let previous_offset := if (offset >? limit)%Z then (offset - limit)%Z else 0%Z in
  last ← (if (query_count >? 0)%Z then
            if (limit =? 0)%Z then None else Some (Z.quot (query_count - 1) limit * limit)%Z
          else Some 0%Z);
  let next_offset := if (i64_add offset limit >? last)%Z then last else i64_add offset limit in
  Some (mkPaging (link_to offset) (as_usize offset) (as_usize limit) (as_usize query_count) (base_link +:+ "offset=0")
    (link_to previous_offset) (link_to next_offset) (link_to last)).

(** An answer that is a list with its total *)
Definition list_answer {A} (limit offset : Z) (link : string) (r : result RestApiResponseError (list A * Z)) :
    ApiResponse (SuccessResponse (list A)) :=
  match r with
  | Ok (data, query_count) =>
      match gameroom_paging_info limit offset link (as_usize query_count) with
      | Some paging => ApiOk (success_list data paging)
      | None => ApiPanic
      end
  | Err _ => ApiInternalServerError
  end.
(** An answer to a request for one thing *)
Definition fetch_answer {A B} (wrap : A → B) (r : result RestApiResponseError A) : ApiResponse B :=
  match r with
  | Ok a => ApiOk (wrap a)
  | Err (ApiNotFoundError msg) => ApiNotFound msg
  | Err e => ApiBadRequest (api_error_display e)
  end.

(** Whole seconds since the epoch *)
Definition epoch_secs (t : Z) : Z := (Z.max 0 t / SECOND)%Z.

(** ** Interfaces *)

(** The answer of splinterd: the status, and the body, when it can be received *)
Record HttpReply := mkHttpReply { hr_status : Z; hr_body : option bytes }.
Class SplinterdClient (W : Type) := {
  http_get : string → eff W () HttpReply;
  http_post : string → bytes → eff W () HttpReply;
}.

Class ApiLibraries (W : Type) := {
  json_node_list : bytes → option (SuccessResponse (list Node));
  json_node : bytes → option Node;
  json_string : bytes → option string;
  (** a value, its field [message], and that as a string *)
  json_message : bytes → option (option (option string));
  json_batch_infos : bytes → option (list BatchInfo);
  json_string_map : bytes → option (gmap string string);
  json_of_strings : list string → option string;
  percent_encode : string → string;
  bcrypt_hash : string → Z → eff W () string;
  bcrypt_verify : string → string → option bool;
  new_uuid : W → string * W;
  sha512_hash : bytes → option bytes;
  sleep_secs : Z → W → W;
}.

(** [Some(value) => value.as_str().unwrap_or(text), None => text] *)
Definition message_or (malformed missing : string) (m : option (option string)) : string :=
  match m with Some value => default malformed value | None => missing end.

Section routes.
Context {W : Type} `{!SystemClock W, !ConnectionPool W, !SplinterdClient W, !ApiLibraries W, !MetadataJson}.
Context `{!Codec Proto.CircuitCreateRequest, !Codec Proto.CircuitProposalVote, !Codec Proto.Header,
  !Codec Proto.CircuitManagementPayload}.

Abbreviation world := (Database * W)%type.
Abbreviation api_eff := (eff world RestApiResponseError).

Definition api_conn : api_eff () := on_world (λ _, ApiDatabaseError "") pool_get.
(** A query on a connection of its own *)
Definition select {A} (f : Database → A) : api_eff A := api_conn;; d ← get_db; mret (f d).
Definition select_page {A} (f : Database → result DatabaseError A) : api_eff A :=
  r ← select f; lift (map_err (λ _, ApiDatabaseError "") r).

(** [Uuid::new_v4] and [thread::sleep] *)
Definition new_v4 {E} : eff world E string := λ '(d, w), let '(u, w) := new_uuid w in (Ok u, (d, w)).
Definition sleep {E} (secs : Z) : eff world E () := λ '(d, w), (Ok (), (d, sleep_secs secs w)).

(** The answer to the result of a computation *)
Definition answer {E A B} (f : result E A → B) (m : eff world E A) : world → B * world := λ s,
  let '(r, s) := m s in (f r, s).

(** ** Gamerooms ([routes/gameroom.rs]) *)

Record CreateGameroomForm := mkCreateGameroomForm { cg_alias : string; cg_members : list string }.
Record GameroomdData := mkGameroomdData { gd_public_key : string }.
Record ApiGameroomMember := mkApiGameroomMember { agm_node_id : string; agm_endpoint : string }.
Definition api_member (m : GameroomMember) : ApiGameroomMember :=
  mkApiGameroomMember (ngm_node_id (row_data m)) (ngm_endpoint (row_data m)).
Record ApiGameroom := mkApiGameroom {
  ag_api_circuit_id : string;
  ag_authorization_type : string;
  ag_persistence : string;
  ag_routes : string;
  ag_circuit_management_type : string;
  ag_members : list ApiGameroomMember;
  ag_alias : string;
  ag_api_status : string;
}.
Definition api_gameroom (g : Gameroom) (members : list GameroomMember) : ApiGameroom :=
  mkApiGameroom (g_circuit_id g) (g_authorization_type g) (g_persistence g) (g_routes g)
    (g_circuit_management_type g) (api_member <$> members) (g_alias g) (g_status g).

Definition I64_MAX : Z := 2 ^ 63 - 1.

(** The nodes with the identities, in their order *)
Fixpoint find_nodes (nodes : list Node) (node_ids : list string) : result RestApiResponseError (list Node) :=
  match node_ids with
  | [] => mret []
  | node_id :: node_ids =>
      node ← ok_or (ApiBadRequestError ("Could not find node with id " +:+ node_id))
        (head (base.filter (λ n, identity n = node_id) nodes));
      l ← find_nodes nodes node_ids;
      mret (node :: l)
  end.

Definition fetch_node_information (node_ids : list string) (splinterd_url : string) : api_eff (list Node) :=
  resp ← on_world (λ _, ApiInternalError "Failed to send request ")
    (http_get (splinterd_url +:+ "/nodes?limit=" +:+ pretty I64_MAX));
  body ← lift (ok_or (ApiInternalError "Failed to receive response body ") (hr_body resp));
  if bool_decide (hr_status resp = 200%Z) then
    list_response ← lift (ok_or (ApiInternalError "Failed to parse response body ") (json_node_list body));
    lift (find_nodes (sr_data list_response) node_ids)
  else
    message ← lift (ok_or (ApiInternalError "Failed to parse response body ") (json_string body));
    if bool_decide (hr_status resp = 400%Z) then throw (ApiBadRequestError message) else throw (ApiInternalError message).

Definition check_alias_uniqueness (alias : string) : api_eff () :=
  g ← select (fetch_gameroom_by_alias alias);
  match g with
  | Some gameroom => throw (ApiBadRequestError ("Gameroom with alias " +:+ g_alias gameroom +:+ " already exists"))
  | None => mret ()
  end.

(** The payload with a header whose action is the given one: it has no requester and no
    signature yet. *)
Definition make_payload (action : Proto.Action) (request_bytes : option bytes) (local_node : string)
    (fill : bytes → Proto.CircuitManagementPayload) : result RestApiResponseError bytes :=
  request_bytes ← ok_or (ApiInternalError "") request_bytes;
  hashed_bytes ← ok_or (ApiInternalError "") (sha512_hash request_bytes);
  header_bytes ← ok_or (ApiInternalError "") (write_to_bytes (Proto.mkHeader action "" hashed_bytes local_node));
  ok_or (ApiInternalError "") (write_to_bytes (fill header_bytes)).
Definition unset_circuit : Proto.Circuit :=
  Proto.mkCircuit "" [] [] Proto.UNSET_AUTHORIZATION_TYPE Proto.UNSET_PERSISTENCE_TYPE Proto.UNSET_DURABILITY_TYPE
    Proto.UNSET_ROUTE_TYPE "" "".
Definition unset_vote : Proto.CircuitProposalVote := Proto.mkCircuitProposalVote "" "" Proto.UNSET_VOTE.
Definition make_create_payload (create_request : Msg.CreateCircuit) (local_node : string) :
    result RestApiResponseError bytes :=
  circuit_proto ← map_err (λ _, ApiInternalError "") (Msg.create_circuit_into_proto create_request);
  make_payload Proto.CIRCUIT_CREATE_REQUEST (write_to_bytes circuit_proto) local_node
    (λ header_bytes, Proto.mkCircuitManagementPayload header_bytes "" unset_vote circuit_proto "").

Definition endpoint_of (node : Node) : string := default "" (metadata node !! "endpoint").
Definition splinter_node (node : Node) : Msg.SplinterNode := Msg.mkSplinterNode (identity node) (endpoint_of node).
Definition gameroom_service_id (node_id : string) : string := "gameroom_" +:+ node_id.

Definition peer_services (members : list Msg.SplinterNode) (node : Msg.SplinterNode) : list string :=
  omap (λ other, if bool_decide (Msg.node_id other ≠ Msg.node_id node)
                 then Some (gameroom_service_id (Msg.node_id other)) else None) members.
Fixpoint gameroom_roster (scabbard_args : list (string * string)) (members nodes : list Msg.SplinterNode) :
    option (list Msg.SplinterService) :=
  match nodes with
  | [] => Some []
  | node :: nodes =>
      peers ← json_of_strings (peer_services members node);
      roster ← gameroom_roster scabbard_args members nodes;
      Some (Msg.mkSplinterService (gameroom_service_id (Msg.node_id node)) "scabbard" [Msg.node_id node]
              (scabbard_args ++ [("peer_services", peers)]) :: roster)
  end.

(** The circuit that is proposed, or the answer that it is not *)
Definition gameroom_circuit (form : CreateGameroomForm) (node_info : Node) (data : GameroomdData) (nodes : list Node) :
    eff world (ApiResponse Empty_set) Msg.CreateCircuit :=
  let members := (splinter_node <$> nodes) ++ [splinter_node node_info] in
  let partial_circuit_id := foldl (λ acc m, acc +:+ "::" +:+ Msg.node_id m) "" members in
  let scabbard_admin_keys := [gd_public_key data] in
  admin_keys ← lift (ok_or ApiInternalServerError (json_of_strings scabbard_admin_keys));
  roster ← lift (ok_or ApiInternalServerError (gameroom_roster [("admin_keys", admin_keys)] members members));
  emap_err (λ e, ApiBadRequest (api_error_display e)) (check_alias_uniqueness (cg_alias form));;
  application_metadata ← lift (map_err (λ _, ApiInternalServerError)
    (metadata_to_bytes (metadata_new (cg_alias form) scabbard_admin_keys)));
  uuid ← new_v4;
  mret (Msg.mkCreateCircuit ("gameroom" +:+ partial_circuit_id +:+ "::" +:+ uuid) roster members
    AuthTrust PersistenceAny NoDurability RouteAny "gameroom" application_metadata).

Definition propose_gameroom (form : CreateGameroomForm) (node_info : Node) (splinterd_url : string)
    (data : GameroomdData) : world → ApiResponse bytes * world :=
  answer (λ r, match r with Ok bytes => ApiOk bytes | Err e => without_body e end) (
    nodes ← emap_err (λ e, match e with ApiBadRequestError message => ApiBadRequest message | _ => ApiInternalServerError end)
      (fetch_node_information (cg_members form) splinterd_url);
    create_request ← gameroom_circuit form node_info data nodes;
    lift (map_err (λ _, ApiInternalServerError) (make_create_payload create_request (identity node_info)))).

(** The members of the gamerooms, a query for each *)
Fixpoint with_members (gamerooms : list Gameroom) : api_eff (list ApiGameroom) :=
  match gamerooms with
  | [] => mret []
  | g :: gamerooms =>
      members ← select (fetch_gameroom_members_by_circuit_id_and_status (g_circuit_id g) (g_status g));
      l ← with_members gamerooms;
      mret (api_gameroom g members :: l)
  end.
Definition list_gamerooms_from_db (status_optional : option string) (limit offset : Z) : api_eff (list ApiGameroom * Z) :=
  let db_limit := validate_limit limit in
  let db_offset := as_i64 offset in
  gamerooms ← match status_optional with
              | Some status => select_page (list_gamerooms_with_paging_and_status status db_limit db_offset)
              | None => select_page (list_gamerooms_with_paging db_limit db_offset)
              end;
  l ← with_members gamerooms;
  n ← select get_gameroom_count;
  mret (l, n).
Definition list_gamerooms (query : gmap string string) : world → ApiResponse (SuccessResponse (list ApiGameroom)) * world :=
  let offset := default DEFAULT_OFFSET (value ← query !! "offset"; parse_usize value) in
  let limit := default DEFAULT_LIMIT (value ← query !! "limit"; parse_usize value) in
  answer (list_answer limit offset "api/gamerooms?") (list_gamerooms_from_db (query !! "status") limit offset).

Definition fetch_gameroom_from_db (circuit_id : string) : api_eff ApiGameroom :=
  g ← select (fetch_gameroom circuit_id);
  match g with
  | Some gameroom =>
      members ← select (fetch_gameroom_members_by_circuit_id_and_status (g_circuit_id gameroom) (g_status gameroom));
      mret (api_gameroom gameroom members)
  | None => throw (ApiNotFoundError ("Gameroom with id " +:+ circuit_id +:+ " not found"))
  end.
(** The gameroom is the body, without a [SuccessResponse] around it. *)
Definition fetch_gameroom_route (circuit_id : string) : world → ApiResponse ApiGameroom * world :=
  answer (fetch_answer (λ g, g)) (fetch_gameroom_from_db circuit_id).

(** ** Proposals ([routes/proposal.rs]) *)

Record ApiGameroomProposal := mkApiGameroomProposal {
  agp_proposal_id : string;
  agp_circuit_id : string;
  agp_circuit_hash : string;
  agp_members : list ApiGameroomMember;
  agp_requester : string;
  agp_requester_node_id : string;
  agp_created_time : Z;
  agp_updated_time : Z;
}.
Definition api_proposal (p : GameroomProposal) (members : list GameroomMember) : ApiGameroomProposal :=
  let q := row_data p in
  mkApiGameroomProposal (pretty (row_id p)) (ngp_circuit_id q) (ngp_circuit_hash q) (api_member <$> members)
    (ngp_requester q) (ngp_requester_node_id q) (epoch_secs (ngp_created_time q)) (epoch_secs (ngp_updated_time q)).

Definition get_proposal_from_db (id : Z) : api_eff ApiGameroomProposal :=
  p ← select (fetch_proposal_by_id id);
  match p with
  | Some proposal =>
      members ← select (fetch_gameroom_members_by_circuit_id_and_status (ngp_circuit_id (row_data proposal)) "Pending");
      mret (api_proposal proposal members)
  | None => throw (ApiNotFoundError ("Proposal with id " +:+ pretty id +:+ " not found"))
  end.
Definition fetch_proposal (proposal_id : Z) : world → ApiResponse (SuccessResponse ApiGameroomProposal) * world :=
  answer (fetch_answer success_new) (get_proposal_from_db proposal_id).

(** The members by their circuit, of which each proposal takes its own *)
Definition group_members (members : list GameroomMember) : gmap string (list GameroomMember) :=
  foldl (λ acc m, let c := ngm_circuit_id (row_data m) in <[c := default [] (acc !! c) ++ [m]]> acc) ∅ members.
Fixpoint attach_members (proposal_members : gmap string (list GameroomMember)) (proposals : list GameroomProposal) :
    list ApiGameroomProposal :=
  match proposals with
  | [] => []
  | p :: proposals =>
      let circuit_id := ngp_circuit_id (row_data p) in
      api_proposal p (default [] (proposal_members !! circuit_id)) ::
        attach_members (delete circuit_id proposal_members) proposals
  end.
Definition list_proposals_from_db (limit offset : Z) : api_eff (list ApiGameroomProposal * Z) :=
  members ← select (list_gameroom_members_with_status "Pending");
  proposals ← select_page (list_proposals_with_paging (validate_limit limit) (as_i64 offset));
  n ← select get_proposal_count;
  mret (attach_members (group_members members) proposals, n).
Definition list_proposals (query : gmap string Z) : world → ApiResponse (SuccessResponse (list ApiGameroomProposal)) * world :=
  let offset := default DEFAULT_OFFSET (query !! "offset") in
  let limit := default DEFAULT_LIMIT (query !! "limit") in
  answer (list_answer limit offset "api/proposals?") (list_proposals_from_db limit offset).

Definition check_proposal_exists (proposal_id : Z) : api_eff () :=
  p ← select (fetch_proposal_by_id proposal_id);
  match p with
  | Some proposal =>
      if bool_decide (ngp_status (row_data proposal) = "Pending") then mret ()
      else throw (ApiBadRequestError ("Cannot vote on proposal with id " +:+ pretty proposal_id +:+
             ". The proposal status is " +:+ ngp_status (row_data proposal)))
  | None => throw (ApiNotFoundError ("Proposal with id " +:+ pretty proposal_id +:+ " not found."))
  end.
Definition make_vote_payload (vote : Msg.CircuitProposalVote) (local_node : string) : result RestApiResponseError bytes :=
  let vote_proto := Msg.proposal_vote_into_proto vote in
  make_payload Proto.CIRCUIT_PROPOSAL_VOTE (write_to_bytes vote_proto) local_node
    (λ header_bytes, Proto.mkCircuitManagementPayload header_bytes "" vote_proto (Proto.mkCircuitCreateRequest unset_circuit) "").
Definition proposal_vote (vote : Msg.CircuitProposalVote) (proposal_id : Z) (node_info : Node) :
    world → ApiResponse bytes * world :=
  answer (λ r, match r with
               | Ok _ => match make_vote_payload vote (identity node_info) with
                         | Ok bytes => ApiOk bytes
                         | Err _ => ApiInternalServerError
                         end
               | Err (ApiNotFoundError msg) => ApiNotFound msg
               | Err (ApiBadRequestError msg) => ApiBadRequest msg
               | Err _ => ApiInternalServerError
               end) (check_proposal_exists proposal_id).

(** ** Notifications ([routes/notification.rs], [routes/gameroom_websocket.rs]) *)

Record ApiNotification := mkApiNotification {
  an_id : Z;
  an_notification_type : string;
  an_org : string;
  an_requester : string;
  an_node_id : string;
  an_target : string;
  an_timestamp : Z;
  an_read : bool;
}.
Definition api_notification (n : GameroomNotification) : ApiNotification :=
  let r := row_data n in
  mkApiNotification (row_id n) (ngn_notification_type r) "" (ngn_requester r) (ngn_requester_node_id r) (ngn_target r)
    (epoch_secs (ngn_created_time r)) (ngn_read r).

Definition get_notification_from_db (id : Z) : api_eff ApiNotification :=
  n ← select (fetch_notification id);
  lift (ok_or (ApiNotFoundError ("Notification with id " +:+ pretty id +:+ " was not found")) (api_notification <$> n)).
Definition fetch_notificaiton (notification_id : Z) : world → ApiResponse (SuccessResponse ApiNotification) * world :=
  answer (fetch_answer success_new) (get_notification_from_db notification_id).

Definition list_unread_notifications_from_db (limit offset : Z) : api_eff (list ApiNotification * Z) :=
  l ← select_page (list_unread_notifications_with_paging (validate_limit limit) (as_i64 offset));
  n ← select get_unread_notification_count;
  mret (api_notification <$> l, n).
Definition list_unread_notifications (query : gmap string Z) :
    world → ApiResponse (SuccessResponse (list ApiNotification)) * world :=
  let offset := default DEFAULT_OFFSET (query !! "offset") in
  let limit := default DEFAULT_LIMIT (query !! "limit") in
  answer (list_answer limit offset "api/notifications?") (list_unread_notifications_from_db limit offset).

Definition update_gameroom_notification_in_db (id : Z) : api_eff ApiNotification :=
  api_conn;;
  n ← on_db (λ _, ApiDatabaseError "") (update_gameroom_notification id);
  lift (ok_or (ApiNotFoundError ("Notification with id " +:+ pretty id +:+ " not found")) (api_notification <$> n)).
Definition read_notification (notification_id : Z) : world → ApiResponse (SuccessResponse ApiNotification) * world :=
  answer (fetch_answer success_new) (update_gameroom_notification_in_db notification_id).

(** [SystemTime::checked_sub] *)
Definition checked_sub (t d : Z) : option Z := if (t - d <? - 2 ^ 63 * SECOND)%Z then None else Some (t - d)%Z.
Definition check_notifications : api_eff bool :=
  now ← system_now;
  match checked_sub now (3 * SECOND) with
  | Some earlier =>
      l ← select (fetch_notifications_by_time now earlier);
      mret (bool_decide (l ≠ []))
  | None => throw (ApiInternalError ("Unable to find new notifications since last check from now: " +:+ pretty (epoch_secs now)))
  end.
(** What is done every three seconds: the text that is sent, if any.  It is the JSON
    object of the namespace [notifications] and this action. *)
Definition NOTIFICATION_TEXT : string := "listNotifications".
Definition push_updates : world → option string * world :=
  answer (λ r, match r with Ok true => Some NOTIFICATION_TEXT | _ => None end) check_notifications.

Inductive SocketMessage :=
  | SocketPing (msg : string) | SocketPong (msg : string) | SocketText (msg : string) | SocketBinary (b : bytes)
  | SocketClose | SocketNop.
Inductive SocketAction := SocketSend (m : SocketMessage) | SocketStop | SocketNothing.
Definition socket_handle (msg : SocketMessage) : SocketAction :=
  match msg with
  | SocketPing msg => SocketSend (SocketPing msg)
  | SocketPong msg => SocketSend (SocketPong msg)
  | SocketText text => SocketSend (SocketText text)
  | SocketBinary bin => SocketSend (SocketBinary bin)
  | SocketClose => SocketStop
  | SocketNop => SocketNothing
  end.

(** ** Games ([routes/xo_games.rs]) *)

Record ApiXoGame := mkApiXoGame {
  ax_circuit_id : string;
  ax_game_name : string;
  ax_player_1 : string;
  ax_player_2 : string;
  ax_game_status : string;
  ax_game_board : string;
  ax_created_time : Z;
  ax_updated_time : Z;
}.
Definition api_xo_game (game : XoGame) : ApiXoGame :=
  let g := row_data game in
  mkApiXoGame (nxg_circuit_id g) (nxg_game_name g) (nxg_player_1 g) (nxg_player_2 g) (nxg_game_status g)
    (nxg_game_board g) (epoch_secs (nxg_created_time g)) (epoch_secs (nxg_updated_time g)).

Definition fetch_xo_game_from_db (circuit_id game_name : string) : api_eff ApiXoGame :=
  g ← select (fetch_xo_game circuit_id game_name);
  lift (ok_or (ApiNotFoundError ("XO Game with name " +:+ game_name +:+ " not found")) (api_xo_game <$> g)).
Definition fetch_xo (circuit_id game_name : string) : world → ApiResponse (SuccessResponse ApiXoGame) * world :=
  answer (fetch_answer success_new) (fetch_xo_game_from_db circuit_id game_name).

Definition list_xo_games_from_db (circuit_id : string) (limit offset : Z) : api_eff (list ApiXoGame * Z) :=
  l ← select_page (list_xo_games circuit_id (validate_limit limit) (as_i64 offset));
  n ← select get_xo_game_count;
  mret (api_xo_game <$> l, n).
Definition list_xo (circuit_id : string) (query : gmap string Z) : world → ApiResponse (SuccessResponse (list ApiXoGame)) * world :=
  let offset := default DEFAULT_OFFSET (query !! "offset") in
  let limit := default DEFAULT_LIMIT (query !! "limit") in
  answer (list_answer limit offset ("api/xo/" +:+ circuit_id +:+ "/games?")) (list_xo_games_from_db circuit_id limit offset).

(** ** Users ([routes/authenticate.rs]) *)

Definition HASH_COST : Z := 4.
Record AuthResponseData := mkAuthResponseData {
  ar_email : string;
  ar_public_key : string;
  ar_encrypted_private_key : string;
}.
Record AuthData := mkAuthData { ad_email : string; ad_hashed_password : string }.
Record UserCreate := mkUserCreate {
  uc_email : string;
  uc_hashed_password : string;
  uc_encrypted_private_key : string;
  uc_public_key : string;
}.

Definition hash_password (password : string) : api_eff string :=
  on_world (λ _, ApiInternalError "") (bcrypt_hash password HASH_COST).
Definition create_user (new_user : UserCreate) : api_eff AuthResponseData :=
  u ← select (fetch_user_by_email (uc_email new_user));
  match u with
  | Some _ => throw (ApiBadRequestError "User already exists")
  | None =>
      hashed_password ← hash_password (uc_hashed_password new_user);
      api_conn;;
      on_db (λ _, ApiDatabaseError "") (insert_user (mkGameroomUser (uc_email new_user) (uc_public_key new_user)
        (uc_encrypted_private_key new_user) hashed_password));;
      mret (mkAuthResponseData (uc_email new_user) (uc_public_key new_user) (uc_encrypted_private_key new_user))
  end.
Definition register (new_user : UserCreate) : world → ApiResponse (SuccessResponse AuthResponseData) * world :=
  answer (λ r, match r with
               | Ok user => ApiOk (success_new user)
               | Err e => ApiBadRequest (api_error_display e)
               end) (create_user new_user).

Definition authenticate_user (auth_data : AuthData) : api_eff AuthResponseData :=
  u ← select (fetch_user_by_email (ad_email auth_data));
  match u with
  | Some user =>
      ok ← lift (ok_or (ApiInternalError "") (bcrypt_verify (ad_hashed_password auth_data) (gu_hashed_password user)));
      if (ok : bool) then mret (mkAuthResponseData (gu_email user) (gu_public_key user) (gu_encrypted_private_key user))
      else throw ApiUnauthorizedError
  | None => throw ApiUnauthorizedError
  end.
Definition login (auth_data : AuthData) : world → ApiResponse (SuccessResponse AuthResponseData) * world :=
  answer (λ r, match r with
               | Ok user => ApiOk (success_new user)
               | Err _ => ApiUnauthorized "Invalid email or password"
               end) (authenticate_user auth_data).

(** ** Requests that are passed on ([routes/key.rs], [routes/node.rs], [routes/submit.rs]) *)

(** An error of the client or of the body of its response is given to actix. *)
Definition client_get (url : string) : eff world () (Z * bytes) :=
  resp ← on_world (λ e, e) (http_get url);
  body ← lift (ok_or () (hr_body resp));
  mret (hr_status resp, body).
Definition client_post (url : string) (payload : bytes) : eff world () (Z * bytes) :=
  resp ← on_world (λ e, e) (http_post url payload);
  body ← lift (ok_or () (hr_body resp));
  mret (hr_status resp, body).
Definition pass_on {A} (f : Z → bytes → ApiResponse A) : result () (Z * bytes) → ApiResponse A :=
  λ r, match r with Ok (status, body) => f status body | Err _ => ApiActixError end.
Definition parsed {A B} (o : option A) (f : A → ApiResponse B) : ApiResponse B :=
  match o with Some a => f a | None => ApiActixError end.

Definition fetch_key_info (splinterd_url public_key : string) : world → ApiResponse bytes * world :=
  answer (pass_on (λ status body,
    if bool_decide (status = 200%Z) then ApiOk body
    else if bool_decide (status = 404%Z) then ApiNotFound ("Could not find user information of key " +:+ public_key)
    else if bool_decide (status = 400%Z) then
      parsed (json_message body) (λ m, ApiBadRequest (message_or "Request was malformed." "Request malformed." m))
    else ApiInternalServerError)) (client_get (splinterd_url +:+ "/keys/" +:+ public_key)).

Definition fetch_node (node_identity splinterd_url : string) : world → ApiResponse (SuccessResponse Node) * world :=
  answer (pass_on (λ status body,
    if bool_decide (status = 200%Z) then parsed (json_node body) (λ node, ApiOk (success_new node))
    else parsed (json_string body) (λ message,
      if bool_decide (status = 404%Z) then ApiNotFound message else ApiInternalServerError)))
    (client_get (splinterd_url +:+ "/nodes/" +:+ node_identity)).

Definition list_nodes_url (splinterd_url : string) (query : gmap string string) : string :=
  let offset := default (pretty DEFAULT_OFFSET) (query !! "offset") in
  let limit := default (pretty DEFAULT_LIMIT) (query !! "limit") in
  let request_url := splinterd_url +:+ "/nodes" +:+ "?offset=" +:+ offset +:+ "&limit=" +:+ limit in
  match query !! "filter" with
  | Some filter => request_url +:+ "&filter=" +:+ percent_encode filter
  | None => request_url
  end.
Definition list_nodes (splinterd_url : string) (query : gmap string string) :
    world → ApiResponse (SuccessResponse (list Node)) * world :=
  answer (pass_on (λ status body,
    if bool_decide (status = 200%Z) then parsed (json_node_list body) ApiOk
    else parsed (json_string body) (λ message,
      if bool_decide (status = 400%Z) then ApiBadRequest message else ApiInternalServerError)))
    (client_get (list_nodes_url splinterd_url query)).

Definition submit_signed_payload (splinterd_url : string) (signed_payload : bytes) : world → ApiResponse (SuccessResponse string) * world :=
  answer (pass_on (λ status body,
    if bool_decide (status = 202%Z) then ApiAccepted (success_new "The payload was submitted successfully")
    else if bool_decide (status = 400%Z) then
      parsed (json_message body) (λ m, ApiBadRequest (message_or "Request malformed." "Request malformed." m))
    else ApiInternalServerError)) (client_post (splinterd_url +:+ "/admin/submit") signed_payload).

Definition DEFAULT_WAIT : Z := 30.
Definition u64_modulus : Z := 2 ^ 64.
Definition wait_of (query : gmap string string) : Z :=
  match query !! "wait" with
  | Some val => if bool_decide (val = "false") then 0%Z else default DEFAULT_WAIT (parse_unsigned u64_modulus val)
  | None => DEFAULT_WAIT
  end.

Definition parse_link (response_bytes : bytes) : result RestApiResponseError string :=
  m ← ok_or (ApiInternalError "Failed to parse batches_ids from splinterd response ") (json_string_map response_bytes);
  ok_or (ApiInternalError "The splinter daemon did not return a link for batch status") (m !! "link").

(** The error of an answer that is none of the expected *)
Definition splinterd_error {A} (status : Z) (body : bytes) : result RestApiResponseError A :=
  m ← ok_or (ApiInternalError "Failed to parse response body ") (json_message body);
  if bool_decide (status = 400%Z) then Err (ApiBadRequestError (message_or "Request malformed." "Request malformed." m))
  else Err (ApiInternalError (message_or "Unknown cause" "Unknown cause" m)).

Definition post_batches (splinterd_url circuit_id service_id : string) (signed_payload : bytes) : api_eff string :=
  resp ← on_world (λ _, ApiInternalError "Failed to send request ")
    (http_post (splinterd_url +:+ "/scabbard/" +:+ circuit_id +:+ "/" +:+ service_id +:+ "/batches") signed_payload);
  body ← lift (ok_or (ApiInternalError "Failed to receive response body ") (hr_body resp));
  if bool_decide (hr_status resp = 202%Z) then lift (parse_link body) else lift (splinterd_error (hr_status resp) body).

Definition still_waiting (b : BatchInfo) : bool :=
  match bi_status b with BatchPending => true | BatchValid _ => true | _ => false end.

(** The request is sent again every second until no batch waits or the time is over.  No
    result means that it is still sent again after that many requests. *)
Fixpoint check_batch_status (fuel : nat) (splinterd_url link : string) (start_time wait : Z) :
    eff world RestApiResponseError (option (list BatchInfo)) :=
  match fuel with
  | O => mret None
  | S fuel =>
      resp ← on_world (λ _, ApiInternalError "Failed to send request ") (http_get (splinterd_url +:+ link));
      body ← lift (ok_or (ApiInternalError "Failed to receive response body ") (hr_body resp));
      if bool_decide (hr_status resp = 200%Z) then
        batches_info ← lift (ok_or (ApiInternalError "Failed to parse response body ") (json_batch_infos body));
        if existsb still_waiting batches_info then
          now ← system_now;
          if (now - start_time <? wait * SECOND)%Z then
            sleep 1;;
            check_batch_status fuel splinterd_url link start_time wait
          else mret (Some batches_info)
        else mret (Some batches_info)
      else lift (splinterd_error (hr_status resp) body)
  end.

Definition invalid_batch (b : BatchInfo) : bool := match bi_status b with BatchInvalid _ => true | _ => false end.
Definition process_failed_baches (invalid_batches : list BatchInfo) : string :=
  match invalid_batches with
  | [] => ""
  | [b] =>
      match bi_status b with
      | BatchInvalid invalid_transactions =>
          if (length invalid_transactions <=? 1)%nat
          then "A transaction failed. Please try again. If it continues to fail contact your administrator for help."
          else "Several transactions failed. Please try again. If it continues to fail contact your administrator for help."
      | _ => ""
      end
  | _ => "Several transactions failed. Please try again. If it continues to fail please contact your administrator."
  end.
Definition batches_answer (batches_info : list BatchInfo) : ApiResponse (SuccessResponse (list BatchInfo)) :=
  let invalid_batches := base.filter (λ b, invalid_batch b = true) batches_info in
  if bool_decide (invalid_batches ≠ []) then
    ApiBadRequestWithData (process_failed_baches invalid_batches) (success_new batches_info)
  else if existsb (λ b, bool_decide (bi_status b = BatchPending)) batches_info then ApiAccepted (success_new batches_info)
  else ApiOk (success_new batches_info).

(** The data of an error is not in a [SuccessResponse], but has the same field. *)
Definition submit_scabbard_payload (fuel : nat) (splinterd_url circuit_id : string) (node_info : Node)
    (signed_payload : bytes) (query : gmap string string) :
    world → option (ApiResponse (SuccessResponse (list BatchInfo))) * world :=
  answer (λ r, match r with
               | Ok (Some batches_info) => Some (batches_answer batches_info)
               | Ok None => None
               | Err (ApiBadRequestError message) => Some (ApiBadRequest message)
               | Err _ => Some ApiInternalServerError
               end) (
    link ← post_batches splinterd_url circuit_id (gameroom_service_id (identity node_info)) signed_payload;
    start ← system_now;
    check_batch_status fuel splinterd_url link start (wait_of query)).
End routes.
