(* ===== verification/GameroomApi.v ===== *)
(** * What the routes of the gameroom daemon do

    Theorems on [GameroomRoutes]: the circuit of a proposal is one that the admin service
    accepts and the event handlers find their service in, users that register can log
    in, lists agree with the single answers, and waiting for batches ends. *)

From stdpp Require Import pretty.
From S2P Require Import Prelude Hex Circuit NodeRegistry Routes AdminMessages AdminShared.
From S2P Require Import AdminProps ScabbardState WebSocket GameroomDatabase GameroomSabre.
From S2P Require Import GameroomEvents GameroomProps GameroomRoutes.
From Stdlib Require Import Lia ZArith.

Lemma omap_filter_fmap {A B} (P : A → Prop) `{!∀ x, Decision (P x)} (f : A → B) (l : list A) :
  omap (λ x, if bool_decide (P x) then Some (f x) else None) l = f <$> filter P l.
Proof.
  induction l as [|x l IH]; [done|]. rewrite filter_cons. cbn. case_bool_decide.
  - rewrite decide_True by done. cbn. by rewrite IH.
  - by rewrite decide_False.
Qed.

Section api.
Context {W : Type} `{Hclock : !SystemClock W, Hpool : !ConnectionPool W, Hclient : !SplinterdClient W,
  Hlib : !ApiLibraries W, Hjson : !MetadataJson}.

Abbreviation world := (Database * W)%type.

(** ** Proposing *)

(** What the roster has for a member *)
Definition member_service (admin_keys : string) (members : list Msg.SplinterNode) (node : Msg.SplinterNode)
    (s : Msg.SplinterService) : Prop :=
  ∃ peers, json_of_strings (gameroom_service_id ∘ Msg.node_id <$> filter (λ m, Msg.node_id m ≠ Msg.node_id node) members) = Some peers ∧
    s = Msg.mkSplinterService (gameroom_service_id (Msg.node_id node)) "scabbard" [Msg.node_id node]
          [("admin_keys", admin_keys); ("peer_services", peers)].

Lemma gameroom_roster_spec admin_keys members nodes roster :
  gameroom_roster [("admin_keys", admin_keys)] members nodes = Some roster →
  Forall2 (member_service admin_keys members) nodes roster.
Proof.
  revert roster. induction nodes as [|node nodes IH]; intros roster; cbn; [by intros [= <-]|].
  destruct (json_of_strings (peer_services members node)) as [peers|] eqn:Hp; cbn; [|done].
  destruct (gameroom_roster _ members nodes) as [l|]; cbn; [|done]. intros [= <-].
  constructor; [|by apply IH]. exists peers. split; [|done]. rewrite <- Hp. unfold peer_services.
  by rewrite (omap_filter_fmap (λ m, Msg.node_id m ≠ Msg.node_id node) (λ m, gameroom_service_id (Msg.node_id m))).
Qed.

Definition the_members (node_info : Node) (nodes : list Node) : list Msg.SplinterNode :=
  (splinter_node <$> nodes) ++ [splinter_node node_info].

Lemma gameroom_circuit_spec form node_info data nodes s c s' :
  gameroom_circuit form node_info data nodes s = (Ok c, s') →
  let members := the_members node_info nodes in
  (∃ admin_keys, json_of_strings [gd_public_key data] = Some admin_keys ∧
     Forall2 (member_service admin_keys members) members (Msg.roster c)) ∧
  Msg.members c = members ∧ Msg.circuit_management_type c = "gameroom" ∧
  (∃ id, Msg.circuit_id c = "gameroom" +:+ id) ∧
  metadata_to_vec (mkApplicationMetadata (cg_alias form) [gd_public_key data]) = Some (Msg.application_metadata c).
Proof.
  unfold gameroom_circuit. fold (the_members node_info nodes). intros H.
  bind_step H admin_keys. bind_step H roster. bind_step H u. bind_step H md. bind_step H uuid. injection H as <- _. cbn.
  split_and!; [|done|done|by eexists|].
  - exists admin_keys. split; [done|]. by apply gameroom_roster_spec.
  - unfold metadata_to_bytes, metadata_new in Hstep2. destruct (metadata_to_vec _); cbn in Hstep2; congruence.
Qed.
(** The nodes that splinterd answers with when it is asked for all of them *)
Definition splinterd_nodes (url : string) (w : W) (all : list Node) : Prop :=
  ∃ resp body r w', http_get (url +:+ "/nodes?limit=" +:+ pretty (2 ^ 63 - 1)%Z) w = (Ok resp, w') ∧
    hr_status resp = 200%Z ∧ hr_body resp = Some body ∧ json_node_list body = Some r ∧ sr_data r = all.
(** The first of them with the identity *)
Definition node_with (all : list Node) (id : string) (node : Node) : Prop :=
  head (filter (λ n, identity n = id) all) = Some node.

Lemma node_with_identity all ids nodes : Forall2 (node_with all) ids nodes → identity <$> nodes = ids.
Proof.
  induction 1 as [|id node ids nodes Hn _ IH]; [done|]. cbn. rewrite IH.
  by apply head_Some_elem_of, list_elem_of_filter in Hn as [-> _].
Qed.

Lemma find_nodes_spec all node_ids nodes :
  find_nodes all node_ids = Ok nodes → Forall2 (node_with all) node_ids nodes.
Proof.
  revert nodes. induction node_ids as [|id ids IH]; intros nodes; cbn; [by intros [= <-]|]. intros H.
  apply result_bind_inv in H as (node & Hn%ok_or_inv & H). apply result_bind_inv in H as (l & Hl & [= <-]).
  constructor; [done|by apply IH].
Qed.

Lemma fetch_node_information_spec node_ids url (s : world) nodes s' :
  fetch_node_information node_ids url s = (Ok nodes, s') →
  ∃ all, splinterd_nodes url s.2 all ∧ Forall2 (node_with all) node_ids nodes.
Proof.
  destruct s as [d w]. unfold fetch_node_information. intros H. bind_step H resp. bind_step H body.
  case_bool_decide as Hs.
  - bind_step H l. apply lift_inv in H as [H _]. exists (sr_data l). split; [|by apply find_nodes_spec].
    unfold on_world in Hstep. destruct (http_get _ w) as [[resp'|] w1] eqn:Hg; cbn in Hstep; simplify_eq.
    by exists resp, body, l, w1.
  - bind_step H m. case_bool_decide; discriminate H.
Qed.

(** What the admin service needs of the nodes *)
Definition nodes_distinct (nodes : list Node) : Prop :=
  NoDup (identity <$> nodes) ∧ ("" ∉ identity <$> nodes) ∧ NoDup (endpoint_of <$> nodes) ∧ ("" ∉ endpoint_of <$> nodes).

Lemma gameroom_service_id_inj : Inj (=) (=) gameroom_service_id.
Proof. intros a b H. by apply (inj (String.append "gameroom_")) in H. Qed.

Lemma Forall2_roster_ids admin_keys members nodes roster :
  Forall2 (member_service admin_keys members) nodes roster →
  Msg.service_id <$> roster = gameroom_service_id ∘ Msg.node_id <$> nodes.
Proof. induction 1 as [|node s nodes roster (peers & _ & ->) _ IH]; [done|]. cbn. by rewrite IH. Qed.

Lemma service_of_member admin_keys members nodes roster node :
  Forall2 (member_service admin_keys members) nodes roster → node ∈ Msg.node_id <$> nodes →
  service_of_node node roster = Some (gameroom_service_id node).
Proof.
  unfold service_of_node. induction 1 as [|n s nodes roster (peers & _ & ->) _ IH]; [by intros ?%not_elem_of_nil|].
  cbn [fmap list_fmap]. intros Hin. rewrite filter_cons. cbn [Msg.allowed_nodes].
  destruct (decide (node ∈ [Msg.node_id n])) as [He|He].
  - apply list_elem_of_singleton in He as ->. done.
  - apply IH. rewrite list_elem_of_singleton in He. by apply elem_of_cons in Hin as [|].
Qed.

Lemma the_members_spec node_info nodes :
  (Msg.node_id <$> the_members node_info nodes) = identity <$> nodes ++ [node_info] ∧
  (Msg.endpoint <$> the_members node_info nodes) = endpoint_of <$> nodes ++ [node_info].
Proof.
  unfold the_members. rewrite !fmap_app, <- !list_fmap_compose. by split.
Qed.

Lemma proposed_circuit_valid form node_info data nodes s c s' req node :
  gameroom_circuit form node_info data nodes s = (Ok c, s') → Msg.create_circuit_into_proto c = Ok req →
  node ∈ identity <$> nodes ++ [node_info] →
  validate_circuit node (Proto.ccr_circuit req) = Ok () ↔ nodes_distinct (nodes ++ [node_info]).
Proof.
  intros Hc [= <-] Hnode. destruct (gameroom_circuit_spec _ _ _ _ _ _ _ Hc) as ((ak & _ & Hr) & Hm & Hty & (id & Hid) & _).
  destruct (the_members_spec node_info nodes) as [Hids Heps]. rewrite validate_circuit_iff.
  set (pc := Proto.ccr_circuit _).
  assert (Hids' : member_ids pc = identity <$> nodes ++ [node_info]).
  { unfold member_ids, pc. cbn. by rewrite <- list_fmap_compose, Hm, <- Hids. }
  assert (Heps' : Proto.endpoint <$> Proto.members pc = endpoint_of <$> nodes ++ [node_info]).
  { unfold pc. cbn. by rewrite <- list_fmap_compose, Hm, <- Heps. }
  assert (Hsid : Proto.service_id <$> Proto.roster pc = gameroom_service_id <$> (identity <$> nodes ++ [node_info])).
  { unfold pc. cbn. rewrite <- list_fmap_compose, <- Hids, <- list_fmap_compose. by apply (Forall2_roster_ids ak (the_members node_info nodes)). }
  split.
  - intros [_ _ _ _ _ _ [H1 H2] [H3 H4] _ _ _ _]. rewrite Hids' in H1, H2. rewrite Heps' in H3, H4. by split_and!.
  - intros (H1 & H2 & H3 & H4). split; try done; rewrite ?Hids', ?Heps', ?Hsid; try done.
    + unfold pc. cbn. by destruct (Msg.authorization_type c).
    + unfold pc. cbn. by destruct (Msg.persistence c).
    + unfold pc. cbn. by destruct (Msg.durability c).
    + unfold pc. cbn. by destruct (Msg.routes c).
    + unfold pc. cbn. by rewrite Hid.
    + unfold pc. cbn. by rewrite Hty.
    + split; [by apply NoDup_fmap_2; [apply gameroom_service_id_inj|]|]. intros (x & ? & _)%list_elem_of_fmap. done.
    + intros Hnil. rewrite Hnil in Hsid. cbn in Hsid. rewrite fmap_app, fmap_app in Hsid. by destruct (_ <$> (_ <$> nodes)).
    + intros x (y & -> & Hy)%list_elem_of_fmap. apply list_elem_of_lookup in Hy as [i Hy].
      destruct (Forall2_lookup_r _ _ _ _ _ Hr Hy) as (n & Hn & peers & _ & ->). exists (Msg.node_id n). split; [done|].
      rewrite <- Hids. apply list_elem_of_fmap. exists n. split; [done|]. by eapply list_elem_of_lookup_2.
Qed.

(** The documented behaviour of the JSON library *)
Definition metadata_law : Prop := ∀ m b, metadata_to_vec m = Some b → metadata_from_slice b = Some m.

Section payload.
Context `{Hc1 : !Codec Proto.CircuitCreateRequest, Hc2 : !Codec Proto.Header, Hl2 : !CodecLaws Proto.Header,
  Hc3 : !Codec Proto.CircuitManagementPayload, Hl3 : !CodecLaws Proto.CircuitManagementPayload}.

(** A payload that is ready to be signed: it has the request, and the header has its hash. *)
Definition unsigned_payload (local_node : string) (req : Proto.CircuitCreateRequest) (payload : bytes) : Prop :=
  ∃ p h b, parse_from_bytes payload = Some p ∧ Proto.circuit_create_request p = req ∧
    parse_from_bytes (Proto.header p) = Some h ∧ Proto.h_action h = Proto.CIRCUIT_CREATE_REQUEST ∧
    Proto.h_requester_node_id h = local_node ∧
    write_to_bytes req = Some b ∧ sha512_hash b = Some (Proto.h_payload_sha512 h).

Lemma make_create_payload_spec c local_node payload :
  make_create_payload c local_node = Ok payload →
  ∃ req, Msg.create_circuit_into_proto c = Ok req ∧ unsigned_payload local_node req payload.
Proof.
  unfold make_create_payload, make_payload. intros H. apply result_bind_inv in H as (req & Hr & H).
  apply result_bind_inv in H as (b & Hb%ok_or_inv & H). apply result_bind_inv in H as (h & Hh%ok_or_inv & H).
  apply result_bind_inv in H as (hb & Hhb%ok_or_inv & H%ok_or_inv).
  exists req. split; [by destruct (Msg.create_circuit_into_proto c); cbn in Hr; simplify_eq|].
  eexists _, _, b. split_and!; [by apply parse_write|done|by apply parse_write|done..].
Qed.

(** The service of a member in the roster of the request: a scabbard service that only
    runs on that node, administered with the key and with the services of the others. *)
Definition proto_service (key : string) (members : list Node) (node : Node) (sv : Proto.SplinterService) : Prop :=
  ∃ keys peers, json_of_strings [key] = Some keys ∧
    json_of_strings (gameroom_service_id <$> filter (λ id, id ≠ identity node) (identity <$> members)) = Some peers ∧
    sv = Proto.mkSplinterService (gameroom_service_id (identity node)) "scabbard" [identity node]
           [("admin_keys", keys); ("peer_services", peers)].

Lemma filter_fmap_ids (members : list Msg.SplinterNode) id :
  Msg.node_id <$> filter (λ m, Msg.node_id m ≠ id) members = filter (λ x, x ≠ id) (Msg.node_id <$> members).
Proof.
  induction members as [|m l IH]; [done|]. rewrite filter_cons, fmap_cons, filter_cons. case_decide; cbn; by rewrite IH.
Qed.

Lemma proposed_proto form node_info data nodes s c s' req :
  gameroom_circuit form node_info data nodes s = (Ok c, s') → Msg.create_circuit_into_proto c = Ok req →
  Proto.members (Proto.ccr_circuit req) =
    (λ n, Proto.mkSplinterNode (identity n) (default "" (metadata n !! "endpoint"))) <$> nodes ++ [node_info] ∧
  Forall2 (proto_service (gd_public_key data) (nodes ++ [node_info])) (nodes ++ [node_info])
    (Proto.roster (Proto.ccr_circuit req)).
Proof.
  intros Hc [= <-]. destruct (gameroom_circuit_spec _ _ _ _ _ _ _ Hc) as ((keys & Hk & Hr) & Hm & _).
  assert (the_members node_info nodes = splinter_node <$> nodes ++ [node_info]) as Hthe.
  { unfold the_members. by rewrite fmap_app. }
  split; cbn; [rewrite Hm, Hthe, <- list_fmap_compose; done|].
  rewrite Hthe in Hr. rewrite Forall2_fmap_r. rewrite Forall2_fmap_l in Hr. eapply Forall2_impl; [exact Hr|].
  intros node sv (peers & Hp & ->). exists keys, peers. split_and!; [done| |done].
  rewrite <- Hp, (list_fmap_compose Msg.node_id gameroom_service_id), filter_fmap_ids, <- list_fmap_compose. done.
Qed.

(** C28: a proposal of a gameroom that is answered with a payload: the payload asks for the
    circuit of the nodes of the form and the own node, and its header has the hash of the
    request.  The members are, in the order of the form, the nodes that splinterd has
    under these identities, each with the endpoint of its metadata, and last the own node;
    the roster has for each a scabbard service that runs on it alone, with the services
    of the others as its peers and the key of the proposing daemon as the one that
    administers it.  The admin service of each of these nodes accepts the circuit exactly
    when the nodes and their endpoints are named and distinct, which the route does not
    check; the daemon of each finds its service in the event of the circuit, the one to
    which its REST interface submits batches; and the metadata name the alias and, as the
    one that sets up the contract, the node that proposed. *)
Theorem proposed_gameroom_valid form node_info url data (s : world) payload s' :
  metadata_law → propose_gameroom form node_info url data s = (ApiOk payload, s') →
  ∃ all nodes req,
    splinterd_nodes url s.2 all ∧ Forall2 (node_with all) (cg_members form) nodes ∧
    unsigned_payload (identity node_info) req payload ∧
    Proto.members (Proto.ccr_circuit req) =
      (λ n, Proto.mkSplinterNode (identity n) (default "" (metadata n !! "endpoint"))) <$> nodes ++ [node_info] ∧
    Forall2 (proto_service (gd_public_key data) (nodes ++ [node_info])) (nodes ++ [node_info])
      (Proto.roster (Proto.ccr_circuit req)) ∧
    ∀ node, node ∈ cg_members form ++ [identity node_info] →
      (validate_circuit node (Proto.ccr_circuit req) = Ok () ↔ nodes_distinct (nodes ++ [node_info])) ∧
      ∃ c, Msg.create_circuit_from_proto (Proto.ccr_circuit req) = Ok c ∧
        service_of_node node (Msg.roster c) = Some (gameroom_service_id node) ∧
        metadata_from_slice (Msg.application_metadata c) = Some (mkApplicationMetadata (cg_alias form) [gd_public_key data]).
Proof.
  intros Hlaw H. unfold propose_gameroom, answer in H.
  match type of H with (let '(_, _) := ?m in _) = _ => destruct m as [[bytes|e] s1] eqn:Hm end;
    [|by destruct e]. injection H as <- <-. bind_step Hm nodes. bind_step Hm c. apply lift_inv in Hm as [Hm _].
  unfold emap_err in Hstep. destruct (fetch_node_information _ _ _) as [[l|] s2] eqn:Hf; cbn in Hstep; [|done].
  simplify_eq. apply fetch_node_information_spec in Hf as (all & Hall & Hnodes).
  pose proof (node_with_identity _ _ _ Hnodes) as Hids.
  destruct (make_create_payload c (identity node_info)) as [b|] eqn:Hp; cbn in Hm; [|done]. simplify_eq.
  apply make_create_payload_spec in Hp as (req & Hreq & Hp). exists all, nodes, req.
  destruct (proposed_proto _ _ _ _ _ _ _ _ Hstep0 Hreq) as [Hmem Hros]. split_and!; [done..|].
  intros node Hn. assert (Hn' : node ∈ identity <$> nodes ++ [node_info]) by (by rewrite fmap_app, Hids).
  split; [by eapply proposed_circuit_valid|]. exists c. split; [by destruct req; apply Msg.create_circuit_roundtrip|].
  destruct (gameroom_circuit_spec _ _ _ _ _ _ _ Hstep0) as ((ak & _ & Hr) & _ & _ & _ & Hmd).
  split; [|by apply Hlaw]. eapply service_of_member; [exact Hr|]. by rewrite (proj1 (the_members_spec _ _)).
Qed.
End payload.

(** ** Users *)

Definition login_ok (email password : string) (user : AuthResponseData) (d : Database) : Prop :=
  ∃ u, fetch_user_by_email email d = Some u ∧ bcrypt_verify password (gu_hashed_password u) = Some true ∧
    user = mkAuthResponseData (gu_email u) (gu_public_key u) (gu_encrypted_private_key u).

Lemma fetch_user_app email d u us :
  fetch_user_by_email email d = Some u → fetch_user_by_email email (set_user (db_user d ++ us) d) = Some u.
Proof. unfold fetch_user_by_email. cbn [db_user set_user]. rewrite first_row_app. by intros ->. Qed.

(** The users that there are do not change when one registers. *)
Lemma register_users new_user d (w : W) : ∃ us, db_user (register new_user (d, w)).2.1 = db_user d ++ us.
Proof.
  assert (H : wp (create_user new_user) (λ _ s, ∃ us, db_user s.1 = db_user d ++ us) (d, w)).
  { unfold create_user, select. wp_go. apply wp_on_world. intros [[]|[]] w1; cbn; [|by exists []; rewrite app_nil_r].
    wp_go. apply wp_get_db. wp_go. destruct (fetch_user_by_email _ d); wp_go; [by exists []; rewrite app_nil_r|].
    apply wp_on_world. intros [h|[]] w2; cbn; [|by exists []; rewrite app_nil_r]. wp_go.
    apply wp_on_world. intros [[]|[]] w3; cbn; [|by exists []; rewrite app_nil_r]. wp_go.
    apply wp_on_db. unfold insert_user, require. wp_go. destruct (negb _); wp_go; [by eexists|by exists []; rewrite app_nil_r]. }
  unfold register, answer, wp in *. by destruct (create_user new_user (d, w)) as [r s].
Qed.

Lemma registered_found new_user d (w : W) user s' :
  (∀ password cost w h w', bcrypt_hash password cost w = (Ok h, w') → bcrypt_verify password h = Some true) →
  register new_user (d, w) = (ApiOk (success_new user), s') →
  user = mkAuthResponseData (uc_email new_user) (uc_public_key new_user) (uc_encrypted_private_key new_user) ∧
  login_ok (uc_email new_user) (uc_hashed_password new_user) user s'.1.
Proof.
  intros Hlaw. assert (H : wp (create_user new_user) (λ r s, ∀ user, r = Ok user →
    user = mkAuthResponseData (uc_email new_user) (uc_public_key new_user) (uc_encrypted_private_key new_user) ∧
    login_ok (uc_email new_user) (uc_hashed_password new_user) user s.1) (d, w)).
  { unfold create_user, select. wp_go. apply wp_on_world. intros [[]|[]] w1; cbn; [|done].
    wp_go. apply wp_get_db. wp_go. destruct (fetch_user_by_email _ d) eqn:Hu; wp_go; [done|].
    unfold hash_password, wp at 1, on_world. destruct (bcrypt_hash _ _ w1) as [[h|[]] w2] eqn:Hh; cbn; [|done].
    wp_go. apply wp_on_world. intros [[]|[]] w3; cbn; [|done]. wp_go.
    apply wp_on_db. unfold insert_user, require. wp_go. destruct (negb _); wp_go; [|done].
    intros user' [= <-]. split; [done|]. 
    exists (mkGameroomUser (uc_email new_user) (uc_public_key new_user) (uc_encrypted_private_key new_user) h).
    split_and!; [|by eapply Hlaw|done]. unfold fetch_user_by_email in *. cbn [fst db_user set_user]. rewrite first_row_app, Hu, first_row_cons.
    by rewrite bool_decide_eq_true_2. }
  unfold register, answer, wp in *. destruct (create_user new_user (d, w)) as [[a|e] s]; [|done].
  intros [= -> ->]. by apply H.
Qed.

(** A user that has registered can log in with the password, also after others have
    registered, whenever there is a connection. *)
Theorem registered_logs_in new_user others d (w : W) user s' s'' w'' :
  (∀ password cost w h w', bcrypt_hash password cost w = (Ok h, w') → bcrypt_verify password h = Some true) →
  register new_user (d, w) = (ApiOk (success_new user), s') →
  s'' = foldl (λ s u, (register u s).2) s' others → pool_get s''.2 = (Ok (), w'') →
  (login (mkAuthData (uc_email new_user) (uc_hashed_password new_user)) s'').1 = ApiOk (success_new user).
Proof.
  intros Hlaw Hr Hs Hpg. destruct (registered_found _ _ _ _ _ Hlaw Hr) as [_ Hok].
  assert (Hok' : login_ok (uc_email new_user) (uc_hashed_password new_user) user s''.1).
  { subst s''. clear Hr Hpg. revert s' Hok. induction others as [|u others IH]; intros [d' w'] Hok; [done|]. cbn. apply IH.
    destruct (register_users u d' w') as [us Hus]. destruct Hok as (x & Hx & ? & ?). exists x. split_and!; [|done|done].
    apply (fetch_user_app _ _ _ us) in Hx. unfold fetch_user_by_email in *. by rewrite Hus. }
  destruct Hok' as (u & Hu & Hv & ->), s'' as [d2 w2]. cbn in Hpg, Hu.
  unfold login, answer, authenticate_user, select, api_conn, on_world, mbind, eff_bind. cbn.
  by rewrite Hpg; cbn; rewrite Hu; cbn; rewrite Hv.
Qed.

(** ** Proposals in a list *)

Lemma group_members_lookup (members : list GameroomMember) c :
  default [] (group_members members !! c) = filter (λ m, ngm_circuit_id (row_data m) = c) members.
Proof.
  unfold group_members. induction members as [|m members IH] using rev_ind; [done|].
  rewrite foldl_snoc, filter_app. cbn zeta. destruct (decide (ngm_circuit_id (row_data m) = c)) as [<-|Hc].
  - rewrite lookup_insert_eq, filter_cons_True by done. exact (f_equal (.++ [m]) IH).
  - rewrite lookup_insert_ne by done. rewrite filter_cons_False by done. by rewrite app_nil_r, IH.
Qed.

Lemma attach_members_distinct m proposals :
  NoDup ((λ r, ngp_circuit_id (row_data r)) <$> proposals) →
  attach_members m proposals = (λ p, api_proposal p (default [] (m !! ngp_circuit_id (row_data p)))) <$> proposals.
Proof.
  revert m. induction proposals as [|p proposals IH]; intros m; [done|]. rewrite fmap_cons. intros [Hp Hd]%NoDup_cons.
  cbn. f_equal. rewrite IH by done. apply list_fmap_ext. intros i q Hq. f_equal. rewrite lookup_delete_ne; [done|].
  intros He. apply Hp. rewrite He. apply list_elem_of_fmap. exists q. split; [done|]. by eapply list_elem_of_lookup_2.
Qed.

Lemma pending_members d c :
  filter (λ m, ngm_circuit_id (row_data m) = c) (list_gameroom_members_with_status "Pending" d) =
  fetch_gameroom_members_by_circuit_id_and_status c "Pending" d.
Proof.
  unfold list_gameroom_members_with_status, fetch_gameroom_members_by_circuit_id_and_status, select_rows.
  rewrite list_filter_filter. apply list_filter_iff. intros r. rewrite andb_true_iff, !bool_decide_eq_true. done.
Qed.

(** What is answered for a proposal *)
Definition proposal_answer (d : Database) (p : GameroomProposal) : ApiGameroomProposal :=
  api_proposal p (fetch_gameroom_members_by_circuit_id_and_status (ngp_circuit_id (row_data p)) "Pending" d).

Lemma fetch_by_id d p :
  coherent d → p ∈ tb_rows (db_proposal d) → fetch_proposal_by_id (row_id p) d = Some p.
Proof.
  intros (_ & _ & [_ Hi _ _]) Hp. unfold fetch_proposal_by_id. induction (tb_rows (db_proposal d)) as [|r rows IH];
    [by apply not_elem_of_nil in Hp|]. rewrite fmap_cons, NoDup_cons in Hi. destruct Hi as [Hr Hi]. rewrite first_row_cons.
  apply elem_of_cons in Hp as [->|Hp]; [by rewrite bool_decide_eq_true_2|].
  rewrite bool_decide_eq_false_2; [by apply IH|]. intros He. apply Hr. rewrite He. apply list_elem_of_fmap. eauto.
Qed.

(** In the states of the database that the event handlers lead to, the list of proposals
    has for each the same answer that a request for its number has, with all the
    members while it is pending. *)
Theorem listed_proposals_agree limit offset d (w : W) l n s' :
  coherent d → list_proposals_from_db limit offset (d, w) = (Ok (l, n), s') →
  ∃ proposals, list_proposals_with_paging (validate_limit limit) (as_i64 offset) d = Ok proposals ∧
    l = proposal_answer d <$> proposals ∧ n = get_proposal_count d ∧
    ∀ p w1 a s1, p ∈ proposals → get_proposal_from_db (row_id p) (d, w1) = (Ok a, s1) → a = proposal_answer d p.
Proof.
  assert (Hsel : ∀ A (f : Database → A) w a s', select f (d, w) = (Ok a, s') → a = f d ∧ s'.1 = d).
  { intros A f w0 a s0. unfold select, api_conn, on_world, mbind, eff_bind. cbn.
    destruct (pool_get w0) as [[[]|] w1]; cbn; [|done]. by intros [= <- <-]. }
  intros Hd H. unfold list_proposals_from_db, select_page in H.
  apply eff_bind_inv in H as (ms & [d1 w1] & [-> Hd1]%Hsel & H). cbn in Hd1. subst d1.
  apply eff_bind_inv in H as (ps & [d2 w2] & H1 & H). apply eff_bind_inv in H1 as (r & [d3 w3] & [-> Hd3]%Hsel & H1).
  apply lift_inv in H1 as [Hps Hd2]. cbn in Hd3. injection Hd2 as -> ->. subst d3.
  apply eff_bind_inv in H as (k & s4 & [-> _]%Hsel & H). injection H as <- <- _.
  destruct (list_proposals_with_paging _ _ d) as [proposals|] eqn:Hp; cbn in Hps; [|done]. injection Hps as ->.
  assert (Hsub : ps `sublist_of` tb_rows (db_proposal d)).
  { unfold list_proposals_with_paging, page in Hp. destruct (_ || _); [done|]. injection Hp as <-.
    etrans; [apply sublist_take|apply sublist_drop]. }
  exists ps. split_and!; [done| |done|].
  - rewrite attach_members_distinct; [apply list_fmap_ext; intros i p _; unfold proposal_answer; f_equal|].
    + by rewrite group_members_lookup, pending_members.
    + eapply sublist_NoDup; [|exact (fmap_sublist _ _ _ Hsub)]. apply Hd.
  - intros p w4 a s5 Hin Ha. unfold get_proposal_from_db in Ha.
    apply eff_bind_inv in Ha as (o & [d5 w5] & [-> Hd5]%Hsel & Ha). cbn in Hd5. subst d5.
    rewrite fetch_by_id in Ha by (done || by eapply elem_of_sublist).
    apply eff_bind_inv in Ha as (m & s6 & [-> _]%Hsel & Ha). by injection Ha as <- _.
Qed.

(** ** Waiting for batches *)

(** Time passes: the clock does not go back, and a second of sleep takes a second. *)
Class Elapses := {
  elapsed : W → Z;
  elapsed_now w t w' : system_time w = (t, w') → (elapsed w ≤ t ≤ elapsed w')%Z;
  elapsed_get url w r w' : http_get url w = (r, w') → (elapsed w ≤ elapsed w')%Z;
  elapsed_sleep w : (elapsed w + SECOND ≤ elapsed (sleep_secs 1 w))%Z;
}.

Lemma check_batch_status_ends `{Helapses : !Elapses} fuel url link start wait d (w : W) :
  (0 < Z.of_nat fuel)%Z → (wait * SECOND - (elapsed w - start) ≤ (Z.of_nat fuel - 1) * SECOND)%Z →
  wp (check_batch_status fuel url link start wait) (λ r _, r ≠ Ok None) (d, w).
Proof.
  revert w. induction fuel as [|fuel IH]; intros w Hpos Hfuel; [lia|]. cbn [check_batch_status]. apply wp_bind.
  unfold wp at 1, on_world. destruct (http_get _ w) as [[resp|[]] w1] eqn:Hget; cbn; [|done].
  apply elapsed_get in Hget. wp_go. destruct (hr_body resp) as [body|]; cbn; [|done].
  destruct (bool_decide _); [|wp_go; unfold splinterd_error; destruct (json_message body); cbn; [by case_bool_decide|done]].
  wp_go. destruct (json_batch_infos body) as [infos|]; cbn; [|done].
  destruct (existsb still_waiting infos); wp_go; [|done].
  unfold wp at 1, system_now. destruct (system_time w1) as [t w2] eqn:Ht. apply elapsed_now in Ht.
  destruct (Z.ltb_spec (t - start) (wait * SECOND)); wp_go; [|done].
  change (wp (check_batch_status fuel url link start wait) (λ r _, r ≠ Ok None) (d, sleep_secs 1 w2)).
  pose proof (elapsed_sleep w2). unfold SECOND in *. apply IH; nia.
Qed.

(** A request that submits batches is answered after at most one request for their status
    more than the seconds it was asked to wait. *)
Theorem submit_answers `{Helapses : !Elapses} fuel url circuit_id node payload query d (w : W) :
  (0 ≤ wait_of query < Z.of_nat fuel)%Z →
  (submit_scabbard_payload fuel url circuit_id node payload query (d, w)).1 ≠ None.
Proof.
  intros Hfuel.
  assert (H : wp (link ← post_batches url circuit_id (gameroom_service_id (identity node)) payload; start ← system_now;
    check_batch_status fuel url link start (wait_of query)) (λ r _, r ≠ Ok None) (d, w)).
  { apply wp_bind. unfold wp. destruct (post_batches _ _ _ _ _) as [[link|e] [d1 w1]]; [|done].
    change (wp (start ← system_now; check_batch_status fuel url link start (wait_of query)) (λ r _, r ≠ Ok None) (d1, w1)).
    apply wp_bind. unfold wp at 1, system_now. destruct (system_time w1) as [t w2] eqn:Ht. apply elapsed_now in Ht.
    apply check_batch_status_ends; unfold SECOND; nia. }
  unfold submit_scabbard_payload, answer. unfold wp in H.
  match goal with |- (let '(_, _) := ?m in _).1 ≠ _ => destruct m as [[[l|]|[]] s'] end; done.
Qed.
End api.

(** ** Shortcomings *)

(** A list with a limit of zero makes the worker panic as soon as there is a row. *)
Lemma zero_limit_list_panics {A} offset link (l : list A) n :
  (0 < n < 2 ^ 63)%Z → list_answer 0 offset link (Ok (l, n)) = ApiPanic.
Proof.
  intros Hn. unfold list_answer, gameroom_paging_info, as_usize, as_i64, i64_modulus.
  rewrite !Z.mod_mod, !(Z.mod_small n) by lia. rewrite (proj2 (Z.ltb_lt n (2 ^ 63))) by lia.
  by rewrite (proj2 (Z.gtb_gt n 0)) by lia.
Qed.

(** A payload is made for a vote on any circuit, whatever the circuit of the proposal whose
    number is in the request. *)
Lemma vote_circuit_unchecked {W} `{!ConnectionPool W, !ApiLibraries W} `{!Codec Proto.CircuitProposalVote,
    !Codec Proto.Header, !Codec Proto.CircuitManagementPayload} vote id node (s s' : Database * W) payload :
  check_proposal_exists id s = (Ok (), s') → make_vote_payload vote (identity node) = Ok payload →
  proposal_vote vote id node s = (ApiOk payload, s').
Proof. intros H1 H2. unfold proposal_vote, answer. by rewrite H1, H2. Qed.

(** ** An instance *)

Module GameroomApiMock.

#[local] Instance ApplicationMetadata_eq_dec : EqDecision ApplicationMetadata.
Proof. solve_decision. Defined.
#[local] Instance Action_eq_dec : EqDecision Proto.Action.
Proof. solve_decision. Defined.
#[local] Instance Header_eq_dec : EqDecision Proto.Header.
Proof. solve_decision. Defined.
#[local] Instance Node_eq_dec : EqDecision Proto.SplinterNode.
Proof. solve_decision. Defined.
#[local] Instance Service_eq_dec : EqDecision Proto.SplinterService.
Proof. solve_decision. Defined.
#[local] Instance ProtoCircuit_eq_dec : EqDecision Proto.Circuit.
Proof. solve_decision. Defined.
#[local] Instance ProtoVote_eq_dec : EqDecision Proto.CircuitProposalVote.
Proof. solve_decision. Defined.
#[local] Instance Request_eq_dec : EqDecision Proto.CircuitCreateRequest.
Proof. solve_decision. Defined.
#[local] Instance Payload_eq_dec : EqDecision Proto.CircuitManagementPayload.
Proof. solve_decision. Defined.

Definition node_a : Node := mkNode "A" {["endpoint" := "tcp://a"]}.
Definition node_b : Node := mkNode "B" {["endpoint" := "tcp://b"]}.
Definition form : CreateGameroomForm := mkCreateGameroomForm "room" ["B"].
Definition data : GameroomdData := mkGameroomdData "key".
Definition the_metadata : ApplicationMetadata := mkApplicationMetadata "room" ["key"].

Definition circuit : Proto.Circuit :=
  Proto.mkCircuit "gameroom::B::A::uuid"
    [Proto.mkSplinterService "gameroom_B" "scabbard" ["B"] [("admin_keys", "key"); ("peer_services", "gameroom_A")];
     Proto.mkSplinterService "gameroom_A" "scabbard" ["A"] [("admin_keys", "key"); ("peer_services", "gameroom_B")]]
    [Proto.mkSplinterNode "B" "tcp://b"; Proto.mkSplinterNode "A" "tcp://a"]
    Proto.TRUST_AUTHORIZATION Proto.ANY_PERSISTENCE Proto.NO_DURABILITY Proto.ANY_ROUTE "gameroom" "metadata".
Definition request : Proto.CircuitCreateRequest := Proto.mkCircuitCreateRequest circuit.
Definition header : Proto.Header := Proto.mkHeader Proto.CIRCUIT_CREATE_REQUEST "" "hash" "A".
Definition payload : Proto.CircuitManagementPayload :=
  Proto.mkCircuitManagementPayload "header" "" unset_vote request "".

(** Libraries that know the one message *)
Definition one_codec {M} `{!EqDecision M} (m : M) (b : bytes) : Codec M := {|
  parse_from_bytes x := if bool_decide (x = b) then Some m else None;
  write_to_bytes x := if bool_decide (x = m) then Some b else None;
|}.
Lemma one_codec_laws {M} `{!EqDecision M} (m : M) b : @CodecLaws M (one_codec m b).
Proof. intros x c. cbn. case_bool_decide; [|done]. intros [= <-]. subst. by rewrite bool_decide_eq_true_2. Qed.

#[local] Instance request_codec : Codec Proto.CircuitCreateRequest := one_codec request "request".
#[local] Instance header_codec : Codec Proto.Header := one_codec header "header".
#[local] Instance payload_codec : Codec Proto.CircuitManagementPayload := one_codec payload "payload".

#[local] Instance mock_clock : SystemClock Z := λ w, (w, (w + 1)%Z).
#[local] Instance mock_pool : ConnectionPool Z := mret ().
#[local] Instance mock_client : SplinterdClient Z := {|
  http_get _ := mret (mkHttpReply 200 (Some "nodes"));
  http_post _ _ := mret (mkHttpReply 202 (Some ""));
|}.
#[local] Instance mock_json : MetadataJson := {|
  metadata_from_slice b := if bool_decide (b = "metadata") then Some the_metadata else None;
  metadata_to_vec m := if bool_decide (m = the_metadata) then Some "metadata" else None;
|}.
#[local] Instance mock_libraries : ApiLibraries Z := {|
  json_node_list _ := Some (success_new [node_a; node_b]);
  json_node _ := Some node_a;
  json_string _ := Some "";
  json_message _ := None;
  json_batch_infos _ := Some [];
  json_string_map _ := Some ∅;
  json_of_strings l := Some (String.concat "," l);
  percent_encode s := s;
  bcrypt_hash p _ := mret p;
  bcrypt_verify p h := Some (bool_decide (p = h));
  new_uuid w := ("uuid", w);
  sha512_hash b := Some "hash";
  sleep_secs n w := (w + n * SECOND)%Z;
|}.

Lemma proposed_gameroom_valid_witness :
  ∃ all nodes req,
    splinterd_nodes "url" 0%Z all ∧ Forall2 (node_with all) ["B"] nodes ∧ unsigned_payload "A" req "payload" ∧
    Proto.members (Proto.ccr_circuit req) =
      (λ n, Proto.mkSplinterNode (identity n) (default "" (metadata n !! "endpoint"))) <$> nodes ++ [node_a] ∧
    Forall2 (proto_service "key" (nodes ++ [node_a])) (nodes ++ [node_a]) (Proto.roster (Proto.ccr_circuit req)) ∧
    ∀ node, node ∈ ["B"; "A"] →
      (validate_circuit node (Proto.ccr_circuit req) = Ok () ↔ nodes_distinct (nodes ++ [node_a])) ∧
      ∃ c, Msg.create_circuit_from_proto (Proto.ccr_circuit req) = Ok c ∧
        service_of_node node (Msg.roster c) = Some (gameroom_service_id node) ∧
        metadata_from_slice (Msg.application_metadata c) = Some (mkApplicationMetadata "room" ["key"]).
Proof.
  apply (proposed_gameroom_valid (Hl2 := one_codec_laws header "header") (Hl3 := one_codec_laws payload "payload")
    form node_a "url" data (database_new, 0%Z) "payload" (database_new, 0%Z)).
  - intros m b. cbn. case_bool_decide; [|done]. intros [= <-]. subst. reflexivity.
  - vm_compute. reflexivity.
Defined.

(** The total of the games of a circuit counts those of all circuits. *)
Definition game_in_c : Database :=
  set_xo_game (insert_rows [mkNewXoGame "c" "game" "" "" "P1-NEXT" "---------" 0 0] empty_table) database_new.
Lemma xo_total_counts_all : (list_xo_games_from_db "other" 100 0 (game_in_c, 0%Z)).1 = Ok ([], 1%Z).
Proof. vm_compute. reflexivity. Qed.

(** Notifications are looked for in the last three seconds, every three seconds: one is
    announced twice when it falls on the border, and never when a look is late. *)
Definition notified_at (t : Z) : Database :=
  set_notification (insert_rows [create_new_notification "type" "r" "A" "c" t] empty_table) database_new.
Lemma check_notified t now :
  (0 ≤ now)%Z →
  (check_notifications (notified_at t, now)).1 = Ok ((now - 3 * SECOND <=? t)%Z && (t <=? now)%Z).
Proof.
  intros Hnow. unfold check_notifications, checked_sub, select, api_conn, on_world, system_now, mbind, eff_bind.
  cbn -[fetch_notifications_by_time SECOND Z.ltb]. rewrite (proj2 (Z.ltb_ge _ _)) by (unfold SECOND; lia).
  cbn -[fetch_notifications_by_time SECOND Z.ltb]. f_equal.
  unfold fetch_notifications_by_time, select_rows. change (tb_rows _) with [mkNumbered 1 (create_new_notification "type" "r" "A" "c" t)].
  rewrite filter_cons. cbn [row_data ngn_created_time create_new_notification].
  destruct (_ && _); [by rewrite decide_True|by rewrite decide_False].
Qed.
Lemma notification_twice t :
  (0 ≤ t)%Z → (check_notifications (notified_at t, t)).1 = Ok true ∧
  (check_notifications (notified_at t, t + 3 * SECOND)%Z).1 = Ok true.
Proof.
  intros Ht. rewrite !check_notified by (unfold SECOND; lia).
  by rewrite !(proj2 (Z.leb_le _ _)) by (unfold SECOND; lia).
Qed.
Lemma notification_missed t :
  (0 ≤ t)%Z → (check_notifications (notified_at t, t + 3 * SECOND + 1)%Z).1 = Ok false.
Proof.
  intros Ht. rewrite check_notified by (unfold SECOND; lia).
  by rewrite (proj2 (Z.leb_gt _ _)) by (unfold SECOND; lia).
Qed.
End GameroomApiMock.
